(* ===== verification/_CoqProject ===== *)
-Q . S2P
Prelude.v
CFloat.v
MpuData.v
MpuBus.v
InvMpu.v
InvMpuRead.v
DmpImage.v
DmpDriver.v
MpuDmp.v
SimBus.v
MpuCoherence.v
MpuSystem.v
MpuSpec.v
DmpMemory.v
DmpSpec.v
Orientation.v
DmpInvariant.v
Kernel.v
KernelSpec.v
I2cBit.v
I2cBitSpec.v
I2cTransfer.v
I2cPort.v
WaitQueue.v
Mailbox.v
MailboxSpec.v
MailboxSystem.v
Semaphore.v
SemaphoreSystem.v
Mutex.v
MutexSystem.v
MutexPriority.v
Event.v
EventSystem.v
CTime.v
Calendar.v
Rtc.v
RtcSpec.v
App.v
AppText.v
AppPages.v
Display.v
DisplaySpec.v
MailboxClient.v
Heap.v
HeapSpec.v
HeapFree.v
HeapSystem.v
Wakes.v
MessageQueue.v
MessageQueueSpec.v
MessageQueueSystem.v
MemPool.v
MemPoolSystem.v
RingBuffer.v
RingBufferSpec.v
RingBufferSystem.v
Sched.v
SchedSpec.v
SchedSystem.v
Timer.v
TimerSpec.v
TimerSystem.v
SoftTimer.v
SoftTimerSystem.v
AtClient.v
AtLines.v
AtSystem.v
AtSocket.v
AtFrames.v
AtStream.v
AtTable.v
AtTableSystem.v
AtSend.v
AtSendSystem.v
AtAddr.v
