(* ===== verification/Prelude.v ===== *)
(** * Multifunction_clock: a verification development

    The program is a desk clock on an STM32F103 (Cortex-M3) under RT-Thread.
    Four threads produce what it shows: the time page (src/applications/my_time.c)
    asks a time server once and then prints the software clock every second, the
    sensor page (my_dht11.c) reads temperature and humidity, the weather page
    (Weather.c) fetches a forecast, and the tilt control (my_mpu6050.c) reads the
    attitude that an MPU6050 motion sensor computes and turns it into page
    numbers.  Each hands its data to the display thread (oled.c) as a pointer in
    a mailbox of the kernel.  The sensor is driven by src/eMPL over the I2C bus;
    mailboxes, threads, timers and memory are RT-Thread's (src/rt-thread/src).
    The network is an ESP8266 module behind a serial line, driven with AT commands
    (components/net/at, the at_device package).

    ** The files, and the code they model

    - Prelude.v: C integers at their widths, lists, tactics, hint databases.
      CFloat.v: binary32 and binary64 of the compiler's software floating point.
    - Motion sensor.  MpuData.v has the structures, register maps and tables of
      src/eMPL/inv_mpu.c and the record of bus events; MpuBus.v the port
      (MPU_Write_Len and MPU_Read_Len of my_mpu6050.c over rt_i2c_transfer);
      InvMpu.v and InvMpuRead.v every function of inv_mpu.c as compiled for this
      sensor; DmpImage.v and DmpDriver.v inv_mpu_dmp_motion_driver.c and its
      firmware image; MpuDmp.v the functions that compute the attitude.  SimBus.v
      is a concrete sensor on which all of this is evaluated.  The state is the
      record [drv], the fields of [struct gyro_state_s] and [struct dmp_s]
      together with the history of bus events; an operation is a state-passing
      function that may be undefined where the C code is.
    - Kernel.  Kernel.v has the view that waiting objects have of threads
      (thread.c and the list functions of ipc.c); Mailbox.v the mailbox of ipc.c,
      cut at the points where other code may run; WaitQueue.v an abstract account
      of waking threads that the mailbox instantiates; Semaphore.v, Mutex.v,
      Event.v and MessageQueue.v the other objects of ipc.c, in the same way;
      Sched.v the scheduler
      (scheduler.c, and what of thread.c and clock.c changes its choice); Timer.v
      timer.c and the tick, SoftTimer.v the thread for soft timers; Heap.v the
      small memory allocator mem.c, MemPool.v the pools of mempool.c.  RingBuffer.v
      is the ring buffer of the device framework (components/drivers/src).
    - Bus.  I2cBit.v has the bit-banged I2C master (components/drivers/i2c/
      i2c-bit-ops.c) and the pins of src/drivers/drv_soft_i2c.c, on two lines that
      it shares with any slave; its state is the level of the lines, the time and
      the history of levels, of which the slaves are functions.
    - Network.  AtClient.v has the AT client (components/net/at/src/at_client.c):
      the parser of the module's bytes and the execution of commands; AtSocket.v
      the way of received data from the module's driver (at_socket_esp8266.c)
      through the packet list of a socket to [at_recvfrom] (at_socket.c); AtTable.v
      the table of sockets with opening, connecting, options and closing; AtSend.v
      the function that sends data packet by packet; AtAddr.v the conversions of
      addresses.
    - Time.  CTime.v has the C library's calendar functions
      (components/libc/compilers/common/time.c); Rtc.v the software clock
      (components/drivers/rtc) with its thread that synchronises it, [time], and
      the NTP client of the netutils package.
    - Application.  App.v has the loops of the threads of src/applications and the
      mailboxes of main.c; Display.v the display thread and its producers as one
      system, against a type class that states what it needs of a mailbox;
      MailboxClient.v shows that the mailbox of the kernel is an instance.

    The remaining files hold specifications and proofs.

    ** What is proved

    - MpuSystem.v, MpuCoherence.v, MpuSpec.v: the driver skips bus writes when its
      cache says that a setting is in place; over every sequence of operations and
      every pattern of bus failures, after an initialisation that succeeded, the
      cache agrees with the registers as the results of the port tell them, and
      with the sensor's if these results are true.  Setters establish what they
      report; initialisation, sample rate, filter and temperature.
    - DmpMemory.v, DmpSpec.v, Orientation.v, DmpInvariant.v: the firmware loader
      stores the image and verifies it, packets decode to what was encoded, the
      quaternion check is exact in 32 bits, orientation codes rotate vectors as the
      matrix does, the packet length always belongs to the enabled features, and
      reading the FIFO goes wrong only for a packet length of 0.
    - MailboxSpec.v, MailboxSystem.v: any number of threads on one mailbox; it
      refines a bounded queue, keeps its order, loses no wake-up, and its steps
      return, except for a round of [rt_mb_detach] that a timeout overtakes.
    - SemaphoreSystem.v, MutexSystem.v, MutexPriority.v, EventSystem.v, on the
      lemmas of KernelSpec.v: units of a semaphore are conserved; a mutex excludes,
      counts nested takes and is not left free while a thread waits; the owner of
      a mutex inherits the priority of the threads that wait; no thread waits for
      event flags that are set.  All have the same race in their detach functions.
    - MessageQueueSpec.v, MessageQueueSystem.v, on the account of woken threads in
      Wakes.v: the linked lists of nodes are a queue of messages with urgent ones
      first, no node is lost, also while messages are copied, and no wake-up is.
      MemPoolSystem.v: the same account for blocks of a pool.
    - I2cBitSpec.v, I2cTransfer.v, I2cPort.v: for slaves that follow the protocol
      a transfer is, on the lines, the sequence of start conditions, bytes,
      acknowledgements and stop conditions of its messages, and the port of the
      motion sensor is a register access of the sensor.
    - AtLines.v, AtSystem.v, AtFrames.v, AtStream.v: the module's bytes are cut into
      lines at their ends; a command returns what its own response says; data from
      the network are passed on unchanged; a socket is a stream of bytes.
    - AtTableSystem.v, AtSendSystem.v, AtAddr.v: sockets are numbered connections
      that do not disturb each other; sending is stop and wait, for calls that no
      report of an earlier call and no partial write disturbs; the text of an
      address is read back as this address.
    - RingBufferSpec.v, RingBufferSystem.v: the ring buffer is a bounded queue of
      bytes.
    - Calendar.v, RtcSpec.v: the calendar functions compute the Gregorian calendar
      and are inverse to each other up to the wrap-around of [time_t]; the clock
      shows the time set plus the time passed; the NTP client ends and reports only
      what arrived.
    - AppText.v, AppPages.v, DisplaySpec.v, MailboxClient.v: the text of the pages,
      one page turn per tilt, the display thread reads initialised strings only and
      the exact cases in which it or a producer goes wrong, it sends whole pages
      and follows the tilt control, also on the mailbox of the kernel.
    - HeapSpec.v, HeapFree.v, HeapSystem.v: the heap is a list of blocks on which
      allocation is first fit (but for a block that fits exactly at the end) and
      release merges neighbours; for any sequence of calls, blocks are disjoint, their contents are kept, and a heap from which
      everything has been released is one free block again.
    - SchedSpec.v, SchedSystem.v: the bitmap search is correct, the ready lists and
      the bitmap agree with the states of the threads in every reachable state, the
      chosen thread has the highest priority, threads of one priority take turns of
      their time slices.
    - TimerSpec.v, TimerSystem.v: the timer list is ordered by the time left, and a
      timer fires at its tick, not earlier, also when the tick goes round.
      SoftTimerSystem.v: the timer thread calls what is due and, when nothing
      disturbs it between its look at the list and its sleep, is awake in time.

    Defects that the modelling showed are theorems as well, stated on concrete
    runs: [weather_page_reads_freed_memory], [detach_overtaken_by_timeout],
    [mktime_32_january], [mktime_wraps_in_2038], [ctime_not_terminated],
    [my_time_start_sets_utc], [short_datagram_is_a_time],
    [read_fifo_divides_by_zero], [init_depends_on_missing_return],
    [malloc_wraps_around], [calloc_wraps_around], [malloc_refuses_exact_fit],
    [priority_change_does_not_schedule], [period_zero_never_ends],
    [put_force_loses_everything], [unlock_leaves_clock_low],
    [fifo_handover_loses_inheritance], [second_mutex_loses_inheritance],
    [late_response_answers_next_command], [truncated_response_is_success],
    [close_does_not_end_the_wait], [get_reads_freed_nodes],
    [dontwait_looks_closed], [soft_wakeup_lost], [last_tick_means_no_timer],
    [failed_open_leaks_entry], [connect_overwrites_close],
    [late_report_confirms_next_send], [partial_write_is_success],
    [last_waiter_is_served_first].

    ** Bounds and fuel

    Loops whose end is not structural carry fuel, and in each case it is proved
    that the fuel is enough.  [gmtime_r] has fuel for as many years as the days
    divided by 365 allow; [mktime] for the months it may go through; the NTP client
    waits at most 501 rounds; [rt_ipc_list_resume_all] makes a round per thread on
    the list; the firmware loader one per chunk; the search for a free block one
    per unit of heap; the check of the timers one per timer on the list, which
    suffices while timeout functions start timers only for later ticks; the reset
    of a message queue one per node of the pool.  The wait
    for a slave that holds the clock line ends after three sleeps, each of half the
    time limit.

    ** Assumptions

    One core, two's complement, 32-bit [int] and [long]; [time_t] has 32 or 64
    bits, as the type class [TimeT] says ([gmtime_r] is on unbounded numbers, which
    contain both).  A stretch of code with interrupts disabled is one step; so are,
    although interrupts are enabled inside, [rt_thread_resume] and
    [rt_thread_detach] in the scheduler's model, which change a thread that is not
    ready, and [free_socket].  Kernel objects: a run of steps takes less than 2^31
    ticks.  Timers: every tick is handled within half the range of the tick
    counter; soft timers are set to 2^30 ticks at most, and their thread is never
    later than that.  NTP: one caller at a time, although the packet is a static
    variable that the time page and the synchronisation thread share.  Motion
    sensor: MPU_Write_Len has no return statement; its result is a parameter, and
    what depends on it is stated for results that are true.  Display: the producers
    of the time, sensor and tilt pages have a higher priority than the display
    thread, as in the source.  Heap: the region has room for the headers and a smallest block,
    requests, and the products that [rt_calloc] computes, are at most 2^32 - 4
    bytes, and clients write only inside what they hold, so that headers are kept
    apart from contents.  I2C: a slave leaves the
    data line alone when it is not its turn, does not change it when the clock
    rises, and holds the clock no longer than the time limit.  AT client: the parser handles a
    line without a command thread in between, since its priority is higher, and a
    command is set up in one step; a semaphore is the number of its units, as
    SemaphoreSystem.v justifies; whether memory that was just freed still holds its
    contents when a list node in it is read is a parameter of the call.  Sockets: a
    thread uses sockets that it has opened itself.  The sensors, name resolution,
    [asin] and [atan2] are parameters; the bus is one for the driver's theorems;
    where a theorem relies on their behaviour, it is a named hypothesis with an
    instance.

    ** Not modelled

    The other queues of the device framework, object lists and start-up of the
    kernel.  Of the network module: the choice of the device, [at_bind],
    [at_getaddrinfo], the resolution of names and other uses of [vsscanf] on
    response lines, the selection of a client by name, the command line mode.
    Slab, memheap, signals and the multi-core code are not compiled or not used.  HAL and CMSIS,
    mbedtls, lwip, the file systems and the shell are third-party code or not part
    of the clock's function; u8g2, cJSON and the DHT11 package are not in the repository, so a
    drawing call is an event and the other two are parameters. *)

From stdpp Require Import prelude.
From Stdlib Require Import ZArith Lia.
Open Scope Z_scope.

(** ** C integers

    The target is a Cortex-M3 (ILP32): [unsigned char], [unsigned short] and
    [unsigned long] are 8, 16 and 32 bits, [long] is 32 bits and [long long]
    64.  A value of a C integer type is a [Z]; the conversions below are the
    ones the compiler applies on assignment, argument passing and casts.
    Signed arithmetic is the machine's two's complement arithmetic. *)

Definition u8 (z : Z) : Z := z mod 2 ^ 8.
Definition u16 (z : Z) : Z := z mod 2 ^ 16.
Definition u32 (z : Z) : Z := z mod 2 ^ 32.

Definition swrap (w z : Z) : Z := (z + 2 ^ (w - 1)) mod 2 ^ w - 2 ^ (w - 1).
Definition s8 (z : Z) : Z := swrap 8 z.
Definition s16 (z : Z) : Z := swrap 16 z.
Definition s32 (z : Z) : Z := swrap 32 z.
Definition s64 (z : Z) : Z := swrap 64 z.

(** A C condition: every non-zero value counts as true. *)
Definition truthy (z : Z) : bool := negb (z =? 0).

(** [x & mask] used as a condition. *)
Definition has (x mask : Z) : bool := truthy (Z.land x mask).

(** Reading element [i] of a fixed-size local array. *)
Definition at_ (l : list Z) (i : nat) : Z := nth i l 0.

(** Big-endian composition of the bytes the sensors deliver. *)
Definition be16 (h l : Z) : Z := Z.lor (Z.shiftl h 8) l.
Definition be32 (a b c d : Z) : Z :=
  Z.lor (Z.lor (Z.lor (Z.shiftl a 24) (Z.shiftl b 16)) (Z.shiftl c 8)) d.

(** The four bytes of a 32-bit value, most significant first, as in
    [(v >> 24) & 0xFF], [(v >> 16) & 0xFF], ... *)
Definition bytes32 (v : Z) : list Z :=
  [Z.land (Z.shiftr v 24) 0xFF; Z.land (Z.shiftr v 16) 0xFF;
   Z.land (Z.shiftr v 8) 0xFF; Z.land v 0xFF].
Definition bytes16 (v : Z) : list Z :=
  [Z.land (Z.shiftr v 8) 0xFF; Z.land v 0xFF].

(** ** State and undefined behaviour

    A C function over the state [S] is a function of [M S A]: it returns a
    value and a new state, or [None] when the execution has undefined
    behaviour (a division by zero, a write outside an array). *)

Definition M (S A : Type) : Type := S -> option (A * S).

Definition ret {S A} (a : A) : M S A := fun s => Some (a, s).
Definition bind {S A B} (m : M S A) (k : A -> M S B) : M S B :=
  fun s => match m s with Some (a, s') => k a s' | None => None end.
Definition gets {S A} (f : S -> A) : M S A := fun s => Some (f s, s).
Definition modify {S} (f : S -> S) : M S unit := fun s => Some (tt, f s).
Definition undefined {S A} : M S A := fun _ => None.

Declare Scope c_scope.
Delimit Scope c_scope with c.

Notation "x <- m ;; k" := (bind m (fun x => k))
  (at level 20, m at level 99, k at level 200) : c_scope.
Notation "' p <- m ;; k" := (bind m (fun p => k))
  (at level 20, p pattern, m at level 99, k at level 200) : c_scope.
Notation "m ;;; k" := (bind m (fun _ => k))
  (at level 100, k at level 200, right associativity) : c_scope.

(** [if (m) return e; k] and [if (!c) ...; k] *)
Definition try_ {S A} (m : M S Z) (e : A) (k : M S A) : M S A :=
  bind m (fun r => if truthy r then ret e else k).
Notation "'TRY' m 'ELSE' e ';;' k" := (try_ m e k)
  (at level 20, m at level 99, e at level 99, k at level 200) : c_scope.

(** [if (f(..., out)) return e; k] where [f] also delivers [out] *)
Definition try_out {S A B} (m : M S (Z * B)) (e : A) (k : B -> M S A) : M S A :=
  bind m (fun '(r, x) => if truthy r then ret e else k x).
Notation "'READ' p <- m 'ELSE' e ';;' k" := (try_out m e (fun p => k))
  (at level 20, p name, m at level 99, e at level 99, k at level 200) : c_scope.

Definition when {S} (c : bool) (m : M S unit) : M S unit :=
  if c then m else ret tt.

(** Integer division as C has it: truncating, undefined for a zero divisor. *)
Definition cdiv {S} (a b : Z) : M S Z :=
  if b =? 0 then undefined else ret (Z.quot a b).

(** ** Reasoning about runs

    [wpg ub m Q s]: running [m] from [s] ends in a result satisfying [Q], or
    has undefined behaviour and [ub] holds.  [wp] excludes undefined
    behaviour, [wlp] tolerates it. *)

Definition wpg (ub : Prop) {S A} (m : M S A) (Q : A -> S -> Prop) (s : S) : Prop :=
  match m s with Some (a, s') => Q a s' | None => ub end.
Abbreviation wp := (wpg False).
Abbreviation wlp := (wpg True).

(** [keeps ub R m]: every run of [m] relates the initial to the final state
    by [R], and is free of undefined behaviour unless [ub]. *)
Definition keeps (ub : Prop) {S A} (R : S -> S -> Prop) (m : M S A) : Prop :=
  forall s, wpg ub m (fun _ s' => R s s') s.

(** ** Facts about machine integers *)

Lemma u8_range z : 0 <= u8 z < 256.
Proof. unfold u8. apply Z.mod_pos_bound. lia. Qed.

Lemma u16_range z : 0 <= u16 z < 65536.
Proof. unfold u16. apply Z.mod_pos_bound. lia. Qed.

Lemma u32_range z : 0 <= u32 z < 2 ^ 32.
Proof. unfold u32. apply Z.mod_pos_bound. lia. Qed.

Lemma u8_small z : 0 <= z < 256 -> u8 z = z.
Proof. intros. unfold u8. apply Z.mod_small. lia. Qed.

Lemma u16_small z : 0 <= z < 65536 -> u16 z = z.
Proof. intros. unfold u16. apply Z.mod_small. lia. Qed.

Lemma u32_small z : 0 <= z < 2 ^ 32 -> u32 z = z.
Proof. intros. unfold u32. apply Z.mod_small. lia. Qed.

Lemma swrap_small w z :
  0 < w -> - 2 ^ (w - 1) <= z < 2 ^ (w - 1) -> swrap w z = z.
Proof.
  intros Hw Hz. unfold swrap.
  assert (2 ^ w = 2 * 2 ^ (w - 1)) as E.
  { rewrite <- Z.pow_succ_r by lia. f_equal. lia. }
  rewrite Z.mod_small; lia.
Qed.

Lemma swrap_range w z : 0 < w -> - 2 ^ (w - 1) <= swrap w z < 2 ^ (w - 1).
Proof.
  intros Hw. unfold swrap.
  assert (2 ^ w = 2 * 2 ^ (w - 1)) as E.
  { rewrite <- Z.pow_succ_r by lia. f_equal. lia. }
  pose proof (Z.pow_pos_nonneg 2 (w - 1)).
  pose proof (Z.mod_pos_bound (z + 2 ^ (w - 1)) (2 ^ w)). lia.
Qed.

Lemma s32_small z : - 2 ^ 31 <= z < 2 ^ 31 -> s32 z = z.
Proof. intros. apply swrap_small; lia. Qed.

Lemma s16_small z : - 2 ^ 15 <= z < 2 ^ 15 -> s16 z = z.
Proof. intros. apply swrap_small; lia. Qed.

(** ** Rules of [wpg] and [keeps] *)

Section rules.
Context {ub : Prop} {S : Type}.
Implicit Types s : S.

Lemma wpg_ret {A} (a : A) Q s : Q a s -> wpg ub (ret a) Q s.
Proof. done. Qed.

Lemma wpg_bind {A B} (m : M S A) (k : A -> M S B) Q s :
  wpg ub m (fun a s' => wpg ub (k a) Q s') s -> wpg ub (bind m k) Q s.
Proof. unfold wpg, bind. destruct (m s) as [[a s']|]; done. Qed.

Lemma wpg_mono {A} (m : M S A) (P Q : A -> S -> Prop) s :
  (forall a s', P a s' -> Q a s') -> wpg ub m P s -> wpg ub m Q s.
Proof. unfold wpg. destruct (m s) as [[a s']|]; auto. Qed.

Lemma wpg_gets {A} (f : S -> A) Q s : Q (f s) s -> wpg ub (gets f) Q s.
Proof. done. Qed.

Lemma wpg_modify f (Q : unit -> S -> Prop) s :
  Q tt (f s) -> wpg ub (modify f) Q s.
Proof. done. Qed.

Lemma wpg_try {A} (m : M S Z) (e : A) k Q s :
  wpg ub m (fun r s' => if truthy r then Q e s' else wpg ub k Q s') s ->
  wpg ub (try_ m e k) Q s.
Proof.
  intros H. apply wpg_bind. eapply wpg_mono; [|exact H].
  intros r s'. simpl. by destruct (truthy r).
Qed.

Lemma wpg_try_out {A B} (m : M S (Z * B)) (e : A) (k : B -> M S A) Q s :
  wpg ub m (fun '(r, x) s' => if truthy r then Q e s' else wpg ub (k x) Q s') s ->
  wpg ub (try_out m e k) Q s.
Proof.
  intros H. apply wpg_bind. eapply wpg_mono; [|exact H].
  intros [r x] s'. simpl. by destruct (truthy r).
Qed.

Context {R : S -> S -> Prop} `{!PreOrder R}.

Lemma keeps_ret {A} (a : A) : keeps ub R (ret a).
Proof. intros s. apply wpg_ret. reflexivity. Qed.

Lemma keeps_gets {A} (f : S -> A) : keeps ub R (gets f).
Proof. intros s. apply wpg_gets. reflexivity. Qed.

Lemma keeps_bind {A B} (m : M S A) (k : A -> M S B) :
  keeps ub R m -> (forall a, keeps ub R (k a)) -> keeps ub R (bind m k).
Proof.
  intros Hm Hk s. apply wpg_bind. eapply wpg_mono; [|apply Hm].
  simpl. intros a s' H1. eapply wpg_mono; [|apply Hk].
  simpl. intros b s'' H2. by transitivity s'.
Qed.

Lemma keeps_try {A} (m : M S Z) (e : A) k :
  keeps ub R m -> keeps ub R k -> keeps ub R (try_ m e k).
Proof.
  intros Hm Hk. apply keeps_bind; [done|]. intros r.
  destruct (truthy r); [apply keeps_ret|done].
Qed.

Lemma keeps_try_out {A B} (m : M S (Z * B)) (e : A) (k : B -> M S A) :
  keeps ub R m -> (forall x, keeps ub R (k x)) -> keeps ub R (try_out m e k).
Proof.
  intros Hm Hk. apply keeps_bind; [done|]. intros [r x].
  destruct (truthy r); [apply keeps_ret|done].
Qed.

Lemma wpg_bind_keeps {A B} (m : M S A) (k : A -> M S B) Q s :
  keeps ub R m -> (forall a s', R s s' -> wpg ub (k a) Q s') ->
  wpg ub (bind m k) Q s.
Proof. intros Hm Hk. apply wpg_bind. eapply wpg_mono; [|apply Hm]. simpl. auto. Qed.

Lemma keeps_when c m : keeps ub R m -> keeps ub R (when c m).
Proof. intros. destruct c; [done|apply keeps_ret]. Qed.

Lemma keeps_if {A} (c : bool) (m1 m2 : M S A) :
  keeps ub R m1 -> keeps ub R m2 -> keeps ub R (if c then m1 else m2).
Proof. by destruct c. Qed.

Lemma keeps_cdiv a b : ub \/ b <> 0 -> keeps ub R (cdiv a b).
Proof.
  intros Hb s. unfold cdiv. destruct (b =? 0) eqn:E; [|apply keeps_ret].
  destruct Hb; [done|lia].
Qed.

Lemma keeps_bind_cdiv {A} a b (k : Z -> M S A) :
  b <> 0 -> keeps ub R (k (Z.quot a b)) -> keeps ub R (bind (cdiv a b) k).
Proof.
  intros Hb Hk s. unfold bind, cdiv, wpg.
  destruct (b =? 0) eqn:E; [lia|]. apply Hk.
Qed.

Lemma keeps_modify f : (forall s, R s (f s)) -> keeps ub R (modify f).
Proof. intros H s. apply wpg_modify. apply H. Qed.

End rules.

(** A run that tolerates undefined behaviour less also tolerates it more. *)
Lemma wpg_weaken_ub (ub ub' : Prop) {S A} (m : M S A) Q s :
  (ub -> ub') -> wpg ub m Q s -> wpg ub' m Q s.
Proof. unfold wpg. destruct (m s) as [[a s']|]; auto. Qed.

Lemma keeps_mono (ub : Prop) {S A} (R R' : S -> S -> Prop) (m : M S A) :
  (forall s s', R s s' -> R' s s') -> keeps ub R m -> keeps ub R' m.
Proof. intros H Hm s. eapply wpg_mono; [|apply Hm]. simpl. auto. Qed.

(** [keeps False R m] is totality together with [R]. *)
Lemma keeps_total {S A} (R : S -> S -> Prop) (m : M S A) s :
  keeps False R m -> exists a s', m s = Some (a, s') /\ R s s'.
Proof.
  intros H. specialize (H s). unfold wpg in H.
  destruct (m s) as [[a s']|]; [eauto|done].
Qed.

Lemma wp_elim {S A} (m : M S A) Q s :
  wp m Q s -> exists a s', m s = Some (a, s') /\ Q a s'.
Proof. unfold wpg. destruct (m s) as [[a s']|]; [eauto|done]. Qed.

Lemma wlp_elim {S A} (m : M S A) (Q : A -> S -> Prop) s a s' :
  wlp m Q s -> m s = Some (a, s') -> Q a s'.
Proof. unfold wpg. intros H E. by rewrite E in H. Qed.

(** A run of a sequence, one statement at a time. *)
Lemma bind_eq {S A B} (m : M S A) (k : A -> M S B) s a s' :
  m s = Some (a, s') -> bind m k s = k a s'.
Proof. unfold bind. by intros ->. Qed.

(** ** Lists *)

Lemma filter_out `{EqDecision A} (h : A) (l : list A) : h ∉ l -> filter (fun u => u <> h) l = l.
Proof.
  induction l as [|u l IH]; intros Hh; [done|]. rewrite filter_cons_True by set_solver.
  f_equal. apply IH. set_solver.
Qed.

(** ** Automation

    [divmod] closes goals with divisions and remainders.
    [keep_tac db] walks through a function body that only combines
    operations known to keep the relation; the lemmas about the operations
    are in the hint database. *)

Ltac divmod := Z.to_euclidean_division_equations; lia.

Create HintDb keep discriminated.

Ltac keep_step :=
  first
    [ apply keeps_ret
    | apply keeps_gets
    | solve [eauto with keep nocore]
    | apply keeps_bind; [|intros ?]
    | apply keeps_try
    | apply keeps_try_out; [|intros ?]
    | apply keeps_when
    | apply keeps_if
    | match goal with
      | |- keeps _ _ (match ?x with _ => _ end) => destruct x
      | |- keeps _ _ (let _ := _ in _) => cbv zeta
      end ].
Ltac keep_tac := repeat keep_step.

(** ** Bytes *)

(** Joining is addition: the low byte does not reach into the high part. *)
Lemma be16_add h l : 0 <= l < 256 -> be16 h l = 256 * h + l.
Proof.
  intros Hl. unfold be16. rewrite <- Z.lor_comm, Z.add_comm.
  rewrite Z.shiftl_mul_pow2 by lia. change (2 ^ 8) with 256.
  rewrite (Z.mul_comm 256). apply Z.bits_inj'. intros n Hn.
  assert (Z.land l (h * 256) = 0) as Hz.
  { apply Z.bits_inj'. intros k Hk. rewrite Z.land_spec, Z.bits_0.
    change 256 with (2 ^ 8). destruct (Z.ltb_spec k 8).
    - by rewrite Z.mul_pow2_bits_low, andb_false_r by lia.
    - rewrite <- (Z.mod_small l (2 ^ 8)) by lia.
      by rewrite Z.mod_pow2_bits_high by lia. }
  by rewrite <- Z.lxor_lor, Z.add_nocarry_lxor by done.
Qed.
