(* ===== verification/CFloat.v ===== *)
(** * C floating point

    [float] and [double] as the compiler's software floating point computes
    them: IEEE 754 binary32 and binary64 with round-to-nearest-even, on the
    executable [spec_float] of the standard library.  No real numbers and no
    primitive floats are involved, so every value can be evaluated. *)

From stdpp Require Import prelude.
From Stdlib Require Import ZArith SpecFloat.
From S2P Require Import Prelude.
Open Scope Z_scope.

Abbreviation float := spec_float.

Module F32.
Definition prec : Z := 24.
Definition emax : Z := 128.
Definition of_Z (z : Z) : float := binary_normalize prec emax z 0 false.
Definition add : float -> float -> float := SFadd prec emax.
Definition sub : float -> float -> float := SFsub prec emax.
Definition mul : float -> float -> float := SFmul prec emax.
Definition div : float -> float -> float := SFdiv prec emax.
(** A decimal literal [n / 10^k] of type [float]. *)
Definition lit (n k : Z) : float := div (of_Z n) (of_Z (10 ^ k)).
End F32.

Module F64.
Definition prec : Z := 53.
Definition emax : Z := 1024.
Definition of_Z (z : Z) : float := binary_normalize prec emax z 0 false.
Definition mul : float -> float -> float := SFmul prec emax.
Definition div : float -> float -> float := SFdiv prec emax.
Definition lit (n k : Z) : float := div (of_Z n) (of_Z (10 ^ k)).
End F64.

(** Conversion between the two formats. *)
Definition round_to (prec emax : Z) (f : float) : float :=
  match f with
  | S754_finite s m e =>
      binary_normalize prec emax (if s then Z.neg m else Z.pos m) e s
  | _ => f
  end.
Definition to_double : float -> float := round_to F64.prec F64.emax.
Definition to_float : float -> float := round_to F32.prec F32.emax.

(** Truncation towards zero; no value for infinities and NaN. *)
Definition trunc (f : float) : option Z :=
  match f with
  | S754_zero _ => Some 0
  | S754_finite s m e =>
      let a := if 0 <=? e then Z.pos m * 2 ^ e else Z.pos m / 2 ^ (- e) in
      Some (if s then - a else a)
  | _ => None
  end.

(** A cast to an integer type with values [lo..hi] is undefined when the
    truncated value does not fit. *)
Definition cast {S} (lo hi : Z) (f : float) : M S Z :=
  match trunc f with
  | Some z => if (lo <=? z) && (z <=? hi) then ret z else undefined
  | None => undefined
  end.
Definition cast_long {S} : float -> M S Z := cast (- 2 ^ 31) (2 ^ 31 - 1).
Definition cast_ushort {S} : float -> M S Z := cast 0 65535.

(** Comparisons; all of them are false on NaN. *)
Definition flt (a b : float) : bool := SFltb a b.
Definition fgt (a b : float) : bool := SFltb b a.
(** A float used as a condition. *)
Definition ftruthy (a : float) : bool := negb (SFeqb a (S754_zero false)).

Example lit_034 : F32.lit 34 2 = S754_finite false 11408507 (-25).
Proof. reflexivity. Qed.
Example lit_131 : F32.of_Z 131 = S754_finite false 8585216 (-16).
Proof. reflexivity. Qed.
Example trunc_neg : trunc (F32.div (F32.of_Z (-7)) (F32.of_Z 2)) = Some (-3).
Proof. reflexivity. Qed.
