(* ===== verification/MpuData.v ===== *)
(** * Data of the MPU6050 driver

    The structures, enumerations, register maps and tables of
    src/eMPL/inv_mpu.c and inv_mpu.h, the state of the DMP driver
    ([struct dmp_s] of inv_mpu_dmp_motion_driver.c), the device handle of
    applications/my_mpu6050.c, and the record of bus events on which the
    operations act. The build defines MPU6050 and no AK89xx compass, so the
    fields under the other macros do not exist. *)

From stdpp Require Import prelude.
From Stdlib Require Import ZArith.
From S2P Require Import Prelude.
Open Scope Z_scope.

(** ** Hardware registers ([struct gyro_reg_s] and its MPU6050 instance) *)

Module Reg.
Record gyro_reg_s := mk_gyro_reg_s {
  who_am_i : Z;
  rate_div : Z;
  lpf : Z;
  prod_id : Z;
  user_ctrl : Z;
  fifo_en : Z;
  gyro_cfg : Z;
  accel_cfg : Z;
  motion_thr : Z;
  motion_dur : Z;
  fifo_count_h : Z;
  fifo_r_w : Z;
  raw_gyro : Z;
  raw_accel : Z;
  temp : Z;
  int_enable : Z;
  dmp_int_status : Z;
  int_status : Z;
  pwr_mgmt_1 : Z;
  pwr_mgmt_2 : Z;
  int_pin_cfg : Z;
  mem_r_w : Z;
  accel_offs : Z;
  i2c_mst : Z;
  bank_sel : Z;
  mem_start_addr : Z;
  prgm_start_h : Z
}.

Definition reg : gyro_reg_s := {|
  who_am_i := 0x75;
  rate_div := 0x19;
  lpf := 0x1A;
  prod_id := 0x0C;
  user_ctrl := 0x6A;
  fifo_en := 0x23;
  gyro_cfg := 0x1B;
  accel_cfg := 0x1C;
  motion_thr := 0x1F;
  motion_dur := 0x20;
  fifo_count_h := 0x72;
  fifo_r_w := 0x74;
  raw_gyro := 0x43;
  raw_accel := 0x3B;
  temp := 0x41;
  int_enable := 0x38;
  dmp_int_status := 0x39;
  int_status := 0x3A;
  pwr_mgmt_1 := 0x6B;
  pwr_mgmt_2 := 0x6C;
  int_pin_cfg := 0x37;
  mem_r_w := 0x6F;
  accel_offs := 0x06;
  i2c_mst := 0x24;
  bank_sel := 0x6D;
  mem_start_addr := 0x6E;
  prgm_start_h := 0x70
|}.
End Reg.

(** ** Device constants ([struct hw_s]) *)

Module Hw.
Record hw_s := mk_hw_s {
  addr : Z;
  max_fifo : Z;
  num_reg : Z;
  temp_sens : Z;
  temp_offset : Z;
  bank_size : Z
}.

Definition hw : hw_s := {|
  addr := 0x68;
  max_fifo := 1024;
  num_reg := 118;
  temp_sens := 340;
  temp_offset := -521;
  bank_size := 256
|}.
End Hw.

(** ** Motion interrupt cache and chip configuration *)

Record motion_int_cache_s := mk_cache {
  c_gyro_fsr : Z;
  c_accel_fsr : Z;
  c_lpf : Z;
  c_sample_rate : Z;
  c_sensors_on : Z;
  c_fifo_sensors : Z;
  c_dmp_on : Z
}.

Record chip_cfg_s := mk_chip {
  gyro_fsr : Z;
  accel_fsr : Z;
  sensors : Z;
  lpf : Z;
  clk_src : Z;
  sample_rate : Z;
  fifo_enable : Z;
  int_enable : Z;
  bypass_mode : Z;
  accel_half : Z;
  lp_accel_mode : Z;
  int_motion_only : Z;
  cache : motion_int_cache_s;
  active_low_int : Z;
  latched_int : Z;
  dmp_on : Z;
  dmp_loaded : Z;
  dmp_sample_rate : Z
}.

(** [struct dmp_s]; a callback pointer is only tested against [NULL]. *)
Record dmp_s := mk_dmp {
  tap_cb : bool;
  android_orient_cb : bool;
  orient : Z;
  feature_mask : Z;
  fifo_rate : Z;
  packet_length : Z
}.

(** ** Bus events

    Every transfer that MPU_Write_Len and MPU_Read_Len request, and every
    delay, is recorded, newest first.  [ok] tells whether the transfer
    completed on the bus, [r] is the value the caller received. *)

Inductive event :=
| EvWrite (slave regaddr : Z) (data : list Z) (ok : bool) (r : Z)
| EvRead (slave regaddr len : Z) (ok : bool) (data : list Z)
| EvDelay (ms : Z)
| EvTap (direction count : Z)
| EvOrient (orientation : Z).

(** The part of [struct mpu6xxx_device] the port uses. *)
Record mpu6xxx_device := mk_dev {
  bus_is_i2c : bool;   (** [dev->bus->type == RT_Device_Class_I2CBUS] *)
  i2c_addr : Z
}.

(** The state of the driver: the device handle, [st.chip_cfg], [dmp] and
    what has happened on the bus. *)
Record drv := mk_drv {
  dev : mpu6xxx_device;
  chip : chip_cfg_s;
  dmp : dmp_s;
  tr : list event
}.

(** ** Field assignments *)

Definition with_c_gyro_fsr (v : Z) (c : motion_int_cache_s) : motion_int_cache_s :=
  mk_cache v (c.(c_accel_fsr)) (c.(c_lpf)) (c.(c_sample_rate)) (c.(c_sensors_on))
    (c.(c_fifo_sensors)) (c.(c_dmp_on)).
Definition with_c_accel_fsr (v : Z) (c : motion_int_cache_s) : motion_int_cache_s :=
  mk_cache (c.(c_gyro_fsr)) v (c.(c_lpf)) (c.(c_sample_rate)) (c.(c_sensors_on))
    (c.(c_fifo_sensors)) (c.(c_dmp_on)).
Definition with_c_lpf (v : Z) (c : motion_int_cache_s) : motion_int_cache_s :=
  mk_cache (c.(c_gyro_fsr)) (c.(c_accel_fsr)) v (c.(c_sample_rate)) (c.(c_sensors_on))
    (c.(c_fifo_sensors)) (c.(c_dmp_on)).
Definition with_c_sample_rate (v : Z) (c : motion_int_cache_s) : motion_int_cache_s :=
  mk_cache (c.(c_gyro_fsr)) (c.(c_accel_fsr)) (c.(c_lpf)) v (c.(c_sensors_on))
    (c.(c_fifo_sensors)) (c.(c_dmp_on)).
Definition with_c_sensors_on (v : Z) (c : motion_int_cache_s) : motion_int_cache_s :=
  mk_cache (c.(c_gyro_fsr)) (c.(c_accel_fsr)) (c.(c_lpf)) (c.(c_sample_rate)) v
    (c.(c_fifo_sensors)) (c.(c_dmp_on)).
Definition with_c_fifo_sensors (v : Z) (c : motion_int_cache_s) : motion_int_cache_s :=
  mk_cache (c.(c_gyro_fsr)) (c.(c_accel_fsr)) (c.(c_lpf)) (c.(c_sample_rate))
    (c.(c_sensors_on)) v (c.(c_dmp_on)).
Definition with_c_dmp_on (v : Z) (c : motion_int_cache_s) : motion_int_cache_s :=
  mk_cache (c.(c_gyro_fsr)) (c.(c_accel_fsr)) (c.(c_lpf)) (c.(c_sample_rate))
    (c.(c_sensors_on)) (c.(c_fifo_sensors)) v.
Definition with_gyro_fsr (v : Z) (c : chip_cfg_s) : chip_cfg_s :=
  mk_chip v (c.(accel_fsr)) (c.(sensors)) (c.(lpf)) (c.(clk_src)) (c.(sample_rate))
    (c.(fifo_enable)) (c.(int_enable)) (c.(bypass_mode)) (c.(accel_half))
    (c.(lp_accel_mode)) (c.(int_motion_only)) (c.(cache)) (c.(active_low_int))
    (c.(latched_int)) (c.(dmp_on)) (c.(dmp_loaded)) (c.(dmp_sample_rate)).
Definition with_accel_fsr (v : Z) (c : chip_cfg_s) : chip_cfg_s :=
  mk_chip (c.(gyro_fsr)) v (c.(sensors)) (c.(lpf)) (c.(clk_src)) (c.(sample_rate))
    (c.(fifo_enable)) (c.(int_enable)) (c.(bypass_mode)) (c.(accel_half))
    (c.(lp_accel_mode)) (c.(int_motion_only)) (c.(cache)) (c.(active_low_int))
    (c.(latched_int)) (c.(dmp_on)) (c.(dmp_loaded)) (c.(dmp_sample_rate)).
Definition with_sensors (v : Z) (c : chip_cfg_s) : chip_cfg_s :=
  mk_chip (c.(gyro_fsr)) (c.(accel_fsr)) v (c.(lpf)) (c.(clk_src)) (c.(sample_rate))
    (c.(fifo_enable)) (c.(int_enable)) (c.(bypass_mode)) (c.(accel_half))
    (c.(lp_accel_mode)) (c.(int_motion_only)) (c.(cache)) (c.(active_low_int))
    (c.(latched_int)) (c.(dmp_on)) (c.(dmp_loaded)) (c.(dmp_sample_rate)).
Definition with_lpf (v : Z) (c : chip_cfg_s) : chip_cfg_s :=
  mk_chip (c.(gyro_fsr)) (c.(accel_fsr)) (c.(sensors)) v (c.(clk_src)) (c.(sample_rate))
    (c.(fifo_enable)) (c.(int_enable)) (c.(bypass_mode)) (c.(accel_half))
    (c.(lp_accel_mode)) (c.(int_motion_only)) (c.(cache)) (c.(active_low_int))
    (c.(latched_int)) (c.(dmp_on)) (c.(dmp_loaded)) (c.(dmp_sample_rate)).
Definition with_clk_src (v : Z) (c : chip_cfg_s) : chip_cfg_s :=
  mk_chip (c.(gyro_fsr)) (c.(accel_fsr)) (c.(sensors)) (c.(lpf)) v (c.(sample_rate))
    (c.(fifo_enable)) (c.(int_enable)) (c.(bypass_mode)) (c.(accel_half))
    (c.(lp_accel_mode)) (c.(int_motion_only)) (c.(cache)) (c.(active_low_int))
    (c.(latched_int)) (c.(dmp_on)) (c.(dmp_loaded)) (c.(dmp_sample_rate)).
Definition with_sample_rate (v : Z) (c : chip_cfg_s) : chip_cfg_s :=
  mk_chip (c.(gyro_fsr)) (c.(accel_fsr)) (c.(sensors)) (c.(lpf)) (c.(clk_src)) v
    (c.(fifo_enable)) (c.(int_enable)) (c.(bypass_mode)) (c.(accel_half))
    (c.(lp_accel_mode)) (c.(int_motion_only)) (c.(cache)) (c.(active_low_int))
    (c.(latched_int)) (c.(dmp_on)) (c.(dmp_loaded)) (c.(dmp_sample_rate)).
Definition with_fifo_enable (v : Z) (c : chip_cfg_s) : chip_cfg_s :=
  mk_chip (c.(gyro_fsr)) (c.(accel_fsr)) (c.(sensors)) (c.(lpf)) (c.(clk_src))
    (c.(sample_rate)) v (c.(int_enable)) (c.(bypass_mode)) (c.(accel_half))
    (c.(lp_accel_mode)) (c.(int_motion_only)) (c.(cache)) (c.(active_low_int))
    (c.(latched_int)) (c.(dmp_on)) (c.(dmp_loaded)) (c.(dmp_sample_rate)).
Definition with_int_enable (v : Z) (c : chip_cfg_s) : chip_cfg_s :=
  mk_chip (c.(gyro_fsr)) (c.(accel_fsr)) (c.(sensors)) (c.(lpf)) (c.(clk_src))
    (c.(sample_rate)) (c.(fifo_enable)) v (c.(bypass_mode)) (c.(accel_half))
    (c.(lp_accel_mode)) (c.(int_motion_only)) (c.(cache)) (c.(active_low_int))
    (c.(latched_int)) (c.(dmp_on)) (c.(dmp_loaded)) (c.(dmp_sample_rate)).
Definition with_bypass_mode (v : Z) (c : chip_cfg_s) : chip_cfg_s :=
  mk_chip (c.(gyro_fsr)) (c.(accel_fsr)) (c.(sensors)) (c.(lpf)) (c.(clk_src))
    (c.(sample_rate)) (c.(fifo_enable)) (c.(int_enable)) v (c.(accel_half))
    (c.(lp_accel_mode)) (c.(int_motion_only)) (c.(cache)) (c.(active_low_int))
    (c.(latched_int)) (c.(dmp_on)) (c.(dmp_loaded)) (c.(dmp_sample_rate)).
Definition with_accel_half (v : Z) (c : chip_cfg_s) : chip_cfg_s :=
  mk_chip (c.(gyro_fsr)) (c.(accel_fsr)) (c.(sensors)) (c.(lpf)) (c.(clk_src))
    (c.(sample_rate)) (c.(fifo_enable)) (c.(int_enable)) (c.(bypass_mode)) v
    (c.(lp_accel_mode)) (c.(int_motion_only)) (c.(cache)) (c.(active_low_int))
    (c.(latched_int)) (c.(dmp_on)) (c.(dmp_loaded)) (c.(dmp_sample_rate)).
Definition with_lp_accel_mode (v : Z) (c : chip_cfg_s) : chip_cfg_s :=
  mk_chip (c.(gyro_fsr)) (c.(accel_fsr)) (c.(sensors)) (c.(lpf)) (c.(clk_src))
    (c.(sample_rate)) (c.(fifo_enable)) (c.(int_enable)) (c.(bypass_mode))
    (c.(accel_half)) v (c.(int_motion_only)) (c.(cache)) (c.(active_low_int))
    (c.(latched_int)) (c.(dmp_on)) (c.(dmp_loaded)) (c.(dmp_sample_rate)).
Definition with_int_motion_only (v : Z) (c : chip_cfg_s) : chip_cfg_s :=
  mk_chip (c.(gyro_fsr)) (c.(accel_fsr)) (c.(sensors)) (c.(lpf)) (c.(clk_src))
    (c.(sample_rate)) (c.(fifo_enable)) (c.(int_enable)) (c.(bypass_mode))
    (c.(accel_half)) (c.(lp_accel_mode)) v (c.(cache)) (c.(active_low_int))
    (c.(latched_int)) (c.(dmp_on)) (c.(dmp_loaded)) (c.(dmp_sample_rate)).
Definition with_cache (v : motion_int_cache_s) (c : chip_cfg_s) : chip_cfg_s :=
  mk_chip (c.(gyro_fsr)) (c.(accel_fsr)) (c.(sensors)) (c.(lpf)) (c.(clk_src))
    (c.(sample_rate)) (c.(fifo_enable)) (c.(int_enable)) (c.(bypass_mode))
    (c.(accel_half)) (c.(lp_accel_mode)) (c.(int_motion_only)) v (c.(active_low_int))
    (c.(latched_int)) (c.(dmp_on)) (c.(dmp_loaded)) (c.(dmp_sample_rate)).
Definition with_active_low_int (v : Z) (c : chip_cfg_s) : chip_cfg_s :=
  mk_chip (c.(gyro_fsr)) (c.(accel_fsr)) (c.(sensors)) (c.(lpf)) (c.(clk_src))
    (c.(sample_rate)) (c.(fifo_enable)) (c.(int_enable)) (c.(bypass_mode))
    (c.(accel_half)) (c.(lp_accel_mode)) (c.(int_motion_only)) (c.(cache)) v
    (c.(latched_int)) (c.(dmp_on)) (c.(dmp_loaded)) (c.(dmp_sample_rate)).
Definition with_latched_int (v : Z) (c : chip_cfg_s) : chip_cfg_s :=
  mk_chip (c.(gyro_fsr)) (c.(accel_fsr)) (c.(sensors)) (c.(lpf)) (c.(clk_src))
    (c.(sample_rate)) (c.(fifo_enable)) (c.(int_enable)) (c.(bypass_mode))
    (c.(accel_half)) (c.(lp_accel_mode)) (c.(int_motion_only)) (c.(cache))
    (c.(active_low_int)) v (c.(dmp_on)) (c.(dmp_loaded)) (c.(dmp_sample_rate)).
Definition with_dmp_on (v : Z) (c : chip_cfg_s) : chip_cfg_s :=
  mk_chip (c.(gyro_fsr)) (c.(accel_fsr)) (c.(sensors)) (c.(lpf)) (c.(clk_src))
    (c.(sample_rate)) (c.(fifo_enable)) (c.(int_enable)) (c.(bypass_mode))
    (c.(accel_half)) (c.(lp_accel_mode)) (c.(int_motion_only)) (c.(cache))
    (c.(active_low_int)) (c.(latched_int)) v (c.(dmp_loaded)) (c.(dmp_sample_rate)).
Definition with_dmp_loaded (v : Z) (c : chip_cfg_s) : chip_cfg_s :=
  mk_chip (c.(gyro_fsr)) (c.(accel_fsr)) (c.(sensors)) (c.(lpf)) (c.(clk_src))
    (c.(sample_rate)) (c.(fifo_enable)) (c.(int_enable)) (c.(bypass_mode))
    (c.(accel_half)) (c.(lp_accel_mode)) (c.(int_motion_only)) (c.(cache))
    (c.(active_low_int)) (c.(latched_int)) (c.(dmp_on)) v (c.(dmp_sample_rate)).
Definition with_dmp_sample_rate (v : Z) (c : chip_cfg_s) : chip_cfg_s :=
  mk_chip (c.(gyro_fsr)) (c.(accel_fsr)) (c.(sensors)) (c.(lpf)) (c.(clk_src))
    (c.(sample_rate)) (c.(fifo_enable)) (c.(int_enable)) (c.(bypass_mode))
    (c.(accel_half)) (c.(lp_accel_mode)) (c.(int_motion_only)) (c.(cache))
    (c.(active_low_int)) (c.(latched_int)) (c.(dmp_on)) (c.(dmp_loaded)) v.
Definition with_tap_cb (v : bool) (c : dmp_s) : dmp_s :=
  mk_dmp v (c.(android_orient_cb)) (c.(orient)) (c.(feature_mask)) (c.(fifo_rate))
    (c.(packet_length)).
Definition with_android_orient_cb (v : bool) (c : dmp_s) : dmp_s :=
  mk_dmp (c.(tap_cb)) v (c.(orient)) (c.(feature_mask)) (c.(fifo_rate))
    (c.(packet_length)).
Definition with_orient (v : Z) (c : dmp_s) : dmp_s :=
  mk_dmp (c.(tap_cb)) (c.(android_orient_cb)) v (c.(feature_mask)) (c.(fifo_rate))
    (c.(packet_length)).
Definition with_feature_mask (v : Z) (c : dmp_s) : dmp_s :=
  mk_dmp (c.(tap_cb)) (c.(android_orient_cb)) (c.(orient)) v (c.(fifo_rate))
    (c.(packet_length)).
Definition with_fifo_rate (v : Z) (c : dmp_s) : dmp_s :=
  mk_dmp (c.(tap_cb)) (c.(android_orient_cb)) (c.(orient)) (c.(feature_mask)) v
    (c.(packet_length)).
Definition with_packet_length (v : Z) (c : dmp_s) : dmp_s :=
  mk_dmp (c.(tap_cb)) (c.(android_orient_cb)) (c.(orient)) (c.(feature_mask))
    (c.(fifo_rate)) v.
Definition put_dev (v : mpu6xxx_device) (c : drv) : drv :=
  mk_drv v (c.(chip)) (c.(dmp)) (c.(tr)).
Definition put_chip (v : chip_cfg_s) (c : drv) : drv :=
  mk_drv (c.(dev)) v (c.(dmp)) (c.(tr)).
Definition put_dmp (v : dmp_s) (c : drv) : drv :=
  mk_drv (c.(dev)) (c.(chip)) v (c.(tr)).
Definition put_tr (v : list event) (c : drv) : drv :=
  mk_drv (c.(dev)) (c.(chip)) (c.(dmp)) v.

Definition on_chip (f : chip_cfg_s -> chip_cfg_s) (s : drv) : drv :=
  put_chip (f s.(chip)) s.
Definition on_dmp (f : dmp_s -> dmp_s) (s : drv) : drv := put_dmp (f s.(dmp)) s.


(** ** Filter, range, clock and low-power settings *)

Definition INV_FILTER_256HZ_NOLPF2 : Z := 0.
Definition INV_FILTER_188HZ : Z := 1.
Definition INV_FILTER_98HZ : Z := 2.
Definition INV_FILTER_42HZ : Z := 3.
Definition INV_FILTER_20HZ : Z := 4.
Definition INV_FILTER_10HZ : Z := 5.
Definition INV_FILTER_5HZ : Z := 6.
Definition INV_FILTER_2100HZ_NOLPF : Z := 7.
Definition INV_FSR_250DPS : Z := 0.
Definition INV_FSR_500DPS : Z := 1.
Definition INV_FSR_1000DPS : Z := 2.
Definition INV_FSR_2000DPS : Z := 3.
Definition INV_FSR_2G : Z := 0.
Definition INV_FSR_4G : Z := 1.
Definition INV_FSR_8G : Z := 2.
Definition INV_FSR_16G : Z := 3.
Definition INV_CLK_INTERNAL : Z := 0.
Definition INV_CLK_PLL : Z := 1.
Definition INV_LPA_1_25HZ : Z := 0.
Definition INV_LPA_5HZ : Z := 1.
Definition INV_LPA_20HZ : Z := 2.
Definition INV_LPA_40HZ : Z := 3.

(** ** Register bits *)

Definition BIT_FIFO_EN : Z := 0x40.
Definition BIT_DMP_EN : Z := 0x80.
Definition BIT_FIFO_RST : Z := 0x04.
Definition BIT_DMP_RST : Z := 0x08.
Definition BIT_FIFO_OVERFLOW : Z := 0x10.
Definition BIT_DATA_RDY_EN : Z := 0x01.
Definition BIT_DMP_INT_EN : Z := 0x02.
Definition BIT_MOT_INT_EN : Z := 0x40.
Definition BITS_HPF : Z := 0x07.
Definition BIT_RESET : Z := 0x80.
Definition BIT_SLEEP : Z := 0x40.
Definition BIT_AUX_IF_EN : Z := 0x20.
Definition BIT_ACTL : Z := 0x80.
Definition BIT_LATCH_EN : Z := 0x20.
Definition BIT_ANY_RD_CLR : Z := 0x10.
Definition BIT_BYPASS_EN : Z := 0x02.
Definition BIT_LPA_CYCLE : Z := 0x20.
Definition BIT_STBY_XA : Z := 0x20.
Definition BIT_STBY_YA : Z := 0x10.
Definition BIT_STBY_ZA : Z := 0x08.
Definition BIT_STBY_XG : Z := 0x04.
Definition BIT_STBY_YG : Z := 0x02.
Definition BIT_STBY_ZG : Z := 0x01.
Definition BIT_STBY_XYZA : Z := Z.lor (Z.lor BIT_STBY_XA BIT_STBY_YA) BIT_STBY_ZA.
Definition BIT_STBY_XYZG : Z := Z.lor (Z.lor BIT_STBY_XG BIT_STBY_YG) BIT_STBY_ZG.

(** ** Sensor masks and rates *)

Definition INV_X_GYRO : Z := 0x40.
Definition INV_Y_GYRO : Z := 0x20.
Definition INV_Z_GYRO : Z := 0x10.
Definition INV_XYZ_GYRO : Z := Z.lor (Z.lor INV_X_GYRO INV_Y_GYRO) INV_Z_GYRO.
Definition INV_XYZ_ACCEL : Z := 0x08.
Definition INV_XYZ_COMPASS : Z := 0x01.
Definition DEFAULT_MPU_HZ : Z := 100.
Definition MAX_PACKET_LENGTH : Z := 12.
Definition LOAD_CHUNK : Z := 16.

(** ** Initial state: [static struct gyro_state_s st = {&reg, &hw, {0}, &test}] *)

Definition zero_cache : motion_int_cache_s := mk_cache 0 0 0 0 0 0 0.
Definition zero_chip : chip_cfg_s :=
  mk_chip 0 0 0 0 0 0 0 0 0 0 0 0 zero_cache 0 0 0 0 0.
Definition zero_dmp : dmp_s := mk_dmp false false 0 0 0 0.
Definition boot (d : mpu6xxx_device) : drv := mk_drv d zero_chip zero_dmp [].
