(* ===== verification/MpuBus.v ===== *)
(** * The I2C port of the MPU6050 driver

    MPU_Write_Len and MPU_Read_Len of src/applications/my_mpu6050.c over
    rt_i2c_transfer of src/rt-thread/components/drivers/i2c/i2c_core.c.  The
    bus driver behind [ops->master_xfer], what uninitialised variables hold
    and what a function leaves in the return register when it ends without a
    return statement are the environment of the driver. *)

From stdpp Require Import prelude.
From Stdlib Require Import ZArith Lia.
From S2P Require Import Prelude CFloat MpuData.
Open Scope Z_scope.
Open Scope c_scope.

(** [struct rt_i2c_msg] with the flags the port uses. *)
Inductive i2c_flag := RT_I2C_WR | RT_I2C_RD.
Record rt_i2c_msg := mk_msg {
  m_addr : Z;
  m_flags : i2c_flag;
  m_len : Z;
  m_buf : list Z
}.

(** ** Environment

    - [master_xfer h msgs]: the bus driver, given everything that happened
      before; the number of messages transferred and the bytes that arrived
      in the buffer of the read message.  [None] is a null [ops->master_xfer].
    - [ret_reg h n]: what MPU_Write_Len, whose body has no return statement,
      leaves as its result when the transfer returned [n].
    - [uninit h], [uninit_float h]: the content of an uninitialised local
      variable. *)
Class Env := {
  master_xfer : option (list event -> list rt_i2c_msg -> Z * list Z);
  ret_reg : list event -> Z -> Z;
  uninit : list event -> Z;
  uninit_float : list event -> float
}.

(** [rt_i2c_transfer] returns the number of messages the bus driver
    transferred, 0 without a bus driver. *)
Definition rt_i2c_transfer `{Env} (h : list event) (msgs : list rt_i2c_msg) :
    Z * list Z :=
  match master_xfer with
  | Some xfer => xfer h msgs
  | None => (0, [])
  end.

(** The bytes found in a buffer of [len] bytes. *)
Definition as_bytes (len : Z) (l : list Z) : list Z :=
  map (fun i => u8 (at_ l i)) (seq 0 (Z.to_nat len)).

Definition log (e : event) : M drv unit := modify (fun s => put_tr (e :: s.(tr)) s).

(** [MPU_Write_Len]: [buf] has 50 bytes and receives the register address and
    [len] data bytes; the slave address is [dev->i2c_addr], not [addr].  The
    function ends without a return statement. *)
Definition MPU_Write_Len `{Env} (addr reg len : Z) (databuf : list Z) : M drv Z :=
  let reg := u8 reg in
  let len := u8 len in
  if (49 <? len) || (Z.of_nat (length databuf) <? len) then undefined else
  s <- gets id ;;
  let data := take (Z.to_nat len) databuf in
  let n := if bus_is_i2c s.(dev)
           then fst (rt_i2c_transfer s.(tr)
                       [mk_msg (i2c_addr s.(dev)) RT_I2C_WR (len + 1) (reg :: data)])
           else 0 in
  let r := u8 (ret_reg s.(tr) n) in
  log (EvWrite (i2c_addr s.(dev)) reg data (n =? 1) r) ;;;
  ret r.

(** [MPU_Read_Len]: a write of the register address followed by a read of
    [len] bytes into the caller's buffer. *)
Definition MPU_Read_Len `{Env} (addr reg len : Z) : M drv (Z * list Z) :=
  let reg := u8 reg in
  let len := u8 len in
  s <- gets id ;;
  if bus_is_i2c s.(dev) then
    let '(n, bytes) := rt_i2c_transfer s.(tr)
      [mk_msg (i2c_addr s.(dev)) RT_I2C_WR 1 [reg];
       mk_msg (i2c_addr s.(dev)) RT_I2C_RD len []] in
    let data := as_bytes len bytes in
    let res := if n =? 2 then 0 else -1 in
    log (EvRead (i2c_addr s.(dev)) reg len (n =? 2) data) ;;;
    ret (u8 res, data)
  else
    ret (0, as_bytes len (replicate (Z.to_nat len) (uninit s.(tr)))).

(** The names under which inv_mpu.c uses them. *)
Definition i2c_write `{Env} (reg len : Z) (data : list Z) : M drv Z :=
  MPU_Write_Len (Hw.addr Hw.hw) reg len data.
Definition i2c_read `{Env} (reg len : Z) : M drv (Z * list Z) :=
  MPU_Read_Len (Hw.addr Hw.hw) reg len.
Definition delay_ms (ms : Z) : M drv unit := log (EvDelay ms).

(** What inv_mpu.c relies on: a zero result means that the transfer took
    place, a non-zero result that it did not. *)
Class WriteReports `{Env} : Prop :=
  write_reports : forall h n, u8 (ret_reg h n) = 0 <-> n = 1.

(** ** Facts *)

Lemma length_as_bytes len l : length (as_bytes len l) = Z.to_nat len.
Proof. unfold as_bytes. by rewrite length_map, length_seq. Qed.

Lemma as_bytes_range len l : Forall (fun b => 0 <= b < 256) (as_bytes len l).
Proof.
  unfold as_bytes. apply Forall_forall. intros b Hb.
  apply list_elem_of_In, in_map_iff in Hb as (i & <- & _). apply u8_range.
Qed.

Section facts.
Context `{Env}.

(** A write of at most 49 bytes that are there always returns, appends one
    event and changes nothing else; any other write is undefined. *)
Lemma i2c_write_wpg ub reg len data (Q : Z -> drv -> Prop) s :
  ub \/ (u8 len <= 49 /\ u8 len <= Z.of_nat (length data)) ->
  (forall ok r, 0 <= r < 256 ->
     (exists n, r = u8 (ret_reg s.(tr) n) /\ ok = (n =? 1)) ->
     Q r (put_tr (EvWrite (i2c_addr s.(dev)) (u8 reg)
                    (take (Z.to_nat (u8 len)) data) ok r :: s.(tr)) s)) ->
  wpg ub (i2c_write reg len data) Q s.
Proof.
  intros Hub HQ. unfold i2c_write, MPU_Write_Len.
  destruct (_ || _) eqn:E.
  { apply orb_true_iff in E. destruct Hub as [?|?]; [done|lia]. }
  apply wpg_bind, wpg_gets, wpg_bind, wpg_modify, wpg_ret.
  apply HQ; [apply u8_range|eauto].
Qed.

(** A read always returns [len] bytes. *)
Lemma i2c_read_wpg ub reg len (Q : Z * list Z -> drv -> Prop) s :
  (forall r data tr', 0 <= r < 256 ->
     length data = Z.to_nat (u8 len) ->
     Forall (fun b => 0 <= b < 256) data ->
     (tr' = s.(tr) \/
      exists ok, tr' = EvRead (i2c_addr s.(dev)) (u8 reg) (u8 len) ok data :: s.(tr)) ->
     Q (r, data) (put_tr tr' s)) ->
  wpg ub (i2c_read reg len) Q s.
Proof.
  intros HQ. unfold i2c_read, MPU_Read_Len.
  apply wpg_bind, wpg_gets. unfold id.
  destruct (bus_is_i2c (dev s)).
  - destruct (rt_i2c_transfer _ _) as [n bytes].
    apply wpg_bind, wpg_modify, wpg_ret.
    apply HQ; eauto using u8_range, length_as_bytes, as_bytes_range.
  - apply wpg_ret. replace s with (put_tr (tr s) s) at 2 by by destruct s.
    apply HQ; auto using length_as_bytes, as_bytes_range. lia.
Qed.
End facts.
