(* ===== verification/InvMpu.v ===== *)
(** * The MPU6050 driver

    The operations of src/eMPL/inv_mpu.c on the state [drv]: one definition
    per C function, with its guards, early returns and bus accesses in the
    order of the code.  An output parameter is passed in with its content
    and returned with its new content, so that a path that does not write it
    leaves it alone. *)

From stdpp Require Import prelude.
From Stdlib Require Import ZArith.
From S2P Require Import Prelude CFloat MpuData MpuBus.
Open Scope Z_scope.
Open Scope c_scope.

(** [st.reg->f] *)
Definition rg (f : Reg.gyro_reg_s -> Z) : Z := f Reg.reg.
Definition chipset (f : chip_cfg_s -> chip_cfg_s) : M drv unit := modify (on_chip f).

(** [get_ms] is [mget_ms], which has an empty body. *)
Definition mget_ms (time : Z) : Z := time.

Section ops.
Context `{Env}.

(** ** Interrupts, pins and FIFO *)

Definition set_int_enable (enable : Z) : M drv Z :=
  c <- gets chip ;;
  if truthy c.(dmp_on) then
    let tmp := if truthy enable then BIT_DMP_INT_EN else 0x00 in
    TRY i2c_write (rg Reg.int_enable) 1 [tmp] ELSE -1 ;;
    chipset (with_int_enable tmp) ;;;
    ret 0
  else
    if negb (truthy c.(sensors)) then ret (-1) else
    if truthy enable && truthy c.(int_enable) then ret 0 else
    let tmp := if truthy enable then BIT_DATA_RDY_EN else 0x00 in
    TRY i2c_write (rg Reg.int_enable) 1 [tmp] ELSE -1 ;;
    chipset (with_int_enable tmp) ;;;
    ret 0.

(** The loop of [mpu_reg_dump]: [n] registers from [ii] on. *)
Fixpoint reg_dump_from (n : nat) (ii : Z) : M drv Z :=
  match n with
  | O => ret 0
  | S n =>
      if (ii =? rg Reg.fifo_r_w) || (ii =? rg Reg.mem_r_w)
      then reg_dump_from n (ii + 1)
      else READ data <- i2c_read ii 1 ELSE -1 ;; reg_dump_from n (ii + 1)
  end.

Definition mpu_reg_dump : M drv Z :=
  reg_dump_from (Z.to_nat (Hw.num_reg Hw.hw)) 0.

Definition mpu_read_reg (reg data : Z) : M drv (Z * Z) :=
  if (reg =? rg Reg.fifo_r_w) || (reg =? rg Reg.mem_r_w) then ret (-1, data) else
  if Hw.num_reg Hw.hw <=? reg then ret (-1, data) else
  '(r, d) <- i2c_read reg 1 ;;
  ret (r, at_ d 0).

Definition mpu_set_int_level (active_low : Z) : M drv Z :=
  chipset (with_active_low_int active_low) ;;;
  ret 0.

Definition mpu_set_int_latched (enable : Z) : M drv Z :=
  c <- gets chip ;;
  if c.(latched_int) =? enable then ret 0 else
  let tmp := if truthy enable then Z.lor BIT_LATCH_EN BIT_ANY_RD_CLR else 0 in
  let tmp := if truthy c.(bypass_mode) then Z.lor tmp BIT_BYPASS_EN else tmp in
  let tmp := if truthy c.(active_low_int) then Z.lor tmp BIT_ACTL else tmp in
  TRY i2c_write (rg Reg.int_pin_cfg) 1 [tmp] ELSE -1 ;;
  chipset (with_latched_int enable) ;;;
  ret 0.

Definition mpu_reset_fifo : M drv Z :=
  c <- gets chip ;;
  if negb (truthy c.(sensors)) then ret (-1) else
  TRY i2c_write (rg Reg.int_enable) 1 [0] ELSE -1 ;;
  TRY i2c_write (rg Reg.fifo_en) 1 [0] ELSE -1 ;;
  TRY i2c_write (rg Reg.user_ctrl) 1 [0] ELSE -1 ;;
  if truthy c.(dmp_on) then
    TRY i2c_write (rg Reg.user_ctrl) 1 [Z.lor BIT_FIFO_RST BIT_DMP_RST] ELSE -1 ;;
    delay_ms 50 ;;;
    let data := Z.lor BIT_DMP_EN BIT_FIFO_EN in
    let data := if has c.(sensors) INV_XYZ_COMPASS
                then Z.lor data BIT_AUX_IF_EN else data in
    TRY i2c_write (rg Reg.user_ctrl) 1 [data] ELSE -1 ;;
    let data := if truthy c.(int_enable) then BIT_DMP_INT_EN else 0 in
    TRY i2c_write (rg Reg.int_enable) 1 [data] ELSE -1 ;;
    TRY i2c_write (rg Reg.fifo_en) 1 [0] ELSE -1 ;;
    ret 0
  else
    TRY i2c_write (rg Reg.user_ctrl) 1 [BIT_FIFO_RST] ELSE -1 ;;
    let data := if truthy c.(bypass_mode) || negb (has c.(sensors) INV_XYZ_COMPASS)
                then BIT_FIFO_EN else Z.lor BIT_FIFO_EN BIT_AUX_IF_EN in
    TRY i2c_write (rg Reg.user_ctrl) 1 [data] ELSE -1 ;;
    delay_ms 50 ;;;
    let data := if truthy c.(int_enable) then BIT_DATA_RDY_EN else 0 in
    TRY i2c_write (rg Reg.int_enable) 1 [data] ELSE -1 ;;
    TRY i2c_write (rg Reg.fifo_en) 1 [c.(fifo_enable)] ELSE -1 ;;
    ret 0.

(** ** Ranges and filters *)

Definition mpu_get_gyro_fsr : M drv (Z * Z) :=
  c <- gets chip ;;
  let v := c.(gyro_fsr) in
  ret (0, if v =? INV_FSR_250DPS then 250
          else if v =? INV_FSR_500DPS then 500
          else if v =? INV_FSR_1000DPS then 1000
          else if v =? INV_FSR_2000DPS then 2000
          else 0).

Definition mpu_set_gyro_fsr (fsr : Z) : M drv Z :=
  c <- gets chip ;;
  if negb (truthy c.(sensors)) then ret (-1) else
  let go data :=
    if c.(gyro_fsr) =? Z.shiftr data 3 then ret 0 else
    TRY i2c_write (rg Reg.gyro_cfg) 1 [data] ELSE -1 ;;
    chipset (with_gyro_fsr (Z.shiftr data 3)) ;;;
    ret 0 in
  if fsr =? 250 then go (Z.shiftl INV_FSR_250DPS 3)
  else if fsr =? 500 then go (Z.shiftl INV_FSR_500DPS 3)
  else if fsr =? 1000 then go (Z.shiftl INV_FSR_1000DPS 3)
  else if fsr =? 2000 then go (Z.shiftl INV_FSR_2000DPS 3)
  else ret (-1).

Definition mpu_get_accel_fsr (fsr : Z) : M drv (Z * Z) :=
  c <- gets chip ;;
  let v := c.(accel_fsr) in
  let done fsr := ret (0, if truthy c.(accel_half) then u8 (Z.shiftl fsr 1) else fsr) in
  if v =? INV_FSR_2G then done 2
  else if v =? INV_FSR_4G then done 4
  else if v =? INV_FSR_8G then done 8
  else if v =? INV_FSR_16G then done 16
  else ret (-1, fsr).

Definition mpu_set_accel_fsr (fsr : Z) : M drv Z :=
  c <- gets chip ;;
  if negb (truthy c.(sensors)) then ret (-1) else
  let go data :=
    if c.(accel_fsr) =? Z.shiftr data 3 then ret 0 else
    TRY i2c_write (rg Reg.accel_cfg) 1 [data] ELSE -1 ;;
    chipset (with_accel_fsr (Z.shiftr data 3)) ;;;
    ret 0 in
  if fsr =? 2 then go (Z.shiftl INV_FSR_2G 3)
  else if fsr =? 4 then go (Z.shiftl INV_FSR_4G 3)
  else if fsr =? 8 then go (Z.shiftl INV_FSR_8G 3)
  else if fsr =? 16 then go (Z.shiftl INV_FSR_16G 3)
  else ret (-1).

Definition mpu_get_lpf : M drv (Z * Z) :=
  c <- gets chip ;;
  let v := c.(lpf) in
  ret (0, if v =? INV_FILTER_188HZ then 188
          else if v =? INV_FILTER_98HZ then 98
          else if v =? INV_FILTER_42HZ then 42
          else if v =? INV_FILTER_20HZ then 20
          else if v =? INV_FILTER_10HZ then 10
          else if v =? INV_FILTER_5HZ then 5
          else 0).

(** The filter selected for a requested bandwidth. *)
Definition lpf_code (lpf : Z) : Z :=
  if 188 <=? lpf then INV_FILTER_188HZ
  else if 98 <=? lpf then INV_FILTER_98HZ
  else if 42 <=? lpf then INV_FILTER_42HZ
  else if 20 <=? lpf then INV_FILTER_20HZ
  else if 10 <=? lpf then INV_FILTER_10HZ
  else INV_FILTER_5HZ.

Definition mpu_set_lpf (lpf_ : Z) : M drv Z :=
  c <- gets chip ;;
  if negb (truthy c.(sensors)) then ret (-1) else
  let data := lpf_code lpf_ in
  if c.(lpf) =? data then ret 0 else
  TRY i2c_write (rg Reg.lpf) 1 [data] ELSE -1 ;;
  chipset (with_lpf data) ;;;
  ret 0.

Definition mpu_get_gyro_sens (sens : float) : M drv (Z * float) :=
  c <- gets chip ;;
  let v := c.(gyro_fsr) in
  if v =? INV_FSR_250DPS then ret (0, F32.of_Z 131)
  else if v =? INV_FSR_500DPS then ret (0, F32.lit 655 1)
  else if v =? INV_FSR_1000DPS then ret (0, F32.lit 328 1)
  else if v =? INV_FSR_2000DPS then ret (0, F32.lit 164 1)
  else ret (-1, sens).

Definition mpu_get_accel_sens (sens : Z) : M drv (Z * Z) :=
  c <- gets chip ;;
  let v := c.(accel_fsr) in
  let done sens := ret (0, if truthy c.(accel_half) then Z.shiftr sens 1 else sens) in
  if v =? INV_FSR_2G then done 16384
  else if v =? INV_FSR_4G then done 8092
  else if v =? INV_FSR_8G then done 4096
  else if v =? INV_FSR_16G then done 2048
  else ret (-1, sens).

(** ** FIFO configuration, low-power mode, sample rate *)

Definition mpu_get_fifo_config : M drv (Z * Z) :=
  c <- gets chip ;;
  ret (0, c.(fifo_enable)).

Definition mpu_configure_fifo (sensors_ : Z) : M drv Z :=
  let sensors_ := Z.land sensors_ (Z.lnot INV_XYZ_COMPASS) in
  c <- gets chip ;;
  if truthy c.(dmp_on) then ret 0 else
  if negb (truthy c.(sensors)) then ret (-1) else
  let prev := c.(fifo_enable) in
  let now := Z.land sensors_ c.(sensors) in
  chipset (with_fifo_enable now) ;;;
  let result := if negb (now =? sensors_) then -1 else 0 in
  (if truthy sensors_ || truthy c.(lp_accel_mode)
   then set_int_enable 1 else set_int_enable 0) ;;;
  if truthy sensors_ then
    r <- mpu_reset_fifo ;;
    if truthy r then chipset (with_fifo_enable prev) ;;; ret (-1)
    else ret result
  else ret result.

Definition mpu_lp_accel_mode (rate : Z) : M drv Z :=
  if 40 <? rate then ret (-1) else
  if negb (truthy rate) then
    mpu_set_int_latched 0 ;;;
    TRY i2c_write (rg Reg.pwr_mgmt_1) 2 [0; BIT_STBY_XYZG] ELSE -1 ;;
    chipset (with_lp_accel_mode 0) ;;;
    ret 0
  else
    mpu_set_int_latched 1 ;;;
    tmp1 <- (if rate =? 1 then mpu_set_lpf 5 ;;; ret INV_LPA_1_25HZ
             else if rate <=? 5 then mpu_set_lpf 5 ;;; ret INV_LPA_5HZ
             else if rate <=? 20 then mpu_set_lpf 10 ;;; ret INV_LPA_20HZ
             else mpu_set_lpf 20 ;;; ret INV_LPA_40HZ) ;;
    let tmp1 := u8 (Z.lor (Z.shiftl tmp1 6) BIT_STBY_XYZG) in
    TRY i2c_write (rg Reg.pwr_mgmt_1) 2 [BIT_LPA_CYCLE; tmp1] ELSE -1 ;;
    chipset (with_sensors INV_XYZ_ACCEL) ;;;
    chipset (with_clk_src 0) ;;;
    chipset (with_lp_accel_mode 1) ;;;
    mpu_configure_fifo 0 ;;;
    ret 0.

Definition mpu_get_sample_rate (rate : Z) : M drv (Z * Z) :=
  c <- gets chip ;;
  if truthy c.(dmp_on) then ret (-1, rate) else ret (0, c.(sample_rate)).

Definition mpu_set_sample_rate (rate : Z) : M drv Z :=
  c <- gets chip ;;
  if negb (truthy c.(sensors)) then ret (-1) else
  if truthy c.(dmp_on) then ret (-1) else
  if truthy c.(lp_accel_mode) && (truthy rate && (rate <=? 40)) then
    mpu_lp_accel_mode rate ;;; ret 0
  else
    when (truthy c.(lp_accel_mode)) (mpu_lp_accel_mode 0 ;;; ret tt) ;;;
    let rate := if rate <? 4 then 4 else if 1000 <? rate then 1000 else rate in
    q <- cdiv 1000 rate ;;
    let data := u8 (q - 1) in
    TRY i2c_write (rg Reg.rate_div) 1 [data] ELSE -1 ;;
    let sr := u16 (Z.quot 1000 (1 + data)) in
    chipset (with_sample_rate sr) ;;;
    mpu_set_lpf (Z.shiftr sr 1) ;;;
    ret 0.

(** No compass is configured in this build. *)
Definition mpu_get_compass_sample_rate : M drv (Z * Z) := ret (-1, 0).
Definition mpu_set_compass_sample_rate (rate : Z) : M drv Z := ret (-1).
Definition setup_compass : M drv Z := ret (-1).
Definition mpu_get_compass_reg (data : list Z) (timestamp : option Z) :
    M drv (Z * (list Z * option Z)) := ret (-1, (data, timestamp)).
Definition mpu_get_compass_fsr (fsr : Z) : M drv (Z * Z) := ret (-1, fsr).

(** ** Power, bypass *)

Definition mpu_get_power_state : M drv (Z * Z) :=
  c <- gets chip ;;
  ret (0, if truthy c.(sensors) then 1 else 0).

(** The PWR_MGMT_2 value for a sensor mask. *)
Definition stby_of (sensors_ : Z) : Z :=
  let data := 0 in
  let data := if has sensors_ INV_X_GYRO then data else Z.lor data BIT_STBY_XG in
  let data := if has sensors_ INV_Y_GYRO then data else Z.lor data BIT_STBY_YG in
  let data := if has sensors_ INV_Z_GYRO then data else Z.lor data BIT_STBY_ZG in
  if has sensors_ INV_XYZ_ACCEL then data else Z.lor data BIT_STBY_XYZA.

Definition mpu_set_sensors (sensors_ : Z) : M drv Z :=
  let data := if has sensors_ INV_XYZ_GYRO then INV_CLK_PLL
              else if truthy sensors_ then 0 else BIT_SLEEP in
  r <- i2c_write (rg Reg.pwr_mgmt_1) 1 [data] ;;
  if truthy r then chipset (with_sensors 0) ;;; ret (-1) else
  chipset (with_clk_src (Z.land data (Z.lnot BIT_SLEEP))) ;;;
  r <- i2c_write (rg Reg.pwr_mgmt_2) 1 [stby_of sensors_] ;;
  if truthy r then chipset (with_sensors 0) ;;; ret (-1) else
  when (truthy sensors_ && negb (sensors_ =? INV_XYZ_ACCEL))
       (mpu_set_int_latched 0 ;;; ret tt) ;;;
  chipset (with_sensors sensors_) ;;;
  chipset (with_lp_accel_mode 0) ;;;
  delay_ms 50 ;;;
  ret 0.

Definition mpu_set_bypass (bypass_on : Z) : M drv Z :=
  c <- gets chip ;;
  if c.(bypass_mode) =? bypass_on then ret 0 else
  if truthy bypass_on then
    READ d <- i2c_read (rg Reg.user_ctrl) 1 ELSE -1 ;;
    let tmp := Z.land (at_ d 0) (Z.lnot BIT_AUX_IF_EN) in
    TRY i2c_write (rg Reg.user_ctrl) 1 [tmp] ELSE -1 ;;
    delay_ms 3 ;;;
    let tmp := BIT_BYPASS_EN in
    let tmp := if truthy c.(active_low_int) then Z.lor tmp BIT_ACTL else tmp in
    let tmp := if truthy c.(latched_int)
               then Z.lor tmp (Z.lor BIT_LATCH_EN BIT_ANY_RD_CLR) else tmp in
    TRY i2c_write (rg Reg.int_pin_cfg) 1 [tmp] ELSE -1 ;;
    chipset (with_bypass_mode bypass_on) ;;;
    ret 0
  else
    READ d <- i2c_read (rg Reg.user_ctrl) 1 ELSE -1 ;;
    let tmp := if has c.(sensors) INV_XYZ_COMPASS then Z.lor (at_ d 0) BIT_AUX_IF_EN
               else Z.land (at_ d 0) (Z.lnot BIT_AUX_IF_EN) in
    TRY i2c_write (rg Reg.user_ctrl) 1 [tmp] ELSE -1 ;;
    delay_ms 3 ;;;
    let tmp := if truthy c.(active_low_int) then BIT_ACTL else 0 in
    let tmp := if truthy c.(latched_int)
               then Z.lor tmp (Z.lor BIT_LATCH_EN BIT_ANY_RD_CLR) else tmp in
    TRY i2c_write (rg Reg.int_pin_cfg) 1 [tmp] ELSE -1 ;;
    chipset (with_bypass_mode bypass_on) ;;;
    ret 0.

(** ** Initialisation *)

(** The revision of [mpu_init]: which parts have half sensitivity. *)
Definition init_accel_half : M drv Z :=
  READ data <- i2c_read (rg Reg.accel_offs) 6 ELSE -1 ;;
  let rev := Z.lor (Z.lor (Z.shiftl (Z.land (at_ data 5) 0x01) 2)
                          (Z.shiftl (Z.land (at_ data 3) 0x01) 1))
                   (Z.land (at_ data 1) 0x01) in
  if truthy rev then
    if rev =? 1 then chipset (with_accel_half 1) ;;; ret 0
    else if rev =? 2 then chipset (with_accel_half 0) ;;; ret 0
    else ret (-1)
  else
    READ data <- i2c_read (rg Reg.prod_id) 1 ELSE -1 ;;
    let rev := Z.land (at_ data 0) 0x0F in
    if negb (truthy rev) then ret (-1)
    else if rev =? 4 then chipset (with_accel_half 1) ;;; ret 0
    else chipset (with_accel_half 0) ;;; ret 0.

(** The assignments of [mpu_init] after the revision check. *)
Definition init_chip (c : chip_cfg_s) : chip_cfg_s :=
  with_dmp_sample_rate 0 (with_dmp_loaded 0 (with_dmp_on 0 (with_cache zero_cache
  (with_lp_accel_mode 0 (with_int_motion_only 0 (with_latched_int 0
  (with_active_low_int 1 (with_clk_src INV_CLK_PLL (with_bypass_mode 0xFF
  (with_fifo_enable 0xFF (with_sample_rate 0xFFFF (with_lpf 0xFF
  (with_accel_fsr 0xFF (with_gyro_fsr 0xFF (with_sensors 0xFF c))))))))))))))).

Definition mpu_init : M drv Z :=
  TRY i2c_write (rg Reg.pwr_mgmt_1) 1 [BIT_RESET] ELSE -1 ;;
  delay_ms 100 ;;;
  TRY i2c_write (rg Reg.pwr_mgmt_1) 1 [0x00] ELSE -1 ;;
  TRY init_accel_half ELSE -1 ;;
  chipset init_chip ;;;
  TRY mpu_set_gyro_fsr 2000 ELSE -1 ;;
  TRY mpu_set_accel_fsr 2 ELSE -1 ;;
  TRY mpu_set_lpf 42 ELSE -1 ;;
  TRY mpu_set_sample_rate 50 ELSE -1 ;;
  TRY mpu_configure_fifo 0 ELSE -1 ;;
  TRY mpu_set_bypass 0 ELSE -1 ;;
  mpu_set_sensors 0 ;;;
  ret 0.

End ops.
