(* ===== verification/InvMpuRead.v ===== *)
(** * The MPU6050 driver: data, memory, self-test and motion interrupt

    The rest of src/eMPL/inv_mpu.c: register and FIFO reads, the DMP memory
    and firmware loader, switching the DMP, the hardware self-test and the
    low-power motion interrupt. *)

From stdpp Require Import prelude.
From Stdlib Require Import ZArith.
From S2P Require Import Prelude CFloat MpuData MpuBus InvMpu.
Open Scope Z_scope.
Open Scope c_scope.

(** ** Self-test constants ([struct test_s] and its instance) *)

Module Test.
Record test_s := mk_test_s {
  gyro_sens : Z;
  accel_sens : Z;
  reg_rate_div : Z;
  reg_lpf : Z;
  reg_gyro_fsr : Z;
  reg_accel_fsr : Z;
  wait_ms : Z;
  packet_thresh : Z;
  min_dps : float;
  max_dps : float;
  max_gyro_var : float;
  min_g : float;
  max_g : float;
  max_accel_var : float
}.

Definition test : test_s := {|
  gyro_sens := Z.quot 32768 250;
  accel_sens := Z.quot 32768 16;
  reg_rate_div := 0;
  reg_lpf := 1;
  reg_gyro_fsr := 0;
  reg_accel_fsr := 0x18;
  wait_ms := 50;
  packet_thresh := 5;
  min_dps := F32.of_Z 10;
  max_dps := F32.of_Z 105;
  max_gyro_var := F32.lit 14 2;
  min_g := F32.lit 3 1;
  max_g := F32.lit 95 2;
  max_accel_var := F32.lit 14 2
|}.
End Test.

(** A signed 16-bit sample from its two bytes, high byte first. *)
Definition sample (d : list Z) (i : nat) : Z := s16 (be16 (at_ d i) (at_ d (i + 1))).
Definition sample3 (d : list Z) (i : nat) : list Z :=
  [sample d i; sample d (i + 2); sample d (i + 4)].

Section ops.
Context `{Env}.

(** ** Raw data *)

Definition mpu_get_gyro_reg (data : list Z) (timestamp : option Z) :
    M drv (Z * (list Z * option Z)) :=
  c <- gets chip ;;
  if negb (has c.(sensors) INV_XYZ_GYRO) then ret (-1, (data, timestamp)) else
  READ tmp <- i2c_read (rg Reg.raw_gyro) 6 ELSE (-1, (data, timestamp)) ;;
  ret (0, (sample3 tmp 0, mget_ms <$> timestamp)).

Definition mpu_get_accel_reg (data : list Z) (timestamp : option Z) :
    M drv (Z * (list Z * option Z)) :=
  c <- gets chip ;;
  if negb (has c.(sensors) INV_XYZ_ACCEL) then ret (-1, (data, timestamp)) else
  READ tmp <- i2c_read (rg Reg.raw_accel) 6 ELSE (-1, (data, timestamp)) ;;
  ret (0, (sample3 tmp 0, mget_ms <$> timestamp)).

Definition mpu_get_temperature (data : Z) (timestamp : option Z) :
    M drv (Z * (Z * option Z)) :=
  c <- gets chip ;;
  if negb (truthy c.(sensors)) then ret (-1, (data, timestamp)) else
  READ tmp <- i2c_read (rg Reg.temp) 2 ELSE (-1, (data, timestamp)) ;;
  let raw := sample tmp 0 in
  let off := F32.of_Z (Hw.temp_offset Hw.hw) in
  let q := F32.div (F32.sub (F32.of_Z raw) off) (F32.of_Z (Hw.temp_sens Hw.hw)) in
  v <- cast_long (F32.mul (F32.add (F32.of_Z 35) q) (F32.of_Z 65536)) ;;
  ret (0, (v, mget_ms <$> timestamp)).

Definition mpu_get_int_status (status : Z) : M drv (Z * Z) :=
  c <- gets chip ;;
  if negb (truthy c.(sensors)) then ret (-1, status) else
  READ tmp <- i2c_read (rg Reg.dmp_int_status) 2 ELSE (-1, status) ;;
  ret (0, sample tmp 0).

Definition mpu_set_accel_bias (accel_bias : option (list Z)) : M drv Z :=
  match accel_bias with
  | None => ret (-1)
  | Some b =>
      if negb (truthy (at_ b 0)) && negb (truthy (at_ b 1)) && negb (truthy (at_ b 2))
      then ret 0 else
      READ data <- i2c_read 3 3 ELSE -1 ;;
      let fg i := Z.land (Z.shiftr (at_ data i) 4 + 8) 0xf in
      h0 <- cdiv (s32 (at_ b 0 * 2)) (64 + fg 0%nat) ;;
      h1 <- cdiv (s32 (at_ b 1 * 2)) (64 + fg 1%nat) ;;
      h2 <- cdiv (s32 (at_ b 2 * 2)) (64 + fg 2%nat) ;;
      READ got <- i2c_read 0x06 6 ELSE -1 ;;
      let a0 := s16 (s16 h0 + sample got 0) in
      let a1 := s16 (s16 h1 + sample got 2) in
      let a2 := s16 (s16 h2 + sample got 4) in
      TRY i2c_write 0x06 6 (bytes16 a0 ++ bytes16 a1 ++ bytes16 a2) ELSE -1 ;;
      ret 0
  end.

(** ** FIFO packets *)

(** Output parameters of [mpu_read_fifo]. *)
Record fifo_out := mk_fifo_out {
  fo_gyro : list Z;
  fo_accel : list Z;
  fo_timestamp : Z;
  fo_sensors : Z;
  fo_more : Z
}.

(** Length of a raw packet for an enable mask. *)
Definition raw_packet_size (fifo_enable_ : Z) : Z :=
  let p := 0 in
  let p := if has fifo_enable_ INV_X_GYRO then p + 2 else p in
  let p := if has fifo_enable_ INV_Y_GYRO then p + 2 else p in
  let p := if has fifo_enable_ INV_Z_GYRO then p + 2 else p in
  if has fifo_enable_ INV_XYZ_ACCEL then p + 6 else p.

(** The parser at the end of [mpu_read_fifo]: index, mask and outputs. *)
Definition parse_raw_packet (fifo_enable_ packet_size : Z) (data : list Z)
    (gyro accel : list Z) : Z * list Z * list Z :=
  let '(index, sens, accel) :=
    if negb (0 =? packet_size) && has fifo_enable_ INV_XYZ_ACCEL
    then (6%nat, INV_XYZ_ACCEL, sample3 data 0) else (0%nat, 0, accel) in
  let '(index, sens, g0) :=
    if negb (Z.of_nat index =? packet_size) && has fifo_enable_ INV_X_GYRO
    then ((index + 2)%nat, Z.lor sens INV_X_GYRO, sample data index)
    else (index, sens, at_ gyro 0) in
  let '(index, sens, g1) :=
    if negb (Z.of_nat index =? packet_size) && has fifo_enable_ INV_Y_GYRO
    then ((index + 2)%nat, Z.lor sens INV_Y_GYRO, sample data index)
    else (index, sens, at_ gyro 1) in
  let '(index, sens, g2) :=
    if negb (Z.of_nat index =? packet_size) && has fifo_enable_ INV_Z_GYRO
    then ((index + 2)%nat, Z.lor sens INV_Z_GYRO, sample data index)
    else (index, sens, at_ gyro 2) in
  (sens, [g0; g1; g2], accel).

Definition mpu_read_fifo (o : fifo_out) : M drv (Z * fifo_out) :=
  c <- gets chip ;;
  if truthy c.(dmp_on) then ret (-1, o) else
  let o := mk_fifo_out o.(fo_gyro) o.(fo_accel) o.(fo_timestamp) 0 o.(fo_more) in
  if negb (truthy c.(sensors)) then ret (-1, o) else
  if negb (truthy c.(fifo_enable)) then ret (-1, o) else
  let packet_size := raw_packet_size c.(fifo_enable) in
  READ cnt <- i2c_read (rg Reg.fifo_count_h) 2 ELSE (-1, o) ;;
  let fifo_count := be16 (at_ cnt 0) (at_ cnt 1) in
  if fifo_count <? packet_size then ret (0, o) else
  let finish :=
    READ data <- i2c_read (rg Reg.fifo_r_w) packet_size ELSE (-1, o) ;;
    n <- cdiv fifo_count packet_size ;;
    let '(sens, gyro, accel) :=
      parse_raw_packet c.(fifo_enable) packet_size data o.(fo_gyro) o.(fo_accel) in
    ret (0, mk_fifo_out gyro accel (mget_ms o.(fo_timestamp)) sens (u8 (n - 1))) in
  if Z.shiftr (Hw.max_fifo Hw.hw) 1 <? fifo_count then
    READ st <- i2c_read (rg Reg.int_status) 1 ELSE (-1, o) ;;
    if has (at_ st 0) BIT_FIFO_OVERFLOW then mpu_reset_fifo ;;; ret (-2, o)
    else finish
  else finish.

(** [data] and [more] are the caller's buffer and counter; reading more bytes
    than the buffer holds is undefined. *)
Definition mpu_read_fifo_stream (len : Z) (data : list Z) (more : Z) :
    M drv (Z * (list Z * Z)) :=
  c <- gets chip ;;
  if negb (truthy c.(dmp_on)) then ret (-1, (data, more)) else
  if negb (truthy c.(sensors)) then ret (-1, (data, more)) else
  READ tmp <- i2c_read (rg Reg.fifo_count_h) 2 ELSE (-1, (data, more)) ;;
  let fifo_count := be16 (at_ tmp 0) (at_ tmp 1) in
  if fifo_count <? len then ret (-1, (data, 0)) else
  let finish :=
    if Z.of_nat (length data) <? u8 len then undefined else
    '(r, d) <- i2c_read (rg Reg.fifo_r_w) len ;;
    let data := d ++ drop (length d) data in
    if truthy r then ret (-1, (data, more)) else
    n <- cdiv fifo_count len ;;
    ret (0, (data, u8 (n - 1))) in
  if Z.shiftr (Hw.max_fifo Hw.hw) 1 <? fifo_count then
    READ st <- i2c_read (rg Reg.int_status) 1 ELSE (-1, (data, more)) ;;
    if has (at_ st 0) BIT_FIFO_OVERFLOW then mpu_reset_fifo ;;; ret (-2, (data, more))
    else finish
  else finish.

(** ** DMP memory and firmware *)

Definition mpu_write_mem (mem_addr len : Z) (data : option (list Z)) : M drv Z :=
  match data with
  | None => ret (-1)
  | Some data =>
      c <- gets chip ;;
      if negb (truthy c.(sensors)) then ret (-1) else
      let t0 := u8 (Z.shiftr mem_addr 8) in
      let t1 := u8 (Z.land mem_addr 0xFF) in
      if Hw.bank_size Hw.hw <? t1 + len then ret (-1) else
      TRY i2c_write (rg Reg.bank_sel) 2 [t0; t1] ELSE -1 ;;
      TRY i2c_write (rg Reg.mem_r_w) len data ELSE -1 ;;
      ret 0
  end.

Definition mpu_read_mem (mem_addr len : Z) (data : option (list Z)) :
    M drv (Z * list Z) :=
  match data with
  | None => ret (-1, [])
  | Some data =>
      c <- gets chip ;;
      if negb (truthy c.(sensors)) then ret (-1, data) else
      let t0 := u8 (Z.shiftr mem_addr 8) in
      let t1 := u8 (Z.land mem_addr 0xFF) in
      if Hw.bank_size Hw.hw <? t1 + len then ret (-1, data) else
      TRY i2c_write (rg Reg.bank_sel) 2 [t0; t1] ELSE (-1, data) ;;
      '(r, d) <- i2c_read (rg Reg.mem_r_w) len ;;
      if truthy r then ret (-1, d) else ret (0, d)
  end.

(** The loop of [mpu_load_firmware] from offset [ii] on: write a chunk, read
    it back, compare.  [fuel] bounds the number of chunks. *)
Fixpoint load_chunks (fuel : nat) (firmware : list Z) (len ii : Z) : M drv Z :=
  if ii <? len then
    match fuel with
    | O => undefined
    | S fuel =>
        let this_write := Z.min LOAD_CHUNK (len - ii) in
        TRY mpu_write_mem ii this_write (Some (drop (Z.to_nat ii) firmware)) ELSE -1 ;;
        READ cur <- mpu_read_mem ii this_write (Some []) ELSE -1 ;;
        if bool_decide (take (Z.to_nat this_write) (drop (Z.to_nat ii) firmware) = cur)
        then load_chunks fuel firmware len (u16 (ii + this_write))
        else ret (-2)
    end
  else ret 0.

Definition mpu_load_firmware (len : Z) (firmware : option (list Z))
    (start_addr sample_rate_ : Z) : M drv Z :=
  c <- gets chip ;;
  if truthy c.(dmp_loaded) then ret (-1) else
  match firmware with
  | None => ret (-1)
  | Some fw =>
      r <- load_chunks (Z.to_nat len) fw len 0 ;;
      if truthy r then ret r else
      TRY i2c_write (rg Reg.prgm_start_h) 2
            [u8 (Z.shiftr start_addr 8); Z.land start_addr 0xFF] ELSE -1 ;;
      chipset (with_dmp_loaded 1) ;;;
      chipset (with_dmp_sample_rate sample_rate_) ;;;
      ret 0
  end.

Definition mpu_set_dmp_state (enable : Z) : M drv Z :=
  c <- gets chip ;;
  if c.(dmp_on) =? enable then ret 0 else
  if truthy enable then
    if negb (truthy c.(dmp_loaded)) then ret (-1) else
    set_int_enable 0 ;;;
    mpu_set_bypass 0 ;;;
    mpu_set_sample_rate c.(dmp_sample_rate) ;;;
    i2c_write 0x23 1 [0] ;;;
    chipset (with_dmp_on 1) ;;;
    set_int_enable 1 ;;;
    mpu_reset_fifo ;;;
    ret 0
  else
    set_int_enable 0 ;;;
    c <- gets chip ;;
    i2c_write 0x23 1 [c.(fifo_enable)] ;;;
    chipset (with_dmp_on 0) ;;;
    mpu_reset_fifo ;;;
    ret 0.

Definition mpu_get_dmp_state : M drv (Z * Z) :=
  c <- gets chip ;;
  ret (0, c.(dmp_on)).

(** ** Self-test *)

(** [while (--n) x *= k;] for [n >= 1]. *)
Fixpoint mul_times (n : nat) (k x : float) : float :=
  match n with
  | O => x
  | S n => mul_times n k (F32.mul x k)
  end.

(** [st_shift] has 3 elements; nothing is written when the read fails. *)
Definition get_accel_prod_shift (st_shift : list float) : M drv (Z * list float) :=
  READ tmp <- i2c_read 0x0D 4 ELSE (0x07, st_shift) ;;
  let c0 := Z.lor (Z.shiftr (Z.land (at_ tmp 0) 0xE0) 3)
                  (Z.shiftr (Z.land (at_ tmp 3) 0x30) 4) in
  let c1 := Z.lor (Z.shiftr (Z.land (at_ tmp 1) 0xE0) 3)
                  (Z.shiftr (Z.land (at_ tmp 3) 0x0C) 2) in
  let c2 := Z.lor (Z.shiftr (Z.land (at_ tmp 2) 0xE0) 3) (Z.land (at_ tmp 3) 0x03) in
  let shift code :=
    if negb (truthy code) then F32.of_Z 0
    else mul_times (Z.to_nat (code - 1)) (F32.lit 1034 3) (F32.lit 34 2) in
  ret (0, [shift c0; shift c1; shift c2]).

Definition nthf (l : list float) (i : nat) : float := nth i l (F32.of_Z 0).

(** The deviation of one axis, in g or dps. *)
Definition st_shift_cust (bias_regular bias_st : list Z) (jj : nat) : float :=
  F32.div (F32.of_Z (Z.abs (s32 (at_ bias_regular jj - at_ bias_st jj))))
          (F32.of_Z 65536).

Definition accel_axis_fails (st_shift : list float) (bias_regular bias_st : list Z)
    (jj : nat) : bool :=
  let cust := st_shift_cust bias_regular bias_st jj in
  if ftruthy (nthf st_shift jj) then
    let var := F32.sub (F32.div cust (nthf st_shift jj)) (F32.of_Z 1) in
    fgt (SpecFloat.SFabs var) (Test.max_accel_var Test.test)
  else flt cust (Test.min_g Test.test) || fgt cust (Test.max_g Test.test).

(** [result |= 1 << jj] over the three axes. *)
Definition axis_mask (fails : nat -> bool) : Z :=
  let bit jj := if fails jj then Z.shiftl 1 (Z.of_nat jj) else 0 in
  Z.lor (Z.lor (bit 0%nat) (bit 1%nat)) (bit 2%nat).

Definition accel_self_test (bias_regular bias_st : list Z) : M drv Z :=
  h <- gets tr ;;
  '(_, st_shift) <- get_accel_prod_shift (replicate 3 (uninit_float h)) ;;
  ret (axis_mask (accel_axis_fails st_shift bias_regular bias_st)).

Definition gyro_axis_fails (tmp : list Z) (bias_regular bias_st : list Z)
    (jj : nat) : bool :=
  let cust := st_shift_cust bias_regular bias_st jj in
  let code := Z.land (at_ tmp jj) 0x1F in
  if truthy code then
    let shift := mul_times (Z.to_nat (code - 1)) (F32.lit 1046 3)
                   (F32.div (F32.of_Z 3275) (F32.of_Z (Test.gyro_sens Test.test))) in
    let var := F32.sub (F32.div cust shift) (F32.of_Z 1) in
    fgt (SpecFloat.SFabs var) (Test.max_gyro_var Test.test)
  else flt cust (Test.min_dps Test.test) || fgt cust (Test.max_dps Test.test).

Definition gyro_self_test (bias_regular bias_st : list Z) : M drv Z :=
  READ tmp <- i2c_read 0x0D 3 ELSE 0x07 ;;
  ret (axis_mask (gyro_axis_fails tmp bias_regular bias_st)).

Definition add3 (a b : list Z) : list Z :=
  [s32 (at_ a 0 + at_ b 0); s32 (at_ a 1 + at_ b 1); s32 (at_ a 2 + at_ b 2)].

(** The accumulation loop of [get_st_biases]: [n] packets of the FIFO. *)
Fixpoint sum_packets (n : nat) (gyro accel : list Z) : M drv (Z * (list Z * list Z)) :=
  match n with
  | O => ret (0, (gyro, accel))
  | S n =>
      READ data <- i2c_read (rg Reg.fifo_r_w) MAX_PACKET_LENGTH
        ELSE (-1, (gyro, accel)) ;;
      sum_packets n (add3 gyro (sample3 data 6)) (add3 accel (sample3 data 0))
  end.

(** [(long)(((long long)v << 16) / sens / packet_count)] *)
Definition q16_mean (v sens packet_count : Z) : M drv Z :=
  a <- cdiv (Z.shiftl v 16) sens ;;
  b <- cdiv a packet_count ;;
  ret (s32 b).

Definition mean3 (v : list Z) (sens packet_count : Z) : M drv (list Z) :=
  a <- q16_mean (at_ v 0) sens packet_count ;;
  b <- q16_mean (at_ v 1) sens packet_count ;;
  c <- q16_mean (at_ v 2) sens packet_count ;;
  ret [a; b; c].

(** The register writes that prepare the self-test measurement. *)
Definition st_setup (hw_test : Z) : M drv Z :=
  TRY i2c_write (rg Reg.pwr_mgmt_1) 2 [0x01; 0] ELSE -1 ;;
  delay_ms 200 ;;;
  TRY i2c_write (rg Reg.int_enable) 1 [0] ELSE -1 ;;
  TRY i2c_write (rg Reg.fifo_en) 1 [0] ELSE -1 ;;
  TRY i2c_write (rg Reg.pwr_mgmt_1) 1 [0] ELSE -1 ;;
  TRY i2c_write (rg Reg.i2c_mst) 1 [0] ELSE -1 ;;
  TRY i2c_write (rg Reg.user_ctrl) 1 [0] ELSE -1 ;;
  TRY i2c_write (rg Reg.user_ctrl) 1 [Z.lor BIT_FIFO_RST BIT_DMP_RST] ELSE -1 ;;
  delay_ms 15 ;;;
  TRY i2c_write (rg Reg.lpf) 1 [Test.reg_lpf Test.test] ELSE -1 ;;
  TRY i2c_write (rg Reg.rate_div) 1 [Test.reg_rate_div Test.test] ELSE -1 ;;
  let g := Test.reg_gyro_fsr Test.test in
  TRY i2c_write (rg Reg.gyro_cfg) 1 [if truthy hw_test then Z.lor g 0xE0 else g] ELSE -1 ;;
  let a := Test.reg_accel_fsr Test.test in
  TRY i2c_write (rg Reg.accel_cfg) 1 [if truthy hw_test then Z.lor a 0xE0 else a] ELSE -1 ;;
  when (truthy hw_test) (delay_ms 200) ;;;
  TRY i2c_write (rg Reg.user_ctrl) 1 [BIT_FIFO_EN] ELSE -1 ;;
  TRY i2c_write (rg Reg.fifo_en) 1 [Z.lor INV_XYZ_GYRO INV_XYZ_ACCEL] ELSE -1 ;;
  delay_ms (Test.wait_ms Test.test) ;;;
  TRY i2c_write (rg Reg.fifo_en) 1 [0] ELSE -1 ;;
  ret 0.

Definition get_st_biases (gyro accel : list Z) (hw_test : Z) :
    M drv (Z * (list Z * list Z)) :=
  TRY st_setup hw_test ELSE (-1, (gyro, accel)) ;;
  READ data <- i2c_read (rg Reg.fifo_count_h) 2 ELSE (-1, (gyro, accel)) ;;
  let fifo_count := be16 (at_ data 0) (at_ data 1) in
  let packet_count := u8 (Z.quot fifo_count MAX_PACKET_LENGTH) in
  '(r, (gyro, accel)) <- sum_packets (Z.to_nat packet_count) [0; 0; 0] [0; 0; 0] ;;
  if truthy r then ret (-1, (gyro, accel)) else
  gyro <- mean3 gyro (Test.gyro_sens Test.test) packet_count ;;
  accel <- mean3 accel (Test.accel_sens Test.test) packet_count ;;
  let a2 := at_ accel 2 in
  let a2 := if 0 <? a2 then s32 (a2 - 65536) else s32 (a2 + 65536) in
  ret (0, (gyro, [at_ accel 0; at_ accel 1; a2])).

(** [for (ii = 0; ii < tries; ii++) if (!get_st_biases(...)) break;]; the
    boolean is [ii == tries]. *)
Fixpoint try_biases (tries : nat) (gyro accel : list Z) (hw_test : Z) :
    M drv (bool * (list Z * list Z)) :=
  match tries with
  | O => ret (true, (gyro, accel))
  | S tries =>
      '(r, (gyro, accel)) <- get_st_biases gyro accel hw_test ;;
      if truthy r then try_biases tries gyro accel hw_test
      else ret (false, (gyro, accel))
  end.

(** Marking every cached setting invalid, so that no write is skipped. *)
Definition invalidate (c : chip_cfg_s) : chip_cfg_s :=
  with_clk_src INV_CLK_PLL (with_fifo_enable 0xFF (with_sensors 0xFF
  (with_sample_rate 0xFFFF (with_lpf 0xFF (with_accel_fsr 0xFF
  (with_gyro_fsr 0xFF c)))))).

(** The measurements of [mpu_run_self_test]: up to the [restore] label. *)
Definition st_measure (gyro accel : list Z) : M drv (Z * (list Z * list Z)) :=
  h <- gets tr ;;
  '(failed, (gyro, accel)) <- try_biases 2 gyro accel 0 ;;
  if (failed : bool) then ret (0, (gyro, accel)) else
  '(failed, (gyro_st, accel_st)) <-
     try_biases 2 (replicate 3 (uninit h)) (replicate 3 (uninit h)) 1 ;;
  if (failed : bool) then ret (0, (gyro, accel)) else
  accel_result <- accel_self_test accel accel_st ;;
  gyro_result <- gyro_self_test gyro gyro_st ;;
  let result := if negb (truthy gyro_result) then 0x01 else 0 in
  let result := if negb (truthy accel_result) then Z.lor result 0x02 else result in
  ret (result, (gyro, accel)).

Definition mpu_run_self_test (gyro accel : list Z) : M drv (Z * (list Z * list Z)) :=
  c <- gets chip ;;
  when (truthy c.(dmp_on)) (mpu_set_dmp_state 0 ;;; ret tt) ;;;
  let dmp_was_on := truthy c.(dmp_on) in
  h <- gets tr ;;
  '(_, gyro_fsr_) <- mpu_get_gyro_fsr ;;
  '(_, accel_fsr_) <- mpu_get_accel_fsr (u8 (uninit h)) ;;
  '(_, lpf_) <- mpu_get_lpf ;;
  '(_, sample_rate_) <- mpu_get_sample_rate (u16 (uninit h)) ;;
  c <- gets chip ;;
  let sensors_on := c.(sensors) in
  '(_, fifo_sensors) <- mpu_get_fifo_config ;;
  '(result, out) <- st_measure gyro accel ;;
  chipset invalidate ;;;
  mpu_set_gyro_fsr gyro_fsr_ ;;;
  mpu_set_accel_fsr accel_fsr_ ;;;
  mpu_set_lpf lpf_ ;;;
  mpu_set_sample_rate sample_rate_ ;;;
  mpu_set_sensors sensors_on ;;;
  mpu_configure_fifo fifo_sensors ;;;
  when dmp_was_on (mpu_set_dmp_state 1 ;;; ret tt) ;;;
  ret (result, out).

(** ** Low-power motion interrupt *)

(** The code at the label [lp_int_restore]. *)
Definition lp_int_restore : M drv Z :=
  chipset invalidate ;;;
  c <- gets chip ;;
  mpu_set_sensors c.(cache).(c_sensors_on) ;;;
  mpu_set_gyro_fsr c.(cache).(c_gyro_fsr) ;;;
  mpu_set_accel_fsr c.(cache).(c_accel_fsr) ;;;
  mpu_set_lpf c.(cache).(c_lpf) ;;;
  mpu_set_sample_rate c.(cache).(c_sample_rate) ;;;
  mpu_configure_fifo c.(cache).(c_fifo_sensors) ;;;
  when (truthy c.(cache).(c_dmp_on)) (mpu_set_dmp_state 1 ;;; ret tt) ;;;
  chipset (with_int_motion_only 0) ;;;
  ret 0.

(** Saving the current settings for [lp_int_restore]. *)
Definition save_cache : M drv unit :=
  c <- gets chip ;;
  let setc f := chipset (fun c => with_cache (f c.(cache)) c) in
  (if truthy c.(dmp_on) then
     mpu_set_dmp_state 0 ;;; setc (with_c_dmp_on 1)
   else setc (with_c_dmp_on 0)) ;;;
  '(_, v) <- mpu_get_gyro_fsr ;;
  setc (with_c_gyro_fsr v) ;;;
  c <- gets chip ;;
  '(_, v) <- mpu_get_accel_fsr c.(cache).(c_accel_fsr) ;;
  setc (with_c_accel_fsr v) ;;;
  '(_, v) <- mpu_get_lpf ;;
  setc (with_c_lpf v) ;;;
  c <- gets chip ;;
  '(_, v) <- mpu_get_sample_rate c.(cache).(c_sample_rate) ;;
  setc (with_c_sample_rate v) ;;;
  setc (with_c_sensors_on c.(sensors)) ;;;
  '(_, v) <- mpu_get_fifo_config ;;
  setc (with_c_fifo_sensors v).

Definition cache_is_zero (k : motion_int_cache_s) : bool :=
  negb (truthy k.(c_gyro_fsr) || truthy k.(c_accel_fsr) || truthy k.(c_lpf)
        || truthy k.(c_sample_rate) || truthy k.(c_sensors_on)
        || truthy k.(c_fifo_sensors) || truthy k.(c_dmp_on)).

(** The wake-up code for a requested frequency. *)
Definition lpa_code (lpa_freq : Z) : Z :=
  if lpa_freq =? 1 then INV_LPA_1_25HZ
  else if lpa_freq <=? 5 then INV_LPA_5HZ
  else if lpa_freq <=? 20 then INV_LPA_20HZ
  else INV_LPA_40HZ.

(** [m] failing means [goto lp_int_restore]. *)
Definition or_restore (m : M drv Z) (k : M drv Z) : M drv Z :=
  r <- m ;; if truthy r then lp_int_restore else k.

(** The part of [mpu_lp_motion_interrupt] between the filter override and
    [return 0]: every failure goes to [lp_int_restore]. *)
Definition motion_arm (thresh_hw time lpa_freq : Z) : M drv Z :=
  or_restore (i2c_write (rg Reg.int_enable) 1 [BIT_MOT_INT_EN])
  (or_restore (i2c_write (rg Reg.motion_thr) 2 [thresh_hw; time])
  (delay_ms 5 ;;;
   c <- gets chip ;;
   or_restore (i2c_write (rg Reg.accel_cfg) 1
                 [u8 (Z.lor (Z.shiftl c.(accel_fsr) 3) BITS_HPF)])
   (let data1 := u8 (Z.lor (Z.shiftl (lpa_code lpa_freq) 6) BIT_STBY_XYZG) in
    or_restore (i2c_write (rg Reg.pwr_mgmt_1) 2 [BIT_LPA_CYCLE; data1])
    (chipset (with_int_motion_only 1) ;;; ret 0)))).

Definition mpu_lp_motion_interrupt (thresh time lpa_freq : Z) : M drv Z :=
  if truthy lpa_freq then
    let thresh_hw := if 8160 <? thresh then 255
                     else if thresh <? 32 then 1 else u8 (Z.shiftr thresh 5) in
    let time := if negb (truthy time) then 1 else time in
    if 40 <? lpa_freq then ret (-1) else
    c <- gets chip ;;
    when (negb (truthy c.(int_motion_only))) save_cache ;;;
    set_int_enable 0 ;;;
    mpu_lp_accel_mode 0 ;;;
    TRY i2c_write (rg Reg.lpf) 1 [INV_FILTER_256HZ_NOLPF2] ELSE -1 ;;
    motion_arm thresh_hw time lpa_freq
  else
    c <- gets chip ;;
    if cache_is_zero c.(cache) then ret (-1) else lp_int_restore.

End ops.
