(* ===== verification/DmpImage.v ===== *)
(** * The DMP image and its memory map

    Constants of src/eMPL/inv_mpu_dmp_motion_driver.c, dmpKey.h and dmpmap.h
    and the firmware image [dmp_memory], bank by bank. *)

From stdpp Require Import prelude strings.
From Stdlib Require Import ZArith Ascii.
From S2P Require Import Prelude.
Open Scope Z_scope.

(** ** Memory locations *)

Definition CFG_LP_QUAT : Z := (2712).
Definition CFG_27 : Z := (2742).
Definition CFG_20 : Z := (2224).
Definition CFG_FIFO_ON_EVENT : Z := (2690).
Definition FCFG_1 : Z := (1062).
Definition FCFG_2 : Z := (1066).
Definition FCFG_3 : Z := (1088).
Definition FCFG_7 : Z := (1073).
Definition CFG_8 : Z := (2718).
Definition CFG_15 : Z := (2727).
Definition CFG_6 : Z := (2753).
Definition CFG_MOTION_BIAS : Z := (1208).
Definition CFG_ANDROID_ORIENT_INT : Z := (1853).
Definition CFG_GYRO_RAW_DATA : Z := (2722).
Definition D_0_22 : Z := (22+512).
Definition D_0_104 : Z := (104).
Definition D_1_36 : Z := (256 + 36).
Definition D_1_40 : Z := (256 + 40).
Definition D_1_44 : Z := (256 + 44).
Definition D_1_72 : Z := (256 + 72).
Definition D_1_79 : Z := (256 + 79).
Definition D_1_88 : Z := (256 + 88).
Definition D_1_90 : Z := (256 + 90).
Definition D_1_92 : Z := (256 + 92).
Definition D_1_218 : Z := (256 + 218).
Definition D_EXT_GYRO_BIAS_X : Z := (61 * 16).
Definition D_EXT_GYRO_BIAS_Y : Z := (61 * 16) + 4.
Definition D_EXT_GYRO_BIAS_Z : Z := (61 * 16) + 8.
Definition D_PEDSTD_STEPCTR : Z := (768 + 0x60).
Definition D_PEDSTD_TIMECTR : Z := (964).
Definition D_ACCEL_BIAS : Z := (660).
Definition DMP_TAP_THX : Z := 468.
Definition DMP_TAP_THY : Z := 472.
Definition DMP_TAP_THZ : Z := 476.
Definition DMP_TAPW_MIN : Z := 478.
Definition DMP_CODE_SIZE : Z := (3062).

(** ** Instruction bytes *)

Definition DINA4C : Z := 0x4c.
Definition DINACD : Z := 0xcd.
Definition DINA6C : Z := 0x6c.
Definition DINA0C : Z := 0x0c.
Definition DINAC9 : Z := 0xc9.
Definition DINA2C : Z := 0x2c.
Definition DINA36 : Z := 0x36.
Definition DINA56 : Z := 0x56.
Definition DINA76 : Z := 0x76.
Definition DINA26 : Z := 0x26.
Definition DINA46 : Z := 0x46.
Definition DINA66 : Z := 0x66.
Definition DINAFE : Z := 0xfe.
Definition DINAF2 : Z := 0xf2.
Definition DINAAB : Z := 0xab.
Definition DINAAA : Z := 0xaa.
Definition DINAF1 : Z := 0xf1.
Definition DINADF : Z := 0xdf.
Definition DINAC0 : Z := 0xb0.
Definition DINA80 : Z := 0x80.
Definition DINAC2 : Z := 0xb4.
Definition DINA90 : Z := 0x90.
Definition DINBC0 : Z := 0xc0.
Definition DINBC2 : Z := 0xc2.
Definition DINBC4 : Z := 0xc4.
Definition DINBC6 : Z := 0xc6.
Definition DINA20 : Z := 0x20.
Definition DINA28 : Z := 0x28.
Definition DINA30 : Z := 0x30.
Definition DINA38 : Z := 0x38.

(** ** Features, gestures and rates *)

Definition TAP_X : Z := (0x01).
Definition TAP_Y : Z := (0x02).
Definition TAP_Z : Z := (0x04).
Definition TAP_XYZ : Z := (0x07).
Definition DMP_INT_GESTURE : Z := (0x01).
Definition DMP_INT_CONTINUOUS : Z := (0x02).
Definition DMP_FEATURE_TAP : Z := (0x001).
Definition DMP_FEATURE_ANDROID_ORIENT : Z := (0x002).
Definition DMP_FEATURE_LP_QUAT : Z := (0x004).
Definition DMP_FEATURE_PEDOMETER : Z := (0x008).
Definition DMP_FEATURE_6X_LP_QUAT : Z := (0x010).
Definition DMP_FEATURE_GYRO_CAL : Z := (0x020).
Definition DMP_FEATURE_SEND_RAW_ACCEL : Z := (0x040).
Definition DMP_FEATURE_SEND_RAW_GYRO : Z := (0x080).
Definition DMP_FEATURE_SEND_CAL_GYRO : Z := (0x100).
Definition INV_WXYZ_QUAT : Z := (0x100).
Definition INT_SRC_TAP : Z := (0x01).
Definition INT_SRC_ANDROID_ORIENT : Z := (0x08).
Definition DMP_FEATURE_SEND_ANY_GYRO : Z :=
  Z.lor DMP_FEATURE_SEND_RAW_GYRO DMP_FEATURE_SEND_CAL_GYRO.
(** [MAX_PACKET_LENGTH] of this file, the size of a packet buffer. *)
Definition DMP_MAX_PACKET_LENGTH : Z := 32.
Definition DMP_SAMPLE_RATE : Z := 200.
Definition GYRO_SF : Z := Z.quot (46850825 * 200) DMP_SAMPLE_RATE.
Definition QUAT_ERROR_THRESH : Z := Z.shiftl 1 24.
Definition QUAT_MAG_SQ_NORMALIZED : Z := Z.shiftl 1 28.
Definition QUAT_MAG_SQ_MIN : Z := QUAT_MAG_SQ_NORMALIZED - QUAT_ERROR_THRESH.
Definition QUAT_MAG_SQ_MAX : Z := QUAT_MAG_SQ_NORMALIZED + QUAT_ERROR_THRESH.
Definition sStartAddress : Z := 0x0400.

(** ** The image *)

(** A row of the source's table, two hexadecimal digits per byte. *)
Definition hex_digit (c : ascii) : Z :=
  let n := Z.of_nat (nat_of_ascii c) in
  if n <? 58 then n - 48 else n - 87.
Fixpoint hex_row (s : string) : list Z :=
  match s with
  | String a (String b r) => (16 * hex_digit a + hex_digit b) :: hex_row r
  | _ => []
  end.
Definition hex_rows (rows : list string) : list Z := mjoin (hex_row <$> rows).

Definition dmp_bank_0 : list Z := Eval vm_compute in hex_rows
  ["00007000000000240000000200030000";
   "00650054ffef0000fa80000b12820001";
   "030c30c30e8c8ce914d5400213710f8e";
   "3883f8833000f883258ef8833000f883";
   "ffffffff0ffea9d6240004001a8279a1";
   "0000003cffff00000010000038836fa2";
   "003e03304000000002cae3093e800000";
   "20000000000000004000000060000000";
   "000c0000000c186e000006920a16c0df";
   "ffff0256fd8cd377ffe1c496e0c5beaa";
   "00000000ffff0b2b0000165700000359";
   "4000000000001dfa00026c1d00000000";
   "3fffdfeb003eb3b6000d227800002f3c";
   "00000000001942b5000039a20000b365";
   "d90e9fc91dcf4c343000000050000000";
   "3bb67ae80064000000c8000000000000"]%string.
Definition dmp_bank_1 : list Z := Eval vm_compute in hex_rows
  ["100000001000fa921000225e000d229f";
   "0001000000320000ff46000063d40000";
   "1000000004d6000004cc000004cc0000";
   "00001072000000400000000000000000";
   "00060002000500070000000000640000";
   "00000000000000050005006400200000";
   "00000000000000000000400000000300";
   "00000032f8980000ff650000830f0000";
   "ff9bfc00000000000000000000000000";
   "00000000000000000000000000000000";
   "00000000000000000000000000001000";
   "40000000000000060000b26a00020000";
   "0001fb830068000000d9fc007cf1ff83";
   "0000000000650000006403e800640028";
   "000000250000000016a0000000001000";
   "00001000002f0000000001f400001000"]%string.
Definition dmp_bank_2 : list Z := Eval vm_compute in hex_rows
  ["00280000ffff4581fffffa7200000000";
   "00000000004400050005bac6004778a2";
   "00000001000000000000060000000014";
   "0000254d002f706d000005ae000c02d0";
   "00000000000000000000000000000000";
   "001b0000000000000000000000000000";
   "00640000000800000000000000000000";
   "00000000000000000000000000000000";
   "00000000000000000000000000000000";
   "00000000000000000000000000000000";
   "00000000000000000000000000000000";
   "00000000000000000000000000000000";
   "001b00000000000000000000000e000e";
   "00000ac70004000000000032ffffff9c";
   "00000b2b000000020000000100000064";
   "ffe50000000000000000000000000000"]%string.
Definition dmp_bank_3 : list Z := Eval vm_compute in hex_rows
  ["00000001000000000001000000000000";
   "000180000001800000018000002426d3";
   "0000000000000000000600100096003c";
   "00000000000000000000000000000000";
   "0c0a4e68cdcf770950166759c619ce82";
   "00000000000000000000000000000000";
   "000000000000000017d7840003000000";
   "0000000000000000c7938f9d1e1b1c19";
   "00000000000000000000000000000000";
   "00000000000000000203188500004000";
   "00000003000000030000000000000000";
   "40000000000000000000000000000000";
   "00000000000000000000000000000000";
   "00000000000000000000000000000000";
   "00000000677ddf7e72902e554cf6e688";
   "00000000000000000000000000000000"]%string.
Definition dmp_bank_4 : list Z := Eval vm_compute in hex_rows
  ["d8dcb4b8b0d8b9abf3f8fab3b7bb8e9e";
   "aef132f51bf1b4b8b08097f1a9dfdfdf";
   "aadfdfdff2aac5cdc7a90cc92c97f1a9";
   "89264666b28999a92d557db0b08aa896";
   "365676f1baa3b4b280c0b8a89711b283";
   "98baa3f0240844106418b2b9b49883f1";
   "a329557dbab5b1a38393f0002850f5b2";
   "b6aa839328547cf1b9a3829361baa2da";
   "dedfdb819ab9aef5606870f1dabaa2df";
   "d9baa2fab9a38292db31baa2d9baa2f8";
   "df85a4d0c1bbad83c2c5c7b8a2dfdfdf";
   "baa0dfdfdfd8d8f1b8aab38db4980d35";
   "5db2b6baaf8c96198f9fa70e161eb49a";
   "b8aa872c547cbaa4b08ab691325676b2";
   "8494a4c808cdd8b8b4b0f19982a82d55";
   "7d98a80e161ea22c547c92a4f02c5078"]%string.
Definition dmp_bank_5 : list Z := Eval vm_compute in hex_rows
  ["f184a898c4cdfcd80ddba8fc2df3d9ba";
   "a6f8dabaa6ded8bab2b68696a6d0f3c8";
   "41daa6c8f8d8b0b4b882a892f52c5488";
   "98f135d9f418d8f1a2d0f8f9a884d9c7";
   "dff8f883c5dadf69df83c1d8f40114f1";
   "a8824ea884f311d182f5d992289788f1";
   "09f41c1cd884a8f3c0f9d1d99782f129";
   "f40dd8f3f9f9d1d982f4c203d8dedf1a";
   "d8f1a2faf9a88498d9c7dff8f8f883c7";
   "dadf69dff883c3d8f40114f198a8822e";
   "a884f311d182f5d992509788f109f41c";
   "d884a8f3c0f8f9d1d99782f149f40dd8";
   "f3f9f9d1d982f4c403d8dedfd8f1ad88";
   "98cca809f9d98292a8f57cf1883acf94";
   "4a6e98db6931daadf2def9d88795a8f2";
   "21d1daa5f9f417d9f1ae8ed0c0c3ae82"]%string.
Definition dmp_bank_6 : list Z := Eval vm_compute in hex_rows
  ["c684c3a88595c8a588f2c0f1f4010ef1";
   "8e9ea8c63e56f554f18872f40115f198";
   "45856ef58e9e0488f142985a8e9e0688";
   "69f4011cf1981e1108d0f504f11e9702";
   "02983625dbf9d985a5f3c1da85a5f3df";
   "d88595a8f309daa5fad88292a8f578f1";
   "881a849f26889821daf41df3d8879f39";
   "d1afd9dfdffbf9f40cf3d8fad0f8daf9";
   "f9d0dfd9f9d8f40bd8f3879f39d1afd9";
   "dfdff41df3d8fafca869f9f9afd0dade";
   "fad9f88f9fa8f1ccf398db45d9afdfd0";
   "f8d8f18f9fa8caf38809daaf8fcbf8d8";
   "f2ad978d0cd9a5dff9baa6f3faf412f2";
   "d8950dd1d9baa6f3fadaa5f2c1baa6f3";
   "dfd8f1bab2b68696a6d0caf349daa6cb";
   "f8d8b0b4b8d8ad84f2c0dff18fcbc3a8"]%string.
Definition dmp_bank_7 : list Z := Eval vm_compute in hex_rows
  ["b2b68696c8c1cbc3f3b0b48898a821db";
   "718d9d71859521d9adf2fad88597a828";
   "d9f408d8f28d29daf405d9f285a4c2f2";
   "d8a88d9401d1d9f411f2d88721d8f40a";
   "d8f28498a8c801d1d9f411d8f3a4c8bb";
   "afd0f2def8f8f8f8f8f8f8f8d8f1b8f6";
   "b5b9b08a95a3de3ca3d9f8d85ca3d9f8";
   "d87ca3d9f8d8f8f9d1a5d9dfdafad8b1";
   "8530f7d9ded8f830addaded8f2b48c99";
   "a32d557da083dfdfdfb591a0f629d9fb";
   "d8a0fc29d9fad8a0d051d9f8d8fc51d9";
   "f9d879d9fbd8a0d0fc79d9fad8a1f9f9";
   "f9f9f9a0dadfdfdfd8a1f8f8f8f8f8ac";
   "def8adde8393ac2c547cf1a8dfdfdff6";
   "9d2cdaa0dfd9fadb2df8d8a850daa0d0";
   "ded9d0f8f8f8db55f8d8a878daa0d0df"]%string.
Definition dmp_bank_8 : list Z := Eval vm_compute in hex_rows
  ["d9d0faf8f8f8f8db7df8d89ca88cf530";
   "db38d9d0dedfa0d0dedfd8a848db58d9";
   "dfd0dea0dfd0ded8a868db70d9dfdfa0";
   "dfdfd8f1a888902c547c98a8d05c38d1";
   "daf2ae8cdff9d8b087a8c1c1b188a8c6";
   "f9f9da36d8a8f9da36d8a8f9da36d8a8";
   "f9da36d8a8f9da36d8f78d9dadf818da";
   "f2aedfd8f7adfa30d9a4def9d8f2aede";
   "faf983a7d9c3c5c7f1889ba77aadf7de";
   "dfa4f8849408a797f300aef29819a488";
   "c6a39488f632dff28393db09d9f2aadf";
   "d8d8aef8f9d1daf3a4dea7f1889b7ad8";
   "f38494ae19f9daaaf1dfd8a881c0c3c5";
   "c7a39283f628added9f8d8a350add9f8";
   "d8a378add9f8d8f8f9d1a1dadec3c5c7";
   "d8a18194f818f2b089acc3c5c7f1d8b8"]%string.
Definition dmp_bank_9 : list Z := Eval vm_compute in hex_rows
  ["b4b09786a8319b069907ab9728889bf0";
   "0c201440b0b4b8f0a88a9a285078b79b";
   "a8295179247059446938644831f1bbab";
   "88002c547cf0b38bb8a804285078f1b0";
   "88b49726a85998bbabb38b02264666b0";
   "b8f08a9ca82951798b2951798a247059";
   "8b2058718a4469388b3940688a644831";
   "8b30496088f1ac002c547cf08ca80428";
   "5078f1889726a85998ac8c02264666f0";
   "899ca8295179247059446938644831a9";
   "8809205970ab11384069a8193148608c";
   "a83c415c207c00f187981986a86e767e";
   "a999882d557dd8b1b5b9a3dfdfdfaed0";
   "dfaad0def2abf8f9d9b087c4aaf1dfdf";
   "bbafdfdfb9d8b1f1a3978e60dfb084f2";
   "c8f8f9d9ded89385f14ab183a308b583"]%string.
Definition dmp_bank_10 : list Z := Eval vm_compute in hex_rows
  ["9a0810b79f10d8f1b0baaeb08ac2b2b6";
   "8e9ef1fbd9f41dd8f9d90cf1d8f8f8ad";
   "61d9aefbd8f40cf1d8f8f8ad19d9aefb";
   "dfd8f416f1d8f8ad8d61d9f4f4acf59c";
   "9c8ddf2bbab6aefaf8f40bd8f1aed0f8";
   "ad51daaefaf8f1d8b9b1b6a3839c08b9";
   "b1839ab5aac0fd3083b79f10b58b93f2";
   "0202d1abdaded8f1b080baabc0c3b284";
   "c1c3d8b1b9f38ba391b609b4d9abdeb0";
   "879cb9a3ddf1b38b8b8b8b8bb087a3a3";
   "a3a3b28bb69bf2a3a3a3a3a3a3a3a3a3";
   "a3f1b087b59aa3f39ba3a3dcbaacdfb9";
   "a3a3a3a3a3a3a3a3a3a3a3a3a3a3a3a3";
   "d8d8d8bbb3b7f1aaf9daffd9809aaa28";
   "b48098a720b79787a86688f07951f190";
   "2c870ca781976293f071716085940129"]%string.
Definition dmp_bank_11 : list Z := Eval vm_compute in hex_rows
  ["517990a5f1284c6c870c95188578a383";
   "90284c6c886cd8f3a28200f210a89219";
   "80a2f2d926d8f188a84dd948d896a839";
   "80d93cd89580a839a68698d92cda87a7";
   "2cd8a8899519a980d938d8a88939a980";
   "da3cd8a82ea83990d90cd8a8953198d9";
   "0cd8a809d9ffd801daffd89539a9da26";
   "ffd890a80d8999a810809821da2ed889";
   "99a83180da2ed8a886963180da2ed8a8";
   "873180da2ed8a88292f34180f1d92ed8";
   "a882f31980f1d92ed882acf3c0a28022";
   "f1a62ea72ea92298a829daacdeffd8a2";
   "f22af1a92e8292a8f23180a696f1d900";
   "ac8c9c0c30acded0deffd88c9cacd010";
   "acde8092a2f24c82a8f1caf235f19688";
   "a6d900d8f1ff"]%string.

Definition dmp_memory : list Z :=
  dmp_bank_0 ++ dmp_bank_1 ++ dmp_bank_2 ++ dmp_bank_3 ++ dmp_bank_4 ++ dmp_bank_5 ++
  dmp_bank_6 ++ dmp_bank_7 ++ dmp_bank_8 ++ dmp_bank_9 ++ dmp_bank_10 ++ dmp_bank_11.

Lemma length_dmp_memory : Z.of_nat (length dmp_memory) = DMP_CODE_SIZE.
Proof. reflexivity. Qed.

Lemma dmp_memory_bytes : Forall (fun b => 0 <= b < 256) dmp_memory.
Proof.
  apply Forall_forall. intros b Hb.
  assert (forallb (fun b => (0 <=? b) && (b <? 256)) dmp_memory = true) as H
    by (vm_compute; reflexivity).
  rewrite forallb_forall in H. apply list_elem_of_In, H in Hb. lia.
Qed.
