(* ===== verification/DmpDriver.v ===== *)
(** * The DMP motion driver

    The operations of src/eMPL/inv_mpu_dmp_motion_driver.c: loading the
    image, orientation, biases, output rate, tap and shake settings,
    pedometer, features, and the packet parser.  A call of a registered
    callback is recorded as an event. *)

From stdpp Require Import prelude.
From Stdlib Require Import ZArith.
From S2P Require Import Prelude CFloat MpuData MpuBus InvMpu InvMpuRead DmpImage.
Open Scope Z_scope.
Open Scope c_scope.

Definition dmpset (f : dmp_s -> dmp_s) : M drv unit := modify (on_dmp f).

(** Element [i] of an array of three; any other index is out of bounds. *)
Definition idx3 (l : list Z) (i : Z) : M drv Z :=
  if (0 <=? i) && (i <? 3) then ret (at_ l (Z.to_nat i)) else undefined.

(** The axis selectors of an orientation: two bits each. *)
Definition axis_sel (orient_ : Z) (k : Z) : Z := Z.land (Z.shiftr orient_ (3 * k)) 3.

Section ops.
Context `{Env}.

Definition write_mem (a n : Z) (d : list Z) : M drv Z := mpu_write_mem a n (Some d).

Definition dmp_load_motion_driver_firmware : M drv Z :=
  mpu_load_firmware DMP_CODE_SIZE (Some dmp_memory) sStartAddress DMP_SAMPLE_RATE.

(** [x |= 1] when the sign bit of the axis is set. *)
Definition sign_reg (orient_ mask v : Z) : Z := if has orient_ mask then Z.lor v 1 else v.

Definition dmp_set_orientation (orient_ : Z) : M drv Z :=
  let gyro_axes := [DINA4C; DINACD; DINA6C] in
  let accel_axes := [DINA0C; DINAC9; DINA2C] in
  g0 <- idx3 gyro_axes (axis_sel orient_ 0) ;;
  g1 <- idx3 gyro_axes (axis_sel orient_ 1) ;;
  g2 <- idx3 gyro_axes (axis_sel orient_ 2) ;;
  a0 <- idx3 accel_axes (axis_sel orient_ 0) ;;
  a1 <- idx3 accel_axes (axis_sel orient_ 1) ;;
  a2 <- idx3 accel_axes (axis_sel orient_ 2) ;;
  TRY write_mem FCFG_1 3 [g0; g1; g2] ELSE -1 ;;
  TRY write_mem FCFG_2 3 [a0; a1; a2] ELSE -1 ;;
  TRY write_mem FCFG_3 3 [sign_reg orient_ 4 DINA36; sign_reg orient_ 0x20 DINA56;
                          sign_reg orient_ 0x100 DINA76] ELSE -1 ;;
  TRY write_mem FCFG_7 3 [sign_reg orient_ 4 DINA26; sign_reg orient_ 0x20 DINA46;
                          sign_reg orient_ 0x100 DINA66] ELSE -1 ;;
  dmpset (with_orient orient_) ;;;
  ret 0.

(** Chip frame to body frame: pick the axis, flip the sign. *)
Definition body_axis (bias : list Z) (orient_ k mask : Z) : M drv Z :=
  v <- idx3 bias (axis_sel orient_ k) ;;
  ret (if has orient_ mask then s32 (v * -1) else v).

Definition body3 (bias : list Z) (orient_ : Z) : M drv (list Z) :=
  b0 <- body_axis bias orient_ 0 4 ;;
  b1 <- body_axis bias orient_ 1 0x20 ;;
  b2 <- body_axis bias orient_ 2 0x100 ;;
  ret [b0; b1; b2].

(** [(long)(((long long)v * sf) >> 30)] *)
Definition scale30 (v sf : Z) : Z := s32 (Z.shiftr (s64 (v * sf)) 30).

Definition dmp_set_gyro_bias (bias : list Z) : M drv Z :=
  d <- gets dmp ;;
  b <- body3 bias d.(orient) ;;
  TRY write_mem D_EXT_GYRO_BIAS_X 4 (bytes32 (scale30 (at_ b 0) GYRO_SF)) ELSE -1 ;;
  TRY write_mem D_EXT_GYRO_BIAS_Y 4 (bytes32 (scale30 (at_ b 1) GYRO_SF)) ELSE -1 ;;
  write_mem D_EXT_GYRO_BIAS_Z 4 (bytes32 (scale30 (at_ b 2) GYRO_SF)).

Definition dmp_set_accel_bias (bias : list Z) : M drv Z :=
  h <- gets tr ;;
  '(_, accel_sens) <- mpu_get_accel_sens (u16 (uninit h)) ;;
  let accel_sf := Z.shiftl accel_sens 15 in
  d <- gets dmp ;;
  b <- body3 bias d.(orient) ;;
  write_mem D_ACCEL_BIAS 12
    (bytes32 (scale30 (at_ b 0) accel_sf) ++ bytes32 (scale30 (at_ b 1) accel_sf) ++
     bytes32 (scale30 (at_ b 2) accel_sf)).

Definition dmp_set_fifo_rate (rate : Z) : M drv Z :=
  if DMP_SAMPLE_RATE <? rate then ret (-1) else
  q <- cdiv DMP_SAMPLE_RATE rate ;;
  let div := u16 (q - 1) in
  TRY write_mem D_0_22 2 (bytes16 div) ELSE -1 ;;
  TRY write_mem CFG_6 12 [DINAFE; DINAF2; DINAAB; 0xc4; DINAAA; DINAF1; DINADF; DINADF;
                          0xBB; 0xAF; DINADF; DINADF] ELSE -1 ;;
  dmpset (with_fifo_rate rate) ;;;
  ret 0.

Definition dmp_get_fifo_rate : M drv (Z * Z) :=
  d <- gets dmp ;;
  ret (0, d.(fifo_rate)).

(** ** Taps and shakes *)

(** The scale of the two thresholds for a full-scale range. *)
Definition tap_scales (accel_fsr_ : Z) : option (Z * Z) :=
  if accel_fsr_ =? 2 then Some (16384, 12288)
  else if accel_fsr_ =? 4 then Some (8192, 6144)
  else if accel_fsr_ =? 8 then Some (4096, 3072)
  else if accel_fsr_ =? 16 then Some (2048, 1536)
  else None.

Definition dmp_set_tap_thresh (axis thresh : Z) : M drv Z :=
  if negb (has axis TAP_XYZ) || (1600 <? thresh) then ret (-1) else
  let scaled_thresh := F32.div (F32.of_Z thresh) (F32.of_Z DMP_SAMPLE_RATE) in
  h <- gets tr ;;
  '(_, accel_fsr_) <- mpu_get_accel_fsr (u8 (uninit h)) ;;
  match tap_scales accel_fsr_ with
  | None => ret (-1)
  | Some (k1, k2) =>
      dmp_thresh <- cast_ushort (F32.mul scaled_thresh (F32.of_Z k1)) ;;
      dmp_thresh_2 <- cast_ushort (F32.mul scaled_thresh (F32.of_Z k2)) ;;
      let lo := bytes16 dmp_thresh in
      let hi := bytes16 dmp_thresh_2 in
      let put mask a b (k : M drv Z) :=
        if has axis mask then
          TRY write_mem a 2 lo ELSE -1 ;;
          TRY write_mem b 2 hi ELSE -1 ;;
          k
        else k in
      put TAP_X DMP_TAP_THX D_1_36
      (put TAP_Y DMP_TAP_THY D_1_40
      (put TAP_Z DMP_TAP_THZ D_1_44 (ret 0)))
  end.

Definition dmp_set_tap_axes (axis : Z) : M drv Z :=
  let tmp := 0 in
  let tmp := if has axis TAP_X then Z.lor tmp 0x30 else tmp in
  let tmp := if has axis TAP_Y then Z.lor tmp 0x0C else tmp in
  let tmp := if has axis TAP_Z then Z.lor tmp 0x03 else tmp in
  write_mem D_1_72 1 [tmp].

Definition dmp_set_tap_count (min_taps : Z) : M drv Z :=
  let min_taps := if min_taps <? 1 then 1 else if 4 <? min_taps then 4 else min_taps in
  write_mem D_1_79 1 [min_taps - 1].

(** Milliseconds to DMP samples. *)
Definition dmp_time (time : Z) : Z := Z.quot time (Z.quot 1000 DMP_SAMPLE_RATE).

Definition dmp_set_tap_time (time : Z) : M drv Z :=
  write_mem DMP_TAPW_MIN 2 (bytes16 (dmp_time time)).

Definition dmp_set_tap_time_multi (time : Z) : M drv Z :=
  write_mem D_1_218 2 (bytes16 (dmp_time time)).

Definition dmp_set_shake_reject_thresh (sf thresh : Z) : M drv Z :=
  let thresh_scaled := s32 (Z.quot sf 1000 * thresh) in
  write_mem D_1_92 4 (bytes32 thresh_scaled).

Definition dmp_set_shake_reject_time (time : Z) : M drv Z :=
  write_mem D_1_90 2 (bytes16 (dmp_time time)).

Definition dmp_set_shake_reject_timeout (time : Z) : M drv Z :=
  write_mem D_1_88 2 (bytes16 (dmp_time time)).

(** ** Pedometer *)

Definition dmp_get_pedometer_step_count (count : option Z) : M drv (Z * option Z) :=
  match count with
  | None => ret (-1, None)
  | Some _ =>
      READ tmp <- mpu_read_mem D_PEDSTD_STEPCTR 4 (Some []) ELSE (-1, count) ;;
      ret (0, Some (be32 (at_ tmp 0) (at_ tmp 1) (at_ tmp 2) (at_ tmp 3)))
  end.

Definition dmp_set_pedometer_step_count (count : Z) : M drv Z :=
  write_mem D_PEDSTD_STEPCTR 4 (bytes32 count).

Definition dmp_get_pedometer_walk_time (time : option Z) : M drv (Z * option Z) :=
  match time with
  | None => ret (-1, None)
  | Some _ =>
      READ tmp <- mpu_read_mem D_PEDSTD_TIMECTR 4 (Some []) ELSE (-1, time) ;;
      ret (0, Some (u32 (be32 (at_ tmp 0) (at_ tmp 1) (at_ tmp 2) (at_ tmp 3) * 20)))
  end.

Definition dmp_set_pedometer_walk_time (time : Z) : M drv Z :=
  write_mem D_PEDSTD_TIMECTR 4 (bytes32 (Z.quot time 20)).

(** ** Features *)

Definition dmp_enable_gyro_cal (enable : Z) : M drv Z :=
  if truthy enable then
    write_mem CFG_MOTION_BIAS 9 [0xb8; 0xaa; 0xb3; 0x8d; 0xb4; 0x98; 0x0d; 0x35; 0x5d]
  else
    write_mem CFG_MOTION_BIAS 9 [0xb8; 0xaa; 0xaa; 0xaa; 0xb0; 0x88; 0xc3; 0xc5; 0xc7].

Definition dmp_enable_lp_quat (enable : Z) : M drv Z :=
  write_mem CFG_LP_QUAT 4
    (if truthy enable then [DINBC0; DINBC2; DINBC4; DINBC6]
     else [0x8B; 0x8B; 0x8B; 0x8B]) ;;;
  mpu_reset_fifo.

Definition dmp_enable_6x_lp_quat (enable : Z) : M drv Z :=
  write_mem CFG_8 4
    (if truthy enable then [DINA20; DINA28; DINA30; DINA38]
     else [0xA3; 0xA3; 0xA3; 0xA3]) ;;;
  mpu_reset_fifo.

(** Length of a DMP packet for a feature mask. *)
Definition dmp_packet_length (mask : Z) : Z :=
  let n := 0 in
  let n := if has mask DMP_FEATURE_SEND_RAW_ACCEL then n + 6 else n in
  let n := if has mask DMP_FEATURE_SEND_ANY_GYRO then n + 6 else n in
  let n := if has mask (Z.lor DMP_FEATURE_LP_QUAT DMP_FEATURE_6X_LP_QUAT)
           then n + 16 else n in
  if has mask (Z.lor DMP_FEATURE_TAP DMP_FEATURE_ANDROID_ORIENT) then n + 4 else n.

(** The tap settings of [dmp_enable_feature]. *)
Definition enable_tap (mask : Z) : M drv unit :=
  if has mask DMP_FEATURE_TAP then
    write_mem CFG_20 1 [0xF8] ;;;
    dmp_set_tap_thresh TAP_XYZ 250 ;;;
    dmp_set_tap_axes TAP_XYZ ;;;
    dmp_set_tap_count 1 ;;;
    dmp_set_tap_time 100 ;;;
    dmp_set_tap_time_multi 500 ;;;
    dmp_set_shake_reject_thresh GYRO_SF 200 ;;;
    dmp_set_shake_reject_time 40 ;;;
    dmp_set_shake_reject_timeout 10 ;;;
    ret tt
  else
    write_mem CFG_20 1 [0xD8] ;;;
    ret tt.

(** The sensor data selection of [dmp_enable_feature]. *)
Definition enable_sensor_data (mask : Z) : M drv unit :=
  write_mem D_0_104 4 (bytes32 GYRO_SF) ;;;
  write_mem CFG_15 10
    ([0xA3] ++
     (if has mask DMP_FEATURE_SEND_RAW_ACCEL then [0xC0; 0xC8; 0xC2]
      else [0xA3; 0xA3; 0xA3]) ++
     (if has mask DMP_FEATURE_SEND_ANY_GYRO then [0xC4; 0xCC; 0xC6]
      else [0xA3; 0xA3; 0xA3]) ++
     [0xA3; 0xA3; 0xA3]) ;;;
  write_mem CFG_27 1
    [if has mask (Z.lor DMP_FEATURE_TAP DMP_FEATURE_ANDROID_ORIENT)
     then DINA20 else 0xD8] ;;;
  (if has mask DMP_FEATURE_GYRO_CAL then dmp_enable_gyro_cal 1
   else dmp_enable_gyro_cal 0) ;;;
  when (has mask DMP_FEATURE_SEND_ANY_GYRO)
    (write_mem CFG_GYRO_RAW_DATA 4
       (if has mask DMP_FEATURE_SEND_CAL_GYRO then [0xB2; 0x8B; 0xB6; 0x9B]
        else [DINAC0; DINA80; DINAC2; DINA90]) ;;;
     ret tt).

Definition dmp_enable_feature (mask : Z) : M drv Z :=
  enable_sensor_data mask ;;;
  enable_tap mask ;;;
  write_mem CFG_ANDROID_ORIENT_INT 1
    [if has mask DMP_FEATURE_ANDROID_ORIENT then 0xD9 else 0xD8] ;;;
  (if has mask DMP_FEATURE_LP_QUAT then dmp_enable_lp_quat 1 else dmp_enable_lp_quat 0) ;;;
  (if has mask DMP_FEATURE_6X_LP_QUAT then dmp_enable_6x_lp_quat 1
   else dmp_enable_6x_lp_quat 0) ;;;
  dmpset (with_feature_mask (Z.lor mask DMP_FEATURE_PEDOMETER)) ;;;
  mpu_reset_fifo ;;;
  dmpset (with_packet_length (dmp_packet_length mask)) ;;;
  ret 0.

Definition dmp_get_enabled_features : M drv (Z * Z) :=
  d <- gets dmp ;;
  ret (0, d.(feature_mask)).

Definition dmp_set_interrupt_mode (mode : Z) : M drv Z :=
  if mode =? DMP_INT_CONTINUOUS then
    write_mem CFG_FIFO_ON_EVENT 11
      [0xd8; 0xb1; 0xb9; 0xf3; 0x8b; 0xa3; 0x91; 0xb6; 0x09; 0xb4; 0xd9]
  else if mode =? DMP_INT_GESTURE then
    write_mem CFG_FIFO_ON_EVENT 11
      [0xda; 0xb1; 0xb9; 0xf3; 0x8b; 0xa3; 0x91; 0xb6; 0xda; 0xb4; 0xda]
  else ret (-1).

Definition dmp_register_tap_cb (func : bool) : M drv Z :=
  dmpset (with_tap_cb func) ;;;
  ret 0.

Definition dmp_register_android_orient_cb (func : bool) : M drv Z :=
  dmpset (with_android_orient_cb func) ;;;
  ret 0.

(** ** Packets *)

(** [gesture] are the four bytes at the end of a packet. *)
Definition decode_gesture (gesture : list Z) : M drv Z :=
  let android_orient := Z.land (at_ gesture 3) 0xC0 in
  let tap := Z.land 0x3F (at_ gesture 3) in
  d <- gets dmp ;;
  when (has (at_ gesture 1) INT_SRC_TAP && d.(tap_cb))
    (log (EvTap (Z.shiftr tap 3) (tap mod 8 + 1))) ;;;
  when (has (at_ gesture 1) INT_SRC_ANDROID_ORIENT && d.(android_orient_cb))
    (log (EvOrient (Z.shiftr android_orient 6))) ;;;
  ret 0.

(** Output parameters of [dmp_read_fifo]. *)
Record dmp_out := mk_dmp_out {
  do_gyro : list Z;
  do_accel : list Z;
  do_quat : list Z;
  do_timestamp : Z;
  do_sensors : Z;
  do_more : Z
}.

Definition quat_at (d : list Z) (i : nat) : Z :=
  s32 (be32 (at_ d i) (at_ d (i + 1)) (at_ d (i + 2)) (at_ d (i + 3))).

(** The squared magnitude of the quaternion in q14, in 32-bit arithmetic. *)
Definition quat_mag_sq (quat : list Z) : Z :=
  let q i := Z.shiftr (at_ quat i) 16 in
  s32 (s32 (s32 (s32 (q 0%nat * q 0%nat) + s32 (q 1%nat * q 1%nat)) +
            s32 (q 2%nat * q 2%nat)) + s32 (q 3%nat * q 3%nat)).

Definition quat_ok (quat : list Z) : bool :=
  negb ((quat_mag_sq quat <? QUAT_MAG_SQ_MIN) || (QUAT_MAG_SQ_MAX <? quat_mag_sq quat)).

(** The parser after the quaternion: accelerometer, gyroscope, gesture.
    [ii] is the read position. *)
Definition parse_motion (feature_mask_ : Z) (d : list Z) (ii : nat) (o : dmp_out) :
    M drv (Z * dmp_out) :=
  let '(ii, accel, sens) :=
    if has feature_mask_ DMP_FEATURE_SEND_RAW_ACCEL
    then ((ii + 6)%nat, sample3 d ii, Z.lor o.(do_sensors) INV_XYZ_ACCEL)
    else (ii, o.(do_accel), o.(do_sensors)) in
  let '(ii, gyro, sens) :=
    if has feature_mask_ DMP_FEATURE_SEND_ANY_GYRO
    then ((ii + 6)%nat, sample3 d ii, Z.lor sens INV_XYZ_GYRO)
    else (ii, o.(do_gyro), sens) in
  when (has feature_mask_ (Z.lor DMP_FEATURE_TAP DMP_FEATURE_ANDROID_ORIENT))
    (decode_gesture (drop ii d) ;;; ret tt) ;;;
  ret (0, mk_dmp_out gyro accel o.(do_quat) (mget_ms o.(do_timestamp)) sens o.(do_more)).

Definition dmp_read_fifo (o : dmp_out) : M drv (Z * dmp_out) :=
  h <- gets tr ;;
  d <- gets dmp ;;
  let o := mk_dmp_out o.(do_gyro) o.(do_accel) o.(do_quat) o.(do_timestamp) 0 o.(do_more) in
  let fifo_data := replicate (Z.to_nat DMP_MAX_PACKET_LENGTH) (u8 (uninit h)) in
  '(r, (fifo_data, more)) <- mpu_read_fifo_stream d.(packet_length) fifo_data o.(do_more) ;;
  let o := mk_dmp_out o.(do_gyro) o.(do_accel) o.(do_quat) o.(do_timestamp) 0 more in
  if truthy r then ret (-1, o) else
  if has d.(feature_mask) (Z.lor DMP_FEATURE_LP_QUAT DMP_FEATURE_6X_LP_QUAT) then
    let quat := [quat_at fifo_data 0; quat_at fifo_data 4;
                 quat_at fifo_data 8; quat_at fifo_data 12] in
    let oq sens := mk_dmp_out o.(do_gyro) o.(do_accel) quat o.(do_timestamp) sens more in
    if negb (quat_ok quat) then mpu_reset_fifo ;;; ret (-1, oq 0)
    else parse_motion d.(feature_mask) fifo_data 16 (oq INV_WXYZ_QUAT)
  else parse_motion d.(feature_mask) fifo_data 0 o.

End ops.
