(* ===== verification/MpuDmp.v ===== *)
(** * Attitude from the DMP

    The functions added at the end of src/eMPL/inv_mpu.c: the orientation
    encoding, the self-test wrapper, [mpu_dmp_init] and [mpu_dmp_get_data].
    [asin] and [atan2] of the C library are parameters. *)

From stdpp Require Import prelude.
From Stdlib Require Import ZArith.
From S2P Require Import Prelude CFloat MpuData MpuBus InvMpu InvMpuRead DmpImage DmpDriver.
Open Scope Z_scope.
Open Scope c_scope.

Class Libm := {
  asin : float -> float;
  atan2 : float -> float -> float
}.

(** ** Orientation *)

Definition inv_row_2_scale (row : list Z) : Z :=
  if 0 <? at_ row 0 then 0
  else if at_ row 0 <? 0 then 4
  else if 0 <? at_ row 1 then 1
  else if at_ row 1 <? 0 then 5
  else if 0 <? at_ row 2 then 2
  else if at_ row 2 <? 0 then 6
  else 7.

Definition inv_orientation_matrix_to_scalar (mtx : list Z) : Z :=
  let scalar := inv_row_2_scale mtx in
  let scalar := Z.lor scalar (u16 (Z.shiftl (inv_row_2_scale (drop 3 mtx)) 3)) in
  Z.lor scalar (u16 (Z.shiftl (inv_row_2_scale (drop 6 mtx)) 6)).

Definition gyro_orientation : list Z := [1; 0; 0; 0; 1; 0; 0; 0; 1].

Section ops.
Context `{Env} `{Libm}.

(** ** Self-test wrapper *)

(** [(long)(v * sens)] *)
Definition scale_gyro (sens : float) (v : Z) : M drv Z :=
  cast_long (F32.mul (F32.of_Z v) sens).

Definition run_self_test : M drv Z :=
  h <- gets tr ;;
  let garbage := replicate 3 (uninit h) in
  '(result, (gyro, accel)) <- mpu_run_self_test garbage garbage ;;
  if result =? 0x3 then
    '(_, sens) <- mpu_get_gyro_sens (uninit_float h) ;;
    g0 <- scale_gyro sens (at_ gyro 0) ;;
    g1 <- scale_gyro sens (at_ gyro 1) ;;
    g2 <- scale_gyro sens (at_ gyro 2) ;;
    dmp_set_gyro_bias [g0; g1; g2] ;;;
    '(_, accel_sens) <- mpu_get_accel_sens (u16 (uninit h)) ;;
    dmp_set_accel_bias [s32 (at_ accel 0 * accel_sens); s32 (at_ accel 1 * accel_sens);
                        s32 (at_ accel 2 * accel_sens)] ;;;
    ret 0
  else ret 1.

(** ** Start-up *)

(** The features the clock uses. *)
Definition dmp_features : Z :=
  Z.lor DMP_FEATURE_6X_LP_QUAT (Z.lor DMP_FEATURE_TAP
  (Z.lor DMP_FEATURE_ANDROID_ORIENT (Z.lor DMP_FEATURE_SEND_RAW_ACCEL
  (Z.lor DMP_FEATURE_SEND_CAL_GYRO DMP_FEATURE_GYRO_CAL)))).

Definition mpu_dmp_init : M drv Z :=
  r <- mpu_init ;;
  if r =? 0 then
    TRY mpu_set_sensors (Z.lor INV_XYZ_GYRO INV_XYZ_ACCEL) ELSE 1 ;;
    TRY mpu_configure_fifo (Z.lor INV_XYZ_GYRO INV_XYZ_ACCEL) ELSE 2 ;;
    TRY mpu_set_sample_rate DEFAULT_MPU_HZ ELSE 3 ;;
    TRY dmp_load_motion_driver_firmware ELSE 4 ;;
    TRY dmp_set_orientation (inv_orientation_matrix_to_scalar gyro_orientation) ELSE 5 ;;
    TRY dmp_enable_feature dmp_features ELSE 6 ;;
    TRY dmp_set_fifo_rate DEFAULT_MPU_HZ ELSE 7 ;;
    TRY run_self_test ELSE 8 ;;
    TRY mpu_set_dmp_state 1 ELSE 9 ;;
    ret 0
  else ret 10.

(** ** Attitude *)

Definition q30 : float := F32.of_Z 1073741824.
Definition deg : float := F64.lit 573 1.

(** The three angles of a quaternion in q30, as [mpu_dmp_get_data] computes
    them: single precision up to the library call, double precision after. *)
Definition attitude (quat : list Z) : float * float * float :=
  let q i := F32.div (F32.of_Z (at_ quat i)) q30 in
  let q0 := q 0%nat in let q1 := q 1%nat in let q2 := q 2%nat in let q3 := q 3%nat in
  let two := F32.of_Z 2 in
  let mtwo := F32.of_Z (-2) in
  let pitch_arg := F32.add (F32.mul (F32.mul mtwo q1) q3) (F32.mul (F32.mul two q0) q2) in
  let roll_y := F32.add (F32.mul (F32.mul two q2) q3) (F32.mul (F32.mul two q0) q1) in
  let roll_x := F32.add (F32.sub (F32.mul (F32.mul mtwo q1) q1)
                                 (F32.mul (F32.mul two q2) q2)) (F32.of_Z 1) in
  let yaw_y := F32.mul two (F32.add (F32.mul q1 q2) (F32.mul q0 q3)) in
  let yaw_x := F32.sub (F32.sub (F32.add (F32.mul q0 q0) (F32.mul q1 q1))
                                (F32.mul q2 q2)) (F32.mul q3 q3) in
  (to_float (F64.mul (asin (to_double pitch_arg)) deg),
   to_float (F64.mul (atan2 (to_double roll_y) (to_double roll_x)) deg),
   to_float (F64.mul (atan2 (to_double yaw_y) (to_double yaw_x)) deg)).

(** [angles] is the content of [*pitch], [*roll], [*yaw]. *)
Definition mpu_dmp_get_data (angles : float * float * float) :
    M drv (Z * (float * float * float)) :=
  h <- gets tr ;;
  let garbage n := replicate n (uninit h) in
  READ o <- dmp_read_fifo (mk_dmp_out (garbage 3%nat) (garbage 3%nat) (garbage 4%nat)
                             (uninit h) (uninit h) (uninit h)) ELSE (1, angles) ;;
  if has o.(do_sensors) INV_WXYZ_QUAT then ret (0, attitude o.(do_quat))
  else ret (2, angles).

End ops.
