(* ===== verification/SimBus.v ===== *)
(** * A concrete sensor for evaluation

    An instance of the environment on which the driver can be run: every
    transfer completes, the DMP memory returns what was last written, the
    FIFO holds 50 packets with gravity on the z axis, and the self-test
    excitation shifts the samples by 0.5 g and 50 dps. *)

From stdpp Require Import prelude.
From Stdlib Require Import ZArith Lia.
From S2P Require Import Prelude CFloat MpuData MpuBus.
Open Scope Z_scope.

(** The data of the last write to a register. *)
Fixpoint last_write (reg : Z) (h : list event) : list Z :=
  match h with
  | EvWrite _ r d _ _ :: h => if r =? reg then d else last_write reg h
  | _ :: h => last_write reg h
  | [] => []
  end.

Definition self_testing (h : list event) : bool :=
  truthy (Z.land (at_ (last_write (Reg.gyro_cfg Reg.reg) h) 0) 0xE0).

Definition sim_packet (h : list event) : list Z :=
  if self_testing h
  then [4; 0; 4; 0; 12; 0; 25; 150; 25; 150; 25; 150]
  else [0; 0; 0; 0; 8; 0; 0; 0; 0; 0; 0; 0].

(** A packet of the DMP: the unit quaternion, gravity on z, no gesture. *)
Definition sim_dmp_packet : list Z :=
  [0x40; 0; 0; 0;  0; 0; 0; 0;  0; 0; 0; 0;  0; 0; 0; 0;
   0; 0; 0; 0; 0x40; 0;  0; 0; 0; 0; 0; 0;  0; 0; 0; 0].

Definition sim_read (h : list event) (reg len : Z) : list Z :=
  if reg =? 0x06 then [0; 0; 0; 1; 0; 0]
  else if reg =? 0x72 then [2; 0x58]
  else if reg =? 0x74 then (if len =? 32 then sim_dmp_packet else sim_packet h)
  else if reg =? 0x6F then last_write 0x6F h
  else [0; 0; 0; 0; 0; 0].

Definition sim_xfer (h : list event) (msgs : list rt_i2c_msg) : Z * list Z :=
  match msgs with
  | [_] => (1, [])
  | [w; r] => (2, sim_read h (at_ (m_buf w) 0) (m_len r))
  | _ => (0, [])
  end.

(** What MPU_Write_Len is meant to return. *)
Definition reports (_ : list event) (n : Z) : Z := if n =? 1 then 0 else 255.

Definition sim_env : Env := {|
  master_xfer := Some sim_xfer;
  ret_reg := reports;
  uninit := fun _ => 0;
  uninit_float := fun _ => F32.of_Z 0
|}.

(** Its writes report what happened. *)
Lemma reports_spec h n : u8 (reports h n) = 0 <-> n = 1.
Proof. unfold reports. destruct (n =? 1) eqn:E; split; intros; try lia; done. Qed.

Definition sim_dev : mpu6xxx_device := mk_dev true 0x68.
