(* ===== verification/MpuCoherence.v ===== *)
(** * Coherence of the driver's cache with the sensor's registers

    inv_mpu.c keeps the current full-scale ranges, filter and sample rate in
    [st.chip_cfg] and skips a bus write when the cached setting already has
    the requested value.  That is sound only as long as the cache agrees with
    the registers.  The registers are reconstructed from the transfers, once
    from the ones that took place and once from the ones the port reported as
    done, and the agreement is proved to be an invariant of every operation
    under arbitrary transfer failures.  The two reconstructions coincide as
    long as the reports are true; MPU_Write_Len has no return statement, so
    this depends on what the compiled function leaves in the result register. *)

From stdpp Require Import prelude.
From Stdlib Require Import ZArith Lia.
From S2P Require Import Prelude CFloat MpuData MpuBus InvMpu InvMpuRead.
Open Scope Z_scope.
Open Scope c_scope.

(** ** The registers as the bus has written them

    Writes address consecutive registers, except through the memory and FIFO
    ports; a write of the reset bit restores the power-on value, which is 0
    for the configuration registers considered here. *)

Definition is_reset (reg : Z) (data : list Z) : bool :=
  (reg =? Reg.pwr_mgmt_1 Reg.reg) && Z.testbit (at_ data 0) 7.

Definition is_port (reg : Z) : bool :=
  (reg =? Reg.mem_r_w Reg.reg) || (reg =? Reg.fifo_r_w Reg.reg).

Definition written (r reg : Z) (data : list Z) : bool :=
  (reg <=? r) && (r <? reg + (if is_port reg then 1 else Z.of_nat (length data))).

(** From the transfers that took place: what the sensor holds. *)
Fixpoint register (r : Z) (h : list event) : Z :=
  match h with
  | [] => 0
  | EvWrite _ reg data true _ :: h =>
      if is_reset reg data then 0
      else if written r reg data then at_ data (Z.to_nat (r - reg))
      else register r h
  | _ :: h => register r h
  end.

(** From the results of MPU_Write_Len: what the driver has been told. *)
Fixpoint shadow (r : Z) (h : list event) : Z :=
  match h with
  | [] => 0
  | EvWrite _ reg data _ res :: h =>
      if truthy res then shadow r h
      else if is_reset reg data then 0
      else if written r reg data then at_ data (Z.to_nat (r - reg))
      else shadow r h
  | _ :: h => shadow r h
  end.

(** Every write so far had the result 0 when, and only when, it took place. *)
Definition honest_event (e : event) : bool :=
  match e with
  | EvWrite _ _ _ ok res => Bool.eqb ok (negb (truthy res))
  | _ => true
  end.
Definition honest (h : list event) : bool := forallb honest_event h.

Lemma honest_cons e h :
  honest (e :: h) = true -> honest_event e = true /\ honest h = true.
Proof. apply andb_true_iff. Qed.

Lemma honest_shadow h : honest h = true -> forall r, shadow r h = register r h.
Proof.
  induction h as [|e h IH]; [done|]. intros [He Hh]%honest_cons r.
  destruct e as [slave reg data ok res| | | |]; cbn [shadow register]; try by apply IH.
  cbn in He. destruct ok, (truthy res); cbn in He; try done; by rewrite IH.
Qed.

(** ** Agreement *)

Definition fsr_field (v : Z) : Z := Z.land (Z.shiftr v 3) 0x03.

(** 0xFF and 0xFFFF mark settings as unknown; a rate of 0 is the state before
    the first initialisation.  [live] says whether the filter is included,
    [rd] what the registers hold. *)
Record agree (rd : Z -> Z) (live : bool) (c : chip_cfg_s) : Prop := mk_agree {
  agree_gyro : c.(gyro_fsr) = 0xFF \/ fsr_field (rd (rg Reg.gyro_cfg)) = c.(gyro_fsr);
  agree_accel : c.(accel_fsr) = 0xFF \/ fsr_field (rd (rg Reg.accel_cfg)) = c.(accel_fsr);
  agree_lpf : live = true -> c.(lpf) = 0xFF \/ rd (rg Reg.lpf) = c.(lpf);
  agree_rate : c.(sample_rate) = 0 \/ c.(sample_rate) = 0xFFFF \/
    c.(sample_rate) = Z.quot 1000 (1 + rd (rg Reg.rate_div))
}.

Definition coh (live : bool) (s : drv) : Prop :=
  agree (fun r => shadow r s.(tr)) live s.(chip).

(** While the motion interrupt is active the filter register deliberately
    holds another value than the cache. *)
Definition coherent (s : drv) : Prop := coh (s.(chip).(int_motion_only) =? 0) s.

(** The same agreement with what the sensor holds. *)
Definition agrees_with_sensor (s : drv) : Prop :=
  agree (fun r => register r s.(tr)) (s.(chip).(int_motion_only) =? 0) s.(chip).

Lemma coherent_sensor s :
  coherent s -> honest s.(tr) = true -> agrees_with_sensor s.
Proof.
  intros [Hg Ha Hl Hs] Hh. split; cbn beta in *;
    rewrite <- ?(honest_shadow _ Hh); auto.
Qed.

(** The operations below leave the motion interrupt mode alone and keep the
    agreement, with or without the filter. *)
Definition stays (s s' : drv) : Prop :=
  s'.(chip).(int_motion_only) = s.(chip).(int_motion_only) /\
  forall live, coh live s -> coh live s'.

#[export] Instance stays_preorder : PreOrder stays.
Proof.
  split; [by intros s; split|].
  intros s1 s2 s3 [E1 H1] [E2 H2]. split; [congruence|auto].
Qed.

Lemma stays_coherent s s' : stays s s' -> coherent s -> coherent s'.
Proof. unfold coherent. intros [-> H]. apply H. Qed.

(** A write that neither resets the device nor touches one of the four
    registers. *)
Definition quiet (reg : Z) (data : list Z) : bool :=
  negb (is_reset reg data) &&
  ((rg Reg.accel_cfg <? reg) || (reg + Z.of_nat (length data) <=? rg Reg.rate_div)).

Lemma quiet_shadow slave reg data ok x r h :
  quiet reg data = true ->
  rg Reg.rate_div <= r <= rg Reg.accel_cfg ->
  shadow r (EvWrite slave reg data ok x :: h) = shadow r h.
Proof.
  unfold quiet, rg. cbn [Reg.rate_div Reg.accel_cfg Reg.reg]. intros Hq Hr.
  apply andb_true_iff in Hq as [Hres Hq]. cbn [shadow].
  destruct (truthy x); [done|]. apply negb_true_iff in Hres. rewrite Hres.
  replace (written r reg data) with false; [done|].
  symmetry. unfold written. unfold is_port in *. cbn [Reg.mem_r_w Reg.fifo_r_w Reg.reg].
  destruct ((reg =? _) || _) eqn:E; lia.
Qed.

Lemma stays_same_regs s s' :
  s'.(chip) = s.(chip) ->
  (forall r, rg Reg.rate_div <= r <= rg Reg.accel_cfg ->
     shadow r s'.(tr) = shadow r s.(tr)) ->
  stays s s'.
Proof.
  intros Hc Hr. split; [by rewrite Hc|]. intros live []. unfold rg in *. cbn [Reg.rate_div Reg.accel_cfg Reg.reg] in *.
  split; rewrite Hc, Hr by (unfold rg; cbn; lia); auto.
Qed.

(** ** Operations that keep the agreement *)

Section coherence.
Context `{Env} {ub : Prop}.
#[local] Abbreviation R := (stays).

Lemma keeps_write reg len data :
  quiet (u8 reg) (take (Z.to_nat (u8 len)) data) = true ->
  ub \/ (u8 len <= 49 /\ u8 len <= Z.of_nat (length data)) ->
  keeps ub R (i2c_write reg len data).
Proof.
  intros Hq Hl s. apply i2c_write_wpg; [done|]. intros ok r Hr _.
  apply stays_same_regs; [done|]. intros. by apply quiet_shadow.
Qed.

Lemma keeps_read reg len : keeps ub R (i2c_read reg len).
Proof.
  intros s. apply i2c_read_wpg. intros r d tr' _ _ _ Htr.
  apply stays_same_regs; [done|]. intros. by destruct Htr as [->|[ok ->]].
Qed.

Lemma keeps_log e :
  (match e with EvWrite _ _ _ _ _ => False | _ => True end) -> keeps ub R (log e).
Proof.
  intros He. apply keeps_modify. intros s.
  apply stays_same_regs; [done|]. intros. by destruct e.
Qed.

Lemma keeps_chipset f :
  (forall c, gyro_fsr (f c) = gyro_fsr c /\ accel_fsr (f c) = accel_fsr c /\
     lpf (f c) = lpf c /\ int_motion_only (f c) = int_motion_only c /\
     sample_rate (f c) = sample_rate c) ->
  keeps ub R (chipset f).
Proof.
  intros Hf. apply keeps_modify. intros s.
  destruct (Hf (chip s)) as (E1 & E2 & E3 & E4 & E5).
  split; [done|]. intros live []. split; cbn [on_chip put_chip chip tr]; rewrite ?E1, ?E2, ?E3, ?E4, ?E5; auto.
Qed.

End coherence.

#[export] Hint Extern 1 (keeps _ (stays) (i2c_write _ _ _)) =>
  (apply keeps_write;
   [reflexivity | right; split; apply Z.leb_le; reflexivity]) : keep.
#[export] Hint Resolve keeps_read : keep.
#[export] Hint Extern 1 (keeps _ (stays) (delay_ms _)) =>
  (apply keeps_log; exact I) : keep.
#[export] Hint Extern 1 (keeps _ (stays) (chipset _)) =>
  (apply keeps_chipset; intros [];
   solve [repeat split; reflexivity]) : keep.

(** Walks one step into a body; used for the operations that do write one of
    the four registers. *)
Ltac wp_step :=
  lazymatch goal with
  | |- wpg _ (i2c_write _ _ _) _ _ =>
      apply i2c_write_wpg;
      [right; split; apply Z.leb_le; reflexivity|intros ?ok ?r ?Hr ?Hok]
  | |- wpg _ (try_ _ _ _) _ _ => apply wpg_try
  | |- wpg _ (try_out _ _ _) _ _ => apply wpg_try_out
  | |- wpg _ (bind _ _) _ _ => apply wpg_bind
  | |- wpg _ (ret _) _ _ => apply wpg_ret
  | |- wpg _ (gets _) _ _ => apply wpg_gets
  | |- wpg _ (modify _) _ _ => apply wpg_modify
  | |- wpg _ (chipset _) _ _ => apply wpg_modify
  | |- wpg _ (delay_ms _) _ _ => apply wpg_modify
  | |- wpg _ (log _) _ _ => apply wpg_modify
  end.

(** One write of a register of the four: what [shadow] makes of it. *)
Lemma shadow_write1 slave reg v ok x r h :
  truthy x = false -> rg Reg.rate_div <= reg <= rg Reg.accel_cfg ->
  shadow r (EvWrite slave reg [v] ok x :: h) = if r =? reg then v else shadow r h.
Proof.
  unfold rg. cbn [Reg.rate_div Reg.accel_cfg Reg.reg]. intros Hx Hreg. cbn [shadow].
  rewrite Hx.
  replace (is_reset reg [v]) with false
    by (unfold is_reset; cbn [Reg.pwr_mgmt_1 Reg.reg];
        replace (reg =? 107) with false by lia; done).
  unfold written, is_port. cbn [Reg.mem_r_w Reg.fifo_r_w Reg.reg].
  replace ((reg =? 111) || (reg =? 116)) with false by lia. cbn [length].
  change (Z.of_nat 1) with 1.
  assert ((reg <=? r) && (r <? reg + 1) = (r =? reg)) as -> by lia.
  destruct (r =? reg) eqn:E; [|done].
  by replace (r - reg) with 0 by lia.
Qed.

Ltac coh_write :=
  intros s ok x Hx; split; [done|]; intros live [Hg Ha Hl Hs];
  split; cbn [on_chip put_chip put_tr chip tr dev gyro_fsr accel_fsr lpf sample_rate
              int_motion_only with_gyro_fsr with_accel_fsr with_lpf with_sample_rate];
  rewrite shadow_write1 by (done || (unfold rg; cbn; lia));
  cbn -[shadow fsr_field]; auto.

Section setters.
Context `{Env} {ub : Prop}.

(** The common shape of the setters: a write of one register by a single
    byte, then the cache update when the write is reported successful. *)
Lemma keeps_set1 reg v f (k : M drv Z) :
  rg Reg.rate_div <= reg <= rg Reg.accel_cfg ->
  (forall s ok x, truthy x = false -> stays s
     (on_chip f (put_tr (EvWrite (i2c_addr s.(dev)) reg [v] ok x :: s.(tr)) s))) ->
  keeps ub (stays) k ->
  keeps ub (stays) (TRY i2c_write reg 1 [v] ELSE -1 ;; chipset f ;;; k).
Proof.
  unfold rg. cbn [Reg.rate_div Reg.accel_cfg Reg.reg]. intros Hreg Hf Hk s.
  wp_step. wp_step. rewrite (u8_small reg) in * by lia.
  destruct (truthy r) eqn:E; cbn [take Z.to_nat].
  - apply stays_same_regs; [done|]. intros. cbn [put_tr tr shadow]. by rewrite E.
  - repeat wp_step. eapply wpg_mono; [|apply Hk]. simpl.
    intros _ s' Hs'. etrans; [by apply Hf|exact Hs'].
Qed.

Ltac set_step :=
  first [ solve [apply keeps_set1; [unfold rg; cbn; lia | coh_write | keep_tac]] | keep_step ].

Lemma keeps_mpu_set_gyro_fsr fsr : keeps ub (stays) (mpu_set_gyro_fsr fsr).
Proof.
  unfold mpu_set_gyro_fsr. repeat set_step.
Qed.

Lemma keeps_mpu_set_accel_fsr fsr : keeps ub (stays) (mpu_set_accel_fsr fsr).
Proof.
  unfold mpu_set_accel_fsr. repeat set_step.
Qed.

Lemma keeps_mpu_set_lpf v : keeps ub (stays) (mpu_set_lpf v).
Proof.
  unfold mpu_set_lpf. repeat set_step.
Qed.

Lemma keeps_set_int_enable e : keeps ub (stays) (set_int_enable e).
Proof. unfold set_int_enable. keep_tac. Qed.

Lemma keeps_mpu_set_int_latched e : keeps ub (stays) (mpu_set_int_latched e).
Proof. unfold mpu_set_int_latched. keep_tac. Qed.

Lemma keeps_mpu_reset_fifo : keeps ub (stays) mpu_reset_fifo.
Proof. unfold mpu_reset_fifo. keep_tac. Qed.

End setters.

#[export] Hint Resolve keeps_mpu_set_gyro_fsr keeps_mpu_set_accel_fsr keeps_mpu_set_lpf
  keeps_set_int_enable keeps_mpu_set_int_latched keeps_mpu_reset_fifo : keep.


Section operations.
Context `{Env} {ub : Prop}.
#[local] Abbreviation R := (stays).

Lemma keeps_mpu_configure_fifo m : keeps ub R (mpu_configure_fifo m).
Proof. unfold mpu_configure_fifo. keep_tac. Qed.
#[local] Hint Resolve keeps_mpu_configure_fifo : keep.

Lemma keeps_mpu_lp_accel_mode rate : keeps ub R (mpu_lp_accel_mode rate).
Proof. unfold mpu_lp_accel_mode. keep_tac. Qed.
#[local] Hint Resolve keeps_mpu_lp_accel_mode : keep.

Lemma rate_div_fits data : 0 <= data < 256 ->
  u16 (Z.quot 1000 (1 + data)) = Z.quot 1000 (1 + data).
Proof.
  intros Hq. apply u16_small.
  split; [apply Z.quot_pos; lia|].
  apply Z.le_lt_trans with 1000; [|lia].
  rewrite Z.quot_div_nonneg by lia. apply Z.div_le_upper_bound; lia.
Qed.

Lemma keeps_mpu_set_sample_rate rate : keeps ub R (mpu_set_sample_rate rate).
Proof.
  unfold mpu_set_sample_rate.
  apply keeps_bind; [keep_tac|intros c]. do 3 (apply keeps_if; [keep_tac|]).
  apply keeps_bind; [keep_tac|intros _].
  set (r := if rate <? 4 then _ else _).
  assert (4 <= r <= 1000) by (unfold r; repeat case_match; lia). clearbody r.
  apply keeps_bind_cdiv; [lia|].
  pose proof (u8_range (Z.quot 1000 r - 1)).
  apply keeps_set1; [unfold rg; cbn; lia| |keep_tac].
  rewrite rate_div_fits by done. coh_write.
Qed.
#[local] Hint Resolve keeps_mpu_set_sample_rate : keep.

Lemma keeps_mpu_set_sensors m : keeps ub R (mpu_set_sensors m).
Proof. unfold mpu_set_sensors. destruct (has m INV_XYZ_GYRO), (truthy m); keep_tac. Qed.

Lemma keeps_mpu_set_bypass b : keeps ub R (mpu_set_bypass b).
Proof. unfold mpu_set_bypass. keep_tac. Qed.
#[local] Hint Resolve keeps_mpu_set_sensors keeps_mpu_set_bypass : keep.

Lemma keeps_mpu_set_dmp_state e : keeps ub R (mpu_set_dmp_state e).
Proof. unfold mpu_set_dmp_state. keep_tac. Qed.
#[local] Hint Resolve keeps_mpu_set_dmp_state : keep.

(** *** Reads *)

Lemma keeps_reg_dump_from n ii : keeps ub R (reg_dump_from n ii).
Proof. revert ii. induction n; intros ii; cbn [reg_dump_from]; keep_tac. Qed.
#[local] Hint Resolve keeps_reg_dump_from : keep.

Lemma keeps_mpu_reg_dump : keeps ub R mpu_reg_dump.
Proof. unfold mpu_reg_dump. keep_tac. Qed.

Lemma keeps_mpu_read_reg r d : keeps ub R (mpu_read_reg r d).
Proof. unfold mpu_read_reg. keep_tac. Qed.

Lemma keeps_mpu_get_gyro_reg d t : keeps ub R (mpu_get_gyro_reg d t).
Proof. unfold mpu_get_gyro_reg. keep_tac. Qed.

Lemma keeps_mpu_get_accel_reg d t : keeps ub R (mpu_get_accel_reg d t).
Proof. unfold mpu_get_accel_reg. keep_tac. Qed.

Lemma keeps_mpu_get_int_status d : keeps ub R (mpu_get_int_status d).
Proof. unfold mpu_get_int_status. keep_tac. Qed.

Lemma keeps_mpu_set_int_level v : keeps ub R (mpu_set_int_level v).
Proof. unfold mpu_set_int_level. keep_tac. Qed.

Lemma accel_fg_pos data i : 64 + Z.land (Z.shiftr (at_ data i) 4 + 8) 0xf <> 0.
Proof. change 0xf with (Z.ones 4). rewrite Z.land_ones by lia.
  pose proof (Z.mod_pos_bound (Z.shiftr (at_ data i) 4 + 8) (2 ^ 4)). lia. Qed.

Lemma keeps_mpu_set_accel_bias b : keeps ub R (mpu_set_accel_bias b).
Proof.
  unfold mpu_set_accel_bias. destruct b as [b|]; [|keep_tac].
  apply keeps_if; [keep_tac|]. apply keeps_try_out; [keep_tac|intros data].
  do 3 (apply keeps_bind_cdiv; [apply accel_fg_pos|]). keep_tac.
Qed.

(** *** Memory and firmware *)

Lemma keeps_mpu_write_mem a n d :
  ub \/ match d with
        | Some d => u8 n <= 49 /\ u8 n <= Z.of_nat (length d)
        | None => True end ->
  keeps ub R (mpu_write_mem a n d).
Proof.
  intros Hd. unfold mpu_write_mem. destruct d as [d|]; [|keep_tac].
  apply keeps_bind; [keep_tac|intros c]. do 2 (apply keeps_if; [keep_tac|]).
  apply keeps_try; [keep_tac|]. apply keeps_try; [|keep_tac].
  by apply keeps_write.
Qed.

Lemma keeps_mpu_read_mem a n d : keeps ub R (mpu_read_mem a n d).
Proof. unfold mpu_read_mem. keep_tac. Qed.

(** Every chunk of the loader fits the port's buffer, and the loader never
    runs out of fuel: each round advances by at least one byte. *)
Lemma keeps_load_chunks fuel fw len ii :
  0 <= ii -> len < 65536 -> len <= Z.of_nat (length fw) ->
  len - ii <= Z.of_nat fuel ->
  keeps ub R (load_chunks fuel fw len ii).
Proof.
  revert ii. induction fuel as [|fuel IH]; intros ii Hii Hlen Hfw Hfuel;
    cbn [load_chunks]; (destruct (ii <? len) eqn:E; [|keep_tac]); [lia|].
  unfold LOAD_CHUNK. apply keeps_try.
  { apply keeps_mpu_write_mem. right. rewrite length_drop, u8_small; lia. }
  apply keeps_try_out; [apply keeps_mpu_read_mem|intros cur].
  apply keeps_if; [|keep_tac]. rewrite u16_small by lia. apply IH; lia.
Qed.

Lemma keeps_mpu_load_firmware len fw a sr :
  0 <= len < 65536 ->
  match fw with Some fw => len <= Z.of_nat (length fw) | None => True end ->
  keeps ub R (mpu_load_firmware len fw a sr).
Proof.
  intros Hlen Hfw. unfold mpu_load_firmware.
  apply keeps_bind; [keep_tac|intros c]. apply keeps_if; [keep_tac|].
  destruct fw as [fw|]; [|keep_tac].
  apply keeps_bind; [apply keeps_load_chunks; lia|intros r]. keep_tac.
Qed.

(** *** Motion interrupt *)

(** Invalidation makes any state coherent. *)
Lemma coh_invalidate live s : coh live (on_chip invalidate s).
Proof. split; cbn; auto. Qed.

Lemma coh_with_int_motion_only v live s :
  coh live s -> coh live (on_chip (with_int_motion_only v) s).
Proof. intros []. by split. Qed.

Lemma lp_int_restore_coherent s : wpg ub lp_int_restore (fun _ s' => coherent s') s.
Proof.
  unfold lp_int_restore. wp_step. wp_step.
  pose proof (coh_invalidate true s) as Hs.
  generalize dependent (on_chip invalidate s). clear s. intros s Hs.
  wp_step. wp_step. generalize (cache (chip s)). intros k.
  do 7 (eapply (wpg_bind_keeps (R:=stays)); [solve [keep_tac]|];
        intros _ s' Hs'; apply Hs' in Hs; clear dependent s; rename s' into s).
  repeat wp_step. by apply coh_with_int_motion_only.
Qed.

(** After the filter register has been overwritten the rest of the setup
    either completes in motion mode or restores. *)
Lemma or_restore_coherent m k s :
  wpg ub m (fun r s' => truthy r = false -> coh false s') s ->
  (forall s, coh false s -> wpg ub k (fun _ s' => coherent s') s) ->
  wpg ub (or_restore m k) (fun _ s' => coherent s') s.
Proof.
  intros Hm Hk. unfold or_restore. wp_step. eapply wpg_mono; [|exact Hm].
  simpl. intros r s' Hr. destruct (truthy r); [apply lp_int_restore_coherent|auto].
Qed.

Lemma stays_wpg {A} (m : M drv A) (Q : A -> drv -> Prop) live s :
  keeps ub stays m -> coh live s -> (forall a s', coh live s' -> Q a s') -> wpg ub m Q s.
Proof.
  intros Hm Hs HQ. eapply wpg_mono; [|apply Hm]. simpl. intros a s' Hs'.
  by apply HQ, Hs'.
Qed.

Lemma fsr_field_hpf v :
  v = 0xFF \/ 0 <= v < 4 -> v = 0xFF \/ fsr_field (u8 (Z.lor (Z.shiftl v 3) BITS_HPF)) = v.
Proof.
  intros [->|Hv]; [by left|right].
  assert (v = 0 \/ v = 1 \/ v = 2 \/ v = 3) as [->|[->|[->| ->]]] by lia; reflexivity.
Qed.

Lemma fsr_field_range v : 0 <= fsr_field v < 4.
Proof.
  unfold fsr_field. pose proof (Z.land_ones (Z.shiftr v 3) 2) as E. change (Z.ones 2) with 3 in E.
  rewrite E by lia.
  apply (Z.mod_pos_bound _ 4). lia.
Qed.

Lemma keeps_save_cache : keeps ub stays save_cache.
Proof.
  unfold save_cache, mpu_get_gyro_fsr, mpu_get_accel_fsr, mpu_get_lpf,
    mpu_get_sample_rate, mpu_get_fifo_config.
  keep_tac.
Qed.


Lemma motion_arm_coherent t d f s :
  coh false s -> wpg ub (motion_arm t d f) (fun _ s' => coherent s') s.
Proof.
  intros Hs. unfold motion_arm.
  do 2 (apply or_restore_coherent;
        [eapply stays_wpg; [solve [keep_tac]|done|auto]|];
        clear dependent s; intros s Hs).
  eapply (wpg_bind_keeps (R:=stays)); [solve [keep_tac]|].
  intros _ s' Hs'. apply Hs' in Hs. clear dependent s. rename s' into s.
  wp_step. wp_step. apply or_restore_coherent.
  - wp_step. intros Er. destruct Hs as [? Ha ? ?].
    assert (accel_fsr (chip s) = 0xFF \/ 0 <= accel_fsr (chip s) < 4) as Hr'.
    { destruct Ha as [Ha|<-]; [by left|right; apply fsr_field_range]. }
    apply fsr_field_hpf in Hr'. change (take (Z.to_nat (u8 1)) [?x]) with [x].
    split; cbn [put_tr tr chip]; try done;
      rewrite shadow_write1 by (done || (unfold rg; cbn; lia)); done.
  - clear dependent s. intros s Hs. apply or_restore_coherent.
    + eapply stays_wpg; [solve [keep_tac]|done|auto].
    + clear dependent s. intros s Hs. repeat wp_step.
      by apply coh_with_int_motion_only.
Qed.

(** Overwriting the filter register leaves everything but the filter. *)
Lemma coh_false_lpf slave v ok x live s :
  coh live s -> coh false (put_tr (EvWrite slave (rg Reg.lpf) [v] ok x :: s.(tr)) s).
Proof.
  intros []. split; try done; cbn [put_tr tr chip];
    (destruct (truthy x) eqn:E; [cbn [shadow]; by rewrite E|]);
    rewrite shadow_write1 by (done || (unfold rg; cbn; lia)); done.
Qed.

Lemma mpu_lp_motion_interrupt_coherent thresh time freq s :
  coherent s ->
  wpg ub (mpu_lp_motion_interrupt thresh time freq) (fun _ s' => coherent s') s.
Proof.
  intros Hs. unfold mpu_lp_motion_interrupt. destruct (truthy freq).
  2:{ wp_step. wp_step. case_match; [by apply wpg_ret|apply lp_int_restore_coherent]. }
  case_match; [by apply wpg_ret|]. wp_step. wp_step.
  eapply (wpg_bind_keeps (R:=stays)); [apply keeps_when, keeps_save_cache|].
  do 2 (intros _ s' Hs'; apply (stays_coherent _ _ Hs') in Hs; clear dependent s;
        rename s' into s; eapply (wpg_bind_keeps (R:=stays)); [solve [keep_tac]|]).
  intros _ s' Hs'; apply (stays_coherent _ _ Hs') in Hs; clear dependent s; rename s' into s.
  wp_step. wp_step. destruct (truthy r) eqn:Er.
  - eapply stays_coherent; [|exact Hs]. apply stays_same_regs; [done|].
    intros. cbn [put_tr tr shadow]. by rewrite Er.
  - apply motion_arm_coherent. by eapply coh_false_lpf.
Qed.

End operations.

#[export] Hint Resolve keeps_mpu_configure_fifo keeps_mpu_lp_accel_mode
  keeps_mpu_set_sample_rate keeps_mpu_set_sensors keeps_mpu_set_bypass
  keeps_mpu_set_dmp_state keeps_mpu_reg_dump keeps_mpu_read_reg
  keeps_mpu_get_gyro_reg keeps_mpu_get_accel_reg keeps_mpu_get_int_status
  keeps_mpu_set_int_level keeps_mpu_set_accel_bias keeps_mpu_read_mem : keep.

(** ** Self-test

    The measurements write test values to the configuration registers, but
    they do not touch the cache. *)

Definition same_chip (s s' : drv) : Prop := s'.(chip) = s.(chip).

#[export] Instance same_chip_preorder : PreOrder same_chip.
Proof. split; [by intros s|]. intros ??? E1 E2. unfold same_chip in *. congruence. Qed.

Section self_test.
Context `{Env}.
#[local] Abbreviation K := (keeps True same_chip).

Lemma same_chip_write reg len data : K (i2c_write reg len data).
Proof. intros s. apply i2c_write_wpg; [by left|]. done. Qed.

Lemma same_chip_read reg len : K (i2c_read reg len).
Proof. intros s. by apply i2c_read_wpg. Qed.

Lemma same_chip_delay ms : K (delay_ms ms).
Proof. by intros s. Qed.

Lemma same_chip_cdiv a b : K (cdiv a b).
Proof. apply keeps_cdiv. by left. Qed.
#[local] Hint Resolve same_chip_write same_chip_read same_chip_delay same_chip_cdiv : keep.

Lemma same_chip_st_setup t : K (st_setup t).
Proof. unfold st_setup. keep_tac. Qed.

Lemma same_chip_sum_packets n g a : K (sum_packets n g a).
Proof. revert g a. induction n; intros; cbn [sum_packets]; keep_tac. Qed.

Lemma same_chip_mean3 v sens n : K (mean3 v sens n).
Proof. unfold mean3, q16_mean. keep_tac. Qed.
#[local] Hint Resolve same_chip_st_setup same_chip_sum_packets same_chip_mean3 : keep.

Lemma same_chip_get_st_biases g a t : K (get_st_biases g a t).
Proof. unfold get_st_biases. keep_tac. Qed.
#[local] Hint Resolve same_chip_get_st_biases : keep.

Lemma same_chip_try_biases n g a t : K (try_biases n g a t).
Proof. revert g a. induction n; intros; cbn [try_biases]; keep_tac. Qed.
#[local] Hint Resolve same_chip_try_biases : keep.

Lemma same_chip_st_measure g a : K (st_measure g a).
Proof.
  unfold st_measure, accel_self_test, gyro_self_test, get_accel_prod_shift. keep_tac.
Qed.

(** The restoring half of [mpu_run_self_test]. *)
Lemma keeps_restore ub g a l r m f (d : bool) (x : Z * (list Z * list Z)) :
  keeps ub stays
    (mpu_set_gyro_fsr g ;;; mpu_set_accel_fsr a ;;; mpu_set_lpf l ;;;
     mpu_set_sample_rate r ;;; mpu_set_sensors m ;;; mpu_configure_fifo f ;;;
     when d (mpu_set_dmp_state 1 ;;; ret tt) ;;; ret x).
Proof. keep_tac. Qed.

Lemma invalidate_stays s s' : same_chip s s' -> stays s (on_chip invalidate s').
Proof.
  intros Hs. split; [|intros; apply coh_invalidate].
  unfold same_chip in Hs. cbn. by rewrite Hs.
Qed.

(** Whatever the measurements did to the registers, the cache is invalidated
    before the settings are restored. *)
Lemma keeps_mpu_run_self_test g a : keeps True stays (mpu_run_self_test g a).
Proof.
  unfold mpu_run_self_test, mpu_get_gyro_fsr, mpu_get_accel_fsr, mpu_get_lpf,
    mpu_get_sample_rate, mpu_get_fifo_config.
  repeat lazymatch goal with
  | |- keeps _ _ (bind (st_measure _ _) _) => fail
  | |- _ => keep_step
  end.
  all: intros s; apply wpg_bind; eapply wpg_mono; [|apply same_chip_st_measure];
    simpl; intros [result out] s' Hs'; wp_step; wp_step;
    eapply wpg_mono; [|apply keeps_restore];
    simpl; intros _ s'' Hs''; etrans; [by apply invalidate_stays|exact Hs''].
Qed.

End self_test.

#[export] Hint Resolve keeps_mpu_run_self_test : keep.

Section init.
Context `{Env}.

Lemma keeps_True_cdiv a b : keeps True stays (cdiv a b).
Proof. apply keeps_cdiv. by left. Qed.

Lemma keeps_True_undefined {A} : keeps True stays (undefined (A:=A)).
Proof. by intros s. Qed.
#[local] Hint Resolve keeps_True_cdiv keeps_True_undefined : keep.

Lemma keeps_mpu_read_fifo o : keeps True stays (mpu_read_fifo o).
Proof. unfold mpu_read_fifo. keep_tac. Qed.

Lemma keeps_mpu_read_fifo_stream n d m : keeps True stays (mpu_read_fifo_stream n d m).
Proof. unfold mpu_read_fifo_stream. keep_tac. Qed.

Lemma keeps_mpu_get_temperature d t : keeps True stays (mpu_get_temperature d t).
Proof.
  unfold mpu_get_temperature, cast_long, cast.
  keep_tac.
Qed.

Lemma coh_init_chip live s : coh live (on_chip init_chip s).
Proof. split; cbn; auto. Qed.

(** The part of [mpu_init] after the cache has been set to invalid values. *)
Lemma keeps_init_config ub :
  keeps ub stays
    (TRY mpu_set_gyro_fsr 2000 ELSE -1 ;; TRY mpu_set_accel_fsr 2 ELSE -1 ;;
     TRY mpu_set_lpf 42 ELSE -1 ;; TRY mpu_set_sample_rate 50 ELSE -1 ;;
     TRY mpu_configure_fifo 0 ELSE -1 ;; TRY mpu_set_bypass 0 ELSE -1 ;;
     mpu_set_sensors 0 ;;; ret 0).
Proof. keep_tac. Qed.

Lemma keeps_init_accel_half ub : keeps ub stays init_accel_half.
Proof. unfold init_accel_half. keep_tac. Qed.

(** [mpu_init] from any state: no undefined behaviour, and agreement when it
    reports success. *)
Lemma mpu_init_coherent s : wp mpu_init (fun r s' => r = 0 -> coherent s') s.
Proof.
  unfold mpu_init. wp_step. wp_step. destruct (truthy _); [lia|].
  wp_step. wp_step. wp_step. wp_step. destruct (truthy _); [lia|].
  wp_step. eapply wpg_mono; [|apply keeps_init_accel_half]. simpl.
  intros r1 s1 _. destruct (truthy r1); [lia|].
  wp_step. wp_step. eapply wpg_mono; [|apply keeps_init_config]. simpl.
  intros r2 s2 Hs2 _. eapply stays_coherent; [exact Hs2|]. apply coh_init_chip.
Qed.

End init.

#[export] Hint Resolve keeps_mpu_read_fifo keeps_mpu_read_fifo_stream
  keeps_mpu_get_temperature : keep.
