(* ===== verification/MpuSystem.v ===== *)
(** * The driver as a system of operations

    Every operation of inv_mpu.c and inv_mpu_dmp_motion_driver.c as a step,
    the states reachable by any sequence of them on any bus, and the
    agreement of the driver's cache with the sensor in all of these states. *)

From stdpp Require Import prelude.
From Stdlib Require Import ZArith Lia.
From S2P Require Import Prelude CFloat MpuData MpuBus InvMpu InvMpuRead.
From S2P Require Import DmpImage DmpDriver MpuDmp SimBus MpuCoherence.
Open Scope Z_scope.
Open Scope c_scope.

(** ** Operations *)

Inductive mpu_op :=
| OpRegDump | OpReadReg (reg : Z)
| OpGetGyroReg | OpGetAccelReg | OpGetTemperature | OpGetIntStatus
| OpSetAccelBias (bias : option (list Z))
| OpResetFifo | OpReadFifo | OpReadFifoStream (len : Z) (data : list Z)
| OpSetGyroFsr (fsr : Z) | OpSetAccelFsr (fsr : Z) | OpSetLpf (lpf : Z)
| OpSetSampleRate (rate : Z) | OpConfigureFifo (mask : Z) | OpSetSensors (mask : Z)
| OpSetBypass (on : Z) | OpSetIntLevel (low : Z) | OpSetIntLatched (enable : Z)
| OpLpAccelMode (rate : Z) | OpLpMotionInterrupt (thresh time freq : Z)
| OpRunSelfTest
| OpWriteMem (addr len : Z) (data : option (list Z)) | OpReadMem (addr len : Z)
| OpSetDmpState (enable : Z)
| OpLoadMotionDriver | OpSetOrientation (orient : Z)
| OpSetGyroBias (bias : list Z) | OpSetDmpAccelBias (bias : list Z)
| OpSetFifoRate (rate : Z) | OpSetTapThresh (axis thresh : Z) | OpSetTapAxes (axis : Z)
| OpSetTapCount (n : Z) | OpSetTapTime (t : Z) | OpSetTapTimeMulti (t : Z)
| OpShakeThresh (sf thresh : Z) | OpShakeTime (t : Z) | OpShakeTimeout (t : Z)
| OpGetSteps | OpSetSteps (n : Z) | OpGetWalk | OpSetWalk (t : Z)
| OpEnableFeature (mask : Z) | OpSetInterruptMode (mode : Z)
| OpRegisterTap (f : bool) | OpRegisterOrient (f : bool)
| OpDmpReadFifo (o : dmp_out) | OpRunSelfTestBias.

Section system.
Context `{Env}.

(** Forgetting the outputs. *)
Definition code {A} (m : M drv (Z * A)) : M drv Z := bind m (fun p => ret (fst p)).

Definition run_op (op : mpu_op) : M drv Z :=
  match op with
  | OpRegDump => mpu_reg_dump
  | OpReadReg r => code (mpu_read_reg (u8 r) 0)
  | OpGetGyroReg => code (mpu_get_gyro_reg [] None)
  | OpGetAccelReg => code (mpu_get_accel_reg [] None)
  | OpGetTemperature => code (mpu_get_temperature 0 None)
  | OpGetIntStatus => code (mpu_get_int_status 0)
  | OpSetAccelBias b => mpu_set_accel_bias b
  | OpResetFifo => mpu_reset_fifo
  | OpReadFifo => code (mpu_read_fifo (mk_fifo_out [] [] 0 0 0))
  | OpReadFifoStream n d => code (mpu_read_fifo_stream (u16 n) d 0)
  | OpSetGyroFsr f => mpu_set_gyro_fsr (u16 f)
  | OpSetAccelFsr f => mpu_set_accel_fsr (u8 f)
  | OpSetLpf f => mpu_set_lpf (u16 f)
  | OpSetSampleRate r => mpu_set_sample_rate (u16 r)
  | OpConfigureFifo m => mpu_configure_fifo (u8 m)
  | OpSetSensors m => mpu_set_sensors (u8 m)
  | OpSetBypass b => mpu_set_bypass (u8 b)
  | OpSetIntLevel l => mpu_set_int_level (u8 l)
  | OpSetIntLatched e => mpu_set_int_latched (u8 e)
  | OpLpAccelMode r => mpu_lp_accel_mode (u8 r)
  | OpLpMotionInterrupt t d f => mpu_lp_motion_interrupt (u16 t) (u8 d) (u8 f)
  | OpRunSelfTest => code (mpu_run_self_test [] [])
  | OpWriteMem a n d => mpu_write_mem (u16 a) (u16 n) d
  | OpReadMem a n => code (mpu_read_mem (u16 a) (u16 n) (Some []))
  | OpSetDmpState e => mpu_set_dmp_state (u8 e)
  | OpLoadMotionDriver => dmp_load_motion_driver_firmware
  | OpSetOrientation o => dmp_set_orientation (u16 o)
  | OpSetGyroBias b => dmp_set_gyro_bias b
  | OpSetDmpAccelBias b => dmp_set_accel_bias b
  | OpSetFifoRate r => dmp_set_fifo_rate (u16 r)
  | OpSetTapThresh a t => dmp_set_tap_thresh (u8 a) (u16 t)
  | OpSetTapAxes a => dmp_set_tap_axes (u8 a)
  | OpSetTapCount n => dmp_set_tap_count (u8 n)
  | OpSetTapTime t => dmp_set_tap_time (u16 t)
  | OpSetTapTimeMulti t => dmp_set_tap_time_multi (u16 t)
  | OpShakeThresh sf t => dmp_set_shake_reject_thresh (s32 sf) (u16 t)
  | OpShakeTime t => dmp_set_shake_reject_time (u16 t)
  | OpShakeTimeout t => dmp_set_shake_reject_timeout (u16 t)
  | OpGetSteps => code (dmp_get_pedometer_step_count (Some 0))
  | OpSetSteps n => dmp_set_pedometer_step_count (u32 n)
  | OpGetWalk => code (dmp_get_pedometer_walk_time (Some 0))
  | OpSetWalk t => dmp_set_pedometer_walk_time (u32 t)
  | OpEnableFeature m => dmp_enable_feature (u16 m)
  | OpSetInterruptMode m => dmp_set_interrupt_mode (u8 m)
  | OpRegisterTap f => dmp_register_tap_cb f
  | OpRegisterOrient f => dmp_register_android_orient_cb f
  | OpDmpReadFifo o => code (dmp_read_fifo o)
  | OpRunSelfTestBias => run_self_test
  end.

(** States after any sequence of operations.  The flag tells whether the last
    [mpu_init], if there was one, succeeded. *)
Inductive reachable (d : mpu6xxx_device) : bool -> drv -> Prop :=
| reach_boot : reachable d true (boot d)
| reach_op b op s r s' :
    reachable d b s -> run_op op s = Some (r, s') -> reachable d b s'
| reach_init b s r s' :
    reachable d b s -> mpu_init s = Some (r, s') -> reachable d (r =? 0) s'.

(** ** The DMP operations keep the agreement *)

#[local] Abbreviation K := (keeps True stays).

Lemma keeps_write_mem a n d : K (write_mem a n d).
Proof. unfold write_mem. apply keeps_mpu_write_mem. by left. Qed.

Lemma keeps_op_write_mem a n d : K (mpu_write_mem a n d).
Proof. apply keeps_mpu_write_mem. by left. Qed.

Lemma keeps_dmpset f : K (dmpset f).
Proof. apply keeps_modify. intros s. by apply stays_same_regs. Qed.

Lemma keeps_undef {A} : K (undefined (A:=A)).
Proof. by intros s. Qed.

Lemma keeps_div a b : K (cdiv a b).
Proof. apply keeps_cdiv. by left. Qed.

Lemma keeps_event e :
  (match e with EvWrite _ _ _ _ _ => False | _ => True end) -> K (log e).
Proof. apply keeps_log. Qed.

#[local] Hint Resolve keeps_write_mem keeps_op_write_mem keeps_dmpset keeps_undef
  keeps_div : keep.
#[local] Hint Extern 1 (keeps _ stays (log _)) => (apply keeps_log; exact I) : keep.
Create HintDb keep_unfold.
#[local] Hint Unfold mpu_get_gyro_sens mpu_get_accel_sens mpu_get_accel_fsr cast_long
  cast_ushort cast idx3 body_axis body3 scale_gyro : keep_unfold.

Ltac dmp_keep :=
  autounfold with keep_unfold; keep_tac.

Lemma keeps_dmp_load : K dmp_load_motion_driver_firmware.
Proof.
  unfold dmp_load_motion_driver_firmware. pose proof length_dmp_memory as Hl.
  generalize dependent dmp_memory. intros fw Hl.
  apply keeps_mpu_load_firmware; [unfold DMP_CODE_SIZE; lia|]. cbn. by rewrite Hl.
Qed.

Lemma keeps_dmp_set_orientation o : K (dmp_set_orientation o).
Proof. unfold dmp_set_orientation. dmp_keep. Qed.

Lemma keeps_dmp_set_gyro_bias b : K (dmp_set_gyro_bias b).
Proof. unfold dmp_set_gyro_bias. dmp_keep. Qed.

Lemma keeps_dmp_set_accel_bias b : K (dmp_set_accel_bias b).
Proof. unfold dmp_set_accel_bias. dmp_keep. Qed.

Lemma keeps_dmp_set_fifo_rate r : K (dmp_set_fifo_rate r).
Proof. unfold dmp_set_fifo_rate. dmp_keep. Qed.

Lemma keeps_dmp_set_tap_thresh a t : K (dmp_set_tap_thresh a t).
Proof. unfold dmp_set_tap_thresh. dmp_keep. Qed.
#[local] Hint Resolve keeps_dmp_load keeps_dmp_set_orientation keeps_dmp_set_gyro_bias
  keeps_dmp_set_accel_bias keeps_dmp_set_fifo_rate keeps_dmp_set_tap_thresh : keep.

Lemma keeps_dmp_enable_feature m : K (dmp_enable_feature m).
Proof.
  unfold dmp_enable_feature, enable_sensor_data, enable_tap, dmp_enable_gyro_cal,
    dmp_enable_lp_quat, dmp_enable_6x_lp_quat, dmp_set_tap_axes, dmp_set_tap_count,
    dmp_set_tap_time, dmp_set_tap_time_multi, dmp_set_shake_reject_thresh,
    dmp_set_shake_reject_time, dmp_set_shake_reject_timeout.
  keep_tac.
Qed.

Lemma keeps_dmp_read_fifo o : K (dmp_read_fifo o).
Proof. unfold dmp_read_fifo, parse_motion, decode_gesture. keep_tac. Qed.

Lemma keeps_run_self_test : K run_self_test.
Proof. unfold run_self_test. dmp_keep. Qed.
#[local] Hint Resolve keeps_dmp_enable_feature keeps_dmp_read_fifo
  keeps_run_self_test : keep.

Lemma keeps_code {A} (m : M drv (Z * A)) : K m -> K (code m).
Proof. intros. unfold code. keep_tac. Qed.

(** ** The invariant *)

Lemma run_op_stays op :
  (forall t d f, op <> OpLpMotionInterrupt t d f) -> K (run_op op).
Proof.
  intros Hop.
  destruct op; cbn [run_op];
    try solve [eauto 2 with keep nocore
              | apply keeps_code; eauto 2 with keep nocore
              | exfalso; eapply Hop; reflexivity].
  all: unfold dmp_get_pedometer_step_count, dmp_get_pedometer_walk_time,
    dmp_set_interrupt_mode, dmp_register_tap_cb, dmp_register_android_orient_cb;
    try apply keeps_code; keep_tac.
Qed.

Lemma run_op_coherent op s : coherent s -> wlp (run_op op) (fun _ s' => coherent s') s.
Proof.
  intros Hs.
  assert ((exists t d f, op = OpLpMotionInterrupt t d f) \/
          (forall t d f, op <> OpLpMotionInterrupt t d f)) as [(t & d & f & ->)|Hop].
  { destruct op; eauto; right; congruence. }
  - by apply mpu_lp_motion_interrupt_coherent.
  - eapply wpg_mono; [|by apply run_op_stays]. simpl.
    intros _ s' Hs'. by eapply stays_coherent.
Qed.

Lemma boot_coherent d : coherent (boot d).
Proof. split; cbn; auto. Qed.

Lemma reachable_coherent d b s : reachable d b s -> b = true -> coherent s.
Proof.
  induction 1 as [|b op s r s' Hr IH Hrun|b s r s' Hr IH Hrun]; intros Hb.
  - apply boot_coherent.
  - exact (wlp_elim _ _ _ _ _ (run_op_coherent op s (IH Hb)) Hrun).
  - pose proof (mpu_init_coherent s) as Hi. apply wp_elim in Hi as (r' & s'' & E & Hi).
    rewrite Hrun in E. simplify_eq. apply Hi. lia.
Qed.

(** C1: after any sequence of driver operations, with any transfer failing at
    any time, in which the last [mpu_init] (if there was one) succeeded, the
    cached gyroscope range, accelerometer range, filter and sample rate are
    either marked unknown or equal to what the registers hold according to the
    results of MPU_Write_Len; and if these results were true (0 exactly for
    the transfers that took place), equal to what the sensor's registers hold.
    That the results are true is not something the source ensures:
    MPU_Write_Len (my_mpu6050.c:90) has no return statement.  A failed
    [mpu_init] voids the agreement until the next successful one, and the
    filter is exempt while the motion interrupt is active. *)
Theorem cache_agrees_with_registers d s :
  reachable d true s ->
  coherent s /\ (honest s.(tr) = true -> agrees_with_sensor s).
Proof.
  intros Hr. assert (coherent s) by by eapply reachable_coherent.
  split; [done|]. by apply coherent_sensor.
Qed.

End system.

(** A run of the driver on the concrete sensor: initialisation, then the
    range the clock uses. *)
Definition run_from {A} (m : M drv A) (s : drv) : drv :=
  match m s with Some (_, s') => s' | None => s end.

Definition sim_inited : drv := run_from (@mpu_init sim_env) (boot sim_dev).
Definition sim_awake : drv := run_from (@run_op sim_env (OpSetSensors 0x78)) sim_inited.

Lemma cache_agrees_with_registers_witness :
  (coherent sim_awake /\ (honest (tr sim_awake) = true -> agrees_with_sensor sim_awake)) /\
  honest (tr sim_awake) = true /\ gyro_fsr (chip sim_awake) = 3 /\
  register (rg Reg.gyro_cfg) (tr sim_awake) = 0x18.
Proof.
  split; [|split_and!; vm_compute; reflexivity].
  apply (@cache_agrees_with_registers sim_env sim_dev).
  eapply (@reach_op sim_env _ _ (OpSetSensors 0x78) sim_inited 0).
  - apply (@reach_init sim_env _ true (boot sim_dev) 0).
    + apply reach_boot.
    + vm_compute. reflexivity.
  - vm_compute. reflexivity.
Defined.

(** The result register of MPU_Write_Len when the compiler leaves the number
    of transferred messages in it, which is 1 for a completed write. *)
Definition count_env : Env := {|
  master_xfer := Some sim_xfer;
  ret_reg := fun _ n => n;
  uninit := fun _ => 0;
  uninit_float := fun _ => F32.of_Z 0
|}.

(** On a sensor that answers every transfer [mpu_init] then gives up after its
    first write, which took place. *)
Theorem init_depends_on_missing_return :
  @mpu_init count_env (boot sim_dev) =
    Some (-1, put_tr [EvWrite 0x68 0x6B [0x80] true 1] (boot sim_dev)).
Proof. vm_compute. reflexivity. Qed.
