(* ===== verification/MpuSpec.v ===== *)
(** * What the settings of the MPU6050 driver achieve

    The contracts of the configuration functions of src/eMPL/inv_mpu.c, stated
    on the registers reconstructed from the transfers reported as done
    (MpuCoherence.v): a setter that reports success leaves the sensor in the
    requested range, and one that fails leaves the cache alone; the sample
    rate and the filter chosen for it; the outcome of [mpu_init]; the
    temperature conversion. *)

From stdpp Require Import prelude.
From Stdlib Require Import ZArith Lia.
From S2P Require Import Prelude CFloat MpuData MpuBus InvMpu InvMpuRead.
From S2P Require Import SimBus MpuCoherence MpuSystem.
Open Scope Z_scope.
Open Scope c_scope.

(** ** Setters *)

Section setters.
Context `{Env}.

(** A write of one byte followed by a cache update: one of two outcomes. *)
Lemma wp_set1 reg v f (k : M drv Z) (Q : Z -> drv -> Prop) s :
  0 <= reg < 256 ->
  (forall ok x, truthy x = false -> wp k Q
     (on_chip f (put_tr (EvWrite (i2c_addr s.(dev)) reg [v] ok x :: s.(tr)) s))) ->
  (forall ok x, truthy x = true ->
     Q (-1) (put_tr (EvWrite (i2c_addr s.(dev)) reg [v] ok x :: s.(tr)) s)) ->
  wp (TRY i2c_write reg 1 [v] ELSE -1 ;; chipset f ;;; k) Q s.
Proof.
  intros Hreg Hok Hfail. wp_step. wp_step. rewrite (u8_small reg) in * by lia.
  destruct (truthy r) eqn:E; [by apply Hfail|]. repeat wp_step. by apply Hok.
Qed.

Ltac by_const := solve [split; vm_compute; congruence].
Ltac use_eqb :=
  match goal with E : (_ =? _) = true |- _ => apply Z.eqb_eq in E as -> end.
Ltac wp_if :=
  match goal with |- wpg _ (if ?b then _ else _) _ _ => destruct b eqn:? end.

(** One branch of a range setter: the range with code [c]. *)
Lemma wp_set_range reg (get : chip_cfg_s -> Z) put c (Q : Z -> drv -> Prop) s :
  rg Reg.rate_div <= reg <= rg Reg.accel_cfg -> 0 <= c < 4 ->
  (forall v k, get (put v k) = v) ->
  get s.(chip) = 0xFF \/ fsr_field (shadow reg s.(tr)) = get s.(chip) ->
  (forall s', get s'.(chip) = c -> accel_half s'.(chip) = accel_half (put c s.(chip)) \/ s' = s ->
     fsr_field (shadow reg s'.(tr)) = c -> Q 0 s') ->
  (forall s', s'.(chip) = s.(chip) -> Q (-1) s') ->
  wp (if get s.(chip) =? Z.shiftr (Z.shiftl c 3) 3 then ret 0 else
      TRY i2c_write reg 1 [Z.shiftl c 3] ELSE -1 ;;
      chipset (put (Z.shiftr (Z.shiftl c 3) 3)) ;;; ret 0) Q s.
Proof.
  intros Hreg Hc Hput Hs HQ HF. cbn [Reg.rate_div Reg.accel_cfg Reg.reg rg] in Hreg.
  rewrite Z.shiftr_shiftl_l, Z.sub_diag, Z.shiftl_0_r by lia.
  assert (fsr_field (Z.shiftl c 3) = c) as Hf.
  { assert (c = 0 \/ c = 1 \/ c = 2 \/ c = 3) as [->|[->|[->| ->]]] by lia; reflexivity. }
  destruct (get _ =? c) eqn:E.
  - wp_step. apply HQ; [lia|auto|lia].
  - apply wp_set1; [lia| |]; intros ok x Hx.
    + wp_step. apply HQ; cbn [on_chip put_chip put_tr chip tr]; auto.
      by rewrite shadow_write1, Z.eqb_refl by (done || (unfold rg; cbn; lia)).
    + by apply HF.
Qed.

(** [mpu_set_gyro_fsr] always returns; when it reports success the range
    field of GYRO_CONFIG encodes exactly the requested range, even when the
    bus write was skipped because the cache had the value already, and
    [mpu_get_gyro_fsr] reads it back; when it reports failure the cached
    configuration is unchanged. *)
Theorem set_gyro_fsr_effective live fsr s :
  coh live s ->
  exists r s', mpu_set_gyro_fsr fsr s = Some (r, s') /\
    (r = 0 /\ s.(chip).(sensors) <> 0 /\
       250 * 2 ^ fsr_field (shadow (rg Reg.gyro_cfg) s'.(tr)) = fsr /\
       mpu_get_gyro_fsr s' = Some ((0, fsr), s')
     \/ r = -1 /\ s'.(chip) = s.(chip)).
Proof.
  intros [Hg _ _ _]. apply wp_elim. unfold mpu_set_gyro_fsr. do 2 wp_step.
  destruct (truthy _) eqn:Et; cbn [negb]; [|wp_step; auto].
  unfold truthy in Et. cbv zeta.
  repeat (wp_if; [apply (wp_set_range _ gyro_fsr with_gyro_fsr); auto; try by_const|]).
  5:{ wp_step. auto. }
  all: intros s' Hc _ Hf; left; rewrite Hf; unfold mpu_get_gyro_fsr, bind, gets, ret;
    rewrite Hc; use_eqb; split_and!; [done|lia|done|done].
Qed.

(** The same for [mpu_set_accel_fsr] and ACCEL_CONFIG.  On parts with
    half sensitivity the range that is read back is twice the requested one,
    as it is meant to be. *)
Theorem set_accel_fsr_effective live fsr s :
  coh live s ->
  exists r s', mpu_set_accel_fsr fsr s = Some (r, s') /\
    (r = 0 /\ s.(chip).(sensors) <> 0 /\
       2 * 2 ^ fsr_field (shadow (rg Reg.accel_cfg) s'.(tr)) = fsr /\
       (forall x, mpu_get_accel_fsr x s' =
          Some ((0, if truthy s.(chip).(accel_half) then 2 * fsr else fsr), s'))
     \/ r = -1 /\ s'.(chip) = s.(chip)).
Proof.
  intros [_ Ha _ _]. apply wp_elim. unfold mpu_set_accel_fsr. do 2 wp_step.
  destruct (truthy _) eqn:Et; cbn [negb]; [|wp_step; auto].
  unfold truthy in Et. cbv zeta.
  repeat (wp_if; [apply (wp_set_range _ accel_fsr with_accel_fsr); auto; try by_const|]).
  5:{ wp_step. auto. }
  all: intros s' Hc Hh Hf; left; rewrite Hf; use_eqb; split_and!;
    [done|lia|done|]; intros x; unfold mpu_get_accel_fsr, bind, gets, ret; rewrite Hc; cbn;
    assert (accel_half (chip s') = accel_half (chip s)) as -> by (by destruct Hh as [->| ->]);
    by destruct (truthy (accel_half _)).
Qed.

(** The two outcomes of [mpu_set_lpf] on a sensor that is awake. *)
Lemma wp_set_lpf v (Q : Z -> drv -> Prop) s :
  s.(chip).(sensors) <> 0 ->
  s.(chip).(lpf) = 0xFF \/ shadow (rg Reg.lpf) s.(tr) = s.(chip).(lpf) ->
  (forall tr', let s' := on_chip (with_lpf (lpf_code v)) (put_tr tr' s) in
     shadow (rg Reg.lpf) tr' = lpf_code v ->
     (forall r, r <> rg Reg.lpf -> shadow r tr' = shadow r s.(tr)) -> Q 0 s') ->
  (forall tr', (forall r, shadow r tr' = shadow r s.(tr)) -> Q (-1) (put_tr tr' s)) ->
  wp (mpu_set_lpf v) Q s.
Proof.
  intros Haw Hl Hok Hfail. unfold mpu_set_lpf. do 2 wp_step.
  unfold truthy at 1. destruct (sensors _ =? 0) eqn:E; [lia|]. cbn [negb]. cbv zeta.
  wp_if.
  - wp_step. replace s with (on_chip (with_lpf (lpf_code v)) (put_tr (tr s) s)).
    + apply Hok; [|done]. destruct Hl as [Hl|Hl]; [|lia]. exfalso. revert Heqb.
      rewrite Hl. unfold lpf_code. by repeat case_match.
    + destruct s as [? [] ? ?]. cbn in *. apply Z.eqb_eq in Heqb. by subst.
  - apply wp_set1; [by_const| |]; intros ok x Hx.
    + wp_step. apply Hok; intros; rewrite shadow_write1 by (done || by_const); [done|].
      by destruct (r =? _) eqn:?; [lia|].
    + apply Hfail. intros r. cbn [shadow]. by rewrite Hx.
Qed.

(** The bandwidth a filter code stands for, as [mpu_get_lpf] decodes it. *)
Definition lpf_steps : list Z := [188; 98; 42; 20; 10; 5].

Lemma mpu_get_lpf_code v s :
  s.(chip).(lpf) = lpf_code v ->
  exists hz, mpu_get_lpf s = Some ((0, hz), s) /\ In hz lpf_steps /\ hz <= Z.max 5 v /\
    (forall hz', In hz' lpf_steps -> hz' <= v -> hz' <= hz).
Proof.
  intros Hs. unfold mpu_get_lpf, bind, gets, ret. rewrite Hs. unfold lpf_code, lpf_steps.
  repeat match goal with |- context [?n <=? v] => destruct (n <=? v) eqn:? end;
    (eexists; split; [vm_compute; reflexivity|]); cbn [In]; split_and!; intros; lia.
Qed.

(** [mpu_set_lpf] on a sensor that is awake always returns; on success the
    CONFIG register holds the filter, and the bandwidth [mpu_get_lpf] reports
    is the largest supported one that does not exceed the request (5 Hz when
    all do); on failure neither the register nor the cache has changed. *)
Theorem set_lpf_largest_within_request v s :
  coh true s -> s.(chip).(sensors) <> 0 ->
  exists r s', mpu_set_lpf v s = Some (r, s') /\
    (r = 0 /\ shadow (rg Reg.lpf) s'.(tr) = s'.(chip).(lpf) /\
       (exists hz, mpu_get_lpf s' = Some ((0, hz), s') /\ In hz lpf_steps /\
          hz <= Z.max 5 v /\ (forall hz', In hz' lpf_steps -> hz' <= v -> hz' <= hz))
     \/ r = -1 /\ s'.(chip) = s.(chip) /\
       shadow (rg Reg.lpf) s'.(tr) = shadow (rg Reg.lpf) s.(tr)).
Proof.
  intros [_ _ Hl _] Haw. apply wp_elim. apply wp_set_lpf; [done|by apply Hl| |].
  - intros tr' s' Hs' _. left. split_and!; [done|done|]. by apply (mpu_get_lpf_code v).
  - intros tr' Htr'. right. by rewrite <- Htr'.
Qed.

(** ** Sample rate *)

(** The rate that the divider for a requested rate gives. *)
Definition achieved (rate : Z) : Z :=
  let r := Z.max 4 (Z.min 1000 rate) in Z.quot 1000 (Z.quot 1000 r).

Lemma achieved_bounds rate :
  Z.max 4 (Z.min 1000 rate) <= achieved rate <= 1000 /\
  1 <= Z.quot 1000 (Z.max 4 (Z.min 1000 rate)) <= 250.
Proof.
  unfold achieved. set (r := Z.max 4 _). assert (4 <= r <= 1000) by lia. clearbody r.
  rewrite (Z.quot_div_nonneg 1000 r) by lia.
  assert (1 <= 1000 / r) by (apply Z.div_le_lower_bound; lia).
  rewrite Z.quot_div_nonneg by lia.
  assert (1000 / r <= 250) by (apply Z.div_le_upper_bound; lia).
  pose proof (Z.mul_div_le 1000 r).
  split; [split|lia].
  - apply Z.div_le_lower_bound; lia.
  - apply Z.div_le_upper_bound; nia.
Qed.

Lemma achieved_exact rate : 4 <= rate <= 1000 -> (rate | 1000) -> achieved rate = rate.
Proof.
  intros Hr [q Hq]. unfold achieved. replace (Z.max 4 (Z.min 1000 rate)) with rate by lia.
  rewrite Hq, Z.quot_mul by lia. rewrite (Z.mul_comm q). apply Z.quot_mul. nia.
Qed.

(** With the sensor awake, the DMP off and no low-power mode,
    [mpu_set_sample_rate] returns for every request; on success the sample rate
    it records is the one the divider register produces, lies between the
    request (clamped to 4..1000 Hz) and 1000 Hz and is the request itself when
    that divides 1000; the filter is then the one for half that rate, so its
    bandwidth respects the Nyquist limit (down to 10 Hz), unless its own write
    failed, in which case it is the old one. *)
Theorem set_sample_rate_achieves rate s :
  coh true s -> s.(chip).(sensors) <> 0 ->
  s.(chip).(dmp_on) = 0 -> s.(chip).(lp_accel_mode) = 0 ->
  exists r s', mpu_set_sample_rate rate s = Some (r, s') /\
    (r = 0 /\
       (let sr := s'.(chip).(sample_rate) in
       sr = Z.quot 1000 (1 + shadow (rg Reg.rate_div) s'.(tr)) /\
       Z.max 4 (Z.min 1000 rate) <= sr <= 1000 /\
       (4 <= rate <= 1000 -> (rate | 1000) -> sr = rate) /\
       (s'.(chip).(lpf) = s.(chip).(lpf) \/
        exists hz, mpu_get_lpf s' = Some ((0, hz), s') /\ 2 * hz <= Z.max 10 sr))
     \/ r = -1 /\ s'.(chip) = s.(chip)).
Proof.
  intros Hs Haw Hd Hlp. apply wp_elim. unfold mpu_set_sample_rate. do 2 wp_step.
  rewrite Hd, Hlp. unfold truthy at 1. destruct (sensors _ =? 0) eqn:E; [lia|].
  cbn [negb andb truthy Z.eqb when]. do 2 wp_step.
  destruct (achieved_bounds rate) as [Hb Hq]. pose proof (achieved_exact rate) as Hx.
  unfold achieved in Hb, Hx.
  replace (if rate <? 4 then 4 else _) with (Z.max 4 (Z.min 1000 rate))
    by (repeat case_match; lia).
  set (q := Z.quot 1000 (Z.max 4 (Z.min 1000 rate))) in *. unfold cdiv.
  replace (_ =? 0) with false by lia. do 2 wp_step. rewrite u8_small by lia. fold q.
  replace (1 + (q - 1)) with q by lia. rewrite u16_small by lia.
  apply wp_set1; [by_const| |]; intros ok x Ex; [|by right].
  set (s1 := on_chip _ _). destruct Hs as [_ _ Hl _].
  assert (shadow (rg Reg.lpf) (tr s1) = shadow (rg Reg.lpf) (tr s)) as El
    by (subst s1; cbn [on_chip put_chip put_tr tr];
        by rewrite shadow_write1 by (done || by_const)).
  assert (shadow (rg Reg.rate_div) (tr s1) = q - 1) as Er
    by (subst s1; cbn [on_chip put_chip put_tr tr];
        by rewrite shadow_write1 by (done || by_const)).
  wp_step. apply wp_set_lpf; [done|rewrite El; by apply Hl| |].
  - intros tr' s' _ Htr'. wp_step. left. split; [done|]. cbv zeta.
    replace (sample_rate (chip s')) with (Z.quot 1000 q) by done.
    replace (tr s') with tr' by done. rewrite Htr', Er by done.
    split_and!; [f_equal; lia|lia|lia|exact Hx|right].
    destruct (mpu_get_lpf_code (Z.shiftr (Z.quot 1000 q) 1) s') as (hz & ? & _ & Hz & _);
      [done|].
    exists hz. split; [done|]. revert Hz. generalize (Z.quot 1000 q). intros y Hz.
    rewrite Z.shiftr_div_pow2 in Hz by lia. change (2 ^ 1) with 2 in Hz. pose proof (Z.mul_div_le y 2). lia.
  - intros tr' Htr'. wp_step. left. split; [done|]. cbv zeta.
    cbn [put_tr tr chip]. rewrite Htr', Er.
    split_and!; [subst s1; cbn; f_equal; lia|subst s1; cbn; lia..|exact Hx|by left].
Qed.

End setters.

(** ** Initialisation *)

Section init.
Context `{Env}.

(** The configuration [mpu_init] records: 2000 dps, 2 g, 50 Hz, filter
    42 Hz or, after the sample rate has chosen its own, 20 Hz; FIFO, DMP and
    bypass off; all sensors asleep. *)
Record initialised (c : chip_cfg_s) : Prop := mk_initialised {
  ini_gyro : c.(gyro_fsr) = INV_FSR_2000DPS;
  ini_accel : c.(accel_fsr) = INV_FSR_2G;
  ini_rate : c.(sample_rate) = 50;
  ini_lpf : c.(lpf) = INV_FILTER_42HZ \/ c.(lpf) = INV_FILTER_20HZ;
  ini_sensors : c.(sensors) = 0;
  ini_fifo : c.(fifo_enable) = 0;
  ini_bypass : c.(bypass_mode) = 0;
  ini_modes : c.(lp_accel_mode) = 0 /\ c.(int_motion_only) = 0;
  ini_dmp : c.(dmp_on) = 0 /\ c.(dmp_loaded) = 0
}.

(** Executes a body whose conditions are decided by the configuration. *)
Ltac exec :=
  repeat first
    [ progress cbv beta zeta
    | lazymatch goal with
      | |- wpg _ (i2c_write _ _ _) _ _ => wp_step
      | |- wpg _ (i2c_read _ _) _ _ => apply i2c_read_wpg; intros ?r ?d ?tr' _ _ _ _
      | |- wpg _ (if ?b then _ else _) _ _ =>
          let b' := eval vm_compute in b in
          first [ first [constr_eq b' true | constr_eq b' false];
                  replace b with b' by (vm_compute; reflexivity); cbv iota
                | destruct b ]
      | |- if truthy ?r then _ else _ => destruct (truthy r); [try discriminate|]
      | |- _ => wp_step
      end ].

(** A step whose failure makes [mpu_init] fail: only its success matters. *)
Lemma wp_try_init (m : M drv Z) k (P Q : drv -> Prop) s :
  wp m (fun r s' => truthy r = false -> P s') s ->
  (forall s', P s' -> wp k (fun r s'' => r = 0 -> Q s'') s') ->
  wp (TRY m ELSE -1 ;; k) (fun r s'' => r = 0 -> Q s'') s.
Proof.
  intros Hm Hk. wp_step. eapply wpg_mono; [|exact Hm]. simpl. intros r s' Hr.
  destruct (truthy r); [lia|auto].
Qed.

(** Evaluates a call on a state whose configuration is known. *)
Ltac run_init :=
  intros Hs; match type of Hs with chip ?s = _ => destruct s as [dv k dm t] end;
  cbn [chip] in Hs; subst; exec.

Lemma init_gyro c s : chip s = init_chip c ->
  wp (mpu_set_gyro_fsr 2000) (fun r s' => truthy r = false ->
    chip s' = with_gyro_fsr INV_FSR_2000DPS (init_chip c)) s.
Proof. unfold mpu_set_gyro_fsr. run_init. intros _. reflexivity. Qed.

Lemma init_accel c s : chip s = with_gyro_fsr INV_FSR_2000DPS (init_chip c) ->
  wp (mpu_set_accel_fsr 2) (fun r s' => truthy r = false ->
    chip s' = with_accel_fsr INV_FSR_2G (with_gyro_fsr INV_FSR_2000DPS (init_chip c))) s.
Proof. unfold mpu_set_accel_fsr. run_init. intros _. reflexivity. Qed.

(** The configuration after the ranges, with filter [l] and rate [r]. *)
Definition ranged (c : chip_cfg_s) (l r : Z) : chip_cfg_s :=
  with_sample_rate r (with_lpf l
    (with_accel_fsr INV_FSR_2G (with_gyro_fsr INV_FSR_2000DPS (init_chip c)))).

Lemma init_lpf c s :
  chip s = with_accel_fsr INV_FSR_2G (with_gyro_fsr INV_FSR_2000DPS (init_chip c)) ->
  wp (mpu_set_lpf 42) (fun r s' => truthy r = false ->
    chip s' = ranged c INV_FILTER_42HZ 0xFFFF) s.
Proof. unfold mpu_set_lpf. run_init. intros _. reflexivity. Qed.

Lemma init_rate c s : chip s = ranged c INV_FILTER_42HZ 0xFFFF ->
  wp (mpu_set_sample_rate 50) (fun r s' => truthy r = false ->
    exists l, (l = INV_FILTER_42HZ \/ l = INV_FILTER_20HZ) /\ chip s' = ranged c l 50) s.
Proof.
  unfold mpu_set_sample_rate, mpu_set_lpf, when, cdiv. run_init; intros _.
  all: first [ exists INV_FILTER_42HZ; split; [by left|vm_compute; reflexivity]
             | exists INV_FILTER_20HZ; split; [by right|vm_compute; reflexivity] ].
Qed.

Lemma init_fifo c l s : chip s = ranged c l 50 ->
  wp (mpu_configure_fifo 0) (fun r s' => truthy r = false ->
    exists i, chip s' = with_int_enable i (with_fifo_enable 0 (ranged c l 50))) s.
Proof.
  unfold mpu_configure_fifo, set_int_enable. run_init; intros _; eexists; reflexivity.
Qed.

Lemma init_bypass c l i s :
  chip s = with_int_enable i (with_fifo_enable 0 (ranged c l 50)) ->
  wp (mpu_set_bypass 0) (fun r s' => truthy r = false ->
    chip s' = with_bypass_mode 0 (with_int_enable i (with_fifo_enable 0 (ranged c l 50)))) s.
Proof. unfold mpu_set_bypass. run_init; intros _; reflexivity. Qed.

Lemma init_sleep c l i s :
  (l = INV_FILTER_42HZ \/ l = INV_FILTER_20HZ) ->
  chip s = with_bypass_mode 0 (with_int_enable i (with_fifo_enable 0 (ranged c l 50))) ->
  wp (mpu_set_sensors 0 ;;; ret 0) (fun r s' => r = 0 -> initialised (chip s')) s.
Proof.
  intros Hl. unfold mpu_set_sensors, when. run_init; intros _; split; auto.
Qed.

Lemma init_config_initialised c s : chip s = init_chip c ->
  wp (TRY mpu_set_gyro_fsr 2000 ELSE -1 ;; TRY mpu_set_accel_fsr 2 ELSE -1 ;;
      TRY mpu_set_lpf 42 ELSE -1 ;; TRY mpu_set_sample_rate 50 ELSE -1 ;;
      TRY mpu_configure_fifo 0 ELSE -1 ;; TRY mpu_set_bypass 0 ELSE -1 ;;
      mpu_set_sensors 0 ;;; ret 0)
    (fun r s' => r = 0 -> initialised (chip s')) s.
Proof.
  intros Hs. eapply wp_try_init; [by eapply init_gyro|cbv beta; intros s1 H1].
  eapply wp_try_init; [by eapply init_accel|cbv beta; intros s2 H2].
  eapply wp_try_init; [by eapply init_lpf|cbv beta; intros s3 H3].
  eapply wp_try_init; [by eapply init_rate|cbv beta; intros s4 (l & Hl & H4)].
  eapply wp_try_init; [by eapply init_fifo|cbv beta; intros s5 (i & H5)].
  eapply wp_try_init; [by eapply init_bypass|cbv beta; intros s6 H6].
  by eapply init_sleep.
Qed.

(** What the registers of a sensor configured that way hold. *)
Definition configured (rd : Z -> Z) : Prop :=
  fsr_field (rd (rg Reg.gyro_cfg)) = INV_FSR_2000DPS /\
  fsr_field (rd (rg Reg.accel_cfg)) = INV_FSR_2G /\
  (rd (rg Reg.lpf) = INV_FILTER_42HZ \/ rd (rg Reg.lpf) = INV_FILTER_20HZ) /\
  Z.quot 1000 (1 + rd (rg Reg.rate_div)) = 50.

Lemma agree_configured rd c : initialised c -> agree rd true c -> configured rd.
Proof.
  intros [Ig Ia Ir Il _ _ _ _ _] [Hg Ha Hl Hr]. unfold configured.
  specialize (Hl eq_refl). rewrite Ig in Hg. rewrite Ia in Ha. rewrite Ir in Hr.
  unfold INV_FSR_2000DPS, INV_FSR_2G, INV_FILTER_42HZ, INV_FILTER_20HZ in *. lia.
Qed.

(** C6: [mpu_init] returns from every state without undefined behaviour; when
    it reports success the driver's record is 2000 dps, 2 g, 50 Hz, a 42 Hz or
    20 Hz filter, FIFO, bypass and DMP off, no firmware loaded and all sensors
    asleep, and the range, filter and rate registers hold these settings
    according to the results of MPU_Write_Len, and in the sensor itself if
    these results were true (the function has no return statement).  The
    sensors asleep and the FIFO off are only the driver's record: the result
    of [mpu_set_sensors 0] is ignored and [mpu_configure_fifo 0] writes no
    FIFO_EN register. *)
Theorem mpu_init_establishes s :
  exists r s', mpu_init s = Some (r, s') /\
    (r = 0 -> coherent s' /\ initialised s'.(chip) /\
       configured (fun r => shadow r s'.(tr)) /\
       (honest s'.(tr) = true -> configured (fun r => register r s'.(tr)))).
Proof.
  destruct (wp_elim _ _ _ (mpu_init_coherent s)) as (r & s' & Hrun & Hcoh).
  exists r, s'. split; [done|]. intros ->. specialize (Hcoh eq_refl).
  assert (initialised (chip s')) as Hi.
  { assert (wp mpu_init (fun r s' => r = 0 -> initialised (chip s')) s) as Hw.
    { unfold mpu_init. do 2 wp_step. destruct (truthy _); [lia|]. do 4 wp_step.
      destruct (truthy _); [lia|]. wp_step.
      eapply wpg_mono; [|apply keeps_init_accel_half]. simpl.
      intros r1 s1 _. destruct (truthy r1); [lia|]. do 2 wp_step.
      by eapply init_config_initialised. }
    unfold wpg in Hw. rewrite Hrun in Hw. by apply Hw. }
  assert (int_motion_only (chip s') = 0) as Hm by apply Hi.
  split_and!; [done|done|..].
  - apply (agree_configured _ (chip s')); [done|]. revert Hcoh. unfold coherent, coh.
    by rewrite Hm.
  - intros Hh. apply (agree_configured _ (chip s')); [done|].
    pose proof (coherent_sensor _ Hcoh Hh) as Hs. revert Hs. unfold agrees_with_sensor.
    by rewrite Hm.
Qed.

End init.

(** ** The contracts on the concrete sensor *)

Lemma sim_awake_coh : coh true sim_awake.
Proof. split; intros; right; vm_compute; auto. Qed.

Lemma set_gyro_fsr_effective_witness :
  exists r s', @mpu_set_gyro_fsr sim_env 500 sim_awake = Some (r, s') /\
    (r = 0 /\ sensors (chip sim_awake) <> 0 /\
       250 * 2 ^ fsr_field (shadow (rg Reg.gyro_cfg) s'.(tr)) = 500 /\
       mpu_get_gyro_fsr s' = Some ((0, 500), s')
     \/ r = -1 /\ s'.(chip) = chip sim_awake).
Proof.
  exact (@set_gyro_fsr_effective sim_env true 500 sim_awake sim_awake_coh).
Defined.

Lemma set_accel_fsr_effective_witness :
  exists r s', @mpu_set_accel_fsr sim_env 8 sim_awake = Some (r, s') /\
    (r = 0 /\ sensors (chip sim_awake) <> 0 /\
       2 * 2 ^ fsr_field (shadow (rg Reg.accel_cfg) s'.(tr)) = 8 /\
       (forall x, mpu_get_accel_fsr x s' =
          Some ((0, if truthy (accel_half (chip sim_awake)) then 2 * 8 else 8), s'))
     \/ r = -1 /\ s'.(chip) = chip sim_awake).
Proof.
  exact (@set_accel_fsr_effective sim_env true 8 sim_awake sim_awake_coh).
Defined.

Lemma sim_awake_sensors : sensors (chip sim_awake) <> 0.
Proof. vm_compute. discriminate. Qed.

Lemma set_lpf_largest_within_request_witness :
  exists r s', @mpu_set_lpf sim_env 100 sim_awake = Some (r, s') /\
    (r = 0 /\ shadow (rg Reg.lpf) s'.(tr) = s'.(chip).(lpf) /\
       (exists hz, mpu_get_lpf s' = Some ((0, hz), s') /\ In hz lpf_steps /\
          hz <= Z.max 5 100 /\ (forall hz', In hz' lpf_steps -> hz' <= 100 -> hz' <= hz))
     \/ r = -1 /\ s'.(chip) = chip sim_awake /\
       shadow (rg Reg.lpf) s'.(tr) = shadow (rg Reg.lpf) (tr sim_awake)).
Proof.
  exact (@set_lpf_largest_within_request sim_env 100 sim_awake
           sim_awake_coh sim_awake_sensors).
Defined.

Lemma set_sample_rate_achieves_witness :
  exists r s', @mpu_set_sample_rate sim_env 100 sim_awake = Some (r, s') /\
    (r = 0 /\
       (let sr := s'.(chip).(sample_rate) in
       sr = Z.quot 1000 (1 + shadow (rg Reg.rate_div) s'.(tr)) /\
       Z.max 4 (Z.min 1000 100) <= sr <= 1000 /\
       (4 <= 100 <= 1000 -> (100 | 1000) -> sr = 100) /\
       (s'.(chip).(lpf) = lpf (chip sim_awake) \/
        exists hz, mpu_get_lpf s' = Some ((0, hz), s') /\ 2 * hz <= Z.max 10 sr))
     \/ r = -1 /\ s'.(chip) = chip sim_awake).
Proof.
  apply (@set_sample_rate_achieves sim_env 100 sim_awake);
    [exact sim_awake_coh|exact sim_awake_sensors|vm_compute; reflexivity..].
Defined.

Lemma mpu_init_establishes_witness :
  (exists r s', @mpu_init sim_env (boot sim_dev) = Some (r, s') /\
    (r = 0 -> coherent s' /\ initialised s'.(chip) /\
       configured (fun r => shadow r s'.(tr)) /\
       (honest s'.(tr) = true -> configured (fun r => register r s'.(tr))))) /\
  (fst <$> @mpu_init sim_env (boot sim_dev)) = Some 0 /\
  honest (tr sim_inited) = true.
Proof.
  split; [exact (@mpu_init_establishes sim_env (boot sim_dev))|].
  split; vm_compute; reflexivity.
Defined.
