(* ===== verification/DmpMemory.v ===== *)
(** * The DMP's memory and the firmware loader

    The sensor's program memory, reconstructed from the completed transfers:
    BANK_SEL and MEM_START_ADDR select a cell, and every byte written to or
    read from MEM_R_W advances the address.  The memory operations of
    src/eMPL/inv_mpu.c are specified on this memory, and the loader is proved
    to store the whole image and to succeed on a sensor that works. *)

From stdpp Require Import prelude gmap.
From Stdlib Require Import ZArith Lia.
From S2P Require Import Prelude CFloat MpuData MpuBus InvMpu InvMpuRead DmpImage DmpDriver.
From S2P Require Import SimBus MpuCoherence.
Open Scope Z_scope.
Open Scope c_scope.

(** ** The memory of the sensor *)

Record dmp_dev := mk_dmp_dev {
  bank : Z;
  ptr : Z;
  cells : gmap Z Z
}.

Fixpoint store (a : Z) (data : list Z) (m : gmap Z Z) : gmap Z Z :=
  match data with
  | [] => m
  | b :: data => <[a := b]> (store (a + 1) data m)
  end.

Definition dmp_step (e : event) (d : dmp_dev) : dmp_dev :=
  match e with
  | EvWrite _ reg data true _ =>
      if is_reset reg data then mk_dmp_dev 0 0 ∅
      else if reg =? Reg.bank_sel Reg.reg
      then mk_dmp_dev (at_ data 0) (at_ data 1) d.(cells)
      else if reg =? Reg.mem_r_w Reg.reg
      then mk_dmp_dev d.(bank) (d.(ptr) + Z.of_nat (length data))
             (store (256 * d.(bank) + d.(ptr)) data d.(cells))
      else d
  | EvRead _ reg len true _ =>
      if reg =? Reg.mem_r_w Reg.reg
      then mk_dmp_dev d.(bank) (d.(ptr) + len) d.(cells) else d
  | _ => d
  end.

(** [h] is newest first. *)
Definition dmp_of (h : list event) : dmp_dev := foldr dmp_step (mk_dmp_dev 0 0 ∅) h.

(** The memory in a state of the driver. *)
Abbreviation memory s := (cells (dmp_of (tr s))).

(** [len] cells from address [a] on. *)
Definition fetch (m : gmap Z Z) (a len : Z) : list Z :=
  map (fun i => default 0 (m !! (a + Z.of_nat i))) (seq 0 (Z.to_nat len)).

Lemma lookup_store a data m k :
  store a data m !! k =
  if decide (a <= k < a + Z.of_nat (length data))
  then data !! Z.to_nat (k - a) else m !! k.
Proof.
  revert a. induction data as [|b data IH]; intros a; cbn [store].
  { rewrite decide_False; [done|]. cbn. lia. }
  destruct (decide (a = k)) as [->|Hak].
  - rewrite lookup_insert_eq, decide_True by (cbn [length]; lia). by rewrite Z.sub_diag.
  - rewrite lookup_insert_ne, IH by done. cbn [length].
    destruct (decide (a + 1 <= k < _)).
    + rewrite decide_True by lia.
      replace (Z.to_nat (k - a)) with (S (Z.to_nat (k - (a + 1)))) by lia. done.
    + rewrite decide_False by lia. done.
Qed.

Lemma fetch_store a data m : fetch (store a data m) a (Z.of_nat (length data)) = data.
Proof.
  unfold fetch. apply list_eq. intros i. rewrite list_lookup_fmap, Nat2Z.id.
  destruct (decide (i < length data)%nat) as [Hi|Hi].
  - rewrite lookup_seq_lt by lia. cbn [fmap option_fmap option_map Nat.add].
    rewrite lookup_store, decide_True by lia.
    replace (Z.to_nat (a + Z.of_nat i - a)) with i by lia.
    destruct (lookup_lt_is_Some_2 data i Hi) as [x ->]. done.
  - rewrite lookup_seq_ge, lookup_ge_None_2 by lia. done.
Qed.

(** Splitting an address into bank and offset. *)
Lemma bank_offset a :
  0 <= a < 65536 ->
  u8 (Z.shiftr a 8) = a / 256 /\ u8 (Z.land a 0xFF) = a mod 256.
Proof.
  intros Ha. change 0xFF with (Z.ones 8).
  rewrite Z.shiftr_div_pow2, Z.land_ones by lia. change (2 ^ 8) with 256.
  pose proof (Z.mod_pos_bound a 256). split; apply u8_small; [|lia].
  split; [apply Z.div_pos; lia|apply Z.div_lt_upper_bound; lia].
Qed.

(** The two kinds of write the memory operations make. *)
Lemma dmp_of_select slave x y r h :
  dmp_of (EvWrite slave (u8 (rg Reg.bank_sel)) (take (Z.to_nat (u8 2)) [x; y]) true r :: h) =
  mk_dmp_dev x y (cells (dmp_of h)).
Proof. reflexivity. Qed.

Lemma dmp_of_port slave data r h :
  dmp_of (EvWrite slave (u8 (rg Reg.mem_r_w)) data true r :: h) =
  let d := dmp_of h in
  mk_dmp_dev d.(bank) (d.(ptr) + Z.of_nat (length data))
    (store (256 * d.(bank) + d.(ptr)) data d.(cells)).
Proof. reflexivity. Qed.

Lemma cells_select slave x y ok r h :
  cells (dmp_of (EvWrite slave (u8 (rg Reg.bank_sel))
                   (take (Z.to_nat (u8 2)) [x; y]) ok r :: h)) = cells (dmp_of h).
Proof. by destruct ok. Qed.

Lemma cells_read slave reg len ok data h :
  cells (dmp_of (EvRead slave reg len ok data :: h)) = cells (dmp_of h).
Proof. destruct ok; cbn [dmp_of foldr dmp_step]; [|done]. by case_match. Qed.

(** ** The traffic of a load

    The transfers that load the image from address [ii] on, newest first: for
    every chunk its address and its bytes, the address again and, on an i2c
    bus, a read of the port that completed and returned the bytes of the image.
    All writes had the result 0; the flags say which of them took place. *)

Definition chunk_at (fw : list Z) (len ii : Z) : list Z :=
  take (Z.to_nat (Z.min LOAD_CHUNK (len - ii))) (drop (Z.to_nat ii) fw).

Definition select (slave a : Z) (ok : bool) : event :=
  EvWrite slave (rg Reg.bank_sel) [a / 256; a mod 256] ok 0.
Definition port_write (slave : Z) (data : list Z) (ok : bool) : event :=
  EvWrite slave (rg Reg.mem_r_w) data ok 0.
Definition port_read (slave : Z) (data : list Z) : event :=
  EvRead slave (rg Reg.mem_r_w) (Z.of_nat (length data)) true data.

Inductive loaded (slave : Z) (i2c : bool) (fw : list Z) (len : Z) :
    Z -> list event -> list event -> Prop :=
| loaded_all ii h : len <= ii -> loaded slave i2c fw len ii h h
| loaded_chunk ii h h' ok1 ok2 ok3 :
    ii < len ->
    let c := chunk_at fw len ii in
    loaded slave i2c fw len (ii + Z.of_nat (length c))
      ((if i2c then [port_read slave c] else []) ++
       select slave ii ok3 :: port_write slave c ok2 :: select slave ii ok1 :: h) h' ->
    loaded slave i2c fw len ii h h'.

(** Every address selection took place. *)
Definition selected (h : list event) : bool :=
  forallb (fun e => match e with
                    | EvWrite _ reg _ ok _ => negb (reg =? rg Reg.bank_sel) || ok
                    | _ => true
                    end) h.

(** Every completed read of the port returned the cells selected before. *)
Fixpoint port_reads (h : list event) : bool :=
  match h with
  | EvRead _ reg len true data :: h =>
      (negb (reg =? rg Reg.mem_r_w) ||
       bool_decide (data = as_bytes len (fetch (cells (dmp_of h))
                             (256 * bank (dmp_of h) + ptr (dmp_of h)) len))) &&
      port_reads h
  | _ :: h => port_reads h
  | [] => true
  end.

Lemma loaded_suffix slave i2c fw len ii h h' :
  loaded slave i2c fw len ii h h' -> exists l, h' = l ++ h.
Proof.
  induction 1 as [|ii h h' ok1 ok2 ok3 Hii c Hl [l ->]]; [by exists []|].
  eexists (l ++ (if i2c then [_] else []) ++ [_; _; _]). by rewrite <- !app_assoc.
Qed.

Lemma honest_app l h : honest (l ++ h) = true -> honest h = true.
Proof. unfold honest. rewrite forallb_app. by intros [_ ?]%andb_true_iff. Qed.

Lemma selected_app l h : selected (l ++ h) = true -> selected h = true.
Proof. unfold selected. rewrite forallb_app. by intros [_ ?]%andb_true_iff. Qed.

Lemma port_reads_app l h : port_reads (l ++ h) = true -> port_reads h = true.
Proof.
  induction l as [|[| ? ? ? []| | |] l IH]; cbn [app port_reads]; auto.
  intros [_ ?]%andb_true_iff. auto.
Qed.

Lemma length_chunk_at fw len ii :
  0 <= ii < len -> len <= Z.of_nat (length fw) ->
  Z.of_nat (length (chunk_at fw len ii)) = Z.min 16 (len - ii).
Proof. unfold chunk_at, LOAD_CHUNK. rewrite length_take, length_drop. lia. Qed.

Lemma lookup_chunk_at fw len ii i :
  0 <= ii -> (i < length (chunk_at fw len ii))%nat ->
  chunk_at fw len ii !! i = fw !! (Z.to_nat ii + i)%nat.
Proof.
  unfold chunk_at. intros Hii Hi. rewrite length_take in Hi.
  by rewrite lookup_take_lt, lookup_drop by lia.
Qed.

(** What one chunk does to the memory, with the addresses selected. *)
Lemma dmp_of_select_at slave a h :
  dmp_of (select slave a true :: h) = mk_dmp_dev (a / 256) (a mod 256) (cells (dmp_of h)).
Proof. reflexivity. Qed.

Lemma cells_chunk slave i2c c a ok2 h :
  cells (dmp_of ((if i2c : bool then [port_read slave c] else []) ++
     select slave a true :: port_write slave c ok2 :: select slave a true :: h)) =
  if ok2 then store a c (cells (dmp_of h)) else cells (dmp_of h).
Proof.
  transitivity (cells (dmp_of (select slave a true :: port_write slave c ok2 ::
                                 select slave a true :: h))).
  { destruct i2c; [apply cells_read|done]. }
  rewrite dmp_of_select_at. cbn [cells]. destruct ok2; [|done].
  change (dmp_of (port_write slave c true :: select slave a true :: h))
    with (let d := dmp_of (select slave a true :: h) in
          mk_dmp_dev (bank d) (ptr d + Z.of_nat (length c))
            (store (256 * bank d + ptr d) c (cells d))).
  rewrite dmp_of_select_at. cbn [bank ptr cells]. by rewrite <- (Z.div_mod a 256) by lia.
Qed.

(** If the results of the writes were true, the image is in the memory. *)
Lemma loaded_honest slave i2c fw len ii h h' :
  loaded slave i2c fw len ii h h' -> honest h' = true ->
  0 <= ii -> len <= Z.of_nat (length fw) ->
  forall k, 0 <= k < len ->
    cells (dmp_of h') !! k =
    if decide (ii <= k) then fw !! Z.to_nat k else cells (dmp_of h) !! k.
Proof.
  induction 1 as [ii h Hii|ii h h' ok1 ok2 ok3 Hii c Hl IH]; intros Hh H0 Hfw k Hk.
  { by rewrite decide_False by lia. }
  assert (ok1 = true /\ ok2 = true /\ ok3 = true) as (-> & -> & ->).
  { destruct (loaded_suffix _ _ _ _ _ _ _ Hl) as [l ->].
    apply honest_app, honest_app in Hh. cbn in Hh. by destruct ok1, ok2, ok3. }
  pose proof (length_chunk_at fw len ii ltac:(lia) Hfw) as Hc. fold c in Hc.
  rewrite (IH Hh ltac:(lia) Hfw k Hk), cells_chunk, lookup_store.
  repeat case_decide; try lia; try done.
  unfold c. rewrite lookup_chunk_at by (fold c; lia). f_equal. lia.
Qed.

(** If the addresses were selected and the port reads the memory, the
    comparison with what was read back shows that the image is in the memory,
    whatever the results of the data writes were. *)
Lemma loaded_readback slave fw len ii h h' :
  loaded slave true fw len ii h h' -> selected h' = true -> port_reads h' = true ->
  0 <= ii -> len <= Z.of_nat (length fw) ->
  forall k, 0 <= k < len ->
    if decide (ii <= k)
    then u8 (default 0 (cells (dmp_of h') !! k)) = at_ fw (Z.to_nat k)
    else cells (dmp_of h') !! k = cells (dmp_of h) !! k.
Proof.
  induction 1 as [ii h Hii|ii h h' ok1 ok2 ok3 Hii c Hl IH]; intros Hs Hp H0 Hfw k Hk.
  { by rewrite decide_False by lia. }
  pose proof (length_chunk_at fw len ii ltac:(lia) Hfw) as Hc. fold c in Hc.
  specialize (IH Hs Hp ltac:(lia) Hfw k Hk).
  destruct (loaded_suffix _ _ _ _ _ _ _ Hl) as [l El].
  rewrite El in Hs, Hp. apply selected_app in Hs. apply port_reads_app in Hp.
  assert (ok1 = true /\ ok3 = true) as (-> & ->)
    by (cbn in Hs; by destruct ok1, ok2, ok3).
  pose proof (cells_chunk slave true c ii ok2 h) as Em.
  set (m := if ok2 then store ii c _ else _) in Em. rewrite Em in IH.
  assert (forall j, ~ ii <= j < ii + Z.of_nat (length c) -> m !! j = cells (dmp_of h) !! j)
    as Hout.
  { intros j Hj. subst m. destruct ok2; [|done]. by rewrite lookup_store, decide_False. }
  assert (c = as_bytes (Z.of_nat (length c)) (fetch m ii (Z.of_nat (length c)))) as Hread.
  { cbn [app] in Hp, Em. unfold port_read at 1 in Hp. cbn [port_reads] in Hp.
    rewrite Z.eqb_refl in Hp. cbn [negb orb] in Hp. apply andb_true_iff in Hp as [Hp _].
    apply bool_decide_eq_true_1 in Hp. unfold port_read in Em. rewrite cells_read in Em.
    rewrite Em, dmp_of_select_at in Hp. cbn [bank ptr] in Hp.
    by rewrite <- (Z.div_mod ii 256) in Hp by lia. }
  destruct (decide (ii + Z.of_nat (length c) <= k)).
  { by rewrite decide_True by lia. }
  rewrite IH. destruct (decide (ii <= k)); [|apply Hout; lia].
  set (i := Z.to_nat (k - ii)). assert (i < length c)%nat as Hi by (subst i; lia).
  replace (at_ fw (Z.to_nat k)) with (at_ c i).
  - rewrite Hread. unfold at_, as_bytes. rewrite Nat2Z.id.
    erewrite nth_lookup_Some; [|by rewrite list_lookup_fmap, lookup_seq_lt].
    unfold fetch. rewrite Nat2Z.id. unfold at_.
    erewrite nth_lookup_Some; [|by rewrite list_lookup_fmap, lookup_seq_lt].
    cbn [Nat.add]. do 3 f_equal. subst i. lia.
  - unfold at_. rewrite !nth_lookup. unfold c. rewrite lookup_chunk_at by (fold c; lia).
    do 2 f_equal. subst i. lia.
Qed.

(** ** The memory operations *)

Section memory.
Context `{Env}.

Lemma truthy_false r : truthy r = false -> r = 0.
Proof. unfold truthy. lia. Qed.

(** A write that reports success has selected the address and written. *)
Lemma wp_write_mem a len data (Q : Z -> drv -> Prop) s :
  0 <= a < 65536 -> 0 <= len <= 49 -> len <= Z.of_nat (length data) ->
  (forall ok1 ok2, s.(chip).(sensors) <> 0 -> a mod 256 + len <= 256 ->
     Q 0 (put_tr (port_write (i2c_addr s.(dev)) (take (Z.to_nat len) data) ok2 ::
                  select (i2c_addr s.(dev)) a ok1 :: s.(tr)) s)) ->
  (forall s', s'.(chip) = s.(chip) -> Q (-1) s') ->
  wp (mpu_write_mem a len (Some data)) Q s.
Proof.
  intros Ha Hlen Hdata Hok Hfail. unfold mpu_write_mem. do 2 wp_step.
  destruct (bank_offset a Ha) as [-> ->]. unfold truthy at 1.
  destruct (sensors (chip s) =? 0) eqn:Eaw; cbn [negb]; [wp_step; by apply Hfail|].
  cbv zeta. cbn [Hw.bank_size Hw.hw].
  destruct (256 <? a mod 256 + len) eqn:Eb; [wp_step; by apply Hfail|].
  do 2 wp_step. destruct (truthy r) eqn:Er; [by apply Hfail|].
  wp_step. apply i2c_write_wpg; [right; rewrite u8_small by lia; lia|].
  intros ok' r' _ _. rewrite (u8_small len) by lia.
  destruct (truthy r') eqn:Er'; [by apply Hfail|]. wp_step.
  apply truthy_false in Er as ->. apply truthy_false in Er' as ->.
  apply (Hok ok ok'); lia.
Qed.

(** A read that reports success has selected the address and, on an i2c bus,
    has returned what came in. *)
Lemma wp_read_mem a len (Q : Z * list Z -> drv -> Prop) s :
  0 <= a < 65536 -> 0 <= len < 256 ->
  (forall r d s', s'.(chip) = s.(chip) -> r <> 0 -> Q (r, d) s') ->
  (forall ok d, length d = Z.to_nat len ->
     Q (0, d) (put_tr ((if bus_is_i2c s.(dev)
                        then [port_read (i2c_addr s.(dev)) d] else []) ++
                       select (i2c_addr s.(dev)) a ok :: s.(tr)) s)) ->
  wp (mpu_read_mem a len (Some [])) Q s.
Proof.
  intros Ha Hlen Hfail Hok. unfold mpu_read_mem. do 2 wp_step. cbv zeta.
  destruct (bank_offset a Ha) as [-> ->].
  destruct (negb _); [by apply Hfail|]. destruct (_ <? _); [by apply Hfail|].
  do 2 wp_step. destruct (truthy r) eqn:Er; [by apply Hfail|].
  apply truthy_false in Er as ->. rename ok into ok1.
  wp_step. unfold i2c_read, MPU_Read_Len. cbv zeta. do 2 wp_step. unfold id.
  cbn [put_tr dev]. rewrite (u8_small len) by lia.
  pose proof (fun bs => length_as_bytes len bs) as Hl.
  destruct (bus_is_i2c (dev s)).
  - destruct (rt_i2c_transfer _ _) as [n bytes]. do 3 wp_step. destruct (n =? 2).
    + cbn [app] in Hok. change (truthy (u8 0)) with false. cbv iota. wp_step.
      specialize (Hok ok1 (as_bytes len bytes) (Hl _)). unfold port_read in Hok.
      rewrite Hl, Z2Nat.id in Hok by lia. exact Hok.
    + by apply Hfail.
  - wp_step. cbv beta iota. change (truthy 0) with false. cbv iota. wp_step.
    apply (Hok ok1). apply Hl.
Qed.

(** The loop leaves the traffic of a load when it reports success. *)
Lemma wp_load_chunks fuel fw len ii s :
  0 <= ii -> len < 65536 -> len <= Z.of_nat (length fw) -> len - ii <= Z.of_nat fuel ->
  wp (load_chunks fuel fw len ii)
     (fun r s' => s'.(chip) = s.(chip) /\
        (r = 0 -> s'.(dev) = s.(dev) /\
           loaded (i2c_addr s.(dev)) (bus_is_i2c s.(dev)) fw len ii s.(tr) s'.(tr))) s.
Proof.
  revert ii s. induction fuel as [|fuel IH]; intros ii s Hii Hlen Hfw Hfuel;
    cbn [load_chunks]; (destruct (ii <? len) eqn:E;
      [|wp_step; split; [done|intros _; split; [done|apply loaded_all; lia]]]); [lia|].
  pose proof (length_chunk_at fw len ii ltac:(lia) Hfw) as Hc.
  set (n := Z.min LOAD_CHUNK (len - ii)).
  assert (1 <= n <= 16) by (subst n; unfold LOAD_CHUNK; lia).
  wp_step. apply wp_write_mem; [lia|lia|rewrite length_drop; lia| |].
  2:{ intros s1 Hc1. cbn. split; [done|lia]. }
  intros ok1 ok2 _ _. cbn [truthy negb Z.eqb]. wp_step.
  apply wp_read_mem; [lia|lia| |].
  { intros r d s2 Hc2 Hr. unfold truthy. destruct (r =? 0) eqn:Er; [lia|].
    split; [by rewrite Hc2|lia]. }
  intros ok3 d _. cbn [truthy negb Z.eqb].
  case_bool_decide as Hd; [|wp_step; split; [done|lia]].
  rewrite u16_small by lia. eapply wpg_mono; [|apply IH; lia]. cbv beta.
  intros r' s' [Hc' Hl']. split; [done|]. intros Hr'. destruct (Hl' Hr') as [Hdev Hl].
  split; [done|]. apply (loaded_chunk _ _ _ _ _ _ _ ok1 ok2 ok3); [lia|].
  cbn [put_tr tr dev] in Hl. rewrite Hc. change (chunk_at fw len ii) with
    (take (Z.to_nat n) (drop (Z.to_nat ii) fw)). rewrite <- Hd in *. exact Hl.
Qed.

(** C7: loading the motion driver never runs into undefined behaviour or out
    of rounds; when it fails, with a transfer or with the comparison, the
    driver's configuration is as it was.  When it reports success the driver
    knows that firmware is loaded, at 200 Hz, and the traffic is, chunk by
    chunk, the address, the bytes of the image, the address again and (on an
    i2c bus) a completed read that returned the bytes of the image, then the
    program start 0x0400.  Hence every byte of the 3062-byte image is in the
    DMP's memory at its address, if the results of MPU_Write_Len, which has no
    return statement, were true; and also, by the comparison and whatever the
    results of the data writes were, if every address selection took place and
    the memory port reads the cells selected before. *)
Theorem dmp_firmware_loaded s :
  exists r s', dmp_load_motion_driver_firmware s = Some (r, s') /\
    (r <> 0 -> s'.(chip) = s.(chip)) /\
    (r = 0 -> s.(chip).(dmp_loaded) = 0 /\ s'.(chip).(dmp_loaded) = 1 /\
       s'.(chip).(dmp_sample_rate) = 200 /\
       (exists ok h, s'.(tr) = EvWrite (i2c_addr s.(dev)) (rg Reg.prgm_start_h)
                                 [0x04; 0x00] ok 0 :: h /\
          loaded (i2c_addr s.(dev)) (bus_is_i2c s.(dev)) dmp_memory DMP_CODE_SIZE 0
            s.(tr) h) /\
       (honest s'.(tr) = true ->
          register (rg Reg.prgm_start_h) s'.(tr) = 0x04 /\
          register (rg Reg.prgm_start_h + 1) s'.(tr) = 0x00 /\
          forall k, 0 <= k < DMP_CODE_SIZE -> memory s' !! k = dmp_memory !! Z.to_nat k) /\
       (bus_is_i2c s.(dev) = true -> selected s'.(tr) = true ->
        port_reads s'.(tr) = true ->
          forall k, 0 <= k < DMP_CODE_SIZE ->
            u8 (default 0 (memory s' !! k)) = at_ dmp_memory (Z.to_nat k))).
Proof.
  apply wp_elim. unfold dmp_load_motion_driver_firmware.
  pose proof length_dmp_memory as Hfw. generalize dependent dmp_memory. intros fw Hfw.
  unfold mpu_load_firmware. do 2 wp_step.
  unfold truthy at 1. destruct (dmp_loaded (chip s) =? 0) eqn:E; cbn [negb];
    [|wp_step; split; [done|lia]].
  wp_step. eapply wpg_mono; [|apply wp_load_chunks; unfold DMP_CODE_SIZE in *; lia].
  cbv beta. intros r s1 [Hc1 Hl1]. destruct (truthy r) eqn:Er.
  { wp_step. split; [done|intros ->; done]. }
  apply truthy_false in Er as ->. destruct (Hl1 eq_refl) as [Hd1 Hl].
  wp_step. wp_step. destruct (truthy r) eqn:Er; [split; [done|lia]|].
  apply truthy_false in Er as ->. rewrite Hd1.
  repeat wp_step. split; [done|]. intros _. cbn [on_chip put_chip put_tr chip tr].
  change (take _ _) with [0x04; 0x00].
  change (u8 (rg Reg.prgm_start_h)) with (rg Reg.prgm_start_h).
  assert (dmp_of (EvWrite (i2c_addr (dev s)) (rg Reg.prgm_start_h) [4; 0] ok 0 :: tr s1) =
          dmp_of (tr s1)) as -> by (by destruct ok).
  split_and!; [lia|done|done|by eauto|..].
  - intros [He Hh]%honest_cons. cbn in He. destruct ok; [|done].
    split_and!; [reflexivity|reflexivity|]. intros k Hk.
    rewrite (loaded_honest _ _ _ _ _ _ _ Hl Hh) by (unfold DMP_CODE_SIZE in *; lia).
    by rewrite decide_True by lia.
  - intros Hi Hs Hp k Hk. rewrite Hi in Hl. cbn in Hs, Hp.
    pose proof (loaded_readback _ _ _ _ _ _ Hl Hs Hp ltac:(lia)
                  ltac:(unfold DMP_CODE_SIZE in *; lia) k Hk) as Hm.
    by rewrite decide_True in Hm by lia.
Qed.

End memory.

(** ** A sensor that works

    What the loader may rely on: transfers complete, and the memory port
    returns the cells selected before. *)

Class WorkingSensor `{Env} : Prop := {
  ws_write h m : fst (rt_i2c_transfer h [m]) = 1;
  ws_read h w r : fst (rt_i2c_transfer h [w; r]) = 2;
  ws_port h slave len :
    as_bytes len (snd (rt_i2c_transfer h
      [mk_msg slave RT_I2C_WR 1 [rg Reg.mem_r_w]; mk_msg slave RT_I2C_RD len []])) =
    as_bytes len (fetch (cells (dmp_of h)) (256 * bank (dmp_of h) + ptr (dmp_of h)) len)
}.

Section working.
Context `{Env} `{!WriteReports} `{!WorkingSensor}.

Lemma ws_i2c_write reg len data (Q : Z -> drv -> Prop) s :
  bus_is_i2c s.(dev) = true -> u8 len <= 49 -> u8 len <= Z.of_nat (length data) ->
  (forall x, Q 0 (put_tr (EvWrite (i2c_addr s.(dev)) (u8 reg)
                     (take (Z.to_nat (u8 len)) data) true x :: s.(tr)) s)) ->
  wp (i2c_write reg len data) Q s.
Proof.
  intros Hd Hl1 Hl2 HQ. unfold i2c_write, MPU_Write_Len.
  destruct (_ || _) eqn:E; [lia|]. do 2 wp_step. unfold id. cbv zeta.
  rewrite Hd, ws_write. do 2 wp_step. wp_step.
  replace (u8 (ret_reg (tr s) 1)) with 0 by (symmetry; by apply write_reports).
  apply HQ.
Qed.

Lemma ws_write_mem a len data (Q : Z -> drv -> Prop) s :
  bus_is_i2c s.(dev) = true -> s.(chip).(sensors) <> 0 ->
  0 <= a < 65536 -> 0 <= len <= 49 -> len <= Z.of_nat (length data) ->
  a mod 256 + len <= 256 ->
  (forall s', s'.(chip) = s.(chip) -> s'.(dev) = s.(dev) ->
     memory s' = store a (take (Z.to_nat len) data) (memory s) -> Q 0 s') ->
  wp (mpu_write_mem a len (Some data)) Q s.
Proof.
  intros Hd Haw Ha Hlen Hdata Hb HQ. unfold mpu_write_mem. do 2 wp_step.
  destruct (bank_offset a Ha) as [-> ->]. unfold truthy at 1.
  destruct (sensors (chip s) =? 0) eqn:Eaw; [lia|]. cbn [negb].
  cbv zeta. cbn [Hw.bank_size Hw.hw].
  destruct (256 <? a mod 256 + len) eqn:Eb; [lia|].
  wp_step. apply ws_i2c_write; [done|done|done|]. intros x. cbn [truthy negb Z.eqb].
  wp_step. apply ws_i2c_write; [done|rewrite u8_small; lia..|]. intros y.
  cbn [truthy negb Z.eqb]. wp_step. rewrite (u8_small len) by lia.
  apply HQ; [done|done|]. cbn [put_tr tr].
  rewrite dmp_of_port, dmp_of_select. cbn [bank ptr cells].
  rewrite <- (Z.div_mod a 256) by lia. done.
Qed.

Lemma ws_read_mem a len (Q : Z * list Z -> drv -> Prop) s :
  bus_is_i2c s.(dev) = true -> s.(chip).(sensors) <> 0 ->
  0 <= a < 65536 -> 0 <= len <= 49 -> a mod 256 + len <= 256 ->
  (forall s', s'.(chip) = s.(chip) -> s'.(dev) = s.(dev) -> memory s' = memory s ->
     Q (0, as_bytes len (fetch (memory s) a len)) s') ->
  wp (mpu_read_mem a len (Some [])) Q s.
Proof.
  intros Hd Haw Ha Hlen Hb HQ. unfold mpu_read_mem. do 2 wp_step.
  destruct (bank_offset a Ha) as [-> ->]. unfold truthy at 1.
  destruct (sensors (chip s) =? 0) eqn:Eaw; [lia|]. cbn [negb].
  cbv zeta. cbn [Hw.bank_size Hw.hw].
  destruct (256 <? a mod 256 + len) eqn:Eb; [lia|].
  wp_step. apply ws_i2c_write; [done|done|done|]. intros x. cbn [truthy negb Z.eqb].
  wp_step. unfold i2c_read, MPU_Read_Len. cbv zeta. do 2 wp_step. unfold id.
  cbn [put_tr dev tr]. rewrite Hd, (u8_small len) by lia. change (u8 (rg Reg.mem_r_w)) with (rg Reg.mem_r_w).
  set (h := _ :: tr s). pose proof (ws_port h (i2c_addr (dev s)) len) as Hp.
  pose proof (ws_read h (mk_msg (i2c_addr (dev s)) RT_I2C_WR 1 [rg Reg.mem_r_w])
                (mk_msg (i2c_addr (dev s)) RT_I2C_RD len [])) as Hn.
  destruct (rt_i2c_transfer h _) as [n bytes]. cbn [fst snd] in Hn, Hp. subst n.
  assert (dmp_of h = mk_dmp_dev (a / 256) (a mod 256) (memory s)) as Eh
    by apply dmp_of_select.
  rewrite Eh in Hp. cbn [bank ptr cells] in Hp. rewrite <- (Z.div_mod a 256) in Hp by lia.
  rewrite Hp.
  do 3 wp_step. cbv beta iota. change (truthy (u8 _)) with false. cbv iota.
  wp_step. apply HQ; [done|done|].
  unfold h. cbn [log put_tr tr]. rewrite cells_read. apply cells_select.
Qed.

(** Bytes are unchanged by reading them through the port. *)
Lemma as_bytes_id l :
  Forall (fun b => 0 <= b < 256) l -> as_bytes (Z.of_nat (length l)) l = l.
Proof.
  intros Hl. unfold as_bytes. rewrite Nat2Z.id. apply list_eq. intros i.
  rewrite list_lookup_fmap. destruct (decide (i < length l)%nat) as [Hi|Hi].
  - rewrite lookup_seq_lt by lia. cbn. destruct (lookup_lt_is_Some_2 l i Hi) as [x Hx].
    rewrite Hx. unfold at_. rewrite (nth_lookup_Some _ _ _ _ Hx).
    rewrite u8_small; [done|]. eapply Forall_lookup in Hl; eauto.
  - rewrite lookup_seq_ge, lookup_ge_None_2 by lia. done.
Qed.

Lemma ws_load_chunks fuel fw len ii s :
  bus_is_i2c s.(dev) = true -> s.(chip).(sensors) <> 0 ->
  Forall (fun b => 0 <= b < 256) fw ->
  0 <= ii -> (16 | ii) -> len < 65536 -> len <= Z.of_nat (length fw) ->
  len - ii <= Z.of_nat fuel ->
  wp (load_chunks fuel fw len ii)
     (fun r s' => r = 0 /\ s'.(chip) = s.(chip) /\ s'.(dev) = s.(dev)) s.
Proof.
  intros Hd Haw Hfwb. revert ii s Hd Haw.
  induction fuel as [|fuel IH]; intros ii s Hd Haw Hii [q Hq] Hlen Hfw Hfuel;
    cbn [load_chunks]; (destruct (ii <? len) eqn:E; [|by wp_step]); [lia|].
  unfold LOAD_CHUNK. set (n := Z.min 16 (len - ii)).
  assert (ii mod 256 + n <= 256) as Hbank.
  { assert (ii mod 256 = 16 * (q mod 16)) as ->
      by (rewrite Hq, Z.mul_comm; by apply (Z.mul_mod_distr_l q 16 16)).
    pose proof (Z.mod_pos_bound q 16). lia. }
  set (chunk := take (Z.to_nat n) (drop (Z.to_nat ii) fw)).
  assert (Z.of_nat (length chunk) = n) as Hchunk
    by (unfold chunk; rewrite length_take, length_drop; lia).
  wp_step. apply ws_write_mem; [done|done|lia|lia|rewrite length_drop; lia|done|].
  intros s1 Hc1 Hd1 Hm1. cbn [truthy negb Z.eqb]. fold chunk in Hm1. wp_step.
  apply ws_read_mem; [congruence|congruence|lia|lia|done|].
  intros s2 Hc2 Hd2 Hm2. cbn [truthy negb Z.eqb]. rewrite Hm1.
  pose proof (fetch_store ii chunk (memory s)) as Hf.
  pose proof (as_bytes_id chunk) as Hi. rewrite Hchunk in Hf, Hi.
  rewrite Hf, Hi by (by apply Forall_take, Forall_drop).
  rewrite bool_decide_eq_true_2 by done. rewrite u16_small by lia.
  destruct (decide (ii + 16 <= len)) as [Hl|Hl].
  - replace n with 16 by lia. eapply wpg_mono; [|apply IH; try lia; try congruence].
    + cbv beta. intros r s' (-> & -> & ->). split_and!; congruence.
    + exists (q + 1). lia.
  - replace (ii + n) with len by lia. destruct fuel; cbn [load_chunks];
      rewrite Z.ltb_irrefl; wp_step; split_and!; congruence.
Qed.

(** On a sensor that is awake and works, on an i2c bus, loading the motion
    driver into a DMP without firmware succeeds: every chunk stays within its
    bank, and every comparison finds what was written. *)
Theorem dmp_firmware_load_succeeds s :
  bus_is_i2c s.(dev) = true -> s.(chip).(sensors) <> 0 -> s.(chip).(dmp_loaded) = 0 ->
  exists s', dmp_load_motion_driver_firmware s = Some (0, s') /\
    s'.(chip).(dmp_loaded) = 1.
Proof.
  intros Hd Haw Hl. enough (wp dmp_load_motion_driver_firmware
    (fun r s' => r = 0 /\ s'.(chip).(dmp_loaded) = 1) s) as Hw.
  { apply wp_elim in Hw as (r & s' & Hr & -> & ?). eauto. }
  unfold dmp_load_motion_driver_firmware.
  assert (Forall (fun b => 0 <= b < 256) dmp_memory) as Hb by exact dmp_memory_bytes.
  pose proof length_dmp_memory as Hlen. generalize dependent dmp_memory. intros fw Hb Hlen.
  unfold mpu_load_firmware. do 2 wp_step. rewrite Hl. cbn [truthy negb Z.eqb]. wp_step.
  eapply wpg_mono; [|apply ws_load_chunks; try done; try (unfold DMP_CODE_SIZE in *; lia)].
  2:{ by exists 0. }
  cbv beta. intros r s1 (-> & Hc1 & Hd1). cbn [truthy negb Z.eqb].
  wp_step. apply ws_i2c_write; [congruence|done|done|]. intros x.
  cbn [truthy negb Z.eqb]. repeat wp_step. done.
Qed.

End working.

(** ** A working sensor *)

Definition mem_xfer (h : list event) (msgs : list rt_i2c_msg) : Z * list Z :=
  match msgs with
  | [_] => (1, [])
  | [w; r] =>
      let d := dmp_of h in
      (2, if at_ (m_buf w) 0 =? rg Reg.mem_r_w
          then fetch d.(cells) (256 * d.(bank) + d.(ptr)) (m_len r)
          else sim_read h (at_ (m_buf w) 0) (m_len r))
  | _ => (0, [])
  end.

Definition mem_env : Env := {|
  master_xfer := Some mem_xfer;
  ret_reg := reports;
  uninit := fun _ => 0;
  uninit_float := fun _ => F32.of_Z 0
|}.

Lemma mem_reports : @WriteReports mem_env.
Proof. exact reports_spec. Qed.

Lemma mem_working : @WorkingSensor mem_env.
Proof. by split. Qed.

(** The driver after power-up with the accelerometer and gyroscopes on. *)
Definition mem_awake : drv := mk_drv sim_dev (with_sensors 0x78 (chip (boot sim_dev)))
                                (dmp (boot sim_dev)) [].

Lemma dmp_firmware_load_succeeds_witness :
  exists s', @dmp_load_motion_driver_firmware mem_env mem_awake = Some (0, s') /\
    s'.(chip).(dmp_loaded) = 1.
Proof.
  apply (@dmp_firmware_load_succeeds mem_env mem_reports mem_working mem_awake);
    [reflexivity|discriminate|reflexivity].
Defined.

Definition mem_loaded : drv :=
  match @dmp_load_motion_driver_firmware mem_env mem_awake with
  | Some (_, s') => s' | None => mem_awake end.

(** On the working sensor the loader succeeds, and both conditions hold. *)
Lemma dmp_firmware_loaded_witness :
  (exists r s', @dmp_load_motion_driver_firmware mem_env mem_awake = Some (r, s') /\
    (r = 0 -> honest s'.(tr) = true ->
       forall k, 0 <= k < DMP_CODE_SIZE -> memory s' !! k = dmp_memory !! Z.to_nat k)) /\
  (fst <$> @dmp_load_motion_driver_firmware mem_env mem_awake) = Some 0 /\
  honest (tr mem_loaded) = true /\ selected (tr mem_loaded) = true /\
  port_reads (tr mem_loaded) = true.
Proof.
  split; [|split_and!; vm_compute; reflexivity].
  destruct (@dmp_firmware_loaded mem_env mem_awake) as (r & s' & Hrun & _ & Hok).
  exists r, s'. split; [exact Hrun|]. intros Hr Hh.
  destruct (Hok Hr) as (_ & _ & _ & _ & Hm & _). apply (Hm Hh).
Defined.
