(* ===== verification/DmpSpec.v ===== *)
(** * Packets, quaternions and orientation

    Specifications of the data path: the raw FIFO packets of
    src/eMPL/inv_mpu.c and the DMP packets of
    src/eMPL/inv_mpu_dmp_motion_driver.c decode to what was encoded, the
    plausibility check of the quaternion is exact although it is computed in
    32-bit arithmetic, and the orientation code rotates vectors by the matrix
    it was made from. *)

From stdpp Require Import prelude.
From Stdlib Require Import ZArith Lia.
From S2P Require Import Prelude CFloat MpuData MpuBus InvMpu InvMpuRead DmpImage DmpDriver.
From S2P Require Import MpuDmp SimBus MpuCoherence MpuSystem.
Open Scope Z_scope.
Open Scope c_scope.

(** ** Splitting and joining bytes *)

Lemma land_byte z : Z.land z 0xFF = z mod 256.
Proof. change 0xFF with (Z.ones 8). by rewrite Z.land_ones by lia. Qed.

Lemma be32_nest a b c d : be32 a b c d = be16 (be16 (be16 a b) c) d.
Proof.
  unfold be32, be16. by rewrite !Z.shiftl_lor, !Z.shiftl_shiftl by lia.
Qed.

(** Extending a partial value by the next byte. *)
Lemma mod_byte m v : 0 < m -> 256 * ((v / 256) mod m) + v mod 256 = v mod (256 * m).
Proof. intros Hm. rewrite Z.rem_mul_r by lia. lia. Qed.

Lemma swrap_mod w v : 0 < w -> swrap w (v mod 2 ^ w) = swrap w v.
Proof. intros Hw. unfold swrap. by rewrite Zplus_mod_idemp_l. Qed.

Lemma s16_bytes v :
  - 2 ^ 15 <= v < 2 ^ 15 -> s16 (be16 (Z.land (Z.shiftr v 8) 0xFF) (Z.land v 0xFF)) = v.
Proof.
  intros Hv. rewrite !land_byte, be16_add by (apply Z.mod_pos_bound; lia).
  rewrite Z.shiftr_div_pow2, mod_byte by lia. change (256 * 256) with (2 ^ 16).
  unfold s16. rewrite swrap_mod by lia. by apply swrap_small.
Qed.

Lemma s32_bytes v :
  - 2 ^ 31 <= v < 2 ^ 31 ->
  s32 (be32 (Z.land (Z.shiftr v 24) 0xFF) (Z.land (Z.shiftr v 16) 0xFF)
            (Z.land (Z.shiftr v 8) 0xFF) (Z.land v 0xFF)) = v.
Proof.
  intros Hv. rewrite be32_nest, !land_byte, !be16_add by (apply Z.mod_pos_bound; lia).
  rewrite !Z.shiftr_div_pow2 by lia.
  replace (2 ^ 24) with (2 ^ 8 * 2 ^ 8 * 2 ^ 8) by done.
  replace (2 ^ 16) with (2 ^ 8 * 2 ^ 8) by done.
  rewrite <- !Z.div_div by lia. change (2 ^ 8) with 256.
  rewrite !mod_byte by lia. change (256 * (256 * (256 * 256))) with (2 ^ 32).
  unfold s32. rewrite swrap_mod by lia. by apply swrap_small.
Qed.

Definition int16 (v : Z) : Prop := - 2 ^ 15 <= v < 2 ^ 15.
Definition int32 (v : Z) : Prop := - 2 ^ 31 <= v < 2 ^ 31.

(** ** The quaternion check *)

Lemma s32_add_l x y : s32 (s32 x + y) = s32 (x + y).
Proof.
  unfold s32, swrap. f_equal.
  replace ((x + _) mod _ - _ + y + _) with ((x + 2 ^ (32 - 1)) mod 2 ^ 32 + y) by lia.
  rewrite Zplus_mod_idemp_l. f_equal. lia.
Qed.

Lemma s32_add_r x y : s32 (x + s32 y) = s32 (x + y).
Proof. by rewrite Z.add_comm, s32_add_l, Z.add_comm. Qed.

Lemma s32_sum4 a b c d :
  s32 (s32 (s32 (s32 a + s32 b) + s32 c) + s32 d) = s32 (a + b + c + d).
Proof.
  assert (forall x y, s32 (s32 x + s32 y) = s32 (x + y)) as E
    by (intros; by rewrite s32_add_l, s32_add_r).
  by rewrite (E a b), (E _ c), E.
Qed.

(** The squared magnitude without overflow. *)
Definition mag_sq (quat : list Z) : Z :=
  let sq i := Z.shiftr (at_ quat i) 16 ^ 2 in
  sq 0%nat + sq 1%nat + sq 2%nat + sq 3%nat.

Lemma sq_bound v : int32 v -> 0 <= Z.shiftr v 16 ^ 2 <= 2 ^ 30.
Proof.
  intros Hv. unfold int32 in Hv. rewrite Z.shiftr_div_pow2 by lia. rewrite Z.pow_2_r.
  assert (- 2 ^ 15 <= v / 2 ^ 16) by (apply Z.div_le_lower_bound; lia).
  assert (v / 2 ^ 16 < 2 ^ 15) by (apply Z.div_lt_upper_bound; lia). nia.
Qed.

(** The plausibility check of [dmp_read_fifo] accepts a quaternion exactly
    when its squared magnitude, computed without overflow, is within the error
    threshold of 1, although the code computes it in 32-bit arithmetic, where
    the sum of four squares can wrap around. *)
Theorem quat_check_exact quat :
  Forall int32 quat ->
  quat_ok quat = true <-> QUAT_MAG_SQ_MIN <= mag_sq quat <= QUAT_MAG_SQ_MAX.
Proof.
  intros Hq.
  assert (forall i, int32 (at_ quat i)) as Hi.
  { intros i. unfold at_. destruct (nth_lookup_or_length quat i 0) as [E|E].
    - eapply Forall_lookup_1 in Hq; eauto.
    - rewrite nth_overflow by done. done. }
  assert (quat_mag_sq quat = s32 (mag_sq quat)) as Hs.
  { unfold quat_mag_sq, mag_sq. cbv zeta.
    by rewrite s32_sum4, !Z.pow_2_r. }
  pose proof (sq_bound _ (Hi 0%nat)). pose proof (sq_bound _ (Hi 1%nat)).
  pose proof (sq_bound _ (Hi 2%nat)). pose proof (sq_bound _ (Hi 3%nat)).
  assert (0 <= mag_sq quat <= 2 ^ 32) as Hb by (unfold mag_sq; lia).
  unfold quat_ok. rewrite Hs. clear Hs. generalize dependent (mag_sq quat). intros m Hm.
  change QUAT_MAG_SQ_MIN with 251658240. change QUAT_MAG_SQ_MAX with 285212672.
  assert (s32 m = m \/ 2 ^ 31 <= m /\ s32 m <= 0) as [E|[? ?]].
  { destruct (decide (m < 2 ^ 31)); [left; apply s32_small; lia|right; split; [lia|]].
    unfold s32, swrap. change (2 ^ (32 - 1)) with (2 ^ 31).
    replace (m + 2 ^ 31) with (m - 2 ^ 31 + 1 * 2 ^ 32) by lia.
    rewrite Z.mod_add by lia.
    pose proof (Z.mod_le (m - 2 ^ 31) (2 ^ 32)). lia. }
  - rewrite E. lia.
  - lia.
Qed.

Lemma quat_check_exact_witness :
  quat_ok [0x40000000; 0; 0; 0] = true <->
  QUAT_MAG_SQ_MIN <= mag_sq [0x40000000; 0; 0; 0] <= QUAT_MAG_SQ_MAX.
Proof. apply quat_check_exact. repeat constructor; done. Defined.

(** ** Raw packets *)

Definition bytes3 (v : list Z) : list Z :=
  bytes16 (at_ v 0) ++ bytes16 (at_ v 1) ++ bytes16 (at_ v 2).

(** The bytes the FIFO holds for one sample of the enabled sensors. *)
Definition raw_packet (mask : Z) (gyro accel : list Z) : list Z :=
  (if has mask INV_XYZ_ACCEL then bytes3 accel else []) ++
  (if has mask INV_X_GYRO then bytes16 (at_ gyro 0) else []) ++
  (if has mask INV_Y_GYRO then bytes16 (at_ gyro 1) else []) ++
  (if has mask INV_Z_GYRO then bytes16 (at_ gyro 2) else []).

(** The sensors a mask enables. *)
Definition sensors_of (mask : Z) : Z :=
  Z.lor (if has mask INV_XYZ_ACCEL then INV_XYZ_ACCEL else 0)
  (Z.lor (if has mask INV_X_GYRO then INV_X_GYRO else 0)
  (Z.lor (if has mask INV_Y_GYRO then INV_Y_GYRO else 0)
         (if has mask INV_Z_GYRO then INV_Z_GYRO else 0))).

Definition triple (P : Z -> Prop) (v : list Z) : Prop :=
  exists a b c, v = [a; b; c] /\ P a /\ P b /\ P c.

Lemma length_raw_packet mask gyro accel :
  Z.of_nat (length (raw_packet mask gyro accel)) = raw_packet_size mask.
Proof.
  unfold raw_packet, raw_packet_size.
  by destruct (has mask INV_XYZ_ACCEL), (has mask INV_X_GYRO), (has mask INV_Y_GYRO),
    (has mask INV_Z_GYRO).
Qed.

Lemma sample_bytes v rest : int16 v -> sample (bytes16 v ++ rest) 0 = v.
Proof. intros Hv. by apply s16_bytes. Qed.

Lemma sample_skip a b d i : sample (a :: b :: d) (S (S i)) = sample d i.
Proof. done. Qed.

(** Enabled axes are delivered, the others keep their content. *)
Definition pick (b : bool) (new old : Z) : Z := if b then new else old.

Lemma parse_raw_packet_spec mask gyro accel g0 g1 g2 a rest :
  triple int16 gyro -> triple int16 accel ->
  parse_raw_packet mask (raw_packet_size mask) (raw_packet mask gyro accel ++ rest)
    [g0; g1; g2] a =
  (sensors_of mask,
   [pick (has mask INV_X_GYRO) (at_ gyro 0) g0; pick (has mask INV_Y_GYRO) (at_ gyro 1) g1;
    pick (has mask INV_Z_GYRO) (at_ gyro 2) g2],
   if has mask INV_XYZ_ACCEL then accel else a).
Proof.
  intros (x & y & z & -> & Hx & Hy & Hz) (p & q & r & -> & Hp & Hq & Hr).
  unfold parse_raw_packet, raw_packet, raw_packet_size, sensors_of, pick, bytes3, sample3.
  destruct (has mask INV_XYZ_ACCEL), (has mask INV_X_GYRO), (has mask INV_Y_GYRO),
    (has mask INV_Z_GYRO); unfold sample;
  cbv -[Z.land Z.shiftr Z.lor s16 be16];
  rewrite ?s16_bytes by done; reflexivity.
Qed.

Section fifo.
Context `{Env}.

(** When the FIFO holds at least one packet and is at most half full, and
    delivers the bytes of a sample, [mpu_read_fifo] returns that sample for
    every sensor enabled in the FIFO, leaves the outputs of the others alone,
    reports exactly the enabled sensors, and counts the packets left. *)
Theorem raw_fifo_roundtrip mask gyro accel g0 g1 g2 a hi lo o s s1 s2 :
  s.(chip).(dmp_on) = 0 -> s.(chip).(sensors) <> 0 ->
  s.(chip).(fifo_enable) = mask -> mask <> 0 -> raw_packet_size mask <> 0 ->
  triple int16 gyro -> triple int16 accel ->
  o.(fo_gyro) = [g0; g1; g2] -> o.(fo_accel) = a ->
  i2c_read (rg Reg.fifo_count_h) 2 s = Some ((0, [hi; lo]), s1) ->
  raw_packet_size mask <= be16 hi lo <= 512 ->
  i2c_read (rg Reg.fifo_r_w) (raw_packet_size mask) s1 =
    Some ((0, raw_packet mask gyro accel), s2) ->
  mpu_read_fifo o s = Some
    ((0, mk_fifo_out
           [pick (has mask INV_X_GYRO) (at_ gyro 0) g0;
            pick (has mask INV_Y_GYRO) (at_ gyro 1) g1;
            pick (has mask INV_Z_GYRO) (at_ gyro 2) g2]
           (if has mask INV_XYZ_ACCEL then accel else a)
           o.(fo_timestamp) (sensors_of mask)
           (u8 (Z.quot (be16 hi lo) (raw_packet_size mask) - 1))), s2).
Proof.
  intros Hd Haw Hm Hm0 Hsz Hg Ha Hog Hoa Hcnt Hfill Hpkt.
  unfold mpu_read_fifo, try_out, bind at 1, gets. rewrite Hd, Hm.
  unfold truthy at 1 2 3. cbn [Z.eqb negb].
  destruct (sensors (chip s) =? 0) eqn:E1; [lia|].
  destruct (mask =? 0) eqn:E2; [lia|]. cbn [negb]. cbv zeta.
  unfold bind at 1. rewrite Hcnt. cbn [truthy negb Z.eqb at_ nth].
  destruct (be16 hi lo <? raw_packet_size mask) eqn:E3; [lia|].
  change (Z.shiftr (Hw.max_fifo Hw.hw) 1) with 512.
  destruct (512 <? be16 hi lo) eqn:E4; [lia|].
  unfold bind at 1. rewrite Hpkt. cbn [truthy negb Z.eqb fo_gyro fo_accel].
  unfold bind, cdiv. destruct (raw_packet_size mask =? 0) eqn:E5; [lia|]. unfold ret.
  rewrite Hog, Hoa. pose proof (parse_raw_packet_spec mask gyro accel g0 g1 g2 a []) as Hp.
  rewrite app_nil_r in Hp. by rewrite Hp.
Qed.

End fifo.

(** ** DMP packets *)

Definition QUAT_FEATURES : Z := Z.lor DMP_FEATURE_LP_QUAT DMP_FEATURE_6X_LP_QUAT.
Definition GESTURE_FEATURES : Z := Z.lor DMP_FEATURE_TAP DMP_FEATURE_ANDROID_ORIENT.

(** The bytes of a packet: quaternion, accelerometer, gyroscope, gesture. *)
Definition dmp_packet (mask : Z) (quat accel gyro gesture : list Z) : list Z :=
  (if has mask QUAT_FEATURES
   then bytes32 (at_ quat 0) ++ bytes32 (at_ quat 1) ++
        bytes32 (at_ quat 2) ++ bytes32 (at_ quat 3) else []) ++
  (if has mask DMP_FEATURE_SEND_RAW_ACCEL then bytes3 accel else []) ++
  (if has mask DMP_FEATURE_SEND_ANY_GYRO then bytes3 gyro else []) ++
  (if has mask GESTURE_FEATURES then gesture else []).

(** The callbacks a gesture word triggers, newest first. *)
Definition gesture_events (d : dmp_s) (mask : Z) (g : list Z) : list event :=
  if has mask GESTURE_FEATURES then
    (if has (at_ g 1) INT_SRC_ANDROID_ORIENT && d.(android_orient_cb)
     then [EvOrient (Z.shiftr (Z.land (at_ g 3) 0xC0) 6)] else []) ++
    (if has (at_ g 1) INT_SRC_TAP && d.(tap_cb)
     then [EvTap (Z.shiftr (Z.land 0x3F (at_ g 3)) 3) (Z.land 0x3F (at_ g 3) mod 8 + 1)]
     else [])
  else [].

Definition dmp_sensors_of (mask : Z) : Z :=
  Z.lor (if has mask QUAT_FEATURES then INV_WXYZ_QUAT else 0)
  (Z.lor (if has mask DMP_FEATURE_SEND_RAW_ACCEL then INV_XYZ_ACCEL else 0)
         (if has mask DMP_FEATURE_SEND_ANY_GYRO then INV_XYZ_GYRO else 0)).

Lemma length_dmp_packet mask quat accel gyro gesture :
  length gesture = 4%nat ->
  Z.of_nat (length (dmp_packet mask quat accel gyro gesture)) = dmp_packet_length mask.
Proof.
  intros Hg. unfold dmp_packet, dmp_packet_length. fold QUAT_FEATURES GESTURE_FEATURES.
  rewrite !length_app.
  destruct (has mask QUAT_FEATURES), (has mask DMP_FEATURE_SEND_RAW_ACCEL),
    (has mask DMP_FEATURE_SEND_ANY_GYRO), (has mask GESTURE_FEATURES);
    rewrite ?Hg; reflexivity.
Qed.

(** A DMP packet fits the buffer of [dmp_read_fifo]. *)
Lemma dmp_packet_length_bound mask : 0 <= dmp_packet_length mask <= DMP_MAX_PACKET_LENGTH.
Proof.
  unfold dmp_packet_length, DMP_MAX_PACKET_LENGTH.
  destruct (has mask DMP_FEATURE_SEND_RAW_ACCEL), (has mask DMP_FEATURE_SEND_ANY_GYRO),
    (has mask (Z.lor DMP_FEATURE_LP_QUAT _)), (has mask (Z.lor DMP_FEATURE_TAP _)); lia.
Qed.

Section dmp_fifo.
Context `{Env}.

(** The stream reader on a FIFO that is at most half full. *)
Lemma read_fifo_stream_ok len data more hi lo packet s s1 s2 :
  s.(chip).(dmp_on) <> 0 -> s.(chip).(sensors) <> 0 ->
  0 < len <= Z.of_nat (length data) -> len < 256 ->
  i2c_read (rg Reg.fifo_count_h) 2 s = Some ((0, [hi; lo]), s1) ->
  len <= be16 hi lo <= 512 ->
  i2c_read (rg Reg.fifo_r_w) len s1 = Some ((0, packet), s2) ->
  mpu_read_fifo_stream len data more s =
    Some ((0, (packet ++ drop (length packet) data, u8 (Z.quot (be16 hi lo) len - 1))), s2).
Proof.
  intros Hd Haw Hlen Hlen' Hcnt Hfill Hpkt.
  unfold mpu_read_fifo_stream, try_out, bind at 1, gets. unfold truthy at 1 2.
  destruct (dmp_on (chip s) =? 0) eqn:E1; [lia|].
  destruct (sensors (chip s) =? 0) eqn:E2; [lia|]. cbn [negb]. cbv zeta.
  unfold bind at 1. rewrite Hcnt. cbn [truthy negb Z.eqb at_ nth].
  destruct (be16 hi lo <? len) eqn:E3; [lia|].
  change (Z.shiftr (Hw.max_fifo Hw.hw) 1) with 512.
  destruct (512 <? be16 hi lo) eqn:E4; [lia|]. rewrite u8_small by lia.
  destruct (Z.of_nat (length data) <? len) eqn:E5; [lia|].
  unfold bind at 1. rewrite Hpkt. cbn [truthy negb Z.eqb].
  unfold bind, cdiv. by destruct (len =? 0) eqn:E6; [lia|].
Qed.

Lemma at_app pre l i : at_ (pre ++ l) (length pre + i) = at_ l i.
Proof. unfold at_. rewrite app_nth2 by lia. f_equal. lia. Qed.

Lemma sample3_app pre v rest :
  triple int16 v -> sample3 (pre ++ bytes3 v ++ rest) (length pre) = v.
Proof.
  intros (a & b & c & -> & Ha & Hb & Hc). unfold sample3, sample.
  rewrite <- !Nat.add_assoc, <- (Nat.add_0_r (length pre)) at 1.
  rewrite !at_app. cbn -[Z.land Z.shiftr s16 be16]. by rewrite !s16_bytes.
Qed.

Lemma length_bytes3 v : length (bytes3 v) = 6%nat.
Proof. done. Qed.

(** The events of one gesture word. *)
Lemma decode_gesture_spec g rest s :
  length g = 4%nat ->
  decode_gesture (g ++ rest) s =
  Some (0, put_tr (gesture_events s.(dmp) GESTURE_FEATURES g ++ s.(tr)) s).
Proof.
  intros Hg. destruct g as [|g0 [|g1 [|g2 [|g3 [|]]]]]; try done.
  unfold decode_gesture, gesture_events.
  change (has GESTURE_FEATURES GESTURE_FEATURES) with true. cbn [at_ nth app].
  unfold bind, gets, when, log, modify, ret.
  destruct (has g1 INT_SRC_TAP && tap_cb (dmp s)); cbn [put_tr dmp tr app];
    destruct (has g1 INT_SRC_ANDROID_ORIENT && android_orient_cb (dmp s));
    cbn [put_tr dmp tr app]; [done|done|done|by destruct s].
Qed.

(** The parser after the quaternion. *)
Lemma parse_motion_spec mask accel gyro gesture pre rest ii o s :
  triple int16 accel -> triple int16 gyro -> length gesture = 4%nat -> ii = length pre ->
  parse_motion mask
    (pre ++ (if has mask DMP_FEATURE_SEND_RAW_ACCEL then bytes3 accel else []) ++
       (if has mask DMP_FEATURE_SEND_ANY_GYRO then bytes3 gyro else []) ++
       (if has mask GESTURE_FEATURES then gesture else []) ++ rest) ii o s =
  Some ((0, mk_dmp_out
              (if has mask DMP_FEATURE_SEND_ANY_GYRO then gyro else o.(do_gyro))
              (if has mask DMP_FEATURE_SEND_RAW_ACCEL then accel else o.(do_accel))
              o.(do_quat) o.(do_timestamp)
              (Z.lor o.(do_sensors)
                 (Z.lor (if has mask DMP_FEATURE_SEND_RAW_ACCEL then INV_XYZ_ACCEL else 0)
                    (if has mask DMP_FEATURE_SEND_ANY_GYRO then INV_XYZ_GYRO else 0)))
              o.(do_more)),
        put_tr (gesture_events s.(dmp) mask gesture ++ s.(tr)) s).
Proof.
  intros Ha Hy Hg ->. unfold parse_motion. fold GESTURE_FEATURES.
  set (tail := (if has mask GESTURE_FEATURES then gesture else []) ++ rest).
  assert (forall front n data s, n = length front -> data = front ++ tail ->
      when (has mask GESTURE_FEATURES) (decode_gesture (drop n data) ;;; ret tt) s =
      Some (tt, put_tr (gesture_events s.(dmp) mask gesture ++ s.(tr)) s)) as Hges.
  { intros front n data s' -> ->. unfold tail. rewrite drop_app_length.
    unfold gesture_events. destruct (has mask GESTURE_FEATURES); cbn [when].
    - unfold bind. by rewrite decode_gesture_spec.
    - unfold ret. by destruct s'. }
  unfold bind at 1. destruct (has mask DMP_FEATURE_SEND_RAW_ACCEL).
  - rewrite sample3_app by done. destruct (has mask DMP_FEATURE_SEND_ANY_GYRO); cbn [app].
    + rewrite (Hges (pre ++ bytes3 accel ++ bytes3 gyro))
        by (rewrite ?length_app, <- ?app_assoc, ?length_bytes3; (lia || done)).
      unfold ret. rewrite (app_assoc pre).
      replace (length pre + 6)%nat with (length (pre ++ bytes3 accel)) by (by rewrite length_app).
      rewrite sample3_app by done. do 3 f_equal. by rewrite Z.lor_assoc.
    + rewrite (Hges (pre ++ bytes3 accel))
        by (rewrite ?length_app, <- ?app_assoc, ?length_bytes3; (lia || done)).
      by rewrite Z.lor_0_r.
  - cbn [app]. destruct (has mask DMP_FEATURE_SEND_ANY_GYRO); cbn [app].
    + rewrite (Hges (pre ++ bytes3 gyro))
        by (rewrite ?length_app, <- ?app_assoc, ?length_bytes3; (lia || done)).
      by rewrite sample3_app.
    + rewrite (Hges pre) by done. by rewrite !Z.lor_0_r.
Qed.

Lemma quat_at_packet q0 q1 q2 q3 rest :
  int32 q0 -> int32 q1 -> int32 q2 -> int32 q3 ->
  let d := (bytes32 q0 ++ bytes32 q1 ++ bytes32 q2 ++ bytes32 q3) ++ rest in
  [quat_at d 0; quat_at d 4; quat_at d 8; quat_at d 12] = [q0; q1; q2; q3].
Proof.
  intros H0 H1 H2 H3. unfold quat_at. cbn -[Z.land Z.shiftr s32 be32].
  by rewrite !s32_bytes.
Qed.

(** The bytes of a quaternion, as the parser sees them. *)
Lemma quat_bytes_spec q0 q1 q2 q3 :
  int32 q0 -> int32 q1 -> int32 q2 -> int32 q3 ->
  let q := [q0; q1; q2; q3] in
  exists pre,
    bytes32 (at_ q 0) ++ bytes32 (at_ q 1) ++ bytes32 (at_ q 2) ++ bytes32 (at_ q 3) = pre /\
    16%nat = length pre /\
    forall rest, [quat_at (pre ++ rest) 0; quat_at (pre ++ rest) 4; quat_at (pre ++ rest) 8;
                  quat_at (pre ++ rest) 12] = q.
Proof.
  intros. eexists. split; [reflexivity|]. split; [done|]. intros rest.
  by apply quat_at_packet.
Qed.

Definition quadruple (P : Z -> Prop) (v : list Z) : Prop :=
  exists a b c d, v = [a; b; c; d] /\ P a /\ P b /\ P c /\ P d.

(** What the DMP delivers: its FIFO holds a packet of the enabled features and
    is at most half full. *)
Record delivers (mask : Z) (packet : list Z) (hi lo : Z) (s s1 s2 : drv) : Prop := {
  dl_on : s.(chip).(dmp_on) <> 0;
  dl_awake : s.(chip).(sensors) <> 0;
  dl_mask : s.(dmp).(feature_mask) = mask;
  dl_length : s.(dmp).(packet_length) = dmp_packet_length mask;
  dl_some : dmp_packet_length mask <> 0;
  dl_count : i2c_read (rg Reg.fifo_count_h) 2 s = Some ((0, [hi; lo]), s1);
  dl_fill : dmp_packet_length mask <= be16 hi lo <= 512;
  dl_packet : i2c_read (rg Reg.fifo_r_w) (dmp_packet_length mask) s1 = Some ((0, packet), s2)
}.

Lemma dmp_stream mask packet hi lo x more s s1 s2 :
  delivers mask packet hi lo s s1 s2 ->
  exists rest,
  mpu_read_fifo_stream (packet_length (dmp s))
    (replicate (Z.to_nat DMP_MAX_PACKET_LENGTH) x) more s =
  Some ((0, (packet ++ rest,
             u8 (Z.quot (be16 hi lo) (dmp_packet_length mask) - 1))), s2).
Proof.
  intros []. rewrite dl_length0. eexists.
  pose proof (dmp_packet_length_bound mask). unfold DMP_MAX_PACKET_LENGTH in *.
  eapply read_fifo_stream_ok; eauto; rewrite ?length_replicate; lia.
Qed.

(** [dmp_read_fifo] once the stream has delivered: the three continuations. *)
Section after_stream.
Variables (o : dmp_out) (s s2 : drv) (mask : Z) (data quat : list Z) (more : Z).
Hypothesis stream_ok :
  mpu_read_fifo_stream (packet_length (dmp s))
    (replicate (Z.to_nat DMP_MAX_PACKET_LENGTH) (u8 (uninit (tr s)))) o.(do_more) s =
    Some ((0, (data, more)), s2).
Hypothesis mask_ok : s.(dmp).(feature_mask) = mask.

Lemma read_without_quat :
  has mask QUAT_FEATURES = false ->
  dmp_read_fifo o s = parse_motion mask data 0
    (mk_dmp_out o.(do_gyro) o.(do_accel) o.(do_quat) o.(do_timestamp) 0 more) s2.
Proof.
  intros Hq. unfold dmp_read_fifo, bind at 1 2, gets. unfold bind at 1.
  cbn [do_more]. rewrite stream_ok, mask_ok. fold QUAT_FEATURES. rewrite Hq. reflexivity.
Qed.

Hypothesis with_quat : has mask QUAT_FEATURES = true.
Hypothesis quat_data :
  [quat_at data 0; quat_at data 4; quat_at data 8; quat_at data 12] = quat.

Lemma read_good_quat :
  quat_ok quat = true ->
  dmp_read_fifo o s = parse_motion mask data 16
    (mk_dmp_out o.(do_gyro) o.(do_accel) quat o.(do_timestamp) INV_WXYZ_QUAT more) s2.
Proof.
  intros Hok. unfold dmp_read_fifo, bind at 1 2, gets. unfold bind at 1.
  cbn [do_more]. rewrite stream_ok, mask_ok. fold QUAT_FEATURES.
  rewrite with_quat, quat_data, Hok. reflexivity.
Qed.

Lemma read_bad_quat r s3 :
  quat_ok quat = false -> mpu_reset_fifo s2 = Some (r, s3) ->
  dmp_read_fifo o s =
    Some ((-1, mk_dmp_out o.(do_gyro) o.(do_accel) quat o.(do_timestamp) 0 more), s3).
Proof.
  intros Hok Hr. unfold dmp_read_fifo, bind at 1 2, gets. unfold bind at 1.
  cbn [do_more]. rewrite stream_ok, mask_ok. fold QUAT_FEATURES.
  rewrite with_quat, quat_data, Hok. cbn [truthy negb Z.eqb]. unfold bind. by rewrite Hr.
Qed.
End after_stream.

(** C11: when the DMP's FIFO delivers a packet whose quaternion, if there is
    one, passes the check, [dmp_read_fifo] returns exactly the quaternion,
    acceleration and rotation that were encoded, leaves the outputs of disabled
    features alone, reports which data are valid, counts the packets left, and
    calls the tap and orientation callbacks for the gesture word; what the
    rest of its buffer holds does not matter. *)
Theorem dmp_packet_roundtrip mask quat accel gyro gesture hi lo o s s1 s2 :
  delivers mask (dmp_packet mask quat accel gyro gesture) hi lo s s1 s2 ->
  quadruple int32 quat -> triple int16 accel -> triple int16 gyro ->
  length gesture = 4%nat ->
  (has mask QUAT_FEATURES = true -> quat_ok quat = true) ->
  dmp_read_fifo o s = Some
    ((0, mk_dmp_out
           (if has mask DMP_FEATURE_SEND_ANY_GYRO then gyro else o.(do_gyro))
           (if has mask DMP_FEATURE_SEND_RAW_ACCEL then accel else o.(do_accel))
           (if has mask QUAT_FEATURES then quat else o.(do_quat))
           o.(do_timestamp) (dmp_sensors_of mask)
           (u8 (Z.quot (be16 hi lo) (dmp_packet_length mask) - 1))),
     put_tr (gesture_events s2.(dmp) mask gesture ++ s2.(tr)) s2).
Proof.
  intros Hd (q0 & q1 & q2 & q3 & -> & H0 & H1 & H2 & H3) Ha Hy Hg Hok.
  destruct (dmp_stream _ _ _ _ (u8 (uninit (tr s))) (do_more o) _ _ _ Hd) as [rest Hs].
  destruct (quat_bytes_spec q0 q1 q2 q3) as (pre & Hpre & Hlen & Hq); try done.
  unfold dmp_packet in Hs. rewrite Hpre, <- !app_assoc in Hs. unfold dmp_sensors_of.
  destruct (has mask QUAT_FEATURES) eqn:Eq.
  - rewrite (read_good_quat _ _ _ _ _ _ _ Hs (dl_mask _ _ _ _ _ _ _ Hd) Eq (Hq _)
      (Hok eq_refl)).
    by rewrite (parse_motion_spec mask accel gyro gesture pre rest 16).
  - rewrite (read_without_quat _ _ _ _ _ _ Hs (dl_mask _ _ _ _ _ _ _ Hd) Eq).
    by rewrite (parse_motion_spec mask accel gyro gesture [] rest 0).
Qed.

(** When the quaternion of a delivered packet fails the check,
    [dmp_read_fifo] reports an error and no valid sensor, leaves acceleration
    and rotation alone, and its last action is the reset of the FIFO. *)
Theorem dmp_bad_quaternion_rejected mask quat accel gyro gesture hi lo o s s1 s2 :
  delivers mask (dmp_packet mask quat accel gyro gesture) hi lo s s1 s2 ->
  quadruple int32 quat -> length gesture = 4%nat ->
  has mask QUAT_FEATURES = true -> quat_ok quat = false ->
  forall r s3, mpu_reset_fifo s2 = Some (r, s3) ->
  dmp_read_fifo o s = Some
    ((-1, mk_dmp_out o.(do_gyro) o.(do_accel) quat o.(do_timestamp) 0
            (u8 (Z.quot (be16 hi lo) (dmp_packet_length mask) - 1))), s3).
Proof.
  intros Hd (q0 & q1 & q2 & q3 & -> & H0 & H1 & H2 & H3) Hg Eq Hok r s3 Hr.
  destruct (dmp_stream _ _ _ _ (u8 (uninit (tr s))) (do_more o) _ _ _ Hd) as [rest Hs].
  destruct (quat_bytes_spec q0 q1 q2 q3) as (pre & Hpre & Hlen & Hq); try done.
  unfold dmp_packet in Hs. rewrite Eq, Hpre, <- !app_assoc in Hs.
  exact (read_bad_quat _ _ _ _ _ _ _ Hs (dl_mask _ _ _ _ _ _ _ Hd) Eq (Hq _) _ _ Hok Hr).
Qed.

End dmp_fifo.

(** ** The contracts on a concrete FIFO *)

(** A FIFO with [count] bytes that delivers [packet]. *)
Definition fifo_xfer (count : Z) (packet : list Z) (h : list event)
    (msgs : list rt_i2c_msg) : Z * list Z :=
  match msgs with
  | [_] => (1, [])
  | [w; r] => (2, if at_ (m_buf w) 0 =? rg Reg.fifo_count_h then bytes16 count else packet)
  | _ => (0, [])
  end.

Definition fifo_env (count : Z) (packet : list Z) : Env := {|
  master_xfer := Some (fifo_xfer count packet);
  ret_reg := reports;
  uninit := fun _ => 0;
  uninit_float := fun _ => F32.of_Z 0
|}.

Definition raw_state : drv :=
  mk_drv sim_dev (with_fifo_enable 0x78 (with_sensors 0x78 (chip (boot sim_dev))))
    (dmp (boot sim_dev)) [].

Definition gyro_sample : list Z := [1; -2; 3].
Definition accel_sample : list Z := [4; 5; -600].
Definition unit_quat : list Z := [0x40000000; 0; 0; 0].

Lemma gyro_sample_ok : triple int16 gyro_sample.
Proof. by exists 1, (-2), 3. Qed.
Lemma accel_sample_ok : triple int16 accel_sample.
Proof. by exists 4, 5, (-600). Qed.
Lemma unit_quat_ok : quadruple int32 unit_quat.
Proof. by exists 0x40000000, 0, 0, 0. Qed.

(** The states after the two reads of a packet of [len] bytes. *)
Definition after_count (e : Env) (s : drv) : drv :=
  run_from (@i2c_read e (rg Reg.fifo_count_h) 2) s.
Definition after_packet (e : Env) (len : Z) (s : drv) : drv :=
  run_from (@i2c_read e (rg Reg.fifo_r_w) len) (after_count e s).

Lemma raw_fifo_roundtrip_witness :
  exists s', @mpu_read_fifo (fifo_env 24 (raw_packet 0x78 gyro_sample accel_sample))
    (mk_fifo_out [0; 0; 0] [0; 0; 0] 0 0 0) raw_state =
  Some ((0, mk_fifo_out [1; -2; 3] [4; 5; -600] 0 0x78 1), s').
Proof.
  set (e := fifo_env 24 (raw_packet 0x78 gyro_sample accel_sample)).
  exists (after_packet e 12 raw_state).
  etransitivity.
  - apply (@raw_fifo_roundtrip e 0x78 gyro_sample accel_sample 0 0 0 [0; 0; 0] 0 24 _ _
             (after_count e raw_state) (after_packet e 12 raw_state));
      try reflexivity; try discriminate;
      [apply gyro_sample_ok|apply accel_sample_ok|vm_compute; split; discriminate].
  - vm_compute. reflexivity.
Defined.

(** The state after the clock's start-up: features enabled, DMP on. *)
Definition dmp_state : drv :=
  mk_drv sim_dev (with_dmp_on 1 (with_sensors 0x78 (chip (boot sim_dev))))
    (with_packet_length 32 (with_feature_mask dmp_features
       (with_tap_cb true (dmp (boot sim_dev))))) [].

Definition tap_gesture : list Z := [0; 1; 0; 0x11].

Definition dmp_env (quat : list Z) : Env :=
  fifo_env 64 (dmp_packet dmp_features quat accel_sample gyro_sample tap_gesture).

Definition delivers_to (quat : list Z) : Prop :=
  @delivers (dmp_env quat) dmp_features
    (dmp_packet dmp_features quat accel_sample gyro_sample tap_gesture) 0 64
    dmp_state (after_count (dmp_env quat) dmp_state)
    (after_packet (dmp_env quat) 32 dmp_state).

Lemma unit_quat_delivered : delivers_to unit_quat.
Proof. split; try reflexivity; try discriminate. vm_compute. split; discriminate. Qed.

Lemma bad_quat_delivered : delivers_to [1; 0; 0; 0].
Proof. split; try reflexivity; try discriminate. vm_compute. split; discriminate. Qed.

Lemma dmp_packet_roundtrip_witness :
  exists s', @dmp_read_fifo (dmp_env unit_quat) (mk_dmp_out [] [] [] 0 0 0) dmp_state =
  Some ((0, mk_dmp_out [1; -2; 3] [4; 5; -600] unit_quat 0 0x178 1), s').
Proof.
  eexists.
  exact (@dmp_packet_roundtrip _ dmp_features unit_quat accel_sample gyro_sample tap_gesture
    0 64 (mk_dmp_out [] [] [] 0 0 0) dmp_state _ _ unit_quat_delivered unit_quat_ok
    accel_sample_ok gyro_sample_ok eq_refl (fun _ => eq_refl)).
Defined.

Lemma dmp_bad_quaternion_rejected_witness :
  exists s', @dmp_read_fifo (dmp_env [1; 0; 0; 0]) (mk_dmp_out [] [] [] 0 0 0) dmp_state =
  Some ((-1, mk_dmp_out [] [] [1; 0; 0; 0] 0 0 1), s').
Proof.
  set (e := dmp_env [1; 0; 0; 0]).
  exists (run_from (@mpu_reset_fifo e) (after_packet e 32 dmp_state)).
  apply (@dmp_bad_quaternion_rejected e dmp_features [1; 0; 0; 0] accel_sample gyro_sample
    tap_gesture 0 64 (mk_dmp_out [] [] [] 0 0 0) dmp_state _ _ bad_quat_delivered)
    with (r := 0);
    [by exists 1, 0, 0, 0|reflexivity..|vm_compute; reflexivity].
Defined.
