(* ===== verification/Orientation.v ===== *)
(** * Mounting orientation

    The orientation code of src/eMPL/inv_mpu.c
    ([inv_orientation_matrix_to_scalar]) and its use by
    src/eMPL/inv_mpu_dmp_motion_driver.c: for every mounting matrix, a signed
    permutation of the axes, turning a vector with the code is multiplying it
    by the matrix. *)

From stdpp Require Import prelude.
From Stdlib Require Import ZArith Lia.
From S2P Require Import Prelude CFloat MpuData MpuBus InvMpu InvMpuRead DmpImage DmpDriver.
From S2P Require Import MpuDmp SimBus MpuCoherence DmpSpec.
Open Scope Z_scope.
Open Scope c_scope.

(** ** Mounting matrices *)

Definition axis_row (ax : nat) (neg : bool) : list Z :=
  map (fun i => if (i =? ax)%nat then (if neg then -1 else 1) else 0) [0; 1; 2]%nat.

Definition permutations3 : list (nat * nat * nat) :=
  [(0, 1, 2); (0, 2, 1); (1, 0, 2); (1, 2, 0); (2, 0, 1); (2, 1, 0)]%nat.

(** The 48 signed permutation matrices, row by row. *)
Definition mountings : list (list Z) :=
  '(i, j, k) ← permutations3; a ← [false; true]; b ← [false; true]; c ← [false; true];
  [axis_row i a ++ axis_row j b ++ axis_row k c].

Definition dot (m : list Z) (r : nat) (v : list Z) : Z :=
  at_ m (3 * r) * at_ v 0 + at_ m (3 * r + 1) * at_ v 1 + at_ m (3 * r + 2) * at_ v 2.

Definition mat_vec (m v : list Z) : list Z := [dot m 0 v; dot m 1 v; dot m 2 v].

(** A value whose negation fits as well. *)
Definition balanced (v : Z) : Prop := - 2 ^ 31 < v < 2 ^ 31.

Lemma s32_neg v : balanced v -> s32 (v * -1) = - v.
Proof. intros Hv. unfold balanced in Hv. rewrite s32_small; lia. Qed.

(** Decides a property of all mountings. *)
Lemma mountings_all (P : list Z -> bool) m :
  forallb P mountings = true -> In m mountings -> P m = true.
Proof. rewrite forallb_forall. auto. Qed.

(** The identity mounting of the clock. *)
Example gyro_orientation_code : inv_orientation_matrix_to_scalar gyro_orientation = 0x88.
Proof. reflexivity. Qed.

(** Evaluates the selectors and signs of a concrete orientation code. *)
Ltac eval_code :=
  repeat match goal with
  | |- context [axis_sel ?o ?k] =>
      let r := eval vm_compute in (axis_sel o k) in change (axis_sel o k) with r
  | |- context [has (inv_orientation_matrix_to_scalar ?m) ?k] =>
      let r := eval vm_compute in (has (inv_orientation_matrix_to_scalar m) k) in
      change (has (inv_orientation_matrix_to_scalar m) k) with r
  end.

Section rotation.
Context `{Env}.

(** C13: for every mounting matrix (each of the 48 signed permutations of the
    axes), turning a bias vector into the body frame by the orientation code
    of the matrix, as the DMP driver does for gyroscope and accelerometer
    biases, is the product of the matrix with the vector; no array access is
    out of bounds. *)
Theorem orientation_code_rotates m v s :
  In m mountings -> triple balanced v ->
  body3 v (inv_orientation_matrix_to_scalar m) s = Some (mat_vec m v, s).
Proof.
  intros Hm (x & y & z & -> & Hx & Hy & Hz).
  assert (s32 (x * -1) = - x) as Ex by (by apply s32_neg).
  assert (s32 (y * -1) = - y) as Ey by (by apply s32_neg).
  assert (s32 (z * -1) = - z) as Ez by (by apply s32_neg).
  let l := eval vm_compute in mountings in change mountings with l in Hm.
  cbn [In] in Hm.
  repeat (destruct Hm as [<-|Hm];
    [unfold body3, body_axis, idx3, bind; eval_code;
     change (Z.to_nat 0) with 0%nat; change (Z.to_nat 1) with 1%nat;
     change (Z.to_nat 2) with 2%nat; cbn -[s32 Z.mul]; rewrite ?Ex, ?Ey, ?Ez; unfold ret, mat_vec, dot;
     cbn -[Z.mul Z.add]; repeat f_equal; lia|]).
  done.
Qed.

Definition code_in_range (m : list Z) : bool :=
  let c := inv_orientation_matrix_to_scalar m in (0 <=? c) && (c <? 512).
Definition selectors_ok (m : list Z) : bool :=
  forallb (fun k => let a := axis_sel (inv_orientation_matrix_to_scalar m) k in
                    (0 <=? a) && (a <? 3)) [0; 1; 2].

Lemma keeps_set_orientation m :
  selectors_ok m = true ->
  keeps False stays (dmp_set_orientation (inv_orientation_matrix_to_scalar m)).
Proof.
  intros Hm. cbn [selectors_ok forallb] in Hm.
  apply andb_true_iff in Hm as [H0 Hm]. apply andb_true_iff in Hm as [H1 Hm].
  apply andb_true_iff in Hm as [H2 _].
  unfold dmp_set_orientation, idx3. rewrite H0, H1, H2.
  do 6 (apply keeps_bind; [apply keeps_ret|intros ?]).
  do 4 (apply keeps_try; [apply keeps_mpu_write_mem; right; done|]).
  apply keeps_bind; [|intros _; apply keeps_ret].
  apply keeps_modify. intros s. by apply stays_same_regs.
Qed.

(** The orientation codes of the 48 mountings are pairwise different and
    fit 9 bits, and [dmp_set_orientation] handles each of them without an
    access outside its tables. *)
Theorem orientation_codes_distinct :
  NoDup (map inv_orientation_matrix_to_scalar mountings) /\
  (forall m, In m mountings -> 0 <= inv_orientation_matrix_to_scalar m < 512) /\
  (forall m s, In m mountings ->
     exists r s', dmp_set_orientation (inv_orientation_matrix_to_scalar m) s = Some (r, s')).
Proof.
  split_and!.
  - apply (bool_decide_unpack _). vm_compute. exact I.
  - intros m Hm. apply (mountings_all code_in_range) in Hm; [|vm_compute; reflexivity].
    unfold code_in_range in Hm. lia.
  - intros m s Hm. apply (mountings_all selectors_ok) in Hm; [|vm_compute; reflexivity].
    destruct (keeps_total stays _ s (keeps_set_orientation _ Hm)) as (r & s' & Hr & _). eauto.
Qed.

End rotation.

Lemma orientation_code_rotates_witness :
  @body3 [10; -20; 30] (inv_orientation_matrix_to_scalar [0; -1; 0; 1; 0; 0; 0; 0; 1])
    (boot sim_dev) = Some ([20; 10; 30], boot sim_dev).
Proof.
  apply (orientation_code_rotates [0; -1; 0; 1; 0; 0; 0; 0; 1] [10; -20; 30]).
  - vm_compute. tauto.
  - by exists 10, (-20), 30.
Defined.
