(* ===== verification/DmpInvariant.v ===== *)
(** * Invariants of the DMP mode

    What holds of the DMP state in every state reachable by the operations of
    MpuSystem.v: the packet length always belongs to the enabled features, so
    a packet fits the reader's buffer, and the DMP only runs with firmware. *)

From stdpp Require Import prelude.
From Stdlib Require Import ZArith Lia.
From S2P Require Import Prelude CFloat MpuData MpuBus InvMpu InvMpuRead.
From S2P Require Import DmpImage DmpDriver MpuDmp SimBus MpuCoherence MpuSystem DmpSpec.
Open Scope Z_scope.
Open Scope c_scope.

(** ** Operations that leave the DMP state alone *)

(** Neither the DMP driver's state nor the two flags change. *)
Definition calm (s s' : drv) : Prop :=
  s'.(dmp) = s.(dmp) /\ s'.(chip).(dmp_on) = s.(chip).(dmp_on) /\
  s'.(chip).(dmp_loaded) = s.(chip).(dmp_loaded).

#[export] Instance calm_preorder : PreOrder calm.
Proof.
  split; [by intros s|]. intros s1 s2 s3 (? & ? & ?) (? & ? & ?).
  unfold calm. split_and!; congruence.
Qed.

Section calm.
Context `{Env}.
#[local] Abbreviation K := (keeps True calm).

Lemma calm_write reg len data : K (i2c_write reg len data).
Proof. intros s. apply i2c_write_wpg; [by left|]. done. Qed.

Lemma calm_read reg len : K (i2c_read reg len).
Proof. intros s. by apply i2c_read_wpg. Qed.

Lemma calm_log e : K (log e).
Proof. by intros s. Qed.

Lemma calm_delay e : K (delay_ms e).
Proof. by intros s. Qed.

Lemma calm_cdiv a b : K (cdiv a b).
Proof. apply keeps_cdiv. by left. Qed.

Lemma calm_undefined {A} : K (undefined (A:=A)).
Proof. by intros s. Qed.

Lemma calm_chipset f :
  (forall c, dmp_on (f c) = dmp_on c /\ dmp_loaded (f c) = dmp_loaded c) ->
  K (chipset f).
Proof.
  intros Hf. apply keeps_modify. intros s. destruct (Hf (chip s)). done.
Qed.

End calm.

#[export] Hint Resolve calm_write calm_read calm_log calm_delay calm_cdiv
  calm_undefined : keep.
#[export] Hint Extern 1 (keeps _ calm (chipset _)) =>
  (apply calm_chipset; intros []; split; reflexivity) : keep.

Section calm_ops.
Context `{Env}.
#[local] Abbreviation K := (keeps True calm).

Lemma calm_set_int_enable e : K (set_int_enable e).
Proof. unfold set_int_enable. keep_tac. Qed.
Lemma calm_set_int_latched e : K (mpu_set_int_latched e).
Proof. unfold mpu_set_int_latched. keep_tac. Qed.
Lemma calm_reset_fifo : K mpu_reset_fifo.
Proof. unfold mpu_reset_fifo. keep_tac. Qed.
Lemma calm_set_gyro_fsr f : K (mpu_set_gyro_fsr f).
Proof. unfold mpu_set_gyro_fsr. keep_tac. Qed.
Lemma calm_set_accel_fsr f : K (mpu_set_accel_fsr f).
Proof. unfold mpu_set_accel_fsr. keep_tac. Qed.
Lemma calm_set_lpf f : K (mpu_set_lpf f).
Proof. unfold mpu_set_lpf. keep_tac. Qed.
#[local] Hint Resolve calm_set_int_enable calm_set_int_latched calm_reset_fifo
  calm_set_gyro_fsr calm_set_accel_fsr calm_set_lpf : keep.
Lemma calm_configure_fifo m : K (mpu_configure_fifo m).
Proof. unfold mpu_configure_fifo. keep_tac. Qed.
#[local] Hint Resolve calm_configure_fifo : keep.
Lemma calm_lp_accel_mode r : K (mpu_lp_accel_mode r).
Proof. unfold mpu_lp_accel_mode. keep_tac. Qed.
#[local] Hint Resolve calm_lp_accel_mode : keep.
Lemma calm_set_sample_rate r : K (mpu_set_sample_rate r).
Proof. unfold mpu_set_sample_rate. keep_tac. Qed.
Lemma calm_set_sensors m : K (mpu_set_sensors m).
Proof. unfold mpu_set_sensors. keep_tac. Qed.
Lemma calm_set_bypass b : K (mpu_set_bypass b).
Proof. unfold mpu_set_bypass. keep_tac. Qed.
Lemma calm_write_mem a n d : K (mpu_write_mem a n d).
Proof. unfold mpu_write_mem. keep_tac. Qed.
Lemma calm_read_mem a n d : K (mpu_read_mem a n d).
Proof. unfold mpu_read_mem. keep_tac. Qed.
#[local] Hint Resolve calm_set_sample_rate calm_set_sensors calm_set_bypass
  calm_write_mem calm_read_mem : keep.
Lemma calm_load_chunks fuel fw len ii : K (load_chunks fuel fw len ii).
Proof. revert ii. induction fuel; intros; cbn [load_chunks]; keep_tac. Qed.
Lemma calm_reg_dump n ii : K (reg_dump_from n ii).
Proof. revert ii. induction n; intros; cbn [reg_dump_from]; keep_tac. Qed.
Lemma calm_sum_packets n g a : K (sum_packets n g a).
Proof. revert g a. induction n; intros; cbn [sum_packets]; keep_tac. Qed.
#[local] Hint Resolve calm_load_chunks calm_reg_dump calm_sum_packets : keep.
Lemma calm_get_st_biases g a t : K (get_st_biases g a t).
Proof. unfold get_st_biases, st_setup, mean3, q16_mean. keep_tac. Qed.
#[local] Hint Resolve calm_get_st_biases : keep.
Lemma calm_try_biases n g a t : K (try_biases n g a t).
Proof. revert g a. induction n; intros; cbn [try_biases]; keep_tac. Qed.
#[local] Hint Resolve calm_try_biases : keep.
Lemma calm_st_measure g a : K (st_measure g a).
Proof.
  unfold st_measure, accel_self_test, gyro_self_test, get_accel_prod_shift. keep_tac.
Qed.
End calm_ops.

#[export] Hint Resolve calm_set_int_enable calm_set_int_latched calm_reset_fifo
  calm_set_gyro_fsr calm_set_accel_fsr calm_set_lpf calm_configure_fifo
  calm_lp_accel_mode calm_set_sample_rate calm_set_sensors calm_set_bypass
  calm_write_mem calm_read_mem calm_load_chunks calm_reg_dump calm_st_measure : keep.

(** ** The invariant *)

Record dmp_inv (s : drv) : Prop := mk_dmp_inv {
  inv_length : s.(dmp).(packet_length) = dmp_packet_length s.(dmp).(feature_mask);
  inv_loaded : s.(chip).(dmp_on) <> 0 -> s.(chip).(dmp_loaded) <> 0
}.

Definition sound (s s' : drv) : Prop := dmp_inv s -> dmp_inv s'.

#[export] Instance sound_preorder : PreOrder sound.
Proof. unfold sound. split; repeat intro; auto. Qed.

Lemma calm_sound s s' : calm s s' -> sound s s'.
Proof. intros (E1 & E2 & E3) []. split; rewrite ?E1, ?E2, ?E3; auto. Qed.

Lemma keeps_calm_sound {A} (m : M drv A) : keeps True calm m -> keeps True sound m.
Proof. apply keeps_mono. exact calm_sound. Qed.

#[export] Hint Extern 2 (keeps _ sound _) =>
  (apply keeps_calm_sound; solve [eauto 3 with keep nocore]) : keep.

(** The pedometer bit does not contribute to a packet. *)
Lemma dmp_packet_length_pedometer mask :
  dmp_packet_length (Z.lor mask DMP_FEATURE_PEDOMETER) = dmp_packet_length mask.
Proof.
  assert (forall x, Z.land DMP_FEATURE_PEDOMETER x = 0 ->
            has (Z.lor mask DMP_FEATURE_PEDOMETER) x = has mask x) as E.
  { intros x Hx. unfold has. by rewrite Z.land_lor_distr_l, Hx, Z.lor_0_r. }
  unfold dmp_packet_length. by rewrite !E by done.
Qed.

Section sound_ops.
Context `{Env}.
#[local] Abbreviation K := (keeps True sound).

Lemma sound_chipset_loaded v : v <> 0 -> K (chipset (with_dmp_loaded v)).
Proof. intros Hv. apply keeps_modify. intros s []. by split. Qed.

Lemma sound_chipset_rate v : K (chipset (with_dmp_sample_rate v)).
Proof. apply keeps_calm_sound. apply calm_chipset. by intros []. Qed.

Lemma sound_dmpset f :
  (forall d, packet_length (f d) = packet_length d /\ feature_mask (f d) = feature_mask d) ->
  K (dmpset f).
Proof.
  intros Hf. apply keeps_modify. intros s []. destruct (Hf (dmp s)) as [E1 E2].
  split; cbn [on_dmp put_dmp dmp chip]; rewrite ?E1, ?E2; auto.
Qed.

Lemma sound_load_firmware n fw a r : K (mpu_load_firmware n fw a r).
Proof.
  unfold mpu_load_firmware.
  repeat first [apply sound_chipset_loaded; lia | apply sound_chipset_rate | keep_step].
Qed.

(** Switching the DMP on requires loaded firmware. *)
Lemma sound_set_dmp_state e : K (mpu_set_dmp_state e).
Proof.
  intros s. unfold mpu_set_dmp_state. wp_step. wp_step.
  destruct (_ =? e); [apply wpg_ret; reflexivity|]. destruct (truthy e).
  - destruct (truthy (dmp_loaded (chip s))) eqn:El; cbn [negb]; [|apply wpg_ret; reflexivity].
    assert (K (set_int_enable 1 ;;; mpu_reset_fifo ;;; ret 0)) as Hrest by keep_tac.
    unfold truthy in El.
    eapply (wpg_bind_keeps (R:=calm)); [solve [keep_tac]|]. intros _ s1 H1.
    eapply (wpg_bind_keeps (R:=calm)); [solve [keep_tac]|]. intros _ s2 H2.
    eapply (wpg_bind_keeps (R:=calm)); [solve [keep_tac]|]. intros _ s3 H3.
    eapply (wpg_bind_keeps (R:=calm)); [solve [keep_tac]|]. intros _ s4 H4.
    wp_step. wp_step.
    eapply wpg_mono; [|apply Hrest]. cbv beta. intros _ s' Hs' Hinv. apply Hs'.
    assert (calm s s4) as (Ed & Eon & El')
      by (etrans; [exact H1|]; etrans; [exact H2|]; by etrans).
    destruct Hinv. split; cbn [on_chip put_chip dmp chip]; [congruence|].
    intros _. cbn. lia.
  - assert (K (mpu_reset_fifo ;;; ret 0)) as Hrest by keep_tac.
    eapply (wpg_bind_keeps (R:=calm)); [solve [keep_tac]|]. intros _ s1 H1.
    wp_step. wp_step. eapply (wpg_bind_keeps (R:=calm)); [solve [keep_tac]|]. intros _ s2 H2.
    wp_step. wp_step. eapply wpg_mono; [|apply Hrest]. cbv beta. intros _ s' Hs' Hinv.
    apply Hs'. assert (calm s s2) as (Ed & _ & _) by (by etrans).
    destruct Hinv. split; cbn [on_chip put_chip dmp chip]; [congruence|]. by cbn.
Qed.
#[local] Hint Resolve sound_load_firmware sound_set_dmp_state : keep.
#[local] Hint Extern 1 (keeps _ sound (dmpset _)) =>
  (apply sound_dmpset; intros []; split; reflexivity) : keep.
Create HintDb sound_unfold.
#[local] Hint Unfold mpu_get_gyro_fsr mpu_get_accel_fsr mpu_get_lpf mpu_get_sample_rate
  mpu_get_fifo_config mpu_get_gyro_sens mpu_get_accel_sens cast_long cast_ushort cast
  idx3 body_axis body3 scale_gyro write_mem : sound_unfold.
Ltac sound_tac := autounfold with sound_unfold; keep_tac.

Lemma sound_run_self_test g a : K (mpu_run_self_test g a).
Proof. unfold mpu_run_self_test. sound_tac. Qed.

Lemma sound_lp_int_restore : K lp_int_restore.
Proof. unfold lp_int_restore. sound_tac. Qed.

Lemma sound_save_cache : K save_cache.
Proof. unfold save_cache. sound_tac. Qed.
#[local] Hint Resolve sound_run_self_test sound_lp_int_restore sound_save_cache : keep.

Lemma sound_lp_motion_interrupt t d f : K (mpu_lp_motion_interrupt t d f).
Proof. unfold mpu_lp_motion_interrupt, motion_arm, or_restore. sound_tac. Qed.

Lemma sound_set_tap_thresh a t : K (dmp_set_tap_thresh a t).
Proof. unfold dmp_set_tap_thresh. sound_tac. Qed.

Lemma sound_enable_settings mask :
  K (enable_sensor_data mask) /\ K (enable_tap mask).
Proof.
  pose proof sound_set_tap_thresh.
  unfold enable_sensor_data, enable_tap, dmp_enable_gyro_cal, dmp_set_tap_axes,
    dmp_set_tap_count, dmp_set_tap_time, dmp_set_tap_time_multi,
    dmp_set_shake_reject_thresh, dmp_set_shake_reject_time, dmp_set_shake_reject_timeout.
  split; sound_tac; auto.
Qed.

(** The feature mask and the packet length are changed together. *)
Lemma sound_enable_feature mask : K (dmp_enable_feature mask).
Proof.
  unfold dmp_enable_feature. destruct (sound_enable_settings mask) as [H1 H2].
  apply keeps_bind; [done|intros _]. apply keeps_bind; [done|intros _].
  unfold dmp_enable_lp_quat, dmp_enable_6x_lp_quat, write_mem.
  do 3 (apply keeps_bind; [sound_tac|intros _]).
  intros s. wp_step. apply wpg_modify.
  eapply (wpg_bind_keeps (R:=calm)); [solve [keep_tac]|]. intros _ s1 (E1 & E2 & E3).
  wp_step. apply wpg_modify. wp_step. intros [_ Hl].
  split; cbn [on_dmp put_dmp dmp chip]; [|rewrite E2, E3; exact Hl]. rewrite E1.
  cbn [on_dmp put_dmp dmp with_feature_mask with_packet_length packet_length feature_mask].
  by rewrite dmp_packet_length_pedometer.
Qed.

Lemma sound_dmp_read_fifo o : K (dmp_read_fifo o).
Proof.
  unfold dmp_read_fifo, parse_motion, decode_gesture, mpu_read_fifo_stream. sound_tac.
Qed.

Lemma sound_init : K mpu_init.
Proof.
  unfold mpu_init, init_accel_half.
  repeat first [ apply keeps_modify; intros s [? _]; by split | keep_step ].
Qed.
#[local] Hint Resolve sound_lp_motion_interrupt sound_set_tap_thresh sound_enable_feature
  sound_dmp_read_fifo : keep.

Lemma sound_run_op op : K (run_op op).
Proof.
  destruct op; cbn [run_op];
    unfold code, mpu_reg_dump, mpu_read_reg, mpu_get_gyro_reg, mpu_get_accel_reg,
      mpu_get_temperature, mpu_get_int_status, mpu_set_accel_bias, mpu_read_fifo,
      mpu_read_fifo_stream, mpu_set_int_level, dmp_load_motion_driver_firmware,
      dmp_set_orientation, dmp_set_gyro_bias, dmp_set_accel_bias, dmp_set_fifo_rate,
      dmp_set_tap_axes, dmp_set_tap_count, dmp_set_tap_time, dmp_set_tap_time_multi,
      dmp_set_shake_reject_thresh, dmp_set_shake_reject_time, dmp_set_shake_reject_timeout,
      dmp_get_pedometer_step_count, dmp_set_pedometer_step_count,
      dmp_get_pedometer_walk_time, dmp_set_pedometer_walk_time, dmp_set_interrupt_mode,
      dmp_register_tap_cb, dmp_register_android_orient_cb, run_self_test.
  all: unfold dmp_set_gyro_bias, dmp_set_accel_bias; sound_tac.
Qed.

End sound_ops.

(** ** Reachable states *)

Section reachable.
Context `{Env}.

Lemma reachable_dmp_inv d b s : reachable d b s -> dmp_inv s.
Proof.
  induction 1 as [|b op s r s' _ IH Hrun|b s r s' _ IH Hrun].
  - by split.
  - exact (wlp_elim _ _ _ _ _ (sound_run_op op s) Hrun IH).
  - exact (wlp_elim _ _ _ _ _ (sound_init s) Hrun IH).
Qed.

(** C15: in every state reachable by any sequence of driver operations, with
    any transfer failing at any time, the DMP is switched on only when firmware
    is loaded, and the packet length the reader uses is that of the enabled
    features and at most the 32 bytes of its buffer. *)
Theorem dmp_runs_only_with_firmware d b s :
  reachable d b s ->
  (s.(chip).(dmp_on) <> 0 -> s.(chip).(dmp_loaded) <> 0) /\
  s.(dmp).(packet_length) = dmp_packet_length s.(dmp).(feature_mask) /\
  0 <= s.(dmp).(packet_length) <= 32.
Proof.
  intros Hr. apply reachable_dmp_inv in Hr as [Hlen Hl].
  split_and!; [done|done|..]; rewrite Hlen; apply dmp_packet_length_bound.
Qed.

#[local] Abbreviation T := (fun _ _ : drv => True).
#[local] Instance true_preorder : PreOrder T.
Proof. by split. Qed.

Lemma any_reset_fifo : keeps False T mpu_reset_fifo.
Proof. eapply keeps_mono; [|apply keeps_mpu_reset_fifo]. done. Qed.

Lemma any_read reg len : keeps False T (i2c_read reg len).
Proof. intros s. by apply i2c_read_wpg. Qed.

Lemma any_log e : keeps False T (log e).
Proof. by intros s. Qed.
#[local] Hint Resolve any_reset_fifo any_read any_log : keep.

Lemma read_fifo_stream_total len data more :
  0 < len <= Z.of_nat (length data) -> len < 256 ->
  keeps False T (mpu_read_fifo_stream len data more).
Proof.
  intros Hlen Hlen'. unfold mpu_read_fifo_stream. rewrite u8_small by lia.
  replace (Z.of_nat (length data) <? len) with false by lia.
  repeat first [ apply keeps_bind; [apply keeps_cdiv; right; lia|intros ?] | keep_step ].
Qed.

(** Without the DMP, or without sensors, nothing is read. *)
Lemma read_fifo_stream_off len data more s :
  s.(chip).(dmp_on) = 0 \/ s.(chip).(sensors) = 0 ->
  mpu_read_fifo_stream len data more s = Some ((-1, (data, more)), s).
Proof.
  intros Hoff. unfold mpu_read_fifo_stream, bind, gets. unfold truthy at 1.
  destruct (Z.eqb_spec (dmp_on (chip s)) 0) as [E|E]; [done|]. cbn [negb].
  destruct Hoff as [?|E']; [done|]. by rewrite E'.
Qed.

(** The features that put something into a packet. *)
Definition PACKET_FEATURES : Z :=
  Z.lor (Z.lor DMP_FEATURE_SEND_RAW_ACCEL DMP_FEATURE_SEND_ANY_GYRO)
    (Z.lor (Z.lor DMP_FEATURE_LP_QUAT DMP_FEATURE_6X_LP_QUAT) (Z.lor DMP_FEATURE_TAP DMP_FEATURE_ANDROID_ORIENT)).

Lemma packet_length_zero mask : has mask PACKET_FEATURES = true -> dmp_packet_length mask <> 0.
Proof.
  unfold PACKET_FEATURES, dmp_packet_length, has, truthy. rewrite !(Z.land_lor_distr_r mask _ _). intros Hh E.
  rewrite negb_true_iff in Hh. apply Z.eqb_neq in Hh. apply Hh. rewrite !Z.lor_eq_0_iff.
  destruct (Z.eqb_spec (Z.land mask DMP_FEATURE_SEND_RAW_ACCEL) 0); cbn [negb] in E;
  destruct (Z.eqb_spec (Z.land mask DMP_FEATURE_SEND_ANY_GYRO) 0); cbn [negb] in E;
  destruct (Z.eqb_spec (Z.lor (Z.land mask DMP_FEATURE_LP_QUAT) (Z.land mask DMP_FEATURE_6X_LP_QUAT)) 0) as [E1|E1]; cbn [negb] in E;
  destruct (Z.eqb_spec (Z.lor (Z.land mask DMP_FEATURE_TAP) (Z.land mask DMP_FEATURE_ANDROID_ORIENT)) 0) as [E2|E2]; cbn [negb] in E;
  try lia. rewrite Z.lor_eq_0_iff in E1, E2. tauto.
Qed.

(** C16: in every state reachable by any sequence of driver operations, with any
    transfer failing at any time, [dmp_read_fifo] returns, whatever the bus delivers
    (no write outside its packet buffer, no division by zero), with one exception:
    the DMP is on, a sensor is on, and none of the enabled features puts anything into
    a packet, so that the length by which the reader divides is zero. *)
Theorem dmp_read_fifo_safe d b s o :
  reachable d b s ->
  (exists r s', dmp_read_fifo o s = Some (r, s')) \/
  (s.(chip).(dmp_on) <> 0 /\ s.(chip).(sensors) <> 0 /\ has s.(dmp).(feature_mask) PACKET_FEATURES = false /\
   s.(dmp).(packet_length) = 0).
Proof.
  intros Hr. apply reachable_dmp_inv in Hr as [Hlen _].
  pose proof (dmp_packet_length_bound (feature_mask (dmp s))) as Hb.
  unfold DMP_MAX_PACKET_LENGTH in Hb.
  destruct (Z.eq_dec (dmp_on (chip s)) 0) as [Eon|Eon]; [|destruct (Z.eq_dec (sensors (chip s)) 0) as [Ese|Ese]].
  1, 2: left; unfold dmp_read_fifo, bind, gets; cbv zeta; rewrite read_fifo_stream_off by auto; by eexists _, _.
  destruct (Z.eq_dec (packet_length (dmp s)) 0) as [Hz|Hne].
  { right. split_and!; try done. destruct (has _ _) eqn:Eh; [|done]. apply packet_length_zero in Eh. congruence. }
  left. enough (wp (dmp_read_fifo o) (fun _ _ => True) s) as Hw
    by (apply wp_elim in Hw as (r & s' & ? & _); eauto).
  unfold dmp_read_fifo. do 4 wp_step. cbv zeta.
  eapply (wpg_bind_keeps (R:=T)).
  { apply read_fifo_stream_total; rewrite ?length_replicate; unfold DMP_MAX_PACKET_LENGTH; lia. }
  intros [r [data more]] s1 _. cbv beta iota.
  match goal with |- wpg _ ?m _ _ => assert (keeps False T m) as Hk end.
  { unfold parse_motion, decode_gesture. keep_tac. }
  apply Hk.
Qed.

End reachable.

(** The state after the clock's start-up on the concrete sensor. *)
Definition sim_features : drv :=
  run_from (@run_op sim_env (OpEnableFeature dmp_features)) sim_awake.

Lemma sim_features_reachable : @reachable sim_env sim_dev true sim_features.
Proof.
  eapply (@reach_op sim_env _ _ (OpEnableFeature dmp_features) sim_awake 0);
    [|vm_compute; reflexivity].
  eapply (@reach_op sim_env _ _ (OpSetSensors 0x78) sim_inited 0);
    [|vm_compute; reflexivity].
  apply (@reach_init sim_env _ true (boot sim_dev) 0); [apply reach_boot|].
  vm_compute. reflexivity.
Qed.

Lemma dmp_runs_only_with_firmware_witness :
  (dmp_on (chip sim_features) <> 0 -> dmp_loaded (chip sim_features) <> 0) /\
  packet_length (dmp sim_features) =
    dmp_packet_length (feature_mask (dmp sim_features)) /\
  0 <= packet_length (dmp sim_features) <= 32.
Proof.
  exact (@dmp_runs_only_with_firmware sim_env sim_dev true sim_features
           sim_features_reachable).
Defined.

Lemma dmp_read_fifo_safe_witness :
  exists r s', @dmp_read_fifo sim_env (mk_dmp_out [] [] [] 0 0 0) sim_features = Some (r, s').
Proof.
  destruct (@dmp_read_fifo_safe sim_env sim_dev true sim_features (mk_dmp_out [] [] [] 0 0 0)
           sim_features_reachable) as [H|(_ & _ & H & _)]; [exact H|].
  exfalso. vm_compute in H. discriminate.
Defined.

(** With gyroscope calibration as the only feature the reader divides by zero. *)
Definition sim_loaded : drv := run_from (@run_op sim_env OpLoadMotionDriver) sim_awake.
Definition sim_gyro_cal : drv :=
  run_from (@run_op sim_env (OpSetDmpState 1)) (run_from (@run_op sim_env (OpEnableFeature DMP_FEATURE_GYRO_CAL)) sim_loaded).

Lemma run_from_code op s r :
  fst <$> @run_op sim_env op s = Some r -> @run_op sim_env op s = Some (r, run_from (@run_op sim_env op) s).
Proof. unfold run_from. destruct (@run_op sim_env op s) as [[r' s']|]; [|done]. by intros [= ->]. Qed.

Lemma sim_step b op s :
  @reachable sim_env sim_dev b s -> fst <$> @run_op sim_env op s = Some 0 ->
  @reachable sim_env sim_dev b (run_from (@run_op sim_env op) s).
Proof. intros Hr E. eapply (@reach_op sim_env); [exact Hr|]. by apply (run_from_code _ _ 0). Qed.

Theorem read_fifo_divides_by_zero :
  @reachable sim_env sim_dev true sim_gyro_cal /\ packet_length (dmp sim_gyro_cal) = 0 /\
  @dmp_read_fifo sim_env (mk_dmp_out [] [] [] 0 0 0) sim_gyro_cal = None.
Proof.
  split; [|split; vm_compute; reflexivity].
  do 4 (apply sim_step; [|vm_compute; reflexivity]).
  apply (@reach_init sim_env _ true (boot sim_dev) 0); [apply reach_boot|]. vm_compute. reflexivity.
Qed.
