(* ===== verification/Kernel.v ===== *)
(** * Threads and suspend lists of the kernel

    The part of RT-Thread's kernel that the inter-process communication
    objects are built on (src/rt-thread/src/thread.c, ipc.c): the state of the
    threads, their timers and the lists on which threads wait.  The kernel is
    the single-core one (RT_USING_SMP is off), so a stretch of code between
    disabling and enabling interrupts is one atomic step, and every function
    below is such a stretch.  [rt_schedule] marks the end of a step: which
    ready thread runs next is left open, so that theorems hold for every
    schedule. *)

From Stdlib Require Import ZArith Lia.
From stdpp Require Import prelude functions list.
From S2P Require Import Prelude.
Open Scope Z_scope.
Open Scope c_scope.

(** ** Error codes, flags *)

Definition RT_EOK : Z := 0.
Definition RT_ERROR : Z := 1.
Definition RT_ETIMEOUT : Z := 2.
Definition RT_EFULL : Z := 3.
Definition RT_IPC_FLAG_FIFO : Z := 0x00.
Definition RT_IPC_FLAG_PRIO : Z := 0x01.
Definition RT_WAITING_FOREVER : Z := -1.
Definition RT_TICK_MAX : Z := 0xffffffff.

(** ** State *)

(** A thread is named by a number, as the code names it by a pointer; so is a
    list head. *)
Abbreviation tid := nat.
Abbreviation qid := nat.

Inductive thread_stat := RT_THREAD_READY | RT_THREAD_SUSPEND.
#[export] Instance thread_stat_eq_dec : EqDecision thread_stat.
Proof. solve_decision. Defined.

(** [thread_timer] is the timeout tick while the timer is active.  A running
    thread counts as ready. *)
Record rt_thread := mk_thread {
  current_priority : Z;
  error : Z;
  stat : thread_stat;
  thread_timer : option Z
}.

Record kernel := mk_kernel {
  rt_tick : Z;
  tcb : tid -> rt_thread;
  waitq : qid -> list tid
}.

Definition with_error (e : Z) (t : rt_thread) : rt_thread :=
  mk_thread t.(current_priority) e t.(stat) t.(thread_timer).
Definition with_stat (s : thread_stat) (t : rt_thread) : rt_thread :=
  mk_thread t.(current_priority) t.(error) s t.(thread_timer).
Definition with_timer (x : option Z) (t : rt_thread) : rt_thread :=
  mk_thread t.(current_priority) t.(error) t.(stat) x.

Definition alter_thread (f : rt_thread -> rt_thread) (t : tid) (k : kernel) : kernel :=
  mk_kernel k.(rt_tick) (alter f t k.(tcb)) k.(waitq).

(** [rt_list_remove(&(thread->tlist))]: the list node of a thread is unlinked
    from whatever list it is on. *)
Definition unlink (t : tid) (k : kernel) : kernel :=
  mk_kernel k.(rt_tick) k.(tcb) (fun q => filter (fun u => u <> t) (k.(waitq) q)).

(** ** Components that contain the kernel state *)

Class HasKernel (St : Type) := {
  krn : St -> kernel;
  put_krn : kernel -> St -> St
}.

Definition on_krn `{HasKernel St} (f : kernel -> kernel) : M St unit :=
  modify (fun s => put_krn (f (krn s)) s).
Definition thread_of `{HasKernel St} (t : tid) : M St rt_thread :=
  gets (fun s => tcb (krn s) t).
Definition set_error `{HasKernel St} (t : tid) (e : Z) : M St unit :=
  on_krn (alter_thread (with_error e) t).

(** ** Threads *)

Section ops.
Context `{HasKernel St}.

Definition rt_tick_get : M St Z := gets (fun s => rt_tick (krn s)).

(** [rt_timer_start] on a thread's timer after RT_TIMER_CTRL_SET_TIME; the
    assertion on the duration fails for the largest values. *)
Definition start_timer (t : tid) (timeout : Z) : M St unit :=
  if u32 timeout <? RT_TICK_MAX / 2 then
    on_krn (fun k => alter_thread (with_timer (Some (u32 (k.(rt_tick) + timeout)))) t k)
  else undefined.

Definition rt_thread_suspend (t : tid) : M St Z :=
  th <- thread_of t ;;
  if bool_decide (stat th = RT_THREAD_READY) then
    on_krn (fun k => alter_thread (fun th => with_timer None (with_stat RT_THREAD_SUSPEND th)) t k) ;;;
    ret RT_EOK
  else ret (- RT_ERROR).

Definition rt_thread_resume (t : tid) : M St Z :=
  th <- thread_of t ;;
  if bool_decide (stat th = RT_THREAD_SUSPEND) then
    on_krn (unlink t) ;;;
    on_krn (alter_thread (fun th => with_stat RT_THREAD_READY (with_timer None th)) t) ;;;
    ret RT_EOK
  else ret (- RT_ERROR).

(** The timeout function of a thread's timer; the timer is no longer active
    when it is called. *)
Definition rt_thread_timeout (t : tid) : M St unit :=
  th <- thread_of t ;;
  if bool_decide (stat th = RT_THREAD_SUSPEND) then
    set_error t (- RT_ETIMEOUT) ;;;
    on_krn (unlink t) ;;;
    on_krn (alter_thread (with_stat RT_THREAD_READY) t)
  else undefined.

(** ** Suspend lists *)

(** The position of a thread in a list: at the end, or before the first
    thread with a lower priority (a larger number). *)
Fixpoint insert_prio (prio : tid -> Z) (t : tid) (l : list tid) : list tid :=
  match l with
  | [] => [t]
  | u :: l => if prio t <? prio u then t :: u :: l else u :: insert_prio prio t l
  end.

Definition ipc_insert (flag : Z) (prio : tid -> Z) (t : tid) (l : list tid) : list tid :=
  if flag =? RT_IPC_FLAG_FIFO then l ++ [t]
  else if flag =? RT_IPC_FLAG_PRIO then insert_prio prio t l
  else l.

Definition rt_ipc_list_suspend (q : qid) (t : tid) (flag : Z) : M St Z :=
  rt_thread_suspend t ;;;
  on_krn (fun k => mk_kernel k.(rt_tick) k.(tcb)
    (<[q := ipc_insert flag (fun u => current_priority (k.(tcb) u)) t (k.(waitq) q)]> k.(waitq))) ;;;
  ret RT_EOK.

(** Only called on a list that is not empty. *)
Definition rt_ipc_list_resume (q : qid) : M St Z :=
  l <- gets (fun s => waitq (krn s) q) ;;
  match l with
  | [] => undefined
  | t :: _ => rt_thread_resume t ;;; ret RT_EOK
  end.

(** One round of the loop of [rt_ipc_list_resume_all]. *)
Definition resume_with_error (t : tid) : M St unit :=
  set_error t (- RT_ERROR) ;;;
  rt_thread_resume t ;;;
  ret tt.

(** The loop; [fuel] is the number of rounds, and running out of it would be
    a loop that does not end. *)
Fixpoint resume_all_from (fuel : nat) (q : qid) : M St Z :=
  l <- gets (fun s => waitq (krn s) q) ;;
  match l with
  | [] => ret RT_EOK
  | t :: _ =>
      match fuel with
      | O => undefined
      | S fuel => resume_with_error t ;;; resume_all_from fuel q
      end
  end.

Definition rt_ipc_list_resume_all (q : qid) : M St Z :=
  l <- gets (fun s => waitq (krn s) q) ;;
  resume_all_from (length l) q.

(** The same loop where the caller has interrupts enabled: the test of the loop
    and the body, which disables them, are two steps.  The body takes the first
    node of the list; on a list that has become empty since the test this is the
    list head itself, taken for a thread. *)
Definition resume_all_test (q : qid) : M St bool :=
  l <- gets (fun s => waitq (krn s) q) ;; ret (match l with [] => true | _ :: _ => false end).

Definition resume_all_round (q : qid) : M St unit :=
  l <- gets (fun s => waitq (krn s) q) ;;
  match l with
  | [] => undefined
  | t :: _ => resume_with_error t
  end.

End ops.
