(* ===== verification/KernelSpec.v ===== *)
(** * Effects of the kernel's wait functions

    What the functions of Kernel.v do to the threads and to the lists on which
    they wait, as functions on the kernel state, for every component that
    contains it; and the invariant of the lists that the objects with waiting
    threads share. *)

From Stdlib Require Import ZArith Lia.
From stdpp Require Import prelude functions list.
From S2P Require Import Prelude Kernel.
Open Scope Z_scope.
Open Scope c_scope.

(** ** Effects on the threads *)

(** Resuming a suspended thread. *)
Definition resumed (t : tid) (k : kernel) : kernel :=
  alter_thread (fun th => with_stat RT_THREAD_READY (with_timer None th)) t (unlink t k).

(** Waking the first thread of a list, if there is one. *)
Definition woken (q : qid) (k : kernel) : kernel :=
  match k.(waitq) q with [] => k | h :: _ => resumed h k end.

(** Suspending a thread on a list. *)
Definition suspended (q : qid) (t : tid) (flag : Z) (k : kernel) : kernel :=
  let k := alter_thread (fun th => with_timer None (with_stat RT_THREAD_SUSPEND th)) t k in
  mk_kernel k.(rt_tick) k.(tcb)
    (<[q := ipc_insert flag (fun u => current_priority (k.(tcb) u)) t (k.(waitq) q)]> k.(waitq)).

(** Starting the timer of a thread. *)
Definition timed (t : tid) (timeout : Z) (k : kernel) : kernel :=
  alter_thread (with_timer (Some (u32 (k.(rt_tick) + timeout)))) t k.

(** The threads of a list are suspended. *)
Definition all_suspended (q : qid) (k : kernel) : Prop :=
  forall t, t ∈ k.(waitq) q -> stat (k.(tcb) t) = RT_THREAD_SUSPEND.

(** The wait with or without a timer. *)
Definition waiting (q : qid) (t : tid) (flag timeout : Z) (k : kernel) : kernel :=
  let k := suspended q t flag k in if 0 <? timeout then timed t timeout k else k.

(** Resuming a thread with an error, as [rt_ipc_list_resume_all] does. *)
Definition cancelled (e : Z) (t : tid) (k : kernel) : kernel := resumed t (alter_thread (with_error e) t k).

(** The timer of a suspended thread, which is taken out of the timer list before
    its function is called, runs out. *)
Definition timed_out (t : tid) (k : kernel) : kernel :=
  alter_thread (with_stat RT_THREAD_READY) t
    (unlink t (alter_thread (with_error (- RT_ETIMEOUT)) t (alter_thread (with_timer None) t k))).

Lemma tcb_alter f t k u :
  tcb (alter_thread f t k) u = if decide (u = t) then f (tcb k t) else tcb k u.
Proof.
  cbn [alter_thread tcb]. case_decide as E; [subst; apply fn_lookup_alter|].
  by apply fn_lookup_alter_ne.
Qed.

Lemma waitq_resumed h k q : waitq (resumed h k) q = filter (fun u => u <> h) (waitq k q).
Proof. done. Qed.

Lemma tcb_woken q k u :
  tcb (woken q k) u =
  match waitq k q with
  | h :: _ => if decide (u = h)
              then with_stat RT_THREAD_READY (with_timer None (tcb k h)) else tcb k u
  | [] => tcb k u
  end.
Proof.
  unfold woken. destruct (waitq k q) as [|h r]; [done|]. unfold resumed. by rewrite tcb_alter.
Qed.

(** ** The functions, in any component *)

(** The kernel state is a part of the component's state. *)
Class KernelLaws (St : Type) `{HasKernel St} : Prop := {
  krn_put : forall k s, krn (put_krn k s) = k;
  put_put : forall k k' s, put_krn k' (put_krn k s) = put_krn k' s;
  put_krn_id : forall s, put_krn (krn s) s = s
}.

Section specs.
Context `{KernelLaws St}.
Implicit Types c : St.

Lemma on_krn_eq f c : on_krn f c = Some (tt, put_krn (f (krn c)) c).
Proof. done. Qed.

Lemma resume_spec t c :
  stat (tcb (krn c) t) = RT_THREAD_SUSPEND ->
  rt_thread_resume t c = Some (RT_EOK, put_krn (resumed t (krn c)) c).
Proof.
  intros Hs. unfold rt_thread_resume, thread_of, bind, gets.
  rewrite bool_decide_eq_true_2 by done. rewrite !on_krn_eq, krn_put, put_put. done.
Qed.

Lemma list_resume_spec q h r c :
  waitq (krn c) q = h :: r -> all_suspended q (krn c) ->
  rt_ipc_list_resume q c = Some (RT_EOK, put_krn (woken q (krn c)) c).
Proof.
  intros Hq Hs. unfold rt_ipc_list_resume, bind at 1, gets.
  unfold woken. rewrite Hq. unfold bind. rewrite resume_spec; [done|].
  apply Hs. rewrite Hq. by left.
Qed.

Lemma suspend_spec q t flag c :
  stat (tcb (krn c) t) = RT_THREAD_READY ->
  rt_ipc_list_suspend q t flag c = Some (RT_EOK, put_krn (suspended q t flag (krn c)) c).
Proof.
  intros Hs. unfold rt_ipc_list_suspend, rt_thread_suspend, thread_of, bind, gets.
  rewrite bool_decide_eq_true_2 by done. cbv [ret]. rewrite !on_krn_eq, krn_put, put_put. done.
Qed.

Lemma start_timer_spec t timeout c :
  0 <= timeout < 2 ^ 31 - 1 ->
  start_timer t timeout c = Some (tt, put_krn (timed t timeout (krn c)) c).
Proof.
  intros Ht. unfold start_timer. rewrite u32_small by lia. change (RT_TICK_MAX / 2) with (2 ^ 31 - 1).
  by replace (timeout <? 2 ^ 31 - 1) with true by lia.
Qed.

Lemma resume_with_error_spec t c :
  stat (tcb (krn c) t) = RT_THREAD_SUSPEND ->
  resume_with_error t c = Some (tt, put_krn (cancelled (- RT_ERROR) t (krn c)) c).
Proof.
  intros Hs. unfold resume_with_error, set_error, bind at 1. rewrite on_krn_eq. unfold bind.
  rewrite resume_spec; rewrite krn_put; [by rewrite put_put|]. by rewrite tcb_alter, decide_True.
Qed.

(** The timer interrupt for a thread that waits. *)
Definition expire_thread (t : tid) : M St unit :=
  on_krn (alter_thread (with_timer None) t) ;;; rt_thread_timeout t.

Lemma expire_thread_spec t c :
  stat (tcb (krn c) t) = RT_THREAD_SUSPEND ->
  expire_thread t c = Some (tt, put_krn (timed_out t (krn c)) c).
Proof.
  intros Hs. unfold expire_thread, rt_thread_timeout, set_error, thread_of, bind, gets.
  rewrite on_krn_eq, krn_put, tcb_alter, decide_True by done. cbn [with_timer stat].
  rewrite bool_decide_eq_true_2 by done. rewrite !on_krn_eq, !krn_put, !put_put. done.
Qed.

End specs.

(** ** Order on the lists *)

(** A list sorted by priority, with equal priorities in order of arrival:
    [before] relates the threads that were there first. *)
Fixpoint prio_sorted (prio : tid -> Z) (l : list tid) : Prop :=
  match l with
  | [] => True
  | t :: l => (forall u, u ∈ l -> prio t <= prio u) /\ prio_sorted prio l
  end.

Lemma elem_of_insert_prio prio t l u :
  u ∈ insert_prio prio t l <-> u = t \/ u ∈ l.
Proof.
  induction l as [|v l IH]; cbn [insert_prio]; [set_solver|]. case_match; set_solver.
Qed.

Lemma insert_prio_sorted prio t l :
  prio_sorted prio l -> prio_sorted prio (insert_prio prio t l).
Proof.
  induction l as [|v l IH]; cbn [insert_prio prio_sorted].
  { intros _. split; [set_solver|done]. }
  intros [Hv Hl]. destruct (prio t <? prio v) eqn:E; cbn [prio_sorted].
  - split_and!; [|done|done]. intros u Hu. apply elem_of_cons in Hu as [->|Hu]; [lia|].
    specialize (Hv u Hu). lia.
  - split; [|auto]. intros u Hu. apply elem_of_insert_prio in Hu as [->|Hu]; [lia|auto].
Qed.

(** The threads that were on the list keep their order, and the new one
    comes after every thread of the same or a higher priority. *)
Lemma insert_prio_split prio t l :
  prio_sorted prio l ->
  exists front back, l = front ++ back /\ insert_prio prio t l = front ++ t :: back /\
    (forall u, u ∈ front -> prio u <= prio t) /\ (forall u, u ∈ back -> prio t < prio u).
Proof.
  induction l as [|v l IH]; cbn [insert_prio prio_sorted].
  { intros _. exists [], []. set_solver. }
  intros [Hv Hl]. destruct (prio t <? prio v) eqn:E.
  - exists [], (v :: l). split_and!; [done|done|set_solver|].
    intros u Hu. apply elem_of_cons in Hu as [->|Hu]; [lia|]. specialize (Hv u Hu). lia.
  - destruct (IH Hl) as (front & back & -> & -> & Hf & Hb).
    exists (v :: front), back. split_and!; [done|done| |done].
    intros u Hu. apply elem_of_cons in Hu as [->|Hu]; [lia|auto].
Qed.

Lemma elem_of_ipc_insert flag prio t l u :
  flag = RT_IPC_FLAG_FIFO \/ flag = RT_IPC_FLAG_PRIO ->
  u ∈ ipc_insert flag prio t l <-> u = t \/ u ∈ l.
Proof.
  unfold ipc_insert. intros [-> | ->]; cbn; [set_solver|apply elem_of_insert_prio].
Qed.

Lemma NoDup_insert_prio prio t l : t ∉ l -> NoDup l -> NoDup (insert_prio prio t l).
Proof.
  intros Ht Hl. induction Hl as [|v l Hv Hl IH]; cbn [insert_prio].
  { apply NoDup_singleton. }
  case_match.
  - constructor; [done|]. by constructor.
  - constructor; [|set_solver]. rewrite elem_of_insert_prio. set_solver.
Qed.

Lemma NoDup_ipc_insert flag prio t l :
  flag = RT_IPC_FLAG_FIFO \/ flag = RT_IPC_FLAG_PRIO -> t ∉ l -> NoDup l ->
  NoDup (ipc_insert flag prio t l).
Proof.
  unfold ipc_insert. intros [-> | ->] Ht Hl; cbn; [|by apply NoDup_insert_prio].
  apply NoDup_app. split_and!; [done|set_solver|apply NoDup_singleton].
Qed.

(** ** Threads on lists *)

(** [bl t] is the list on which the function that [t] is in the middle of has
    suspended it; [t] may have been resumed since. *)
Record waits_ok (k : kernel) (bl : tid -> option qid) : Prop := {
  wait_in t q : t ∈ waitq k q <-> bl t = Some q /\ stat (tcb k t) = RT_THREAD_SUSPEND;
  wait_nodup q : NoDup (waitq k q);
  wait_idle t : bl t = None -> stat (tcb k t) = RT_THREAD_READY;
  wait_error t : stat (tcb k t) = RT_THREAD_SUSPEND -> error (tcb k t) = RT_EOK
}.

Definition ipc_flag (f : Z) : Prop := f = RT_IPC_FLAG_FIFO \/ f = RT_IPC_FLAG_PRIO.

Section lists.
Context (k : kernel) (bl : tid -> option qid) (Hk : waits_ok k bl).

Lemma waits_suspended q : all_suspended q k.
Proof. intros t Ht. by apply (wait_in _ _ Hk) in Ht as [_ ?]. Qed.

Lemma waits_blocked t : stat (tcb k t) = RT_THREAD_SUSPEND -> exists q, bl t = Some q /\ t ∈ waitq k q.
Proof.
  intros Hs. destruct (bl t) as [q|] eqn:E; [|apply (wait_idle _ _ Hk) in E; congruence].
  exists q. split; [done|]. by apply (wait_in _ _ Hk).
Qed.

(** A thread is on one list at most. *)
Lemma waits_one t q q' : t ∈ waitq k q -> t ∈ waitq k q' -> q = q'.
Proof. intros [E _]%(wait_in _ _ Hk) [E' _]%(wait_in _ _ Hk). congruence. Qed.

(** A suspended thread is made ready, for whatever reason. *)
Lemma waits_leave k' h :
  stat (tcb k h) = RT_THREAD_SUSPEND -> (forall q, waitq k' q = filter (fun u => u <> h) (waitq k q)) ->
  (forall u, u <> h -> tcb k' u = tcb k u) -> stat (tcb k' h) = RT_THREAD_READY -> waits_ok k' bl.
Proof.
  intros Hs Hq Hu Hr. split.
  - intros t q. rewrite Hq, list_elem_of_filter, (wait_in _ _ Hk). destruct (decide (t = h)) as [->|Hne].
    + rewrite Hr. intuition congruence.
    + rewrite Hu by done. tauto.
  - intros q. rewrite Hq. apply NoDup_filter, (wait_nodup _ _ Hk).
  - intros t Ht. destruct (decide (t = h)) as [->|Hne]; [done|]. rewrite Hu by done. by apply (wait_idle _ _ Hk).
  - intros t Ht. destruct (decide (t = h)) as [->|Hne]; [congruence|]. rewrite Hu in * by done. by apply (wait_error _ _ Hk).
Qed.

Lemma waits_resumed h : stat (tcb k h) = RT_THREAD_SUSPEND -> waits_ok (resumed h k) bl.
Proof.
  intros Hs. apply (waits_leave _ h); [done|done|..].
  - intros u Hu. unfold resumed. by rewrite tcb_alter, decide_False.
  - unfold resumed. by rewrite tcb_alter, decide_True.
Qed.

Lemma tcb_cancelled e h u :
  tcb (cancelled e h k) u =
    if decide (u = h) then with_stat RT_THREAD_READY (with_timer None (with_error e (tcb k h))) else tcb k u.
Proof.
  unfold cancelled, resumed. rewrite tcb_alter. cbn [unlink tcb]. rewrite !tcb_alter.
  by repeat case_decide; subst.
Qed.

Lemma tcb_timed_out h u :
  tcb (timed_out h k) u =
    if decide (u = h) then with_stat RT_THREAD_READY (with_error (- RT_ETIMEOUT) (with_timer None (tcb k h))) else tcb k u.
Proof.
  unfold timed_out. rewrite tcb_alter. cbn [unlink tcb]. rewrite !tcb_alter. by repeat case_decide; subst.
Qed.

Lemma waits_cancelled e h : stat (tcb k h) = RT_THREAD_SUSPEND -> waits_ok (cancelled e h k) bl.
Proof.
  intros Hs. apply (waits_leave _ h); [done|done|..].
  - intros u Hu. by rewrite tcb_cancelled, decide_False.
  - by rewrite tcb_cancelled, decide_True.
Qed.

Lemma waits_timed_out h : stat (tcb k h) = RT_THREAD_SUSPEND -> waits_ok (timed_out h k) bl.
Proof.
  intros Hs. apply (waits_leave _ h); [done|done|..].
  - intros u Hu. by rewrite tcb_timed_out, decide_False.
  - by rewrite tcb_timed_out, decide_True.
Qed.

(** The lists when the first thread of one is resumed. *)
Lemma waitq_head q h r : waitq k q = h :: r -> filter (fun u => u <> h) (waitq k q) = r.
Proof.
  intros E. pose proof (wait_nodup _ _ Hk q) as Hn. rewrite E in Hn |- *. apply NoDup_cons in Hn as [Hh _].
  rewrite filter_cons_False by auto. by apply filter_out.
Qed.

Lemma waitq_other q q' h : h ∈ waitq k q -> q' <> q -> filter (fun u => u <> h) (waitq k q') = waitq k q'.
Proof. intros Hh Hne. apply filter_out. intros Hin. by apply Hne, (waits_one h). Qed.

(** A thread suspends itself. *)
Lemma tcb_waiting_self q t f timeout :
  tcb (waiting q t f timeout k) t = with_timer (if 0 <? timeout then Some (u32 (rt_tick k + timeout)) else None)
    (with_stat RT_THREAD_SUSPEND (tcb k t)).
Proof.
  unfold waiting, timed. destruct (0 <? timeout).
  - rewrite tcb_alter, decide_True by done. cbn [suspended tcb rt_tick alter_thread]. by rewrite fn_lookup_alter.
  - cbn [suspended tcb alter_thread]. by rewrite fn_lookup_alter.
Qed.

Lemma tcb_waiting_ne q t f timeout u : u <> t -> tcb (waiting q t f timeout k) u = tcb k u.
Proof.
  intros Hu. unfold waiting, timed. destruct (0 <? timeout).
  - rewrite tcb_alter, decide_False by done. cbn [suspended tcb alter_thread]. by rewrite fn_lookup_alter_ne.
  - cbn [suspended tcb alter_thread]. by rewrite fn_lookup_alter_ne.
Qed.

Lemma prio_suspended t u :
  current_priority (alter (fun th => with_timer None (with_stat RT_THREAD_SUSPEND th)) t (tcb k) u) = current_priority (tcb k u).
Proof. destruct (decide (u = t)) as [->|Hne]; [by rewrite fn_lookup_alter|by rewrite fn_lookup_alter_ne]. Qed.

Lemma insert_prio_ext p p' t l : (forall u, p u = p' u) -> insert_prio p t l = insert_prio p' t l.
Proof. intros E. induction l as [|u l IH]; cbn [insert_prio]; [done|]. by rewrite !E, IH. Qed.

Lemma waitq_waiting q t f timeout q' :
  waitq (waiting q t f timeout k) q' =
    if decide (q' = q) then ipc_insert f (fun u => current_priority (tcb k u)) t (waitq k q) else waitq k q'.
Proof.
  assert (waitq (waiting q t f timeout k) q' = waitq (suspended q t f k) q') as ->
    by (unfold waiting, timed; by destruct (0 <? timeout)).
  cbn [suspended waitq tcb alter_thread]. case_decide as E; [subst; rewrite fn_lookup_insert|by rewrite fn_lookup_insert_ne].
  unfold ipc_insert. destruct (f =? RT_IPC_FLAG_FIFO); [done|]. destruct (f =? RT_IPC_FLAG_PRIO); [|done].
  apply insert_prio_ext. intros u. apply prio_suspended.
Qed.

Lemma waits_block q t f timeout :
  stat (tcb k t) = RT_THREAD_READY -> error (tcb k t) = RT_EOK -> ipc_flag f ->
  waits_ok (waiting q t f timeout k) (<[t := Some q]> bl).
Proof.
  intros Hs He Hf. assert (forall q', t ∉ waitq k q') as Hnt.
  { intros q' [_ ?]%(wait_in _ _ Hk). congruence. }
  split.
  - intros u q'. rewrite waitq_waiting. destruct (decide (u = t)) as [->|Hne].
    + rewrite fn_lookup_insert, tcb_waiting_self. cbn [with_timer with_stat stat]. case_decide as E.
      * subst. rewrite elem_of_ipc_insert by done. intuition congruence.
      * split; [intros Hin; by apply Hnt in Hin|intuition congruence].
    + rewrite fn_lookup_insert_ne, tcb_waiting_ne, <- (wait_in _ _ Hk) by done. case_decide as E; [|done].
      subst. rewrite elem_of_ipc_insert by done. intuition congruence.
  - intros q'. rewrite waitq_waiting. case_decide; [|apply (wait_nodup _ _ Hk)].
    apply NoDup_ipc_insert; [done|apply Hnt|apply (wait_nodup _ _ Hk)].
  - intros u. destruct (decide (u = t)) as [->|Hne]; [by rewrite fn_lookup_insert|].
    rewrite fn_lookup_insert_ne, tcb_waiting_ne by done. apply (wait_idle _ _ Hk).
  - intros u. destruct (decide (u = t)) as [->|Hne]; [by rewrite tcb_waiting_self|].
    rewrite tcb_waiting_ne by done. apply (wait_error _ _ Hk).
Qed.

(** Changes of a thread that leave it where it is. *)
Lemma waits_alter f t :
  stat (f (tcb k t)) = stat (tcb k t) -> (stat (tcb k t) = RT_THREAD_SUSPEND -> error (f (tcb k t)) = error (tcb k t)) ->
  waits_ok (alter_thread f t k) bl.
Proof.
  intros Hs He. split.
  - intros u q. rewrite tcb_alter. cbn [alter_thread waitq]. rewrite (wait_in _ _ Hk). case_decide; [subst; by rewrite Hs|done].
  - apply (wait_nodup _ _ Hk).
  - intros u Hu. rewrite tcb_alter. case_decide; [subst; rewrite Hs|]; by apply (wait_idle _ _ Hk).
  - intros u. rewrite tcb_alter. case_decide; [subst; rewrite Hs; intros; rewrite He by done|]; by apply (wait_error _ _ Hk).
Qed.

(** A thread that runs returns from the function. *)
Lemma waits_return t : stat (tcb k t) = RT_THREAD_READY -> waits_ok k (<[t := None]> bl).
Proof.
  intros Hs. split; [|apply (wait_nodup _ _ Hk)| |apply (wait_error _ _ Hk)].
  - intros u q. rewrite (wait_in _ _ Hk). destruct (decide (u = t)) as [->|Hne].
    + rewrite fn_lookup_insert. intuition congruence.
    + by rewrite fn_lookup_insert_ne.
  - intros u. destruct (decide (u = t)) as [->|Hne]; [done|]. rewrite fn_lookup_insert_ne by done. apply (wait_idle _ _ Hk).
Qed.
End lists.

(** ** Resuming all *)

Section resume_all.
Context `{KernelLaws St}.

(** The loop ends after as many rounds as the list is long: its threads are
    ready with an error, everything else is as before. *)
Lemma resume_all_spec q bl (c : St) :
  waits_ok (krn c) bl ->
  exists k', rt_ipc_list_resume_all q c = Some (RT_EOK, put_krn k' c) /\ waits_ok k' bl /\ waitq k' q = [] /\
    (forall q', q' <> q -> waitq k' q' = waitq (krn c) q') /\ rt_tick k' = rt_tick (krn c) /\
    (forall u, tcb k' u = if decide (u ∈ waitq (krn c) q)
                          then with_stat RT_THREAD_READY (with_timer None (with_error (- RT_ERROR) (tcb (krn c) u)))
                          else tcb (krn c) u).
Proof.
  intros Hk. unfold rt_ipc_list_resume_all, bind at 1, gets at 1.
  remember (length (waitq (krn c) q)) as n eqn:Hn. revert c Hk Hn.
  induction n as [|n IH]; intros c Hk Hn; cbn [resume_all_from]; unfold bind at 1, gets at 1;
    destruct (waitq (krn c) q) as [|h r] eqn:Eq; try done.
  - exists (krn c). rewrite put_krn_id. split; [done|]. split; [done|]. split; [done|]. split; [done|]. split; [done|].
    intros u. rewrite decide_False; [done|apply not_elem_of_nil].
  - assert (h ∈ waitq (krn c) q) as Hh by (rewrite Eq; left).
    assert (stat (tcb (krn c) h) = RT_THREAD_SUSPEND) as Hs by (by apply (waits_suspended _ _ Hk q)).
    unfold bind at 1. rewrite resume_with_error_spec by done. set (k1 := cancelled _ _ _).
    pose proof (waits_cancelled _ _ Hk (- RT_ERROR) h Hs) as Hk1. fold k1 in Hk1.
    assert (waitq k1 q = r) as Eq1 by (apply (waitq_head _ _ Hk q h r Eq)).
    destruct (IH (put_krn k1 c)) as (k2 & E2 & Hk2 & Hq2 & Ho2 & Ht2 & Hu2); rewrite ?krn_put in *.
    + done.
    + rewrite Eq1. cbn in Hn. lia.
    + exists k2. rewrite put_put in E2. split; [done|]. split; [done|]. split; [done|]. split; [|split].
      * intros q' Hq'. rewrite Ho2 by done. by apply (waitq_other _ _ Hk q).
      * done.
      * intros u. rewrite Hu2, Eq1. unfold k1. rewrite tcb_cancelled.
        pose proof (wait_nodup _ _ Hk q) as Hnd. rewrite Eq in Hnd. apply NoDup_cons in Hnd as [Hhr _].
        destruct (decide (u = h)) as [->|Hne].
        -- rewrite decide_False by done. rewrite decide_True; [done|left].
        -- destruct (decide (u ∈ r)) as [Hin|Hin]; [rewrite decide_True by (by right); done|].
           rewrite decide_False by set_solver. done.
Qed.
End resume_all.
