(* ===== verification/I2cBit.v ===== *)
(** * The I2C bus, bit by bit

    The bus driver on which the sensor and the display hang:
    src/rt-thread/components/drivers/i2c/i2c-bit-ops.c, which moves the two
    lines of the bus in software, over the pins of src/drivers/drv_soft_i2c.c.
    Both pins are open drain outputs: a line is high when nobody pulls it low.
    The state is what the master puts out and the sequence of the levels of the
    lines, newest first, as they are after each action of the master.  What a
    slave does with the data line, how long it holds the clock line and how long
    a sleep really takes are the environment.  Short delays ([udelay]) only pass
    time and do not appear. *)

From Stdlib Require Import ZArith Lia.
From stdpp Require Import prelude list.
From S2P Require Import Prelude Kernel.
Open Scope Z_scope.
Open Scope c_scope.

Module I2cBit.

Definition RT_EIO : Z := 8.
Definition RT_I2C_WR : Z := 0x0000.
Definition RT_I2C_RD : Z := Z.shiftl 1 0.
Definition RT_I2C_ADDR_10BIT : Z := Z.shiftl 1 2.
Definition RT_I2C_NO_START : Z := Z.shiftl 1 4.
Definition RT_I2C_IGNORE_NACK : Z := Z.shiftl 1 5.
Definition RT_I2C_NO_READ_ACK : Z := Z.shiftl 1 6.
Definition RT_I2C_NO_STOP : Z := Z.shiftl 1 7.

Record rt_i2c_msg := mk_i2c_msg {
  addr : Z;
  flags : Z;
  len : Z;
  buf : list Z
}.

(** ** Lines and environment *)

(** The levels of the clock and of the data line. *)
Abbreviation level := (bool * bool)%type.

(** - [slave w]: whether the slaves leave the data line alone after [w];
    - [hold w]: for how many ticks they hold the clock line when it is released;
    - [slept d t]: how many ticks [rt_thread_delay(d)] takes at tick [t]. *)
Class Wires := {
  slave : list level -> bool;
  hold : list level -> Z;
  slept : Z -> Z -> Z
}.

(** [struct rt_i2c_bit_ops] and the retries of the bus device. *)
Record bit_ops := mk_ops {
  get_scl : bool;
  timeout : Z;
  retries : Z
}.

(** [stm32_bit_ops_default]; the bus device is static, so that [retries] is 0. *)
Definition stm32_bit_ops_default : bit_ops := mk_ops true 100 0.

Record lines := mk_lines {
  sda_out : bool;
  scl_line : bool;
  now : Z;
  wave : list level
}.

Section driver.
Context `{Wires}.
Context (ops : bit_ops).

Abbreviation I := (M lines).

(** The data line. *)
Definition sda_line (s : lines) : bool := sda_out s && slave (wave s).

(** The levels after the master has put out [sda] and the clock line is [scl]. *)
Definition drive (sda scl : bool) (s : lines) : lines :=
  mk_lines sda scl s.(now) ((scl, sda && slave s.(wave)) :: s.(wave)).

Definition stm32_set_sda (state : Z) : I unit :=
  modify (fun s => drive (truthy state) s.(scl_line) s).
Definition stm32_get_sda : I bool := gets sda_line.
Definition SCL_L : I unit := modify (fun s => drive s.(sda_out) false s).
Definition rt_thread_delay (d : Z) : I unit :=
  modify (fun s => mk_lines s.(sda_out) s.(scl_line) (s.(now) + slept d s.(now)) s.(wave)).

(** The clock line has gone up. *)
Definition rise : I unit := modify (fun s => drive s.(sda_out) true s).

(** The loop of [SCL_H], started at [start]: the line is high once the slaves
    have let go of it.  The timeout ends it after three sleeps at the latest. *)
Fixpoint wait_scl (fuel : nat) (start : Z) : I Z :=
  s <- gets id ;;
  if hold s.(wave) <=? s.(now) - start then rise ;;; ret RT_EOK
  else if ops.(timeout) <? u32 (u32 s.(now) - u32 start) then ret (- RT_ETIMEOUT)
  else match fuel with
       | O => undefined
       | S fuel => rt_thread_delay (Z.shiftr (ops.(timeout) + 1) 1) ;;; wait_scl fuel start
       end.

Definition SCL_H : I Z :=
  if negb ops.(get_scl) then rise ;;; ret RT_EOK
  else start <- gets now ;; wait_scl 3 start.

(** ** i2c-bit-ops.c *)

Definition i2c_start : I unit := stm32_set_sda 0 ;;; SCL_L.

Definition i2c_restart : I unit :=
  stm32_set_sda 1 ;;; SCL_H ;;; stm32_set_sda 0 ;;; SCL_L.

Definition i2c_stop : I unit :=
  stm32_set_sda 0 ;;; SCL_H ;;; stm32_set_sda 1.

Definition i2c_waitack : I Z :=
  stm32_set_sda 1 ;;;
  r <- SCL_H ;;
  if r <? 0 then ret (- RT_ETIMEOUT) else
  v <- stm32_get_sda ;;
  SCL_L ;;;
  ret (if v then 0 else 1).

(** The bits below [n], from the highest. *)
Fixpoint write_bits (n : nat) (data : Z) : I Z :=
  match n with
  | O => ret RT_EOK
  | S i =>
      SCL_L ;;;
      stm32_set_sda (Z.land (Z.shiftr data (Z.of_nat i)) 1) ;;;
      r <- SCL_H ;;
      if r <? 0 then ret (- RT_ETIMEOUT) else write_bits i data
  end.

Definition i2c_writeb (data : Z) : I Z :=
  r <- write_bits 8 data ;;
  if r <? 0 then ret (- RT_ETIMEOUT) else
  SCL_L ;;;
  i2c_waitack.

Fixpoint read_bits (n : nat) (data : Z) : I Z :=
  match n with
  | O => ret data
  | S n =>
      let data := u8 (Z.shiftl data 1) in
      r <- SCL_H ;;
      if r <? 0 then ret (- RT_ETIMEOUT) else
      v <- stm32_get_sda ;;
      let data := if v then Z.lor data 1 else data in
      SCL_L ;;;
      read_bits n data
  end.

Definition i2c_readb : I Z := stm32_set_sda 1 ;;; read_bits 8 0.

(** [ptr] is what is left of the buffer, [count] what is left to send. *)
Fixpoint send_from (ptr : list Z) (count : nat) (ignore_nack : bool) (bytes : Z) {struct count} : I Z :=
  match count with
  | O => ret bytes
  | S count =>
      match ptr with
      | [] => undefined
      | b :: ptr =>
          r <- i2c_writeb b ;;
          if (0 <? r) || (ignore_nack && (r =? 0)) then send_from ptr count ignore_nack (bytes + 1)
          else if r =? 0 then ret 0
          else ret r
      end
  end.

Definition i2c_send_bytes (msg : rt_i2c_msg) : I Z :=
  send_from msg.(buf) (Z.to_nat msg.(len)) (has msg.(flags) RT_I2C_IGNORE_NACK) 0.

Definition i2c_send_ack_or_nack (ack : bool) : I Z :=
  (if ack then stm32_set_sda 0 else ret tt) ;;;
  r <- SCL_H ;;
  if r <? 0 then ret (- RT_ETIMEOUT) else
  SCL_L ;;;
  ret RT_EOK.

(** The number of bytes or an error, and the bytes stored so far. *)
Fixpoint recv_from (count : nat) (no_ack : bool) (got : list Z) : I (Z * list Z) :=
  match count with
  | O => ret (Z.of_nat (length got), got)
  | S count =>
      v <- i2c_readb ;;
      if v <? 0 then ret (Z.of_nat (length got), got) else
      let got := got ++ [u8 v] in
      if no_ack then recv_from count no_ack got else
      r <- i2c_send_ack_or_nack (negb (Nat.eqb count 0)) ;;
      if r <? 0 then ret (r, got) else recv_from count no_ack got
  end.

Definition i2c_recv_bytes (msg : rt_i2c_msg) : I (Z * list Z) :=
  recv_from (Z.to_nat msg.(len)) (has msg.(flags) RT_I2C_NO_READ_ACK) [].

(** [more] is the number of attempts that may still follow this one. *)
Fixpoint send_address (more : nat) (addr : Z) : I Z :=
  r <- i2c_writeb addr ;;
  if r =? 1 then ret r else
  match more with
  | O => ret r
  | S more => i2c_stop ;;; i2c_start ;;; send_address more addr
  end.

Definition i2c_send_address (addr retries : Z) : I Z := send_address (Z.to_nat retries) addr.

Definition i2c_bit_send_address (msg : rt_i2c_msg) : I Z :=
  let ignore_nack := has msg.(flags) RT_I2C_IGNORE_NACK in
  let retries := if ignore_nack then 0 else ops.(retries) in
  if has msg.(flags) RT_I2C_ADDR_10BIT then
    let addr1 := u8 (Z.lor 0xf0 (Z.land (Z.shiftr msg.(addr) 7) 0x06)) in
    let addr2 := u8 (Z.land msg.(addr) 0xff) in
    r <- i2c_send_address addr1 retries ;;
    if negb (r =? 1) && negb ignore_nack then ret (- RT_EIO) else
    r <- i2c_writeb addr2 ;;
    if negb (r =? 1) && negb ignore_nack then ret (- RT_EIO) else
    if has msg.(flags) RT_I2C_RD then
      i2c_restart ;;;
      r <- i2c_send_address (Z.lor addr1 0x01) retries ;;
      if negb (r =? 1) && negb ignore_nack then ret (- RT_EIO) else ret RT_EOK
    else ret RT_EOK
  else
    let addr1 := u8 (Z.shiftl msg.(addr) 1) in
    let addr1 := if has msg.(flags) RT_I2C_RD then Z.lor addr1 1 else addr1 in
    r <- i2c_send_address addr1 retries ;;
    if negb (r =? 1) && negb ignore_nack then ret (- RT_EIO) else ret RT_EOK.

(** The bytes that were received replace the first ones of the buffer. *)
Definition with_buf (got : list Z) (msg : rt_i2c_msg) : rt_i2c_msg :=
  mk_i2c_msg msg.(addr) msg.(flags) msg.(len) (got ++ drop (length got) msg.(buf)).

(** One round of the loop of [i2c_bit_xfer]: [RT_EOK] to go on, or the value with
    which the loop is left. *)
Definition xfer_msg (first : bool) (msg : rt_i2c_msg) : I (Z * rt_i2c_msg) :=
  let ignore_nack := has msg.(flags) RT_I2C_IGNORE_NACK in
  r <- (if has msg.(flags) RT_I2C_NO_START then ret RT_EOK
        else (if first then i2c_start else i2c_restart) ;;; i2c_bit_send_address msg) ;;
  if negb (r =? RT_EOK) && negb ignore_nack then ret (r, msg) else
  if has msg.(flags) RT_I2C_RD then
    '(r, got) <- i2c_recv_bytes msg ;;
    let msg' := with_buf got msg in
    if r <? msg.(len) then ret (if 0 <=? r then - RT_EIO else r, msg') else ret (RT_EOK, msg')
  else
    r <- i2c_send_bytes msg ;;
    if r <? msg.(len) then ret (if 0 <=? r then - RT_ERROR else r, msg) else ret (RT_EOK, msg).

(** The messages from number [i] on; the stop condition is up to the last
    message that was looked at. *)
Fixpoint xfer_from (i : Z) (msgs : list rt_i2c_msg) : I (Z * list rt_i2c_msg) :=
  match msgs with
  | [] => ret (i, [])
  | msg :: rest =>
      '(r, msg') <- xfer_msg (i =? 0) msg ;;
      let stop := if has msg.(flags) RT_I2C_NO_STOP then ret tt else i2c_stop in
      if negb (r =? RT_EOK) then stop ;;; ret (r, msg' :: rest) else
      match rest with
      | [] => stop ;;; ret (i + 1, [msg'])
      | _ :: _ =>
          '(r, rest') <- xfer_from (i + 1) rest ;;
          ret (r, msg' :: rest')
      end
  end.

(** The number of messages transferred or an error, and the messages with the
    bytes received.  Called with at least one message; without one, the code
    uses a message that does not exist. *)
Definition i2c_bit_xfer (msgs : list rt_i2c_msg) : I (Z * list rt_i2c_msg) :=
  match msgs with [] => undefined | _ :: _ => xfer_from 0 msgs end.

(** ** drv_soft_i2c.c *)

(** [rt_pin_write] on the clock pin, which does not wait for the line. *)
Definition pin_write_scl (v : bool) : I unit :=
  if v then (s <- gets id ;; if hold s.(wave) <=? 0 then rise else ret tt) else SCL_L.

Fixpoint clock_pulses (n : nat) : I unit :=
  match n with
  | O => ret tt
  | S n => pin_write_scl true ;;; pin_write_scl false ;;; clock_pulses n
  end.

Definition stm32_i2c_gpio_init : I unit := pin_write_scl true ;;; stm32_set_sda 1.

Definition stm32_i2c_bus_unlock : I Z :=
  v <- stm32_get_sda ;;
  (if v then ret tt else clock_pulses 9) ;;;
  v <- stm32_get_sda ;;
  ret (if v then RT_EOK else - RT_ERROR).

End driver.
End I2cBit.
