(* ===== verification/I2cBitSpec.v ===== *)
(** * What is on the wires

    The I2C protocol, read off the levels of the two lines: start and stop
    conditions, bits, and whose turn it is to put out the next bit.  The pieces
    of the bus driver (I2cBit.v) against this reading. *)

From Stdlib Require Import ZArith Lia.
From stdpp Require Import prelude list.
From S2P Require Import Prelude Kernel I2cBit.
Import I2cBit.
Open Scope Z_scope.
Open Scope c_scope.

(** ** Reading the lines *)

Inductive symbol := Start | Stop | Bit (b : bool).
#[export] Instance symbol_eq_dec : EqDecision symbol.
Proof. solve_decision. Defined.

(** Clock low; clock high with the data line steady since it rose; clock high
    after a start or stop condition. *)
Inductive phase := Low | High (sda : bool) | Marked (sda : bool).

(** A change of the data line while the clock is high is a start condition when
    it falls and a stop condition when it rises; otherwise a clock pulse is a
    bit. *)
Definition dec_step (d : phase * list symbol) (l : level) : phase * list symbol :=
  let '(p, syms) := d in
  let '(scl, sda) := l in
  let edge v := if Bool.eqb sda v then (p, syms)
                else (Marked sda, syms ++ [if sda then Stop else Start]) in
  match p, scl with
  | Low, true => (High sda, syms)
  | Low, false => (Low, syms)
  | High v, true => edge v
  | High v, false => (Low, syms ++ [Bit v])
  | Marked v, true => edge v
  | Marked _, false => (Low, syms)
  end.

(** The lines are high before the first action. *)
Fixpoint dec (w : list level) : phase * list symbol :=
  match w with [] => (Marked true, []) | l :: w => dec_step (dec w) l end.

(** ** Whose turn it is *)

(** Nothing under way; bits of an address; the slave's acknowledgement of it;
    bits of a byte to the slave and its acknowledgement; bits from the slave
    and the master's acknowledgement; the master is about to stop. *)
Inductive prot :=
| PIdle
| PAddr (n : nat)
| PAddrAck (rd : bool)
| PWrite (n : nat)
| PWriteAck
| PRead (n : nat)
| PReadAck
| PDone.

Definition prot_step (p : prot) (x : symbol) : prot :=
  match x with
  | Start => PAddr 0
  | Stop => PIdle
  | Bit b =>
      match p with
      | PIdle => PIdle
      | PAddr n => if (n <? 7)%nat then PAddr (S n) else PAddrAck b
      | PAddrAck rd => if b then PDone else if rd then PRead 0 else PWrite 0
      | PWrite n => if (n <? 7)%nat then PWrite (S n) else PWriteAck
      | PWriteAck => PWrite 0
      | PRead n => if (n <? 7)%nat then PRead (S n) else PReadAck
      | PReadAck => if b then PDone else PRead 0
      | PDone => PDone
      end
  end.

Definition run_prot (p : prot) (syms : list symbol) : prot := fold_left prot_step syms p.
Abbreviation prot_of := (run_prot PIdle).

Definition slave_turn (p : prot) : bool :=
  match p with PAddrAck _ | PWriteAck | PRead _ => true | _ => false end.

Lemma prot_of_app p l1 l2 : run_prot p (l1 ++ l2) = run_prot (run_prot p l1) l2.
Proof. apply fold_left_app. Qed.

(** ** Slaves that follow the protocol *)

(** They leave the data line alone when it is not their turn and do not change
    it when the clock rises, and they hold the clock no longer than the
    timeout; a sleep lasts at least as long as asked for. *)
Class Protocol `{Wires} (ops : bit_ops) : Prop := {
  slave_releases : forall w, slave_turn (prot_of (dec w).2) = false -> slave w = true;
  slave_stable : forall w x, (dec w).1 = Low -> slave ((true, x) :: w) = slave w;
  slave_hold : forall w, hold w <= timeout ops;
  timeout_range : 1 <= timeout ops < 2 ^ 31;
  sleeps : forall d t, d <= slept d t
}.

(** In the slave's turn, the level when the clock rises is the slave's. *)
Fixpoint heard `{Wires} (w : list level) : Prop :=
  match w with
  | [] => True
  | (scl, sda) :: w =>
      heard w /\ (scl = true -> (dec w).1 = Low -> slave_turn (prot_of (dec w).2) = true -> sda = slave w)
  end.

Section pieces.
Context `{Wires} (ops : bit_ops) `{!Protocol ops}.

(** ** Single actions *)

(** The symbols when the clock falls next. *)
Definition fall (d : phase * list symbol) : list symbol :=
  match d with (High v, l) => l ++ [Bit v] | (_, l) => l end.

Definition bus (s : lines) (syms : list symbol) : Prop :=
  fall (dec (wave s)) = syms /\ heard (wave s).

Record low (s : lines) (sda : bool) (syms : list symbol) : Prop := {
  low_scl : scl_line s = false;
  low_sda : sda_out s = sda;
  low_dec : dec (wave s) = (Low, syms);
  low_heard : heard (wave s)
}.

Record high (s : lines) (sda : bool) (v : bool) (syms : list symbol) : Prop := {
  high_scl : scl_line s = true;
  high_sda : sda_out s = sda;
  high_dec : dec (wave s) = (High v, syms);
  high_heard : heard (wave s);
  high_line : sda_line s = v
}.

Lemma low_bus s sda syms : low s sda syms -> bus s syms.
Proof. intros [_ _ E Hh]. split; [by rewrite E|done]. Qed.

Lemma high_bus s sda v syms : high s sda v syms -> bus s (syms ++ [Bit v]).
Proof. intros [_ _ E Hh _]. split; [by rewrite E|done]. Qed.

Lemma SCL_L_ok s syms : bus s syms -> exists s', SCL_L s = Some (tt, s') /\ low s' (sda_out s) syms.
Proof.
  intros [E Hh]. eexists. split; [reflexivity|]. split; cbn [drive scl_line sda_out wave dec heard]; [done|done| |done].
  unfold dec_step, fall in *. destruct (dec (wave s)) as [[]]; by subst.
Qed.

Lemma set_sda_low s v b syms :
  low s b syms -> exists s', stm32_set_sda v s = Some (tt, s') /\ low s' (truthy v) syms.
Proof.
  intros [Es _ Ed Hh]. eexists. split; [reflexivity|].
  split; cbn [drive scl_line sda_out wave dec heard]; rewrite ?Es; [done|done|by rewrite Ed|by rewrite Ed].
Qed.

(** The clock line goes up within the time allowed. *)
Lemma wait_scl_ok fuel start s :
  0 <= now s - start -> timeout ops <= now s - start + Z.of_nat fuel * Z.shiftr (timeout ops + 1) 1 ->
  exists s1 s', wait_scl ops fuel start s = Some (RT_EOK, s') /\ rise s1 = Some (tt, s') /\
    sda_out s1 = sda_out s /\ scl_line s1 = scl_line s /\ wave s1 = wave s.
Proof.
  pose proof timeout_range as Ht. revert s. induction fuel as [|fuel IH]; intros s Hs Hf; cbn [wait_scl].
  all: cbv [bind gets id]; destruct (Z.leb_spec (hold (wave s)) (now s - start)) as [Hh|Hh];
    [exists s; eexists; split; [reflexivity|done]|].
  all: pose proof (slave_hold (wave s)) as Hmax.
  - lia.
  - rewrite (proj2 (Z.ltb_ge _ _)).
    2:{ unfold u32. rewrite <- Zminus_mod. rewrite Z.mod_small by lia. lia. }
    cbv [rt_thread_delay modify]. set (s2 := mk_lines _ _ _ _).
    assert (0 <= Z.shiftr (timeout ops + 1) 1) as Hd by (apply Z.shiftr_nonneg; lia).
    pose proof (sleeps (Z.shiftr (timeout ops + 1) 1) (now s)) as Hsl.
    destruct (IH s2) as (s1 & s' & E & Er & E1 & E2 & E3).
    { unfold s2. cbn [now]. lia. }
    { unfold s2. cbn [now]. lia. }
    by exists s1, s'.
Qed.

Lemma SCL_H_ok s b syms :
  low s b syms -> (slave_turn (prot_of syms) = true -> b = true) ->
  exists v s', SCL_H ops s = Some (RT_EOK, s') /\ high s' b v syms /\ v = b && slave (wave s).
Proof.
  intros [Es Eb Ed Hh] Hb.
  assert (forall s1 s', rise s1 = Some (tt, s') -> sda_out s1 = sda_out s -> wave s1 = wave s ->
            high s' b (b && slave (wave s)) syms) as Hr.
  { intros s1 s' [= <-] E1 E2. unfold drive. rewrite E1, E2, Eb.
    split; cbn [scl_line sda_out wave dec heard]; rewrite ?Ed; [done|done|done| |].
    - split; [done|]. intros _ _ Hturn. rewrite (Hb Hturn). done.
    - unfold sda_line. cbn [sda_out wave]. rewrite slave_stable; [done|by rewrite Ed]. }
  unfold SCL_H. destruct (get_scl ops); cbn [negb].
  - cbv [bind gets]. pose proof timeout_range as Ht.
    destruct (wait_scl_ok 3 (now s) s) as (s1 & s' & E & Er & E1 & _ & E3).
    { lia. }
    { rewrite Z.shiftr_div_pow2 by lia. change (2 ^ 1) with 2. divmod. }
    rewrite E. eexists _, s'. split; [done|]. split; [|done]. by apply (Hr s1).
  - eexists _, _. split; [reflexivity|]. split; [|done]. by apply (Hr s).
Qed.

(** Nobody but the master pulls the line in its turn. *)
Lemma master_bit s b syms : low s b syms -> slave_turn (prot_of syms) = false -> slave (wave s) = true.
Proof. intros [_ _ Ed _] Ht. apply slave_releases. by rewrite Ed. Qed.

Lemma get_sda_ok s b v syms : high s b v syms -> stm32_get_sda s = Some (v, s).
Proof. intros Hs. unfold stm32_get_sda, gets. by rewrite (high_line _ _ _ _ Hs). Qed.

(** ** Bytes to the slave *)

Fixpoint bits (n : nat) (data : Z) : list bool :=
  match n with O => [] | S i => Z.testbit data (Z.of_nat i) :: bits i data end.
Definition byte (data : Z) : list symbol := Bit <$> bits 8 data.

(** The master still has [n] bits of a byte to put out. *)
Definition bits_left (p : prot) (n : nat) : Prop :=
  (n <= 8)%nat /\ (p = PAddr (8 - n) \/ p = PWrite (8 - n)).

Lemma bits_left_turn p n : bits_left p n -> slave_turn p = false.
Proof. by intros [_ [->| ->]]. Qed.

Lemma bits_left_step p n b : bits_left p (S (S n)) -> bits_left (prot_step p (Bit b)) (S n).
Proof.
  intros [Hn [->| ->]]; (split; [lia|]); cbn [prot_step];
    replace (8 - S (S n) <? 7)%nat with true by (symmetry; apply Nat.ltb_lt; lia);
    [left|right]; f_equal; lia.
Qed.

Lemma land_1_truthy x : truthy (Z.land x 1) = Z.testbit x 0.
Proof.
  change 1 with (Z.ones 1). rewrite Z.land_ones by lia. change (2 ^ 1) with 2. rewrite <- Z.bit0_mod.
  by destruct (Z.testbit x 0).
Qed.

Lemma write_bits_ok n data s syms :
  bus s syms -> n = O \/ bits_left (prot_of syms) n ->
  exists s', write_bits ops n data s = Some (RT_EOK, s') /\ bus s' (syms ++ (Bit <$> bits n data)).
Proof.
  revert s syms. induction n as [|n IH]; intros s syms Hs Hp; cbn [write_bits bits fmap list_fmap].
  { exists s. by rewrite app_nil_r. }
  destruct Hp as [|Hp]; [done|]. destruct (SCL_L_ok s syms Hs) as (s1 & E1 & H1). rewrite (bind_eq _ _ _ _ _ E1).
  destruct (set_sda_low s1 (Z.land (Z.shiftr data (Z.of_nat n)) 1) _ _ H1) as (s2 & E2 & H2).
  rewrite (bind_eq _ _ _ _ _ E2). rewrite land_1_truthy, Z.shiftr_spec in H2 by lia. cbn in H2.
  destruct (SCL_H_ok s2 _ _ H2) as (v & s3 & E3 & H3 & Hv).
  { by rewrite (bits_left_turn _ _ Hp). }
  rewrite (bind_eq _ _ _ _ _ E3). cbn.
  rewrite (master_bit _ _ _ H2 (bits_left_turn _ _ Hp)), andb_true_r in Hv. subst v.
  destruct (IH s3 (syms ++ [Bit (Z.testbit data (Z.of_nat n))])) as (s4 & E4 & H4).
  { by apply high_bus in H3. }
  { destruct n as [|n]; [by left|right]. rewrite prot_of_app. by apply bits_left_step. }
  exists s4. split; [done|]. by rewrite <- app_assoc in H4.
Qed.

Lemma prot_byte_addr data : run_prot (PAddr 0) (byte data) = PAddrAck (Z.testbit data 0).
Proof. done. Qed.

Lemma prot_byte_write data : run_prot (PWrite 0) (byte data) = PWriteAck.
Proof. done. Qed.

(** A byte and the slave's acknowledgement. *)
Lemma writeb_ok data s b syms :
  low s b syms -> prot_of syms = PAddr 0 \/ prot_of syms = PWrite 0 ->
  exists (a : bool) s', i2c_writeb ops data s = Some (if a then 0 else 1, s') /\
    low s' true (syms ++ byte data ++ [Bit a]).
Proof.
  intros Hs Hp. unfold i2c_writeb.
  destruct (write_bits_ok 8 data s syms) as (s1 & E1 & H1); [by eapply low_bus|right; split; [lia|by destruct Hp; auto]|].
  rewrite (bind_eq _ _ _ _ _ E1). cbn [Z.ltb]. cbv beta iota. change (RT_EOK <? 0) with false. cbv iota.
  destruct (SCL_L_ok s1 _ H1) as (s2 & E2 & H2). rewrite (bind_eq _ _ _ _ _ E2). unfold i2c_waitack.
  destruct (set_sda_low s2 1 _ _ H2) as (s3 & E3 & H3). rewrite (bind_eq _ _ _ _ _ E3).
  destruct (SCL_H_ok s3 true _ H3) as (a & s4 & E4 & H4 & _); [done|]. rewrite (bind_eq _ _ _ _ _ E4).
  change (RT_EOK <? 0) with false. cbv iota. rewrite (bind_eq _ _ _ _ _ (get_sda_ok _ _ _ _ H4)).
  destruct (SCL_L_ok s4 _ (high_bus _ _ _ _ H4)) as (s5 & E5 & H5). rewrite (bind_eq _ _ _ _ _ E5).
  exists a, s5. split; [done|]. rewrite (high_sda _ _ _ _ H4) in H5. by rewrite app_assoc.
Qed.

(** ** Bytes from the slave *)

Lemma testbit_double d (v : bool) i : 0 <= i -> Z.testbit (2 * d + Z.b2z v) (Z.succ i) = Z.testbit d i.
Proof. intros Hi. destruct v; [by apply Z.testbit_odd_succ|]. rewrite Z.add_0_r. by apply Z.testbit_even_succ. Qed.

Lemma bits_snoc k d (v : bool) : bits (S k) (2 * d + Z.b2z v) = bits k d ++ [v].
Proof.
  induction k as [|k IH].
  - cbn [bits Z.of_nat app]. f_equal. destruct v; [apply Z.testbit_odd_0|]. rewrite Z.add_0_r. apply Z.testbit_even_0.
  - cbn [bits app]. f_equal; [|exact IH].
    rewrite Nat2Z.inj_succ. apply testbit_double. lia.
Qed.

Lemma shift_in d (v : bool) :
  0 <= d < 128 -> (if v then Z.lor (u8 (Z.shiftl d 1)) 1 else u8 (Z.shiftl d 1)) = 2 * d + Z.b2z v.
Proof.
  intros Hd. rewrite Z.shiftl_mul_pow2 by lia. change (2 ^ 1) with 2. rewrite u8_small by lia.
  destruct v; cbn [Z.b2z]; [|lia]. pose proof (Z.add_lor_land (d * 2) 1) as E.
  change 1 with (Z.ones 1) in E at 2. rewrite Z.land_ones in E by lia. change (2 ^ 1) with 2 in E.
  rewrite Z_mod_mult in E. lia.
Qed.

Lemma read_bits_ok n data s syms :
  low s true syms -> (n <= 8)%nat -> n = O \/ prot_of syms = PRead (8 - n) -> 0 <= data < 2 ^ Z.of_nat (8 - n) ->
  exists v l s', read_bits ops n data s = Some (v, s') /\ 0 <= v < 256 /\ length l = n /\
    bits 8 v = bits (8 - n) data ++ l /\ low s' true (syms ++ (Bit <$> l)).
Proof.
  revert data s syms. induction n as [|n IH]; intros data s syms Hs Hn Hp Hd; cbn [read_bits].
  { exists data, [], s. rewrite !app_nil_r. split_and!; try done; cbn in *; lia. }
  destruct Hp as [|Hp]; [done|].
  destruct (SCL_H_ok s true syms Hs) as (v & s1 & E1 & H1 & _); [done|]. rewrite (bind_eq _ _ _ _ _ E1).
  change (RT_EOK <? 0) with false. cbv iota. rewrite (bind_eq _ _ _ _ _ (get_sda_ok _ _ _ _ H1)).
  destruct (SCL_L_ok s1 _ (high_bus _ _ _ _ H1)) as (s2 & E2 & H2). rewrite (bind_eq _ _ _ _ _ E2).
  rewrite (high_sda _ _ _ _ H1) in H2.
  assert (2 ^ Z.of_nat (8 - n) = 2 * 2 ^ Z.of_nat (8 - S n)) as Epow.
  { replace (8 - n)%nat with (S (8 - S n)) by lia. rewrite Nat2Z.inj_succ, Z.pow_succ_r by lia. done. }
  assert (2 ^ Z.of_nat (8 - S n) <= 128) as Hle.
  { change 128 with (2 ^ 7). apply Z.pow_le_mono_r; lia. }
  rewrite shift_in by lia.
  destruct (IH (2 * data + Z.b2z v) s2 (syms ++ [Bit v])) as (r & l & s3 & E3 & Hr & Hl & Hb & H3).
  - done.
  - lia.
  - destruct n as [|n]; [by left|right]. rewrite prot_of_app, Hp. cbn [run_prot fold_left prot_step].
    replace (8 - S (S n) <? 7)%nat with true by (symmetry; apply Nat.ltb_lt; lia). f_equal. lia.
  - rewrite Epow. destruct v; cbn [Z.b2z]; lia.
  - exists r, (v :: l), s3. split; [done|]. split; [done|]. split; [cbn; lia|]. split.
    + rewrite Hb. replace (8 - n)%nat with (S (8 - S n)) by lia. rewrite bits_snoc. by rewrite <- app_assoc.
    + by rewrite <- app_assoc in H3.
Qed.

Lemma readb_ok s b syms :
  low s b syms -> prot_of syms = PRead 0 ->
  exists v s', i2c_readb ops s = Some (v, s') /\ 0 <= v < 256 /\ low s' true (syms ++ byte v).
Proof.
  intros Hs Hp. unfold i2c_readb. destruct (set_sda_low s 1 _ _ Hs) as (s1 & E1 & H1). rewrite (bind_eq _ _ _ _ _ E1).
  destruct (read_bits_ok 8 0 s1 syms H1) as (v & l & s2 & E2 & Hv & _ & Hb & H2); [lia|by right|cbn; lia|].
  exists v, s2. split; [done|]. split; [done|]. cbn [Nat.sub] in Hb. change (bits 0 0 ++ l) with l in Hb.
  unfold byte. by rewrite Hb.
Qed.

(** The master's acknowledgement of a byte, with the line released before. *)
Lemma ack_or_nack_ok ack s syms :
  low s true syms -> prot_of syms = PReadAck ->
  exists s', i2c_send_ack_or_nack ops ack s = Some (RT_EOK, s') /\ low s' (negb ack) (syms ++ [Bit (negb ack)]).
Proof.
  intros Hs Hp. unfold i2c_send_ack_or_nack.
  assert (exists s1, (if ack then stm32_set_sda 0 else ret tt) s = Some (tt, s1) /\ low s1 (negb ack) syms) as (s1 & E1 & H1).
  { destruct ack; [|by exists s]. by apply (set_sda_low s 0 true). }
  rewrite (bind_eq _ _ _ _ _ E1). assert (slave_turn (prot_of syms) = false) as Ht by by rewrite Hp.
  destruct (SCL_H_ok s1 _ _ H1) as (v & s2 & E2 & H2 & Hv); [by rewrite Ht|]. rewrite (bind_eq _ _ _ _ _ E2).
  rewrite (master_bit _ _ _ H1 Ht), andb_true_r in Hv. subst v. change (RT_EOK <? 0) with false. cbv iota.
  destruct (SCL_L_ok s2 _ (high_bus _ _ _ _ H2)) as (s3 & E3 & H3). rewrite (bind_eq _ _ _ _ _ E3).
  rewrite (high_sda _ _ _ _ H2) in H3. eauto.
Qed.

(** ** Start and stop conditions *)

Record idle (s : lines) (syms : list symbol) : Prop := {
  idle_scl : scl_line s = true;
  idle_sda : sda_out s = true;
  idle_dec : dec (wave s) = (High true, syms) \/ dec (wave s) = (Marked true, syms);
  idle_prot : prot_of syms = PIdle;
  idle_heard : heard (wave s)
}.

Lemma start_condition s syms :
  scl_line s = true -> dec (wave s) = (High true, syms) \/ dec (wave s) = (Marked true, syms) -> heard (wave s) ->
  exists s', (stm32_set_sda 0 ;;; SCL_L) s = Some (tt, s') /\ low s' false (syms ++ [Start]).
Proof.
  intros Es Ed Hh. cbv [bind stm32_set_sda modify].
  set (s1 := drive (truthy 0) (scl_line s) s).
  destruct (SCL_L_ok s1 (syms ++ [Start])) as (s2 & E2 & H2).
  - unfold s1. split; cbn [drive wave dec heard]; rewrite Es.
    + by destruct Ed as [-> | ->].
    + split; [done|]. intros _ Hl. destruct Ed as [E|E]; by rewrite E in Hl.
  - exists s2. by split.
Qed.

Lemma wire_start_ok s syms :
  idle s syms -> exists s', i2c_start s = Some (tt, s') /\ low s' false (syms ++ [Start]).
Proof. intros [Es _ Ed _ Hh]. by apply start_condition. Qed.

Lemma restart_ok s b syms :
  low s b syms -> slave_turn (prot_of syms) = false ->
  exists s', i2c_restart ops s = Some (tt, s') /\ low s' false (syms ++ [Start]).
Proof.
  intros Hs Ht. unfold i2c_restart. destruct (set_sda_low s 1 _ _ Hs) as (s1 & E1 & H1). rewrite (bind_eq _ _ _ _ _ E1).
  destruct (SCL_H_ok s1 true _ H1) as (v & s2 & E2 & H2 & Hv); [done|]. rewrite (bind_eq _ _ _ _ _ E2).
  rewrite (master_bit _ _ _ H1 Ht) in Hv. cbn in Hv. subst v. destruct H2 as [Es _ Ed Hh _].
  apply start_condition; auto.
Qed.

Lemma wire_stop_ok s b syms :
  low s b syms -> slave_turn (prot_of syms) = false ->
  exists s', i2c_stop ops s = Some (tt, s') /\ idle s' (syms ++ [Stop]).
Proof.
  intros Hs Ht. unfold i2c_stop. destruct (set_sda_low s 0 _ _ Hs) as (s1 & E1 & H1). rewrite (bind_eq _ _ _ _ _ E1).
  destruct (SCL_H_ok s1 false _ H1) as (v & s2 & E2 & H2 & Hv); [by rewrite Ht|]. rewrite (bind_eq _ _ _ _ _ E2).
  cbn in Hv. subst v. destruct H2 as [Es _ Ed Hh _]. eexists. split; [reflexivity|].
  assert (slave (wave s2) = true) as Hsl by (apply slave_releases; by rewrite Ed).
  split; cbn [drive scl_line sda_out wave dec heard]; rewrite ?Es, ?Ed, ?Hsl; try done.
  - by right.
  - by rewrite prot_of_app.
Qed.

End pieces.
