(* ===== verification/I2cTransfer.v ===== *)
(** * I2C transfers on the wires

    A transfer of the bus driver of I2cBit.v puts on the lines exactly what the
    protocol prescribes for its messages, and what it returns is what the slave
    has answered. *)

From Stdlib Require Import ZArith Lia.
From stdpp Require Import prelude list.
From S2P Require Import Prelude Kernel I2cBit I2cBitSpec.
Import I2cBit.
Open Scope Z_scope.
Open Scope c_scope.

(** ** Frames *)

(** The attempts to address a slave: it answers, or the retries are used up. *)
Inductive addressed (a : Z) : nat -> list symbol -> bool -> Prop :=
| addr_ack more : addressed a more (byte a ++ [Bit false]) true
| addr_nack : addressed a 0 (byte a ++ [Bit true]) false
| addr_retry more syms ok : addressed a more syms ok ->
    addressed a (S more) (byte a ++ [Bit true; Stop; Start] ++ syms) ok.

(** Bytes to the slave, up to the first one that it does not acknowledge. *)
Inductive sends : list Z -> list symbol -> bool -> Prop :=
| sends_nil : sends [] [] true
| sends_nack b bs : sends (b :: bs) (byte b ++ [Bit true]) false
| sends_ack b bs syms ok : sends bs syms ok -> sends (b :: bs) (byte b ++ [Bit false] ++ syms) ok.

(** Bytes from the slave; the master acknowledges all but the last. *)
Fixpoint read_frame (bs : list Z) : list symbol :=
  match bs with
  | [] => []
  | b :: bs => byte b ++ [Bit (match bs with [] => true | _ => false end)] ++ read_frame bs
  end.

Definition is_read (m : rt_i2c_msg) : bool := has m.(flags) RT_I2C_RD.
Definition addr_byte (m : rt_i2c_msg) : Z := 2 * m.(addr) + Z.b2z (is_read m).

(** A message after the start condition: what is on the lines, the result, and
    the message with its buffer. *)
Inductive message (retries : nat) (m : rt_i2c_msg) : list symbol -> Z -> rt_i2c_msg -> Prop :=
| msg_no_slave syms : addressed (addr_byte m) retries syms false -> message retries m syms (- RT_EIO) m
| msg_refused s1 s2 : is_read m = false -> addressed (addr_byte m) retries s1 true ->
    sends (take (Z.to_nat m.(len)) m.(buf)) s2 false -> message retries m (s1 ++ s2) (- RT_ERROR) m
| msg_sent s1 s2 : is_read m = false -> addressed (addr_byte m) retries s1 true ->
    sends (take (Z.to_nat m.(len)) m.(buf)) s2 true -> message retries m (s1 ++ s2) RT_EOK m
| msg_received s1 bs : is_read m = true -> addressed (addr_byte m) retries s1 true ->
    length bs = Z.to_nat m.(len) -> Forall (fun b => 0 <= b < 256) bs ->
    message retries m (s1 ++ read_frame bs) RT_EOK (with_buf bs m).

(** The messages of a transfer from number [i] on, up to the first that fails. *)
Inductive transfer (retries : nat) : Z -> list rt_i2c_msg -> list symbol -> Z -> list rt_i2c_msg -> Prop :=
| xfer_fails i m rest syms r m' : message retries m syms r m' -> r <> RT_EOK ->
    transfer retries i (m :: rest) (Start :: syms ++ [Stop]) r (m' :: rest)
| xfer_last i m syms m' : message retries m syms RT_EOK m' ->
    transfer retries i [m] (Start :: syms ++ [Stop]) (i + 1) [m']
| xfer_more i m rest syms m' syms' r rest' : rest <> [] -> message retries m syms RT_EOK m' ->
    transfer retries (i + 1) rest syms' r rest' ->
    transfer retries i (m :: rest) (Start :: syms ++ syms') r (m' :: rest').

(** The messages the program sends: plain reads and writes to a 7-bit address,
    reads of at least one byte. *)
Definition plain (m : rt_i2c_msg) : Prop :=
  0 <= m.(addr) < 128 /\ 0 <= m.(len) < 65536 /\
  (m.(flags) = RT_I2C_WR /\ m.(len) <= Z.of_nat (length m.(buf)) \/ m.(flags) = RT_I2C_RD /\ 1 <= m.(len)).

Section transfers.
Context `{Wires} (ops : bit_ops) `{!Protocol ops}.

(** ** The pieces of a message *)

Lemma send_address_ok more a s b syms :
  low s b syms -> prot_of syms = PAddr 0 ->
  exists (ok : bool) syms' b' s', send_address ops more a s = Some (if ok then 1 else 0, s') /\
    addressed a more syms' ok /\ low s' b' (syms ++ syms') /\
    prot_of (syms ++ syms') = if ok then (if Z.testbit a 0 then PRead 0 else PWrite 0) else PDone.
Proof.
  revert s b syms. induction more as [|more IH]; intros s b syms Hs Hp; cbn [send_address].
  all: destruct (writeb_ok ops a s b syms Hs (or_introl Hp)) as ([] & s1 & E1 & H1); rewrite (bind_eq _ _ _ _ _ E1).
  all: assert (forall x, prot_of (syms ++ byte a ++ [Bit x]) =
         if x then PDone else if Z.testbit a 0 then PRead 0 else PWrite 0) as Hx
         by (intros []; rewrite !prot_of_app, Hp, prot_byte_addr; done).
  - exists false. eexists _, _, _. split; [done|]. split; [constructor|]. split; [done|apply (Hx true)].
  - exists true. eexists _, _, _. split; [done|]. split; [constructor|]. split; [done|apply (Hx false)].
  - destruct (wire_stop_ok ops s1 true _ H1) as (s2 & E2 & H2); [by rewrite Hx|].
    change (0 =? 1) with false. cbv iota. rewrite (bind_eq _ _ _ _ _ E2).
    destruct (wire_start_ok s2 _ H2) as (s3 & E3 & H3). rewrite (bind_eq _ _ _ _ _ E3).
    destruct (IH s3 _ _ H3) as (ok & syms' & b' & s4 & E4 & Ha & H4 & Hp4); [by rewrite prot_of_app|].
    rewrite <- !app_assoc in H4. rewrite <- !app_assoc in Hp4.
    exists ok, (byte a ++ [Bit true; Stop; Start] ++ syms'), b', s4.
    split; [done|]. split; [by constructor|]. by split.
  - exists true. eexists _, _, _. split; [done|]. split; [constructor|]. split; [done|apply (Hx false)].
Qed.

Lemma send_from_ok ptr count s b syms acc :
  low s b syms -> prot_of syms = PWrite 0 -> (count <= length ptr)%nat ->
  exists (ok : bool) syms' b' s',
    send_from ops ptr count false acc s = Some (if ok then acc + Z.of_nat count else 0, s') /\
    sends (take count ptr) syms' ok /\ low s' b' (syms ++ syms') /\ prot_of (syms ++ syms') = PWrite 0.
Proof.
  revert ptr s b syms acc. induction count as [|count IH]; intros ptr s b syms acc Hs Hp Hl; cbn [send_from].
  { exists true, [], b, s. rewrite app_nil_r. split; [by replace (acc + Z.of_nat 0) with acc by lia|]. split; [constructor|done]. }
  destruct ptr as [|x ptr]; [cbn in Hl; lia|].
  destruct (writeb_ok ops x s b syms Hs (or_intror Hp)) as (a & s1 & E1 & H1). rewrite (bind_eq _ _ _ _ _ E1).
  assert (prot_of (syms ++ byte x ++ [Bit a]) = PWrite 0) as Hp1 by (rewrite !prot_of_app, Hp, prot_byte_write; done).
  destruct a; cbn [orb andb Z.ltb Z.eqb]; cbn.
  - exists false. eexists _, _, _. split; [reflexivity|]. split; [constructor|]. by split.
  - destruct (IH ptr s1 _ _ (acc + 1) H1 Hp1) as (ok & syms' & b' & s2 & E2 & Hs2 & H2 & Hp2); [cbn in Hl; lia|].
    exists ok, (byte x ++ [Bit false] ++ syms'), b', s2. rewrite <- !app_assoc in H2, Hp2.
    split; [rewrite E2; do 3 f_equal; destruct ok; lia|]. split; [by constructor|]. by split.
Qed.

Lemma recv_from_ok count s b syms got :
  low s b syms -> prot_of syms = (if (count =? 0)%nat then PDone else PRead 0) ->
  exists bs b' s', recv_from ops count false got s = Some ((Z.of_nat (length (got ++ bs)), got ++ bs), s') /\
    length bs = count /\ Forall (fun b => 0 <= b < 256) bs /\ low s' b' (syms ++ read_frame bs) /\
    prot_of (syms ++ read_frame bs) = PDone.
Proof.
  revert s b syms got. induction count as [|count IH]; intros s b syms got Hs Hp; cbn [recv_from].
  { exists [], b, s. rewrite !app_nil_r. split_and!; try done. }
  destruct (readb_ok ops s b syms Hs Hp) as (v & s1 & E1 & Hv & H1). rewrite (bind_eq _ _ _ _ _ E1).
  replace (v <? 0) with false by lia. rewrite u8_small by done.
  assert (prot_of (syms ++ byte v) = PReadAck) as Hp1 by (rewrite prot_of_app, Hp; done).
  destruct (ack_or_nack_ok ops (negb (count =? 0)%nat) s1 _ H1 Hp1) as (s2 & E2 & H2). rewrite (bind_eq _ _ _ _ _ E2).
  rewrite negb_involutive in H2. change (RT_EOK <? 0) with false. cbv iota.
  destruct (IH s2 _ _ (got ++ [v]) H2) as (bs & b' & s3 & E3 & Hl & Hf & H3 & Hp3).
  { rewrite prot_of_app, Hp1. by destruct (count =? 0)%nat. }
  exists (v :: bs), b', s3. rewrite <- !app_assoc in E3. cbn [app] in E3. split; [done|]. split; [cbn; lia|].
  split; [by constructor|].
  assert (read_frame (v :: bs) = byte v ++ [Bit (count =? 0)%nat] ++ read_frame bs) as ->.
  { subst count. by destruct bs. }
  rewrite <- !app_assoc in H3, Hp3. by split.
Qed.

(** ** A message *)

Lemma plain_flags m : plain m -> (flags m = 0 /\ is_read m = false) \/ (flags m = 1 /\ is_read m = true).
Proof. unfold is_read. intros (_ & _ & [[-> _]|[-> _]]); [by left|by right]. Qed.

Lemma plain_has m :
  plain m -> has (flags m) RT_I2C_NO_START = false /\ has (flags m) RT_I2C_IGNORE_NACK = false /\
    has (flags m) RT_I2C_ADDR_10BIT = false /\ has (flags m) RT_I2C_NO_STOP = false /\
    has (flags m) RT_I2C_NO_READ_ACK = false.
Proof. intros Hm. by destruct (plain_flags m Hm) as [[-> _]|[-> _]]. Qed.

Lemma addr_byte_eq m :
  plain m -> addr_byte m = (if has (flags m) RT_I2C_RD then Z.lor (u8 (Z.shiftl (addr m) 1)) 1 else u8 (Z.shiftl (addr m) 1)).
Proof. intros (Ha & _). unfold addr_byte. by rewrite shift_in. Qed.

Lemma addr_byte_bit m : Z.testbit (addr_byte m) 0 = is_read m.
Proof. unfold addr_byte. destruct (is_read m); [apply Z.testbit_odd_0|]. rewrite Z.add_0_r. apply Z.testbit_even_0. Qed.

Lemma xfer_msg_ok (first : bool) m s syms :
  plain m -> (if first then idle s syms else exists b, low s b syms /\ slave_turn (prot_of syms) = false) ->
  exists r m' syms' b' s', xfer_msg ops first m s = Some ((r, m'), s') /\
    message (Z.to_nat (retries ops)) m syms' r m' /\
    low s' b' (syms ++ Start :: syms') /\ slave_turn (prot_of (syms ++ Start :: syms')) = false.
Proof.
  intros Hm Hs. unfold xfer_msg. destruct (plain_has m Hm) as (Hst & Hi & H10 & _ & Hra).
  assert (exists s1, (if first then i2c_start else i2c_restart ops) s = Some (tt, s1) /\ low s1 false (syms ++ [Start]))
    as (s1 & E1 & H1).
  { destruct first; [by apply wire_start_ok|]. destruct Hs as (b & Hs & Ht). by eapply restart_ok. }
  destruct (send_address_ok (Z.to_nat (retries ops)) (addr_byte m) s1 _ _ H1) as (ok & sa & b2 & s2 & E2 & Ha & H2 & Hp2).
  { by rewrite prot_of_app. }
  assert (((if first then i2c_start else i2c_restart ops) ;;; i2c_bit_send_address ops m) s
            = Some (if ok then RT_EOK else - RT_EIO, s2)) as Esa.
  { rewrite (bind_eq _ _ _ _ _ E1). unfold i2c_bit_send_address, i2c_send_address. cbv zeta.
    rewrite <- addr_byte_eq, Hi, H10 by done. rewrite (bind_eq _ _ _ _ _ E2). by destruct ok. }
  rewrite addr_byte_bit in Hp2.
  cbv zeta. rewrite Hst, Hi, (bind_eq _ _ _ _ _ Esa). rewrite <- app_assoc in H2, Hp2. cbn [app] in H2, Hp2.
  destruct ok; [|cbn; eexists _, _, sa, _, s2; split; [reflexivity|]; split; [by constructor|]; split; [done|by rewrite Hp2]].
  change (negb (RT_EOK =? RT_EOK) && negb false) with false. cbv iota.
  change (has (flags m) RT_I2C_RD) with (is_read m). destruct Hm as (_ & Hlen & Hf).
  destruct (is_read m) eqn:Er.
  - assert (flags m = 1 /\ 1 <= len m) as [Efl Hl1] by (destruct Hf as [[E _]|[E ?]]; [unfold is_read in Er; by rewrite E in Er|done]).
    destruct (recv_from_ok (Z.to_nat (len m)) s2 _ _ [] H2) as (bs & b3 & s3 & E3 & Hbl & Hbf & H3 & Hp3).
    { rewrite Hp2. replace (Z.to_nat (len m) =? 0)%nat with false by (symmetry; apply Nat.eqb_neq; lia). done. }
    unfold i2c_recv_bytes. rewrite Hra, (bind_eq _ _ _ _ _ E3).
    cbn [app]. replace (Z.of_nat (length bs) <? len m) with false by lia.
    exists RT_EOK, (with_buf bs m), (sa ++ read_frame bs), b3, s3. rewrite <- app_assoc in H3, Hp3. cbn [app] in H3, Hp3.
    split; [done|]. split; [by constructor|]. split; [done|by rewrite Hp3].
  - assert (flags m = 0 /\ len m <= Z.of_nat (length (buf m))) as [Efl Hl1]
      by (destruct Hf as [?|[E _]]; [done|unfold is_read in Er; by rewrite E in Er]).
    destruct (send_from_ok (buf m) (Z.to_nat (len m)) s2 _ _ 0 H2 Hp2) as (ok & sb & b3 & s3 & E3 & Hsb & H3 & Hp3); [lia|].
    unfold i2c_send_bytes. rewrite Hi, (bind_eq _ _ _ _ _ E3).
    rewrite <- app_assoc in H3, Hp3. cbn [app] in H3, Hp3. destruct ok.
    + replace (0 + Z.of_nat (Z.to_nat (len m)) <? len m) with false by (symmetry; apply Z.ltb_ge; lia).
      exists RT_EOK, m, (sa ++ sb), b3, s3. split; [done|]. split; [by eapply msg_sent|]. split; [done|by rewrite Hp3].
    + replace (0 <? len m) with true.
      2:{ destruct (Z.ltb_spec 0 (len m)); [done|]. replace (Z.to_nat (len m)) with 0%nat in Hsb by lia. inversion Hsb. }
      exists (- RT_ERROR), m, (sa ++ sb), b3, s3. split; [done|]. split; [by eapply msg_refused|]. split; [done|by rewrite Hp3].
Qed.

Lemma xfer_from_ok i msgs s syms :
  Forall plain msgs -> msgs <> [] -> 0 <= i ->
  (if i =? 0 then idle s syms else exists b, low s b syms /\ slave_turn (prot_of syms) = false) ->
  exists r msgs' syms' s', xfer_from ops i msgs s = Some ((r, msgs'), s') /\
    transfer (Z.to_nat (retries ops)) i msgs syms' r msgs' /\ idle s' (syms ++ syms').
Proof.
  revert i s syms. induction msgs as [|m rest IH]; intros i s syms Hm Hne Hi Hs; [done|].
  apply Forall_cons_1 in Hm as [Hm Hrest]. cbn [xfer_from].
  destruct (xfer_msg_ok (i =? 0) m s syms Hm Hs) as (r & m' & sm & b1 & s1 & E1 & Hmsg & H1 & Ht1).
  rewrite (bind_eq _ _ _ _ _ E1). cbv beta iota zeta.
  destruct (plain_has m Hm) as (_ & _ & _ & -> & _).
  destruct (wire_stop_ok ops s1 b1 _ H1 Ht1) as (s2 & E2 & H2). rewrite <- app_assoc in H2. cbn [app] in H2.
  destruct (Z.eqb_spec r RT_EOK) as [->|Hr]; cbn [negb].
  - destruct rest as [|m2 rest].
    { rewrite (bind_eq _ _ _ _ _ E2). eexists _, _, _, _. split; [reflexivity|]. split; [by constructor|done]. }
    destruct (IH (i + 1) s1 (syms ++ Start :: sm) Hrest) as (r & rest' & sr & s3 & E3 & Hx & H3); [done|lia| |].
    { replace (i + 1 =? 0) with false by lia. eauto. }
    rewrite (bind_eq _ _ _ _ _ E3). eexists _, _, (Start :: sm ++ sr), s3. split; [reflexivity|]. split; [by constructor|].
    by rewrite <- app_assoc in H3.
  - rewrite (bind_eq _ _ _ _ _ E2). eexists _, _, _, _. split; [reflexivity|]. split; [by constructor|done].
Qed.
End transfers.

(** C22: For slaves that follow the protocol, whatever they answer, a transfer of
    the bus driver returns, and on the lines is exactly the sequence of start
    conditions, bytes with acknowledgements, repeated addressing and a stop
    condition that belongs to the messages and to the result: each address and
    byte is sent most significant bit first, the bytes a read delivers are the
    bits that the slave has put out, the master acknowledges all of them but the
    last, a missing acknowledgement ends the transfer with an error, and the
    lines are left idle. *)
Theorem i2c_transfer_on_the_wire `{W : Wires} ops `{P : !Protocol ops} msgs s syms :
  Forall plain msgs -> msgs <> [] -> idle s syms ->
  exists r msgs' syms' s', i2c_bit_xfer ops msgs s = Some ((r, msgs'), s') /\
    transfer (Z.to_nat (retries ops)) 0 msgs syms' r msgs' /\
    idle s' (syms ++ syms') /\ (dec (wave s')).2 = syms ++ syms'.
Proof.
  intros Hm Hne Hs. unfold i2c_bit_xfer. destruct msgs as [|m rest]; [done|].
  destruct (xfer_from_ok ops 0 (m :: rest) s syms Hm Hne (Z.le_refl 0) Hs) as (r & msgs' & syms' & s' & E & Ht & Hi).
  exists r, msgs', syms', s'. split; [done|]. split; [done|]. split; [done|]. by destruct (idle_dec _ _ Hi) as [-> | ->].
Qed.

(** ** A sensor on the wires *)

(** A slave with registers: it answers to one address, takes the first byte of a
    write as a register number and reads or writes from there on.  [d_byte]
    collects the bits of a byte, [d_first] says that no byte has been written
    yet. *)
Record device := mk_device {
  d_prot : prot;
  d_byte : Z;
  d_mine : bool;
  d_first : bool;
  d_ptr : Z;
  d_regs : list (Z * Z)
}.

Fixpoint reg_of (regs : list (Z * Z)) (r : Z) : Z :=
  match regs with [] => 0 | (k, v) :: regs => if k =? r then v else reg_of regs r end.

Definition store_byte (v : Z) (d : device) : device :=
  if negb (d_mine d) then mk_device PWriteAck 0 false (d_first d) (d_ptr d) (d_regs d)
  else if d_first d then mk_device PWriteAck 0 true false v (d_regs d)
  else mk_device PWriteAck 0 true false (d_ptr d + 1) ((d_ptr d, v) :: d_regs d).

Definition device_step (me : Z) (d : device) (x : symbol) : device :=
  let p := prot_step (d_prot d) x in
  match x, d_prot d with
  | Bit b, PAddr n =>
      let v := 2 * d_byte d + Z.b2z b in
      if (n <? 7)%nat then mk_device p v (d_mine d) (d_first d) (d_ptr d) (d_regs d)
      else mk_device p 0 (v / 2 =? me) true (d_ptr d) (d_regs d)
  | Bit b, PWrite n =>
      let v := 2 * d_byte d + Z.b2z b in
      if (n <? 7)%nat then mk_device p v (d_mine d) (d_first d) (d_ptr d) (d_regs d) else store_byte v d
  | Bit _, PReadAck => mk_device p 0 (d_mine d) (d_first d) (d_ptr d + 1) (d_regs d)
  | _, _ => mk_device p 0 (d_mine d) (d_first d) (d_ptr d) (d_regs d)
  end.

Definition device_after (me : Z) (syms : list symbol) : device :=
  fold_left (device_step me) syms (mk_device PIdle 0 false true 0 []).

Definition device_out (d : device) (p : prot) : bool :=
  match p with
  | PAddrAck _ | PWriteAck => negb (d_mine d)
  | PRead n => negb (d_mine d) || Z.testbit (reg_of (d_regs d) (d_ptr d)) (7 - Z.of_nat n)
  | _ => true
  end.

(** It holds the clock for two ticks after every byte. *)
Definition demo_wires : Wires := {|
  slave w := let syms := (dec w).2 in device_out (device_after 0x68 syms) (prot_of syms);
  hold w := match prot_of (dec w).2 with PWriteAck => 2 | _ => 0 end;
  slept d _ := d
|}.

#[export] Instance demo_protocol : @Protocol demo_wires stm32_bit_ops_default.
Proof.
  split.
  - intros w Ht. cbn [slave demo_wires]. by destruct (prot_of _).
  - intros w x Hl. cbn [slave demo_wires dec]. destruct (dec w) as [p syms]. cbn in Hl. by subst p.
  - intros w. cbn. destruct (prot_of _); lia.
  - cbn. lia.
  - intros d t. cbn. lia.
Qed.

Definition idle_lines : lines := mk_lines true true 0 [].

Lemma idle_start `{Wires} : idle idle_lines [].
Proof. split; try done. by right. Qed.

(** Writing 7 to register 0x6b of the sensor, then reading two registers. *)
Definition demo_msgs : list rt_i2c_msg :=
  [mk_i2c_msg 0x68 RT_I2C_WR 3 [0x6b; 7; 9]; mk_i2c_msg 0x68 RT_I2C_WR 1 [0x6b]; mk_i2c_msg 0x68 RT_I2C_RD 2 [0; 0]].

Lemma i2c_transfer_on_the_wire_witness :
  (exists s', @i2c_bit_xfer demo_wires stm32_bit_ops_default demo_msgs idle_lines =
    Some ((3, [mk_i2c_msg 0x68 RT_I2C_WR 3 [0x6b; 7; 9]; mk_i2c_msg 0x68 RT_I2C_WR 1 [0x6b];
               mk_i2c_msg 0x68 RT_I2C_RD 2 [7; 9]]), s')) /\
  exists r msgs' syms' s', @i2c_bit_xfer demo_wires stm32_bit_ops_default demo_msgs idle_lines = Some ((r, msgs'), s') /\
    transfer 0 0 demo_msgs syms' r msgs' /\ @idle demo_wires s' ([] ++ syms') /\ (dec (wave s')).2 = [] ++ syms'.
Proof.
  split; [eexists; vm_compute; reflexivity|].
  apply (@i2c_transfer_on_the_wire demo_wires stm32_bit_ops_default demo_protocol demo_msgs idle_lines []).
  - repeat constructor; cbn; auto; lia.
  - done.
  - apply idle_start.
Defined.

(** After [stm32_i2c_bus_unlock] has clocked a bus whose data line was held, the
    clock line is low, and the start of the next transfer is not a start
    condition: the slave sees a clock pulse too few and no address. *)
Theorem unlock_leaves_clock_low `{W : Wires} s s1 v s2 :
  sda_line s = false -> stm32_i2c_bus_unlock s = Some (v, s1) -> i2c_start s1 = Some (tt, s2) ->
  scl_line s1 = false /\ (dec (wave s2)).2 = (dec (wave s1)).2.
Proof.
  intros Hs E1 E2. unfold stm32_i2c_bus_unlock, stm32_get_sda in E1. cbv [bind gets ret] in E1. rewrite Hs in E1.
  assert (forall n s, exists s', clock_pulses n s = Some (tt, s') /\ (n = O /\ s' = s \/ exists b w, scl_line s' = false /\ wave s' = (false, b) :: w)) as Hp.
  { clear. induction n as [|n IH]; intros s; [by exists s; auto|]. cbn [clock_pulses]. cbv [bind].
    assert (exists s1, pin_write_scl true s = Some (tt, s1)) as (s1 & ->).
    { unfold pin_write_scl. cbv [bind gets id]. destruct (_ <=? _); eexists; reflexivity. }
    cbn [pin_write_scl]. cbv [SCL_L modify]. destruct (IH (drive (sda_out s1) false s1)) as (s' & -> & [[-> ->]|H']).
    - eexists. split; [reflexivity|]. right. eexists _, _. by split.
    - eexists. split; [reflexivity|]. by right. }
  destruct (Hp 9%nat s) as (s' & Ep & [[? _]|(b & w & Hl & Hw)]); [done|]. rewrite Ep in E1. injection E1 as _ <-. split; [done|].
  cbv [i2c_start bind stm32_set_sda SCL_L modify] in E2. injection E2 as <-. cbn [drive wave dec scl_line]. rewrite Hl, Hw.
  cbn [dec]. destruct (dec w) as [[] ?]; done.
Qed.
