(* ===== verification/I2cPort.v ===== *)
(** * The sensor's port on the wires

    MPU_Write_Len and MPU_Read_Len (MpuBus.v) over the bus driver that moves the
    lines (I2cBit.v): the environment of the sensor driver is built from slaves
    on the wires, and what the driver records as a completed transfer is what
    the lines have shown. *)

From Stdlib Require Import ZArith Lia.
From stdpp Require Import prelude list.
From S2P Require Import Prelude CFloat MpuData MpuBus Kernel I2cBit I2cBitSpec I2cTransfer.
Open Scope Z_scope.
Open Scope c_scope.

(** ** The bus driver as environment of the sensor driver *)

(** The messages of the port as the bus driver gets them. *)
Definition wire_msg (m : rt_i2c_msg) : I2cBit.rt_i2c_msg :=
  I2cBit.mk_i2c_msg m.(m_addr) (match m.(m_flags) with RT_I2C_WR => I2cBit.RT_I2C_WR | RT_I2C_RD => I2cBit.RT_I2C_RD end)
    m.(m_len) m.(m_buf).

Definition write_msg (a reg : Z) (data : list Z) : rt_i2c_msg :=
  mk_msg a RT_I2C_WR (Z.of_nat (length data) + 1) (reg :: data).
Definition read_msgs (a reg len : Z) : list rt_i2c_msg :=
  [mk_msg a RT_I2C_WR 1 [reg]; mk_msg a RT_I2C_RD len []].

Definition event_msgs (e : event) : list rt_i2c_msg :=
  match e with
  | EvWrite a reg data _ _ => [write_msg a reg data]
  | EvRead a reg len _ _ => read_msgs a reg len
  | _ => []
  end.

Section port.
Context `{W : I2cBit.Wires} (ops : I2cBit.bit_ops).

Definition wire_xfer (msgs : list rt_i2c_msg) : M I2cBit.lines (Z * list I2cBit.rt_i2c_msg) :=
  I2cBit.i2c_bit_xfer ops (map wire_msg msgs).

(** The lines after the transfers that have happened. *)
Fixpoint lines_after (h : list event) : I2cBit.lines :=
  match h with
  | [] => idle_lines
  | e :: h =>
      match wire_xfer (event_msgs e) (lines_after h) with
      | Some (_, s) => s
      | None => lines_after h
      end
  end.

(** [rt_size_t] is unsigned. *)
Definition bit_xfer (h : list event) (msgs : list rt_i2c_msg) : Z * list Z :=
  match wire_xfer msgs (lines_after h) with
  | Some ((r, msgs'), _) => (u32 r, match last msgs' with Some m => I2cBit.buf m | None => [] end)
  | None => (0, [])
  end.

Definition bit_env (ret_reg_ : list event -> Z -> Z) (uninit_ : list event -> Z) : Env := {|
  master_xfer := Some bit_xfer;
  ret_reg := ret_reg_;
  uninit := uninit_;
  uninit_float _ := F32.of_Z 0
|}.

(** The symbols on the lines. *)
Definition on_wire (h : list event) : list symbol := (dec (I2cBit.wave (lines_after h))).2.

(** Transfers to a 7-bit address that read at least one byte. *)
Definition wire_event (e : event) : Prop :=
  match e with
  | EvWrite a _ data _ _ => 0 <= a < 128 /\ Z.of_nat (length data) < 65535
  | EvRead a _ len _ _ => 0 <= a < 128 /\ 1 <= len < 65536
  | _ => True
  end.

(** ** Frames of the port *)

(** Bytes that the slave has acknowledged. *)
Definition acked (bs : list Z) : list symbol := flat_map (fun b => byte b ++ [Bit false]) bs.

(** A frame of bytes to the slave that ends with a stop condition: complete, or up
    to a byte that was refused. *)
Inductive write_frame (bs : list Z) : bool -> list symbol -> Prop :=
| frame_complete : write_frame bs true (Start :: acked bs ++ [Stop])
| frame_refused k b : bs !! k = Some b -> write_frame bs false (Start :: acked (take k bs) ++ byte b ++ [Bit true; Stop]).

Lemma addressed_0 a syms ok : addressed a 0 syms ok -> syms = byte a ++ [Bit (negb ok)].
Proof. intros Ha. inversion Ha; by subst. Qed.

Lemma sends_true bs syms : sends bs syms true -> syms = acked bs.
Proof.
  revert syms. induction bs as [|b bs IH]; intros syms Hs; inversion Hs; subst; [done|].
  cbn [acked flat_map]. rewrite <- app_assoc. cbn [app]. do 2 f_equal. by apply IH.
Qed.

Lemma sends_false bs syms :
  sends bs syms false -> exists k b, bs !! k = Some b /\ syms = acked (take k bs) ++ byte b ++ [Bit true].
Proof.
  revert syms. induction bs as [|b bs IH]; intros syms Hs; inversion Hs as [|? ?|? ? syms0 ? Hs0]; subst.
  - exists 0%nat, b. done.
  - destruct (IH syms0 Hs0) as (k & c & Hk & ->). exists (S k), c. split; [done|].
    cbn [take acked flat_map]. by rewrite <- !app_assoc.
Qed.

(** A message that is a write, with its result. *)
Lemma message_write m syms r m' :
  I2cTransfer.is_read m = false -> message 0 m syms r m' ->
  let bs := I2cTransfer.addr_byte m :: take (Z.to_nat (I2cBit.len m)) (I2cBit.buf m) in
  (r = RT_EOK /\ syms = acked bs) \/
  (r < 0 /\ - 9 < r /\ exists k b, bs !! k = Some b /\ syms = acked (take k bs) ++ byte b ++ [Bit true]).
Proof.
  intros Hr Hm. cbv zeta. inversion Hm as [s1 Ha|s1 s2 _ Ha Hs|s1 s2 _ Ha Hs|s1 bs' Hr']; subst; try congruence;
    apply addressed_0 in Ha as ->.
  - right. split; [done|]. split; [done|]. eexists 0%nat, _. by split.
  - right. split; [done|]. split; [done|]. apply sends_false in Hs as (k & b & Hk & ->). exists (S k), b. split; [done|].
    cbn [take acked flat_map]. by rewrite <- !app_assoc.
  - left. split; [done|]. by apply sends_true in Hs as ->.
Qed.

(** ** The state of the lines *)

Context `{P : !Protocol ops}.

Lemma plain_write a reg data : 0 <= a < 128 -> Z.of_nat (length data) < 65535 -> plain (wire_msg (write_msg a reg data)).
Proof. intros. split; [done|]. cbn. split; [lia|]. left. split; [done|]. lia. Qed.

Lemma plain_read a len : 0 <= a < 128 -> 1 <= len < 65536 -> plain (wire_msg (mk_msg a RT_I2C_RD len [])).
Proof. intros. split; [done|]. cbn. split; [lia|]. right. split; [done|lia]. Qed.

Lemma wire_event_plain e : wire_event e -> Forall plain (map wire_msg (event_msgs e)).
Proof.
  destruct e; cbn [wire_event event_msgs map read_msgs]; [| |done..].
  - intros [Ha Hd]. constructor; [by apply plain_write|constructor].
  - intros [Ha Hl]. constructor; [by apply (plain_write _ _ [])|constructor; [by apply plain_read|constructor]].
Qed.

Lemma idle_dec_snd s syms : idle s syms -> (dec (I2cBit.wave s)).2 = syms.
Proof. intros Hi. by destruct (idle_dec _ _ Hi) as [-> | ->]. Qed.

Lemma wire_xfer_ok msgs s syms :
  Forall plain (map wire_msg msgs) -> msgs <> [] -> idle s syms ->
  exists r msgs' syms' s', wire_xfer msgs s = Some ((r, msgs'), s') /\
    transfer (Z.to_nat (I2cBit.retries ops)) 0 (map wire_msg msgs) syms' r msgs' /\ idle s' (syms ++ syms').
Proof.
  intros Hm Hne Hs. destruct msgs as [|m msgs]; [done|].
  destruct (xfer_from_ok ops 0 (map wire_msg (m :: msgs)) s syms Hm) as (r & msgs' & syms' & s' & E & Ht & Hi); [done|lia|done|].
  by exists r, msgs', syms', s'.
Qed.

Lemma lines_after_idle h : Forall wire_event h -> idle (lines_after h) (on_wire h).
Proof.
  unfold on_wire. induction 1 as [|e h He Hh IH]; [apply idle_start|]. cbn [lines_after].
  destruct (decide (event_msgs e = [])) as [->|Hne]; [done|].
  destruct (wire_xfer_ok _ _ _ (wire_event_plain e He) Hne IH) as (r & msgs' & syms' & s' & -> & _ & Hi).
  by rewrite (idle_dec_snd _ _ Hi).
Qed.

(** A transfer after [h], recorded as [e]. *)
Lemma on_wire_cons h e r msgs' syms' s' :
  wire_xfer (event_msgs e) (lines_after h) = Some ((r, msgs'), s') -> idle s' (on_wire h ++ syms') ->
  on_wire (e :: h) = on_wire h ++ syms'.
Proof. intros E Hi. unfold on_wire at 1. cbn [lines_after]. rewrite E. by apply idle_dec_snd. Qed.

(** ** The port *)

Lemma u32_error r : r < 0 -> - 9 < r -> (u32 r =? 1) = false /\ (u32 r =? 2) = false.
Proof. intros. unfold u32. replace (r mod 2 ^ 32) with (r + 2 ^ 32) by divmod. lia. Qed.

Lemma port_bytes_id bs n :
  length bs = Z.to_nat n -> Forall (fun b => 0 <= b < 256) bs -> as_bytes n bs = bs.
Proof.
  intros Hl Hb. unfold as_bytes. rewrite <- Hl. clear n Hl. apply list_eq. intros i.
  change (map ?f ?l) with (f <$> l). rewrite list_lookup_fmap. destruct (decide (i < length bs)%nat) as [Hi|Hi].
  - rewrite lookup_seq_lt by done. cbn. unfold at_. rewrite nth_lookup.
    destruct (lookup_lt_is_Some_2 bs i Hi) as [x Hx]. rewrite Hx. cbn. f_equal. apply u8_small.
    by apply (Forall_lookup_1 _ _ _ _ Hb Hx).
  - rewrite lookup_seq_ge, lookup_ge_None_2 by lia. done.
Qed.

Context (no_retries : I2cBit.retries ops = 0).

Lemma bit_write h a reg data :
  Forall wire_event h -> 0 <= a < 128 -> Z.of_nat (length data) < 65535 ->
  exists ok syms, (fst (bit_xfer h [write_msg a reg data]) =? 1) = ok /\ write_frame (2 * a :: reg :: data) ok syms /\
    forall r, on_wire (EvWrite a reg data ok r :: h) = on_wire h ++ syms.
Proof.
  intros Hh Ha Hd. pose proof (lines_after_idle h Hh) as Hi.
  destruct (wire_xfer_ok [write_msg a reg data] _ _ (wire_event_plain (EvWrite a reg data true 0) (conj Ha Hd))
    ltac:(done) Hi) as (r & msgs' & syms & s' & E & Ht & Hi').
  rewrite no_retries in Ht. unfold bit_xfer. rewrite E. cbn [fst].
  assert (forall ok r, on_wire (EvWrite a reg data ok r :: h) = on_wire h ++ syms) as Hw
    by (intros; by eapply on_wire_cons).
  set (m := wire_msg (write_msg a reg data)) in *.
  assert (I2cTransfer.addr_byte m :: take (Z.to_nat (I2cBit.len m)) (I2cBit.buf m) = 2 * a :: reg :: data) as Ebs.
  { unfold m, I2cTransfer.addr_byte. cbn [wire_msg write_msg m_addr m_flags m_len m_buf I2cBit.addr I2cBit.len I2cBit.buf].
    change (Z.b2z _) with 0. rewrite Z.add_0_r, take_ge; [done|cbn; lia]. }
  assert (I2cTransfer.is_read m = false) as Hrm by done. cbn [map] in Ht. fold m in Ht. clearbody m.
  inversion Ht as [? ? ? s1 ? m' Hm Hr|? ? s1 m' Hm|? ? rest ? ? ? ? ? Hne]; subst; [..|done].
  all: apply message_write in Hm; [|assumption]; cbv zeta in Hm; rewrite Ebs in Hm.
  - destruct Hm as [[-> _]|(Hr1 & Hr2 & k & b & Hk & ->)]; [done|].
    eexists false, _. split; [apply (u32_error r Hr1 Hr2)|]. split; [|apply Hw].
    rewrite <- !app_assoc. cbn [app]. by apply frame_refused.
  - destruct Hm as [[_ ->]|(Hr1 & _)]; [|done]. eexists true, _. split; [done|]. split; [constructor|apply Hw].
Qed.

Lemma bit_read h a reg len :
  Forall wire_event h -> 0 <= a < 128 -> 1 <= len < 65536 ->
  exists ok data syms, let '(n, bytes) := bit_xfer h (read_msgs a reg len) in
    (n =? 2) = ok /\ as_bytes len bytes = data /\
    (if ok then syms = Start :: acked [2 * a; reg] ++ Start :: acked [2 * a + 1] ++ read_frame data ++ [Stop]
     else write_frame [2 * a; reg] false syms \/
          syms = Start :: acked [2 * a; reg] ++ Start :: byte (2 * a + 1) ++ [Bit true; Stop]) /\
    forall d, on_wire (EvRead a reg len ok d :: h) = on_wire h ++ syms.
Proof.
  intros Hh Ha Hl. pose proof (lines_after_idle h Hh) as Hi.
  destruct (wire_xfer_ok (read_msgs a reg len) _ _ (wire_event_plain (EvRead a reg len true []) (conj Ha Hl))
    ltac:(done) Hi) as (r & msgs' & syms & s' & E & Ht & Hi').
  rewrite no_retries in Ht. unfold bit_xfer. rewrite E.
  assert (forall ok d, on_wire (EvRead a reg len ok d :: h) = on_wire h ++ syms) as Hw
    by (intros; by eapply on_wire_cons).
  cbn [read_msgs map] in Ht.
  set (m1 := wire_msg (mk_msg a RT_I2C_WR 1 [reg])) in *. set (m2 := wire_msg (mk_msg a RT_I2C_RD len [])) in *.
  assert (I2cTransfer.addr_byte m1 :: take (Z.to_nat (I2cBit.len m1)) (I2cBit.buf m1) = [2 * a; reg]) as E1.
  { unfold I2cTransfer.addr_byte. change (Z.b2z (I2cTransfer.is_read m1)) with 0. by rewrite Z.add_0_r. }
  assert (I2cTransfer.is_read m1 = false) as Hrm1 by done. assert (I2cTransfer.is_read m2 = true) as Hrm2 by done.
  assert (I2cTransfer.addr_byte m2 = 2 * a + 1) as E2 by done. assert (I2cBit.len m2 = len) as E3 by done.
  assert (I2cBit.buf m2 = []) as E4 by done. clearbody m1 m2.
  inversion Ht as [? ? ? s1 ? m' Hm Hr|? ? s1 m' Hm|? ? rest s1 m' s2 ? rest' Hne Hm Ht2]; subst.
  - apply message_write in Hm; [|assumption]. cbv zeta in Hm. rewrite E1 in Hm.
    destruct Hm as [[-> _]|(Hr1 & Hr2 & k & b & Hk & ->)]; [done|].
    eexists false, _, _. split; [apply (u32_error r Hr1 Hr2)|]. split; [reflexivity|]. split; [|apply Hw].
    left. rewrite <- !app_assoc. cbn [app]. by apply frame_refused.
  - apply message_write in Hm; [|assumption]. cbv zeta in Hm. rewrite E1 in Hm.
    destruct Hm as [[_ ->]|(Hr1 & _)]; [|done].
    inversion Ht2 as [? ? ? s3 ? m3 Hm2 Hr|? ? s3 m3 Hm2|? ? ? ? ? ? ? ? Hne2]; subst; [..|done].
    all: inversion Hm2 as [s4 Ha2|? ? Hf|? ? Hf|s4 bs _ Ha2 Hbl Hbf]; subst; try congruence;
      apply addressed_0 in Ha2 as ->.
    + eexists false, _, _. split; [by vm_compute|]. split; [reflexivity|]. split; [|apply Hw]. right.
      rewrite E2, <- !app_assoc. done.
    + exists true, bs. eexists. split; [done|]. split; [|split; [|apply Hw]].
      * cbn [last I2cBit.buf I2cBit.with_buf]. rewrite E4, drop_nil, app_nil_r. by apply port_bytes_id.
      * cbn [acked flat_map]. rewrite E2, !app_nil_r. by rewrite <- !app_assoc.
Qed.

End port.

(** C29: On slaves that follow the protocol, the transfers that the sensor driver
    records are the ones the lines have shown.  A write counts as done exactly
    when the slave has acknowledged its address, the register number and every
    data byte, sent in one frame; otherwise the frame ends after the first byte
    that was refused.  A read counts as done exactly when the register number was
    acknowledged and the slave, addressed again after a repeated start, has sent
    the bytes that the driver gets. *)
Theorem mpu_port_on_the_wire `{W : I2cBit.Wires} ops `{P : !Protocol ops} rr un s :
  I2cBit.retries ops = 0 -> bus_is_i2c (dev s) = true -> 0 <= i2c_addr (dev s) < 128 -> Forall wire_event (tr s) ->
  let E := bit_env ops rr un in
  let a := i2c_addr (dev s) in
  (forall addr reg len databuf, u8 len <= 49 -> u8 len <= Z.of_nat (length databuf) ->
     let data := take (Z.to_nat (u8 len)) databuf in
     exists r ok syms s', MPU_Write_Len addr reg len databuf s = Some (r, s') /\
       tr s' = EvWrite a (u8 reg) data ok r :: tr s /\
       on_wire ops (tr s') = on_wire ops (tr s) ++ syms /\ write_frame (2 * a :: u8 reg :: data) ok syms) /\
  (forall addr reg len, 1 <= u8 len ->
     exists r ok data syms s', MPU_Read_Len addr reg len s = Some ((r, data), s') /\
       tr s' = EvRead a (u8 reg) (u8 len) ok data :: tr s /\ (r = 0 <-> ok = true) /\
       on_wire ops (tr s') = on_wire ops (tr s) ++ syms /\
       (ok = true -> syms = Start :: acked [2 * a; u8 reg] ++ Start :: acked [2 * a + 1] ++ read_frame data ++ [Stop]) /\
       (ok = false -> write_frame [2 * a; u8 reg] false syms \/
          syms = Start :: acked [2 * a; u8 reg] ++ Start :: byte (2 * a + 1) ++ [Bit true; Stop])).
Proof.
  intros Hr Hb Ha Hh E a. split.
  - intros addr reg len databuf Hl1 Hl2 data. pose proof (u8_range len).
    assert (length data = Z.to_nat (u8 len)) as Hd by (unfold data; rewrite length_take; lia).
    destruct (bit_write ops Hr (tr s) a (u8 reg) data Hh Ha) as (ok & syms & Eok & Hf & Hw); [lia|].
    unfold MPU_Write_Len. replace (_ || _) with false by lia. cbv [bind gets id]. rewrite Hb.
    cbn [rt_i2c_transfer master_xfer E bit_env]. eexists _, ok, syms, _. split; [reflexivity|].
    cbn [tr put_tr log modify]. unfold write_msg in Eok. rewrite Hd, Z2Nat.id in Eok by lia.
    fold data. fold a. rewrite Eok. split; [done|]. split; [apply Hw|done].
  - intros addr reg len Hl. pose proof (u8_range len).
    destruct (bit_read ops Hr (tr s) a (u8 reg) (u8 len) Hh Ha) as (ok & data & syms & Hx); [lia|].
    unfold MPU_Read_Len. cbv [bind gets id]. rewrite Hb. cbn [rt_i2c_transfer master_xfer E bit_env].
    unfold read_msgs in Hx. fold a. destruct (bit_xfer ops (tr s) _) as [n bytes]. destruct Hx as (Eok & Ed & Hsy & Hw).
    eexists _, ok, data, syms, _. split; [cbv [log modify ret]; rewrite Ed; reflexivity|]. cbn [tr put_tr]. rewrite Eok.
    split; [done|]. split; [by destruct ok|]. split; [apply Hw|].
    destruct ok; split; intros; try done.
Qed.

(** Setting a register of the sensor and reading it back over the lines. *)
Definition wire_env : Env :=
  @bit_env demo_wires I2cBit.stm32_bit_ops_default (fun _ n => if n =? 1 then 0 else 255) (fun _ => 0).
Definition wire_drv : drv := boot (mk_dev true 0x68).

Lemma mpu_port_on_the_wire_witness :
  (exists d1 d2, @MPU_Write_Len wire_env 0x68 0x6b 1 [0x40] wire_drv = Some (0, d1) /\
     @MPU_Read_Len wire_env 0x68 0x6b 1 d1 = Some ((0, [0x40]), d2)) /\
  exists r ok syms s', @MPU_Write_Len wire_env 0x68 0x6b 1 [0x40] wire_drv = Some (r, s') /\
    tr s' = EvWrite 0x68 0x6b [0x40] ok r :: tr wire_drv /\
    @on_wire demo_wires I2cBit.stm32_bit_ops_default (tr s') =
      @on_wire demo_wires I2cBit.stm32_bit_ops_default (tr wire_drv) ++ syms /\
    write_frame [0xd0; 0x6b; 0x40] ok syms.
Proof.
  split.
  - eexists _, _. split; [vm_compute; reflexivity|]. vm_compute. reflexivity.
  - apply (@mpu_port_on_the_wire demo_wires I2cBit.stm32_bit_ops_default demo_protocol
             (fun _ n => if n =? 1 then 0 else 255) (fun _ => 0) wire_drv); try done; constructor.
Defined.
