(* ===== verification/WaitQueue.v ===== *)
(** * The wake-up protocol of blocking objects

    An abstract account of how the kernel's blocking objects (mailboxes here)
    suspend and wake threads: threads wait for something that is available in
    some amount; a thread that makes one unit available wakes one waiting
    thread, and a thread that has been woken may still find that another one
    was faster, and waits again.  The invariant says that no wake-up is lost:
    while threads wait, no more units are available than threads are on their
    way to fetch them. *)

From Stdlib Require Import ZArith Lia.
From stdpp Require Import prelude functions list.
From S2P Require Import Prelude Kernel.
Open Scope Z_scope.

(** The two sides of an object: receivers wait for mails, senders for room. *)
Inductive side := Rcv | Snd.
#[export] Instance side_eq_dec : EqDecision side.
Proof. solve_decision. Defined.

(** What a thread is doing: waiting on a list, woken but not yet running, or
    anything else. *)
Inductive class := Other | Wait (x : side) | Wake (x : side).
#[export] Instance class_eq_dec : EqDecision class.
Proof. solve_decision. Defined.

Record wstate := mk_wstate {
  wq : side -> list tid;
  cls : tid -> class;
  avail : side -> Z
}.

Definition b2z (P : Prop) `{Decision P} : Z := if decide P then 1 else 0.

(** The number of threads of [l] in class [c]. *)
Fixpoint count (f : tid -> class) (c : class) (l : list tid) : Z :=
  match l with
  | [] => 0
  | t :: l => b2z (f t = c) + count f c l
  end.

Lemma count_ext f g c l : (forall t, t ∈ l -> f t = g t) -> count f c l = count g c l.
Proof.
  induction l as [|t l IH]; intros Hfg; [done|]. cbn [count].
  rewrite IH by (intros; apply Hfg; by right). by rewrite Hfg by left.
Qed.

Lemma count_nonneg f c l : 0 <= count f c l.
Proof. induction l; cbn [count]; [done|]. unfold b2z. case_decide; lia. Qed.

(** Changing one thread changes the counts by that thread. *)
Lemma count_change f g t c l :
  NoDup l -> t ∈ l -> (forall u, u <> t -> g u = f u) ->
  count g c l = count f c l - b2z (f t = c) + b2z (g t = c).
Proof.
  intros Hnd Ht Hg. induction Hnd as [|u l Hu Hnd IH]; [by inv Ht|].
  cbn [count]. destruct (decide (u = t)) as [->|Hut].
  - rewrite (count_ext g f); [lia|]. intros v Hv. apply Hg. by intros ->.
  - rewrite Hg by done. apply elem_of_cons in Ht as [->|Ht]; [done|]. rewrite IH by done. lia.
Qed.

Section protocol.
Context (all : list tid).
Hypothesis all_nodup : NoDup all.

Definition wakes (w : wstate) (x : side) : Z := count w.(cls) (Wake x) all.

Record winv (w : wstate) : Prop := mk_winv {
  w_queue x t : t ∈ w.(wq) x <-> w.(cls) t = Wait x;
  w_nodup x : NoDup (w.(wq) x);
  w_all t : w.(cls) t <> Other -> t ∈ all;
  w_wake x : w.(wq) x <> [] -> w.(avail) x <= wakes w x
}.

Lemma wakes_change w w' t x :
  t ∈ all -> (forall u, u <> t -> w'.(cls) u = w.(cls) u) ->
  wakes w' x = wakes w x - b2z (w.(cls) t = Wake x) + b2z (w'.(cls) t = Wake x).
Proof. intros. by apply count_change. Qed.

(** A thread that does not wait goes on to something else that is not
    waiting, as long as it accounts for what it takes. *)
Lemma winv_move w w' t :
  winv w -> t ∈ all ->
  (forall x, w.(cls) t <> Wait x) -> (forall x, w'.(cls) t <> Wait x) ->
  (forall x, w'.(wq) x = w.(wq) x) ->
  (forall u, u <> t -> w'.(cls) u = w.(cls) u) ->
  (forall x, w.(wq) x <> [] ->
     w'.(avail) x - b2z (w'.(cls) t = Wake x) <= w.(avail) x - b2z (w.(cls) t = Wake x)
     \/ w'.(avail) x <= 0) ->
  winv w'.
Proof.
  intros Hw Ht Hc Hc' Hq Hu Ha. split.
  - intros x u. rewrite Hq, (w_queue w Hw). destruct (decide (u = t)) as [->|Hne].
    + by specialize (Hc x); specialize (Hc' x).
    + by rewrite Hu.
  - intros x. rewrite Hq. by apply w_nodup.
  - intros u Hx. destruct (decide (u = t)) as [->|Hne]; [done|].
    rewrite Hu in Hx by done. by eapply w_all.
  - intros x Hx. rewrite Hq in Hx. specialize (Ha x Hx). pose proof (w_wake w Hw x Hx).
    pose proof (wakes_change w w' t x Ht Hu). pose proof (count_nonneg w'.(cls) (Wake x) all).
    unfold wakes in *. lia.
Qed.

(** A thread starts to wait because nothing is available. *)
Lemma winv_block w w' t x :
  winv w -> t ∈ all ->
  (forall y, w.(cls) t <> Wait y) -> w'.(cls) t = Wait x ->
  (forall u, u <> t -> w'.(cls) u = w.(cls) u) ->
  (forall u, u ∈ w'.(wq) x <-> u = t \/ u ∈ w.(wq) x) -> NoDup (w'.(wq) x) ->
  (forall y, y <> x -> w'.(wq) y = w.(wq) y) ->
  (forall y, w'.(avail) y = w.(avail) y) -> w.(avail) x <= 0 ->
  (forall y, w.(cls) t <> Wake y \/ y = x) ->
  winv w'.
Proof.
  intros Hw Ht Hc Hc' Hu Hqx Hnd Hq Ha Ha0 Hy. split.
  - intros y u. destruct (decide (y = x)) as [->|Hyx].
    + rewrite Hqx, (w_queue w Hw). destruct (decide (u = t)) as [->|Hne]; [tauto|].
      rewrite Hu by done. tauto.
    + rewrite Hq, (w_queue w Hw) by done.
      destruct (decide (u = t)) as [->|Hne]; [|by rewrite Hu].
      rewrite Hc'. specialize (Hc y). split; congruence.
  - intros y. destruct (decide (y = x)) as [->|Hyx]; [done|]. rewrite Hq by done.
    by apply w_nodup.
  - intros u Hx. destruct (decide (u = t)) as [->|Hne]; [done|].
    rewrite Hu in Hx by done. by eapply w_all.
  - intros y Hne. pose proof (wakes_change w w' t y Ht Hu) as Hw'.
    pose proof (count_nonneg w'.(cls) (Wake y) all). rewrite Ha. unfold wakes in *.
    destruct (decide (y = x)) as [->|Hyx]; [lia|]. rewrite Hq in Hne by done.
    pose proof (w_wake w Hw y Hne) as Hle. unfold wakes in Hle.
    destruct (Hy y) as [Hy'|]; [|done]. revert Hw'. unfold b2z.
    rewrite decide_False by done. case_decide; lia.
Qed.

(** One unit becomes available and the first waiting thread is woken. *)
Lemma winv_wake w w' x h r :
  winv w -> w.(wq) x = h :: r ->
  w'.(wq) x = r -> (forall y, y <> x -> w'.(wq) y = w.(wq) y) ->
  w'.(cls) h = Wake x -> (forall u, u <> h -> w'.(cls) u = w.(cls) u) ->
  w'.(avail) x <= w.(avail) x + 1 ->
  (forall y, y <> x -> w'.(avail) y <= w.(avail) y) ->
  winv w'.
Proof.
  intros Hw Hx Hx' Hq Hh Hu Ha Ha'.
  pose proof (w_nodup w Hw x) as Hnd. rewrite Hx in Hnd. inversion_clear Hnd as [|? ? Hhr Hnd1].
  assert (w.(cls) h = Wait x) as Hwait by (apply (w_queue w Hw); rewrite Hx; by left).
  assert (h ∈ all) as Hall by (apply (w_all w Hw); by rewrite Hwait).
  split.
  - intros y u. destruct (decide (u = h)) as [->|Hne].
    + rewrite Hh. split; [|done]. intros Hin. exfalso. destruct (decide (y = x)) as [->|Hyx].
      * by rewrite Hx' in Hin.
      * rewrite Hq, (w_queue w Hw) in Hin by done. congruence.
    + rewrite Hu, <- (w_queue w Hw) by done. destruct (decide (y = x)) as [->|Hyx].
      * rewrite Hx', Hx, elem_of_cons. tauto.
      * by rewrite Hq.
  - intros y. destruct (decide (y = x)) as [->|Hyx]; [by rewrite Hx'|].
    rewrite Hq by done. by apply w_nodup.
  - intros u Hc. destruct (decide (u = h)) as [->|Hne]; [done|].
    rewrite Hu in Hc by done. by eapply w_all.
  - intros y Hy. pose proof (wakes_change w w' h y Hall Hu) as Hw'. rewrite Hwait, Hh in Hw'.
    destruct (decide (y = x)) as [->|Hyx].
    + pose proof (w_wake w Hw x) as Hle. rewrite Hx in Hle. specialize (Hle ltac:(done)).
      revert Hw'. unfold b2z. rewrite decide_False, decide_True by done. lia.
    + rewrite Hq in Hy by done. pose proof (w_wake w Hw y Hy) as Hle. specialize (Ha' y Hyx).
      revert Hw'. unfold b2z. rewrite !decide_False by congruence. lia.
Qed.

(** A waiting thread gives up: its wait timed out or was cancelled. *)
Lemma winv_quit w w' x h :
  winv w -> w.(cls) h = Wait x ->
  (forall y, w'.(wq) y = filter (fun u => u <> h) (w.(wq) y)) ->
  w'.(cls) h = Other -> (forall u, u <> h -> w'.(cls) u = w.(cls) u) ->
  (forall y, w'.(avail) y = w.(avail) y) ->
  winv w'.
Proof.
  intros Hw Hwait Hq Hh Hu Ha.
  assert (h ∈ all) as Hall by (apply (w_all w Hw); by rewrite Hwait).
  split.
  - intros y u. rewrite Hq, list_elem_of_filter, (w_queue w Hw).
    destruct (decide (u = h)) as [->|Hne]; [rewrite Hh; split; [by intros []|done]|].
    rewrite Hu by done. tauto.
  - intros y. rewrite Hq. by apply NoDup_filter, w_nodup.
  - intros u Hc. destruct (decide (u = h)) as [->|Hne]; [done|].
    rewrite Hu in Hc by done. by eapply w_all.
  - intros y Hy. rewrite Hq in Hy. pose proof (wakes_change w w' h y Hall Hu) as Hw'.
    rewrite Hwait, Hh in Hw'. revert Hw'. unfold b2z. rewrite !decide_False by done.
    intros Hw'. rewrite Ha. pose proof (w_wake w Hw y) as Hle.
    destruct (w.(wq) y); [done|]. specialize (Hle ltac:(done)). lia.
Qed.

End protocol.
