(* ===== verification/Mailbox.v ===== *)
(** * Mailboxes

    The mailbox of src/rt-thread/src/ipc.c, through which the clock's threads
    hand their data to the display thread: a ring buffer with a list of
    waiting receivers and a list of waiting senders.  Each function is cut at
    the points where the code calls [rt_schedule] in the middle of its work;
    the pieces are the atomic steps of the system at the end of the file, in
    which any number of threads send, receive, time out, reset and detach in
    any order. *)

From Stdlib Require Import ZArith Lia.
From stdpp Require Import prelude functions list.
From S2P Require Import Prelude Kernel.
Open Scope Z_scope.
Open Scope c_scope.

Definition RT_MB_ENTRY_MAX : Z := 0xffff.
Definition RT_IPC_CMD_RESET : Z := 0x01.

(** ** State *)

(** The two list heads of a mailbox. *)
Definition suspend_thread : qid := 0%nat.
Definition suspend_sender_thread : qid := 1%nat.

(** [is_mailbox] is [rt_object_get_type(...) == RT_Object_Class_MailBox]. *)
Record rt_mailbox := mk_mb {
  is_mailbox : bool;
  flag : Z;
  msg_pool : list Z;
  size : Z;
  entry : Z;
  in_offset : Z;
  out_offset : Z
}.

Record msys := mk_msys {
  ms_krn : kernel;
  mb : rt_mailbox
}.

#[export] Instance msys_kernel : HasKernel msys := {|
  krn := ms_krn;
  put_krn k s := mk_msys k s.(mb)
|}.

Definition put_mb (m : rt_mailbox) (s : msys) : msys := mk_msys s.(ms_krn) m.
Definition set_mb (m : rt_mailbox) : M msys unit := modify (put_mb m).

Definition with_entry (v : Z) (m : rt_mailbox) : rt_mailbox :=
  mk_mb m.(is_mailbox) m.(flag) m.(msg_pool) m.(size) v m.(in_offset) m.(out_offset).
Definition with_in (v : Z) (m : rt_mailbox) : rt_mailbox :=
  mk_mb m.(is_mailbox) m.(flag) m.(msg_pool) m.(size) m.(entry) v m.(out_offset).
Definition with_out (v : Z) (m : rt_mailbox) : rt_mailbox :=
  mk_mb m.(is_mailbox) m.(flag) m.(msg_pool) m.(size) m.(entry) m.(in_offset) v.
Definition with_pool (v : list Z) (m : rt_mailbox) : rt_mailbox :=
  mk_mb m.(is_mailbox) m.(flag) v m.(size) m.(entry) m.(in_offset) m.(out_offset).
Definition with_type (v : bool) (m : rt_mailbox) : rt_mailbox :=
  mk_mb v m.(flag) m.(msg_pool) m.(size) m.(entry) m.(in_offset) m.(out_offset).

(** ** Operations *)

(** A call either returns a code, and a mail in the case of [rt_mb_recv], or
    blocks with its remaining timeout and the tick at which it started. *)
Inductive outcome :=
| Done (code : Z) (value : option Z)
| Blocked (timeout tick_delta : Z).

Definition empty_queues (k : kernel) : kernel :=
  mk_kernel k.(rt_tick) k.(tcb)
    (<[suspend_thread := []]> (<[suspend_sender_thread := []]> k.(waitq))).

Definition rt_mb_init (msgpool : list Z) (size_ flag_ : Z) : M msys Z :=
  set_mb (mk_mb true flag_ msgpool (u16 size_) 0 0 0) ;;;
  on_krn empty_queues ;;;
  ret RT_EOK.

(** The remaining time after waking up at [now]. *)
Definition remaining (timeout tick_delta now : Z) : Z :=
  if 0 <? timeout then
    let tick_delta := u32 (now - tick_delta) in
    let timeout := s32 (timeout - tick_delta) in
    if timeout <? 0 then 0 else timeout
  else timeout.

(** Suspending the caller on a list, with a timer unless it waits forever. *)
Definition block_on (q : qid) (t : tid) (timeout : Z) : M msys outcome :=
  m <- gets mb ;;
  rt_ipc_list_suspend q t m.(flag) ;;;
  if 0 <? timeout then
    now <- rt_tick_get ;;
    start_timer t timeout ;;;
    ret (Blocked timeout now)
  else ret (Blocked timeout 0).

(** The end of [rt_mb_send_wait]: store the mail and wake a receiver. *)
Definition mb_put (value : Z) : M msys outcome :=
  m <- gets mb ;;
  if (0 <=? m.(in_offset)) && (m.(in_offset) <? Z.of_nat (length m.(msg_pool))) then
    let m := with_pool (<[Z.to_nat m.(in_offset) := value]> m.(msg_pool)) m in
    let next := u16 (m.(in_offset) + 1) in
    let m := with_in (if m.(size) <=? next then 0 else next) m in
    if m.(entry) <? RT_MB_ENTRY_MAX then
      set_mb (with_entry (u16 (m.(entry) + 1)) m) ;;;
      l <- gets (fun s => waitq (krn s) suspend_thread) ;;
      match l with
      | [] => ret (Done RT_EOK None)
      | _ :: _ => rt_ipc_list_resume suspend_thread ;;; ret (Done RT_EOK None)
      end
    else set_mb m ;;; ret (Done (- RT_EFULL) None)
  else undefined.

(** One round of the loop of [rt_mb_send_wait]. *)
Definition mb_send_round (t : tid) (value timeout : Z) : M msys outcome :=
  m <- gets mb ;;
  if m.(entry) =? m.(size) then
    set_error t RT_EOK ;;;
    if timeout =? 0 then ret (Done (- RT_EFULL) None)
    else block_on suspend_sender_thread t timeout
  else mb_put value.

Definition rt_mb_send_wait (t : tid) (value timeout : Z) : M msys outcome :=
  m <- gets mb ;;
  if negb m.(is_mailbox) then undefined else
  if (m.(entry) =? m.(size)) && (timeout =? 0) then ret (Done (- RT_EFULL) None)
  else mb_send_round t value timeout.

Definition rt_mb_send (t : tid) (value : Z) : M msys outcome := rt_mb_send_wait t value 0.

(** [rt_mb_send_wait] after its call of [rt_schedule]. *)
Definition mb_send_resumed (t : tid) (value timeout tick_delta : Z) : M msys outcome :=
  th <- thread_of t ;;
  if negb (error th =? RT_EOK) then ret (Done (error th) None) else
  now <- rt_tick_get ;;
  mb_send_round t value (remaining timeout tick_delta now).

(** The end of [rt_mb_recv]: fetch the mail and wake a sender. *)
Definition mb_get : M msys outcome :=
  m <- gets mb ;;
  if (0 <=? m.(out_offset)) && (m.(out_offset) <? Z.of_nat (length m.(msg_pool))) then
    let value := at_ m.(msg_pool) (Z.to_nat m.(out_offset)) in
    let next := u16 (m.(out_offset) + 1) in
    let m := with_out (if m.(size) <=? next then 0 else next) m in
    set_mb (if 0 <? m.(entry) then with_entry (m.(entry) - 1) m else m) ;;;
    l <- gets (fun s => waitq (krn s) suspend_sender_thread) ;;
    match l with
    | [] => ret (Done RT_EOK (Some value))
    | _ :: _ => rt_ipc_list_resume suspend_sender_thread ;;; ret (Done RT_EOK (Some value))
    end
  else undefined.

(** One round of the loop of [rt_mb_recv]. *)
Definition mb_recv_round (t : tid) (timeout : Z) : M msys outcome :=
  m <- gets mb ;;
  if m.(entry) =? 0 then
    set_error t RT_EOK ;;;
    if timeout =? 0 then
      set_error t (- RT_ETIMEOUT) ;;;
      ret (Done (- RT_ETIMEOUT) None)
    else block_on suspend_thread t timeout
  else mb_get.

Definition rt_mb_recv (t : tid) (timeout : Z) : M msys outcome :=
  m <- gets mb ;;
  if negb m.(is_mailbox) then undefined else
  if (m.(entry) =? 0) && (timeout =? 0) then ret (Done (- RT_ETIMEOUT) None)
  else mb_recv_round t timeout.

(** [rt_mb_recv] after its call of [rt_schedule]. *)
Definition mb_recv_resumed (t : tid) (timeout tick_delta : Z) : M msys outcome :=
  th <- thread_of t ;;
  if negb (error th =? RT_EOK) then ret (Done (error th) None) else
  now <- rt_tick_get ;;
  mb_recv_round t (remaining timeout tick_delta now).

(** A reset runs with interrupts off. *)
Definition rt_mb_control (cmd : Z) : M msys Z :=
  m <- gets mb ;;
  if negb m.(is_mailbox) then undefined else
  if cmd =? RT_IPC_CMD_RESET then
    rt_ipc_list_resume_all suspend_thread ;;;
    rt_ipc_list_resume_all suspend_sender_thread ;;;
    m <- gets mb ;;
    set_mb (with_out 0 (with_in 0 (with_entry 0 m))) ;;;
    ret RT_EOK
  else ret (- RT_ERROR).

(** [rt_mb_detach] runs the loop of [rt_ipc_list_resume_all] with interrupts
    enabled: the test of the loop and the body, which disables them, are two
    steps.  The body takes the first node of the list; on a list that has become
    empty since the test this is the list head itself, taken for a thread. *)
Definition mb_detach_test (q : qid) : M msys bool :=
  l <- gets (fun s => waitq (krn s) q) ;; ret (match l with [] => true | _ :: _ => false end).

Definition mb_detach_round (q : qid) : M msys unit :=
  l <- gets (fun s => waitq (krn s) q) ;;
  match l with
  | [] => undefined
  | t :: _ => resume_with_error t
  end.

(** [rt_object_detach] *)
Definition mb_object_detach : M msys unit :=
  m <- gets mb ;; set_mb (with_type false m).
