(* ===== verification/MailboxSpec.v ===== *)
(** * The mailbox as a bounded queue

    The ring buffer of Mailbox.v holds a queue of mails: storing appends,
    fetching takes the first one.  The effect of every piece of the mailbox
    operations on the ring and on the threads. *)

From Stdlib Require Import ZArith Lia.
From stdpp Require Import prelude functions list.
From S2P Require Import Prelude Kernel KernelSpec WaitQueue Mailbox.
Open Scope Z_scope.
Open Scope c_scope.

#[export] Instance msys_laws : KernelLaws msys.
Proof. split; [done|done|by intros []]. Qed.

(** ** The queue in the ring *)

Record ring_ok (m : rt_mailbox) : Prop := mk_ring_ok {
  ring_size : 0 <= m.(size) < 65536;
  ring_pool : Z.of_nat (length m.(msg_pool)) = m.(size);
  ring_entry : 0 <= m.(entry) <= m.(size);
  ring_offsets : 0 < m.(size) ->
    0 <= m.(out_offset) < m.(size) /\
    m.(in_offset) = (m.(out_offset) + m.(entry)) mod m.(size)
}.

Definition mail_at (m : rt_mailbox) (i : nat) : Z :=
  at_ m.(msg_pool) (Z.to_nat ((m.(out_offset) + Z.of_nat i) mod m.(size))).

(** The mails in the box, oldest first. *)
Definition mails (m : rt_mailbox) : list Z :=
  map (mail_at m) (seq 0 (Z.to_nat m.(entry))).

Lemma length_mails m : ring_ok m -> Z.of_nat (length (mails m)) = m.(entry).
Proof. intros []. unfold mails. rewrite length_map, length_seq. lia. Qed.

(** The next offset, as the code computes it. *)
Lemma next_offset o n :
  0 <= o < n -> n < 65536 -> (if n <=? u16 (o + 1) then 0 else u16 (o + 1)) = (o + 1) mod n.
Proof.
  intros Ho Hn. rewrite u16_small by lia. destruct (n <=? o + 1) eqn:E.
  - replace (o + 1) with n by lia. by rewrite Z.mod_same by lia.
  - rewrite Z.mod_small; lia.
Qed.

Definition stored (v : Z) (m : rt_mailbox) : rt_mailbox :=
  with_entry (m.(entry) + 1) (with_in ((m.(in_offset) + 1) mod m.(size))
    (with_pool (<[Z.to_nat m.(in_offset) := v]> m.(msg_pool)) m)).

Definition fetched (m : rt_mailbox) : rt_mailbox :=
  with_entry (m.(entry) - 1) (with_out ((m.(out_offset) + 1) mod m.(size)) m).

Lemma stored_ring v m : ring_ok m -> m.(entry) < m.(size) -> ring_ok (stored v m).
Proof.
  intros [Hs Hp He Ho] Hlt. specialize (Ho ltac:(lia)) as [Hout Hin].
  split; cbn [stored with_entry with_in with_pool size msg_pool entry out_offset in_offset].
  - lia.
  - by rewrite length_insert.
  - lia.
  - intros _. split; [lia|]. rewrite Hin, Zplus_mod_idemp_l. f_equal. lia.
Qed.

Lemma fetched_ring m : ring_ok m -> 0 < m.(entry) -> ring_ok (fetched m).
Proof.
  intros [Hs Hp He Ho] Hlt. specialize (Ho ltac:(lia)) as [Hout Hin].
  split; cbn [fetched with_entry with_out size msg_pool entry out_offset in_offset];
    [lia|done|lia|].
  intros _. split; [apply Z.mod_pos_bound; lia|]. rewrite Hin, Zplus_mod_idemp_l.
  f_equal. lia.
Qed.

(** Two positions of the ring that hold different mails are different. *)
Lemma ring_distinct o n i e :
  0 <= i < e -> e < n -> (o + i) mod n <> (o + e) mod n.
Proof.
  intros Hi He Heq.
  assert ((e - i) mod n = 0) as Hz.
  { replace (e - i) with (o + e - (o + i)) by lia. rewrite Zminus_mod, Heq, Z.sub_diag.
    apply Z.mod_0_l. lia. }
  rewrite Z.mod_small in Hz by lia. lia.
Qed.

Lemma stored_mails v m :
  ring_ok m -> m.(entry) < m.(size) -> mails (stored v m) = mails m ++ [v].
Proof.
  intros [Hs Hp He Ho] Hlt. specialize (Ho ltac:(lia)) as [Hout Hin].
  unfold mails. cbn [stored with_entry entry].
  replace (Z.to_nat (entry m + 1)) with (S (Z.to_nat (entry m))) by lia.
  rewrite seq_S, map_app. f_equal.
  - apply map_ext_in. intros i Hi. apply in_seq in Hi. unfold mail_at, at_.
    cbn [stored with_entry with_in with_pool msg_pool out_offset size].
    rewrite !nth_lookup, list_lookup_insert_ne; [done|]. rewrite Hin.
    pose proof (ring_distinct (out_offset m) (size m) (Z.of_nat i) (entry m)).
    pose proof (Z.mod_pos_bound (out_offset m + Z.of_nat i) (size m)).
    pose proof (Z.mod_pos_bound (out_offset m + entry m) (size m)). lia.
  - cbn [map]. f_equal. unfold mail_at, at_.
    cbn [stored with_entry with_in with_pool msg_pool out_offset size].
    rewrite nth_lookup, Nat.add_0_l, Z2Nat.id, <- Hin by lia.
    rewrite list_lookup_insert_eq; [done|].
    pose proof (Z.mod_pos_bound (out_offset m + entry m) (size m)). lia.
Qed.

Lemma fetched_mails m :
  ring_ok m -> 0 < m.(entry) ->
  mails m = at_ m.(msg_pool) (Z.to_nat m.(out_offset)) :: mails (fetched m).
Proof.
  intros [Hs Hp He Ho] Hlt. specialize (Ho ltac:(lia)) as [Hout Hin].
  unfold mails. cbn [fetched with_entry entry].
  replace (Z.to_nat (entry m)) with (S (Z.to_nat (entry m - 1))) by lia.
  cbn [seq map]. f_equal.
  - unfold mail_at. by rewrite Z.add_0_r, Z.mod_small by lia.
  - rewrite <- seq_shift, map_map. apply map_ext. intros i. unfold mail_at.
    cbn [fetched with_entry with_out msg_pool out_offset size].
    rewrite Zplus_mod_idemp_l. do 3 f_equal. lia.
Qed.

(** ** Blocking *)

Lemma block_on_spec q t timeout (c : msys) :
  stat (tcb (ms_krn c) t) = RT_THREAD_READY -> timeout < 2 ^ 31 - 1 ->
  block_on q t timeout c =
    Some (Blocked timeout (if 0 <? timeout then rt_tick (ms_krn c) else 0),
          mk_msys (waiting q t (flag (mb c)) timeout (ms_krn c)) (mb c)).
Proof.
  intros Hs Ht. unfold block_on, bind at 1, gets at 1. unfold bind at 1.
  rewrite suspend_spec by done. unfold waiting. destruct (0 <? timeout) eqn:E; [|done].
  unfold bind, rt_tick_get, gets, start_timer. cbn [krn msys_kernel ms_krn].
  rewrite u32_small by lia. change (RT_TICK_MAX / 2) with (2 ^ 31 - 1).
  by replace (timeout <? 2 ^ 31 - 1) with true by lia.
Qed.

(** ** The pieces of the operations *)

Lemma mb_put_spec v (c : msys) :
  ring_ok (mb c) -> entry (mb c) < size (mb c) -> all_suspended suspend_thread (ms_krn c) ->
  mb_put v c = Some (Done RT_EOK None,
                     mk_msys (woken suspend_thread (ms_krn c)) (stored v (mb c))).
Proof.
  intros Hr Hlt Hs. destruct Hr as [Hsz Hp He Ho]. specialize (Ho ltac:(lia)) as [Hout Hin].
  pose proof (Z.mod_pos_bound (out_offset (mb c) + entry (mb c)) (size (mb c))) as Hb.
  unfold mb_put, bind at 1, gets at 1. rewrite Hp, Hin.
  replace (_ && _) with true by lia. cbv zeta.
  cbn [with_pool with_in size entry in_offset]. rewrite <- Hin.
  rewrite next_offset by lia.
  replace (entry (mb c) <? RT_MB_ENTRY_MAX) with true by (unfold RT_MB_ENTRY_MAX; lia).
  rewrite u16_small by lia. unfold bind at 1, set_mb, modify. unfold bind at 1, gets.
  cbn [put_mb ms_krn krn msys_kernel mb]. fold (stored v (mb c)).
  destruct (waitq (ms_krn c) suspend_thread) as [|h r] eqn:Eq.
  - unfold woken. by rewrite Eq.
  - unfold bind. by rewrite (list_resume_spec _ h r) by done.
Qed.

Lemma mb_get_spec (c : msys) :
  ring_ok (mb c) -> 0 < entry (mb c) -> all_suspended suspend_sender_thread (ms_krn c) ->
  mb_get c = Some (Done RT_EOK (Some (at_ (msg_pool (mb c)) (Z.to_nat (out_offset (mb c))))),
                   mk_msys (woken suspend_sender_thread (ms_krn c)) (fetched (mb c))).
Proof.
  intros Hr Hlt Hs. destruct Hr as [Hsz Hp He Ho]. specialize (Ho ltac:(lia)) as [Hout Hin].
  unfold mb_get, bind at 1, gets at 1. rewrite Hp. replace (_ && _) with true by lia.
  cbv zeta. cbn [with_out entry]. rewrite next_offset by lia.
  replace (0 <? entry (mb c)) with true by lia.
  unfold bind at 1, set_mb, modify. unfold bind at 1, gets.
  cbn [put_mb ms_krn krn msys_kernel mb]. fold (fetched (mb c)).
  destruct (waitq (ms_krn c) suspend_sender_thread) as [|h r] eqn:Eq.
  - unfold woken. by rewrite Eq.
  - unfold bind. by rewrite (list_resume_spec _ h r) by done.
Qed.

(** ** Timeouts *)

(** The time that has passed between two readings of the 32-bit tick. *)
Definition elapsed (start now : Z) : Z := u32 (now - start).

Lemma remaining_exact timeout start now :
  0 < timeout < 2 ^ 31 -> elapsed start now < 2 ^ 31 ->
  remaining timeout start now = Z.max 0 (timeout - elapsed start now).
Proof.
  intros Ht He. unfold remaining. replace (0 <? timeout) with true by lia. cbv zeta.
  fold (elapsed start now). pose proof (u32_range (now - start)) as Hr.
  fold (elapsed start now) in Hr. rewrite s32_small by lia.
  destruct (timeout - elapsed start now <? 0) eqn:E; lia.
Qed.
