(* ===== verification/MailboxSystem.v ===== *)
(** * Threads sharing a mailbox

    Any number of threads use one mailbox: they send, receive, block, are
    woken, time out, reset and detach it, in any order and under any schedule.
    A step is a piece of Mailbox.v; between steps a thread remembers where it
    is.  Proved: the steps never go wrong, the mailbox is a bounded queue, mails
    arrive in the order in which they were sent, and no wake-up is lost. *)

From Stdlib Require Import ZArith Lia.
From stdpp Require Import prelude functions list.
From S2P Require Import Prelude Kernel KernelSpec WaitQueue Mailbox MailboxSpec.
Open Scope Z_scope.
Open Scope c_scope.

(** ** Steps *)

(** Where a thread is: outside the mailbox code, or suspended (or just woken)
    in the middle of one of its functions. *)
Inductive pc :=
| Idle
| Sending (value timeout tick_delta : Z)
| Receiving (timeout tick_delta : Z)
| Detaching (q : qid)
| Resuming (q : qid).

Record sys := mk_sys {
  core : msys;
  pcs : tid -> pc
}.

Inductive action :=
| ASend (t : tid) (value timeout : Z)
| ARecv (t : tid) (timeout : Z)
| ARun (t : tid)
| ATimeout (t : tid)
| ATick
| AReset (t : tid)
| ADetach (t : tid).

(** What a step means for the users of the mailbox. *)
Inductive mlabel := LSent (v : Z) | LRecv (v : Z) | LReset | LTau.

Definition after_send (t : tid) (v : Z) (r : option (outcome * msys)) (s : sys) :
    option (mlabel * sys) :=
  match r with
  | Some (Done c _, k) =>
      Some (if c =? RT_EOK then LSent v else LTau, mk_sys k (<[t := Idle]> s.(pcs)))
  | Some (Blocked timeout d, k) =>
      Some (LTau, mk_sys k (<[t := Sending v timeout d]> s.(pcs)))
  | None => None
  end.

Definition after_recv (t : tid) (r : option (outcome * msys)) (s : sys) :
    option (mlabel * sys) :=
  match r with
  | Some (Done c v, k) =>
      Some (match v with Some v => LRecv v | None => LTau end,
            mk_sys k (<[t := Idle]> s.(pcs)))
  | Some (Blocked timeout d, k) =>
      Some (LTau, mk_sys k (<[t := Receiving timeout d]> s.(pcs)))
  | None => None
  end.

(** A timer is taken out of the timer list before its function is called. *)
Definition expire (t : tid) : M msys unit :=
  on_krn (alter_thread (with_timer None) t) ;;; rt_thread_timeout t.

Definition mb_step (a : action) (s : sys) : option (mlabel * sys) :=
  match a with
  | ASend t v timeout => after_send t v (rt_mb_send_wait t v timeout s.(core)) s
  | ARecv t timeout => after_recv t (rt_mb_recv t timeout s.(core)) s
  | ARun t =>
      match s.(pcs) t with
      | Idle => None
      | Sending v timeout d => after_send t v (mb_send_resumed t v timeout d s.(core)) s
      | Receiving timeout d => after_recv t (mb_recv_resumed t timeout d s.(core)) s
      | Detaching q =>
          match mb_detach_test q s.(core) with
          | Some (false, k) => Some (LTau, mk_sys k (<[t := Resuming q]> s.(pcs)))
          | Some (true, k) =>
              if (q =? suspend_thread)%nat
              then Some (LTau, mk_sys k (<[t := Detaching suspend_sender_thread]> s.(pcs)))
              else match mb_object_detach k with
                   | Some (_, k) => Some (LTau, mk_sys k (<[t := Idle]> s.(pcs)))
                   | None => None
                   end
          | None => None
          end
      | Resuming q =>
          match mb_detach_round q s.(core) with
          | Some (_, k) => Some (LTau, mk_sys k (<[t := Detaching q]> s.(pcs)))
          | None => None
          end
      end
  | ATimeout t =>
      match expire t s.(core) with
      | Some (_, k) => Some (LTau, mk_sys k s.(pcs))
      | None => None
      end
  | ATick =>
      let k := ms_krn s.(core) in
      Some (LTau, mk_sys (mk_msys (mk_kernel (u32 (k.(rt_tick) + 1)) k.(tcb) k.(waitq))
                            (mb s.(core))) s.(pcs))
  | AReset t =>
      match rt_mb_control RT_IPC_CMD_RESET s.(core) with
      | Some (_, k) => Some (LReset, mk_sys k s.(pcs))
      | None => None
      end
  | ADetach t =>
      if is_mailbox (mb s.(core))
      then Some (LTau, mk_sys s.(core) (<[t := Detaching suspend_thread]> s.(pcs)))
      else None
  end.

(** ** When a step can happen *)

Definition thr (s : sys) (t : tid) : rt_thread := tcb (ms_krn s.(core)) t.
Definition now (s : sys) : Z := rt_tick (ms_krn s.(core)).

(** A thread that runs is ready; a call needs an initialised mailbox and a
    timeout the timer accepts. *)
Definition can_call (s : sys) (t : tid) : Prop :=
  s.(pcs) t = Idle /\ stat (thr s t) = RT_THREAD_READY /\ is_mailbox (mb s.(core)) = true.

Definition timeout_ok (timeout : Z) : Prop := - 2 ^ 31 <= timeout < 2 ^ 31 - 1.

(** A woken thread runs within 2^31 ticks (24 days) of having blocked. *)
Definition runs_in_time (s : sys) (t : tid) : Prop :=
  match s.(pcs) t with
  | Sending _ timeout d | Receiving timeout d => 0 < timeout -> elapsed d (now s) < 2 ^ 31
  | _ => True
  end.

(** The body of the loop of a detach finds the list empty that its test has found
    not empty: in between the last waiting thread has timed out, or was resumed by
    someone else. *)
Definition overtaken (a : action) (s : sys) : Prop :=
  match a with
  | ARun t => match s.(pcs) t with Resuming q => waitq (ms_krn s.(core)) q = [] | _ => False end
  | _ => False
  end.

#[export] Instance overtaken_dec a s : Decision (overtaken a s).
Proof. destruct a as [| |t| | | |]; try apply _. cbn. destruct (pcs s t); apply _. Defined.

Lemma mb_overtaken a s : overtaken a s -> mb_step a s = None.
Proof.
  destruct a as [| |t| | | |]; try done. cbn [overtaken mb_step]. destruct (pcs s t) as [| | | |q]; try done.
  unfold mb_detach_round, bind, gets. intros E. cbn [krn msys_kernel]. by rewrite E.
Qed.

Section threads.
(** The threads that use the mailbox. *)
Context (all : list tid).
Hypothesis all_nodup : NoDup all.

Definition enabled (a : action) (s : sys) : Prop :=
  match a with
  | ASend t _ timeout | ARecv t timeout => t ∈ all /\ can_call s t /\ timeout_ok timeout
  | ARun t => s.(pcs) t <> Idle /\ stat (thr s t) = RT_THREAD_READY /\ runs_in_time s t
  | ATimeout t => stat (thr s t) = RT_THREAD_SUSPEND /\
      exists d, thread_timer (thr s t) = Some d /\ elapsed d (now s) < RT_TICK_MAX / 2
  | ATick => True
  | AReset t | ADetach t => t ∈ all /\ can_call s t
  end.

Definition step (s : sys) (l : mlabel) (s' : sys) : Prop :=
  exists a, enabled a s /\ mb_step a s = Some (l, s').

(** ** The invariant *)

Definition class_of (p : pc) (th : rt_thread) : class :=
  let side_class x :=
    if decide (stat th = RT_THREAD_SUSPEND) then Wait x
    else if decide (error th = RT_EOK) then Wake x else Other in
  match p with
  | Receiving _ _ => side_class Rcv
  | Sending _ _ _ => side_class Snd
  | _ => Other
  end.

Definition qid_of (x : side) : qid :=
  match x with Rcv => suspend_thread | Snd => suspend_sender_thread end.

Definition wst (s : sys) : wstate := {|
  wq x := waitq (ms_krn s.(core)) (qid_of x);
  cls t := class_of (s.(pcs) t) (thr s t);
  avail x := match x with
             | Rcv => entry (mb s.(core))
             | Snd => size (mb s.(core)) - entry (mb s.(core))
             end
|}.

Definition flag_ok (m : rt_mailbox) : Prop :=
  m.(flag) = RT_IPC_FLAG_FIFO \/ m.(flag) = RT_IPC_FLAG_PRIO.

(** A suspended thread waits on one of the two lists, with a timeout that the
    timer accepts and no error pending. *)
Definition pc_ok (p : pc) (th : rt_thread) : Prop :=
  match p with
  | Idle => stat th = RT_THREAD_READY
  | Detaching q | Resuming q =>
      stat th = RT_THREAD_READY /\ (q = suspend_thread \/ q = suspend_sender_thread)
  | Sending _ timeout _ | Receiving timeout _ =>
      timeout_ok timeout /\ (stat th = RT_THREAD_SUSPEND -> error th = RT_EOK)
  end.

Record inv (s : sys) : Prop := mk_inv {
  inv_wait : winv all (wst s);
  inv_ring : ring_ok (mb s.(core));
  inv_flag : flag_ok (mb s.(core));
  inv_pcs t : pc_ok (s.(pcs) t) (thr s t);
  inv_busy t : s.(pcs) t <> Idle -> t ∈ all
}.

(** The state after [rt_mb_init], with every thread ready. *)
Definition initial (s : sys) : Prop :=
  (exists pool n f, ring_ok (mk_mb true f pool n 0 0 0) /\
     mb s.(core) = mk_mb true f pool n 0 0 0 /\ flag_ok (mb s.(core))) /\
  (forall x, waitq (ms_krn s.(core)) (qid_of x) = []) /\
  (forall t, s.(pcs) t = Idle /\ stat (thr s t) = RT_THREAD_READY).

Lemma initial_inv s : initial s -> inv s.
Proof.
  intros ((pool & n & f & Hr & Hm & Hf) & Hq & Ht).
  split; [split|by rewrite Hm|done|..].
  - intros x t. cbn [wst wq cls]. rewrite Hq. destruct (Ht t) as [-> _]. by split; [set_solver|].
  - intros x. cbn [wst wq]. rewrite Hq. constructor.
  - intros t. cbn [wst cls]. destruct (Ht t) as [-> _]. done.
  - intros x. cbn [wst wq]. by rewrite Hq.
  - intros t. destruct (Ht t) as [-> ?]. done.
  - intros t. destruct (Ht t) as [-> ?]. done.
Qed.

(** ** Facts about the effects *)

Lemma class_not_wait p th x : stat th = RT_THREAD_READY -> class_of p th <> Wait x.
Proof. intros Hs. unfold class_of. rewrite Hs. destruct p; repeat case_decide; done. Qed.

Lemma class_wait s x t :
  inv s -> t ∈ waitq (ms_krn s.(core)) (qid_of x) -> cls (wst s) t = Wait x.
Proof. intros Hs Ht. by apply (w_queue _ _ (inv_wait _ Hs) x t). Qed.

Lemma wait_suspended s x t :
  cls (wst s) t = Wait x -> stat (thr s t) = RT_THREAD_SUSPEND.
Proof.
  cbn [wst cls]. intros Hc. destruct (stat (thr s t)) eqn:E; [|done].
  exfalso. by eapply class_not_wait.
Qed.

Lemma inv_suspended s x : inv s -> all_suspended (qid_of x) (ms_krn s.(core)).
Proof. intros Hs t Ht. by eapply wait_suspended, class_wait. Qed.

(** ** Steps of one thread that leave the lists alone *)

(** The kernel changes at most the thread [t], which stays ready. *)
Record local (t : tid) (k k' : kernel) : Prop := mk_local {
  loc_queues q : waitq k' q = waitq k q;
  loc_others u : u <> t -> tcb k' u = tcb k u;
  loc_ready : stat (tcb k' t) = RT_THREAD_READY
}.

Lemma local_refl t k : stat (tcb k t) = RT_THREAD_READY -> local t k k.
Proof. by split. Qed.

Lemma local_error t e k :
  stat (tcb k t) = RT_THREAD_READY -> local t k (alter_thread (with_error e) t k).
Proof.
  intros Hs. split; [done|..].
  - intros u Hu. rewrite tcb_alter. by rewrite decide_False.
  - by rewrite tcb_alter, decide_True.
Qed.

(** What a thread may leave behind when it is done: nothing is available to it
    if it had been woken, or it has taken one unit. *)
Lemma inv_done s t k' m' p :
  inv s -> t ∈ all -> stat (thr s t) = RT_THREAD_READY ->
  local t (ms_krn s.(core)) k' -> ring_ok m' -> flag_ok m' -> pc_ok p (tcb k' t) ->
  class_of p (tcb k' t) = Other ->
  (forall x, waitq (ms_krn s.(core)) (qid_of x) <> [] ->
     avail (wst (mk_sys (mk_msys k' m') (<[t := p]> s.(pcs)))) x <=
       avail (wst s) x - b2z (cls (wst s) t = Wake x) \/
     avail (wst (mk_sys (mk_msys k' m') (<[t := p]> s.(pcs)))) x <= 0) ->
  inv (mk_sys (mk_msys k' m') (<[t := p]> s.(pcs))).
Proof.
  intros Hs Ht Hr [Hq Hu Hr'] Hm Hf Hp Hc Ha.
  split; [|done|done|..].
  - eapply (winv_move all all_nodup (wst s)); [apply Hs|exact Ht|..].
    + intros x. cbn [wst cls]. by apply class_not_wait.
    + intros x. cbn [wst cls core pcs thr ms_krn]. unfold thr. cbn [core ms_krn pcs].
      rewrite fn_lookup_insert. by apply class_not_wait.
    + intros x. cbn [wst wq core ms_krn]. apply Hq.
    + intros u Hne. cbn [wst cls]. unfold thr. cbn [core ms_krn pcs].
      by rewrite fn_lookup_insert_ne, Hu.
    + intros x Hx. specialize (Ha x Hx). cbn [wst cls] in Ha |- *. unfold thr in *.
      cbn [core ms_krn pcs] in *. rewrite fn_lookup_insert, Hc.
      unfold b2z at 1. rewrite decide_False by done. lia.
  - intros u. unfold thr. cbn [core ms_krn pcs]. destruct (decide (u = t)) as [->|Hne].
    + by rewrite fn_lookup_insert.
    + rewrite fn_lookup_insert_ne, Hu by done. apply Hs.
  - intros u. cbn [pcs]. destruct (decide (u = t)) as [->|Hne]; [done|].
    rewrite fn_lookup_insert_ne by done. apply Hs.
Qed.

(** ** Storing and fetching *)

Definition opposite (x : side) : side := match x with Rcv => Snd | Snd => Rcv end.

(** Adding units to a side nobody waits on. *)
Lemma winv_surplus w w' x :
  winv all w -> wq w x = [] ->
  (forall y, wq w' y = wq w y) -> (forall u, cls w' u = cls w u) ->
  (forall y, y <> x -> avail w' y = avail w y) -> winv all w'.
Proof.
  intros Hw Hx Hq Hc Ha. split.
  - intros y u. rewrite Hq, Hc. apply Hw.
  - intros y. rewrite Hq. apply Hw.
  - intros u. rewrite Hc. apply Hw.
  - intros y Hy. rewrite Hq in Hy. destruct (decide (y = x)) as [->|Hne]; [by rewrite Hx in Hy|].
    rewrite Ha by done. pose proof (w_wake _ _ Hw y Hy) as Hle. unfold wakes in *.
    by rewrite (count_ext (cls w') (cls w)).
Qed.

(** A thread of side [opposite x] uses up a unit of its side and makes one for
    side [x], waking a waiting thread. *)
Lemma inv_exchange s t x m' :
  inv s -> t ∈ all -> stat (thr s t) = RT_THREAD_READY ->
  (forall y, cls (wst s) t = Wake y -> y = opposite x) ->
  ring_ok m' -> flag_ok m' ->
  let s' := mk_sys (mk_msys (woken (qid_of x) (ms_krn s.(core))) m')
              (<[t := Idle]> s.(pcs)) in
  avail (wst s') x = avail (wst s) x + 1 ->
  avail (wst s') (opposite x) = avail (wst s) (opposite x) - 1 ->
  inv s'.
Proof.
  intros Hs Ht Hr Hc Hm Hf s' Hax Hay.
  set (w1 := mk_wstate (wq (wst s)) (fun u => if decide (u = t) then Other else cls (wst s) u)
      (fun y => if decide (y = opposite x) then avail (wst s) y - 1 else avail (wst s) y)).
  assert (winv all w1) as Hw1.
  { eapply (winv_move all all_nodup (wst s)); [apply Hs|exact Ht|..].
    - intros y. by apply class_not_wait.
    - intros y. cbn [w1 cls]. by rewrite decide_True.
    - done.
    - intros u Hu. cbn [w1 cls]. by rewrite decide_False.
    - intros y _. left. assert (cls w1 t = Other) as -> by (cbn [w1 cls]; by rewrite decide_True).
      assert (b2z (Other = Wake y) = 0) as -> by done. cbn [w1 avail]. unfold b2z.
      case_decide as E1; case_decide as E2; try lia. by apply Hc in E2. }
  assert (forall h, h ∈ waitq (ms_krn s.(core)) (qid_of x) -> h <> t) as Hht.
  { intros h Hh ->. apply (class_wait s x t Hs) in Hh. by eapply class_not_wait in Hh. }
  assert (forall u, u <> t -> stat (thr s' u) = stat (thr s u) \/
            u ∈ waitq (ms_krn s.(core)) (qid_of x)) as Hst.
  { intros u Hu. unfold thr. cbn [s' core ms_krn]. rewrite tcb_woken.
    destruct (waitq _ _) as [|h r]; [by left|]. case_decide; [subst; right; by left|by left]. }
  assert (thr s' t = thr s t) as Htt.
  { unfold thr. cbn [s' core ms_krn]. rewrite tcb_woken.
    destruct (waitq _ _) as [|h r]; [done|]. rewrite decide_False; [done|].
    intros ->. by apply (Hht h); [left|]. }
  split; [|done|done|..].
  - destruct (waitq (ms_krn (core s)) (qid_of x)) as [|h r] eqn:Eq.
    + eapply (winv_surplus w1 (wst s') x Hw1); [exact Eq|..].
      * intros y. cbn [wst wq s' core ms_krn w1]. unfold woken. by rewrite Eq.
      * intros u. cbn [wst cls s' core ms_krn w1 pcs]. unfold thr. cbn [s' core ms_krn].
        rewrite tcb_woken, Eq. case_decide as E; [subst; by rewrite fn_lookup_insert|].
        by rewrite fn_lookup_insert_ne.
      * intros y Hy. cbn [w1 avail]. assert (y = opposite x) as -> by (by destruct x, y).
        by rewrite decide_True, Hay.
    + assert (h <> t) as Hne by (apply Hht; by left).
      assert (cls (wst s) h = Wait x) as Hwait by (apply class_wait; [done|rewrite Eq; by left]).
      assert (NoDup (h :: r)) as Hnd by (rewrite <- Eq; apply (w_nodup _ _ (inv_wait _ Hs) x)).
      apply NoDup_cons in Hnd as [Hhr Hnd].
      eapply (winv_wake all all_nodup w1 (wst s') x h r Hw1); [exact Eq|..].
      * cbn [wst wq s' core ms_krn]. unfold woken. rewrite Eq, waitq_resumed, Eq.
        rewrite filter_cons_False by auto. by apply filter_out.
      * intros y Hy. cbn [wst wq s' core ms_krn w1]. unfold woken. rewrite Eq, waitq_resumed.
        apply filter_out. intros Hin. apply (class_wait s y h Hs) in Hin. congruence.
      * cbn [wst cls s' core pcs]. unfold thr. cbn [s' core ms_krn].
        rewrite tcb_woken, Eq, decide_True, fn_lookup_insert_ne by done.
        pose proof (inv_pcs _ Hs h) as Hp. cbn [wst cls] in Hwait.
        assert (stat (thr s h) = RT_THREAD_SUSPEND) as Hsus by (by eapply wait_suspended).
        unfold class_of, pc_ok, thr in *. rewrite Hsus in *. cbn.
        destruct (pcs s h); cbn in Hwait; try done; destruct Hp as [_ Hp];
          rewrite Hp by done; destruct x; done.
      * intros u Hu. cbn [wst cls s' core pcs w1]. unfold thr. cbn [s' core ms_krn].
        rewrite tcb_woken, Eq, decide_False by done.
        case_decide as E; [subst; by rewrite fn_lookup_insert|]. by rewrite fn_lookup_insert_ne.
      * cbn [w1 avail]. rewrite decide_False by (by destruct x). lia.
      * intros y Hy. cbn [w1 avail]. assert (y = opposite x) as -> by (by destruct x, y).
        rewrite decide_True by done. lia.
  - intros u. cbn [s' pcs]. destruct (decide (u = t)) as [->|Hne].
    + rewrite fn_lookup_insert, Htt. done.
    + rewrite fn_lookup_insert_ne by done. pose proof (inv_pcs _ Hs u) as Hp.
      unfold thr. cbn [s' core ms_krn]. rewrite tcb_woken.
      destruct (waitq _ _) as [|h r]; [done|]. case_decide; [subst|done].
      unfold thr in Hp. destruct (pcs s h); cbn in *; try done; destruct Hp; done.
  - intros u. cbn [s' pcs]. destruct (decide (u = t)) as [->|Hne]; [done|].
    rewrite fn_lookup_insert_ne by done. apply Hs.
Qed.

(** ** Blocking *)

Lemma tcb_waiting q t f timeout k u :
  u <> t -> tcb (waiting q t f timeout k) u = tcb k u.
Proof.
  intros Hu. unfold waiting. case_match; [unfold timed; rewrite tcb_alter, decide_False by done|];
    unfold suspended; cbn [tcb]; by rewrite tcb_alter, decide_False.
Qed.

Lemma waiting_self q t f timeout k :
  let th := tcb (waiting q t f timeout k) t in
  stat th = RT_THREAD_SUSPEND /\ error th = error (tcb k t).
Proof.
  unfold waiting. case_match; [unfold timed; rewrite tcb_alter, decide_True by done|];
    unfold suspended; cbn [tcb]; by rewrite tcb_alter, decide_True.
Qed.

Lemma mb_waitq_waiting q t f timeout k y :
  waitq (waiting q t f timeout k) y =
  if decide (y = q)
  then ipc_insert f (fun u => current_priority
         (tcb (alter_thread (fun th => with_timer None (with_stat RT_THREAD_SUSPEND th)) t k) u))
         t (waitq k q)
  else waitq k y.
Proof.
  unfold waiting. case_match; cbn [timed suspended alter_thread waitq];
    (case_decide as E; [subst; by rewrite fn_lookup_insert|by rewrite fn_lookup_insert_ne]).
Qed.

Lemma inv_block s t x k1 timeout p :
  inv s -> t ∈ all -> stat (thr s t) = RT_THREAD_READY ->
  local t (ms_krn s.(core)) k1 -> error (tcb k1 t) = RT_EOK ->
  (forall y, cls (wst s) t = Wake y -> y = x) -> avail (wst s) x <= 0 ->
  (forall th, stat th = RT_THREAD_SUSPEND -> error th = RT_EOK ->
     class_of p th = Wait x /\ pc_ok p th) -> p <> Idle ->
  inv (mk_sys (mk_msys (waiting (qid_of x) t (flag (mb s.(core))) timeout k1) (mb s.(core)))
         (<[t := p]> s.(pcs))).
Proof.
  intros Hs Ht Hr [Hq Hu Hr'] He Hc Ha Hp HI.
  destruct (waiting_self (qid_of x) t (flag (mb (core s))) timeout k1) as [Hst Her].
  destruct (Hp _ Hst ltac:(by rewrite Her)) as [Hcls Hpc].
  assert (t ∉ waitq (ms_krn (core s)) (qid_of x)) as Hnot.
  { intros Hin. apply (class_wait s x t Hs) in Hin. by eapply class_not_wait in Hin. }
  split; [|apply Hs|apply Hs|..].
  - eapply (winv_block all all_nodup (wst s) _ t x); [apply Hs|exact Ht|..].
    + intros y. by apply class_not_wait.
    + cbn [wst cls pcs]. unfold thr. cbn [core ms_krn]. by rewrite fn_lookup_insert.
    + intros u Hne. cbn [wst cls pcs]. unfold thr. cbn [core ms_krn].
      by rewrite fn_lookup_insert_ne, tcb_waiting, Hu by done.
    + intros u. cbn [wst wq core ms_krn]. rewrite mb_waitq_waiting, decide_True by done.
      rewrite elem_of_ipc_insert by apply (inv_flag _ Hs). by rewrite Hq.
    + cbn [wst wq core ms_krn]. rewrite mb_waitq_waiting, decide_True by done.
      apply NoDup_ipc_insert; [apply (inv_flag _ Hs)|by rewrite Hq|].
      rewrite Hq. apply (w_nodup _ _ (inv_wait _ Hs) x).
    + intros y Hy. cbn [wst wq core ms_krn]. rewrite mb_waitq_waiting, decide_False, Hq; [done|].
      by destruct x, y.
    + done.
    + exact Ha.
    + intros y. destruct (decide (cls (wst s) t = Wake y)); auto.
  - intros u. unfold thr. cbn [core ms_krn pcs]. destruct (decide (u = t)) as [->|Hne].
    + by rewrite fn_lookup_insert.
    + rewrite fn_lookup_insert_ne, tcb_waiting, Hu by done. apply Hs.
  - intros u. cbn [pcs]. destruct (decide (u = t)) as [->|Hne]; [done|].
    rewrite fn_lookup_insert_ne by done. apply Hs.
Qed.

(** ** Giving up *)

(** A waiting thread is made ready with an error. *)
Lemma inv_cancel s x h e k' :
  inv s -> cls (wst s) h = Wait x -> e <> RT_EOK ->
  (forall q, waitq k' q = filter (fun u => u <> h) (waitq (ms_krn s.(core)) q)) ->
  (forall u, u <> h -> tcb k' u = thr s u) ->
  stat (tcb k' h) = RT_THREAD_READY -> error (tcb k' h) = e ->
  inv (mk_sys (mk_msys k' (mb s.(core))) s.(pcs)).
Proof.
  intros Hs Hx He Hq Hu Hr Her. pose proof (wait_suspended s x h Hx) as Hsus.
  split; [|apply Hs|apply Hs|..].
  - eapply (winv_quit all all_nodup (wst s) _ x h); [apply Hs|exact Hx|..].
    + intros y. cbn [wst wq core ms_krn]. apply Hq.
    + cbn [wst cls pcs]. unfold thr. cbn [core ms_krn]. unfold class_of. rewrite Hr, Her.
      destruct (pcs s h); try done; repeat case_decide; done.
    + intros u Hne. cbn [wst cls pcs]. unfold thr. cbn [core ms_krn]. by rewrite Hu.
    + done.
  - intros u. unfold thr. cbn [core ms_krn pcs]. destruct (decide (u = h)) as [->|Hne].
    + pose proof (inv_pcs _ Hs h) as Hp. cbn [wst cls] in Hx. unfold pc_ok, class_of in *.
      destruct (pcs s h); try done; rewrite Hr; by destruct Hp.
    + rewrite Hu by done. apply Hs.
  - apply Hs.
Qed.

(** ** The bounded queue *)

Definition queue (s : sys) : list Z := mails (mb s.(core)).
Definition capacity (s : sys) : Z := size (mb s.(core)).

(** A bounded queue of capacity [cap]: sending appends, receiving takes the
    first mail, a reset clears, everything else leaves the queue alone. *)
Definition queue_step (cap : Z) (q : list Z) (l : mlabel) (q' : list Z) : Prop :=
  match l with
  | LSent v => q' = q ++ [v] /\ Z.of_nat (length q') <= cap
  | LRecv v => q = v :: q'
  | LReset => q' = []
  | LTau => q' = q
  end.

(** A step that goes well. *)
Definition good (s : sys) (r : option (mlabel * sys)) : Prop :=
  exists l s', r = Some (l, s') /\ inv s' /\ capacity s' = capacity s /\
    queue_step (capacity s) (queue s) l (queue s').

Lemma send_round_good s t v timeout :
  inv s -> t ∈ all -> stat (thr s t) = RT_THREAD_READY -> timeout_ok timeout ->
  (forall y, cls (wst s) t = Wake y -> y = Snd) ->
  good s (after_send t v (mb_send_round t v timeout s.(core)) s).
Proof.
  intros Hs Ht Hr Hto Hc. unfold mb_send_round, bind at 1, gets at 1.
  pose proof (inv_ring _ Hs) as Hring.
  destruct (entry (mb (core s)) =? size (mb (core s))) eqn:E.
  - unfold bind at 1, set_error, on_krn, modify at 1. cbn [krn put_krn msys_kernel].
    set (k1 := alter_thread (with_error RT_EOK) t (ms_krn (core s))).
    assert (local t (ms_krn (core s)) k1) as Hl by (by apply local_error).
    destruct (timeout =? 0) eqn:E0.
    + cbn [ret after_send]. do 2 eexists. split; [reflexivity|]. split; [|done].
      apply inv_done; auto; [apply Hs|apply (loc_ready _ _ _ Hl)|].
      intros x _. cbn [wst avail core mb]. destruct x; [left|right; lia].
      unfold b2z. rewrite decide_False; [lia|]. intros Hw. by apply Hc in Hw.
    + rewrite block_on_spec by (try apply (loc_ready _ _ _ Hl); apply Hto).
      cbn [after_send]. do 2 eexists. split; [reflexivity|]. split; [|done].
      apply (inv_block s t Snd k1 timeout); auto.
      * unfold k1. by rewrite tcb_alter, decide_True.
      * cbn [wst avail]. lia.
      * intros th H1 H2. unfold class_of, pc_ok. rewrite H1. auto.
  - rewrite mb_put_spec;
      [|done|destruct Hring; lia|apply (inv_suspended s Rcv Hs)].
    cbn [after_send]. do 2 eexists. split; [reflexivity|].
    assert (entry (mb (core s)) < size (mb (core s))) as Hlt by (destruct Hring; lia).
    assert (ring_ok (stored v (mb (core s)))) as Hring' by (by apply stored_ring).
    split; [|split; [done|]].
    + apply (inv_exchange s t Rcv); auto; [apply (inv_flag _ Hs)|..];
        cbn [wst avail core mb stored with_entry with_in with_pool entry size opposite]; lia.
    + unfold queue_step, queue. cbn [core mb]. rewrite stored_mails by done.
      split; [done|]. rewrite <- stored_mails by done.
      rewrite length_mails by done. apply (ring_entry _ Hring').
Qed.

Lemma recv_round_good s t timeout :
  inv s -> t ∈ all -> stat (thr s t) = RT_THREAD_READY -> timeout_ok timeout ->
  (forall y, cls (wst s) t = Wake y -> y = Rcv) ->
  good s (after_recv t (mb_recv_round t timeout s.(core)) s).
Proof.
  intros Hs Ht Hr Hto Hc. unfold mb_recv_round, bind at 1, gets at 1.
  pose proof (inv_ring _ Hs) as Hring.
  destruct (entry (mb (core s)) =? 0) eqn:E.
  - unfold bind at 1, set_error at 1, on_krn, modify at 1. cbn [krn put_krn msys_kernel].
    set (k1 := alter_thread (with_error RT_EOK) t (ms_krn (core s))).
    assert (local t (ms_krn (core s)) k1) as Hl by (by apply local_error).
    destruct (timeout =? 0) eqn:E0.
    + unfold bind, set_error, on_krn, modify, ret. cbn [krn put_krn msys_kernel ms_krn mb after_recv].
      do 2 eexists. split; [reflexivity|]. split; [|done].
      apply inv_done; auto; try apply Hs.
      * destruct Hl as [H1 H2 H3]. split; [done|..].
        -- intros u Hu. rewrite tcb_alter, decide_False by done. by apply H2.
        -- by rewrite tcb_alter, decide_True.
      * cbn [pc_ok]. rewrite tcb_alter, decide_True by done. apply (loc_ready _ _ _ Hl).
      * intros x _. cbn [wst avail core mb]. destruct x; [right; lia|left].
        unfold b2z. rewrite decide_False; [lia|]. intros Hw. by apply Hc in Hw.
    + rewrite block_on_spec by (try apply (loc_ready _ _ _ Hl); apply Hto).
      cbn [after_recv]. do 2 eexists. split; [reflexivity|]. split; [|done].
      apply (inv_block s t Rcv k1 timeout); auto.
      * unfold k1. by rewrite tcb_alter, decide_True.
      * cbn [wst avail]. lia.
      * intros th H1 H2. unfold class_of, pc_ok. rewrite H1. auto.
  - rewrite mb_get_spec; [|done|destruct Hring; lia|apply (inv_suspended s Snd Hs)].
    cbn [after_recv]. do 2 eexists. split; [reflexivity|].
    assert (0 < entry (mb (core s))) as Hlt by (destruct Hring; lia).
    split; [|split; [done|]].
    + apply (inv_exchange s t Snd); auto; [by apply fetched_ring|apply (inv_flag _ Hs)|..];
        cbn [wst avail core mb fetched with_entry with_out entry size opposite]; lia.
    + unfold queue_step, queue. cbn [core mb]. by apply fetched_mails.
Qed.

(** A thread outside the lists moves on without touching the mailbox's
    contents. *)
Lemma inv_pc s t m' p :
  inv s -> t ∈ all -> stat (thr s t) = RT_THREAD_READY -> cls (wst s) t = Other ->
  ring_ok m' -> flag_ok m' -> size m' = size (mb s.(core)) -> entry m' = entry (mb s.(core)) ->
  pc_ok p (thr s t) -> class_of p (thr s t) = Other ->
  inv (mk_sys (mk_msys (ms_krn s.(core)) m') (<[t := p]> s.(pcs))).
Proof.
  intros Hs Ht Hr Hc Hm Hf Hsz Hen Hp Hcp. apply inv_done; auto using local_refl.
  intros x _. left. rewrite Hc. assert (b2z (Other = Wake x) = 0) as -> by done.
  cbn [wst avail core mb]. rewrite Hsz, Hen. lia.
Qed.

Lemma send_resumed_good s t v timeout d :
  inv s -> s.(pcs) t = Sending v timeout d -> stat (thr s t) = RT_THREAD_READY ->
  (0 < timeout -> elapsed d (now s) < 2 ^ 31) ->
  good s (after_send t v (mb_send_resumed t v timeout d s.(core)) s).
Proof.
  intros Hs Hpc Hr Hrun. assert (t ∈ all) as Ht by (apply (inv_busy _ Hs); by rewrite Hpc).
  pose proof (inv_pcs _ Hs t) as Hp. rewrite Hpc in Hp. destruct Hp as [Hto _].
  assert (cls (wst s) t = if decide (error (thr s t) = RT_EOK) then Wake Snd else Other) as Hc.
  { cbn [wst cls]. rewrite Hpc. unfold class_of. by rewrite Hr. }
  unfold mb_send_resumed, thread_of, bind at 1, gets at 1. cbn [krn msys_kernel].
  fold (thr s t). destruct (error (thr s t) =? RT_EOK) eqn:E; cbn [negb].
  - unfold bind at 1, rt_tick_get, gets at 1. cbn [krn msys_kernel].
    apply send_round_good; auto.
    + destruct (decide (0 < timeout)) as [Hpos|Hneg].
      * rewrite remaining_exact; [|unfold timeout_ok in Hto; lia|by apply Hrun].
        pose proof (u32_range (now s - d)). unfold timeout_ok, elapsed, now in *. lia.
      * unfold remaining. by replace (0 <? timeout) with false by lia.
    + intros y. rewrite Hc. case_decide; congruence.
  - cbn [ret after_send]. rewrite E. do 2 eexists. split; [reflexivity|]. split; [|done].
    destruct s as [[k m] pc]. apply (inv_pc (mk_sys (mk_msys k m) pc)); auto; try apply Hs.
    rewrite Hc, decide_False; [done|]. intros E'. rewrite E' in E. done.
Qed.

Lemma recv_resumed_good s t timeout d :
  inv s -> s.(pcs) t = Receiving timeout d -> stat (thr s t) = RT_THREAD_READY ->
  (0 < timeout -> elapsed d (now s) < 2 ^ 31) ->
  good s (after_recv t (mb_recv_resumed t timeout d s.(core)) s).
Proof.
  intros Hs Hpc Hr Hrun. assert (t ∈ all) as Ht by (apply (inv_busy _ Hs); by rewrite Hpc).
  pose proof (inv_pcs _ Hs t) as Hp. rewrite Hpc in Hp. destruct Hp as [Hto _].
  assert (cls (wst s) t = if decide (error (thr s t) = RT_EOK) then Wake Rcv else Other) as Hc.
  { cbn [wst cls]. rewrite Hpc. unfold class_of. by rewrite Hr. }
  unfold mb_recv_resumed, thread_of, bind at 1, gets at 1. cbn [krn msys_kernel].
  fold (thr s t). destruct (error (thr s t) =? RT_EOK) eqn:E; cbn [negb].
  - unfold bind at 1, rt_tick_get, gets at 1. cbn [krn msys_kernel].
    apply recv_round_good; auto.
    + destruct (decide (0 < timeout)) as [Hpos|Hneg].
      * rewrite remaining_exact; [|unfold timeout_ok in Hto; lia|by apply Hrun].
        pose proof (u32_range (now s - d)). unfold timeout_ok, elapsed, now in *. lia.
      * unfold remaining. by replace (0 <? timeout) with false by lia.
    + intros y. rewrite Hc. case_decide; congruence.
  - cbn [ret after_recv]. do 2 eexists. split; [reflexivity|]. split; [|done].
    destruct s as [[k m] pc]. apply (inv_pc (mk_sys (mk_msys k m) pc)); auto; try apply Hs.
    rewrite Hc, decide_False; [done|]. intros E'. rewrite E' in E. done.
Qed.

(** A suspended thread waits on one of the lists. *)
Lemma suspended_waits s t :
  inv s -> stat (thr s t) = RT_THREAD_SUSPEND -> exists x, cls (wst s) t = Wait x.
Proof.
  intros Hs Hst. pose proof (inv_pcs _ Hs t) as Hp. cbn [wst cls]. unfold class_of, pc_ok in *.
  rewrite Hst. destruct (pcs s t) as [| | |q|q]; cbn; eauto; [congruence|..]; destruct Hp; congruence.
Qed.

Lemma expire_good s t :
  inv s -> stat (thr s t) = RT_THREAD_SUSPEND ->
  good s (match expire t s.(core) with
          | Some (_, k) => Some (LTau, mk_sys k s.(pcs)) | None => None end).
Proof.
  intros Hs Hst. destruct (suspended_waits s t Hs Hst) as [x Hx].
  unfold expire, bind at 1, on_krn at 1, modify at 1. cbn [krn put_krn msys_kernel].
  unfold rt_thread_timeout, bind at 1, thread_of, gets. cbn [krn msys_kernel ms_krn].
  rewrite tcb_alter, decide_True by done. cbn [with_timer stat]. fold (thr s t).
  rewrite bool_decide_eq_true_2 by done.
  unfold set_error, bind, on_krn, modify. cbn [krn put_krn msys_kernel ms_krn mb].
  do 2 eexists. split; [reflexivity|]. split; [|done].
  apply (inv_cancel s x t (- RT_ETIMEOUT)); try done.
  - intros u Hu. rewrite tcb_alter, decide_False by done. cbn [unlink tcb].
    by rewrite !tcb_alter, !decide_False.
  - by rewrite tcb_alter, decide_True.
  - rewrite tcb_alter, decide_True by done. cbn [with_stat error]. unfold unlink. cbn [tcb].
    by rewrite tcb_alter, decide_True.
Qed.

(** ** Resetting and detaching *)

Lemma resume_error_good c ps x h r :
  inv (mk_sys c ps) -> waitq (ms_krn c) (qid_of x) = h :: r ->
  exists c', resume_with_error h c = Some (tt, c') /\ inv (mk_sys c' ps) /\ mb c' = mb c /\
    waitq (ms_krn c') (qid_of x) = r /\
    (forall q, waitq (ms_krn c) q = [] -> waitq (ms_krn c') q = []).
Proof.
  intros Hs Hq. pose proof (class_wait _ x h Hs ltac:(cbn [core]; rewrite Hq; by left)) as Hx.
  pose proof (wait_suspended _ x h Hx) as Hst. unfold thr in Hst. cbn [core] in Hst.
  unfold resume_with_error, set_error, on_krn, bind at 1, modify.
  cbn [krn put_krn msys_kernel]. unfold bind.
  rewrite resume_spec by (cbn [krn msys_kernel ms_krn]; by rewrite tcb_alter, decide_True).
  cbn [krn put_krn msys_kernel ms_krn mb]. eexists. split; [reflexivity|].
  assert (NoDup (h :: r)) as Hnd by (rewrite <- Hq; apply (w_nodup _ _ (inv_wait _ Hs) x)).
  apply NoDup_cons in Hnd as [Hhr Hnd].
  split_and!; [|done|..].
  - apply (inv_cancel (mk_sys c ps) x h (- RT_ERROR)); try done.
    + intros u Hu. unfold resumed. rewrite tcb_alter, decide_False by done. unfold unlink.
      cbn [tcb]. by rewrite tcb_alter, decide_False.
    + unfold resumed. by rewrite tcb_alter, decide_True.
    + unfold resumed. rewrite tcb_alter, decide_True by done. unfold unlink. cbn [tcb with_stat
        with_timer error]. by rewrite tcb_alter, decide_True.
  - cbn [ms_krn]. rewrite waitq_resumed. cbn [alter_thread waitq].
    rewrite Hq, filter_cons_False by auto. by apply filter_out.
  - intros q Hq0. cbn [ms_krn]. rewrite waitq_resumed. cbn [alter_thread waitq]. by rewrite Hq0.
Qed.

(** The loop over a list ends after as many rounds as the list is long. *)
Lemma resume_all_good c ps x :
  inv (mk_sys c ps) ->
  exists c', rt_ipc_list_resume_all (qid_of x) c = Some (RT_EOK, c') /\
    inv (mk_sys c' ps) /\ mb c' = mb c /\ waitq (ms_krn c') (qid_of x) = [] /\
    (forall q, waitq (ms_krn c) q = [] -> waitq (ms_krn c') q = []).
Proof.
  intros Hs. unfold rt_ipc_list_resume_all, bind at 1, gets at 1. cbn [krn msys_kernel].
  remember (length (waitq (ms_krn c) (qid_of x))) as n eqn:Hn.
  revert c Hs Hn. induction n as [|n IH]; intros c Hs Hn; cbn [resume_all_from];
    unfold bind at 1, gets at 1; cbn [krn msys_kernel];
    destruct (waitq (ms_krn c) (qid_of x)) as [|h r] eqn:Eq; try done; [by eexists|].
  destruct (resume_error_good c ps x h r Hs Eq) as (c1 & Hr1 & Hs1 & Hm1 & Hq1 & He1).
  unfold bind at 1. rewrite Hr1.
  destruct (IH c1 Hs1) as (c2 & Hr2 & Hs2 & Hm2 & Hq2 & He2).
  { rewrite Hq1. cbn in Hn. lia. }
  exists c2. split_and!; [done|done|congruence|done|auto].
Qed.

(** With empty lists the counters can be reset. *)
Lemma inv_cleared c ps m' :
  inv (mk_sys c ps) -> (forall x, waitq (ms_krn c) (qid_of x) = []) ->
  ring_ok m' -> flag_ok m' -> inv (mk_sys (mk_msys (ms_krn c) m') ps).
Proof.
  intros Hs Hq Hm Hf. split; [|done|done|apply Hs|apply Hs]. split.
  - apply (inv_wait _ Hs).
  - apply (inv_wait _ Hs).
  - apply (inv_wait _ Hs).
  - intros x Hx. exfalso. apply Hx. cbn [wst wq core ms_krn]. apply Hq.
Qed.

Lemma reset_good s :
  inv s -> is_mailbox (mb s.(core)) = true ->
  good s (match rt_mb_control RT_IPC_CMD_RESET s.(core) with
          | Some (_, k) => Some (LReset, mk_sys k s.(pcs)) | None => None end).
Proof.
  intros Hs Hm. destruct s as [c ps]. cbn [core pcs] in *.
  unfold rt_mb_control, bind at 1, gets at 1. rewrite Hm. cbn [negb]. rewrite Z.eqb_refl.
  destruct (resume_all_good c ps Rcv Hs) as (c1 & Hr1 & Hs1 & Hm1 & Hq1 & _).
  destruct (resume_all_good c1 ps Snd Hs1) as (c2 & Hr2 & Hs2 & Hm2 & Hq2 & He2).
  cbn [qid_of] in *. unfold bind at 1. rewrite Hr1. unfold bind at 1. rewrite Hr2.
  unfold bind, gets, set_mb, modify, ret, put_mb. do 2 eexists. split; [reflexivity|].
  pose proof (inv_ring _ Hs2) as Hring. cbn [core] in Hring.
  assert (capacity (mk_sys c2 ps) = capacity (mk_sys c ps)) as Hcap.
  { unfold capacity. cbn [core]. congruence. }
  split_and!; [|exact Hcap|done].
  apply inv_cleared; [done|by intros []; [apply He2|]| |apply (inv_flag _ Hs2)].
  destruct Hring as [H1 H2 H3 H4].
  split; cbn [with_out with_in with_entry size msg_pool entry in_offset out_offset];
    [done|done|lia|]. intros Hpos. split; [lia|]. by rewrite Z.mod_0_l by lia.
Qed.

Lemma detach_test_good s t q :
  inv s -> s.(pcs) t = Detaching q ->
  good s (mb_step (ARun t) s).
Proof.
  intros Hs Hpc. assert (t ∈ all) as Ht by (apply (inv_busy _ Hs); by rewrite Hpc).
  pose proof (inv_pcs _ Hs t) as Hp. rewrite Hpc in Hp. destruct Hp as [Hr Hq].
  assert (cls (wst s) t = Other) as Hc by (cbn [wst cls]; by rewrite Hpc).
  cbn [mb_step]. rewrite Hpc. unfold mb_detach_test, bind at 1, gets at 1.
  cbn [krn msys_kernel ret]. destruct s as [[k m] ps]. cbn [core pcs ms_krn] in *.
  destruct (waitq k q) as [|h r] eqn:Eq; [destruct Hq as [-> | ->]; cbn [suspend_thread
      suspend_sender_thread Nat.eqb]|].
  - do 2 eexists. split; [reflexivity|]. split; [|done].
    apply (inv_pc (mk_sys (mk_msys k m) ps)); auto; try apply Hs. cbn; auto.
  - unfold mb_object_detach, bind, gets, set_mb, modify, put_mb. do 2 eexists.
    split; [reflexivity|]. split; [|done].
    apply (inv_pc (mk_sys (mk_msys k m) ps)); auto; try apply Hs.
    destruct (inv_ring _ Hs). by split.
  - do 2 eexists. split; [reflexivity|]. split; [|done].
    apply (inv_pc (mk_sys (mk_msys k m) ps)); auto; try apply Hs. cbn; auto.
Qed.

Lemma detach_round_good s t q :
  inv s -> s.(pcs) t = Resuming q -> waitq (ms_krn s.(core)) q <> [] ->
  good s (mb_step (ARun t) s).
Proof.
  intros Hs Hpc Hne. assert (t ∈ all) as Ht by (apply (inv_busy _ Hs); by rewrite Hpc).
  pose proof (inv_pcs _ Hs t) as Hp. rewrite Hpc in Hp. destruct Hp as [Hr Hq].
  assert (cls (wst s) t = Other) as Hc by (cbn [wst cls]; by rewrite Hpc).
  cbn [mb_step]. rewrite Hpc. unfold mb_detach_round, bind at 1, gets at 1.
  cbn [krn msys_kernel]. destruct s as [c ps]. cbn [core pcs] in *.
  assert (exists x, q = qid_of x) as [x ->] by (destruct Hq as [-> | ->]; [by exists Rcv|by exists Snd]).
  destruct (waitq (ms_krn c) (qid_of x)) as [|h r] eqn:Eq; [done|].
  destruct (resume_error_good c ps x h r Hs Eq) as (c1 & Hr1 & Hs1 & Hm1 & _).
  rewrite Hr1. do 2 eexists. split; [reflexivity|].
  split; [|unfold capacity, queue, queue_step; cbn [core]; by rewrite Hm1].
  pose proof (inv_pcs _ Hs1 t) as Hp. cbn [pcs] in Hp. rewrite Hpc in Hp. destruct Hp as [Hr' _].
  destruct c1 as [k1 m1]. apply (inv_pc (mk_sys (mk_msys k1 m1) ps)); auto; try apply Hs1.
  - cbn [wst cls pcs]. by rewrite Hpc.
  - cbn. auto.
Qed.

(** ** All steps *)

Lemma step_good s a : inv s -> enabled a s -> ~ overtaken a s -> good s (mb_step a s).
Proof.
  intros Hs Ha Hov. destruct a as [t v timeout|t timeout|t|t| |t|t]; cbn [enabled] in Ha.
  - destruct Ha as (Ht & (Hpc & Hr & Hm) & Hto). cbn [mb_step].
    assert (cls (wst s) t = Other) as Hc by (cbn [wst cls]; by rewrite Hpc).
    unfold rt_mb_send_wait, bind at 1, gets at 1. rewrite Hm. cbn [negb].
    destruct (_ && _) eqn:E.
    + cbn [ret after_send]. do 2 eexists. split; [reflexivity|]. split; [|done].
      destruct s as [[k m] ps]. apply (inv_pc (mk_sys (mk_msys k m) ps)); auto; apply Hs.
    + apply send_round_good; auto. intros y. by rewrite Hc.
  - destruct Ha as (Ht & (Hpc & Hr & Hm) & Hto). cbn [mb_step].
    assert (cls (wst s) t = Other) as Hc by (cbn [wst cls]; by rewrite Hpc).
    unfold rt_mb_recv, bind at 1, gets at 1. rewrite Hm. cbn [negb].
    destruct (_ && _) eqn:E.
    + cbn [ret after_recv]. do 2 eexists. split; [reflexivity|]. split; [|done].
      destruct s as [[k m] ps]. apply (inv_pc (mk_sys (mk_msys k m) ps)); auto; apply Hs.
    + apply recv_round_good; auto. intros y. by rewrite Hc.
  - destruct Ha as (Hpc & Hr & Hrun). unfold runs_in_time in *. cbn [overtaken] in Hov.
    destruct (pcs s t) as [|v timeout d|timeout d|q|q] eqn:E; [done|..].
    + cbn [mb_step]. rewrite E. by apply send_resumed_good.
    + cbn [mb_step]. rewrite E. by apply recv_resumed_good.
    + by eapply detach_test_good.
    + by eapply detach_round_good.
  - destruct Ha as (Hst & _). by apply expire_good.
  - do 2 eexists. split; [reflexivity|]. split; [|done].
    split; apply Hs.
  - destruct Ha as (Ht & (Hpc & Hr & Hm)). by apply reset_good.
  - destruct Ha as (Ht & (Hpc & Hr & Hm)). cbn [mb_step]. rewrite Hm.
    assert (cls (wst s) t = Other) as Hc by (cbn [wst cls]; by rewrite Hpc).
    do 2 eexists. split; [reflexivity|]. split; [|done].
    destruct s as [[k m] ps]. apply (inv_pc (mk_sys (mk_msys k m) ps)); auto; try apply Hs.
    cbn. auto.
Qed.

(** A step that returns. *)
Lemma step_spec s a l s' :
  inv s -> enabled a s -> mb_step a s = Some (l, s') ->
  inv s' /\ capacity s' = capacity s /\ queue_step (capacity s) (queue s) l (queue s').
Proof.
  intros Hs Ha E. destruct (decide (overtaken a s)) as [Ho|Ho]; [by rewrite mb_overtaken in E|].
  destruct (step_good s a Hs Ha Ho) as (l' & s'' & E' & H). rewrite E in E'. by simplify_eq.
Qed.

(** ** Executions *)

(** The labels of an execution, oldest first. *)
Inductive exec : sys -> list mlabel -> sys -> Prop :=
| exec_refl s : exec s [] s
| exec_step s tr s1 l s2 : exec s tr s1 -> step s1 l s2 -> exec s (tr ++ [l]) s2.

Definition sent (tr : list mlabel) : list Z :=
  omap (fun l => match l with LSent v => Some v | _ => None end) tr.
Definition received (tr : list mlabel) : list Z :=
  omap (fun l => match l with LRecv v => Some v | _ => None end) tr.

Lemma exec_inv s tr s' :
  initial s -> exec s tr s' -> inv s' /\ capacity s' = capacity s.
Proof.
  intros H0 He. induction He as [s|s tr s1 l s2 He IH (a & Ha & Hstep)].
  - split; [by apply initial_inv|done].
  - destruct (IH H0) as [Hs1 Hc1]. destruct (step_spec s1 a l s2 Hs1 Ha Hstep) as (Hi & Hc & _).
    split; [done|congruence].
Qed.


(** In every execution without a reset, the mails received so far are, in
    order, the first of the mails sent, and the rest of them is still in the
    mailbox: no mail is lost, duplicated, invented or reordered, however many
    threads send and receive and whatever times out; and the mailbox never
    holds more mails than its capacity. *)
Theorem mailbox_delivers_in_order s0 tr s :
  initial s0 -> exec s0 tr s -> LReset ∉ tr ->
  sent tr = received tr ++ queue s /\ Z.of_nat (length (queue s)) <= capacity s0.
Proof.
  intros H0 He Hn. split.
  - induction He as [s|s tr s1 l s2 He IH (a & Ha & Hstep)].
    { destruct H0 as ((pool & n & f & _ & Hm & _) & _). unfold queue. by rewrite Hm. }
    destruct (exec_inv _ _ _ H0 He) as [Hs _].
    destruct (step_spec s1 a l s2 Hs Ha Hstep) as (_ & _ & Hq).
    assert (sent tr = received tr ++ queue s1) as Htr.
    { apply IH; [done|]. intros Hin. apply Hn, elem_of_app. by left. }
    unfold sent, received in *. rewrite !omap_app, Htr.
    destruct l as [v|v| |]; cbn [queue_step] in Hq; cbn.
    + destruct Hq as [-> _]. by rewrite app_nil_r, app_assoc.
    + by rewrite Hq, app_nil_r, <- app_assoc.
    + exfalso. apply Hn, elem_of_app. right. by left.
    + by rewrite Hq, !app_nil_r.
  - destruct (exec_inv _ _ _ H0 He) as [Hs <-]. pose proof (inv_ring _ Hs) as Hr.
    unfold queue, capacity. rewrite length_mails by done. apply (ring_entry _ Hr).
Qed.

(** The threads that were woken to receive, or to send, and have not run yet. *)
Definition on_their_way (x : side) (s : sys) : list tid :=
  filter (fun t => cls (wst s) t = Wake x) all.

Lemma count_filter f c (l : list tid) :
  count f c l = Z.of_nat (length (filter (fun t => f t = c) l)).
Proof.
  induction l as [|t l IH]; [done|]. cbn [count]. unfold b2z. rewrite filter_cons.
  case_decide; cbn [length]; lia.
Qed.

(** No wake-up is lost.  In every reachable state in which threads wait
    for mail, at least as many threads have been woken and are ready to fetch
    mail as there are mails; in every reachable state in which threads wait
    for room, at least as many woken senders are ready as there are free
    slots.  So threads never sleep while there is something for them to do and
    nobody is about to do it. *)
Theorem mailbox_no_lost_wakeup s0 tr s :
  initial s0 -> exec s0 tr s ->
  (waitq (ms_krn s.(core)) suspend_thread <> [] ->
     Z.of_nat (length (queue s)) <= Z.of_nat (length (on_their_way Rcv s))) /\
  (waitq (ms_krn s.(core)) suspend_sender_thread <> [] ->
     capacity s0 - Z.of_nat (length (queue s)) <= Z.of_nat (length (on_their_way Snd s))) /\
  (forall x t, t ∈ on_their_way x s -> stat (thr s t) = RT_THREAD_READY).
Proof.
  intros H0 He. destruct (exec_inv _ _ _ H0 He) as [Hs <-].
  pose proof (length_mails _ (inv_ring _ Hs)) as Hl.
  unfold queue, capacity, on_their_way. rewrite Hl, <- !count_filter.
  split_and!.
  - intros Hq. apply (w_wake _ _ (inv_wait _ Hs) Rcv Hq).
  - intros Hq. apply (w_wake _ _ (inv_wait _ Hs) Snd Hq).
  - intros x t Ht. apply list_elem_of_filter in Ht as [Hc _]. cbn [wst cls] in Hc.
    destruct (stat (thr s t)) eqn:E; [done|]. unfold class_of in Hc. rewrite E in Hc.
    by destruct (pcs s t).
Qed.

Lemma send_has_room t v c :
  is_mailbox (mb c) = true -> entry (mb c) < size (mb c) -> rt_mb_send t v c = mb_put v c.
Proof.
  intros Hm Hlt. unfold rt_mb_send, rt_mb_send_wait, mb_send_round, bind, gets.
  rewrite Hm. assert ((entry (mb c) =? size (mb c)) = false) as E by lia.
  cbn [negb]. rewrite E. cbn [andb]. cbv beta. by rewrite E.
Qed.

Lemma recv_has_mail t c :
  is_mailbox (mb c) = true -> 0 < entry (mb c) -> rt_mb_recv t 0 c = mb_get c.
Proof.
  intros Hm Hlt. unfold rt_mb_recv, mb_recv_round, bind, gets.
  rewrite Hm. assert ((entry (mb c) =? 0) = false) as E by lia.
  cbn [negb]. rewrite E. cbn [andb]. cbv beta. by rewrite E.
Qed.

(** The calls the clock makes.  In every reachable state [rt_mb_send]
    returns at once: -RT_EFULL, with nothing changed, exactly when the mailbox is
    full, and RT_EOK with the mail appended otherwise; [rt_mb_recv] without
    waiting returns -RT_ETIMEOUT, with nothing changed, exactly when the mailbox
    is empty, and RT_EOK with the oldest mail otherwise. *)
Theorem mailbox_calls_without_waiting s0 tr s t :
  initial s0 -> exec s0 tr s -> is_mailbox (mb s.(core)) = true ->
  (forall v,
    if decide (Z.of_nat (length (queue s)) = capacity s0)
    then rt_mb_send t v s.(core) = Some (Done (- RT_EFULL) None, s.(core))
    else exists k, rt_mb_send t v s.(core) = Some (Done RT_EOK None, k) /\
           mails (mb k) = queue s ++ [v]) /\
  match queue s with
  | [] => rt_mb_recv t 0 s.(core) = Some (Done (- RT_ETIMEOUT) None, s.(core))
  | v :: q => exists k, rt_mb_recv t 0 s.(core) = Some (Done RT_EOK (Some v), k) /\
                mails (mb k) = q
  end.
Proof.
  intros H0 He Hm. destruct (exec_inv _ _ _ H0 He) as [Hs <-].
  pose proof (inv_ring _ Hs) as Hr. pose proof (length_mails _ Hr) as Hl.
  unfold queue, capacity. rewrite Hl. split.
  - intros v. destruct (decide _) as [E|E].
    + unfold rt_mb_send, rt_mb_send_wait, bind, gets. by rewrite Hm, E, Z.eqb_refl.
    + assert (entry (mb (core s)) < size (mb (core s))) as Hlt by (destruct Hr; lia).
      rewrite send_has_room by done.
      rewrite mb_put_spec by first [done | exact (inv_suspended s Rcv Hs)].
      eexists. split; [done|]. cbn [mb]. by apply stored_mails.
  - destruct (decide (entry (mb (core s)) = 0)) as [E|E].
    + unfold mails. rewrite E. unfold rt_mb_recv, bind, gets. by rewrite Hm, E.
    + assert (0 < entry (mb (core s))) as Hlt by (destruct Hr; lia).
      rewrite fetched_mails, recv_has_mail by done.
      rewrite mb_get_spec by first [done | exact (inv_suspended s Snd Hs)]. by eexists.
Qed.

End threads.

(** C21: waking up early does not extend a wait.  When a call that has blocked
    at tick [start] for [timeout] ticks is woken in time and has to wait again,
    its new deadline is the old one, also when the 32-bit tick has wrapped
    around in between; when its time is up, it does not wait again. *)
Theorem waits_keep_their_deadline timeout start tick_now :
  0 < timeout < 2 ^ 31 -> elapsed start tick_now < 2 ^ 31 ->
  if decide (elapsed start tick_now < timeout)
  then 0 < remaining timeout start tick_now /\
       u32 (tick_now + remaining timeout start tick_now) = u32 (start + timeout)
  else remaining timeout start tick_now = 0.
Proof.
  intros Ht He. rewrite remaining_exact by done. case_decide as E; [|lia].
  split; [lia|]. rewrite Z.max_r by lia. unfold elapsed, u32 in *.
  replace (tick_now + (timeout - (tick_now - start) mod 2 ^ 32))
    with (tick_now + timeout - (tick_now - start) mod 2 ^ 32) by lia.
  rewrite Zminus_mod_idemp_r. f_equal. lia.
Qed.

(** On an object with priority order, a thread that suspends itself comes
    after every waiting thread of the same or a higher priority and before
    every one of a lower priority; the order of the others does not change,
    and the list stays sorted. *)
Theorem priority_wait_order prio t l :
  prio_sorted prio l ->
  exists front back, l = front ++ back /\
    ipc_insert RT_IPC_FLAG_PRIO prio t l = front ++ t :: back /\
    (forall u, u ∈ front -> prio u <= prio t) /\ (forall u, u ∈ back -> prio t < prio u) /\
    prio_sorted prio (ipc_insert RT_IPC_FLAG_PRIO prio t l).
Proof.
  intros Hl. destruct (insert_prio_split prio t l Hl) as (f & b & ? & ? & ? & ?).
  exists f, b. split_and!; try done. by apply insert_prio_sorted.
Qed.

(** ** A concrete run *)

(** Three ready threads and a mailbox of two slots, initialised by
    [rt_mb_init] as the clock does. *)
Definition demo_core : msys :=
  let k := mk_kernel 0 (fun _ => mk_thread 20 0 RT_THREAD_READY None) (fun _ => []) in
  match rt_mb_init [0; 0] 2 RT_IPC_FLAG_FIFO (mk_msys k (mk_mb false 0 [] 0 0 0 0)) with
  | Some (_, c) => c
  | None => mk_msys k (mk_mb false 0 [] 0 0 0 0)
  end.
Definition demo0 : sys := mk_sys demo_core (fun _ => Idle).
Definition demo_threads : list tid := [0; 1; 2]%nat.

Definition take_step (a : action) (s : sys) : sys :=
  match mb_step a s with Some (_, s') => s' | None => s end.

(** Thread 0 blocks, thread 1 sends and wakes it, thread 0 receives, thread 1
    sends again. *)
Definition demo1 : sys := take_step (ARecv 0 RT_WAITING_FOREVER) demo0.
Definition demo2 : sys := take_step (ASend 1 42 0) demo1.
Definition demo3 : sys := take_step (ARun 0) demo2.
Definition demo4 : sys := take_step (ASend 1 43 0) demo3.

Lemma demo_threads_nodup : NoDup demo_threads.
Proof. apply (bool_decide_unpack _). vm_compute. exact I. Qed.

Lemma demo_initial : initial demo0.
Proof.
  split_and!.
  - exists [0; 0], 2, RT_IPC_FLAG_FIFO. split_and!; [|reflexivity|by left].
    split; cbn; try lia. intros _. split; [lia|done].
  - by intros [].
  - done.
Qed.

Lemma demo_exec : exec demo_threads demo0 [LTau; LSent 42; LRecv 42; LSent 43] demo4.
Proof.
  apply (exec_step _ _ [LTau; LSent 42; LRecv 42] demo3).
  apply (exec_step _ _ [LTau; LSent 42] demo2). apply (exec_step _ _ [LTau] demo1).
  apply (exec_step _ _ [] demo0). constructor.
  - exists (ARecv 0 RT_WAITING_FOREVER). split; [|reflexivity].
    repeat split; try done; set_solver.
  - exists (ASend 1 42 0). split; [|reflexivity]. repeat split; try done; set_solver.
  - exists (ARun 0). split; [|reflexivity]. repeat split; done.
  - exists (ASend 1 43 0). split; [|reflexivity]. repeat split; try done; set_solver.
Qed.


Lemma mailbox_delivers_in_order_witness :
  [42; 43] = [42] ++ queue demo4 /\ Z.of_nat (length (queue demo4)) <= capacity demo0.
Proof.
  apply (mailbox_delivers_in_order demo_threads demo_threads_nodup demo0 _ demo4
           demo_initial demo_exec).
  set_solver.
Defined.

Lemma mailbox_no_lost_wakeup_witness :
  (waitq (ms_krn demo2.(core)) suspend_thread <> [] ->
     Z.of_nat (length (queue demo2)) <=
     Z.of_nat (length (on_their_way demo_threads Rcv demo2))) /\
  (waitq (ms_krn demo2.(core)) suspend_sender_thread <> [] ->
     capacity demo0 - Z.of_nat (length (queue demo2)) <=
     Z.of_nat (length (on_their_way demo_threads Snd demo2))) /\
  (forall x t, t ∈ on_their_way demo_threads x demo2 -> stat (thr demo2 t) = RT_THREAD_READY).
Proof.
  apply (mailbox_no_lost_wakeup demo_threads demo_threads_nodup demo0 [LTau; LSent 42] demo2
           demo_initial).
  pose proof demo_exec as He.
  apply (exec_step _ _ [LTau] demo1). apply (exec_step _ _ [] demo0). constructor.
  - exists (ARecv 0 RT_WAITING_FOREVER). split; [|reflexivity].
    repeat split; try done; set_solver.
  - exists (ASend 1 42 0). split; [|reflexivity]. repeat split; try done; set_solver.
Defined.

Lemma mailbox_calls_without_waiting_witness :
  (forall v,
    if decide (Z.of_nat (length (queue demo4)) = capacity demo0)
    then rt_mb_send 2 v demo4.(core) = Some (Done (- RT_EFULL) None, demo4.(core))
    else exists k, rt_mb_send 2 v demo4.(core) = Some (Done RT_EOK None, k) /\
           mails (mb k) = queue demo4 ++ [v]) /\
  match queue demo4 with
  | [] => rt_mb_recv 2 0 demo4.(core) = Some (Done (- RT_ETIMEOUT) None, demo4.(core))
  | v :: q => exists k, rt_mb_recv 2 0 demo4.(core) = Some (Done RT_EOK (Some v), k) /\
                mails (mb k) = q
  end.
Proof.
  apply (mailbox_calls_without_waiting demo_threads demo_threads_nodup demo0 _ demo4 2
           demo_initial demo_exec).
  reflexivity.
Defined.

Lemma waits_keep_their_deadline_witness :
  0 < remaining 100 (2 ^ 32 - 10) 20 /\
  u32 (20 + remaining 100 (2 ^ 32 - 10) 20) = u32 (2 ^ 32 - 10 + 100).
Proof. apply (waits_keep_their_deadline 100 (2 ^ 32 - 10) 20); [lia|vm_compute; done]. Defined.

Lemma priority_wait_order_witness :
  let prio t := match t with 0 => 10 | 1 => 20 | _ => 30 end%nat in
  exists front back, [0; 1; 2]%nat = front ++ back /\
    ipc_insert RT_IPC_FLAG_PRIO (fun t => Z.of_nat (prio t)) 3%nat [0; 1; 2]%nat =
      front ++ 3%nat :: back /\
    (forall u, u ∈ front -> Z.of_nat (prio u) <= Z.of_nat (prio 3%nat)) /\
    (forall u, u ∈ back -> Z.of_nat (prio 3%nat) < Z.of_nat (prio u)) /\
    prio_sorted (fun t => Z.of_nat (prio t))
      (ipc_insert RT_IPC_FLAG_PRIO (fun t => Z.of_nat (prio t)) 3%nat [0; 1; 2]%nat).
Proof.
  intros prio. apply (priority_wait_order (fun t => Z.of_nat (prio t)) 3 [0; 1; 2]%nat).
  cbn. split_and!; try done; intros u Hu; repeat (apply elem_of_cons in Hu as [->|Hu]; [cbn; lia|]);
    by apply elem_of_nil in Hu.
Defined.

(** ** A race in [rt_mb_detach] *)

(** Thread 0 waits for five ticks, thread 1 starts to detach the mailbox and
    tests the list of receivers; the timer of thread 0 expires. *)
Definition race1 : sys := take_step (ARecv 0 5) demo0.
Definition race2 : sys := Nat.iter 5 (take_step ATick) race1.
Definition race3 : sys := take_step (ADetach 1) race2.
Definition race4 : sys := take_step (ARun 1) race3.
Definition race5 : sys := take_step (ATimeout 0) race4.

Lemma ticks_exec n s0 tr s :
  exec demo_threads s0 tr s ->
  exec demo_threads s0 (tr ++ repeat LTau n) (Nat.iter n (take_step ATick) s).
Proof.
  revert tr. induction n as [|n IH]; intros tr He; [by rewrite app_nil_r|].
  change (repeat LTau (S n)) with (LTau :: repeat LTau n).
  rewrite repeat_cons, app_assoc. eapply exec_step; [by apply IH|]. by exists ATick.
Qed.

(** The thread that detaches the mailbox is then about to take the first node
    of an empty list for a thread: the loop of [rt_ipc_list_resume_all] tests
    the list before it disables interrupts. *)
Theorem detach_overtaken_by_timeout :
  exists tr, exec demo_threads demo0 tr race5 /\
    pcs race5 1%nat = Resuming suspend_thread /\ stat (thr race5 1) = RT_THREAD_READY /\
    waitq (ms_krn race5.(core)) suspend_thread = [] /\ mb_step (ARun 1) race5 = None.
Proof.
  eexists. split; [|done].
  eapply (exec_step _ _ _ race4); [eapply (exec_step _ _ _ race3);
    [eapply (exec_step _ _ _ race2); [apply (ticks_exec 5 demo0 ([] ++ [LTau]))|]|]|].
  - apply (exec_step _ _ [] demo0); [constructor|]. exists (ARecv 0 5).
    split; [|reflexivity]. repeat split; try done; set_solver.
  - exists (ADetach 1). split; [|reflexivity]. repeat split; try done; set_solver.
  - exists (ARun 1). split; [|reflexivity]. repeat split; done.
  - exists (ATimeout 0). split; [|reflexivity]. split; [done|]. by exists 5.
Qed.
