(* ===== verification/Semaphore.v ===== *)
(** * Semaphores

    The semaphore of src/rt-thread/src/ipc.c: a counter and a list of waiting
    threads.  A release with a waiting thread hands its unit to that thread and
    leaves the counter alone.  [rt_sem_take] is cut where it calls
    [rt_schedule]. *)

From Stdlib Require Import ZArith Lia.
From stdpp Require Import prelude functions list.
From S2P Require Import Prelude Kernel.
Open Scope Z_scope.
Open Scope c_scope.

Module Sem.

Definition RT_SEM_VALUE_MAX : Z := 0xffff.
Definition RT_IPC_CMD_RESET : Z := 0x01.

(** [sem->parent.suspend_thread] *)
Definition suspend_thread : qid := 0%nat.

(** [is_sem] is [rt_object_get_type(...) == RT_Object_Class_Semaphore]. *)
Record rt_semaphore := mk_sem {
  is_sem : bool;
  flag : Z;
  value : Z
}.

Record ssys := mk_ssys {
  ss_krn : kernel;
  sem : rt_semaphore
}.

#[export] Instance ssys_kernel : HasKernel ssys := {|
  krn := ss_krn;
  put_krn k s := mk_ssys k s.(sem)
|}.

Definition set_value (v : Z) : M ssys unit :=
  modify (fun s => mk_ssys s.(ss_krn) (mk_sem s.(sem).(is_sem) s.(sem).(flag) v)).

Definition check_type : M ssys unit :=
  x <- gets sem ;; if x.(is_sem) then ret tt else undefined.

Inductive outcome := Done (code : Z) | Blocked.

Definition rt_sem_init (value_ flag_ : Z) : M ssys Z :=
  if value_ <? 0x10000 then
    modify (fun s => mk_ssys (mk_kernel s.(ss_krn).(rt_tick) s.(ss_krn).(tcb)
                                (<[suspend_thread := []]> s.(ss_krn).(waitq)))
                       (mk_sem true flag_ (u16 value_))) ;;;
    ret RT_EOK
  else undefined.

(** [rt_object_detach], after the waiting threads have been resumed
    ([resume_all_test] and [resume_all_round] on [suspend_thread]). *)
Definition sem_object_detach : M ssys unit :=
  modify (fun s => mk_ssys s.(ss_krn) (mk_sem false s.(sem).(flag) s.(sem).(value))).

Definition rt_sem_take (t : tid) (time : Z) : M ssys outcome :=
  check_type ;;;
  x <- gets sem ;;
  if 0 <? x.(value) then
    set_value (x.(value) - 1) ;;;
    ret (Done RT_EOK)
  else if time =? 0 then ret (Done (- RT_ETIMEOUT))
  else
    set_error t RT_EOK ;;;
    rt_ipc_list_suspend suspend_thread t x.(flag) ;;;
    (if 0 <? time then start_timer t time else ret tt) ;;;
    ret Blocked.

(** [rt_sem_take] after its call of [rt_schedule]. *)
Definition sem_take_resumed (t : tid) : M ssys Z :=
  th <- thread_of t ;;
  if negb (error th =? RT_EOK) then ret (error th) else ret RT_EOK.

Definition rt_sem_trytake (t : tid) : M ssys outcome := rt_sem_take t 0.

Definition rt_sem_release : M ssys Z :=
  check_type ;;;
  l <- gets (fun s => waitq (krn s) suspend_thread) ;;
  match l with
  | _ :: _ => rt_ipc_list_resume suspend_thread ;;; ret RT_EOK
  | [] =>
      x <- gets sem ;;
      if x.(value) <? RT_SEM_VALUE_MAX then set_value (x.(value) + 1) ;;; ret RT_EOK
      else ret (- RT_EFULL)
  end.

Definition rt_sem_control (cmd arg : Z) : M ssys Z :=
  check_type ;;;
  if cmd =? RT_IPC_CMD_RESET then
    rt_ipc_list_resume_all suspend_thread ;;;
    set_value (u16 arg) ;;;
    ret RT_EOK
  else ret (- RT_ERROR).

End Sem.
