(* ===== verification/SemaphoreSystem.v ===== *)
(** * Threads sharing a semaphore

    Any number of threads take and release one semaphore, time out, reset and
    detach it, in any order and under any schedule (Semaphore.v).  Every unit
    that is released is either counted or on its way to one thread. *)

From Stdlib Require Import ZArith Lia.
From stdpp Require Import prelude functions list.
From S2P Require Import Prelude Kernel KernelSpec Semaphore.
Import Sem.
Open Scope Z_scope.
Open Scope c_scope.

Module SemSystem.

#[export] Instance ssys_laws : KernelLaws ssys.
Proof. split; [done|done|by intros []]. Qed.

(** ** Steps *)

(** [bl]: the threads in the middle of [rt_sem_take]; [detaching]: the threads in
    the middle of [rt_sem_detach], with the result of the last test.  For the
    account: [handed], the threads that a unit has been handed to and that have
    not returned yet; [credit], the units released, and there initially or since
    the last reset, less the ones whose takers have returned. *)
Record sys := mk_sys {
  core : ssys;
  bl : tid -> option qid;
  detaching : tid -> option bool;
  handed : list tid;
  credit : Z
}.

Inductive action :=
| ATake (t : tid) (time : Z)
| ARelease
| ARun (t : tid)
| ATimeout (t : tid)
| AReset (arg : Z)
| ADetach (t : tid)
| ATest (t : tid)
| ARound (t : tid)
| ATick.

Definition first_waiting (s : sys) : list tid := take 1 (waitq (ss_krn s.(core)) suspend_thread).

Definition sem_step (a : action) (s : sys) : option sys :=
  match a with
  | ATake t time =>
      match rt_sem_take t time s.(core) with
      | Some (Done c, k) =>
          Some (mk_sys k s.(bl) s.(detaching) s.(handed) (if c =? RT_EOK then s.(credit) - 1 else s.(credit)))
      | Some (Blocked, k) =>
          Some (mk_sys k (<[t := Some suspend_thread]> s.(bl)) s.(detaching) s.(handed) s.(credit))
      | None => None
      end
  | ARelease =>
      match rt_sem_release s.(core) with
      | Some (c, k) =>
          Some (mk_sys k s.(bl) s.(detaching) (first_waiting s ++ s.(handed))
                  (if c =? RT_EOK then s.(credit) + 1 else s.(credit)))
      | None => None
      end
  | ARun t =>
      match sem_take_resumed t s.(core) with
      | Some (c, k) =>
          Some (mk_sys k (<[t := None]> s.(bl)) s.(detaching) (filter (fun u => u <> t) s.(handed))
                  (if c =? RT_EOK then s.(credit) - 1 else s.(credit)))
      | None => None
      end
  | ATimeout t =>
      match expire_thread t s.(core) with
      | Some (_, k) => Some (mk_sys k s.(bl) s.(detaching) s.(handed) s.(credit))
      | None => None
      end
  | AReset arg =>
      match rt_sem_control RT_IPC_CMD_RESET arg s.(core) with
      | Some (_, k) => Some (mk_sys k s.(bl) s.(detaching) s.(handed) (u16 arg + Z.of_nat (length s.(handed))))
      | None => None
      end
  | ADetach t => Some (mk_sys s.(core) s.(bl) (<[t := Some true]> s.(detaching)) s.(handed) s.(credit))
  | ATest t =>
      match resume_all_test suspend_thread s.(core) with
      | Some (false, k) => Some (mk_sys k s.(bl) (<[t := Some false]> s.(detaching)) s.(handed) s.(credit))
      | Some (true, k) =>
          match sem_object_detach k with
          | Some (_, k) => Some (mk_sys k s.(bl) (<[t := None]> s.(detaching)) s.(handed) s.(credit))
          | None => None
          end
      | None => None
      end
  | ARound t =>
      match resume_all_round suspend_thread s.(core) with
      | Some (_, k) => Some (mk_sys k s.(bl) (<[t := Some true]> s.(detaching)) s.(handed) s.(credit))
      | None => None
      end
  | ATick =>
      let k := ss_krn s.(core) in
      Some (mk_sys (mk_ssys (mk_kernel (u32 (k.(rt_tick) + 1)) k.(tcb) k.(waitq)) (sem s.(core)))
              s.(bl) s.(detaching) s.(handed) s.(credit))
  end.

Definition thr (s : sys) (t : tid) : rt_thread := tcb (ss_krn s.(core)) t.

(** Calls are made on a semaphore that exists, by threads that are not in the middle
    of another call; timeouts are what the timer accepts. *)
Definition enabled (a : action) (s : sys) : Prop :=
  match a with
  | ATake t time => s.(bl) t = None /\ s.(detaching) t = None /\ is_sem (sem s.(core)) = true /\ - 2 ^ 31 <= time < 2 ^ 31 - 1
  | ARelease => is_sem (sem s.(core)) = true
  | AReset arg => is_sem (sem s.(core)) = true
  | ARun t => s.(bl) t <> None /\ stat (thr s t) = RT_THREAD_READY
  | ATimeout t => stat (thr s t) = RT_THREAD_SUSPEND /\ thread_timer (thr s t) <> None
  | ADetach t => s.(bl) t = None /\ s.(detaching) t = None /\ is_sem (sem s.(core)) = true
  | ATest t => s.(detaching) t = Some true
  | ARound t => s.(detaching) t = Some false
  | ATick => True
  end.

(** The body of the loop of a detach finds the list empty that its test has found
    not empty: in between the last waiting thread has timed out, or was resumed by
    someone else. *)
Definition overtaken (a : action) (s : sys) : Prop :=
  match a with ARound _ => waitq (ss_krn s.(core)) suspend_thread = [] | _ => False end.

#[export] Instance overtaken_dec a s : Decision (overtaken a s).
Proof. destruct a; apply _. Defined.

(** After [rt_sem_init], with every thread ready. *)
Definition initial (v : Z) (s : sys) : Prop :=
  0 <= v < 65536 /\ (exists f, ipc_flag f /\ sem s.(core) = mk_sem true f v) /\
  (forall q, waitq (ss_krn s.(core)) q = []) /\ (forall t, stat (thr s t) = RT_THREAD_READY) /\
  (forall t, s.(bl) t = None /\ s.(detaching) t = None) /\ s.(handed) = [] /\ s.(credit) = v.

Inductive reach (v : Z) : sys -> Prop :=
| reach_start s : initial v s -> reach v s
| reach_step s a s' : reach v s -> enabled a s -> sem_step a s = Some s' -> reach v s'.

(** ** The invariant *)

(** A unit is on its way to [t]. *)
Definition has_unit (s : sys) (t : tid) : Prop :=
  s.(bl) t <> None /\ stat (thr s t) = RT_THREAD_READY /\ error (thr s t) = RT_EOK.

Record inv (s : sys) : Prop := {
  inv_waits : waits_ok (ss_krn s.(core)) s.(bl);
  inv_flag : ipc_flag (flag (sem s.(core)));
  inv_value : 0 <= value (sem s.(core)) < 65536;
  inv_empty : waitq (ss_krn s.(core)) suspend_thread <> [] -> value (sem s.(core)) = 0;
  inv_list t : s.(bl) t = None \/ s.(bl) t = Some suspend_thread;
  inv_handed t : t ∈ s.(handed) <-> has_unit s t;
  inv_nodup : NoDup s.(handed);
  inv_credit : s.(credit) = value (sem s.(core)) + Z.of_nat (length s.(handed))
}.

Lemma sem_initial_inv v s : initial v s -> inv s.
Proof.
  intros (Hv & (f & Hf & Es) & Hq & Ht & Hb & Hh & Hc). split; rewrite ?Es, ?Hh, ?Hc; cbn [value flag length]; try done.
  - split.
    + intros t q. rewrite Hq. destruct (Hb t) as [-> _]. split; [by intros ?%not_elem_of_nil|by intros [? _]].
    + intros q. rewrite Hq. constructor.
    + intros t _. apply Ht.
    + intros t E. pose proof (Ht t) as E'. unfold thr in E'. congruence.
  - by rewrite Hq.
  - intros t. left. apply Hb.
  - intros t. split; [by intros ?%not_elem_of_nil|]. intros [E _]. by destruct (Hb t).
  - constructor.
  - lia.
Qed.

(** ** Preservation *)

(** What a step has to show. *)
Definition good (s : sys) (r : option sys) : Prop := exists s', r = Some s' /\ inv s'.

Lemma filter_head (l : list tid) : take 1 l = match l with [] => [] | h :: _ => [h] end.
Proof. by destruct l. Qed.

Lemma sem_check_type_ok c : is_sem (sem c) = true -> check_type c = Some (tt, c).
Proof. intros E. unfold check_type. cbv [bind gets]. by rewrite E. Qed.

Lemma sem_take_good s t time : inv s -> enabled (ATake t time) s -> good s (sem_step (ATake t time) s).
Proof.
  intros Hs (Hb & _ & Hty & Ht). destruct Hs as [Hw Hf Hv He Hl Hh Hn Hc].
  cbn [sem_step]. unfold rt_sem_take. rewrite (bind_eq _ _ _ _ _ (sem_check_type_ok _ Hty)).
  unfold bind at 1, gets at 1.
  destruct (Z.ltb_spec 0 (value (sem (core s)))) as [H0|H0].
  - cbn. eexists. split; [reflexivity|]. split; cbn; try done; [lia| |lia].
    intros Hq. apply He in Hq. lia.
  - destruct (Z.eqb_spec time 0) as [->|Hne].
    + cbn. eexists. split; [reflexivity|]. by split.
    + pose proof (wait_idle _ _ Hw t Hb) as Hr. unfold set_error, bind. rewrite on_krn_eq.
      set (k1 := alter_thread (with_error RT_EOK) t (krn (core s))).
      assert (waits_ok k1 (bl s)) as Hw1 by (apply waits_alter; [done|done|cbn; congruence]).
      assert (tcb k1 t = with_error RT_EOK (thr s t)) as Et by (unfold k1; by rewrite tcb_alter, decide_True).
      assert (forall u, u <> t -> tcb k1 u = thr s u) as Eu by (intros u Hu; unfold k1; by rewrite tcb_alter, decide_False).
      rewrite suspend_spec by (change (stat (tcb k1 t) = RT_THREAD_READY); by rewrite Et). cbn [krn put_krn ssys_kernel ss_krn sem].
      set (k2 := waiting suspend_thread t (flag (sem (core s))) time k1).
      assert ((if 0 <? time then start_timer t time else ret tt)
                (mk_ssys (suspended suspend_thread t (flag (sem (core s))) k1) (sem (core s)))
              = Some (tt, mk_ssys k2 (sem (core s)))) as E2.
      { unfold k2, waiting. destruct (Z.ltb_spec 0 time); [|done]. rewrite start_timer_spec by lia. done. }
      rewrite E2. eexists. split; [reflexivity|].
      split; cbn [core bl handed credit ss_krn sem]; try done.
      * apply waits_block; [done|by rewrite Et|by rewrite Et|done].
      * intros _. lia.
      * intros u. destruct (decide (u = t)) as [->|Hu]; [rewrite fn_lookup_insert; by right|].
        rewrite fn_lookup_insert_ne by done. apply Hl.
      * intros u. rewrite Hh. unfold has_unit, thr. cbn [core bl ss_krn].
        destruct (decide (u = t)) as [->|Hu].
        -- rewrite fn_lookup_insert. unfold k2. rewrite tcb_waiting_self. cbn [with_timer with_stat stat].
           split; [intros (E & _); congruence|intros (_ & E & _); congruence].
        -- rewrite fn_lookup_insert_ne by done. unfold k2. rewrite tcb_waiting_ne, Eu by done. done.
Qed.

Lemma sem_release_good s : inv s -> enabled ARelease s -> good s (sem_step ARelease s).
Proof.
  intros Hs Hty. destruct Hs as [Hw Hf Hv He Hl Hh Hn Hc]. cbn [enabled] in Hty.
  cbn [sem_step]. unfold rt_sem_release, first_waiting. rewrite (bind_eq _ _ _ _ _ (sem_check_type_ok _ Hty)).
  unfold bind at 1, gets at 1.
  change (waitq (krn (core s)) suspend_thread) with (waitq (ss_krn (core s)) suspend_thread).
  destruct (waitq (ss_krn (core s)) suspend_thread) as [|h r] eqn:Eq; unfold bind.
  - unfold gets. destruct (Z.ltb_spec (value (sem (core s))) RT_SEM_VALUE_MAX) as [Hlt|Hge]; unfold RT_SEM_VALUE_MAX in *.
    + eexists. split; [reflexivity|].
      split; cbn [core bl handed credit ss_krn sem value flag take app]; try done; [lia|].
      change (RT_EOK =? RT_EOK) with true. cbv iota. lia.
    + eexists. split; [reflexivity|]. split; cbn [core bl handed credit ss_krn sem value flag take app]; done.
  - rewrite (list_resume_spec _ h r) by (done || apply (waits_suspended _ _ Hw)). change (take 1 (h :: r) ++ handed s) with (h :: handed s).
    assert (stat (tcb (ss_krn (core s)) h) = RT_THREAD_SUSPEND) as Hst.
    { apply (waits_suspended _ _ Hw suspend_thread). rewrite Eq. left. }
    assert (woken suspend_thread (krn (core s)) = resumed h (ss_krn (core s))) as Ewk.
    { unfold woken. change (waitq (krn (core s)) suspend_thread) with (waitq (ss_krn (core s)) suspend_thread). by rewrite Eq. }
    assert (bl s h = Some suspend_thread) as Hbh by (apply (wait_in _ _ Hw); rewrite Eq; left).
    eexists. split; [reflexivity|]. split; cbn [core bl handed credit put_krn ssys_kernel ss_krn sem]; rewrite ?Ewk; try done.
    + by apply waits_resumed.
    + intros _. by apply He.
    + intros u. rewrite elem_of_cons, Hh. unfold has_unit, thr. cbn [core bl ss_krn put_krn ssys_kernel]. rewrite ?Ewk.
      unfold resumed. rewrite tcb_alter. case_decide as E.
      * subst. cbn [with_stat with_timer stat error unlink tcb]. split; [|by left]. intros _.
        split; [congruence|]. split; [done|]. by apply (wait_error _ _ Hw).
      * cbn [unlink tcb]. split; [intros [->|?]; done|by right].
    + constructor; [|done]. intros Hin. apply Hh in Hin as (_ & Hr & _). unfold thr in Hr. congruence.
    + change (RT_EOK =? RT_EOK) with true. cbv iota. cbn [length]. specialize (He ltac:(done)). lia.
Qed.

Lemma sem_run_good s t : inv s -> enabled (ARun t) s -> good s (sem_step (ARun t) s).
Proof.
  intros Hs [Hb Hr]. destruct Hs as [Hw Hf Hv He Hl Hh Hn Hc]. cbn [sem_step].
  unfold sem_take_resumed, thread_of. cbv [bind gets]. change (tcb (krn (core s)) t) with (thr s t).
  assert (forall h' c', c' = value (sem (core s)) + Z.of_nat (length h') -> NoDup h' ->
    (forall u, u ∈ h' <-> u <> t /\ has_unit s u) ->
    inv (mk_sys (core s) (<[t := None]> (bl s)) (detaching s) h' c')) as Hinv.
  { intros h' c' Ec Hn' Hh'. split; cbn [core bl handed credit]; try done.
    - by apply waits_return.
    - intros u. destruct (decide (u = t)) as [->|Hu]; [rewrite fn_lookup_insert; by left|].
      rewrite fn_lookup_insert_ne by done. apply Hl.
    - intros u. rewrite Hh'. unfold has_unit, thr. cbn [core bl]. destruct (decide (u = t)) as [->|Hu].
      + rewrite fn_lookup_insert. split; [by intros [? _]|by intros [? _]].
      + rewrite fn_lookup_insert_ne by done. tauto. }
  assert (forall u, u ∈ filter (fun u => u <> t) (handed s) <-> u <> t /\ has_unit s u) as Hfil.
  { intros u. by rewrite list_elem_of_filter, Hh. }
  destruct (Z.eqb_spec (error (thr s t)) RT_EOK) as [E|E]; cbn [negb].
  - assert (t ∈ handed s) as Hin by (by apply Hh).
    eexists. split; [reflexivity|]. change (RT_EOK =? RT_EOK) with true. cbv iota. apply Hinv; [|by apply NoDup_filter|done].
    apply list_elem_of_split in Hin as (l1 & l2 & E12). rewrite E12 in *.
    apply NoDup_app in Hn as (Hn1 & Hx & Hn2). apply NoDup_cons in Hn2 as [Hn2 Hn3].
    rewrite filter_app, filter_cons_False, !filter_out by (try done; set_solver).
    rewrite Hc, !length_app. cbn [length]. lia.
  - eexists. split; [reflexivity|]. rewrite (proj2 (Z.eqb_neq _ _) E).
    assert (t ∉ handed s) as Hni by (intros (_ & _ & ?)%Hh; done).
    apply Hinv; [by rewrite filter_out|by apply NoDup_filter|done].
Qed.

(** Waiting threads are resumed with an error. *)
Lemma sem_inv_cancel s k' v d' c' :
  inv s -> waits_ok k' (bl s) -> 0 <= v < 65536 ->
  (waitq k' suspend_thread <> [] -> v = 0) -> c' = v + Z.of_nat (length (handed s)) ->
  (forall u, tcb k' u = thr s u \/ stat (thr s u) = RT_THREAD_SUSPEND /\ (error (tcb k' u) <> RT_EOK)) ->
  inv (mk_sys (mk_ssys k' (mk_sem (is_sem (sem (core s))) (flag (sem (core s))) v)) (bl s) d' (handed s) c').
Proof.
  intros [Hw Hf Hv He Hl Hh Hn Hc] Hw' Hv' He' Hc' Hu.
  split; cbn [core bl handed credit ss_krn sem value flag]; try done.
  intros u. rewrite Hh. unfold has_unit, thr. cbn [core bl ss_krn]. destruct (Hu u) as [->|[Es Ee]]; [done|].
  unfold thr in Es. split; [intros (_ & ? & _); congruence|intros (_ & _ & ?); congruence].
Qed.

Lemma sem_overtaken s a : overtaken a s -> sem_step a s = None.
Proof.
  destruct a; try done. cbn [overtaken sem_step]. unfold resume_all_round. intros E. cbv [bind gets].
  change (krn (core s)) with (ss_krn (core s)). by rewrite E.
Qed.

Lemma sem_good s a : inv s -> enabled a s -> ~ overtaken a s -> good s (sem_step a s).
Proof.
  intros Hs Ha Hov. pose proof Hs as [Hw Hf Hv He Hl Hh Hn Hc]. destruct a as [t time| |t|t|arg|t|t|t|].
  - by apply sem_take_good.
  - by apply sem_release_good.
  - by apply sem_run_good.
  - destruct Ha as [Hst _]. cbn [sem_step]. rewrite expire_thread_spec by done. eexists. split; [reflexivity|].
    cbn [put_krn ssys_kernel krn]. destruct (sem (core s)) as [y f v] eqn:Ey. cbn [flag value] in *.
    replace (mk_sem y f v) with (mk_sem (is_sem (sem (core s))) (flag (sem (core s))) v) by (by rewrite Ey).
    apply sem_inv_cancel; try done.
    + by apply waits_timed_out.
    + intros Hq. apply He. intros E. apply Hq. cbn [timed_out alter_thread unlink waitq]. by rewrite E.
    + intros u. destruct (decide (u = t)) as [->|Hu]; rewrite tcb_timed_out; [|rewrite decide_False by done; by left].
      rewrite decide_True by done. right. by split.
  - cbn [enabled] in Ha. cbn [sem_step]. unfold rt_sem_control. rewrite (bind_eq _ _ _ _ _ (sem_check_type_ok _ Ha)).
    change (RT_IPC_CMD_RESET =? RT_IPC_CMD_RESET) with true. cbv iota. unfold bind.
    destruct (@resume_all_spec ssys ssys_kernel ssys_laws suspend_thread (bl s) (core s) Hw) as (k' & -> & Hw' & Hq' & _ & _ & Hu).
    cbn. eexists. split; [reflexivity|]. pose proof (u16_range arg). apply sem_inv_cancel; try done.
    intros u. rewrite Hu. case_decide as Hin; [|by left]. right. split; [|done]. by apply (waits_suspended _ _ Hw suspend_thread).
  - eexists. split; [reflexivity|]. by split.
  - cbn [sem_step]. unfold resume_all_test, sem_object_detach. cbv [bind gets ret modify].
    change (waitq (krn (core s)) suspend_thread) with (waitq (ss_krn (core s)) suspend_thread).
    destruct (waitq _ _) eqn:Eq; (eexists; split; [reflexivity|]; split; cbn; try done; by rewrite Eq).
  - cbn [overtaken] in Hov. cbn [sem_step]. unfold resume_all_round. cbv [bind gets].
    change (waitq (krn (core s)) suspend_thread) with (waitq (ss_krn (core s)) suspend_thread).
    destruct (waitq (ss_krn (core s)) suspend_thread) as [|h r] eqn:Eq; [done|].
    assert (stat (tcb (ss_krn (core s)) h) = RT_THREAD_SUSPEND) as Hst.
    { apply (waits_suspended _ _ Hw suspend_thread). rewrite Eq. left. }
    rewrite resume_with_error_spec by done. eexists. split; [reflexivity|]. cbn [put_krn ssys_kernel krn].
    destruct (sem (core s)) as [y f v] eqn:Ey. cbn [flag value] in *.
    replace (mk_sem y f v) with (mk_sem (is_sem (sem (core s))) (flag (sem (core s))) v) by (by rewrite Ey).
    apply sem_inv_cancel; try done.
    + by apply waits_cancelled.
    + intros _. by apply He.
    + intros u. rewrite tcb_cancelled. case_decide; [subst; right; by split|by left].
  - eexists. split; [reflexivity|]. split; cbn; try done. by split; apply Hw.
Qed.

Lemma sem_reach_inv v s : reach v s -> inv s.
Proof.
  induction 1 as [s Hi|s a s' _ IH Ha E]; [by eapply sem_initial_inv|].
  destruct (decide (overtaken a s)) as [Ho|Ho]; [by rewrite sem_overtaken in E|].
  destruct (sem_good s a IH Ha Ho) as (s'' & E' & Hi). congruence.
Qed.


(** Thread 1 waits for a semaphore of value 0, thread 0 releases it. *)
Definition demo_start : sys :=
  mk_sys (mk_ssys (mk_kernel 0 (fun _ => mk_thread 10 0 RT_THREAD_READY None) (fun _ => [])) (mk_sem true 0 0))
    (fun _ => None) (fun _ => None) [] 0.

Definition run_all (l : list action) (s : sys) : option sys :=
  foldl (fun r a => match r with Some s => sem_step a s | None => None end) (Some s) l.


End SemSystem.
