(* ===== verification/Mutex.v ===== *)
(** * Mutexes

    The mutex of src/rt-thread/src/ipc.c: an owner that may take it again, a
    list of waiting threads, and priority inheritance: a thread that has to wait
    raises the owner to its own priority, and the owner gets its priority back
    when it releases the mutex, which is handed over to the first waiting thread.
    [rt_mutex_take] is cut where it calls [rt_schedule].  There may be several
    mutexes; a mutex is named by a number, which is also its list of waiting
    threads. *)

From Stdlib Require Import ZArith Lia.
From stdpp Require Import prelude functions list.
From S2P Require Import Prelude Kernel.
Open Scope Z_scope.
Open Scope c_scope.

Module Mutex.

Definition RT_MUTEX_VALUE_MAX : Z := 0xffff.
Definition RT_MUTEX_HOLD_MAX : Z := 0xff.

Abbreviation mid := nat.

(** [is_mutex] is [rt_object_get_type(...) == RT_Object_Class_Mutex]. *)
Record rt_mutex := mk_mutex {
  is_mutex : bool;
  flag : Z;
  value : Z;
  original_priority : Z;
  hold : Z;
  owner : option tid
}.

Record xsys := mk_xsys {
  x_krn : kernel;
  mtx : mid -> rt_mutex
}.

#[export] Instance xsys_kernel : HasKernel xsys := {|
  krn := x_krn;
  put_krn k s := mk_xsys k s.(mtx)
|}.

Abbreviation X := (M xsys).

Definition put_mutex (m : mid) (x : rt_mutex) (s : xsys) : xsys := mk_xsys s.(x_krn) (<[m := x]> s.(mtx)).
Definition get_mutex (m : mid) : X rt_mutex := gets (fun s => s.(mtx) m).
Definition set_mutex (m : mid) (x : rt_mutex) : X unit := modify (put_mutex m x).

Definition with_value (v : Z) (x : rt_mutex) : rt_mutex :=
  mk_mutex x.(is_mutex) x.(flag) v x.(original_priority) x.(hold) x.(owner).
Definition with_hold (v : Z) (x : rt_mutex) : rt_mutex :=
  mk_mutex x.(is_mutex) x.(flag) x.(value) x.(original_priority) v x.(owner).
Definition with_owner (o : option tid) (p : Z) (x : rt_mutex) : rt_mutex :=
  mk_mutex x.(is_mutex) x.(flag) x.(value) p x.(hold) o.

Definition check_type (m : mid) : X unit :=
  x <- get_mutex m ;; if x.(is_mutex) then ret tt else undefined.

(** RT_THREAD_CTRL_CHANGE_PRIORITY: what waiting objects see of it.  A thread on
    a suspend list keeps its place there. *)
Definition with_prio (p : Z) (t : rt_thread) : rt_thread :=
  mk_thread p t.(error) t.(stat) t.(thread_timer).
Definition change_priority (t : tid) (p : Z) : X unit := on_krn (alter_thread (with_prio p) t).

Inductive outcome := Done (code : Z) | Blocked.

Definition rt_mutex_init (m : mid) (flag_ : Z) : X Z :=
  modify (fun s => mk_xsys (mk_kernel s.(x_krn).(rt_tick) s.(x_krn).(tcb) (<[m := []]> s.(x_krn).(waitq)))
                     (<[m := mk_mutex true flag_ 1 0xff 0 None]> s.(mtx))) ;;;
  ret RT_EOK.

(** [rt_object_detach], after the waiting threads have been resumed
    ([resume_all_test] and [resume_all_round]). *)
Definition mutex_object_detach (m : mid) : X unit :=
  x <- get_mutex m ;;
  set_mutex m (mk_mutex false x.(flag) x.(value) x.(original_priority) x.(hold) x.(owner)).

(** [if (mutex->hold < RT_MUTEX_HOLD_MAX) mutex->hold ++] or an error. *)
Definition take_hold (m : mid) : X bool :=
  x <- get_mutex m ;;
  if x.(hold) <? RT_MUTEX_HOLD_MAX then set_mutex m (with_hold (x.(hold) + 1) x) ;;; ret true
  else ret false.

Definition rt_mutex_take (t : tid) (m : mid) (time : Z) : X outcome :=
  check_type m ;;;
  set_error t RT_EOK ;;;
  x <- get_mutex m ;;
  if bool_decide (x.(owner) = Some t) then
    ok <- take_hold m ;;
    ret (Done (if ok then RT_EOK else - RT_EFULL))
  else if 0 <? x.(value) then
    th <- thread_of t ;;
    set_mutex m (with_owner (Some t) (current_priority th) (with_value (x.(value) - 1) x)) ;;;
    ok <- take_hold m ;;
    ret (Done (if ok then RT_EOK else - RT_EFULL))
  else if time =? 0 then
    set_error t (- RT_ETIMEOUT) ;;;
    ret (Done (- RT_ETIMEOUT))
  else
    match x.(owner) with
    | None => undefined
    | Some o =>
        th <- thread_of t ;;
        oth <- thread_of o ;;
        (if current_priority th <? current_priority oth
         then change_priority o (current_priority th) else ret tt) ;;;
        rt_ipc_list_suspend m t x.(flag) ;;;
        (if 0 <? time then start_timer t time else ret tt) ;;;
        ret Blocked
    end.

(** [rt_mutex_take] after its call of [rt_schedule]. *)
Definition mutex_take_resumed (t : tid) : X Z :=
  th <- thread_of t ;;
  if negb (error th =? RT_EOK) then ret (error th) else ret RT_EOK.

Definition rt_mutex_release (t : tid) (m : mid) : X Z :=
  check_type m ;;;
  x <- get_mutex m ;;
  if negb (bool_decide (x.(owner) = Some t)) then
    set_error t (- RT_ERROR) ;;;
    ret (- RT_ERROR)
  else
    let x := with_hold (u8 (x.(hold) - 1)) x in
    set_mutex m x ;;;
    if x.(hold) =? 0 then
      th <- thread_of t ;;
      (if negb (x.(original_priority) =? current_priority th)
       then change_priority t x.(original_priority) else ret tt) ;;;
      l <- gets (fun s => waitq (krn s) m) ;;
      match l with
      | h :: _ =>
          hth <- thread_of h ;;
          set_mutex m (with_owner (Some h) (current_priority hth) x) ;;;
          ok <- take_hold m ;;
          if ok then rt_ipc_list_resume m ;;; ret RT_EOK else ret (- RT_EFULL)
      | [] =>
          if x.(value) <? RT_MUTEX_VALUE_MAX then
            set_mutex m (with_owner None 0xff (with_value (x.(value) + 1) x)) ;;;
            ret RT_EOK
          else ret (- RT_EFULL)
      end
    else ret RT_EOK.

Definition rt_mutex_control (m : mid) (cmd : Z) : X Z := check_type m ;;; ret (- RT_ERROR).

End Mutex.
