(* ===== verification/MutexSystem.v ===== *)
(** * Threads sharing mutexes

    Any number of threads take and release any number of mutexes, time out and
    detach them, while other code changes priorities, in any order and under any
    schedule (Mutex.v).  A mutex has one owner at a time, and what a thread that
    returns from [rt_mutex_take] believes to hold is what it holds. *)

From Stdlib Require Import ZArith Lia.
From stdpp Require Import prelude functions list.
From S2P Require Import Prelude Kernel KernelSpec Mutex.
Import Mutex.
Open Scope Z_scope.
Open Scope c_scope.

Module MutexSystem.

#[export] Instance xsys_laws : KernelLaws xsys.
Proof. split; [done|done|by intros []]. Qed.

(** ** Steps *)

(** [bl]: the threads in the middle of [rt_mutex_take]; [detaching]: those in the
    middle of [rt_mutex_detach], with the result of the last test; [held t m]:
    how often [t] has taken [m] and not released it, counting the calls that have
    returned. *)
Record sys := mk_sys {
  core : xsys;
  bl : tid -> option qid;
  detaching : tid -> option (mid * bool);
  held : tid -> mid -> Z
}.

Inductive action :=
| ATake (t : tid) (m : mid) (time : Z)
| ARelease (t : tid) (m : mid)
| ARun (t : tid)
| ATimeout (t : tid)
| APriority (t : tid) (p : Z)
| ADetach (t : tid) (m : mid)
| ATest (t : tid) (m : mid)
| ARound (t : tid) (m : mid)
| ATick.

Definition add_held (t : tid) (m : mid) (d : Z) (f : tid -> mid -> Z) : tid -> mid -> Z :=
  <[t := <[m := f t m + d]> (f t)]> f.

Definition mutex_step (a : action) (s : sys) : option sys :=
  match a with
  | ATake t m time =>
      match rt_mutex_take t m time s.(core) with
      | Some (Done c, k) =>
          Some (mk_sys k s.(bl) s.(detaching) (if c =? RT_EOK then add_held t m 1 s.(held) else s.(held)))
      | Some (Blocked, k) => Some (mk_sys k (<[t := Some m]> s.(bl)) s.(detaching) s.(held))
      | None => None
      end
  | ARelease t m =>
      match rt_mutex_release t m s.(core) with
      | Some (c, k) =>
          Some (mk_sys k s.(bl) s.(detaching) (if c =? RT_EOK then add_held t m (-1) s.(held) else s.(held)))
      | None => None
      end
  | ARun t =>
      match s.(bl) t, mutex_take_resumed t s.(core) with
      | Some m, Some (c, k) =>
          Some (mk_sys k (<[t := None]> s.(bl)) s.(detaching)
                  (if c =? RT_EOK then add_held t m 1 s.(held) else s.(held)))
      | _, _ => None
      end
  | ATimeout t =>
      match expire_thread t s.(core) with
      | Some (_, k) => Some (mk_sys k s.(bl) s.(detaching) s.(held))
      | None => None
      end
  | APriority t p =>
      match change_priority t p s.(core) with
      | Some (_, k) => Some (mk_sys k s.(bl) s.(detaching) s.(held))
      | None => None
      end
  | ADetach t m => Some (mk_sys s.(core) s.(bl) (<[t := Some (m, true)]> s.(detaching)) s.(held))
  | ATest t m =>
      match resume_all_test m s.(core) with
      | Some (false, k) => Some (mk_sys k s.(bl) (<[t := Some (m, false)]> s.(detaching)) s.(held))
      | Some (true, k) =>
          match mutex_object_detach m k with
          | Some (_, k) => Some (mk_sys k s.(bl) (<[t := None]> s.(detaching)) s.(held))
          | None => None
          end
      | None => None
      end
  | ARound t m =>
      match resume_all_round m s.(core) with
      | Some (_, k) => Some (mk_sys k s.(bl) (<[t := Some (m, true)]> s.(detaching)) s.(held))
      | None => None
      end
  | ATick =>
      let k := x_krn s.(core) in
      Some (mk_sys (mk_xsys (mk_kernel (u32 (k.(rt_tick) + 1)) k.(tcb) k.(waitq)) (mtx s.(core)))
              s.(bl) s.(detaching) s.(held))
  end.

Definition thr (s : sys) (t : tid) : rt_thread := tcb (x_krn s.(core)) t.
Definition waiting_on (s : sys) (m : mid) : list tid := waitq (x_krn s.(core)) m.
Definition mutex (s : sys) (m : mid) : rt_mutex := mtx s.(core) m.

(** Calls are made on a mutex that exists, by threads that are not waiting; timeouts
    are what the timer accepts. *)
Definition enabled (a : action) (s : sys) : Prop :=
  match a with
  | ATake t m time => s.(bl) t = None /\ is_mutex (mutex s m) = true /\ - 2 ^ 31 <= time < 2 ^ 31 - 1
  | ARelease t m => s.(bl) t = None /\ is_mutex (mutex s m) = true
  | ARun t => s.(bl) t <> None /\ stat (thr s t) = RT_THREAD_READY
  | ATimeout t => stat (thr s t) = RT_THREAD_SUSPEND /\ thread_timer (thr s t) <> None
  | APriority t p => True
  | ADetach t m => s.(bl) t = None /\ s.(detaching) t = None /\ is_mutex (mutex s m) = true
  | ATest t m => s.(detaching) t = Some (m, true)
  | ARound t m => s.(detaching) t = Some (m, false)
  | ATick => True
  end.

(** The body of the loop of a detach finds the list empty that its test has found
    not empty: in between the last waiting thread has timed out, or was resumed by
    someone else. *)
Definition overtaken (a : action) (s : sys) : Prop :=
  match a with ARound _ m => waiting_on s m = [] | _ => False end.

#[export] Instance overtaken_dec a s : Decision (overtaken a s).
Proof. destruct a; apply _. Defined.

(** After [rt_mutex_init], with every thread ready. *)
Definition initial (s : sys) : Prop :=
  (forall m, exists f, ipc_flag f /\ mutex s m = mk_mutex true f 1 0xff 0 None) /\
  (forall m, waiting_on s m = []) /\ (forall t, stat (thr s t) = RT_THREAD_READY) /\
  (forall t, s.(bl) t = None /\ s.(detaching) t = None) /\ (forall t m, s.(held) t m = 0).

(** The states reached from [s0] by the actions that [ok] admits. *)
Inductive reach (ok : action -> Prop) (s0 : sys) : sys -> Prop :=
| reach_start : initial s0 -> reach ok s0 s0
| reach_step s a s' : reach ok s0 s -> ok a -> enabled a s -> mutex_step a s = Some s' -> reach ok s0 s'.

(** ** The invariant *)

(** [m] has been handed over to [t], whose call has not returned yet. *)
Definition handed (s : sys) (m : mid) (t : tid) : bool :=
  bool_decide (s.(bl) t = Some m) && bool_decide (stat (thr s t) = RT_THREAD_READY) && (error (thr s t) =? RT_EOK).

(** A mutex [x] with the waiting threads [q], the holds [h] and the threads [g]
    that it has been handed over to. *)
Record mutex_ok (x : rt_mutex) (q : list tid) (h : tid -> Z) (g : tid -> bool) : Prop := {
  mo_flag : ipc_flag (flag x);
  mo_owner : match owner x with
             | None => value x = 1 /\ hold x = 0 /\ q = []
             | Some o => value x = 0 /\ 1 <= hold x <= 255 /\ (o ∉ q) /\ hold x = h o + Z.b2z (g o)
             end;
  mo_held t : 0 <= h t /\ (owner x <> Some t -> h t = 0);
  mo_handed t : g t = true -> owner x = Some t
}.

Record inv (s : sys) : Prop := {
  inv_waits : waits_ok (x_krn s.(core)) s.(bl);
  inv_mutex m : mutex_ok (mutex s m) (waiting_on s m) (fun t => s.(held) t m) (handed s m)
}.

Lemma mutex_ok_ext x q h g h' g' :
  (forall t, h' t = h t) -> (forall t, g' t = g t) -> mutex_ok x q h g -> mutex_ok x q h' g'.
Proof.
  intros Hh Hg [H1 H2 H3 H4]. split; [done|..].
  - destruct (owner x); [|done]. by rewrite Hh, Hg.
  - intros t. rewrite Hh. apply H3.
  - intros t. rewrite Hg. apply H4.
Qed.

Lemma mx_initial_inv s : initial s -> inv s.
Proof.
  intros (Hm & Hq & Ht & Hb & Hh). unfold thr, waiting_on in *. split.
  - split.
    + intros t q. rewrite Hq. destruct (Hb t) as [-> _]. split; [by intros ?%not_elem_of_nil|by intros [? _]].
    + intros q. rewrite Hq. constructor.
    + intros t _. apply Ht.
    + intros t E. rewrite Ht in E. done.
  - intros m. destruct (Hm m) as (f & Hf & ->). split; [done|..]; cbn [owner value hold].
    + split; [done|]. split; [done|]. apply Hq.
    + intros t. by rewrite Hh.
    + intros t. unfold handed. destruct (Hb t) as [-> _]. done.
Qed.

(** ** Frames *)

Lemma handed_same s s' m t :
  bl s' t = bl s t -> stat (thr s' t) = stat (thr s t) -> error (thr s' t) = error (thr s t) ->
  handed s' m t = handed s m t.
Proof. unfold handed. by intros -> -> ->. Qed.

Lemma handed_not s m t : bl s t <> Some m -> handed s m t = false.
Proof. intros Hb. unfold handed. by rewrite bool_decide_eq_false_2. Qed.

Lemma handed_suspended s m t : stat (thr s t) = RT_THREAD_SUSPEND -> handed s m t = false.
Proof. intros Hb. unfold handed. rewrite Hb. by rewrite andb_false_r. Qed.

Lemma add_held_other t m d f t' m' : (t' <> t \/ m' <> m) -> add_held t m d f t' m' = f t' m'.
Proof.
  intros Hne. unfold add_held. destruct (decide (t' = t)) as [->|Ht].
  - rewrite fn_lookup_insert, fn_lookup_insert_ne; [done|]. destruct Hne; congruence.
  - by rewrite fn_lookup_insert_ne.
Qed.

Lemma add_held_same t m d f : add_held t m d f t m = f t m + d.
Proof. unfold add_held. by rewrite !fn_lookup_insert. Qed.

(** A step that concerns the mutex [m] only. *)
Lemma inv_step s s' m :
  inv s -> waits_ok (x_krn (core s')) (bl s') ->
  (forall m', m' <> m -> mutex s' m' = mutex s m' /\ waiting_on s' m' = waiting_on s m' /\
     forall t, held s' t m' = held s t m' /\ handed s' m' t = handed s m' t) ->
  mutex_ok (mutex s' m) (waiting_on s' m) (fun t => held s' t m) (handed s' m) -> inv s'.
Proof.
  intros Hs Hw Ho Hm. split; [done|]. intros m'. destruct (decide (m' = m)) as [->|Hne]; [done|].
  destruct (Ho m' Hne) as (-> & -> & Ht). eapply mutex_ok_ext; [..|apply (inv_mutex _ Hs m')]; apply Ht.
Qed.

(** A step that leaves mutexes, lists and holds alone. *)
Lemma inv_same s s' :
  inv s -> waits_ok (x_krn (core s')) (bl s') -> (forall m, mutex s' m = mutex s m) ->
  (forall m, waiting_on s' m = waiting_on s m) -> (forall t m, held s' t m = held s t m) ->
  (forall m t, handed s' m t = handed s m t) -> inv s'.
Proof.
  intros Hs Hw Hm Hq Hh Hg. split; [done|]. intros m. rewrite Hm, Hq.
  eapply mutex_ok_ext; [..|apply (inv_mutex _ Hs m)]; [intros; apply Hh|intros; apply Hg].
Qed.

Definition good (r : option sys) : Prop := exists s', r = Some s' /\ inv s'.

Lemma mx_check_type_ok c m : is_mutex (mtx c m) = true -> check_type m c = Some (tt, c).
Proof. intros E. unfold check_type, get_mutex. cbv [bind gets]. by rewrite E. Qed.

(** Resetting the error of a thread outside of all functions. *)
Definition clear_error (t : tid) (e : Z) (s : sys) : sys :=
  mk_sys (mk_xsys (alter_thread (with_error e) t (x_krn (core s))) (mtx (core s))) (bl s) (detaching s) (held s).

Lemma inv_error s t e : inv s -> bl s t = None -> inv (clear_error t e s).
Proof.
  intros Hs Hb. pose proof (wait_idle _ _ (inv_waits _ Hs) t Hb) as Hr. apply (inv_same s); try done.
  - apply waits_alter; [apply Hs|done|congruence].
  - intros m u. destruct (decide (u = t)) as [->|Hu].
    + rewrite !handed_not; [done|congruence|cbn; congruence].
    + apply handed_same; [done|..]; unfold thr, clear_error; cbn [core x_krn]; by rewrite tcb_alter, decide_False.
Qed.

(** Changing the priority of a thread. *)
Definition prio_change (t : tid) (p : Z) (s : sys) : sys :=
  mk_sys (mk_xsys (alter_thread (with_prio p) t (x_krn (core s))) (mtx (core s))) (bl s) (detaching s) (held s).

Lemma inv_prio s t p : inv s -> inv (prio_change t p s).
Proof.
  intros Hs. apply (inv_same s); try done.
  - by apply waits_alter; [apply Hs|..].
  - intros m u. apply handed_same; [done|..]; unfold thr, prio_change; cbn [core x_krn]; rewrite tcb_alter;
      case_decide; by subst.
Qed.

(** ** Taking *)

(** The owner takes it again, or a thread takes a free mutex. *)
Record took (t : tid) (m : mid) (d : Z) (x : rt_mutex) (s s' : sys) : Prop := {
  tk_krn : x_krn (core s') = x_krn (core s);
  tk_mutex : mutex s' m = x;
  tk_other m' : m' <> m -> mutex s' m' = mutex s m';
  tk_bl : bl s' = bl s;
  tk_held : held s' = add_held t m d (held s)
}.

Lemma took_handed t m d x s s' m' u : took t m d x s s' -> handed s' m' u = handed s m' u.
Proof. intros [Ek _ _ Eb _]. apply handed_same; [by rewrite Eb|..]; unfold thr; by rewrite Ek. Qed.

Lemma took_waiting t m d x s s' m' : took t m d x s s' -> waiting_on s' m' = waiting_on s m'.
Proof. intros [Ek _ _ _ _]. unfold waiting_on. by rewrite Ek. Qed.

(** Only the mutex [m] and the holds of [t] on it are concerned. *)
Lemma inv_took s s' t m d x :
  inv s -> took t m d x s s' ->
  mutex_ok x (waiting_on s m) (fun u => if decide (u = t) then held s t m + d else held s u m) (handed s m) -> inv s'.
Proof.
  intros Hs Ht Hx. pose proof Ht as [Ek Em Eo Eb Eh]. apply (inv_step s _ m); [done|rewrite Ek, Eb; apply Hs|..].
  - intros m' Hne. split; [by apply Eo|]. split; [by eapply took_waiting|]. intros u.
    split; [|by eapply took_handed]. rewrite Eh. apply add_held_other. by right.
  - rewrite Em, (took_waiting _ _ _ _ _ _ m Ht). eapply mutex_ok_ext; [..|exact Hx]; intros u; [|by eapply took_handed].
    rewrite Eh. case_decide as E; [subst; apply add_held_same|]. apply add_held_other. by left.
Qed.

Lemma inv_taken s s' t m x :
  inv s -> bl s t = None -> flag x = flag (mutex s m) -> owner x = Some t -> value x = 0 ->
  (owner (mutex s m) = Some t /\ hold x = hold (mutex s m) + 1 /\ hold (mutex s m) < 255 \/
   owner (mutex s m) = None /\ hold x = 1) ->
  took t m 1 x s s' -> inv s'.
Proof.
  intros Hs Hb Hf Ho Hv Hc Ht. destruct (inv_mutex _ Hs m) as [Hfl Hown Hheld Hhand].
  assert (handed s m t = false) as Hnt by (apply handed_not; congruence).
  apply (inv_took s s' t m 1 x); [done|done|]. split; rewrite ?Ho; [by rewrite Hf|..].
  - rewrite decide_True, Hnt by done. split; [done|]. destruct Hc as [(Eo & Eh & Hlt)|(Eo & Eh)]; rewrite Eo in Hown.
    + destruct Hown as (_ & Hr & Hq & Eq). rewrite Hnt in Eq. cbn [Z.b2z] in *. split; [lia|]. split; [done|]. lia.
    + destruct Hown as (_ & _ & Eq). rewrite Eq. split; [lia|]. split; [apply not_elem_of_nil|].
      destruct (Hheld t) as [_ H0]. rewrite H0 by congruence. cbn [Z.b2z]. lia.
  - intros u. destruct (Hheld u) as [Hp H0]. case_decide as E; [subst; split; [lia|done]|].
    split; [done|]. intros _. apply H0. destruct Hc as [(Eo & _)|(Eo & _)]; rewrite Eo; congruence.
  - intros u Hu. exfalso. assert (u <> t) by congruence. apply Hhand in Hu. destruct Hc as [(Eo & _)|(Eo & _)]; congruence.
Qed.

(** A thread that has to wait. *)
Definition blocked (t : tid) (m : mid) (k : kernel) (s : sys) : sys :=
  mk_sys (mk_xsys k (mtx (core s))) (<[t := Some m]> (bl s)) (detaching s) (held s).

Lemma mx_inv_blocked s t m time :
  inv s -> bl s t = None -> error (thr s t) = RT_EOK -> owner (mutex s m) <> None -> owner (mutex s m) <> Some t ->
  inv (blocked t m (waiting m t (flag (mutex s m)) time (x_krn (core s))) s).
Proof.
  intros Hs Hb He Ho Hot. pose proof (inv_waits _ Hs) as Hw. pose proof (wait_idle _ _ Hw t Hb) as Hr.
  destruct (inv_mutex _ Hs m) as [Hfl Hown Hheld Hhand].
  set (s' := blocked _ _ _ _).
  assert (forall m' u, handed s' m' u = handed s m' u) as Hg.
  { intros m' u. destruct (decide (u = t)) as [->|Hu].
    - rewrite handed_suspended, handed_not; [done|congruence|].
      unfold thr, s', blocked. cbn [core x_krn]. by rewrite tcb_waiting_self.
    - apply handed_same; unfold s', blocked, thr; cbn [core x_krn bl]; rewrite ?tcb_waiting_ne by done; try done.
      by rewrite fn_lookup_insert_ne. }
  apply (inv_step s _ m); [done|by apply waits_block|..].
  - intros m' Hne. split; [done|]. split; [|intros u; split; [done|apply Hg]].
    unfold waiting_on, s', blocked. cbn [core x_krn]. by rewrite waitq_waiting, decide_False.
  - apply (mutex_ok_ext _ _ (fun u => held s u m) (handed s m)); [done|intros; apply Hg|].
    change (mutex s' m) with (mutex s m). split; [done| |done|done].
    destruct (owner (mutex s m)) as [o|] eqn:Eo; [|done]. destruct Hown as (Hv & Hh & Hq & Eh). split; [done|]. split; [done|].
    split; [|done]. unfold waiting_on, s', blocked. cbn [core x_krn]. rewrite waitq_waiting, decide_True by done.
    rewrite elem_of_ipc_insert by done. intros [->|?]; done.
Qed.

Lemma take_hold_ok c m :
  hold (mtx c m) < 255 -> take_hold m c = Some (true, put_mutex m (with_hold (hold (mtx c m) + 1) (mtx c m)) c).
Proof.
  intros H. unfold take_hold, get_mutex. cbv [bind gets]. unfold RT_MUTEX_HOLD_MAX.
  by replace (hold (mtx c m) <? 255) with true by lia.
Qed.

Lemma take_hold_full c m : 255 <= hold (mtx c m) -> take_hold m c = Some (false, c).
Proof.
  intros H. unfold take_hold, get_mutex. cbv [bind gets]. unfold RT_MUTEX_HOLD_MAX.
  by replace (hold (mtx c m) <? 255) with false by lia.
Qed.

(** What [rt_mutex_take] does, in all its cases; [s0] is the state with the error
    of the thread reset. *)
Lemma take_cases s t m time :
  inv s -> enabled (ATake t m time) s ->
  let s0 := clear_error t RT_EOK s in
  let x := mutex s m in
  exists s', mutex_step (ATake t m time) s = Some s' /\
    ((owner x = Some t /\ hold x < 255 /\ took t m 1 (with_hold (hold x + 1) x) s0 s') \/
     (owner x = Some t /\ s' = s0) \/
     (owner x = None /\
        took t m 1 (mk_mutex (is_mutex x) (flag x) 0 (current_priority (thr s t)) 1 (Some t)) s0 s') \/
     (owner x <> None /\ owner x <> Some t /\ s' = clear_error t (- RT_ETIMEOUT) s0) \/
     (exists o, owner x = Some o /\ o <> t /\
        s' = blocked t m (waiting m t (flag x) time
               (if current_priority (thr s t) <? current_priority (thr s o)
                then x_krn (core (prio_change o (current_priority (thr s t)) s0)) else x_krn (core s0)))
             (if current_priority (thr s t) <? current_priority (thr s o)
              then prio_change o (current_priority (thr s t)) s0 else s0))).
Proof.
  intros Hs (Hb & Hty & Ht) s0 x. destruct (inv_mutex _ Hs m) as [_ Hown _ _]. fold x in Hown.
  pose proof (wait_idle _ _ (inv_waits _ Hs) t Hb) as Hr.
  assert (thr s0 t = with_error RT_EOK (thr s t)) as Et by (unfold thr, s0, clear_error; cbn [core x_krn]; by rewrite tcb_alter, decide_True).
  assert (forall u, current_priority (thr s0 u) = current_priority (thr s u)) as Ep.
  { intros u. unfold thr, s0, clear_error; cbn [core x_krn]. rewrite tcb_alter. by case_decide; subst. }
  cbn [mutex_step]. unfold rt_mutex_take. rewrite (bind_eq _ _ _ _ _ (mx_check_type_ok _ _ Hty)).
  assert (set_error t RT_EOK (core s) = Some (tt, core s0)) as E0 by done. rewrite (bind_eq _ _ _ _ _ E0).
  unfold bind at 1, get_mutex at 1, gets at 1. change (mtx (core s0) m) with x.
  destruct (bool_decide (owner x = Some t)) eqn:Eo.
  { apply bool_decide_eq_true in Eo. destruct (decide (hold x < 255)) as [Hh|Hh].
    - unfold bind. rewrite take_hold_ok by done. cbn. eexists. split; [reflexivity|]. left. split; [done|]. split; [done|].
      split; try done; unfold mutex; cbn [core put_mutex mtx]; [by rewrite fn_lookup_insert|].
      intros m' Hne. by rewrite fn_lookup_insert_ne.
    - unfold bind. rewrite take_hold_full by (change (mtx (core s0) m) with x; lia). cbn. eexists. split; [reflexivity|].
      right. left. split; [done|reflexivity]. }
  apply bool_decide_eq_false in Eo. destruct (owner x) as [o|] eqn:Ex.
  - destruct Hown as (Hv & Hh & Hq & Eh). rewrite Hv. cbn [Z.ltb]. change (0 <? 0) with false. cbv iota.
    destruct (Z.eqb_spec time 0) as [->|Hne].
    + unfold bind, set_error. rewrite on_krn_eq. eexists. split; [reflexivity|]. right. right. right. left. by split_and!.
    + set (p := current_priority (thr s t)). set (b := p <? current_priority (thr s o)).
      set (s1 := if b then prio_change o p s0 else s0).
      assert ((if b then change_priority o p else ret tt) (core s0) = Some (tt, core s1)) as E1.
      { unfold s1. by destruct b. }
      unfold bind at 1 2, thread_of, gets. change (tcb (krn (core s0)) t) with (thr s0 t). change (tcb (krn (core s0)) o) with (thr s0 o).
      rewrite !Ep. fold p. fold b. rewrite (bind_eq _ _ _ _ _ E1).
      assert (stat (thr s1 t) = RT_THREAD_READY) as Hr1.
      { unfold s1. destruct b; [|by rewrite Et]. unfold thr, prio_change. cbn [core x_krn]. rewrite tcb_alter, decide_False by congruence.
        change (stat (thr s0 t) = RT_THREAD_READY). by rewrite Et. }
      unfold bind. rewrite suspend_spec by done. unfold put_krn at 1. cbn [xsys_kernel krn].
      assert ((if 0 <? time then start_timer t time else ret tt)
                (mk_xsys (suspended m t (flag x) (x_krn (core s1))) (mtx (core s1)))
              = Some (tt, mk_xsys (waiting m t (flag x) time (x_krn (core s1))) (mtx (core s1)))) as E2.
      { unfold waiting. destruct (Z.ltb_spec 0 time); [|done]. by rewrite start_timer_spec by lia. }
      rewrite E2. eexists. split; [reflexivity|]. do 4 right. exists o. split; [done|]. split; [congruence|].
      change (p <? current_priority (thr s o)) with b. unfold blocked, s1. destruct b; reflexivity.
  - destruct Hown as (Hv & Hh & Hq). rewrite Hv. change (0 <? 1) with true. cbv iota.
    unfold bind, thread_of, gets, set_mutex, modify. rewrite take_hold_ok.
    2:{ cbn [put_mutex mtx]. rewrite fn_lookup_insert. cbn. lia. }
    cbn [put_mutex mtx]. rewrite fn_lookup_insert. cbn [with_owner with_value hold]. rewrite Hh.
    eexists. split; [reflexivity|]. right. right. left. split; [done|]. rewrite <- Ep.
    split; try done; unfold mutex; cbn [core put_mutex mtx]; [by rewrite fn_lookup_insert|].
    intros m' Hne. by rewrite !fn_lookup_insert_ne.
Qed.

Lemma mx_take_good s t m time : inv s -> enabled (ATake t m time) s -> good (mutex_step (ATake t m time) s).
Proof.
  intros Hs Ha. pose proof Ha as (Hb & _ & _). destruct (take_cases s t m time Hs Ha) as (s' & -> & Hc). exists s'. split; [done|].
  cbv zeta in Hc. assert (inv (clear_error t RT_EOK s)) as H0 by (by apply inv_error).
  destruct (inv_mutex _ Hs m) as [_ Hown _ _].
  destruct Hc as [(Eo & Hh & Hk)|[(Eo & ->)|[(Eo & Hk)|[(Ho & Ho' & ->)|(o & Eo & Hne & ->)]]]].
  - eapply (inv_taken _ _ t m); [exact H0|done|..|exact Hk]; try done; cbn [with_hold value]; [|by left].
    rewrite Eo in Hown. apply Hown.
  - done.
  - eapply (inv_taken _ _ t m); [exact H0|done|..|exact Hk]; try done. by right.
  - by apply inv_error.
  - set (s1 := if current_priority (thr s t) <? current_priority (thr s o)
               then prio_change o (current_priority (thr s t)) (clear_error t RT_EOK s) else clear_error t RT_EOK s).
    assert (inv s1) as H1 by (unfold s1; destruct (_ <? _); [by apply inv_prio|done]).
    replace (waiting m t _ time _) with (waiting m t (flag (mutex s1 m)) time (x_krn (core s1))) by (unfold s1; by destruct (_ <? _)).
    assert (mutex s1 m = mutex s m /\ bl s1 = bl s) as [Em Eb] by (unfold s1; by destruct (_ <? _)).
    apply mx_inv_blocked; rewrite ?Em, ?Eb, ?Eo; try done; [|congruence].
    unfold s1. destruct (_ <? _); unfold thr, prio_change, clear_error; cbn [core x_krn]; rewrite ?tcb_alter.
    + rewrite decide_False by congruence. by rewrite decide_True.
    + by rewrite decide_True.
Qed.

(** ** Releasing *)

(** The priority of the owner is restored. *)
Definition restored (t : tid) (m : mid) (s : sys) : sys :=
  if original_priority (mutex s m) =? current_priority (thr s t) then s
  else prio_change t (original_priority (mutex s m)) s.

(** The mutex is handed over to [h]. *)
Record handover (t h : tid) (m : mid) (s s' : sys) : Prop := {
  ho_krn : x_krn (core s') = resumed h (x_krn (core s));
  ho_mutex : mutex s' m = mk_mutex (is_mutex (mutex s m)) (flag (mutex s m)) (value (mutex s m))
                            (current_priority (thr s h)) 1 (Some h);
  ho_other m' : m' <> m -> mutex s' m' = mutex s m';
  ho_bl : bl s' = bl s;
  ho_held : held s' = add_held t m (-1) (held s)
}.

Lemma mx_release_cases s t m :
  inv s -> enabled (ARelease t m) s ->
  let x := mutex s m in
  exists s', mutex_step (ARelease t m) s = Some s' /\
    ((owner x <> Some t /\ s' = clear_error t (- RT_ERROR) s) \/
     (owner x = Some t /\ 1 < hold x /\ took t m (-1) (with_hold (hold x - 1) x) s s') \/
     (owner x = Some t /\ hold x = 1 /\ waiting_on s m = [] /\
        took t m (-1) (mk_mutex (is_mutex x) (flag x) 1 0xff 0 None) (restored t m s) s') \/
     (exists h r, owner x = Some t /\ hold x = 1 /\ waiting_on s m = h :: r /\ handover t h m (restored t m s) s')).
Proof.
  intros Hs (Hb & Hty) x. destruct (inv_mutex _ Hs m) as [_ Hown _ _]. fold x in Hown.
  cbn [mutex_step]. unfold rt_mutex_release. rewrite (bind_eq _ _ _ _ _ (mx_check_type_ok _ _ Hty)).
  unfold bind at 1, get_mutex at 1, gets at 1. change (mtx (core s) m) with x.
  destruct (bool_decide (owner x = Some t)) eqn:Eo; cbn [negb].
  2:{ apply bool_decide_eq_false in Eo. unfold bind, set_error. rewrite on_krn_eq. eexists. split; [reflexivity|]. by left. }
  apply bool_decide_eq_true in Eo. rewrite Eo in Hown. destruct Hown as (Hv & Hh & Hq & _).
  unfold bind at 1, set_mutex at 1, modify. cbv beta zeta iota. rewrite u8_small by lia.
  set (x1 := with_hold (hold x - 1) x). change (hold x1) with (hold x - 1).
  destruct (Z.eqb_spec (hold x - 1) 0) as [E1|E1].
  2:{ eexists. split; [reflexivity|]. right. left. split; [done|]. split; [lia|].
      split; try done; unfold mutex; cbn [core put_mutex mtx]; [by rewrite fn_lookup_insert|].
      intros m' Hne. by rewrite fn_lookup_insert_ne. }
  set (c1 := put_mutex m x1 (core s)). set (s1 := restored t m s).
  assert (mtx (core s1) = mtx (core s) /\ bl s1 = bl s /\ held s1 = held s /\ detaching s1 = detaching s /\ waitq (x_krn (core s1)) = waitq (x_krn (core s)))
    as (Em1 & Eb1 & Eh1 & Ed1 & Eq1) by (unfold s1, restored; by destruct (_ =? _)).
  assert ((if negb (original_priority x1 =? current_priority (thr s t)) then change_priority t (original_priority x1) else ret tt) c1
          = Some (tt, mk_xsys (x_krn (core s1)) (mtx c1))) as E2.
  { unfold s1, restored. change (original_priority (mutex s m)) with (original_priority x1).
    destruct (_ =? _); done. }
  unfold bind at 1, thread_of at 1, gets at 1. change (tcb (krn c1) t) with (thr s t).
  rewrite (bind_eq _ _ _ _ _ E2). unfold bind at 1, gets at 1. cbn [krn xsys_kernel x_krn]. rewrite Eq1.
  change (waitq (x_krn (core s)) m) with (waiting_on s m).
  destruct (waiting_on s m) as [|h r] eqn:Eq.
  - change (value x1) with (value x). rewrite Hv. change (0 <? RT_MUTEX_VALUE_MAX) with true. cbv iota.
    eexists. split; [reflexivity|]. right. right. left. split; [done|]. split; [lia|]. split; [done|].
    split; try done; unfold mutex; cbn [core put_mutex mtx held].
    + rewrite fn_lookup_insert. unfold with_owner, with_value, x1. cbn [with_hold is_mutex flag hold]. rewrite E1. done.
    + intros m' Hne. fold s1. rewrite Em1. unfold c1. cbn [put_mutex mtx]. by rewrite !fn_lookup_insert_ne.
    + by rewrite Eh1.
  - unfold bind at 1, thread_of, gets. cbn [krn xsys_kernel x_krn]. change (tcb (x_krn (core s1)) h) with (thr s1 h).
    unfold bind at 1, set_mutex, modify. unfold bind at 1. rewrite take_hold_ok.
    2:{ cbn [put_mutex mtx]. rewrite fn_lookup_insert. cbn [with_owner hold]. change (hold x1) with (hold x - 1). lia. }
    cbn [put_mutex mtx]. rewrite fn_lookup_insert. unfold bind. set (c2 := put_mutex m (with_hold _ _) _).
    assert (waits_ok (x_krn (core s1)) (bl s1)) as Hw1.
    { assert (inv s1) as [? _] by (unfold s1, restored; destruct (_ =? _); [done|by apply inv_prio]). done. }
    rewrite (list_resume_spec m h r).
    2:{ change (waitq (x_krn (core s1)) m = h :: r). by rewrite Eq1. }
    2:{ apply (waits_suspended _ _ Hw1). }
    eexists. split; [reflexivity|]. do 3 right. exists h, r. split; [done|]. split; [lia|]. split; [done|].
    split; try done.
    + change (woken m (x_krn (core s1)) = resumed h (x_krn (core s1))). unfold woken. rewrite Eq1.
      change (waitq (x_krn (core s)) m) with (waiting_on s m). by rewrite Eq.
    + unfold mutex, c2. cbn [core put_krn put_mutex xsys_kernel x_krn krn mtx]. rewrite fn_lookup_insert. fold s1. rewrite Em1.
      unfold with_hold, with_owner, x1. cbn [is_mutex flag value hold owner original_priority with_hold]. rewrite E1. done.
    + intros m' Hne. unfold mutex, c2. cbn [core put_krn put_mutex xsys_kernel x_krn krn mtx]. fold s1. rewrite Em1.
      unfold c1. cbn [put_mutex mtx]. by rewrite !fn_lookup_insert_ne.
    + by rewrite Eh1.
Qed.

Lemma restored_inv t m s : inv s -> inv (restored t m s).
Proof. intros Hs. unfold restored. destruct (_ =? _); [done|by apply inv_prio]. Qed.

Lemma restored_same t m s :
  mtx (core (restored t m s)) = mtx (core s) /\ bl (restored t m s) = bl s /\ held (restored t m s) = held s /\
  waitq (x_krn (core (restored t m s))) = waitq (x_krn (core s)).
Proof. unfold restored. by destruct (_ =? _). Qed.

Lemma inv_handover s s' t h r m :
  inv s -> bl s t = None -> owner (mutex s m) = Some t -> hold (mutex s m) = 1 -> waiting_on s m = h :: r ->
  handover t h m s s' -> inv s'.
Proof.
  intros Hs Hb Eo Eh Eq [Ek Em Eother Eb Eheld]. pose proof (inv_waits _ Hs) as Hw.
  destruct (inv_mutex _ Hs m) as [Hfl Hown Hheld Hhand]. rewrite Eo in Hown. destruct Hown as (Hv & _ & Hq & Hho).
  assert (h ∈ waiting_on s m) as Hin by (rewrite Eq; left).
  assert (bl s h = Some m /\ stat (thr s h) = RT_THREAD_SUSPEND) as [Hbh Hsh] by (by apply (wait_in _ _ Hw)).
  assert (h <> t) as Hht by congruence.
  assert (handed s m t = false) as Hnt by (apply handed_not; congruence).
  assert (forall u, thr s' u = if decide (u = h) then with_stat RT_THREAD_READY (with_timer None (thr s h)) else thr s u) as Et.
  { intros u. unfold thr. rewrite Ek. unfold resumed. by rewrite tcb_alter. }
  assert (forall m' u, m' <> m \/ u <> h -> handed s' m' u = handed s m' u) as Hg.
  { intros m' u Hu. destruct (decide (u = h)) as [->|Hne].
    - destruct Hu as [Hu|]; [|done]. rewrite !handed_not; [done|congruence|rewrite Eb; congruence].
    - apply handed_same; [by rewrite Eb|..]; by rewrite Et, decide_False. }
  apply (inv_step s _ m); [done|..].
  - rewrite Ek, Eb. by apply waits_resumed.
  - intros m' Hne. split; [by apply Eother|]. split.
    + unfold waiting_on. rewrite Ek. rewrite waitq_resumed. by apply (waitq_other _ _ Hw m).
    + intros u. rewrite Eheld. split; [apply add_held_other; by right|apply Hg; by left].
  - assert (handed s' m h = true) as Hgh.
    { unfold handed. rewrite Eb, Hbh, Et, decide_True by done. cbn [with_stat with_timer stat error].
      rewrite !bool_decide_eq_true_2 by done. pose proof (wait_error _ _ Hw h Hsh) as Ee. fold (thr s h) in Ee. by rewrite Ee. }
    rewrite Em. split; cbn [owner flag value hold]; [done|..].
    + assert (waiting_on s' m = r) as ->.
      { unfold waiting_on. rewrite Ek, waitq_resumed. by apply (waitq_head _ _ Hw m). }
      split; [done|]. split; [lia|]. split.
      * pose proof (wait_nodup _ _ Hw m) as Hn. fold (waiting_on s m) in Hn. rewrite Eq in Hn. by apply NoDup_cons in Hn as [? _].
      * rewrite Hgh, Eheld, add_held_other by (by left). destruct (Hheld h) as [_ H0]. rewrite H0 by congruence. done.
    + intros u. rewrite Eheld. destruct (decide (u = t)) as [->|Hu].
      * rewrite add_held_same. rewrite Eh, Hnt in Hho. cbn [Z.b2z] in Hho. split; intros; lia.
      * rewrite add_held_other by (by left). destruct (Hheld u) as [Hp H0]. split; [done|]. intros _. apply H0. congruence.
    + intros u Hu. destruct (decide (u = h)) as [->|Hne]; [done|]. rewrite Hg in Hu by (by right).
      pose proof (Hhand u Hu). exfalso. assert (u = t) as -> by congruence. congruence.
Qed.

Lemma mx_release_good s t m : inv s -> enabled (ARelease t m) s -> good (mutex_step (ARelease t m) s).
Proof.
  intros Hs Ha. pose proof Ha as (Hb & _). destruct (mx_release_cases s t m Hs Ha) as (s' & -> & Hc). exists s'. split; [done|].
  cbv zeta in Hc. assert (handed s m t = false) as Hnt by (apply handed_not; congruence).
  destruct (inv_mutex _ Hs m) as [Hfl Hown Hheld Hhand].
  pose proof (restored_inv t m s Hs) as H1. destruct (restored_same t m s) as (Em & Eb & Eh & Eq).
  destruct Hc as [(Eo & ->)|[(Eo & Hh & Hk)|[(Eo & Hh & Hq & Hk)|(h & r & Eo & Hh & Hq & Hk)]]].
  - by apply inv_error.
  - rewrite Eo in Hown. destruct Hown as (Hv & Hr & Hni & Ehold). rewrite Hnt in Ehold. cbn [Z.b2z] in Ehold.
    eapply inv_took; [exact Hs|exact Hk|]. split; cbn [with_hold flag owner value hold]; rewrite ?Eo; [done|..].
    + rewrite decide_True, Hnt by done. cbn [Z.b2z]. split; [done|]. split; [lia|]. split; [done|]. lia.
    + intros u. destruct (Hheld u) as [Hp H0]. case_decide; [subst; split; [lia|done]|]. split; [done|]. intros Hu. apply H0. congruence.
    + intros u Hu. by rewrite <- Eo; apply Hhand.
  - rewrite Eo in Hown. destruct Hown as (Hv & Hr & Hni & Ehold). rewrite Hnt, Hh in Ehold. cbn [Z.b2z] in Ehold.
    eapply inv_took; [exact H1|exact Hk|].
    apply (mutex_ok_ext _ _ (fun u => if decide (u = t) then held s t m + -1 else held s u m) (handed s m)).
    + intros u. by rewrite Eh.
    + intros u. unfold restored. destruct (_ =? _); [done|]. apply handed_same; [done|..]; unfold thr, prio_change;
        cbn [core x_krn]; rewrite tcb_alter; case_decide; by subst.
    + split; cbn [flag owner value hold]; [done|..].
      * split; [done|]. split; [done|]. unfold waiting_on. by rewrite Eq.
      * intros u. destruct (Hheld u) as [Hp H0]. case_decide; [subst; split; intros; lia|]. split; [done|]. intros _. apply H0. congruence.
      * intros u Hu. exfalso. pose proof (Hhand u Hu). assert (u = t) as -> by congruence. congruence.
  - assert (mutex (restored t m s) m = mutex s m) as Emm by (unfold mutex; by rewrite Em).
    eapply (inv_handover (restored t m s) s' t h r m); [done|by rewrite Eb|by rewrite Emm|by rewrite Emm| |done].
    unfold waiting_on. by rewrite Eq.
Qed.

(** ** Returning from [rt_mutex_take] *)

(** [c]: the mutex has been handed over, and is held now. *)
Lemma inv_returned s t m (c : bool) d' :
  inv s -> bl s t = Some m -> stat (thr s t) = RT_THREAD_READY -> c = handed s m t ->
  inv (mk_sys (core s) (<[t := None]> (bl s)) d' (if c then add_held t m 1 (held s) else held s)).
Proof.
  intros Hs Hb Hr Hc. set (s' := mk_sys _ _ _ _). destruct (inv_mutex _ Hs m) as [Hfl Hown Hheld Hhand].
  assert (handed s' m t = false) as Ht by (apply handed_not; cbn; by rewrite fn_lookup_insert).
  assert (forall u m', u <> t -> handed s' m' u = handed s m' u) as Hu.
  { intros u m' Hne. apply handed_same; [|done|done]. cbn. by rewrite fn_lookup_insert_ne. }
  assert (forall u m', u <> t \/ m' <> m -> held s' u m' = held s u m') as Hh.
  { intros u m' Hne. cbn [held s']. destruct c; [by apply add_held_other|done]. }
  assert (held s' t m = held s t m + Z.b2z c) as Hht.
  { cbn [held s']. destruct c; [by rewrite add_held_same|cbn; lia]. }
  apply (inv_step s _ m); [done|by apply waits_return; [apply Hs|]|..].
  - intros m' Hne. split; [done|]. split; [done|]. intros u. split; [apply Hh; by right|].
    destruct (decide (u = t)) as [->|Hut]; [|by apply Hu]. rewrite !handed_not; [done|congruence|].
    cbn. by rewrite fn_lookup_insert.
  - change (mutex s' m) with (mutex s m). change (waiting_on s' m) with (waiting_on s m). split; [done|..].
    + destruct (owner (mutex s m)) as [o|]; [|done]. destruct Hown as (H1 & H2 & H3 & H4). split; [done|]. split; [done|]. split; [done|].
      destruct (decide (o = t)) as [->|Hot]; [rewrite Ht, Hht, Hc; cbn [Z.b2z]; lia|]. rewrite Hu, Hh by auto. done.
    + intros u. destruct (Hheld u) as [Hp H0]. destruct (decide (u = t)) as [->|Hut]; [|rewrite Hh by auto; done].
      rewrite Hht. split; [destruct c; cbn [Z.b2z]; lia|]. intros Ho. rewrite H0 by done. destruct c; [|done].
      exfalso. by apply Ho, Hhand.
    + intros u Hg. destruct (decide (u = t)) as [->|Hut]; [congruence|]. rewrite Hu in Hg by done. by apply Hhand.
Qed.

Lemma mx_run_good s t : inv s -> enabled (ARun t) s -> good (mutex_step (ARun t) s).
Proof.
  intros Hs [Hb Hr]. cbn [mutex_step]. destruct (bl s t) as [m|] eqn:Eb; [|done].
  unfold mutex_take_resumed, thread_of. cbv [bind gets]. change (tcb (krn (core s)) t) with (thr s t).
  assert (handed s m t = (error (thr s t) =? RT_EOK)) as Hg.
  { unfold handed. by rewrite Eb, Hr, !bool_decide_eq_true_2. }
  destruct (Z.eqb_spec (error (thr s t)) RT_EOK) as [E|E]; cbn [negb]; eexists; (split; [reflexivity|]).
  - by apply (inv_returned s t m true).
  - rewrite (proj2 (Z.eqb_neq _ _) E). by apply (inv_returned s t m false).
Qed.

(** ** Threads that leave a list with an error *)

Lemma mx_inv_cancel s k' h m d' :
  inv s -> h ∈ waiting_on s m -> waits_ok k' (bl s) -> error (tcb k' h) <> RT_EOK ->
  (forall u, u <> h -> tcb k' u = thr s u) -> (forall q, waitq k' q = filter (fun u => u <> h) (waiting_on s q)) ->
  inv (mk_sys (mk_xsys k' (mtx (core s))) (bl s) d' (held s)).
Proof.
  intros Hs Hin Hw He Hu Hq. pose proof (inv_waits _ Hs) as Hw0. set (s' := mk_sys _ _ _ _).
  assert (forall m' u, handed s' m' u = handed s m' u) as Hg.
  { intros m' u. destruct (decide (u = h)) as [->|Hne].
    - rewrite (handed_suspended s) by (by apply (wait_in _ _ Hw0 _ m)). unfold handed. apply andb_false_intro2.
      by apply Z.eqb_neq.
    - apply handed_same; [done|..]; change (thr s' u) with (tcb k' u); by rewrite Hu. }
  apply (inv_step s _ m); [done|done|..].
  - intros m' Hne. split; [done|]. split; [|done]. change (waiting_on s' m') with (waitq k' m'). rewrite Hq.
    by apply (waitq_other _ _ Hw0 m).
  - destruct (inv_mutex _ Hs m) as [Hfl Hown Hheld Hhand]. change (mutex s' m) with (mutex s m).
    change (waiting_on s' m) with (waitq k' m). rewrite Hq. apply (mutex_ok_ext _ _ (fun t => held s t m) (handed s m)); [done|done|].
    split; [done| |done|done]. destruct (owner (mutex s m)) as [o|].
    + destruct Hown as (H1 & H2 & H3 & H4). split; [done|]. split; [done|]. split; [|done]. by intros [_ ?]%list_elem_of_filter.
    + destruct Hown as (_ & _ & E). rewrite E in Hin. by apply not_elem_of_nil in Hin.
Qed.

Lemma mutex_overtaken s a : overtaken a s -> mutex_step a s = None.
Proof.
  destruct a; try done. cbn [overtaken mutex_step]. unfold waiting_on, resume_all_round. intros E. cbv [bind gets].
  change (krn (core s)) with (x_krn (core s)). by rewrite E.
Qed.

Lemma mutex_good s a : inv s -> enabled a s -> ~ overtaken a s -> good (mutex_step a s).
Proof.
  intros Hs Ha Hq. pose proof (inv_waits _ Hs) as Hw. destruct a as [t m time|t m|t|t|t p|t m|t m|t m|].
  - by apply mx_take_good.
  - by apply mx_release_good.
  - by apply mx_run_good.
  - destruct Ha as [Hst _]. destruct (waits_blocked _ _ Hw t Hst) as (m & _ & Hin). cbn [mutex_step].
    rewrite expire_thread_spec by done. eexists. split; [reflexivity|]. apply (mx_inv_cancel s _ t m); try done.
    + by apply waits_timed_out.
    + cbn [xsys_kernel krn]. by rewrite tcb_timed_out, decide_True.
    + intros u Hu. cbn [xsys_kernel krn]. by rewrite tcb_timed_out, decide_False.
  - eexists. split; [reflexivity|]. exact (inv_prio s t p Hs).
  - eexists. split; [reflexivity|]. by apply (inv_same s).
  - cbn [mutex_step]. unfold resume_all_test, mutex_object_detach, get_mutex, set_mutex. cbv [bind gets ret modify].
    destruct (waitq (krn (core s)) m) as [|h r]; (eexists; split; [reflexivity|]); [|by apply (inv_same s)].
    apply (inv_step s _ m); [done|done|..].
    + intros m' Hne. split; [unfold mutex; cbn; by rewrite fn_lookup_insert_ne|]. done.
    + unfold mutex. cbn [core put_mutex mtx]. rewrite fn_lookup_insert. destruct (inv_mutex _ Hs m). by split.
  - cbn [overtaken] in Hq. cbn [mutex_step]. unfold resume_all_round. cbv [bind gets].
    change (waitq (krn (core s)) m) with (waiting_on s m). destruct (waiting_on s m) as [|h r] eqn:Eq; [done|].
    assert (h ∈ waiting_on s m) as Hin by (rewrite Eq; left).
    assert (stat (tcb (krn (core s)) h) = RT_THREAD_SUSPEND) as Hst by (by apply (waits_suspended _ _ Hw m)).
    rewrite resume_with_error_spec by done. eexists. split; [reflexivity|]. apply (mx_inv_cancel s _ h m); try done.
    + by apply waits_cancelled.
    + cbn [xsys_kernel krn]. by rewrite tcb_cancelled, decide_True.
    + intros u Hu. cbn [xsys_kernel krn]. by rewrite tcb_cancelled, decide_False.
  - eexists. split; [reflexivity|]. apply (inv_same s); try done. by split; apply Hw.
Qed.

Lemma mx_reach_inv ok s0 s : reach ok s0 s -> inv s.
Proof.
  induction 1 as [Hi|s a s' _ IH _ Ha E]; [by apply mx_initial_inv|].
  destruct (decide (overtaken a s)) as [Ho|Ho]; [by rewrite mutex_overtaken in E|].
  destruct (mutex_good s a IH Ha Ho) as (s'' & E' & Hi). congruence.
Qed.


(** ** An example *)

(** Two mutexes with the same flag; thread [t] has the priority [p t]. *)
Definition demo_start (f : Z) (p : tid -> Z) : sys :=
  mk_sys (mk_xsys (mk_kernel 0 (fun t => mk_thread (p t) 0 RT_THREAD_READY None) (fun _ => []))
            (fun _ => mk_mutex true f 1 0xff 0 None)) (fun _ => None) (fun _ => None) (fun _ _ => 0).

Definition run_all (l : list action) (s : sys) : option sys :=
  foldl (fun r a => match r with Some s => mutex_step a s | None => None end) (Some s) l.

Lemma mx_demo_initial f p : ipc_flag f -> initial (demo_start f p).
Proof. intros Hf. split; [intros m; by exists f|]. done. Qed.


End MutexSystem.
