(* ===== verification/MutexPriority.v ===== *)
(** * Priority inheritance

    With one mutex whose waiting threads are ordered by priority, and as long as
    nothing else changes priorities, the owner of the mutex runs at least at the
    priority of every thread that waits for it, and a thread that does not own it
    runs at its own priority (Mutex.v, MutexSystem.v).  Both conditions are
    needed: with RT_IPC_FLAG_FIFO, or with a second mutex, a waiting thread can be
    left behind an owner of a lower priority. *)

From Stdlib Require Import ZArith Lia.
From stdpp Require Import prelude functions list.
From S2P Require Import Prelude Kernel KernelSpec Mutex MutexSystem.
Import Mutex MutexSystem.
Open Scope Z_scope.
Open Scope c_scope.

Module MutexPriority.

Definition prio (s : sys) (t : tid) : Z := current_priority (thr s t).

(** Every action but a change of priority, all on the mutex [m]. *)
Definition only (m : mid) (a : action) : Prop :=
  match a with
  | ATake _ m' _ | ARelease _ m' | ADetach _ m' | ATest _ m' | ARound _ m' => m' = m
  | APriority _ _ => False
  | ARun _ | ATimeout _ | ATick => True
  end.

(** ** The invariant *)

(** [base]: the priorities without inheritance. *)
Record inherits (base : tid -> Z) (m : mid) (s : sys) : Prop := {
  inh_flag : flag (mutex s m) = RT_IPC_FLAG_PRIO;
  inh_other t : owner (mutex s m) <> Some t -> prio s t = base t;
  inh_owner o : owner (mutex s m) = Some o ->
    original_priority (mutex s m) = base o /\ prio s o <= base o /\ forall u, u ∈ waiting_on s m -> prio s o <= base u;
  inh_sorted : prio_sorted base (waiting_on s m)
}.

Lemma prio_sorted_filter p (P : tid -> Prop) `{!forall t, Decision (P t)} l : prio_sorted p l -> prio_sorted p (filter P l).
Proof.
  induction l as [|t l IH]; [done|]. cbn [prio_sorted]. intros [Ht Hl]. destruct (decide (P t)) as [Hp|Hp].
  - rewrite filter_cons_True by done. split; [|auto]. intros u [_ ?]%list_elem_of_filter. auto.
  - rewrite filter_cons_False by done. auto.
Qed.

Lemma insert_prio_local p p' t l :
  p t = p' t -> (forall u, u ∈ l -> p u = p' u) -> insert_prio p t l = insert_prio p' t l.
Proof.
  intros Et Eu. induction l as [|u l IH]; cbn [insert_prio]; [done|]. rewrite Et, (Eu u) by left.
  rewrite IH; [done|]. intros v Hv. apply Eu. by right.
Qed.

(** Owner, priorities and saved priority as before, some threads less that wait. *)
Lemma inherits_frame base m s s' :
  inherits base m s -> flag (mutex s' m) = flag (mutex s m) -> owner (mutex s' m) = owner (mutex s m) ->
  original_priority (mutex s' m) = original_priority (mutex s m) -> (forall t, prio s' t = prio s t) ->
  (waiting_on s' m = waiting_on s m \/ exists h, waiting_on s' m = filter (fun u => u <> h) (waiting_on s m)) ->
  inherits base m s'.
Proof.
  intros [Hf Ht Ho Hs] Ef Eo Ep Epr Hq.
  assert (forall u, u ∈ waiting_on s' m -> u ∈ waiting_on s m) as Hsub.
  { intros u. destruct Hq as [->|[h ->]]; [done|]. by intros [_ ?]%list_elem_of_filter. }
  split; rewrite ?Ef, ?Eo, ?Ep; [done|..].
  - intros t Hne. rewrite Epr. auto.
  - intros o E. rewrite Epr. destruct (Ho o E) as (? & ? & Hw). split; [done|]. split; [done|]. auto.
  - destruct Hq as [->|[h ->]]; [done|by apply prio_sorted_filter].
Qed.

Lemma prio_clear t e s u : prio (clear_error t e s) u = prio s u.
Proof. unfold prio, thr, clear_error. cbn [core x_krn]. rewrite tcb_alter. case_decide; by subst. Qed.

Lemma prio_changed t p s u : prio (prio_change t p s) u = if decide (u = t) then p else prio s u.
Proof. unfold prio, thr, prio_change. cbn [core x_krn]. rewrite tcb_alter. case_decide; by subst. Qed.

Lemma inherits_clear base m t e s : inherits base m s -> inherits base m (clear_error t e s).
Proof. intros Hs. apply (inherits_frame base m s); try done; [apply prio_clear|by left]. Qed.

Lemma took_prio t m d x s s' u : took t m d x s s' -> prio s' u = prio s u.
Proof. intros [Ek _ _ _ _]. unfold prio, thr. by rewrite Ek. Qed.

(** ** Taking *)

(** The owner is raised to the priority of the thread that has to wait. *)
Lemma inherits_blocked base m t time s s1 o :
  inherits base m s -> inv s -> owner (mutex s m) = Some o -> o <> t ->
  mutex s1 m = mutex s m -> waiting_on s1 m = waiting_on s m ->
  (forall u, prio s1 u = if decide (u = o) then Z.min (prio s o) (prio s t) else prio s u) ->
  inherits base m (blocked t m (waiting m t (flag (mutex s m)) time (x_krn (core s1))) s1).
Proof.
  intros [Hf Ht Ho Hso] Hs Eo Hne Em Eq Ep. set (s' := blocked _ _ _ _).
  destruct (inv_mutex _ Hs m) as [_ Hown _ _]. rewrite Eo in Hown. destruct Hown as (_ & _ & Hoq & _).
  destruct (Ho o Eo) as (Eor & Hle & Hw).
  assert (forall u, u <> o -> prio s1 u = base u) as Hb.
  { intros u Hu. rewrite Ep, decide_False by done. apply Ht. congruence. }
  assert (forall u, prio s' u = prio s1 u) as Ep'.
  { intros u. unfold prio, thr, s', blocked. cbn [core x_krn]. destruct (decide (u = t)) as [->|Hu];
      [by rewrite tcb_waiting_self|by rewrite tcb_waiting_ne]. }
  assert (waiting_on s' m = insert_prio base t (waiting_on s m)) as Eq'.
  { unfold waiting_on at 1, s', blocked. cbn [core x_krn]. rewrite waitq_waiting, decide_True by done. rewrite Hf.
    change (waitq (x_krn (core s1)) m) with (waiting_on s1 m). rewrite Eq. apply insert_prio_local; [by apply Hb|].
    intros u Hu. apply Hb. congruence. }
  assert (prio s t = base t) as Etb by (apply Ht; congruence).
  change (mutex s' m) with (mutex s1 m) in *. split; change (mutex s' m) with (mutex s1 m); rewrite ?Em; [done|..].
  - intros u Hu. rewrite Ep', Hb; [done|]. congruence.
  - intros o' Eo'. assert (o' = o) as -> by congruence. split; [done|]. rewrite Ep', Ep, decide_True by done.
    split; [lia|]. intros u. rewrite Eq', elem_of_insert_prio. intros [->|Hu]; [lia|]. specialize (Hw u Hu). lia.
  - rewrite Eq'. by apply insert_prio_sorted.
Qed.

Lemma take_inherits base m t time s s' :
  inherits base m s -> inv s -> enabled (ATake t m time) s -> mutex_step (ATake t m time) s = Some s' -> inherits base m s'.
Proof.
  intros Hi Hs Ha E. destruct (take_cases s t m time Hs Ha) as (s'' & E' & Hc). rewrite E in E'. injection E' as <-.
  cbv zeta in Hc. pose proof (inherits_clear base m t RT_EOK s Hi) as H0.
  destruct Hc as [(Eo & Hh & Hk)|[(Eo & ->)|[(Eo & Hk)|[(Ho & Ho' & ->)|(o & Eo & Hne & ->)]]]].
  - pose proof Hk as [_ Em _ _ _]. apply (inherits_frame base m _ _ H0); rewrite ?Em; try done.
    + intros u. by eapply took_prio.
    + left. by eapply took_waiting.
  - done.
  - pose proof Hk as [_ Em _ _ _]. destruct (inv_mutex _ Hs m) as [_ Hown _ _]. rewrite Eo in Hown. destruct Hown as (_ & _ & Eq).
    destruct Hi as [Hf Hother _ _].
    assert (waiting_on s' m = []) as Eq' by (rewrite (took_waiting _ _ _ _ _ _ m Hk); exact Eq).
    assert (forall u, prio s' u = base u) as Ep.
    { intros u. rewrite (took_prio _ _ _ _ _ _ u Hk), prio_clear. apply Hother. by rewrite Eo. }
    split; rewrite ?Em, ?Eq'; cbn [flag owner original_priority]; try done.
    intros o [= <-]. rewrite Ep. split; [apply Hother; by rewrite Eo|]. split; [lia|]. by intros u ?%not_elem_of_nil.
  - by apply inherits_clear.
  - set (s1 := if current_priority (thr s t) <? current_priority (thr s o)
               then prio_change o (current_priority (thr s t)) (clear_error t RT_EOK s) else clear_error t RT_EOK s).
    replace (waiting m t _ time _) with (waiting m t (flag (mutex s m)) time (x_krn (core s1))) by (unfold s1; by destruct (_ <? _)).
    apply (inherits_blocked base m t time s s1 o); try done; try (unfold s1; by destruct (_ <? _)).
    intros u. unfold s1. fold (prio s t). fold (prio s o). destruct (Z.ltb_spec (prio s t) (prio s o)).
    + rewrite prio_changed, prio_clear. case_decide; [lia|done].
    + rewrite prio_clear. case_decide; [subst; lia|done].
Qed.

(** ** Releasing *)

Lemma restored_prio base m t s u :
  inherits base m s -> owner (mutex s m) = Some t -> prio (restored t m s) u = base u.
Proof.
  intros [_ Hother Hown _] Eo. destruct (Hown t Eo) as (Er & _). unfold restored. fold (prio s t). rewrite Er.
  destruct (Z.eqb_spec (base t) (prio s t)) as [E|E].
  - destruct (decide (u = t)) as [->|Hu]; [done|]. apply Hother. congruence.
  - rewrite prio_changed. case_decide; [by subst|]. apply Hother. congruence.
Qed.

Lemma release_inherits base m t s s' :
  inherits base m s -> inv s -> enabled (ARelease t m) s -> mutex_step (ARelease t m) s = Some s' -> inherits base m s'.
Proof.
  intros Hi Hs Ha E. destruct (mx_release_cases s t m Hs Ha) as (s'' & E' & Hc). rewrite E in E'. injection E' as <-. cbv zeta in Hc.
  destruct (restored_same t m s) as (Em1 & Eb1 & Eh1 & Eq1). pose proof (inh_flag _ _ _ Hi) as Hf.
  destruct Hc as [(Eo & ->)|[(Eo & Hh & Hk)|[(Eo & Hh & Hq & Hk)|(h & r & Eo & Hh & Hq & Hk)]]].
  - by apply inherits_clear.
  - pose proof Hk as [_ Em _ _ _]. apply (inherits_frame base m _ _ Hi); rewrite ?Em; try done.
    + intros u. by eapply took_prio.
    + left. by eapply took_waiting.
  - pose proof Hk as [_ Em _ _ _].
    assert (waiting_on s' m = []) as Eq'.
    { rewrite (took_waiting _ _ _ _ _ _ m Hk). unfold waiting_on. by rewrite Eq1. }
    split; rewrite ?Em, ?Eq'; cbn [flag owner original_priority]; try done.
    intros u _. rewrite (took_prio _ _ _ _ _ _ u Hk). by apply restored_prio.
  - destruct Hk as [Ek Em _ _ _]. pose proof (inv_waits _ Hs) as Hw.
    assert (waiting_on s' m = r) as Eq'.
    { unfold waiting_on. rewrite Ek, waitq_resumed, Eq1. by apply (waitq_head _ _ Hw m). }
    assert (forall u, prio s' u = base u) as Ep.
    { intros u. rewrite <- (restored_prio base m t s u) by done. unfold prio, thr. rewrite Ek. unfold resumed. rewrite tcb_alter.
      cbn [unlink tcb]. case_decide; by subst. }
    pose proof (inh_sorted _ _ _ Hi) as Hso. rewrite Hq in Hso. destruct Hso as [Hle Hr].
    split; rewrite ?Em, ?Eq'; cbn [flag owner original_priority]; try done.
    + change (flag (mutex (restored t m s) m) = RT_IPC_FLAG_PRIO). unfold mutex. by rewrite Em1.
    + intros o [= <-]. rewrite Ep. split; [|by split]. by apply restored_prio.
Qed.

(** ** All steps *)

Lemma step_inherits base m a s s' :
  inherits base m s -> inv s -> only m a -> enabled a s -> mutex_step a s = Some s' -> inherits base m s'.
Proof.
  intros Hi Hs Hok Ha E. pose proof (inv_waits _ Hs) as Hw. destruct a as [t m' time|t m'|t|t|t p|t m'|t m'|t m'|]; cbn [only] in Hok; subst.
  - by eapply take_inherits.
  - by eapply release_inherits.
  - cbn [mutex_step] in E. destruct (bl s t); [|done]. unfold mutex_take_resumed, thread_of in E. cbv [bind gets] in E.
    destruct (negb _) in E; injection E as <-; apply (inherits_frame base m _ _ Hi); try done; by left.
  - destruct Ha as [Hst _]. cbn [mutex_step] in E. rewrite expire_thread_spec in E by done. injection E as <-.
    apply (inherits_frame base m _ _ Hi); try done; [|right; by exists t].
    intros u. unfold prio, thr. cbn. change (current_priority (tcb (timed_out t (x_krn (core s))) u) = prio s u).
    rewrite tcb_timed_out. case_decide; by subst.
  - done.
  - injection E as <-. apply (inherits_frame base m _ _ Hi); try done. by left.
  - cbn [mutex_step] in E. unfold resume_all_test, mutex_object_detach, get_mutex, set_mutex in E. cbv [bind gets ret modify] in E.
    destruct (waitq (krn (core s)) m); injection E as <-; apply (inherits_frame base m _ _ Hi); try done; try (by left);
      unfold mutex; cbn; by rewrite fn_lookup_insert.
  - cbn [mutex_step] in E. unfold resume_all_round in E. cbv [bind gets] in E.
    change (waitq (krn (core s)) m) with (waiting_on s m) in E. destruct (waiting_on s m) as [|h r] eqn:Eq; [done|].
    assert (stat (tcb (krn (core s)) h) = RT_THREAD_SUSPEND) as Hst.
    { apply (waits_suspended _ _ Hw m). fold (waiting_on s m). rewrite Eq. left. }
    rewrite resume_with_error_spec in E by done. injection E as <-.
    apply (inherits_frame base m _ _ Hi); try done; [|right; by exists h].
    intros u. change (current_priority (tcb (cancelled (- RT_ERROR) h (x_krn (core s))) u) = prio s u).
    rewrite tcb_cancelled. case_decide; by subst.
  - injection E as <-. apply (inherits_frame base m _ _ Hi); try done. by left.
Qed.

Lemma reach_inherits m s0 s :
  flag (mutex s0 m) = RT_IPC_FLAG_PRIO -> reach (only m) s0 s -> inherits (prio s0) m s.
Proof.
  intros Hf. induction 1 as [Hi|s a s' Hr IH Hok Ha E].
  - destruct Hi as (Hm & Hq & _). destruct (Hm m) as (f & _ & Em). split; rewrite ?Em, ?Hq; try done. by rewrite <- Em.
  - eapply step_inherits; [done| |done|done|done]. by eapply mx_reach_inv.
Qed.

(** C20: With one mutex in use whose waiting threads are ordered by priority, and
    no other change of priorities, priority inheritance works under every
    schedule: the owner of the mutex has at least the priority of every thread
    that waits for it and never less than its own (a smaller number is a higher
    priority); the priority saved in the mutex is the owner's own; a thread that
    does not own the mutex has the priority that it started with, in particular
    as soon as it has released it; and the waiting threads are in the order of
    their priorities, so that the mutex goes to the highest one. *)
Theorem owner_inherits_priority m s0 s :
  flag (mutex s0 m) = RT_IPC_FLAG_PRIO -> reach (only m) s0 s ->
  (forall o, owner (mutex s m) = Some o ->
     original_priority (mutex s m) = prio s0 o /\ prio s o <= prio s0 o /\
     forall u, u ∈ waiting_on s m -> prio s o <= prio s u) /\
  (forall t, owner (mutex s m) <> Some t -> prio s t = prio s0 t) /\
  prio_sorted (prio s) (waiting_on s m).
Proof.
  intros Hf Hr. pose proof (reach_inherits m s0 s Hf Hr) as [_ Ht Ho Hso].
  destruct (inv_mutex _ (mx_reach_inv _ _ _ Hr) m) as [_ Hown _ _].
  assert (forall u, u ∈ waiting_on s m -> prio s u = prio s0 u) as Hq.
  { intros u Hu. apply Ht. intros E. rewrite E in Hown. by destruct Hown as (_ & _ & ? & _). }
  split; [|split; [done|]].
  - intros o Eo. destruct (Ho o Eo) as (? & ? & Hw). split; [done|]. split; [done|]. intros u Hu. rewrite (Hq u Hu). auto.
  - clear -Hso Hq. induction (waiting_on s m) as [|t l IH]; [done|]. cbn [prio_sorted] in *. destruct Hso as [H1 H2]. split.
    + intros u Hu. rewrite (Hq t) by left. rewrite (Hq u) by (by right). by apply H1.
    + apply IH; [done|]. intros u Hu. apply Hq. by right.
Qed.

(** Thread 0 of priority 20 holds the mutex, thread 1 of priority 5 waits. *)
Definition demo_prio (t : tid) : Z := match t with 0%nat => 20 | 1%nat => 15 | _ => 5 end.

Lemma owner_inherits_priority_witness :
  exists s1 s2,
    mutex_step (ATake 0 0 0) (demo_start RT_IPC_FLAG_PRIO demo_prio) = Some s1 /\ mutex_step (ATake 2 0 100) s1 = Some s2 /\
    owner (mutex s2 0) = Some 0%nat /\ waiting_on s2 0 = [2%nat] /\ prio s2 0%nat <= prio s2 2%nat.
Proof.
  destruct (mutex_step (ATake 0 0 0) (demo_start RT_IPC_FLAG_PRIO demo_prio)) as [s1|] eqn:E1; [|by vm_compute in E1].
  destruct (mutex_step (ATake 2 0 100) s1) as [s2|] eqn:E2; [|by vm_compute in E1; injection E1 as <-; vm_compute in E2].
  assert (owner (mutex s2 0) = Some 0%nat /\ waiting_on s2 0 = [2%nat]) as [Eo Eq].
  { vm_compute in E1. injection E1 as <-. vm_compute in E2. by injection E2 as <-. }
  exists s1, s2. split; [done|]. split; [done|]. split; [done|]. split; [done|].
  destruct (owner_inherits_priority 0 (demo_start RT_IPC_FLAG_PRIO demo_prio) s2) as [Ho _]; [done| |].
  - apply (reach_step _ _ s1 (ATake 2 0 100)); [|done|by vm_compute in E1; injection E1 as <-|done].
    apply (reach_step _ _ (demo_start RT_IPC_FLAG_PRIO demo_prio) (ATake 0 0 0)); [|done|done|done].
    constructor. apply mx_demo_initial. by right.
  - apply (Ho 0%nat Eo). rewrite Eq. left.
Defined.

(** ** Where inheritance is lost *)

Lemma demo_run l s0 (P : sys -> Prop) :
  match run_all l s0 with Some s => P s | None => False end -> exists s, run_all l s0 = Some s /\ P s.
Proof. destruct (run_all l s0) as [s|]; [eauto|done]. Qed.

(** With RT_IPC_FLAG_FIFO, the flag of the mutex of every I2C bus, the mutex goes
    to the thread that waits longest, which does not inherit from the others:
    thread 2 of priority 5 waits for thread 1 of priority 15. *)
Theorem fifo_handover_loses_inheritance :
  exists s, run_all [ATake 0 0 0; ATake 1 0 (-1); ATake 2 0 (-1); ARelease 0 0] (demo_start RT_IPC_FLAG_FIFO demo_prio) = Some s /\
    owner (mutex s 0) = Some 1%nat /\ waiting_on s 0 = [2%nat] /\ prio s 2%nat < prio s 1%nat.
Proof. by apply demo_run; vm_compute. Qed.

(** With a second mutex, releasing that one gives the owner its own priority back
    while a thread of a higher priority still waits for the first. *)
Theorem second_mutex_loses_inheritance :
  exists s, run_all [ATake 0 0 0; ATake 0 1 0; ATake 2 0 (-1); ARelease 0 1] (demo_start RT_IPC_FLAG_PRIO demo_prio) = Some s /\
    owner (mutex s 0) = Some 0%nat /\ waiting_on s 0 = [2%nat] /\ prio s 2%nat < prio s 0%nat.
Proof. by apply demo_run; vm_compute. Qed.

End MutexPriority.
