(* ===== verification/Event.v ===== *)
(** * Events

    The event object of src/rt-thread/src/ipc.c: a set of 32 flags.  A thread
    waits until all (RT_EVENT_FLAG_AND) or some (RT_EVENT_FLAG_OR) of the flags
    that it asks for are set, and takes them away with RT_EVENT_FLAG_CLEAR; a send
    resumes every waiting thread that is satisfied.  [rt_event_recv] is cut where
    it calls [rt_schedule]. *)

From Stdlib Require Import ZArith Lia.
From stdpp Require Import prelude functions list.
From S2P Require Import Prelude Kernel.
Open Scope Z_scope.
Open Scope c_scope.

Module Event.

Definition RT_EVENT_FLAG_AND : Z := 0x01.
Definition RT_EVENT_FLAG_OR : Z := 0x02.
Definition RT_EVENT_FLAG_CLEAR : Z := 0x04.
Definition RT_EINVAL : Z := 10.
Definition RT_IPC_CMD_RESET : Z := 0x01.

(** [event->parent.suspend_thread] *)
Definition suspend_thread : qid := 0%nat.

(** [is_event] is [rt_object_get_type(...) == RT_Object_Class_Event]. *)
Record rt_event := mk_event {
  is_event : bool;
  flag : Z;
  set : Z
}.

(** [event_set] and [event_info] are fields of [struct rt_thread]. *)
Record esys := mk_esys {
  e_krn : kernel;
  ev : rt_event;
  event_set : tid -> Z;
  event_info : tid -> Z
}.

#[export] Instance esys_kernel : HasKernel esys := {|
  krn := e_krn;
  put_krn k s := mk_esys k s.(ev) s.(event_set) s.(event_info)
|}.

Abbreviation E := (M esys).

Definition put_set (v : Z) : E unit :=
  modify (fun s => mk_esys s.(e_krn) (mk_event s.(ev).(is_event) s.(ev).(flag) v) s.(event_set) s.(event_info)).
Definition put_event_set (t : tid) (v : Z) : E unit :=
  modify (fun s => mk_esys s.(e_krn) s.(ev) (<[t := v]> s.(event_set)) s.(event_info)).
Definition put_event_info (t : tid) (v : Z) : E unit :=
  modify (fun s => mk_esys s.(e_krn) s.(ev) s.(event_set) (<[t := v]> s.(event_info))).

Definition check_type : E unit := x <- gets ev ;; if x.(is_event) then ret tt else undefined.

(** [a & ~b] *)
Definition cleared (a b : Z) : Z := Z.land a (Z.lnot b).

Definition rt_event_init (flag_ : Z) : E Z :=
  modify (fun s => mk_esys (mk_kernel s.(e_krn).(rt_tick) s.(e_krn).(tcb) (<[suspend_thread := []]> s.(e_krn).(waitq)))
                     (mk_event true flag_ 0) s.(event_set) s.(event_info)) ;;;
  ret RT_EOK.

(** [rt_object_detach], after the waiting threads have been resumed
    ([resume_all_test] and [resume_all_round] on [suspend_thread]). *)
Definition event_object_detach : E unit :=
  modify (fun s => mk_esys s.(e_krn) (mk_event false s.(ev).(flag) s.(ev).(set)) s.(event_set) s.(event_info)).

(** The end of the loop's body for a thread that is satisfied. *)
Definition event_deliver (t : tid) : E unit :=
  s <- gets (fun s => s) ;;
  (if has (s.(event_info) t) RT_EVENT_FLAG_CLEAR
   then put_set (cleared s.(ev).(set) (s.(event_set) t)) else ret tt) ;;;
  rt_thread_resume t ;;;
  ret tt.

(** The loop over the waiting threads; [l] are the ones from [n] to the end of
    the list, and resuming a thread leaves the nodes after it linked. *)
Fixpoint send_from (l : list tid) : E Z :=
  match l with
  | [] => ret RT_EOK
  | t :: l =>
      s <- gets (fun s => s) ;;
      let got := Z.land (s.(event_set) t) s.(ev).(set) in
      if has (s.(event_info) t) RT_EVENT_FLAG_AND then
        (if got =? s.(event_set) t then event_deliver t else ret tt) ;;;
        send_from l
      else if has (s.(event_info) t) RT_EVENT_FLAG_OR then
        (if negb (got =? 0) then put_event_set t got ;;; event_deliver t else ret tt) ;;;
        send_from l
      else ret (- RT_EINVAL)
  end.

Definition rt_event_send (set_ : Z) : E Z :=
  check_type ;;;
  if set_ =? 0 then ret (- RT_ERROR)
  else
    x <- gets ev ;;
    put_set (Z.lor x.(set) set_) ;;;
    l <- gets (fun s => waitq (krn s) suspend_thread) ;;
    send_from l.

(** With what is written to [recved]. *)
Inductive outcome := Done (code : Z) (recved : option Z) | Blocked.

Definition rt_event_recv (t : tid) (set_ option_ timeout : Z) : E outcome :=
  check_type ;;;
  if set_ =? 0 then ret (Done (- RT_ERROR) None)
  else
    set_error t RT_EOK ;;;
    x <- gets ev ;;
    status <- (if has option_ RT_EVENT_FLAG_AND then ret (Z.land x.(set) set_ =? set_)
               else if has option_ RT_EVENT_FLAG_OR then ret (negb (Z.land x.(set) set_ =? 0))
               else undefined) ;;
    if (status : bool) then
      put_event_set t (Z.land x.(set) set_) ;;;
      put_event_info t option_ ;;;
      (if has option_ RT_EVENT_FLAG_CLEAR then put_set (cleared x.(set) set_) else ret tt) ;;;
      th <- thread_of t ;;
      ret (Done (error th) (Some (Z.land x.(set) set_)))
    else if timeout =? 0 then
      set_error t (- RT_ETIMEOUT) ;;;
      ret (Done (- RT_ETIMEOUT) None)
    else
      put_event_set t set_ ;;;
      put_event_info t option_ ;;;
      rt_ipc_list_suspend suspend_thread t x.(flag) ;;;
      (if 0 <? timeout then start_timer t timeout else ret tt) ;;;
      ret Blocked.

(** [rt_event_recv] after its call of [rt_schedule]. *)
Definition event_recv_resumed (t : tid) : E (Z * option Z) :=
  th <- thread_of t ;;
  if negb (error th =? RT_EOK) then ret (error th, None)
  else
    es <- gets (fun s => s.(event_set) t) ;;
    ret (error th, Some es).

Definition rt_event_control (cmd : Z) : E Z :=
  check_type ;;;
  if cmd =? RT_IPC_CMD_RESET then
    rt_ipc_list_resume_all suspend_thread ;;;
    put_set 0 ;;;
    ret RT_EOK
  else ret (- RT_ERROR).

End Event.
