(* ===== verification/EventSystem.v ===== *)
(** * Threads sharing an event object

    Any number of threads send and receive events of one object, time out, reset
    and detach it, in any order and under any schedule (Event.v).  A thread is
    given what it asked for, as soon as it is there, and a flag that receivers
    take away is taken by one of them only. *)

From Stdlib Require Import ZArith Lia.
From stdpp Require Import prelude functions list.
From S2P Require Import Prelude Kernel KernelSpec Event.
Import Event.
Open Scope Z_scope.
Open Scope c_scope.

Module EventSystem.

#[export] Instance esys_laws : KernelLaws esys.
Proof. split; [done|done|by intros []]. Qed.

(** ** Steps *)

(** [bl]: the threads in the middle of [rt_event_recv], also listed in [callers],
    with what they asked for in [asked]; [detaching]: those in the middle of
    [rt_event_detach], with the result of the last test.  [got] lists what the
    calls have asked for and received; [sent b]: how often the flag [b] was
    sent. *)
Record sys := mk_sys {
  core : esys;
  bl : tid -> option qid;
  callers : list tid;
  asked : tid -> Z;
  detaching : tid -> option bool;
  got : list (Z * Z * Z);
  sent : Z -> Z
}.

Inductive action :=
| ARecv (t : tid) (set option timeout : Z)
| ASend (set : Z)
| ARun (t : tid)
| ATimeout (t : tid)
| AReset
| ADetach (t : tid)
| ATest (t : tid)
| ARound (t : tid)
| ATick.

Definition thr (s : sys) (t : tid) : rt_thread := tcb (e_krn s.(core)) t.
Definition waiting_now (s : sys) : list tid := waitq (e_krn s.(core)) suspend_thread.
Definition pending (s : sys) : Z := set (ev s.(core)).

Definition event_step (a : action) (s : sys) : option sys :=
  match a with
  | ARecv t set_ option_ timeout =>
      match rt_event_recv t set_ option_ timeout s.(core) with
      | Some (Done c r, k) =>
          Some (mk_sys k s.(bl) s.(callers) s.(asked) s.(detaching)
                  (match r with Some r => (set_, option_, r) :: s.(got) | None => s.(got) end) s.(sent))
      | Some (Blocked, k) =>
          Some (mk_sys k (<[t := Some suspend_thread]> s.(bl)) (t :: s.(callers)) (<[t := set_]> s.(asked))
                  s.(detaching) s.(got) s.(sent))
      | None => None
      end
  | ASend set_ =>
      match rt_event_send set_ s.(core) with
      | Some (c, k) =>
          Some (mk_sys k s.(bl) s.(callers) s.(asked) s.(detaching) s.(got)
                  (fun b => s.(sent) b + Z.b2z (Z.testbit set_ b)))
      | None => None
      end
  | ARun t =>
      match event_recv_resumed t s.(core) with
      | Some (_, r, k) =>
          Some (mk_sys k (<[t := None]> s.(bl)) (filter (fun u => u <> t) s.(callers)) s.(asked) s.(detaching)
                  (match r with Some r => (s.(asked) t, event_info s.(core) t, r) :: s.(got) | None => s.(got) end) s.(sent))
      | None => None
      end
  | ATimeout t =>
      match expire_thread t s.(core) with
      | Some (_, k) => Some (mk_sys k s.(bl) s.(callers) s.(asked) s.(detaching) s.(got) s.(sent))
      | None => None
      end
  | AReset =>
      match rt_event_control RT_IPC_CMD_RESET s.(core) with
      | Some (_, k) => Some (mk_sys k s.(bl) s.(callers) s.(asked) s.(detaching) s.(got) s.(sent))
      | None => None
      end
  | ADetach t => Some (mk_sys s.(core) s.(bl) s.(callers) s.(asked) (<[t := Some true]> s.(detaching)) s.(got) s.(sent))
  | ATest t =>
      match resume_all_test suspend_thread s.(core) with
      | Some (false, k) => Some (mk_sys k s.(bl) s.(callers) s.(asked) (<[t := Some false]> s.(detaching)) s.(got) s.(sent))
      | Some (true, k) =>
          match event_object_detach k with
          | Some (_, k) => Some (mk_sys k s.(bl) s.(callers) s.(asked) (<[t := None]> s.(detaching)) s.(got) s.(sent))
          | None => None
          end
      | None => None
      end
  | ARound t =>
      match resume_all_round suspend_thread s.(core) with
      | Some (_, k) => Some (mk_sys k s.(bl) s.(callers) s.(asked) (<[t := Some true]> s.(detaching)) s.(got) s.(sent))
      | None => None
      end
  | ATick =>
      let c := s.(core) in
      let k := c.(e_krn) in
      Some (mk_sys (mk_esys (mk_kernel (u32 (k.(rt_tick) + 1)) k.(tcb) k.(waitq)) c.(ev) c.(event_set) c.(event_info))
              s.(bl) s.(callers) s.(asked) s.(detaching) s.(got) s.(sent))
  end.

Definition u32_set (v : Z) : Prop := 0 <= v < 2 ^ 32.

(** Calls are made on an object that exists, by threads that are not in the middle of
    another call; a receiver passes one of the two options and a timeout that the
    timer accepts. *)
Definition enabled (a : action) (s : sys) : Prop :=
  match a with
  | ARecv t set_ option_ timeout =>
      s.(bl) t = None /\ s.(detaching) t = None /\ is_event (ev s.(core)) = true /\ u32_set set_ /\
      (has option_ RT_EVENT_FLAG_AND || has option_ RT_EVENT_FLAG_OR = true) /\ - 2 ^ 31 <= timeout < 2 ^ 31 - 1
  | ASend set_ => is_event (ev s.(core)) = true /\ u32_set set_
  | AReset => is_event (ev s.(core)) = true
  | ARun t => s.(bl) t <> None /\ stat (thr s t) = RT_THREAD_READY
  | ATimeout t => stat (thr s t) = RT_THREAD_SUSPEND /\ thread_timer (thr s t) <> None
  | ADetach t => s.(bl) t = None /\ s.(detaching) t = None /\ is_event (ev s.(core)) = true
  | ATest t => s.(detaching) t = Some true
  | ARound t => s.(detaching) t = Some false
  | ATick => True
  end.

(** The body of the loop of a detach finds the list empty that its test has found
    not empty: in between the last waiting thread has timed out, or was resumed by
    someone else. *)
Definition overtaken (a : action) (s : sys) : Prop :=
  match a with ARound _ => waiting_now s = [] | _ => False end.

#[export] Instance overtaken_dec a s : Decision (overtaken a s).
Proof. destruct a; apply _. Defined.

(** After [rt_event_init], with every thread ready. *)
Definition initial (s : sys) : Prop :=
  (exists f, ipc_flag f /\ ev s.(core) = mk_event true f 0) /\
  (forall q, waitq (e_krn s.(core)) q = []) /\ (forall t, stat (thr s t) = RT_THREAD_READY) /\
  (forall t, s.(bl) t = None /\ s.(detaching) t = None) /\ s.(callers) = [] /\ s.(got) = [] /\ (forall b, s.(sent) b = 0).

Inductive reach : sys -> Prop :=
| reach_start s : initial s -> reach s
| reach_step s a s' : reach s -> enabled a s -> event_step a s = Some s' -> reach s'.

(** ** The invariant *)

(** The flags [v] satisfy a thread that asks for [want] with the option [o]. *)
Definition satisfied (o want v : Z) : Prop :=
  if has o RT_EVENT_FLAG_AND then Z.land want v = want else Z.land want v <> 0.

(** What it is given then. *)
Definition answers (want o r : Z) : Prop :=
  if has o RT_EVENT_FLAG_AND then r = want else r <> 0 /\ Z.land want r = r.

(** [t] has been resumed with flags and has not returned yet. *)
Definition has_event (s : sys) (t : tid) : bool :=
  bool_decide (s.(bl) t <> None) && bool_decide (stat (thr s t) = RT_THREAD_READY) && (error (thr s t) =? RT_EOK).

(** How often the flag [b] has been given to a receiver that takes it away: *)
Definition takes (b o r : Z) : Z := Z.b2z (has o RT_EVENT_FLAG_CLEAR && Z.testbit r b).
Definition taken (s : sys) (b : Z) : Z := foldr (fun '(_, o, r) n => takes b o r + n) 0 s.(got).
Definition gives (s : sys) (b : Z) (t : tid) : Z :=
  if has_event s t then takes b (event_info s.(core) t) (event_set s.(core) t) else 0.
Definition total (f : tid -> Z) (l : list tid) : Z := foldr (fun t n => f t + n) 0 l.
Definition on_its_way (s : sys) (b : Z) : Z := total (gives s b) s.(callers).

(** [l]: the waiting threads that the loop of a send has not examined yet. *)
Record inv (l : list tid) (s : sys) : Prop := {
  inv_waits : waits_ok (e_krn s.(core)) s.(bl);
  inv_flag : ipc_flag (flag (ev s.(core)));
  inv_list t : s.(bl) t = None \/ s.(bl) t = Some suspend_thread;
  inv_callers t : t ∈ s.(callers) <-> s.(bl) t <> None;
  inv_nodup : NoDup s.(callers);
  inv_set : u32_set (pending s);
  inv_asked t : s.(bl) t <> None ->
    has (event_info s.(core) t) RT_EVENT_FLAG_AND || has (event_info s.(core) t) RT_EVENT_FLAG_OR = true /\
    (stat (thr s t) = RT_THREAD_SUSPEND -> event_set s.(core) t = s.(asked) t) /\
    (has_event s t = true -> answers (s.(asked) t) (event_info s.(core) t) (event_set s.(core) t));
  inv_unsatisfied t : t ∈ waiting_now s -> t ∉ l -> ~ satisfied (event_info s.(core) t) (event_set s.(core) t) (pending s);
  inv_got : Forall (fun '(a, o, r) => answers a o r) s.(got);
  inv_sent b : 0 <= b -> taken s b + on_its_way s b + Z.b2z (Z.testbit (pending s) b) <= s.(sent) b
}.

(** ** Sets of flags *)

Lemma land_subset a b : Z.land a b = a <-> forall i, 0 <= i -> Z.testbit a i = true -> Z.testbit b i = true.
Proof.
  split.
  - intros E i Hi Ha. rewrite <- E, Z.land_spec in Ha. by apply andb_true_iff in Ha as [_ ?].
  - intros H. apply Z.bits_inj'. intros i Hi. rewrite Z.land_spec. specialize (H i Hi).
    destruct (Z.testbit a i); [by rewrite H|done].
Qed.

Lemma land_mono_zero a v w : Z.land w v = v -> Z.land a w = 0 -> Z.land a v = 0.
Proof. intros <- E. by rewrite Z.land_assoc, E, Z.land_0_l. Qed.

(** Fewer flags satisfy no more threads. *)
Lemma satisfied_mono o want v w : Z.land v w = v -> satisfied o want v -> satisfied o want w.
Proof.
  unfold satisfied. intros Hvw. destruct (has o RT_EVENT_FLAG_AND).
  - intros Hv. rewrite land_subset in *. auto.
  - intros Hv E. apply Hv. apply (land_mono_zero _ v w); [|done]. by rewrite Z.land_comm.
Qed.

Lemma cleared_bit a b i : 0 <= i -> Z.testbit (cleared a b) i = Z.testbit a i && negb (Z.testbit b i).
Proof. intros Hi. unfold cleared. by rewrite Z.land_spec, Z.lnot_spec. Qed.

Lemma cleared_subset a b : Z.land (cleared a b) a = cleared a b.
Proof. rewrite land_subset. intros i Hi. rewrite cleared_bit by done. by intros [? _]%andb_true_iff. Qed.

Lemma u32_set_bits v : 0 <= v -> u32_set v <-> forall i, 32 <= i -> Z.testbit v i = false.
Proof.
  intros Hv. split.
  - intros [_ Hlt] i Hi. destruct (Z.eq_dec v 0) as [->|Hne]; [apply Z.testbit_0_l|].
    apply Z.bits_above_log2; [done|]. assert (Z.log2 v < 32) by (apply Z.log2_lt_pow2; lia). lia.
  - intros H. split; [done|]. destruct (Z.eq_dec v 0) as [->|Hne]; [lia|].
    apply Z.log2_lt_pow2; [lia|]. destruct (Z_lt_le_dec (Z.log2 v) 32) as [|Hge]; [done|].
    pose proof (H (Z.log2 v) Hge) as E. rewrite Z.bit_log2 in E by lia. done.
Qed.

Lemma u32_set_cleared a b : u32_set a -> u32_set (cleared a b).
Proof.
  intros Ha. assert (0 <= cleared a b) as H0 by (apply Z.land_nonneg; left; apply Ha).
  apply (u32_set_bits _ H0). intros i Hi. rewrite cleared_bit by lia.
  by rewrite (proj1 (u32_set_bits a (proj1 Ha)) Ha i Hi).
Qed.

Lemma u32_set_lor a b : u32_set a -> u32_set b -> u32_set (Z.lor a b).
Proof.
  intros Ha Hb. assert (0 <= Z.lor a b) as H0 by (apply Z.lor_nonneg; split; [apply Ha|apply Hb]).
  apply (u32_set_bits _ H0). intros i Hi. rewrite Z.lor_spec.
  by rewrite (proj1 (u32_set_bits a (proj1 Ha)) Ha i Hi), (proj1 (u32_set_bits b (proj1 Hb)) Hb i Hi).
Qed.

Lemma ev_initial_inv s : initial s -> inv [] s.
Proof.
  intros ((f & Hf & Ee) & Hq & Ht & Hb & Hc & Hg & Hs).
  assert (forall t, bl s t = None) as Hbn by apply Hb.
  split; unfold pending, waiting_now; rewrite ?Ee, ?Hc, ?Hg; cbn [flag set]; try done.
  - split.
    + intros t q. rewrite Hq, Hbn. split; [by intros ?%not_elem_of_nil|by intros [? _]].
    + intros q. rewrite Hq. constructor.
    + intros t _. apply Ht.
    + intros t E. pose proof (Ht t) as E'. unfold thr in E'. congruence.
  - intros t. by left.
  - intros t. rewrite Hbn. split; [by intros ?%not_elem_of_nil|done].
  - constructor.
  - intros t. by rewrite Hbn.
  - intros t. rewrite Hq. by intros ?%not_elem_of_nil.
  - intros b Hbb. unfold taken, on_its_way. rewrite Hc, Hg, Hs, Z.testbit_0_l. done.
Qed.

(** ** Sums over the callers *)

Lemma total_ext f g l : (forall t, t ∈ l -> f t = g t) -> total f l = total g l.
Proof.
  induction l as [|t l IH]; [done|]. intros E. cbn. rewrite E by left. f_equal. apply IH. intros u Hu. apply E. by right.
Qed.

Lemma total_remove f l t : NoDup l -> t ∈ l -> total f l = f t + total f (filter (fun u => u <> t) l).
Proof.
  intros Hn Ht. induction l as [|u l IH]; [by apply not_elem_of_nil in Ht|]. apply NoDup_cons in Hn as [Hu Hn].
  destruct (decide (u = t)) as [->|Hne].
  - rewrite filter_cons_False by auto. by rewrite filter_out.
  - rewrite filter_cons_True by done. cbn [total foldr]. apply elem_of_cons in Ht as [?|Ht]; [congruence|].
    fold (total f l). rewrite IH by done. unfold total. lia.
Qed.

Lemma total_one f g l t :
  NoDup l -> t ∈ l -> (forall u, u <> t -> f u = g u) -> total f l = total g l + f t - g t.
Proof.
  intros Hn Ht E. rewrite (total_remove f l t), (total_remove g l t) by done.
  rewrite (total_ext f g (filter _ l)); [lia|]. intros u [Hu _]%list_elem_of_filter. auto.
Qed.

(** ** Frames *)

Definition with_core (c : esys) (s : sys) : sys :=
  mk_sys c s.(bl) s.(callers) s.(asked) s.(detaching) s.(got) s.(sent).

Lemma has_event_same s s' t :
  bl s' t = bl s t -> stat (thr s' t) = stat (thr s t) -> error (thr s' t) = error (thr s t) -> has_event s' t = has_event s t.
Proof. unfold has_event. by intros -> -> ->. Qed.

Lemma has_event_not s t : stat (thr s t) = RT_THREAD_SUSPEND \/ error (thr s t) <> RT_EOK \/ bl s t = None -> has_event s t = false.
Proof.
  unfold has_event. intros [->|[E| ->]].
  - by rewrite andb_false_r.
  - apply andb_false_intro2. by apply Z.eqb_neq.
  - done.
Qed.

Lemma has_event_ready s t : bl s t <> None -> stat (thr s t) = RT_THREAD_READY -> has_event s t = (error (thr s t) =? RT_EOK).
Proof. intros Hb Hr. unfold has_event. by rewrite Hr, !bool_decide_eq_true_2. Qed.

(** Waiting threads are resumed with an error; flags may be dropped. *)
Lemma ev_inv_cancel s k' y v d' :
  inv [] s -> waits_ok k' (bl s) -> u32_set v -> Z.land v (pending s) = v ->
  (forall u, u ∈ waitq k' suspend_thread -> u ∈ waiting_now s) ->
  (forall u, tcb k' u = thr s u \/
     stat (thr s u) = RT_THREAD_SUSPEND /\ stat (tcb k' u) = RT_THREAD_READY /\ error (tcb k' u) <> RT_EOK) ->
  inv [] (mk_sys (mk_esys k' (mk_event y (flag (ev (core s))) v) (event_set (core s)) (event_info (core s)))
            (bl s) (callers s) (asked s) d' (got s) (sent s)).
Proof.
  intros [Hw Hf Hl Hc Hn Hset Ha Hun Hg Hs] Hw' Hv Hsub Hq Hu. set (s' := mk_sys _ _ _ _ _ _ _).
  assert (forall u, has_event s' u = has_event s u) as He.
  { intros u. destruct (Hu u) as [E|(E1 & E2 & E3)].
    - apply has_event_same; [done|..]; change (thr s' u) with (tcb k' u); by rewrite E.
    - rewrite (has_event_not s) by auto. apply has_event_not. right. by left. }
  split; try done.
  - intros t Ht. destruct (Ha t Ht) as (H1 & H2 & H3). split; [done|]. split.
    + intros E. apply H2. destruct (Hu t) as [Et|(_ & E2 & _)]; [by rewrite <- Et|]. change (thr s' t) with (tcb k' t) in E. congruence.
    + by rewrite He.
  - intros t Ht Hnl Hsat. apply (Hun t); [by apply Hq|done|]. by apply (satisfied_mono _ _ v).
  - intros b Hb. specialize (Hs b Hb). change (taken s' b) with (taken s b). change (pending s') with v.
    assert (on_its_way s' b = on_its_way s b) as ->.
    { apply total_ext. intros t _. unfold gives. by rewrite He. }
    assert (Z.b2z (Z.testbit v b) <= Z.b2z (Z.testbit (pending s) b)); [|change (sent s' b) with (sent s b); lia].
    pose proof (proj1 (land_subset v (pending s)) Hsub b Hb) as E. destruct (Z.testbit v b); [by rewrite E|].
    destruct (Z.testbit (pending s) b); cbn; lia.
Qed.

(** ** Sending *)

(** The first thread that the loop has not examined is given the flags [r]. *)
Lemma inv_delivered s l t r v es' :
  inv (t :: l) s -> t ∈ waiting_now s -> Z.land r (pending s) = r ->
  answers (asked s t) (event_info (core s) t) r ->
  v = (if has (event_info (core s) t) RT_EVENT_FLAG_CLEAR then cleared (pending s) r else pending s) ->
  (forall u, es' u = if decide (u = t) then r else event_set (core s) u) ->
  inv l (with_core (mk_esys (resumed t (e_krn (core s))) (mk_event (is_event (ev (core s))) (flag (ev (core s))) v)
                      es' (event_info (core s))) s).
Proof.
  intros [Hw Hf Hl Hc Hn Hset Ha Hun Hg Hs] Hin Hr Hans Ev Ees. set (s' := with_core _ _).
  assert (bl s t = Some suspend_thread /\ stat (thr s t) = RT_THREAD_SUSPEND) as [Hb Hst] by (by apply (wait_in _ _ Hw)).
  assert (forall u, thr s' u = if decide (u = t) then with_stat RT_THREAD_READY (with_timer None (thr s t)) else thr s u) as Et.
  { intros u. unfold thr, s', with_core. cbn [core e_krn]. unfold resumed. by rewrite tcb_alter. }
  assert (has_event s' t = true) as Het.
  { rewrite has_event_ready; change (bl s' t) with (bl s t); rewrite ?Et, ?decide_True by done; [|congruence|done].
    cbn [with_stat with_timer error]. pose proof (wait_error _ _ Hw t Hst) as Ee. fold (thr s t) in Ee. by rewrite Ee. }
  assert (forall u, u <> t -> has_event s' u = has_event s u) as Heu.
  { intros u Hne. apply has_event_same; [done|..]; by rewrite Et, decide_False. }
  assert (Z.land v (pending s) = v) as Hsub.
  { rewrite Ev. destruct (has _ _); [apply cleared_subset|apply Z.land_diag]. }
  split; try done.
  - by apply waits_resumed.
  - change (pending s') with v. rewrite Ev. destruct (has _ _); [by apply u32_set_cleared|done].
  - intros u Hbu. destruct (Ha u Hbu) as (H1 & H2 & H3). split; [done|]. change (event_set (core s') u) with (es' u). rewrite Ees, Et.
    case_decide as E; [subst; by split|]. split; [done|]. by rewrite Heu.
  - intros u Hu Hnl. change (pending s') with v. change (event_set (core s') u) with (es' u).
    change (waiting_now s') with (filter (fun u => u <> t) (waiting_now s)) in Hu. apply list_elem_of_filter in Hu as [Hne Hu].
    rewrite Ees, decide_False by done. intros Hsat. apply (Hun u Hu); [by rewrite not_elem_of_cons|]. by apply (satisfied_mono _ _ v).
  - intros b Hbb. specialize (Hs b Hbb). change (taken s' b) with (taken s b). change (sent s' b) with (sent s b). change (pending s') with v.
    assert (on_its_way s' b = on_its_way s b + takes b (event_info (core s) t) r) as ->.
    { unfold on_its_way. change (callers s') with (callers s). rewrite (total_one (gives s' b) (gives s b) _ t); [|done|apply Hc; congruence|].
      - unfold gives. rewrite Het, (has_event_not s) by auto. change (event_set (core s') t) with (es' t). rewrite Ees, decide_True by done. cbn. lia.
      - intros u Hne. unfold gives. rewrite Heu by done. change (event_set (core s') u) with (es' u). by rewrite Ees, decide_False. }
    pose proof (proj1 (land_subset r (pending s)) Hr b Hbb) as Hrb. rewrite Ev. unfold takes.
    destruct (has _ _); cbn [andb Z.b2z]; [|lia]. rewrite cleared_bit by done.
    destruct (Z.testbit r b); [rewrite Hrb in * by done; cbn in *; lia|]. cbn [negb Z.b2z]. rewrite andb_true_r. lia.
Qed.

(** It is not satisfied. *)
Lemma inv_examined s l t :
  inv (t :: l) s -> ~ satisfied (event_info (core s) t) (event_set (core s) t) (pending s) -> inv l s.
Proof.
  intros [Hw Hf Hl Hc Hn Hset Ha Hun Hg Hs] Hno. split; try done. intros u Hu Hnl.
  destruct (decide (u = t)) as [->|Hne]; [done|]. apply Hun; [done|]. by rewrite not_elem_of_cons.
Qed.

Lemma deliver_spec c t :
  stat (tcb (e_krn c) t) = RT_THREAD_SUSPEND ->
  event_deliver t c = Some (tt, mk_esys (resumed t (e_krn c))
    (mk_event (is_event (ev c)) (flag (ev c))
       (if has (event_info c t) RT_EVENT_FLAG_CLEAR then cleared (set (ev c)) (event_set c t) else set (ev c)))
    (event_set c) (event_info c)).
Proof.
  intros Hs. unfold event_deliver. cbv [bind gets]. destruct c as [k [y f v] es info]. cbn [ev e_krn event_set event_info] in *.
  destruct (has (info t) RT_EVENT_FLAG_CLEAR); cbv [put_set modify ret]; rewrite resume_spec by done; done.
Qed.

(** The loop gives every waiting thread that is satisfied what it asked for. *)
Lemma send_loop l : forall s,
  inv l s -> NoDup l -> (forall u, u ∈ l -> u ∈ waiting_now s) ->
  exists c', send_from l (core s) = Some (RT_EOK, c') /\ inv [] (with_core c' s).
Proof.
  induction l as [|t l IH]; intros s Hs Hn Hl.
  { exists (core s). split; [done|]. by destruct s. }
  apply NoDup_cons in Hn as [Htl Hn].
  assert (t ∈ waiting_now s) as Hin by (apply Hl; left). pose proof (inv_waits _ _ Hs) as Hw.
  assert (bl s t = Some suspend_thread /\ stat (thr s t) = RT_THREAD_SUSPEND) as [Hb Hst] by (by apply (wait_in _ _ Hw)).
  destruct (inv_asked _ _ Hs t) as (Hopt & Hask & _); [congruence|]. specialize (Hask Hst).
  assert (forall c', inv l (with_core c' s) -> waitq (e_krn c') suspend_thread = filter (fun u => u <> t) (waiting_now s) ->
            exists c'', send_from l c' = Some (RT_EOK, c'') /\ inv [] (with_core c'' s)) as Hgo.
  { intros c' Hi Eq. destruct (IH (with_core c' s) Hi Hn) as (c'' & E & Hi'); [|by exists c''].
    intros u Hu. unfold waiting_now, with_core. cbn [core]. rewrite Eq. apply list_elem_of_filter. split; [congruence|]. apply Hl. by right. }
  assert (inv l s -> exists c'', send_from l (core s) = Some (RT_EOK, c'') /\ inv [] (with_core c'' s)) as Hskip.
  { intros Hi. apply IH; [done|done|]. intros u Hu. apply Hl. by right. }
  cbn [send_from]. unfold bind at 1, gets at 1. change (set (ev (core s))) with (pending s).
  destruct (has (event_info (core s) t) RT_EVENT_FLAG_AND) eqn:Eand.
  - destruct (Z.eqb_spec (Z.land (event_set (core s) t) (pending s)) (event_set (core s) t)) as [Esat|Esat].
    + unfold bind. rewrite deliver_spec by done. apply Hgo; [|done].
      eapply (inv_delivered s l t (event_set (core s) t)); [done|done|done| |done|].
      * unfold answers. by rewrite Eand.
      * intros u. case_decide; by subst.
    + apply Hskip. apply (inv_examined s l t Hs). unfold satisfied. by rewrite Eand.
  - destruct (has (event_info (core s) t) RT_EVENT_FLAG_OR); [|done].
    destruct (Z.eqb_spec (Z.land (event_set (core s) t) (pending s)) 0) as [Esat|Esat]; cbn [negb].
    + apply Hskip. apply (inv_examined s l t Hs). unfold satisfied. rewrite Eand. auto.
    + set (r := Z.land (event_set (core s) t) (pending s)) in *. unfold bind at 1, bind at 1, put_event_set, modify.
      rewrite deliver_spec by done. cbn [ev e_krn event_set event_info]. rewrite fn_lookup_insert. apply Hgo; [|done].
      eapply (inv_delivered s l t r); [done|done| | |done|].
      * unfold r. by rewrite <- Z.land_assoc, Z.land_diag.
      * unfold answers. rewrite Eand. split; [done|]. rewrite <- Hask. unfold r. by rewrite Z.land_assoc, Z.land_diag.
      * intros u. case_decide; [subst; by rewrite fn_lookup_insert|by rewrite fn_lookup_insert_ne].
Qed.

Definition good (r : option sys) : Prop := exists s', r = Some s' /\ inv [] s'.

Lemma ev_check_type_ok c : is_event (ev c) = true -> check_type c = Some (tt, c).
Proof. intros E. unfold check_type. cbv [bind gets]. by rewrite E. Qed.

Lemma send_good s v : inv [] s -> enabled (ASend v) s -> good (event_step (ASend v) s).
Proof.
  intros Hs [Hty Hv]. cbn [event_step]. unfold rt_event_send. rewrite (bind_eq _ _ _ _ _ (ev_check_type_ok _ Hty)).
  pose proof Hs as [Hw Hf Hl Hc Hn Hset Ha Hun Hg Hsent].
  destruct (Z.eqb_spec v 0) as [->|Hne].
  { eexists. split; [reflexivity|]. split; try done. intros b Hb. specialize (Hsent b Hb). cbn [sent]. rewrite Z.testbit_0_l.
    change (taken s b + on_its_way s b + Z.b2z (Z.testbit (pending s) b) <= sent s b + 0). lia. }
  unfold bind at 1, gets at 1. unfold bind at 1, put_set at 1, modify. unfold bind at 1, gets at 1.
  set (s1 := mk_sys (mk_esys (e_krn (core s)) (mk_event (is_event (ev (core s))) (flag (ev (core s))) (Z.lor (set (ev (core s))) v))
               (event_set (core s)) (event_info (core s))) (bl s) (callers s) (asked s) (detaching s) (got s)
               (fun b => sent s b + Z.b2z (Z.testbit v b))).
  destruct (send_loop (waiting_now s) s1) as (c' & E & Hi).
  - split; try done.
    + by apply u32_set_lor.
    + intros b Hb. specialize (Hsent b Hb).
      change (taken s b + on_its_way s b + Z.b2z (Z.testbit (Z.lor (pending s) v) b) <= sent s b + Z.b2z (Z.testbit v b)).
      rewrite Z.lor_spec. destruct (Z.testbit v b), (Z.testbit (pending s) b); cbn in *; lia.
  - apply (wait_nodup _ _ Hw).
  - done.
  - change (waitq (krn (mk_esys _ _ _ _)) suspend_thread) with (waiting_now s). change (core s1) with
      (mk_esys (e_krn (core s)) (mk_event (is_event (ev (core s))) (flag (ev (core s))) (Z.lor (set (ev (core s))) v))
         (event_set (core s)) (event_info (core s))) in E. rewrite E. eexists. split; [reflexivity|]. exact Hi.
Qed.

(** ** Receiving *)

(** A thread that is not waiting changes its own fields, takes flags away and
    returns. *)
Lemma inv_own s t k' v es' info' got' :
  inv [] s -> bl s t = None -> waits_ok k' (bl s) -> waitq k' suspend_thread = waiting_now s ->
  (forall u, u <> t -> tcb k' u = thr s u /\ es' u = event_set (core s) u /\ info' u = event_info (core s) u) ->
  u32_set v -> Z.land v (pending s) = v -> Forall (fun '(a, o, r) => answers a o r) got' ->
  (forall b, 0 <= b -> foldr (fun '(_, o, r) n => takes b o r + n) 0 got' + Z.b2z (Z.testbit v b)
                       <= taken s b + Z.b2z (Z.testbit (pending s) b)) ->
  inv [] (mk_sys (mk_esys k' (mk_event (is_event (ev (core s))) (flag (ev (core s))) v) es' info')
            (bl s) (callers s) (asked s) (detaching s) got' (sent s)).
Proof.
  intros [Hw Hf Hl Hc Hn Hset Ha Hun Hg Hs] Hb Hw' Hq Hu Hv Hsub Hg' Hs'. set (s' := mk_sys _ _ _ _ _ _ _).
  assert (forall u, has_event s' u = has_event s u) as He.
  { intros u. destruct (decide (u = t)) as [->|Hne]; [rewrite !has_event_not by auto; done|].
    destruct (Hu u Hne) as (E & _). apply has_event_same; [done|..]; change (thr s' u) with (tcb k' u); by rewrite E. }
  split; try done.
  - intros u Hbu. destruct (Hu u) as (E1 & E2 & E3); [intros ->; by apply Hbu|]. destruct (Ha u Hbu) as (H1 & H2 & H3).
    change (thr s' u) with (tcb k' u). change (event_info (core s') u) with (info' u). change (event_set (core s') u) with (es' u).
    rewrite He, E1, E2, E3. done.
  - intros u Hin Hnl. change (waiting_now s') with (waitq k' suspend_thread) in Hin. rewrite Hq in Hin.
    assert (u <> t) as Hne. { intros ->. apply (wait_in _ _ Hw) in Hin as [? _]. congruence. }
    destruct (Hu u Hne) as (_ & E2 & E3). change (event_info (core s') u) with (info' u). change (event_set (core s') u) with (es' u).
    rewrite E2, E3. intros Hsat. apply (Hun u Hin Hnl). by apply (satisfied_mono _ _ v).
  - intros b Hbb. specialize (Hs b Hbb). specialize (Hs' b Hbb).
    assert (on_its_way s' b = on_its_way s b) as ->.
    { apply total_ext. intros u Huc. unfold gives. rewrite He. destruct (Hu u) as (_ & E2 & E3).
      { intros ->. by apply Hc in Huc. }
      change (event_info (core s') u) with (info' u). change (event_set (core s') u) with (es' u). by rewrite E2, E3. }
    change (pending s') with v. change (taken s' b) with (foldr (fun '(_, o, r) n => takes b o r + n) 0 got').
    change (sent s' b) with (sent s b). lia.
Qed.

(** A thread begins to wait. *)
Lemma ev_inv_blocked s t timeout a :
  inv [] s -> bl s t = None -> error (thr s t) = RT_EOK -> a = event_set (core s) t ->
  has (event_info (core s) t) RT_EVENT_FLAG_AND || has (event_info (core s) t) RT_EVENT_FLAG_OR = true ->
  ~ satisfied (event_info (core s) t) (event_set (core s) t) (pending s) ->
  inv [] (mk_sys (mk_esys (waiting suspend_thread t (flag (ev (core s))) timeout (e_krn (core s))) (ev (core s))
                    (event_set (core s)) (event_info (core s)))
            (<[t := Some suspend_thread]> (bl s)) (t :: callers s) (<[t := a]> (asked s)) (detaching s) (got s) (sent s)).
Proof.
  intros [Hw Hf Hl Hc Hn Hset Ha Hun Hg Hs] Hb He Ea Hopt Hno. set (s' := mk_sys _ _ _ _ _ _ _).
  pose proof (wait_idle _ _ Hw t Hb) as Hr.
  assert (stat (thr s' t) = RT_THREAD_SUSPEND) as Hst.
  { unfold thr, s'. cbn [core e_krn]. by rewrite tcb_waiting_self. }
  assert (forall u, u <> t -> thr s' u = thr s u) as Eu.
  { intros u Hne. unfold thr, s'. cbn [core e_krn]. by rewrite tcb_waiting_ne. }
  assert (forall u, has_event s' u = has_event s u) as Hev.
  { intros u. destruct (decide (u = t)) as [->|Hne]; [rewrite !has_event_not by auto; done|].
    apply has_event_same; [|by rewrite Eu..]. unfold s'. cbn [bl]. by rewrite fn_lookup_insert_ne. }
  split; try done.
  - by apply waits_block.
  - intros u. unfold s'. cbn [bl]. destruct (decide (u = t)) as [->|Hne]; [rewrite fn_lookup_insert; by right|].
    rewrite fn_lookup_insert_ne by done. apply Hl.
  - intros u. unfold s'. cbn [bl callers]. rewrite elem_of_cons, Hc. destruct (decide (u = t)) as [->|Hne].
    + rewrite fn_lookup_insert. split; [done|by left].
    + rewrite fn_lookup_insert_ne by done. split; [by intros [?|?]|by right].
  - constructor; [|done]. rewrite Hc. by intros ?.
  - intros u. rewrite Hev. change (bl s' u) with ((<[t := Some suspend_thread]> (bl s)) u).
    change (asked s' u) with ((<[t := a]> (asked s)) u). destruct (decide (u = t)) as [->|Hne].
    + rewrite !fn_lookup_insert. intros _. split; [done|]. split; [by intros _|]. by rewrite has_event_not by auto.
    + rewrite !fn_lookup_insert_ne, Eu by done. apply Ha.
  - intros u Hin _. unfold waiting_now, s' in Hin. cbn [core e_krn] in Hin. rewrite waitq_waiting, decide_True in Hin by done.
    apply (elem_of_ipc_insert _ _ _ _ _ Hf) in Hin as [->|Hin]; [exact Hno|]. by apply Hun; [|apply not_elem_of_nil].
  - intros b Hbb. specialize (Hs b Hbb). change (taken s' b) with (taken s b). change (sent s' b) with (sent s b).
    change (pending s') with (pending s).
    assert (on_its_way s' b = on_its_way s b) as ->; [|done].
    unfold on_its_way, s' at 2. cbn [callers total foldr]. fold (total (gives s' b) (callers s)). unfold gives at 1.
    rewrite Hev, has_event_not by auto. cbn [Z.add]. apply total_ext. intros u _. unfold gives. by rewrite Hev.
Qed.

(** The test of the flags. *)
Definition recv_status (o v w : Z) : bool :=
  if has o RT_EVENT_FLAG_AND then Z.land w v =? v else negb (Z.land w v =? 0).

Lemma recv_status_spec o v w : recv_status o v w = true <-> satisfied o v w.
Proof.
  unfold recv_status, satisfied. rewrite (Z.land_comm v). destruct (has o RT_EVENT_FLAG_AND); [apply Z.eqb_eq|].
  by rewrite negb_true_iff, Z.eqb_neq.
Qed.

(** The thread takes the flags that are there. *)
Lemma inv_received s t k' v o :
  inv [] s -> bl s t = None -> waits_ok k' (bl s) -> waitq k' suspend_thread = waiting_now s ->
  (forall u, u <> t -> tcb k' u = thr s u) -> satisfied o v (pending s) ->
  inv [] (mk_sys (mk_esys k' (mk_event (is_event (ev (core s))) (flag (ev (core s)))
                    (if has o RT_EVENT_FLAG_CLEAR then cleared (pending s) v else pending s))
                    (<[t := Z.land (pending s) v]> (event_set (core s))) (<[t := o]> (event_info (core s))))
            (bl s) (callers s) (asked s) (detaching s) ((v, o, Z.land (pending s) v) :: got s) (sent s)).
Proof.
  intros Hs Hb Hw Hq Hu Hok. apply (inv_own s t); try done.
  - intros u Hne. rewrite Hu, !fn_lookup_insert_ne by done. done.
  - destruct (has o RT_EVENT_FLAG_CLEAR); [apply u32_set_cleared|]; apply Hs.
  - destruct (has o RT_EVENT_FLAG_CLEAR); [apply cleared_subset|apply Z.land_diag].
  - constructor; [|apply Hs]. unfold satisfied in Hok. unfold answers. rewrite (Z.land_comm (pending s)).
    destruct (has o RT_EVENT_FLAG_AND); [done|]. split; [done|]. by rewrite Z.land_assoc, Z.land_diag.
  - intros b Hbb. cbn [foldr]. fold (taken s b). unfold takes. rewrite Z.land_spec.
    destruct (has o RT_EVENT_FLAG_CLEAR); cbn [andb Z.b2z]; [rewrite cleared_bit by done|lia].
    destruct (Z.testbit (pending s) b), (Z.testbit v b); cbn; lia.
Qed.

Lemma event_eta (x : rt_event) : mk_event (is_event x) (flag x) (set x) = x.
Proof. by destruct x. Qed.

Lemma recv_good s t v o timeout : inv [] s -> enabled (ARecv t v o timeout) s -> good (event_step (ARecv t v o timeout) s).
Proof.
  intros Hs (Hb & _ & Hty & Hv & Hopt & Ht). pose proof (inv_waits _ _ Hs) as Hw.
  pose proof (wait_idle _ _ Hw t Hb) as Hr. cbn [event_step]. unfold rt_event_recv. rewrite (bind_eq _ _ _ _ _ (ev_check_type_ok _ Hty)).
  destruct (Z.eqb_spec v 0) as [->|Hne]; [eexists; split; [reflexivity|]; by destruct s|].
  unfold bind at 1, set_error at 1. rewrite on_krn_eq. set (k1 := alter_thread (with_error RT_EOK) t (krn (core s))).
  assert (waits_ok k1 (bl s)) as Hw1 by (apply waits_alter; [done|done|cbn; congruence]).
  assert (tcb k1 t = with_error RT_EOK (thr s t)) as Et by (unfold k1; by rewrite tcb_alter, decide_True).
  assert (forall u, u <> t -> tcb k1 u = thr s u) as Eu by (intros u Hu; unfold k1; by rewrite tcb_alter, decide_False).
  unfold bind at 1, gets at 1. cbn [put_krn esys_kernel ev]. set (c1 := mk_esys k1 _ _ _). change (set (ev (core s))) with (pending s).
  assert ((if has o RT_EVENT_FLAG_AND then ret (Z.land (pending s) v =? v)
    else if has o RT_EVENT_FLAG_OR then ret (negb (Z.land (pending s) v =? 0)) else undefined) c1
    = Some (recv_status o v (pending s), c1)) as Eok.
  { unfold recv_status. destruct (has o RT_EVENT_FLAG_AND); [done|]. by destruct (has o RT_EVENT_FLAG_OR). }
  rewrite (bind_eq _ _ _ _ _ Eok). destruct (recv_status o v (pending s)) eqn:Ek.
  - apply recv_status_spec in Ek. eexists. split; [|by apply (inv_received s t k1 v o)].
    unfold bind, put_event_set, put_event_info, put_set, modify, thread_of, gets, ret, c1.
    destruct (has o RT_EVENT_FLAG_CLEAR); cbn [krn esys_kernel e_krn ev event_set event_info].
    + done.
    + unfold pending. by rewrite event_eta.
  - assert (~ satisfied o v (pending s)) as Hno by (rewrite <- recv_status_spec; congruence).
    destruct (Z.eqb_spec timeout 0) as [->|Hnz].
    + unfold bind, set_error. rewrite on_krn_eq. eexists. split; [reflexivity|]. unfold c1.
      cbn [put_krn esys_kernel krn e_krn ev event_set event_info]. rewrite <- (event_eta (ev (core s))).
      apply (inv_own s t); try done; try apply Hs; [| |apply Z.land_diag].
      * apply waits_alter; [done|done|rewrite Et; cbn; unfold thr; congruence].
      * intros u Hu. rewrite tcb_alter, decide_False, Eu by done. done.
    + set (s1 := mk_sys (mk_esys k1 (mk_event (is_event (ev (core s))) (flag (ev (core s))) (pending s))
              (<[t := v]> (event_set (core s))) (<[t := o]> (event_info (core s)))) (bl s) (callers s) (asked s) (detaching s) (got s) (sent s)).
      assert (inv [] s1) as H1.
      { apply (inv_own s t); try done; try apply Hs; [|apply Z.land_diag]. intros u Hu. rewrite Eu, !fn_lookup_insert_ne by done. done. }
      unfold bind, put_event_set, put_event_info, modify, c1. cbn [e_krn ev event_set event_info].
      rewrite suspend_spec by (change (stat (tcb k1 t) = RT_THREAD_READY); by rewrite Et).
      cbn [put_krn esys_kernel krn e_krn ev event_set event_info]. set (c2 := mk_esys _ _ _ _).
      assert ((if 0 <? timeout then start_timer t timeout else ret tt) c2
        = Some (tt, mk_esys (waiting suspend_thread t (flag (ev (core s))) timeout k1) (ev (core s))
                      (<[t := v]> (event_set (core s))) (<[t := o]> (event_info (core s))))) as E2.
      { unfold waiting. destruct (Z.ltb_spec 0 timeout); [|done]. by rewrite start_timer_spec by lia. }
      rewrite E2. eexists. split; [reflexivity|]. rewrite <- (event_eta (ev (core s))).
      apply (ev_inv_blocked s1 t timeout v H1 Hb); unfold s1; cbn [core event_set event_info]; rewrite ?fn_lookup_insert; try done.
      unfold thr. cbn [core e_krn]. by rewrite Et.
Qed.

(** ** Returning *)

Lemma ev_run_good s t : inv [] s -> enabled (ARun t) s -> good (event_step (ARun t) s).
Proof.
  intros Hs [Hb Hr]. pose proof Hs as [Hw Hf Hl Hc Hn Hset Ha Hun Hg Hsent]. cbn [event_step].
  unfold event_recv_resumed, thread_of. cbv [bind gets]. change (tcb (krn (core s)) t) with (thr s t).
  pose proof (has_event_ready s t Hb Hr) as He. destruct (Ha t Hb) as (_ & _ & Hans).
  assert (forall g', Forall (fun '(a, o, r) => answers a o r) g' ->
    (forall b, 0 <= b -> foldr (fun '(_, o, r) n => takes b o r + n) 0 g' = taken s b + gives s b t) ->
    inv [] (mk_sys (core s) (<[t := None]> (bl s)) (filter (fun u => u <> t) (callers s)) (asked s) (detaching s) g' (sent s))) as Hi.
  { intros g' Hg' Hsum. set (s' := mk_sys _ _ _ _ _ _ _).
    assert (forall u, u <> t -> bl s' u = bl s u) as Eb by (intros u Hu; unfold s'; cbn [bl]; by rewrite fn_lookup_insert_ne).
    assert (bl s' t = None) as Ebt by (unfold s'; cbn [bl]; by rewrite fn_lookup_insert).
    assert (forall u, u <> t -> has_event s' u = has_event s u) as Hev by (intros u Hu; apply has_event_same; [by apply Eb|done|done]).
    split; try done.
    - by apply waits_return.
    - intros u. destruct (decide (u = t)) as [->|Hu]; [by left|]. rewrite Eb by done. apply Hl.
    - intros u. unfold s' at 1. cbn [callers]. rewrite list_elem_of_filter, Hc. destruct (decide (u = t)) as [->|Hu].
      + rewrite Ebt. by split; [intros [? _]|].
      + rewrite Eb by done. tauto.
    - by apply NoDup_filter.
    - intros u. destruct (decide (u = t)) as [->|Hu]; [by rewrite Ebt|]. rewrite Eb, Hev by done. apply Ha.
    - intros b Hbb. specialize (Hsent b Hbb). change (taken s' b) with (foldr (fun '(_, o, r) n => takes b o r + n) 0 g').
      change (pending s') with (pending s). change (sent s' b) with (sent s b). rewrite Hsum by done.
      assert (on_its_way s b = gives s b t + on_its_way s' b) as E; [|lia].
      unfold on_its_way. rewrite (total_remove _ _ t) by (done || by apply Hc). f_equal. apply total_ext.
      intros u [Hu _]%list_elem_of_filter. unfold gives. by rewrite Hev. }
  destruct (Z.eqb_spec (error (thr s t)) RT_EOK) as [E|E]; cbn [negb]; (eexists; split; [reflexivity|]); apply Hi; try done.
  - constructor; [by apply Hans|done].
  - intros b Hbb. cbn [foldr]. fold (taken s b). unfold gives. rewrite He. lia.
  - intros b Hbb. fold (taken s b). unfold gives. rewrite He. lia.
Qed.

Lemma event_overtaken s a : overtaken a s -> event_step a s = None.
Proof.
  destruct a; try done. cbn [overtaken event_step]. unfold waiting_now, resume_all_round. intros E. cbv [bind gets].
  change (krn (core s)) with (e_krn (core s)). by rewrite E.
Qed.

Lemma event_good s a : inv [] s -> enabled a s -> ~ overtaken a s -> good (event_step a s).
Proof.
  intros Hs Ha Hq. pose proof (inv_waits _ _ Hs) as Hw. destruct a as [t v o timeout|v|t|t| |t|t|t|].
  - by apply recv_good.
  - by apply send_good.
  - by apply ev_run_good.
  - destruct Ha as [Hst _]. cbn [event_step]. rewrite expire_thread_spec by done. eexists. split; [reflexivity|].
    cbn [put_krn esys_kernel krn]. rewrite <- (event_eta (ev (core s))). apply ev_inv_cancel; try done; try apply Hs.
    + by apply waits_timed_out.
    + apply Z.land_diag.
    + intros u Hu. change (u ∈ filter (fun u => u <> t) (waiting_now s)) in Hu. by apply list_elem_of_filter in Hu as [_ ?].
    + intros u. rewrite tcb_timed_out. case_decide; [subst; right; by split|by left].
  - cbn [enabled] in Ha. cbn [event_step]. unfold rt_event_control. rewrite (bind_eq _ _ _ _ _ (ev_check_type_ok _ Ha)).
    change (RT_IPC_CMD_RESET =? RT_IPC_CMD_RESET) with true. cbv iota. unfold bind.
    destruct (@resume_all_spec esys esys_kernel esys_laws suspend_thread (bl s) (core s) Hw) as (k' & -> & Hw' & Hq' & _ & _ & Hu).
    eexists. split; [reflexivity|]. apply ev_inv_cancel; try done.
    + intros u Hin. change (u ∈ waitq k' suspend_thread) in Hin. rewrite Hq' in Hin. by apply not_elem_of_nil in Hin.
    + intros u. change (tcb (e_krn (put_krn k' (core s))) u) with (tcb k' u). rewrite Hu. case_decide as Hin; [|by left]. right. split; [|done].
      by apply (waits_suspended _ _ Hw suspend_thread).
  - eexists. split; [reflexivity|]. destruct Hs. by split.
  - cbn [event_step]. unfold resume_all_test, event_object_detach. cbv [bind gets ret modify].
    destruct (waitq (krn (core s)) suspend_thread); (eexists; split; [reflexivity|]; destruct Hs; by split).
  - cbn [overtaken] in Hq. cbn [event_step]. unfold resume_all_round. cbv [bind gets].
    change (waitq (krn (core s)) suspend_thread) with (waiting_now s).
    destruct (waiting_now s) as [|h r] eqn:Eq; [done|].
    assert (stat (tcb (e_krn (core s)) h) = RT_THREAD_SUSPEND) as Hst.
    { apply (waits_suspended _ _ Hw suspend_thread). fold (waiting_now s). rewrite Eq. left. }
    rewrite resume_with_error_spec by done. eexists. split; [reflexivity|]. cbn [put_krn esys_kernel krn].
    rewrite <- (event_eta (ev (core s))). apply ev_inv_cancel; try done; try apply Hs.
    + by apply waits_cancelled.
    + apply Z.land_diag.
    + intros u Hu. change (u ∈ filter (fun u => u <> h) (waiting_now s)) in Hu. by apply list_elem_of_filter in Hu as [_ ?].
    + intros u. rewrite tcb_cancelled. case_decide; [subst; right; by split|by left].
  - eexists. split; [reflexivity|]. destruct Hs. split; try done. by split; apply Hw.
Qed.

Lemma ev_reach_inv s : reach s -> inv [] s.
Proof.
  induction 1 as [s Hi|s a s' _ IH Ha E]; [by apply ev_initial_inv|].
  destruct (decide (overtaken a s)) as [Ho|Ho]; [by rewrite event_overtaken in E|].
  destruct (event_good s a IH Ha Ho) as (s'' & E' & Hi). congruence.
Qed.


(** Threads 1 and 2 wait for flag 0 or 1 and take it away; flag 0 is sent once:
    thread 1 gets it and thread 2 goes on waiting. *)
Definition demo_start : sys :=
  mk_sys (mk_esys (mk_kernel 0 (fun _ => mk_thread 10 0 RT_THREAD_READY None) (fun _ => [])) (mk_event true 0 0)
            (fun _ => 0) (fun _ => 0))
    (fun _ => None) [] (fun _ => 0) (fun _ => None) [] (fun _ => 0).


End EventSystem.
