(* ===== verification/CTime.v ===== *)
(** * Calendar time

    The C library's time functions that the clock uses
    (src/rt-thread/components/libc/compilers/common/time.c): breaking a time
    into calendar fields, putting it together again and printing it.  The width
    of [time_t] belongs to the C library of the toolchain: 32 bits with the one the
    project names (GNU Tools for ARM 5.4.1), 64 bits with later ones; the model is
    for both.  [gmtime_r] computes nothing larger than its argument and needs no
    wrap-around; [mktime] has it written out. *)

From Stdlib Require Import ZArith Lia.
From Stdlib Require Import Ascii String.
From stdpp Require Import prelude list.
From S2P Require Import Prelude.
Open Scope Z_scope.

(** ** Data *)

Class TimeT := {
  time_bits : Z;
  time_bits_ok : time_bits = 32 \/ time_bits = 64
}.

(** Conversion to [time_t]. *)
Definition time_t `{TimeT} (z : Z) : Z := swrap time_bits z.

Definition time_long : TimeT := {| time_bits := 32; time_bits_ok := or_introl eq_refl |}.

Record tm := mk_tm {
  tm_sec : Z;
  tm_min : Z;
  tm_hour : Z;
  tm_mday : Z;
  tm_mon : Z;
  tm_year : Z;
  tm_wday : Z;
  tm_yday : Z
}.

(** Days before each month of a year that is not a leap year. *)
Definition __spm : list Z :=
  [0; 31; 31 + 28; 31 + 28 + 31; 31 + 28 + 31 + 30; 31 + 28 + 31 + 30 + 31;
   31 + 28 + 31 + 30 + 31 + 30; 31 + 28 + 31 + 30 + 31 + 30 + 31;
   31 + 28 + 31 + 30 + 31 + 30 + 31 + 31; 31 + 28 + 31 + 30 + 31 + 30 + 31 + 31 + 30;
   31 + 28 + 31 + 30 + 31 + 30 + 31 + 31 + 30 + 31;
   31 + 28 + 31 + 30 + 31 + 30 + 31 + 31 + 30 + 31 + 30;
   31 + 28 + 31 + 30 + 31 + 30 + 31 + 31 + 30 + 31 + 30 + 31].

(** Reading an array: no value outside of it. *)
Definition index (l : list Z) (i : Z) : option Z :=
  if 0 <=? i then l !! Z.to_nat i else None.

Definition SPD : Z := 24 * 60 * 60.

Definition __isleap (year : Z) : bool :=
  (Z.rem year 4 =? 0) && (negb (Z.rem year 100 =? 0) || (Z.rem year 400 =? 0)).

(** ** From a time to its fields *)

(** The loop over the years; running out of [fuel] would be a loop that does
    not end. *)
Fixpoint year_loop (fuel : nat) (i work : Z) : option (Z * Z) :=
  let k := if __isleap i then 366 else 365 in
  if k <=? work then
    match fuel with
    | O => None
    | S fuel => year_loop fuel (i + 1) (work - k)
    end
  else Some (i, work).

(** The loop over the months, from December down. *)
Fixpoint month_loop (i : nat) (work : Z) : Z :=
  match i with
  | O => 0
  | S j => if work <? at_ __spm i then month_loop j work else Z.of_nat i
  end.

Definition gmtime_r (timep : Z) : option tm :=
  let work := Z.rem timep SPD in
  let sec := Z.rem work 60 in
  let work := Z.quot work 60 in
  let min := Z.rem work 60 in
  let hour := Z.quot work 60 in
  let work := Z.quot timep SPD in
  let wday := Z.rem (4 + work) 7 in
  match year_loop (Z.to_nat (work / 365)) 1970 work with
  | None => None
  | Some (i, work) =>
      let yday := work in
      let leap := __isleap i && (58 <? work) in
      let mday := if leap && (work =? 59) then 2 else 1 in
      let work := if leap then work - 1 else work in
      let mon := month_loop 11 work in
      Some (mk_tm sec min hour (mday + (work - at_ __spm (Z.to_nat mon))) mon (i - 1900) wday yday)
  end.

Definition localtime_r : Z -> option tm := gmtime_r.

(** ** From fields to a time *)

(** The loop that moves days beyond the table to the next month. *)
Fixpoint mday_loop (fuel : nat) (mday mon year : Z) : option (Z * Z * Z) :=
  match index __spm (1 + mon) with
  | None => None
  | Some limit =>
      if limit <? mday then
        match fuel, index __spm mon with
        | S fuel, Some d =>
            let mday := if (mon =? 1) && __isleap (s32 (year + 1900)) then mday - 1 else mday in
            let mday := mday - d in
            let mon := mon + 1 in
            if 11 <? mon then mday_loop fuel mday 0 (s32 (year + 1))
            else mday_loop fuel mday mon year
        | _, _ => None
        end
      else Some (mday, mon, year)
  end.

Definition b2z (b : bool) : Z := if b then 1 else 0.

(** Days from 1970 to the beginning of a year. *)
Definition year_days `{TimeT} (years : Z) : Z :=
  let day := time_t (years * 365 + Z.quot (time_t (years + 1)) 4) in
  if 131 <=? years then
    let years := Z.quot (years - 131) 100 in
    let day := time_t (day - (Z.shiftr years 2 * 3 + 1)) in
    let years := Z.land years 3 in
    let years := if years =? 3 then years - 1 else years in
    time_t (day - years)
  else day.

(** The result and the fields, which are of type [int] and which the function
    normalises in place. *)
Definition mktime `{TimeT} (t : tm) : option (Z * tm) :=
  let years := time_t (s32 (tm_year t - 70)) in
  let (min, sec) := if 60 <? tm_sec t then (s32 (tm_min t + Z.quot (tm_sec t) 60), Z.rem (tm_sec t) 60)
                    else (tm_min t, tm_sec t) in
  let (hour, min) := if 60 <? min then (s32 (tm_hour t + Z.quot min 60), Z.rem min 60)
                     else (tm_hour t, min) in
  let (mday, hour) := if 24 <? hour then (s32 (tm_mday t + Z.quot hour 24), Z.rem hour 24)
                      else (tm_mday t, hour) in
  let (year, mon) := if 12 <? tm_mon t then (s32 (tm_year t + Z.quot (tm_mon t) 12), Z.rem (tm_mon t) 12)
                     else (tm_year t, tm_mon t) in
  match mday_loop (12 * Z.to_nat mday + 12) mday mon year with
  | None => None
  | Some (mday, mon, year) =>
      if year <? 70 then Some (-1, mk_tm sec min hour mday mon year (tm_wday t) (tm_yday t)) else
      match index __spm mon with
      | None => None
      | Some before =>
          let yday := s32 (before + mday - 1 +
                      Z.land (b2z (__isleap (s32 (year + 1900)))) (b2z (1 <? mon))) in
          let day := time_t (year_days years + yday) in
          let wday := Z.rem (time_t (day + 4)) 7 in
          Some (time_t (((day * 24 + hour) * 60 + min) * 60 + sec),
                mk_tm sec min hour mday mon year wday yday)
      end
  end.

(** ** Printing *)

Definition chars (s : string) : list Z :=
  List.map (fun a => Z.of_N (N_of_ascii a)) (list_ascii_of_string s).

Definition days : list Z := (chars "Sun Mon Tue Wed Thu Fri Sat " ++ [0])%list.
Definition months : list Z :=
  (chars "Jan Feb Mar Apr May Jun Jul Aug Sep Oct Nov Dec " ++ [0])%list.

(** Reading [n] bytes of an array at an offset, and writing bytes at an
    offset; no value when this leaves the array. *)
Definition get (l : list Z) (off : Z) (n : nat) : option (list Z) :=
  if (0 <=? off) && (off + Z.of_nat n <=? Z.of_nat (List.length l))
  then Some (take n (drop (Z.to_nat off) l)) else None.

Definition put (off : nat) (l buf : list Z) : option (list Z) :=
  if (off + List.length l <=? List.length buf)%nat
  then Some (take off buf ++ l ++ drop (off + List.length l) buf)%list else None.

Definition num2str (i : Z) : list Z := [u8 (Z.quot i 10 + 48); u8 (Z.rem i 10 + 48)].

Definition asctime_r (t : tm) (buf : list Z) : option (list Z) :=
  day ← get days (Z.shiftl (tm_wday t) 2) 4;
  buf ← put 0 day buf;
  month ← get months (Z.shiftl (tm_mon t) 2) 4;
  buf ← put 4 month buf;
  buf ← put 8 (num2str (tm_mday t)) buf;
  buf ← (if at_ buf 8 =? 48 then put 8 (chars " ") buf else Some buf);
  buf ← put 10 (chars " ") buf;
  buf ← put 11 (num2str (tm_hour t)) buf;
  buf ← put 13 (chars ":") buf;
  buf ← put 14 (num2str (tm_min t)) buf;
  buf ← put 16 (chars ":") buf;
  buf ← put 17 (num2str (tm_sec t)) buf;
  buf ← put 19 (chars " ") buf;
  buf ← put 20 (num2str (Z.quot (tm_year t + 1900) 100)) buf;
  buf ← put 22 (num2str (Z.rem (tm_year t + 1900) 100)) buf;
  put 24 [10] buf.

(** [asctime] prints into a static buffer; [buf] is what the last call left
    there. *)
Definition ctime (timep : Z) (buf : list Z) : option (list Z) :=
  t ← localtime_r timep; asctime_r t buf.

Example ctime_example :
  ctime 741476948 (repeat 0 25) = Some (chars "Wed Jun 30 21:49:08 1993" ++ [10])%list.
Proof. vm_compute. reflexivity. Qed.
