(* ===== verification/Calendar.v ===== *)
(** * The calendar

    What the time functions of CTime.v promise: the Gregorian calendar from
    1970 on, defined by the lengths of its years and months.  Proved:
    [gmtime_r] finds the date and time of day of every time, [mktime] is its
    inverse, and the printed text determines the time. *)

From Stdlib Require Import ZArith Lia.
From Stdlib Require Import Ascii String.
From stdpp Require Import prelude list.
From S2P Require Import Prelude CTime.
Open Scope Z_scope.

(** ** Specification *)

Definition leap_year (y : Z) : bool :=
  (y mod 4 =? 0) && (negb (y mod 100 =? 0) || (y mod 400 =? 0)).
Definition year_length (y : Z) : Z := if leap_year y then 366 else 365.

(** Days from 1 January 1970 to 1 January of the [n]-th year after it. *)
Fixpoint days_before (n : nat) : Z :=
  match n with
  | O => 0
  | S n => days_before n + year_length (1970 + Z.of_nat n)
  end.

Definition month_lengths (leap : bool) : list Z :=
  [31; if leap then 29 else 28; 31; 30; 31; 30; 31; 31; 30; 31; 30; 31].
Definition month_length (leap : bool) (mon : Z) : Z := at_ (month_lengths leap) (Z.to_nat mon).
Definition days_before_month (leap : bool) (mon : Z) : Z :=
  foldr Z.add 0 (take (Z.to_nat mon) (month_lengths leap)).

Definition leap_of (t : tm) : bool := leap_year (tm_year t + 1900).
Definition day_of_year (t : tm) : Z := days_before_month (leap_of t) (tm_mon t) + tm_mday t - 1.
Definition day_number (t : tm) : Z := days_before (Z.to_nat (tm_year t - 70)) + day_of_year t.
Definition seconds (t : tm) : Z :=
  ((day_number t * 24 + tm_hour t) * 60 + tm_min t) * 60 + tm_sec t.

(** A date from 1970 on that exists, and a time of day. *)
Record valid (t : tm) : Prop := mk_valid {
  valid_sec : 0 <= tm_sec t < 60;
  valid_min : 0 <= tm_min t < 60;
  valid_hour : 0 <= tm_hour t < 24;
  valid_mon : 0 <= tm_mon t < 12;
  valid_mday : 1 <= tm_mday t <= month_length (leap_of t) (tm_mon t);
  valid_year : 70 <= tm_year t
}.

(** The fields that follow from the date: 1 January 1970 was a Thursday. *)
Definition weekday_ok (t : tm) : Prop :=
  tm_wday t = (day_number t + 4) mod 7 /\ tm_yday t = day_of_year t.

(** ** Years *)


Lemma isleap_leap_year y : 0 <= y -> __isleap y = leap_year y.
Proof. intros Hy. unfold __isleap, leap_year. by rewrite !Z.rem_mod_nonneg by lia. Qed.

Lemma year_length_bounds y : 365 <= year_length y <= 366.
Proof. unfold year_length. destruct (leap_year y); lia. Qed.

Lemma days_before_mono n m : (n <= m)%nat -> days_before n <= days_before m.
Proof.
  induction 1 as [|m Hm IH]; [done|]. cbn [days_before].
  pose proof (year_length_bounds (1970 + Z.of_nat m)). lia.
Qed.

Lemma year_loop_spec fuel n work :
  0 <= work -> work < 365 * (Z.of_nat fuel + 1) ->
  exists m work', year_loop fuel (1970 + Z.of_nat n) work = Some (1970 + Z.of_nat m, work') /\
    0 <= work' < year_length (1970 + Z.of_nat m) /\
    days_before n + work = days_before m + work'.
Proof.
  revert n work. induction fuel as [|fuel IH]; intros n work H0 Hlt; cbn [year_loop];
    rewrite isleap_leap_year by lia; fold (year_length (1970 + Z.of_nat n));
    pose proof (year_length_bounds (1970 + Z.of_nat n)) as Hb;
    destruct (year_length (1970 + Z.of_nat n) <=? work) eqn:E.
  - lia.
  - exists n, work. split; [done|]. lia.
  - destruct (IH (S n) (work - year_length (1970 + Z.of_nat n))) as (m & w & Hl & Hw & Hd); [lia|lia|].
    exists m, w. replace (1970 + Z.of_nat n + 1) with (1970 + Z.of_nat (S n)) by lia.
    cbn [days_before] in Hd. split; [done|]. split; [done|]. lia.
  - exists n, work. split; [done|]. lia.
Qed.

(** ** Months *)

(** The part of [gmtime_r] after the loop over the years. *)
Definition month_day (is_leap : bool) (yday : Z) : Z * Z :=
  let leap := is_leap && (58 <? yday) in
  let mday := if leap && (yday =? 59) then 2 else 1 in
  let work := if leap then yday - 1 else yday in
  let mon := month_loop 11 work in
  (mon, mday + (work - at_ __spm (Z.to_nat mon))).

Definition month_day_ok (leap : bool) (yday : Z) : bool :=
  let (mon, mday) := month_day leap yday in
  (0 <=? mon) && (mon <? 12) && (1 <=? mday) && (mday <=? month_length leap mon) &&
  (days_before_month leap mon + mday - 1 =? yday).

Lemma month_day_all :
  forallb (fun l => forallb (fun d => month_day_ok l (Z.of_nat d)) (seq 0 (if l then 366 else 365)))
    [false; true] = true.
Proof. vm_compute. reflexivity. Qed.

Lemma month_day_spec leap yday :
  0 <= yday < (if leap : bool then 366 else 365) -> month_day_ok leap yday = true.
Proof.
  intros Hd. pose proof month_day_all as H. cbn [forallb] in H.
  apply andb_prop in H as [Hf H]. apply andb_prop in H as [Ht _].
  rewrite <- (Z2Nat.id yday) by lia.
  destruct leap; [revert Ht|revert Hf]; intros Hx; rewrite forallb_forall in Hx;
    apply Hx, in_seq; lia.
Qed.

(** ** [gmtime_r] *)

Lemma gmtime_spec t :
  0 <= t -> exists d, gmtime_r t = Some d /\ valid d /\ seconds d = t /\ weekday_ok d.
Proof.
  intros Ht. unfold gmtime_r. change SPD with 86400.
  rewrite !Z.rem_mod_nonneg, !Z.quot_div_nonneg by divmod.
  pose proof (Z.div_pos t 86400 Ht ltac:(lia)) as Hd.
  pose proof (Z.div_mod t 86400 ltac:(lia)) as Ht2.
  pose proof (Z.mod_pos_bound t 86400 ltac:(lia)) as Hw.
  set (w := t mod 86400) in *. set (d := t / 86400) in *.
  destruct (year_loop_spec (Z.to_nat (d / 365)) 0 d) as (n & yday & Hl & Hy & Hn); [done|divmod|].
  change (1970 + Z.of_nat 0) with 1970 in Hl. rewrite Hl.
  rewrite isleap_leap_year by lia. cbv zeta.
  unfold year_length in Hy. pose proof (month_day_spec _ _ Hy) as Hm.
  unfold month_day_ok, month_day in Hm. cbv zeta in Hm.
  set (l := leap_year (1970 + Z.of_nat n)) in *.
  set (w' := if l && (58 <? yday) then yday - 1 else yday) in *.
  set (mon := month_loop 11 w') in *.
  set (mday := (if l && (58 <? yday) && (yday =? 59) then 2 else 1) +
               (w' - at_ __spm (Z.to_nat mon))) in *.
  eexists. split; [reflexivity|].
  assert (1970 + Z.of_nat n - 1900 + 1900 = 1970 + Z.of_nat n) as Ey by lia.
  assert (Z.to_nat (1970 + Z.of_nat n - 1900 - 70) = n) as En by lia.
  unfold seconds, weekday_ok, day_number, day_of_year, leap_of.
  cbn [tm_sec tm_min tm_hour tm_mday tm_mon tm_year tm_wday tm_yday].
  rewrite !Ey, !En. fold l. cbn [days_before] in Hn.
  assert (days_before n + (days_before_month l mon + mday - 1) = d) as Hday by lia.
  rewrite !Hday. split_and!.
  - split; unfold leap_of; cbn [tm_sec tm_min tm_hour tm_mday tm_mon tm_year];
      rewrite ?Ey; fold l; try lia; divmod.
  - divmod.
  - f_equal. lia.
  - lia.
Qed.

(** ** [mktime] *)

Section width.
Context `{TimeT}.

Lemma time_t_small z : - 2 ^ 31 <= z < 2 ^ 31 -> time_t z = z.
Proof. intros Hz. unfold time_t. destruct time_bits_ok as [-> | ->]; apply swrap_small; lia. Qed.

Lemma time_t_fits z : - 2 ^ (time_bits - 1) <= z < 2 ^ (time_bits - 1) -> time_t z = z.
Proof. intros Hz. unfold time_t. apply swrap_small; [|done]. destruct time_bits_ok; lia. Qed.

Lemma time_max : 2 ^ 31 <= 2 ^ (time_bits - 1).
Proof. destruct time_bits_ok as [-> | ->]; cbn; lia. Qed.

Lemma land3 z : Z.land z 3 = z mod 4.
Proof. by apply (Z.land_ones z 2). Qed.

Lemma year_days_eq y :
  0 <= y < 2 ^ 21 ->
  year_days y =
    let c := (y - 131) / 100 in
    365 * y + (y + 1) / 4 -
    (if 131 <=? y then c / 4 * 3 + 1 + (if c mod 4 =? 3 then 2 else c mod 4) else 0).
Proof.
  intros Hy. unfold year_days. cbv zeta. rewrite (time_t_small (y + 1)), Z.quot_div_nonneg by lia.
  rewrite (time_t_small (_ + _)) by divmod.
  destruct (131 <=? y) eqn:E; [|lia]. rewrite Z.quot_div_nonneg by lia.
  rewrite land3, Z.shiftr_div_pow2 by lia. change (2 ^ 2) with 4.
  set (c := (y - 131) / 100). assert (0 <= c < 2 ^ 21) as Hc by (unfold c; divmod).
  pose proof (Z.mod_pos_bound c 4 ltac:(lia)). assert (0 <= c / 4 < 2 ^ 21) by divmod.
  assert (0 <= (y + 1) / 4 < 2 ^ 21) by divmod.
  rewrite (time_t_small (_ - (_ * 3 + 1))) by lia. destruct (_ =? 3) eqn:E2; rewrite time_t_small; lia.
Qed.

Lemma year_days_succ y : 0 <= y < 2 ^ 20 -> year_days (y + 1) = year_days y + year_length (1970 + y).
Proof.
  intros Hy. rewrite !year_days_eq by lia. cbv zeta. unfold year_length, leap_year.
  destruct (131 <=? y) eqn:E1, (131 <=? y + 1) eqn:E2; try lia.
  - destruct ((y - 131) / 100 mod 4 =? 3) eqn:E3, ((y + 1 - 131) / 100 mod 4 =? 3) eqn:E4,
      ((1970 + y) mod 4 =? 0) eqn:E5, ((1970 + y) mod 100 =? 0) eqn:E6,
      ((1970 + y) mod 400 =? 0) eqn:E7; cbn [negb andb orb]; divmod.
  - assert (y = 130) as -> by lia. done.
  - destruct ((1970 + y) mod 4 =? 0) eqn:E5, ((1970 + y) mod 100 =? 0) eqn:E6,
      ((1970 + y) mod 400 =? 0) eqn:E7; cbn [negb andb orb]; divmod.
Qed.

Lemma year_days_spec n : Z.of_nat n <= 2 ^ 20 -> year_days (Z.of_nat n) = days_before n.
Proof.
  induction n as [|n IH]; intros Hn; [by destruct time_bits_ok as [E|E]; unfold year_days, time_t; rewrite E|].
  cbn [days_before]. rewrite <- IH, <- year_days_succ by lia. f_equal. lia.
Qed.
End width.

Lemma forall_months (P : Z -> Prop) mon : Forall P (seqZ 0 12) -> 0 <= mon < 12 -> P mon.
Proof. rewrite Forall_forall. intros HP Hm. apply HP, elem_of_seqZ. lia. Qed.

Lemma days_before_month_spm leap mon :
  0 <= mon < 12 ->
  index __spm mon = Some (days_before_month leap mon - Z.land (b2z leap) (b2z (1 <? mon))).
Proof.
  apply (forall_months (fun mon => index __spm mon =
    Some (days_before_month leap mon - Z.land (b2z leap) (b2z (1 <? mon))))).
  destruct leap; vm_compute; repeat constructor.
Qed.

(** No day of a month reaches beyond the table, which sums up the months. *)
Lemma month_length_spm leap mon :
  0 <= mon < 12 -> exists d, index __spm (1 + mon) = Some d /\ month_length leap mon <= d.
Proof.
  apply (forall_months (fun mon => exists d, index __spm (1 + mon) = Some d /\
    month_length leap mon <= d)).
  destruct leap; cbn [seqZ]; repeat constructor;
    eexists; (split; [reflexivity|vm_compute; done]).
Qed.

Lemma days_before_month_nonneg leap mon : 0 <= mon < 12 -> 0 <= days_before_month leap mon.
Proof.
  apply (forall_months (fun mon => 0 <= days_before_month leap mon)).
  destruct leap; vm_compute; repeat constructor; done.
Qed.

Lemma month_days_max leap mon : 0 <= mon < 12 -> month_length leap mon <= 31.
Proof.
  apply (forall_months (fun mon => month_length leap mon <= 31)).
  destruct leap; vm_compute; repeat constructor; done.
Qed.

Lemma day_number_nonneg t : valid t -> 0 <= day_number t.
Proof.
  intros [_ _ _ Hm Hd _]. unfold day_number, day_of_year.
  pose proof (days_before_mono 0 (Z.to_nat (tm_year t - 70)) ltac:(lia)) as H0. cbn in H0.
  pose proof (days_before_month_nonneg (leap_of t) _ Hm). lia.
Qed.

Lemma days_before_upper n : days_before n <= 366 * Z.of_nat n.
Proof.
  induction n as [|n IH]; [done|]. cbn [days_before].
  pose proof (year_length_bounds (1970 + Z.of_nat n)). lia.
Qed.

(** Fields that an [int] and a day number that a 32-bit number can hold. *)
Definition small_year (t : tm) : Prop := tm_year t < 2 ^ 20.

Lemma mktime_wraps `{TimeT} t :
  valid t -> small_year t ->
  mktime t = Some (time_t (seconds t), mk_tm (tm_sec t) (tm_min t) (tm_hour t) (tm_mday t) (tm_mon t)
                                (tm_year t) ((day_number t + 4) mod 7) (day_of_year t)).
Proof.
  intros Hv Hsmall. pose proof Hv as [H1 H2 H3 H4 H5 H6]. unfold mktime. unfold small_year in Hsmall.
  pose proof (month_days_max (leap_of t) _ H4) as Hd31.
  rewrite (s32_small (tm_year t - 70)) by lia. rewrite (time_t_small (tm_year t - 70)) by lia.
  replace (60 <? tm_sec t) with false by lia. replace (60 <? tm_min t) with false by lia.
  replace (24 <? tm_hour t) with false by lia. replace (12 <? tm_mon t) with false by lia.
  destruct (month_length_spm (leap_of t) (tm_mon t) H4) as (d & Hd & Hle).
  replace (12 * Z.to_nat (tm_mday t) + 12)%nat with (S (12 * Z.to_nat (tm_mday t) + 11)) by lia.
  cbn [mday_loop]. rewrite Hd. replace (d <? tm_mday t) with false by lia.
  replace (tm_year t <? 70) with false by lia.
  rewrite (days_before_month_spm (leap_of t)) by done.
  rewrite (s32_small (tm_year t + 1900)) by lia.
  rewrite isleap_leap_year by lia. fold (leap_of t).
  set (l := Z.land _ _).
  assert (days_before_month (leap_of t) (tm_mon t) - l + tm_mday t - 1 + l = day_of_year t) as ->
    by (unfold day_of_year; lia).
  pose proof (day_number_nonneg t Hv) as H0. pose proof (days_before_upper (Z.to_nat (tm_year t - 70))) as Hup.
  assert (0 <= day_of_year t <= 400) as Hy.
  { unfold day_of_year. pose proof (days_before_month_nonneg (leap_of t) _ H4).
    assert (days_before_month (leap_of t) (tm_mon t) <= 335); [|lia].
    revert H4. apply (forall_months (fun mon => days_before_month (leap_of t) mon <= 335)).
    destruct (leap_of t); vm_compute; repeat constructor; done. }
  rewrite (s32_small (day_of_year t)) by lia.
  assert (year_days (tm_year t - 70) + day_of_year t = day_number t) as ->.
  { unfold day_number. rewrite <- year_days_spec by lia. do 2 f_equal. lia. }
  assert (day_number t < 2 ^ 30) as Hlt by (unfold day_number; lia).
  rewrite (time_t_small (day_number t)), (time_t_small (day_number t + 4)) by lia.
  rewrite Z.rem_mod_nonneg by lia. done.
Qed.

Lemma mktime_spec `{TimeT} t :
  valid t -> small_year t -> seconds t < 2 ^ (time_bits - 1) ->
  mktime t = Some (seconds t, mk_tm (tm_sec t) (tm_min t) (tm_hour t) (tm_mday t) (tm_mon t)
                                (tm_year t) ((day_number t + 4) mod 7) (day_of_year t)).
Proof.
  intros Hv Hs Hlt. rewrite mktime_wraps by done. rewrite time_t_fits; [done|].
  pose proof (day_number_nonneg t Hv). pose proof time_max. destruct Hv. unfold seconds in *. lia.
Qed.

(** ** Dates are determined by their seconds *)

Definition months_disjoint (leap : bool) : bool :=
  forallb (fun a => forallb (fun b => (b <=? a) ||
      (days_before_month leap a + month_length leap a <=? days_before_month leap b))
    (seqZ 0 12)) (seqZ 0 12).

Lemma months_disjoint_all leap a b :
  0 <= a < 12 -> 0 <= b < 12 -> a < b ->
  days_before_month leap a + month_length leap a <= days_before_month leap b.
Proof.
  intros Ha Hb Hlt. assert (months_disjoint leap = true) as H by (destruct leap; done).
  unfold months_disjoint in H. rewrite forallb_forall in H.
  specialize (H a ltac:(apply list_elem_of_In, elem_of_seqZ; lia)).
  rewrite forallb_forall in H. specialize (H b ltac:(apply list_elem_of_In, elem_of_seqZ; lia)).
  lia.
Qed.

Definition year_ends (leap : bool) : bool :=
  forallb (fun a => days_before_month leap a + month_length leap a <=? (if leap then 366 else 365))
    (seqZ 0 12).

Lemma day_of_year_bounds t : valid t -> 0 <= day_of_year t < year_length (tm_year t + 1900).
Proof.
  intros [_ _ _ Hm Hd _]. unfold day_of_year, year_length. fold (leap_of t).
  pose proof (days_before_month_nonneg (leap_of t) _ Hm).
  assert (year_ends (leap_of t) = true) as H' by (destruct (leap_of t); done).
  unfold year_ends in H'. rewrite forallb_forall in H'.
  specialize (H' (tm_mon t) ltac:(apply list_elem_of_In, elem_of_seqZ; lia)). lia.
Qed.

Lemma years_disjoint n m a b :
  0 <= a < year_length (1970 + Z.of_nat n) -> 0 <= b < year_length (1970 + Z.of_nat m) ->
  days_before n + a = days_before m + b -> n = m.
Proof.
  intros Ha Hb E. destruct (Nat.lt_trichotomy n m) as [Hl|[Hl|Hl]]; [|done|].
  - pose proof (days_before_mono (S n) m Hl) as H. cbn [days_before] in H. lia.
  - pose proof (days_before_mono (S m) n Hl) as H. cbn [days_before] in H. lia.
Qed.

Lemma day_number_inj t u :
  valid t -> valid u -> day_number t = day_number u ->
  tm_year t = tm_year u /\ tm_mon t = tm_mon u /\ tm_mday t = tm_mday u.
Proof.
  intros Ht Hu E. pose proof (day_of_year_bounds t Ht) as Ba.
  pose proof (day_of_year_bounds u Hu) as Bb. unfold day_number in E.
  assert (tm_year t = tm_year u) as Ey.
  { destruct Ht as [_ _ _ _ _ Yt], Hu as [_ _ _ _ _ Yu].
    assert (Z.to_nat (tm_year t - 70) = Z.to_nat (tm_year u - 70)) as En; [|lia].
    eapply years_disjoint; [..|exact E].
    - by replace (1970 + Z.of_nat (Z.to_nat (tm_year t - 70))) with (tm_year t + 1900) by lia.
    - by replace (1970 + Z.of_nat (Z.to_nat (tm_year u - 70))) with (tm_year u + 1900) by lia. }
  split; [done|]. rewrite Ey in E. clear Ba Bb.
  destruct Ht as [_ _ _ Mt Dt _], Hu as [_ _ _ Mu Du _].
  unfold day_of_year in E. unfold leap_of in *. rewrite Ey in *.
  destruct (Z.lt_trichotomy (tm_mon t) (tm_mon u)) as [Hl|[Hl|Hl]].
  - pose proof (months_disjoint_all (leap_year (tm_year u + 1900)) _ _ Mt Mu Hl). lia.
  - rewrite Hl in E. split; [done|]. lia.
  - pose proof (months_disjoint_all (leap_year (tm_year u + 1900)) _ _ Mu Mt Hl). lia.
Qed.

Lemma seconds_inj t u :
  valid t -> valid u -> weekday_ok t -> weekday_ok u -> seconds t = seconds u -> t = u.
Proof.
  intros Ht Hu [Wt Yt] [Wu Yu] E. unfold seconds in E.
  assert (day_number t = day_number u /\ tm_hour t = tm_hour u /\ tm_min t = tm_min u /\
          tm_sec t = tm_sec u) as (Ed & Eh & Em & Es) by (destruct Ht, Hu; lia).
  destruct (day_number_inj t u Ht Hu Ed) as (Ey & Emo & Emd).
  assert (day_of_year t = day_of_year u) as Edy
    by (unfold day_number in Ed; rewrite Ey in Ed; lia).
  rewrite Ed in Wt. rewrite Edy in Yt. destruct t, u. cbn in *. congruence.
Qed.

Lemma seconds_nonneg d : valid d -> 0 <= seconds d.
Proof.
  intros Hv. pose proof (day_number_nonneg d Hv). destruct Hv. unfold seconds. lia.
Qed.

Lemma gmtime_seconds d : valid d -> weekday_ok d -> gmtime_r (seconds d) = Some d.
Proof.
  intros Hv Hw. destruct (gmtime_spec _ (seconds_nonneg d Hv)) as (d' & -> & Hv' & E & Hw').
  f_equal. by apply seconds_inj.
Qed.

(** C23: [gmtime_r] ends for every time from 1970 on and finds the one date
    and time of day of the Gregorian calendar that is so many seconds after
    1 January 1970, with the right day of the week and of the year. *)
Theorem gmtime_finds_the_date t :
  0 <= t ->
  exists d, gmtime_r t = Some d /\ valid d /\ seconds d = t /\ weekday_ok d /\
    forall d', valid d' -> weekday_ok d' -> seconds d' = t -> d' = d.
Proof.
  intros Ht. destruct (gmtime_spec t Ht) as (d & Hg & Hv & Hs & Hw). exists d.
  split_and!; try done. intros d' Hv' Hw' Hs'. apply seconds_inj; congruence.
Qed.

(** C24: for every date that exists, from 1970 to a million years later, [mktime]
    returns its seconds converted to [time_t], whether this has 32 bits (as with the
    toolchain of the project) or 64, and completes the fields with the day of the
    week and of the year.  While the seconds fit, which with 32 bits is until January
    2038, [mktime] and [gmtime_r] are inverse to each other: the result is the seconds
    of the date, and breaking these down again gives the fields that [mktime] has
    left. *)
Theorem mktime_inverts_gmtime `{TimeT} d :
  valid d -> small_year d ->
  exists d', mktime d = Some (time_t (seconds d), d') /\
    valid d' /\ weekday_ok d' /\ seconds d' = seconds d /\
    (seconds d < 2 ^ (time_bits - 1) ->
       mktime d = Some (seconds d, d') /\ gmtime_r (seconds d) = Some d').
Proof.
  intros Hv Hs. eexists. split; [by apply mktime_wraps|].
  set (d' := mk_tm _ _ _ _ _ _ _ _). assert (valid d') as Hv' by (by destruct Hv).
  assert (weekday_ok d') as Hw by done. split_and!; try done.
  intros Hlt. split; [by apply mktime_spec|]. change (seconds d) with (seconds d'). by apply gmtime_seconds.
Qed.

Lemma gmtime_finds_the_date_witness :
  exists d, gmtime_r 1683331200 = Some d /\ valid d /\ seconds d = 1683331200 /\ weekday_ok d /\
    forall d', valid d' -> weekday_ok d' -> seconds d' = 1683331200 -> d' = d.
Proof. apply (gmtime_finds_the_date 1683331200). lia. Defined.

Lemma mktime_inverts_gmtime_witness :
  let d := mk_tm 8 49 21 29 1 124 0 0 in
  exists d', @mktime time_long d = Some (seconds d, d') /\ gmtime_r (seconds d) = Some d'.
Proof.
  intros d. destruct (@mktime_inverts_gmtime time_long d) as (d' & _ & _ & _ & _ & Hd).
  - split; vm_compute; try split; congruence.
  - vm_compute. reflexivity.
  - exists d'. apply Hd. vm_compute. reflexivity.
Defined.

(** With a 32-bit [time_t] the first second that does not fit is taken for a time in
    1901, although the function has a branch for the years after 2100. *)
Theorem mktime_wraps_in_2038 :
  let d := mk_tm 8 14 3 19 0 138 0 0 in
  seconds d = 2 ^ 31 /\ exists d', @mktime time_long d = Some (- 2 ^ 31, d').
Proof. split; [reflexivity|]. eexists. vm_compute. reflexivity. Qed.

(** Days beyond the end of a month are not normalised: 32 January 2023, which
    is 1 February, becomes 32 February, a month later. *)
Theorem mktime_32_january :
  exists d, @mktime time_long (mk_tm 0 0 0 32 0 123 0 0) = Some (1677888000, d) /\
    tm_mon d = 1 /\ tm_mday d = 32 /\ seconds (mk_tm 0 0 0 1 1 123 0 0) = 1675209600.
Proof. eexists. split; [vm_compute; reflexivity|]. vm_compute. done. Qed.
