(* ===== verification/Rtc.v ===== *)
(** * The software clock and its synchronisation

    The clock device that counts ticks
    (src/rt-thread/components/drivers/rtc/soft_rtc.c, rtc.c), the C library's
    [time] on top of it and the network time client that sets it
    (src/packages/netutils-v1.3.2/ntp/ntp.c).  The tick, which goes on while
    the code runs, and the network are given by the environment. *)

From Stdlib Require Import ZArith Lia.
From stdpp Require Import prelude list.
From S2P Require Import Prelude CTime.
Open Scope Z_scope.
Open Scope c_scope.

(** ** State *)

(** The static variables of soft_rtc.c and whether the device is registered;
    the [n]-th call of [rt_tick_get] returns [tick_src n] and the ticks that
    the code has [slept], modulo 2^32, and [reads] is the number of calls so
    far. *)
Record rtc_state := mk_rtc {
  tick_src : nat -> Z;
  reads : nat;
  slept : Z;
  init_ok : bool;
  init_tick : Z;
  init_time : Z
}.

Abbreviation R := (M rtc_state).

Definition RT_TICK_PER_SECOND : Z := 1000.
Definition RT_EOK : Z := 0.
Definition RT_ERROR : Z := 1.
Definition RT_DEVICE_CTRL_RTC_GET_TIME : Z := 0x10.
Definition RT_DEVICE_CTRL_RTC_SET_TIME : Z := 0x11.

Definition rt_tick_get : R Z := fun s =>
  Some (u32 (s.(tick_src) s.(reads) + s.(slept)),
        mk_rtc s.(tick_src) (S s.(reads)) s.(slept) s.(init_ok) s.(init_tick) s.(init_time)).

(** One tick is a millisecond. *)
Definition rt_thread_mdelay (ms : Z) : R unit :=
  modify (fun s => mk_rtc s.(tick_src) s.(reads) (s.(slept) + ms) s.(init_ok) s.(init_tick)
                     s.(init_time)).

Definition set_init_time (t : Z) : R unit :=
  modify (fun s => mk_rtc s.(tick_src) s.(reads) s.(slept) s.(init_ok) s.(init_tick) t).

(** A computation without state whose loop may not end. *)
Definition lift {A} (o : option A) : R A := fun s =>
  match o with Some a => Some (a, s) | None => None end.

Section clock.
Context `{TimeT}.

(** ** The device *)

(** Seconds since the device was initialised: a 32-bit subtraction and
    division. *)
Definition uptime : R Z :=
  now <- rt_tick_get ;;
  t0 <- gets init_tick ;;
  ret (Z.quot (u32 (now - t0)) RT_TICK_PER_SECOND).

(** The return code and what is left in [*args]. *)
Definition soft_rtc_control (cmd args : Z) : R (Z * Z) :=
  if cmd =? RT_DEVICE_CTRL_RTC_GET_TIME then
    up <- uptime ;;
    t0 <- gets init_time ;;
    ret (RT_EOK, time_t (t0 + up))
  else if cmd =? RT_DEVICE_CTRL_RTC_SET_TIME then
    up <- uptime ;;
    set_init_time (time_t (args - up)) ;;;
    ret (RT_EOK, args)
  else ret (RT_EOK, args).

(** [SOFT_RTC_TIME_DEFAULT]: 1 January 2018 *)
Definition SOFT_RTC_TIME_DEFAULT : tm := mk_tm 0 0 0 1 (1 - 1) (2018 - 1900) 0 0.

Definition rt_soft_rtc_init : R Z :=
  ok <- gets init_ok ;;
  if ok : bool then ret 0 else
  t0 <- rt_tick_get ;;
  ' (t, _) <- lift (mktime SOFT_RTC_TIME_DEFAULT) ;;
  modify (fun s => mk_rtc s.(tick_src) s.(reads) s.(slept) true t0 t) ;;;
  ret 0.

(** ** The C library's clock *)

(** Opening the device succeeds: it has no functions of its own for it. *)
Definition time : R Z :=
  device <- gets init_ok ;;
  if device : bool then
    ' (_, now) <- soft_rtc_control RT_DEVICE_CTRL_RTC_GET_TIME 0 ;; ret now
  else ret 0.

Definition control_rtc (now : Z) : R Z :=
  device <- gets init_ok ;;
  if device : bool then
    ' (r, _) <- soft_rtc_control RT_DEVICE_CTRL_RTC_SET_TIME now ;; ret r
  else ret (- RT_ERROR).

Definition set_date (year month day : Z) : R Z :=
  now <- time ;;
  p <- lift (localtime_r now) ;;
  let tm_new := mk_tm p.(tm_sec) p.(tm_min) p.(tm_hour) (s32 day) (s32 (month - 1))
                  (s32 (year - 1900)) p.(tm_wday) p.(tm_yday) in
  ' (now, _) <- lift (mktime tm_new) ;;
  control_rtc now.

Definition set_time (hour minute second : Z) : R Z :=
  now <- time ;;
  p <- lift (localtime_r now) ;;
  let tm_new := mk_tm (s32 second) (s32 minute) (s32 hour) p.(tm_mday) p.(tm_mon)
                  p.(tm_year) p.(tm_wday) p.(tm_yday) in
  ' (now, _) <- lift (mktime tm_new) ;;
  control_rtc now.

(** ** The network time client *)

(** What the network does: the socket, the result of sending to each of the
    configured servers (resolving its name included) and what each call of
    [recvfrom] delivers: a datagram, of which it stores at most 48 bytes, or an
    error.  The packet is a
    static variable, which nobody else uses while a call runs: the function is
    documented as not reentrant. *)
Record net := mk_net {
  sockfd : Z;
  sent : list Z;
  received : nat -> option (list Z)
}.

Definition NTP_TIMESTAMP_DELTA : Z := 2208988800.
Definition RECV_TIME_DELAY_MS : Z := 10.
Definition NTP_GET_TIMEOUT : Z := 5.
Definition RT_VERSION : Z := 4.
Definition RT_SUBVERSION : Z := 0.
Definition RT_REVISION : Z := 3.

(** The bytes after the first word of the request: device address, build
    month, versions and a checksum. *)
Definition ntp_internet (hwaddr : list Z) (month_num : Z) : option (list Z) :=
  data ← put 0 [0x02] (repeat 0 18);
  data ← put 1 (List.map (fun b => u8 (b + month_num)) hwaddr) data;
  data ← put 9 [RT_VERSION; RT_SUBVERSION; RT_REVISION; 0; 0; 0; 0] data;
  let check := foldr (fun b c => u16 (c + b)) 0 (take 16 data) in
  put 16 [u8 (Z.shiftr check 8); Z.land check 0xFF] data.

Definition ntp_request (hwaddr : list Z) (month_num : Z) : option (list Z) :=
  packet ← put 0 [0x1b] (repeat 0 48);
  data ← ntp_internet hwaddr month_num;
  put 4 data packet.

(** One pass over the servers: the first datagram that arrives, of any length. *)
Fixpoint ntp_recv (received : nat -> option (list Z)) (servers calls : nat) : option (list Z) * nat :=
  match servers with
  | O => (None, calls)
  | S n => match received calls with
           | Some ((_ :: _) as data) => (Some (take 48 data), S calls)
           | Some [] | None => ntp_recv received n (S calls)
           end
  end.

(** The loop; the packet holds what arrived, in front of what was sent. *)
Fixpoint ntp_wait (fuel : nat) (received : nat -> option (list Z)) (servers : nat) (start : Z)
    (calls : nat) (packet : list Z) : R (list Z) :=
  now <- rt_tick_get ;;
  if u32 (now - start) <? NTP_GET_TIMEOUT * RT_TICK_PER_SECOND then
    match fuel with
    | O => undefined
    | S fuel =>
        match ntp_recv received servers calls with
        | (Some data, _) => lift (put 0 data packet)
        | (None, calls) =>
            rt_thread_mdelay RECV_TIME_DELAY_MS ;;;
            ntp_wait fuel received servers start calls packet
        end
    end
  else ret packet.

Definition ntohl_at (packet : list Z) (off : nat) : Z :=
  be32 (at_ packet off) (at_ packet (off + 1)) (at_ packet (off + 2)) (at_ packet (off + 3)).

(** With the default servers.  The packet is a static variable of the code: the
    model is of one call at a time.  A round of the loop delays for ten
    milliseconds, so that 501 rounds are enough. *)
Definition ntp_get_time (e : net) (hwaddr : list Z) (month_num : Z) : R Z :=
  packet <- lift (ntp_request hwaddr month_num) ;;
  if e.(sockfd) <? 0 then ret 0 else
  let server_num := List.length (List.filter (fun r => 0 <=? r) e.(sent)) in
  if (server_num =? 0)%nat then ret 0 else
  start <- rt_tick_get ;;
  packet <- ntp_wait 501 e.(received) server_num start 0 packet ;;
  now <- rt_tick_get ;;
  if u32 (now - start) <? NTP_GET_TIMEOUT * RT_TICK_PER_SECOND then
    ret (time_t (ntohl_at packet 40 - NTP_TIMESTAMP_DELTA))
  else ret 0.

Definition NETUTILS_NTP_TIMEZONE : Z := 8.

Definition ntp_get_local_time (e : net) (hwaddr : list Z) (month_num : Z) : R Z :=
  cur_time <- ntp_get_time e hwaddr month_num ;;
  if truthy cur_time then ret (time_t (cur_time + NETUTILS_NTP_TIMEZONE * 3600)) else ret cur_time.

(** Setting the clock of the device to a local time. *)
Definition set_rtc (cur_time : Z) : R unit :=
  cur_tm <- lift (localtime_r cur_time) ;;
  set_time cur_tm.(tm_hour) cur_tm.(tm_min) cur_tm.(tm_sec) ;;;
  set_date (cur_tm.(tm_year) + 1900) (cur_tm.(tm_mon) + 1) cur_tm.(tm_mday) ;;;
  ret tt.

Definition ntp_sync_to_rtc (e : net) (hwaddr : list Z) (month_num : Z) : R Z :=
  cur_time <- ntp_get_local_time e hwaddr month_num ;;
  if truthy cur_time then set_rtc cur_time ;;; ret cur_time else ret cur_time.

(** ** The start of the time thread *)

(** [thread_entry_my_time] before its loop: the clock is set to whatever the
    time client has returned. *)
Definition my_time_start (e : net) (hwaddr : list Z) (month_num : Z) : R Z :=
  cur_time <- ntp_get_time e hwaddr month_num ;;
  device <- gets init_ok ;;
  if device : bool then
    soft_rtc_control RT_DEVICE_CTRL_RTC_SET_TIME cur_time ;;; ret cur_time
  else undefined.

(** ** The synchronisation thread *)

Definition RTC_NTP_FIRST_SYNC_DELAY : Z := 10.
Definition RTC_NTP_SYNC_PERIOD : Z := 3600.

(** [rounds] rounds of the loop, which never ends; [es n] is what the network does
    in the [n]-th. *)
Fixpoint ntp_sync_loop (rounds n : nat) (es : nat -> net) (hwaddr : list Z) (month_num : Z) : R unit :=
  match rounds with
  | O => ret tt
  | S rounds =>
      ntp_sync_to_rtc (es n) hwaddr month_num ;;;
      rt_thread_mdelay (RTC_NTP_SYNC_PERIOD * RT_TICK_PER_SECOND) ;;;
      ntp_sync_loop rounds (S n) es hwaddr month_num
  end.

Definition ntp_sync_thread_enrty (rounds : nat) (es : nat -> net) (hwaddr : list Z) (month_num : Z) : R unit :=
  rt_thread_mdelay (RTC_NTP_FIRST_SYNC_DELAY * RT_TICK_PER_SECOND) ;;;
  ntp_sync_loop rounds 0 es hwaddr month_num.

End clock.
