(* ===== verification/RtcSpec.v ===== *)
(** * The clock keeps time

    Proved about Rtc.v: the clock device shows the time it was set to plus the
    time that has passed, synchronising with a time server sets it, and the
    client of the time server ends and only reports times that a server has
    sent. *)

From Stdlib Require Import ZArith Lia.
From stdpp Require Import prelude list.
From S2P Require Import Prelude CTime Calendar Rtc.
Open Scope Z_scope.
Open Scope c_scope.

(** The state after [n] reads of the tick. *)
Definition at_read (n : nat) (s : rtc_state) : rtc_state :=
  mk_rtc s.(tick_src) n s.(slept) s.(init_ok) s.(init_tick) s.(init_time).
Definition with_init_time (t : Z) (s : rtc_state) : rtc_state :=
  mk_rtc s.(tick_src) s.(reads) s.(slept) s.(init_ok) s.(init_tick) t.

(** Ticks since the device was initialised, at a read of the tick. *)
Definition age (s : rtc_state) (n : nat) : Z :=
  u32 (u32 (s.(tick_src) n + s.(slept)) - s.(init_tick)).

(** The time the device shows at a read of the tick. *)
Definition shown (s : rtc_state) (n : nat) : Z := s.(init_time) + age s n / 1000.

Lemma age_range s n : 0 <= age s n < 2 ^ 32.
Proof. apply u32_range. Qed.

Section clock.
Context `{TimeT}.

(** Times from 1970 on that a [time_t] can hold. *)
Definition sane (t : Z) : Prop := 0 <= t < 2 ^ (time_bits - 1).

Lemma uptime_eq s : uptime s = Some (age s (reads s) / 1000, at_read (S (reads s)) s).
Proof.
  unfold uptime, bind, rt_tick_get, gets, ret. cbn [init_tick].
  fold (age s (reads s)). unfold RT_TICK_PER_SECOND. pose proof (age_range s (reads s)).
  by rewrite Z.quot_div_nonneg by lia.
Qed.

Lemma age_div s n : 0 <= age s n / 1000 < 4294968.
Proof. pose proof (age_range s n). divmod. Qed.

Lemma time_eq s :
  init_ok s = true -> sane (shown s (reads s)) ->
  time s = Some (shown s (reads s), at_read (S (reads s)) s).
Proof.
  intros Hi Hs. unfold time, bind at 1, gets at 1. rewrite Hi.
  change (soft_rtc_control RT_DEVICE_CTRL_RTC_GET_TIME 0) with
    (bind uptime (fun up => bind (gets init_time) (fun t0 => ret (RT_EOK, time_t (t0 + up))))).
  unfold bind. rewrite uptime_eq. cbn [gets ret at_read init_time].
  fold (shown s (reads s)). unfold sane in Hs. by rewrite time_t_fits by lia.
Qed.

Lemma control_rtc_eq t s :
  init_ok s = true -> sane t ->
  control_rtc t s =
    Some (RT_EOK, with_init_time (t - age s (reads s) / 1000) (at_read (S (reads s)) s)).
Proof.
  intros Hi Ht. unfold control_rtc, bind at 1, gets at 1. rewrite Hi.
  change (soft_rtc_control RT_DEVICE_CTRL_RTC_SET_TIME t) with
    (bind uptime (fun up => bind (set_init_time (time_t (t - up))) (fun _ => ret (RT_EOK, t)))).
  unfold bind. rewrite uptime_eq. cbn [set_init_time modify ret at_read].
  pose proof (age_div s (reads s)). pose proof time_max. unfold sane in Ht. by rewrite time_t_fits by lia.
Qed.

(** C25: the clock keeps time.  Once it has been set to a time that is not within
    97 days of the limit of [time_t], which may have 32 or 64 bits, it shows at
    every later moment this time plus the seconds that have passed since, at
    most one second more, as long as the 32-bit tick has not come round to where
    it was when the device was initialised. *)
Theorem rtc_keeps_time s t n :
  init_ok s = true -> 0 <= t < 2 ^ (time_bits - 1) - 2 ^ 23 -> age s (reads s) <= age s n ->
  exists s1 r s2,
    control_rtc t s = Some (RT_EOK, s1) /\ time (at_read n s1) = Some (r, s2) /\
    t + (age s n - age s (reads s)) / 1000 <= r <= t + (age s n - age s (reads s)) / 1000 + 1.
Proof.
  intros Hi Ht Hn. rewrite control_rtc_eq by (done || unfold sane; lia).
  pose proof (age_div s (reads s)). pose proof (age_div s n).
  set (s1 := with_init_time _ _). do 3 eexists. split; [reflexivity|].
  assert (shown (at_read n s1) n = t + (age s n / 1000 - age s (reads s) / 1000)) as E.
  { unfold shown, s1. cbn [at_read with_init_time init_time].
    change (age _ n) with (age s n) at 1. lia. }
  rewrite time_eq; [|done|unfold sane; cbn [at_read reads]; rewrite E; divmod].
  split; [reflexivity|]. cbn [at_read reads]. rewrite E. divmod.
Qed.

(** ** Setting the clock field by field *)

(** The reads of the tick from now on fall into the same second. *)
Definition steady (s : rtc_state) : Prop :=
  forall n, (reads s <= n)%nat -> age s n / 1000 = age s (reads s) / 1000.

(** The device is there and shows [t] while the second lasts. *)
Record shows (t : Z) (s : rtc_state) : Prop := mk_shows {
  shows_ok : init_ok s = true;
  shows_steady : steady s;
  shows_time : shown s (reads s) = t
}.

Lemma at_read_age n m s : age (at_read n s) m = age s m.
Proof. done. Qed.

Lemma shows_read t s : shows t s -> shows t (at_read (S (reads s)) s).
Proof.
  intros [Hi Hst Ht]. split; [done| |].
  - intros n Hn. cbn [at_read reads] in *. rewrite !at_read_age.
    rewrite (Hst n), (Hst (S (reads s))) by lia. done.
  - rewrite <- Ht. unfold shown. cbn [at_read reads init_time]. rewrite at_read_age.
    rewrite (Hst (S (reads s))) by lia. done.
Qed.

Lemma shows_time_eq t s :
  shows t s -> sane t -> exists s', time s = Some (t, s') /\ shows t s'.
Proof.
  intros Hs Ht. eexists. rewrite time_eq; [|apply Hs|by rewrite (shows_time _ _ Hs)].
  rewrite (shows_time _ _ Hs). split; [done|]. by apply shows_read.
Qed.

Lemma shows_control t u s :
  shows t s -> sane u -> exists s', control_rtc u s = Some (RT_EOK, s') /\ shows u s'.
Proof.
  intros Hs Hu. destruct (shows_read _ _ Hs) as [Hi Hst Ht].
  eexists. rewrite control_rtc_eq; [|apply Hs|done]. split; [done|]. split; [done|exact Hst|].
  unfold shown. cbn [with_init_time at_read reads init_time].
  change (age _ (S (reads s))) with (age s (S (reads s))).
  rewrite (shows_steady _ _ Hs (S (reads s))) by lia. lia.
Qed.

(** Times before the year 10000. *)
Definition this_era (t : Z) : Prop := 0 <= t < 253402300800.

Lemma days_before_lower n : 365 * Z.of_nat n <= days_before n.
Proof.
  induction n as [|n IH]; [done|]. cbn [days_before].
  pose proof (year_length_bounds (1970 + Z.of_nat n)). lia.
Qed.

Lemma era_year d : valid d -> this_era (seconds d) -> 70 <= tm_year d < 10000.
Proof.
  intros Hv [_ Hs]. pose proof (days_before_lower (Z.to_nat (tm_year d - 70))).
  pose proof (day_of_year_bounds d Hv). destruct Hv.
  unfold seconds, day_number in Hs. lia.
Qed.

(** The date of [d] with the time of day of [u]. *)
Definition join_time (d u : tm) : tm :=
  mk_tm (tm_sec u) (tm_min u) (tm_hour u) (tm_mday d) (tm_mon d) (tm_year d) (tm_wday d) (tm_yday d).

Definition time_of_day (u : tm) : Z := (tm_hour u * 60 + tm_min u) * 60 + tm_sec u.

Lemma valid_join d u : valid d -> valid u -> valid (join_time d u).
Proof. by intros [] []. Qed.

Lemma seconds_join d u : seconds (join_time d u) = day_number d * 86400 + time_of_day u.
Proof.
  unfold seconds, time_of_day. change (day_number (join_time d u)) with (day_number d). cbn. lia.
Qed.

Lemma time_of_day_range u : valid u -> 0 <= time_of_day u < 86400.
Proof. intros []. unfold time_of_day. lia. Qed.

Lemma seconds_split d : seconds d = day_number d * 86400 + time_of_day d.
Proof. unfold seconds, time_of_day. lia. Qed.

Lemma era_join d u : valid d -> valid u -> this_era (seconds d) -> this_era (seconds (join_time d u)).
Proof.
  intros Hd Hu He. rewrite seconds_join. rewrite seconds_split in He.
  pose proof (time_of_day_range u Hu). pose proof (time_of_day_range d Hd).
  pose proof (day_number_nonneg d Hd). unfold this_era in *. lia.
Qed.

Lemma era_small_year d : valid d -> this_era (seconds d) -> small_year d.
Proof. intros Hd He. pose proof (era_year d Hd He). unfold small_year. lia. Qed.

Lemma sane_join d u : valid d -> valid u -> sane (seconds d + 86400) -> sane (seconds (join_time d u)).
Proof.
  intros Hd Hu. unfold sane. rewrite seconds_join, seconds_split. pose proof (time_of_day_range u Hu).
  pose proof (time_of_day_range d Hd). pose proof (day_number_nonneg d Hd). lia.
Qed.

Lemma set_time_spec d u s :
  valid d -> valid u -> weekday_ok d -> this_era (seconds d) -> sane (seconds d + 86400) -> shows (seconds d) s ->
  exists s', set_time (tm_hour u) (tm_min u) (tm_sec u) s = Some (RT_EOK, s') /\
    shows (seconds (join_time d u)) s'.
Proof.
  intros Hd Hu Hw He Hm Hs. pose proof (seconds_nonneg d Hd). unfold set_time. unfold bind at 1.
  destruct (shows_time_eq _ _ Hs) as (s1 & -> & Hs1); [unfold sane in *; lia|].
  unfold bind at 1, lift at 1, localtime_r. rewrite gmtime_seconds by done. cbv zeta.
  rewrite !s32_small by (destruct Hu; lia). fold (join_time d u).
  pose proof (sane_join d u Hd Hu Hm) as Hj.
  unfold bind, lift. rewrite (mktime_spec _ (valid_join _ _ Hd Hu)); [|by apply (era_small_year d)|apply Hj].
  by apply (shows_control _ _ _ Hs1).
Qed.

Lemma set_date_spec d u s :
  valid d -> valid u -> weekday_ok d -> this_era (seconds d) -> this_era (seconds u) ->
  sane (seconds d) -> sane (seconds u + 86400) -> shows (seconds d) s ->
  exists s', set_date (tm_year u + 1900) (tm_mon u + 1) (tm_mday u) s = Some (RT_EOK, s') /\
    shows (seconds (join_time u d)) s'.
Proof.
  intros Hd Hu Hw He Heu Hm Hmu Hs. unfold set_date. unfold bind at 1.
  destruct (shows_time_eq _ _ Hs) as (s1 & -> & Hs1); [done|].
  unfold bind at 1, lift at 1, localtime_r. rewrite gmtime_seconds by done. cbv zeta.
  pose proof (era_year u Hu Heu). pose proof (month_days_max (leap_of u) _ (valid_mon _ Hu)).
  replace (tm_year u + 1900 - 1900) with (tm_year u) by lia.
  replace (tm_mon u + 1 - 1) with (tm_mon u) by lia.
  rewrite !s32_small by (destruct Hu; lia). set (x := mk_tm _ _ _ _ _ _ _ _).
  assert (valid x) as Hx by (by destruct Hd, Hu).
  pose proof (sane_join u d Hu Hd Hmu) as Hj.
  unfold bind, lift. rewrite (mktime_spec _ Hx); [|by apply (era_small_year u)|apply Hj].
  change (seconds x) with (seconds (join_time u d)).
  by apply (shows_control _ _ _ Hs1).
Qed.

(** Synchronising sets the clock.  When the network client has got a
    time, [ntp_sync_to_rtc] sets the time of day and then the date, each of them on
    top of what the clock shows; afterwards the clock shows the time of the
    server, provided that the second does not change on the way and that no time
    comes within a day of the limit of [time_t]. *)
Theorem ntp_sync_sets_clock e hw mo s c s1 t :
  ntp_get_local_time e hw mo s = Some (c, s1) -> this_era c -> c <> 0 ->
  shows t s1 -> this_era t -> c + 86400 < 2 ^ (time_bits - 1) -> t + 86400 < 2 ^ (time_bits - 1) ->
  exists s2 s3, ntp_sync_to_rtc e hw mo s = Some (c, s2) /\ time s2 = Some (c, s3).
Proof.
  intros Hget Hc Hnz Hs Ht Hcm Htm. unfold ntp_sync_to_rtc. unfold bind at 1. rewrite Hget.
  unfold truthy. replace (c =? 0) with false by lia. cbn [negb].
  destruct (gmtime_spec c) as (u & Hu & Hv & <- & Hw); [apply Hc|].
  destruct (gmtime_spec t) as (d & Hd & Hvd & <- & Hwd); [apply Ht|].
  unfold bind at 1, set_rtc. unfold bind at 1, lift, localtime_r. rewrite Hu.
  assert (sane (seconds d + 86400)) as Hds by (unfold sane, this_era in *; lia).
  assert (sane (seconds u + 86400)) as Hus by (unfold sane, this_era in *; lia).
  destruct (set_time_spec d u s1) as (s2 & E2 & Hs2); try done.
  unfold bind at 1. rewrite E2.
  destruct (set_date_spec (join_time d u) u s2) as (s3 & E3 & Hs3); try done.
  { by apply valid_join. }
  { by apply era_join. }
  { by apply sane_join. }
  unfold bind at 1. rewrite E3. cbn [ret].
  change (seconds (join_time u (join_time d u))) with (seconds u) in Hs3.
  destruct (shows_time_eq _ _ Hs3) as (s4 & E4 & _); [unfold sane, this_era in *; lia|].
  exists s3, s4. done.
Qed.

(** The time thread sets the clock to what the time client returns: to the
    time of Greenwich, where [ntp_sync_to_rtc] sets the local time, and to the
    beginning of 1970 when the client has failed and returns 0. *)
Theorem my_time_start_sets_utc e hw mo s g s1 t :
  ntp_get_time e hw mo s = Some (g, s1) -> shows t s1 -> sane g ->
  exists s2, my_time_start e hw mo s = Some (g, s2) /\ shows g s2.
Proof.
  intros Hg Hs Hsane. destruct (shows_control _ _ _ Hs Hsane) as (s2 & E & Hs2). exists s2.
  split; [|done]. unfold my_time_start. unfold bind at 1. rewrite Hg.
  unfold control_rtc, bind, gets in E |- *. rewrite (shows_ok _ _ Hs) in E |- *.
  destruct (soft_rtc_control RT_DEVICE_CTRL_RTC_SET_TIME g s1) as [[[r x] s3]|]; [|done].
  by injection E as _ <-.
Qed.

(** ** The network client *)

Lemma put_some off l buf :
  (off + List.length l <= List.length buf)%nat ->
  exists buf', put off l buf = Some buf' /\ List.length buf' = List.length buf.
Proof.
  intros Hl. unfold put. rewrite (proj2 (Nat.leb_le _ _)) by done. eexists. split; [done|].
  rewrite !length_app, length_take, length_drop. lia.
Qed.

Lemma put_at off l buf buf' i :
  put off l buf = Some buf' -> (off + List.length l <= i)%nat -> at_ buf' i = at_ buf i.
Proof.
  unfold put. destruct (_ <=? _)%nat eqn:E; [|done]. apply Nat.leb_le in E. intros [= <-] Hi. unfold at_.
  rewrite app_nth2; rewrite length_take, Nat.min_l by lia; [|lia].
  rewrite app_nth2 by lia. rewrite nth_skipn. f_equal. lia.
Qed.

Lemma put_front l buf buf' i : put 0 l buf = Some buf' -> (i < List.length l)%nat -> at_ buf' i = at_ l i.
Proof.
  unfold put. destruct (_ <=? _)%nat; [|done]. intros [= <-] Hi. unfold at_. by rewrite app_nth1.
Qed.

(** The request: 48 bytes, of which the last 26 are zero. *)
Lemma ntp_request_some hw mo :
  (List.length hw <= 8)%nat ->
  exists packet, ntp_request hw mo = Some packet /\ List.length packet = 48%nat /\
    forall i, (22 <= i)%nat -> at_ packet i = 0.
Proof.
  intros Hh. unfold ntp_request, ntp_internet.
  change (put 0 [27] (repeat 0 48)) with (Some (27 :: repeat 0 47)).
  change (put 0 [2] (repeat 0 18)) with (Some (2 :: repeat 0 17)). cbn [mbind option_bind].
  destruct (put_some 1 (List.map (fun b => u8 (b + mo)) hw) (2 :: repeat 0 17)) as (d1 & -> & L1).
  { rewrite length_map. cbn. lia. }
  cbn [mbind option_bind].
  destruct (put_some 9 [RT_VERSION; RT_SUBVERSION; RT_REVISION; 0; 0; 0; 0] d1) as (d2 & -> & L2).
  { rewrite L1. cbn. lia. }
  cbn [mbind option_bind].
  edestruct (put_some 16) as (d3 & -> & L3); [rewrite L2, L1; cbn; lia|]. cbn [mbind option_bind].
  assert (List.length d3 = 18%nat) as L by (by rewrite L3, L2, L1).
  destruct (put_some 4 d3 (27 :: repeat 0 47)) as (p & Ep & Lp); [rewrite L; cbn; lia|].
  exists p. split; [done|]. split; [by rewrite Lp|]. intros i Hi. rewrite (put_at _ _ _ _ i Ep) by (rewrite L; lia).
  unfold at_. destruct i as [|i]; [lia|]. cbn [nth]. apply nth_repeat.
Qed.

(** The tick goes on, and no stretch of code takes longer than 12 days. *)
Definition clock_runs (s : rtc_state) : Prop :=
  forall n, s.(tick_src) n <= s.(tick_src) (S n) <= s.(tick_src) n + 2 ^ 30.

(** The ticks from [start] to the next read. *)
Definition since (start : Z) (s : rtc_state) : Z := s.(tick_src) (reads s) + s.(slept) - start.

Lemma tick_since start s :
  0 <= since start s < 2 ^ 32 ->
  u32 (u32 (s.(tick_src) (reads s) + s.(slept)) - u32 start) = since start s.
Proof.
  intros Hs. unfold u32. rewrite <- Zminus_mod. apply Z.mod_small. exact Hs.
Qed.

(** A datagram that arrives in full or cut off. *)
Definition arrived (received : nat -> option (list Z)) (data : list Z) : Prop :=
  data <> [] /\ exists j, received j = Some data.

Lemma ntp_recv_spec received n calls :
  match ntp_recv received n calls with
  | (Some l, _) => exists data, arrived received data /\ l = take 48 data
  | (None, _) => True
  end.
Proof.
  revert calls. induction n as [|n IH]; intros calls; cbn [ntp_recv]; [done|].
  destruct (received calls) as [[|x l]|] eqn:E; [apply IH| |apply IH]. exists (x :: l). split; [|reflexivity]. split; [discriminate|]. by exists calls.
Qed.

(** The packet after a datagram has arrived. *)
Lemma ntp_store packet data :
  List.length packet = 48%nat -> (forall i, (22 <= i)%nat -> at_ packet i = 0) ->
  exists p, put 0 (take 48 data) packet = Some p /\ ntohl_at p 40 = ntohl_at data 40.
Proof.
  intros Hp Hz. destruct (put_some 0 (take 48 data) packet) as (p & E & _); [rewrite length_take; lia|].
  exists p. split; [done|].
  assert (forall i, (40 <= i < 48)%nat -> at_ p i = at_ data i) as Hi; [|unfold ntohl_at; by rewrite !Hi by lia].
  intros i Hi. destruct (decide (i < List.length data)%nat) as [Hlt|Hge].
  - rewrite (put_front _ _ _ i E) by (rewrite length_take; lia). unfold at_. rewrite <- (firstn_skipn 48 data) at 2.
    by rewrite app_nth1 by (rewrite length_take; lia).
  - rewrite (put_at _ _ _ _ i E) by (rewrite length_take; lia). rewrite Hz by lia. unfold at_. by rewrite nth_overflow by lia.
Qed.

Lemma ntp_wait_spec received fuel servers start calls packet s :
  clock_runs s -> List.length packet = 48%nat -> (forall i, (22 <= i)%nat -> at_ packet i = 0) ->
  0 <= since start s <= 5010 + 2 ^ 30 -> 5010 <= since start s + 10 * Z.of_nat fuel ->
  exists p s', ntp_wait fuel received servers (u32 start) calls packet s = Some (p, s') /\
    0 <= since start s' < 2 ^ 32 /\
    ((exists data, arrived received data /\ ntohl_at p 40 = ntohl_at data 40) \/ 5000 <= since start s').
Proof.
  revert calls s. induction fuel as [|fuel IH]; intros calls s Hc Hp Hz Hr Hf; cbn [ntp_wait];
    unfold bind at 1, rt_tick_get at 1; rewrite tick_since by lia;
    change (NTP_GET_TIMEOUT * RT_TICK_PER_SECOND) with 5000;
    set (s1 := mk_rtc _ _ _ _ _ _);
    assert (since start s <= since start s1 <= since start s + 2 ^ 30) as H1
      by (unfold since, s1; cbn [tick_src reads slept]; pose proof (Hc (reads s)); lia);
    destruct (since start s <? 5000) eqn:E.
  - lia.
  - exists packet, s1. split; [done|]. split; [lia|right; lia].
  - pose proof (ntp_recv_spec received servers calls) as Hrec.
    destruct (ntp_recv received servers calls) as [[data|] calls'].
    + destruct Hrec as (d & Hd & ->). destruct (ntp_store packet d Hp Hz) as (p & Ep & Et).
      unfold lift. rewrite Ep. exists p, s1. split; [done|]. split; [lia|]. left. by exists d.
    + unfold bind, rt_thread_mdelay, modify. apply IH; try done;
        unfold since in *; cbn [tick_src reads slept] in *; unfold RECV_TIME_DELAY_MS; lia.
  - exists packet, s1. split; [done|]. split; [lia|right; lia].
Qed.

(** C27: the client of the time servers, called by one thread at a time, always ends,
    within 501 rounds of its loop, whatever datagrams arrive and whatever their
    length, and reports 0 or the time in a datagram that has arrived: the four bytes
    from 40 on, where bytes that a short datagram does not have count as zero; the
    bytes of its own request never get into the result. *)
Theorem ntp_reports_server_time e hw mo s :
  clock_runs s -> (List.length hw <= 8)%nat ->
  exists r s', ntp_get_time e hw mo s = Some (r, s') /\
    (r = 0 \/ exists data, arrived (received e) data /\ r = time_t (ntohl_at data 40 - NTP_TIMESTAMP_DELTA)).
Proof.
  intros Hc Hh. destruct (ntp_request_some hw mo Hh) as (packet & Ep & Lp & Hz).
  unfold ntp_get_time. unfold bind at 1, lift. rewrite Ep.
  destruct (sockfd e <? 0); [do 2 eexists; split; [reflexivity|by left]|].
  set (n := List.length _). destruct (n =? 0)%nat; [do 2 eexists; split; [reflexivity|by left]|].
  unfold bind at 1, rt_tick_get at 1. set (s1 := mk_rtc _ _ _ _ _ _).
  set (start := tick_src s (reads s) + slept s).
  assert (0 <= since start s1 <= 2 ^ 30) as H1.
  { unfold since, s1, start. cbn [tick_src reads slept]. pose proof (Hc (reads s)). lia. }
  destruct (ntp_wait_spec (received e) 501 n start 0 packet s1) as (p & s2 & E2 & H2 & Hp);
    [done|done|done|lia|lia|].
  unfold bind at 1. rewrite E2. unfold bind at 1, rt_tick_get. rewrite tick_since by done.
  change (NTP_GET_TIMEOUT * RT_TICK_PER_SECOND) with 5000.
  destruct (since start s2 <? 5000) eqn:E; [|do 2 eexists; split; [reflexivity|by left]].
  destruct Hp as [(d & Hd & Et)|Hp]; [|lia]. do 2 eexists. split; [reflexivity|]. right. exists d. by rewrite Et.
Qed.

End clock.

(** ** A concrete clock *)

#[local] Existing Instance time_long.

(** The device four seconds after its initialisation, and an answer of a
    server for 6 May 2023. *)
Definition demo_rtc : rtc_state := mk_rtc (fun _ => 5000) 0 0 true 1000 1514764800.
Definition demo_answer : list Z := (repeat 0 40 ++ bytes32 3892320000 ++ repeat 0 4)%list.
Definition demo_net : net :=
  mk_net 3 [48; -1; 48] (fun j => if (j =? 4)%nat then Some demo_answer else None).
Definition demo_hw : list Z := [0x5c; 0xcf; 0x7f; 0x01; 0x02; 0x03].

Lemma rtc_init_example :
  exists s, rt_soft_rtc_init (mk_rtc (fun _ => 1000) 0 0 false 0 0) = Some (0, s) /\
    init_ok s = true /\ init_tick s = 1000 /\ init_time s = 1514764800.
Proof. eexists. vm_compute. done. Qed.

Lemma rtc_keeps_time_witness :
  let s := mk_rtc (fun n => 5000 + 1700 * Z.of_nat n) 0 0 true 1000 1514764800 in
  exists s1 r s2,
    control_rtc 1683331200 s = Some (RT_EOK, s1) /\ time (at_read 10 s1) = Some (r, s2) /\
    1683331200 + (age s 10 - age s 0) / 1000 <= r <=
    1683331200 + (age s 10 - age s 0) / 1000 + 1.
Proof. intros s. apply (rtc_keeps_time s 1683331200 10); [done|vm_compute; split; congruence|vm_compute; congruence]. Defined.

Lemma ntp_sync_sets_clock_witness :
  exists s2 s3, ntp_sync_to_rtc demo_net demo_hw 5 demo_rtc = Some (1683360000, s2) /\
    time s2 = Some (1683360000, s3).
Proof.
  eapply (ntp_sync_sets_clock demo_net demo_hw 5 demo_rtc 1683360000 _ 1514764804).
  - vm_compute. reflexivity.
  - split; lia.
  - lia.
  - split; [done|by intros n _|done].
  - split; lia.
  - cbn. lia.
  - cbn. lia.
Defined.

Lemma ntp_reports_server_time_witness :
  exists r s', ntp_get_time demo_net demo_hw 5 demo_rtc = Some (r, s') /\
    (r = 0 \/ exists data, arrived (received demo_net) data /\ r = time_t (ntohl_at data 40 - NTP_TIMESTAMP_DELTA)).
Proof.
  apply (ntp_reports_server_time demo_net demo_hw 5 demo_rtc).
  - intros n. cbn. lia.
  - cbn. lia.
Defined.

(** A datagram of one byte, from whoever sends it, is reported as a time: with a
    32-bit [time_t] as 7 February 2036. *)
Theorem short_datagram_is_a_time :
  exists s', ntp_get_time (mk_net 3 [48] (fun _ => Some [0])) demo_hw 5 demo_rtc = Some (2085978496, s').
Proof. eexists. vm_compute. reflexivity. Qed.
