(* ===== verification/App.v ===== *)
(** * The clock application

    The threads of src/applications: the time page (my_time.c), the sensor
    page (my_dht11.c), the weather page (Weather.c), the tilt control
    (my_mpu6050.c) and the display thread (oled.c) that shows them.  The
    producers hand their data over as pointers to structures that they go on
    using, so these structures are part of the shared state. *)

From Stdlib Require Import ZArith Lia.
From Stdlib Require Import Ascii String.
From stdpp Require Import prelude list.
From S2P Require Import Prelude CFloat CTime.
Open Scope Z_scope.
Open Scope c_scope.

(** ** Strings *)

(** A C string: the bytes before the first zero, if there is one. *)
Fixpoint c_str (l : list Z) : option (list Z) :=
  match l with
  | [] => None
  | b :: l => if b =? 0 then Some [] else s ← c_str l; Some (b :: s)
  end.

(** [%d] of a number that is not negative. *)
Fixpoint decimal_from (fuel : nat) (n : Z) : list Z :=
  match fuel with
  | O => []
  | S fuel => if n <? 10 then [48 + n] else (decimal_from fuel (n / 10) ++ [48 + n mod 10])%list
  end.
Definition decimal (n : Z) : list Z := decimal_from 10 n.

(** [sprintf] into an array, with its terminating zero. *)
Definition sprintf (arr text : list Z) : option (list Z) := put 0 (text ++ [0])%list arr.

(** ** The time page *)

Record mesg_time := mk_mesg_time {
  hour : list Z;
  week : list Z;
  mouth : list Z;
  year : list Z
}.

(** The body of the loop of [thread_entry_my_time]: [buf] is the buffer that
    [ctime] returns. *)
Definition fill_time (str : list Z) (mes : mesg_time) : option mesg_time :=
  h ← get str 11 8; h ← put 0 h mes.(hour); h ← put 8 [0] h;
  y ← get str 20 4; y ← put 0 y mes.(year); y ← put 4 [0] y;
  w ← get str 0 3; w ← put 0 w mes.(week); w ← put 3 [0] w;
  m ← get str 4 6; m ← put 0 m mes.(mouth); m ← put 6 [0] m;
  Some (mk_mesg_time h w m y).

Definition time_round (now : Z) (buf : list Z) (mes : mesg_time) : option (list Z * mesg_time) :=
  str ← ctime now buf; mes ← fill_time str mes; Some (str, mes).

(** ** The sensor page *)

Record mesg_dht := mk_mesg_dht {
  temp : list Z;
  humi : list Z
}.

(** A value that the sensor has delivered: humidity in the upper half,
    temperature in the lower one; nothing is sent for a negative value. *)
Definition dht_round (data : Z) (msg : mesg_dht) : option (mesg_dht * bool) :=
  if 0 <=? data then
    let strTemp := Z.shiftr (Z.land data 0xffff) 0 in
    let strHumi := Z.shiftr (Z.land (u32 data) 0xffff0000) 16 in
    t ← sprintf msg.(temp) (chars "Temp: " ++ decimal strTemp ++ chars " C")%list;
    h ← sprintf msg.(humi) (chars "Humi: " ++ decimal strHumi ++ chars " %")%list;
    Some (mk_mesg_dht t h, true)
  else Some (msg, false).

(** ** The tilt control *)

Definition Page_Max : Z := 2.

(** The body of the loop of [thread_entry_mpu] for one attitude: the new
    page and page_buff, and the page to send. *)
Definition page_step (pitch : float) (page page_buff : Z) : Z * Z * option Z :=
  if flt pitch (F32.of_Z (-40)) && (page_buff =? 1) then
    let page := page + 1 in
    let page := if Page_Max <? page then 0 else page in
    (page, 0, Some (u32 page))
  else if fgt pitch (F32.of_Z 40) && (page_buff =? 1) then
    let page := page - 1 in
    let page := if page <? 0 then Page_Max else page in
    (page, 0, Some (u32 page))
  else if fgt pitch (F32.of_Z (-30)) && flt pitch (F32.of_Z 30) then (page, 1, None)
  else (page, page_buff, None).
