(* ===== verification/AppText.v ===== *)
(** * The texts of the pages

    What the time page and the sensor page show, read back from the bytes of
    the structures that the producers fill. *)

From Stdlib Require Import ZArith Lia.
From Stdlib Require Import Ascii String.
From stdpp Require Import prelude list.
From S2P Require Import Prelude CTime Calendar RtcSpec App.
Open Scope Z_scope.

(** ** Numbers of two digits *)

Definition two (i : Z) : list Z := [48 + i / 10; 48 + i mod 10].

Lemma num2str_two i : 0 <= i < 100 -> num2str i = two i.
Proof.
  intros Hi. unfold num2str, two. rewrite Z.quot_div_nonneg, Z.rem_mod_nonneg by lia.
  f_equal; [|f_equal]; rewrite u8_small; divmod.
Qed.

Definition day_name (i : Z) : list Z := take 4 (drop (Z.to_nat (4 * i)) days).
Definition month_name (i : Z) : list Z := take 4 (drop (Z.to_nat (4 * i)) months).

Lemma day_name_4 i : 0 <= i < 7 -> List.length (day_name i) = 4%nat.
Proof.
  intros Hi. unfold day_name. rewrite length_take, length_drop.
  change (List.length days) with 29%nat. lia.
Qed.

Lemma month_name_4 i : 0 <= i < 12 -> List.length (month_name i) = 4%nat.
Proof.
  intros Hi. unfold month_name. rewrite length_take, length_drop.
  change (List.length months) with 49%nat. lia.
Qed.

(** The text of [asctime]. *)
Definition text (d : tm) : list Z :=
  let mday := two (tm_mday d) in
  (day_name (tm_wday d) ++ month_name (tm_mon d) ++
   [if at_ mday 0 =? 48 then 32 else at_ mday 0; at_ mday 1] ++ [32] ++
   two (tm_hour d) ++ [58] ++ two (tm_min d) ++ [58] ++ two (tm_sec d) ++ [32] ++
   two ((tm_year d + 1900) / 100) ++ two ((tm_year d + 1900) mod 100) ++ [10])%list.

Lemma get_days i : 0 <= i < 7 -> get days (Z.shiftl i 2) 4 = Some (day_name i).
Proof.
  intros Hi. rewrite Z.shiftl_mul_pow2 by lia. change (2 ^ 2) with 4. unfold get, day_name.
  change (Z.of_nat (List.length days)) with 29. change (Z.of_nat 4) with 4.
  replace ((0 <=? i * 4) && (i * 4 + 4 <=? 29)) with true by lia.
  by rewrite (Z.mul_comm i).
Qed.

Lemma get_months i : 0 <= i < 12 -> get months (Z.shiftl i 2) 4 = Some (month_name i).
Proof.
  intros Hi. rewrite Z.shiftl_mul_pow2 by lia. change (2 ^ 2) with 4. unfold get, month_name.
  change (Z.of_nat (List.length months)) with 49. change (Z.of_nat 4) with 4.
  replace ((0 <=? i * 4) && (i * 4 + 4 <=? 49)) with true by lia.
  by rewrite (Z.mul_comm i).
Qed.

(** Evaluating writes into an array whose length is known. *)
Ltac run_put :=
  repeat (cbv beta; match goal with
    | |- context [mbind ?f (Some ?x)] => change (mbind f (Some x)) with (f x)
    | |- context [put ?o ?l ?b] =>
        let r := eval lazy [put Nat.add Nat.leb List.length take drop app chars List.map
          list_ascii_of_string] in (put o l b) in
        match r with Some _ => change (put o l b) with r end
    end).

Lemma length_4 (l : list Z) : List.length l = 4%nat -> exists a b c d, l = [a; b; c; d].
Proof. do 5 (destruct l as [|? l]; try done). eauto. Qed.

(** The text does not depend on what the buffer held. *)
Lemma asctime_text d buf :
  valid d -> 0 <= tm_wday d < 7 -> tm_year d + 1900 < 10000 -> List.length buf = 25%nat ->
  asctime_r d buf = Some (text d).
Proof.
  intros [H1 H2 H3 H4 H5 H6] Hw Hy Hb. unfold asctime_r, text.
  pose proof (month_days_max (leap_of d) _ H4).
  rewrite get_days, get_months, Z.quot_div_nonneg, Z.rem_mod_nonneg by lia.
  rewrite !num2str_two by divmod. unfold two.
  destruct (length_4 (day_name (tm_wday d))) as (a1 & a2 & a3 & a4 & ->); [by apply day_name_4|].
  destruct (length_4 (month_name (tm_mon d))) as (b1 & b2 & b3 & b4 & ->); [by apply month_name_4|].
  do 25 (destruct buf as [|? buf]; [done|]). destruct buf; [|done]. clear.
  run_put. cbn [at_ nth]. destruct (_ =? 48); run_put; reflexivity.
Qed.

(** ** Reading the time page *)

Definition digit (b : Z) : option Z := if (48 <=? b) && (b <? 58) then Some (b - 48) else None.
Definition read2 (a b : Z) : option Z := x ← digit a; y ← digit b; Some (10 * x + y).
(** The day of the month has a blank in place of a leading zero. *)
Definition read_mday (a b : Z) : option Z := if a =? 32 then digit b else read2 a b.
Definition read_month (name : list Z) : option Z :=
  List.find (fun i => bool_decide (take 3 (month_name i) = name)) (seqZ 0 12).

(** What a reader makes of the page: the seconds since 1970 of the date and
    time it shows. *)
Definition read_clock (mes : mesg_time) : option Z :=
  h ← c_str mes.(hour); m ← c_str mes.(mouth); y ← c_str mes.(year);
  match h, m, y with
  | [h1; h2; _; m1; m2; _; s1; s2], [n1; n2; n3; _; d1; d2], [y1; y2; y3; y4] =>
      hh ← read2 h1 h2; mm ← read2 m1 m2; ss ← read2 s1 s2;
      mon ← read_month [n1; n2; n3]; day ← read_mday d1 d2;
      c ← read2 y1 y2; yy ← read2 y3 y4;
      Some (seconds (mk_tm ss mm hh day mon (100 * c + yy - 1900) 0 0))
  | _, _, _ => None
  end.

Record mesg_shape (mes : mesg_time) : Prop := mk_shape {
  shape_hour : List.length mes.(hour) = 10%nat;
  shape_week : List.length mes.(week) = 6%nat;
  shape_mouth : List.length mes.(mouth) = 8%nat;
  shape_year : List.length mes.(year) = 8%nat
}.

Lemma c_str_spec l r : Forall (fun b => b <> 0) l -> c_str (l ++ 0 :: r)%list = Some l.
Proof.
  induction 1 as [|b l Hb Hl IH]; [done|]. cbn [c_str app]. replace (b =? 0) with false by lia.
  by rewrite IH.
Qed.

Lemma read2_two i : 0 <= i < 100 -> read2 (48 + i / 10) (48 + i mod 10) = Some i.
Proof.
  intros Hi. unfold read2, digit.
  replace ((48 <=? 48 + i / 10) && (48 + i / 10 <? 58)) with true by divmod.
  replace ((48 <=? 48 + i mod 10) && (48 + i mod 10 <? 58)) with true by divmod.
  cbn [mbind option_bind]. f_equal. divmod.
Qed.

Lemma read_mday_two i :
  1 <= i < 100 ->
  read_mday (if 48 + i / 10 =? 48 then 32 else 48 + i / 10) (48 + i mod 10) = Some i.
Proof.
  intros Hi. unfold read_mday. destruct (48 + i / 10 =? 48) eqn:E.
  - change (32 =? 32) with true. cbv iota. unfold digit.
    replace ((48 <=? 48 + i mod 10) && (48 + i mod 10 <? 58)) with true by divmod.
    f_equal. divmod.
  - replace (48 + i / 10 =? 32) with false by divmod. apply read2_two. lia.
Qed.

Lemma read_month_name i : 0 <= i < 12 -> read_month (take 3 (month_name i)) = Some i.
Proof.
  apply (forall_months (fun i => read_month (take 3 (month_name i)) = Some i)).
  vm_compute. repeat constructor.
Qed.

Lemma month_name_nonzero i : 0 <= i < 12 -> Forall (fun b => b <> 0) (month_name i).
Proof.
  apply (forall_months (fun i => Forall (fun b => b <> 0) (month_name i))).
  vm_compute. repeat constructor; done.
Qed.

Lemma day_name_nonzero i : 0 <= i < 7 -> Forall (fun b => b <> 0) (day_name i).
Proof.
  intros Hi. assert (Forall (fun i => Forall (fun b => b <> 0) (day_name i)) (seqZ 0 7)) as H
    by (vm_compute; repeat constructor; done).
  rewrite Forall_forall in H. apply H, elem_of_seqZ. lia.
Qed.

Lemma two_nonzero i : 0 <= i -> Forall (fun b => b <> 0) (two i).
Proof. intros Hi. unfold two. repeat constructor; divmod. Qed.

(** The slices that the time thread copies. *)
Lemma fill_text d mes :
  0 <= tm_wday d < 7 -> 0 <= tm_mon d < 12 -> mesg_shape mes ->
  exists rh rw rm ry,
    fill_time (text d) mes = Some (mk_mesg_time
      ((two (tm_hour d) ++ [58] ++ two (tm_min d) ++ [58] ++ two (tm_sec d)) ++ 0 :: rh)
      (take 3 (day_name (tm_wday d)) ++ 0 :: rw)
      ((month_name (tm_mon d) ++
        [if 48 + tm_mday d / 10 =? 48 then 32 else 48 + tm_mday d / 10; 48 + tm_mday d mod 10]) ++
        0 :: rm)
      ((two ((tm_year d + 1900) / 100) ++ two ((tm_year d + 1900) mod 100)) ++ 0 :: ry))%list /\
    List.length rh = 1%nat /\ List.length rw = 2%nat /\ List.length rm = 1%nat /\
    List.length ry = 3%nat.
Proof.
  intros Hw Hm [L1 L2 L3 L4]. destruct mes as [h w m y]. cbn [hour week mouth year] in *.
  unfold text. cbn [at_ nth two].
  destruct (length_4 (day_name (tm_wday d))) as (a1 & a2 & a3 & a4 & ->); [by apply day_name_4|].
  destruct (length_4 (month_name (tm_mon d))) as (b1 & b2 & b3 & b4 & ->); [by apply month_name_4|].
  generalize (if 48 + tm_mday d / 10 =? 48 then 32 else 48 + tm_mday d / 10). intros x.
  do 10 (destruct h as [|? h]; [done|]). destruct h; [|done].
  do 6 (destruct w as [|? w]; [done|]). destruct w; [|done].
  do 8 (destruct m as [|? m]; [done|]). destruct m; [|done].
  do 8 (destruct y as [|? y]; [done|]). destruct y; [|done].
  clear. unfold two. do 4 eexists. split; [reflexivity|done].
Qed.

Lemma era_four_digits d : valid d -> this_era (seconds d) -> tm_year d + 1900 < 10000.
Proof.
  intros Hv [_ He]. destruct (Z.lt_ge_cases (tm_year d + 1900) 10000) as [|Hy]; [done|exfalso].
  pose proof (days_before_mono (Z.to_nat 8030) (Z.to_nat (tm_year d - 70)) ltac:(lia)) as Hd.
  replace (days_before (Z.to_nat 8030)) with 2932897 in Hd by (vm_compute; reflexivity).
  pose proof (day_of_year_bounds d Hv). pose proof (time_of_day_range d Hv).
  rewrite seconds_split in He. unfold day_number in He. lia.
Qed.

Lemma read_filled d rh rw rm ry :
  valid d -> this_era (seconds d) ->
  read_clock (mk_mesg_time
      ((two (tm_hour d) ++ [58] ++ two (tm_min d) ++ [58] ++ two (tm_sec d)) ++ 0 :: rh)
      (take 3 (day_name (tm_wday d)) ++ 0 :: rw)
      ((month_name (tm_mon d) ++
        [if 48 + tm_mday d / 10 =? 48 then 32 else 48 + tm_mday d / 10; 48 + tm_mday d mod 10]) ++
        0 :: rm)
      ((two ((tm_year d + 1900) / 100) ++ two ((tm_year d + 1900) mod 100)) ++ 0 :: ry))%list =
  Some (seconds d).
Proof.
  intros Hv He. pose proof (era_four_digits d Hv He) as Hy. destruct Hv as [V1 V2 V3 V4 V5 V6].
  pose proof (month_days_max (leap_of d) _ V4). unfold read_clock. cbn [hour mouth year].
  assert (0 <= (tm_year d + 1900) / 100 < 100) as Y1 by divmod.
  assert (0 <= (tm_year d + 1900) mod 100 < 100) as Y2 by divmod.
  rewrite !c_str_spec by (repeat (apply Forall_app; split);
    first [apply two_nonzero; lia | by apply month_name_nonzero
          | repeat constructor; try destruct (_ =? 48); divmod]).
  cbn [mbind option_bind].
  pose proof (read_month_name _ V4) as Hn.
  destruct (length_4 (month_name (tm_mon d))) as (b1 & b2 & b3 & b4 & E); [by apply month_name_4|].
  rewrite E in Hn |- *. cbn [two app take] in *.
  rewrite !read2_two by lia. rewrite Hn, read_mday_two by lia. cbn [mbind option_bind].
  f_equal. unfold seconds, day_number, day_of_year, leap_of. cbn [tm_year tm_mon tm_mday
    tm_hour tm_min tm_sec].
  replace (100 * ((tm_year d + 1900) / 100) + (tm_year d + 1900) mod 100 - 1900) with (tm_year d)
    by divmod. done.
Qed.

Lemma time_round_spec now buf mes :
  this_era now -> List.length buf = 25%nat -> mesg_shape mes ->
  exists buf' mes', time_round now buf mes = Some (buf', mes') /\
    List.length buf' = 25%nat /\ mesg_shape mes' /\ read_clock mes' = Some now /\
    c_str mes'.(week) = Some (take 3 (day_name ((now / 86400 + 4) mod 7))).
Proof.
  intros Hn Hb Hs. destruct (gmtime_spec now (proj1 Hn)) as (d & Hg & Hv & <- & Hw & _).
  assert (tm_wday d = (seconds d / 86400 + 4) mod 7) as Hwd.
  { rewrite Hw. f_equal. pose proof (time_of_day_range d Hv). rewrite seconds_split. divmod. }
  assert (0 <= tm_wday d < 7) as Hwr by (rewrite Hw; divmod).
  unfold time_round, ctime, localtime_r. rewrite Hg. cbn [mbind option_bind].
  rewrite asctime_text by auto using era_four_digits. cbn [mbind option_bind].
  destruct (fill_text d mes Hwr (valid_mon _ Hv) Hs) as (rh & rw & rm & ry & -> & L1 & L2 & L3 & L4).
  cbn [mbind option_bind]. do 2 eexists. split; [reflexivity|].
  pose proof (day_name_4 _ Hwr) as D4. pose proof (month_name_4 _ (valid_mon _ Hv)) as M4.
  split_and!.
  - unfold text. cbn [two]. rewrite !length_app, D4, M4. done.
  - split; cbn [hour week mouth year two app]; rewrite ?length_app, ?length_take, ?D4, ?M4;
      cbn [List.length]; rewrite ?length_app; cbn [List.length]; lia.
  - by apply read_filled.
  - cbn [week]. rewrite <- Hwd. apply c_str_spec. apply Forall_take. by apply day_name_nonzero.
Qed.

(** C28: what the time page says is the time.  For every time up to the year
    9999 the time thread fills its structure without leaving any of its
    arrays, whatever they held before; a reader of the strings gets exactly this
    time back, and the day of the week is right. *)
Theorem time_page_shows_the_time now buf mes :
  this_era now -> List.length buf = 25%nat -> mesg_shape mes ->
  exists buf' mes', time_round now buf mes = Some (buf', mes') /\
    List.length buf' = 25%nat /\ mesg_shape mes' /\ read_clock mes' = Some now /\
    c_str mes'.(week) = Some (take 3 (day_name ((now / 86400 + 4) mod 7))).
Proof. apply time_round_spec. Qed.

Lemma time_page_shows_the_time_witness :
  let mes := mk_mesg_time (repeat 7 10) (repeat 7 6) (repeat 7 8) (repeat 7 8) in
  exists buf' mes', time_round 1683331200 (repeat 0 25) mes = Some (buf', mes') /\
    List.length buf' = 25%nat /\ mesg_shape mes' /\ read_clock mes' = Some 1683331200 /\
    c_str mes'.(week) = Some (take 3 (day_name ((1683331200 / 86400 + 4) mod 7))).
Proof.
  intros mes. apply (time_page_shows_the_time 1683331200 (repeat 0 25) mes); [split; lia|done|by split].
Defined.

Lemma c_str_none l : Forall (fun b => b <> 0) l -> c_str l = None.
Proof.
  induction 1 as [|b l Hb Hl IH]; [done|]. cbn [c_str]. replace (b =? 0) with false by lia.
  by rewrite IH.
Qed.

(** The buffer of 25 bytes that [ctime] returns is full: there is no room for
    a terminating zero, so that printing it as a string reads beyond it. *)
Theorem ctime_not_terminated now buf :
  this_era now -> List.length buf = 25%nat ->
  exists str, ctime now buf = Some str /\ List.length str = 25%nat /\ c_str str = None.
Proof.
  intros Hn Hb. destruct (gmtime_spec now (proj1 Hn)) as (d & Hg & Hv & <- & Hw & _).
  assert (0 <= tm_wday d < 7) as Hwr by (rewrite Hw; divmod).
  pose proof (era_four_digits d Hv Hn) as Hy.
  unfold ctime, localtime_r. rewrite Hg. cbn [mbind option_bind].
  rewrite asctime_text by done. eexists. split; [reflexivity|].
  pose proof (day_name_4 _ Hwr) as D4. pose proof (month_name_4 _ (valid_mon _ Hv)) as M4.
  unfold text. split; [cbn [two]; by rewrite !length_app, D4, M4|].
  apply c_str_none. pose proof (day_name_nonzero _ Hwr). pose proof (month_name_nonzero _ (valid_mon _ Hv)).
  destruct Hv. cbn [at_ nth two].
  repeat (apply Forall_app; split); first [done | apply two_nonzero; divmod
    | repeat constructor; try destruct (_ =? 48); divmod].
Qed.

(** ** The sensor page *)

Definition read_decimal (l : list Z) : Z := foldl (fun a b => 10 * a + (b - 48)) 0 l.

Lemma decimal_value fuel n :
  0 <= n < 10 ^ Z.of_nat fuel -> read_decimal (decimal_from fuel n) = n.
Proof.
  revert n. induction fuel as [|fuel IH]; intros n Hn; [cbn in *; lia|].
  cbn [decimal_from]. destruct (n <? 10) eqn:E; [cbn; lia|].
  unfold read_decimal. rewrite foldl_app. fold (read_decimal (decimal_from fuel (n / 10))).
  rewrite IH.
  - cbn [foldl]. divmod.
  - rewrite Nat2Z.inj_succ, Z.pow_succ_r in Hn by lia. split; [divmod|].
    apply Z.div_lt_upper_bound; lia.
Qed.

Lemma decimal_nonzero fuel n : 0 <= n -> Forall (fun b => b <> 0) (decimal_from fuel n).
Proof.
  revert n. induction fuel as [|fuel IH]; intros n Hn; cbn [decimal_from]; [done|].
  destruct (n <? 10); [repeat constructor; lia|].
  apply Forall_app. split; [apply IH; divmod|repeat constructor; divmod].
Qed.

Lemma decimal_length n :
  0 <= n -> if n <? 1000 then (List.length (decimal n) <= 3)%nat
            else (4 <= List.length (decimal n))%nat.
Proof.
  intros Hn. unfold decimal. cbn [decimal_from].
  destruct (n <? 10) eqn:E1, (n <? 1000) eqn:E; cbn [List.length]; try lia;
    destruct (n / 10 <? 10) eqn:E2; rewrite ?length_app; cbn [List.length]; try (divmod || lia);
    destruct (n / 10 / 10 <? 10) eqn:E3; rewrite ?length_app; cbn [List.length]; try (divmod || lia);
    destruct (n / 10 / 10 / 10 <? 10) eqn:E4; rewrite ?length_app; cbn [List.length];
      try (divmod || lia).
Qed.

Lemma sprintf_spec arr text :
  Forall (fun b => b <> 0) text ->
  if (List.length text <? List.length arr)%nat
  then exists arr', sprintf arr text = Some arr' /\ List.length arr' = List.length arr /\
         c_str arr' = Some text
  else sprintf arr text = None.
Proof.
  intros Ht. unfold sprintf, put. cbn [Nat.add]. rewrite length_app. cbn [List.length].
  destruct (_ <? _)%nat eqn:E.
  - apply Nat.ltb_lt in E. rewrite (proj2 (Nat.leb_le _ _)) by lia. eexists.
    split; [reflexivity|]. rewrite take_0. split; [rewrite !length_app, length_drop; cbn; lia|].
    cbn [app]. rewrite <- app_assoc. by apply c_str_spec.
  - apply Nat.ltb_ge in E. by rewrite (proj2 (Nat.leb_gt _ _)) by lia.
Qed.

Definition dht_shape (msg : mesg_dht) : Prop :=
  List.length msg.(temp) = 12%nat /\ List.length msg.(humi) = 12%nat.

Definition temp_text (t : Z) : list Z := (chars "Temp: " ++ decimal t ++ chars " C")%list.
Definition humi_text (h : Z) : list Z := (chars "Humi: " ++ decimal h ++ chars " %")%list.

Lemma page_text_nonzero (l r : list Z) n :
  Forall (fun b => b <> 0) l -> Forall (fun b => b <> 0) r -> 0 <= n ->
  Forall (fun b => b <> 0) (l ++ decimal n ++ r)%list.
Proof. intros Hl Hr Hn. repeat (apply Forall_app; split); auto. by apply decimal_nonzero. Qed.

(** A text of the page fits its twelve bytes exactly when its number has at
    most three digits. *)
Lemma page_text_fits arr (l r : list Z) n :
  Forall (fun b => b <> 0) l -> Forall (fun b => b <> 0) r ->
  List.length l = 6%nat -> List.length r = 2%nat -> 0 <= n -> List.length arr = 12%nat ->
  if n <? 1000
  then exists arr', sprintf arr (l ++ decimal n ++ r)%list = Some arr' /\
         List.length arr' = 12%nat /\ c_str arr' = Some (l ++ decimal n ++ r)%list
  else sprintf arr (l ++ decimal n ++ r)%list = None.
Proof.
  intros Hl Hr Ll Lr Hn La. pose proof (decimal_length n Hn) as Hd.
  pose proof (sprintf_spec arr _ (page_text_nonzero l r n Hl Hr Hn)) as Hs.
  rewrite !length_app, Ll, Lr, La in Hs.
  destruct (n <? 1000).
  - rewrite (proj2 (Nat.ltb_lt _ _)) in Hs by lia. exact Hs.
  - rewrite (proj2 (Nat.ltb_ge _ _)) in Hs by lia. exact Hs.
Qed.

Lemma dht_fields data :
  0 <= data < 2 ^ 31 ->
  Z.shiftr (Z.land data 0xffff) 0 = data mod 2 ^ 16 /\
  Z.shiftr (Z.land (u32 data) 0xffff0000) 16 = data / 2 ^ 16.
Proof.
  intros Hd. split.
  - rewrite Z.shiftr_0_r. by apply (Z.land_ones data 16).
  - rewrite u32_small, Z.shiftr_land by lia. change (Z.shiftr 0xffff0000 16) with (Z.ones 16).
    rewrite Z.land_ones, Z.shiftr_div_pow2 by lia. apply Z.mod_small. divmod.
Qed.

Lemma dht_round_spec data msg :
  0 <= data < 2 ^ 31 -> dht_shape msg ->
  let t := data mod 2 ^ 16 in
  let h := data / 2 ^ 16 in
  if (t <? 1000) && (h <? 1000)
  then exists msg', dht_round data msg = Some (msg', true) /\ dht_shape msg' /\
         c_str msg'.(temp) = Some (temp_text t) /\ c_str msg'.(humi) = Some (humi_text h) /\
         read_decimal (decimal t) = t /\ read_decimal (decimal h) = h
  else dht_round data msg = None.
Proof.
  intros Hd [Lt Lh]. cbv zeta. destruct (dht_fields data Hd) as [Et Eh]. unfold dht_round.
  replace (0 <=? data) with true by lia. rewrite Et, Eh. clear Et Eh.
  assert (0 <= data mod 2 ^ 16 < 2 ^ 16 /\ 0 <= data / 2 ^ 16 < 2 ^ 15) as [Ht Hh] by divmod.
  set (t := data mod 2 ^ 16) in *. set (h := data / 2 ^ 16) in *. clearbody t h.
  pose proof (page_text_fits (temp msg) (chars "Temp: ") (chars " C") t) as Ft.
  pose proof (page_text_fits (humi msg) (chars "Humi: ") (chars " %") h) as Fh.
  destruct (t <? 1000) eqn:E1; cbn [andb].
  2: { rewrite Ft; try done; [vm_compute; repeat constructor; done..|lia]. }
  destruct Ft as (a & -> & La & Ca); try done; [vm_compute; repeat constructor; done..|lia|].
  cbn [mbind option_bind]. destruct (h <? 1000) eqn:E2.
  2: { rewrite Fh; try done; [vm_compute; repeat constructor; done..|lia]. }
  destruct Fh as (b & -> & Lb & Cb); try done; [vm_compute; repeat constructor; done..|lia|].
  cbn [mbind option_bind]. eexists. split; [reflexivity|]. cbn [temp humi]. split_and!; try done.
  - apply decimal_value. cbn. lia.
  - apply decimal_value. cbn. lia.
Qed.

(** The sensor page.  For a value from the sensor whose temperature and
    humidity are below 1000, the two strings fit their arrays of twelve bytes and
    their numbers read back as what was measured.  The bound is exact: for any
    other value that is not negative [sprintf] leaves its array. *)
Theorem dht_page_shows_the_data data msg :
  0 <= data < 2 ^ 31 -> dht_shape msg ->
  let t := data mod 2 ^ 16 in
  let h := data / 2 ^ 16 in
  if (t <? 1000) && (h <? 1000)
  then exists msg', dht_round data msg = Some (msg', true) /\ dht_shape msg' /\
         c_str msg'.(temp) = Some (temp_text t) /\ c_str msg'.(humi) = Some (humi_text h) /\
         read_decimal (decimal t) = t /\ read_decimal (decimal h) = h
  else dht_round data msg = None.
Proof. apply dht_round_spec. Qed.

Lemma dht_page_shows_the_data_witness :
  let msg := mk_mesg_dht (repeat 7 12) (repeat 7 12) in
  exists msg', dht_round (45 * 2 ^ 16 + 23) msg = Some (msg', true) /\ dht_shape msg' /\
    c_str msg'.(temp) = Some (temp_text 23) /\ c_str msg'.(humi) = Some (humi_text 45) /\
    read_decimal (decimal 23) = 23 /\ read_decimal (decimal 45) = 45.
Proof.
  intros msg. apply (dht_page_shows_the_data (45 * 2 ^ 16 + 23) msg); [lia|done].
Defined.
