(* ===== verification/AppPages.v ===== *)
(** * Turning pages by tilting

    The tilt control of App.v against a description of what a tilt is: a
    reading beyond 40 degrees turns the page once, and the next turn needs the
    clock to have been level, within 30 degrees, in between. *)

From Stdlib Require Import ZArith Lia SpecFloat.
From stdpp Require Import prelude list.
From S2P Require Import Prelude CFloat App.
Open Scope Z_scope.

(** ** Readings *)

Inductive tilt := Forward | Back | Level | Between.
#[export] Instance tilt_eq_dec : EqDecision tilt.
Proof. solve_decision. Defined.

Definition tilt_of (pitch : float) : tilt :=
  if flt pitch (F32.of_Z (-40)) then Forward
  else if fgt pitch (F32.of_Z 40) then Back
  else if fgt pitch (F32.of_Z (-30)) && flt pitch (F32.of_Z 30) then Level
  else Between.

(** The constants as the compiler stores them. *)
Lemma constants :
  F32.of_Z (-40) = S754_finite true 10485760 (-18) /\ F32.of_Z 40 = S754_finite false 10485760 (-18) /\
  F32.of_Z (-30) = S754_finite true 15728640 (-19) /\ F32.of_Z 30 = S754_finite false 15728640 (-19).
Proof. vm_compute. done. Qed.

(** The thresholds of turning and of being level exclude each other, for
    every float, infinities and NaN included. *)
Lemma forward_not_level p : flt p (F32.of_Z (-40)) = true -> fgt p (F32.of_Z (-30)) = false.
Proof.
  destruct constants as (-> & _ & -> & _). unfold flt, fgt, SFltb, SFcompare.
  destruct p as [[]|[]| |[] m e]; try done.
  destruct (Z.compare_spec e (-18)), (Z.compare_spec (-19) e); try done; try lia.
Qed.

Lemma back_not_level p : fgt p (F32.of_Z 40) = true -> flt p (F32.of_Z 30) = false.
Proof.
  destruct constants as (_ & -> & _ & ->). unfold flt, fgt, SFltb, SFcompare.
  destruct p as [[]|[]| |[] m e]; try done.
  destruct (Z.compare_spec (-18) e), (Z.compare_spec e (-19)); try done; try lia.
Qed.

Definition turn_page (d page : Z) : Z := (page + d) mod 3.

(** The tilt control in terms of tilts. *)
Lemma page_step_tilt pitch page buff :
  0 <= page <= 2 -> buff = 0 \/ buff = 1 ->
  page_step pitch page buff =
    match tilt_of pitch with
    | Forward => if buff =? 1 then (turn_page 1 page, 0, Some (turn_page 1 page))
                 else (page, buff, None)
    | Back => if buff =? 1 then (turn_page (-1) page, 0, Some (turn_page (-1) page))
              else (page, buff, None)
    | Level => (page, 1, None)
    | Between => (page, buff, None)
    end.
Proof.
  intros Hp Hb. unfold page_step, tilt_of. pose proof (forward_not_level pitch) as Hf.
  pose proof (back_not_level pitch) as Hk.
  assert (page = 0 \/ page = 1 \/ page = 2) as Hc by lia.
  destruct (flt pitch (F32.of_Z (-40))), (fgt pitch (F32.of_Z 40)); cbn [andb];
    rewrite ?Hf, ?Hk by done; cbn [andb]; rewrite ?andb_false_r;
    try (destruct (fgt pitch (F32.of_Z (-30)) && flt pitch (F32.of_Z 30)); done);
    destruct Hb as [-> | ->]; try done; destruct Hc as [-> | [-> | ->]]; done.
Qed.

(** ** Runs *)

(** The thread's variables and the pages it has sent. *)
Definition run_step (pitch : float) (st : Z * Z * list Z) : Z * Z * list Z :=
  let '(page, buff, sent) := st in
  let '(page, buff, out) := page_step pitch page buff in
  (page, buff, sent ++ option_list out).
Definition run_pages (pitches : list float) : Z * Z * list Z :=
  foldl (fun st p => run_step p st) (0, 1, []) pitches.

(** ** What a turn is *)

(** The clock may turn when it has been level since the last tilt. *)
Definition armed (before : list tilt) : bool :=
  match last (filter (fun t => t <> Between) before) with
  | None | Some Level => true
  | _ => false
  end.

Definition turn_at (ts : list tilt) (i : nat) : option Z :=
  match ts !! i with
  | Some Forward => if armed (take i ts) then Some 1 else None
  | Some Back => if armed (take i ts) then Some (-1) else None
  | _ => None
  end.

Definition turns (ts : list tilt) : list Z := omap (turn_at ts) (seq 0 (length ts)).

(** The pages that a sequence of turns leads to. *)
Fixpoint pages_from (page : Z) (ds : list Z) : list Z :=
  match ds with
  | [] => []
  | d :: ds => turn_page d page :: pages_from (turn_page d page) ds
  end.

Lemma turns_snoc ts t :
  turns (ts ++ [t]) = turns ts ++ option_list (turn_at (ts ++ [t]) (length ts)).
Proof.
  unfold turns. rewrite length_app. cbn [length]. rewrite Nat.add_1_r, seq_S, omap_app.
  cbn [omap list_omap Nat.add]. f_equal.
  - apply list_omap_ext. apply Forall2_same_length_lookup_2. { done. }
    intros i x y Hx Hy. assert (x = y) as -> by congruence.
    apply lookup_lt_Some in Hx as Hlt. rewrite length_seq in Hlt.
    apply lookup_seq in Hx as [-> _]. cbn [Nat.add]. unfold turn_at.
    rewrite lookup_app_l by done. by rewrite take_app_le by lia.
Qed.

Lemma turn_at_snoc ts t :
  turn_at (ts ++ [t]) (length ts) =
    match t with
    | Forward => if armed ts then Some 1 else None
    | Back => if armed ts then Some (-1) else None
    | _ => None
    end.
Proof.
  unfold turn_at. rewrite lookup_app_r, Nat.sub_diag by lia. cbn [lookup list_lookup].
  by rewrite take_app_length.
Qed.

Lemma armed_snoc ts t :
  armed (ts ++ [t]) = match t with Level => true | Between => armed ts | _ => false end.
Proof.
  unfold armed. rewrite filter_app. destruct t; cbn [filter list_filter];
    try (rewrite decide_True by done; by rewrite last_snoc).
  rewrite decide_False by (intros H; by apply H). by rewrite app_nil_r.
Qed.

Lemma pages_from_snoc page ds d :
  pages_from page (ds ++ [d]) =
    pages_from page ds ++ [turn_page d (foldl (fun p d => turn_page d p) page ds)].
Proof. revert page. induction ds as [|e ds IH]; intros page; cbn; [done|]. by rewrite IH. Qed.

Lemma turns_total page ds :
  foldl (fun p d => turn_page d p) page ds mod 3 = (page + foldr Z.add 0 ds) mod 3.
Proof.
  revert page. induction ds as [|d ds IH]; intros page; cbn [foldl foldr].
  - f_equal. lia.
  - rewrite IH. unfold turn_page. rewrite Zplus_mod_idemp_l. f_equal. lia.
Qed.

Lemma turn_page_range d page : 0 <= turn_page d page <= 2.
Proof. unfold turn_page. pose proof (Z.mod_pos_bound (page + d) 3). lia. Qed.

Lemma run_pages_spec pitches :
  let ts := List.map tilt_of pitches in
  let page := foldl (fun p d => turn_page d p) 0 (turns ts) in
  run_pages pitches = (page, if armed ts then 1 else 0, pages_from 0 (turns ts)) /\
  0 <= page <= 2.
Proof.
  induction pitches as [|p pitches IH] using rev_ind; [by vm_compute|]. cbv zeta in *.
  unfold run_pages in *. rewrite foldl_app, map_app. cbn [foldl List.map].
  destruct IH as [-> Hp]. set (ts := List.map tilt_of pitches) in *.
  rewrite turns_snoc, turn_at_snoc, armed_snoc. unfold run_step.
  rewrite page_step_tilt by (lia || (destruct (armed ts); lia)). unfold option_list.
  destruct (tilt_of p), (armed ts); cbn [option_rect app]; change (1 =? 1) with true;
    change (0 =? 1) with false; cbv iota; rewrite ?app_nil_r, ?pages_from_snoc, ?foldl_app;
    cbn [option_rect foldl app]; rewrite ?app_nil_r; (split; [done|]);
    solve [done | apply turn_page_range].
Qed.

Lemma pages_from_last page ds :
  default page (last (pages_from page ds)) = foldl (fun p d => turn_page d p) page ds.
Proof.
  induction ds as [|d ds IH] using rev_ind; [done|].
  by rewrite pages_from_snoc, last_snoc, foldl_app.
Qed.

Lemma pages_from_range page ds : Forall (fun p => 0 <= p <= 2) (pages_from page ds).
Proof.
  revert page. induction ds as [|d ds IH]; intros page; constructor; [apply turn_page_range|done].
Qed.

(** C30: tilting turns pages.  Over any sequence of attitudes the thread sends
    exactly one page for each tilt beyond 40 degrees that comes after a level
    position: the next of the three pages, round about, for a tilt forward and
    the previous one for a tilt back.  Shaking around the threshold without going
    back to level turns no further page, and the page stays within 0..2. *)
Theorem tilts_turn_pages pitches :
  let ts := List.map tilt_of pitches in
  exists page, run_pages pitches = (page, if armed ts then 1 else 0, pages_from 0 (turns ts)) /\
    0 <= page <= 2 /\ page = foldr Z.add 0 (turns ts) mod 3 /\
    (page = default 0 (last (pages_from 0 (turns ts)))) /\
    Forall (fun p => 0 <= p <= 2) (pages_from 0 (turns ts)).
Proof.
  destruct (run_pages_spec pitches) as [-> Hp]. cbv zeta in *.
  eexists. split; [reflexivity|]. split_and!; [lia|lia| | |apply pages_from_range].
  - rewrite <- (Z.mod_small (foldl _ _ _) 3) by lia. by rewrite turns_total.
  - by rewrite pages_from_last.
Qed.
