(* ===== verification/Display.v ===== *)
(** * The display thread and its mailboxes

    The display thread of src/applications/oled.c together with the producers
    of App.v, as one system.  Mails are sent and received through an interface
    that states what the application relies on; MailboxClient.v shows that the
    kernel's mailbox provides it.  A step is a round of a producer or a stretch
    of the display thread between two points where it may be interrupted: the
    producers of the time, sensor and tilt data have a higher priority than the
    display thread, so that it never sees one of their rounds half done, while
    they may interrupt it between any two of its drawing operations. *)

From Stdlib Require Import ZArith Lia.
From stdpp Require Import prelude list.
From S2P Require Import Prelude CFloat CTime App.
Open Scope Z_scope.

(** ** What the application relies on *)

(** [mq_send] is [rt_mb_send]; [mq_recv] is [rt_mb_recv] when there is a mail,
    and no value when there is none. *)
Class Mailbox (Q : Type) := {
  mq_wf : Q -> Prop;
  mq_view : Q -> list Z;
  mq_cap : Q -> nat;
  mq_send : Z -> Q -> Z * Q;
  mq_recv : Q -> option (Z * Q);
  mq_send_room q v :
    mq_wf q -> (length (mq_view q) < mq_cap q)%nat ->
    exists q', mq_send v q = (0, q') /\ mq_wf q' /\ mq_cap q' = mq_cap q /\
      mq_view q' = mq_view q ++ [v];
  mq_send_full q v :
    mq_wf q -> (mq_cap q <= length (mq_view q))%nat -> mq_send v q = (-3, q);
  mq_recv_mail q v l :
    mq_wf q -> mq_view q = v :: l ->
    exists q', mq_recv q = Some (v, q') /\ mq_wf q' /\ mq_cap q' = mq_cap q /\ mq_view q' = l;
  mq_recv_none q : mq_wf q -> mq_view q = [] -> mq_recv q = None
}.

(** ** The weather page *)

Record mesg_weather := mk_mesg_weather {
  name : list Z;
  weather : list Z;
  wtemp : list Z
}.

(** The items of the parsed answer of the weather server that are used; an
    item may be missing. *)
Record now_json := mk_json {
  j_name : option (list Z);
  j_text : option (list Z);
  j_temperature : option (list Z)
}.

Definition sprintf_item (arr : list Z) (item : option (list Z)) : option (list Z) :=
  match item with Some s => sprintf arr s | None => Some arr end.

(** [cJSON_NowWeatherParse] up to the sending of [mes]. *)
Definition fill_weather (j : now_json) (mes : mesg_weather) : option mesg_weather :=
  n ← sprintf_item mes.(name) j.(j_name);
  w ← sprintf_item mes.(weather) j.(j_text);
  t ← sprintf_item mes.(wtemp) j.(j_temperature);
  Some (mk_mesg_weather n w t).

(** ** State *)

(** Where the structures are: the mails are these addresses. *)
Definition addr_time : Z := 0x20002000.
Definition addr_dht : Z := 0x20002100.
Definition addr_wea : Z := 0x20002200.

(** The weather structure is allocated, filled, sent and freed once. *)
Inductive heap_cell := Unused | Held (m : mesg_weather) | Freed.

Inductive field :=
| FYear | FMouth | FWeek | FHour
| FTemp | FHumi
| FName | FWtemp | FWeather.

Inductive font := ncenB08 | ncenB12.

(** Calls of the display library. *)
Inductive draw :=
| ClearBuffer
| SetFont (f : font)
| DrawStr (x y : Z) (f : field)
| SendBuffer
| Delay.

(** Where the display thread is in its code. *)
Inductive oled_pc :=
| OWait
| OPoll
| OShow
| ODraw (ops : list draw).

Record drawn := mk_drawn { dx : Z; dy : Z; dfont : option font; dtext : list Z }.

Record producers := mk_prod {
  page : Z;
  page_buff : Z;
  ctime_buf : list Z;
  mes : mesg_time;
  msg : mesg_dht;
  wea : heap_cell
}.

Record oled := mk_oled {
  pc : oled_pc;
  oled_sign : Z;
  str_time : Z;
  str_dht : Z;
  str_wea : Z;
  cur_font : option font;
  canvas : list drawn;
  frames : list (list drawn)
}.

Definition with_pc (p : oled_pc) (o : oled) : oled :=
  mk_oled p o.(oled_sign) o.(str_time) o.(str_dht) o.(str_wea) o.(cur_font) o.(canvas) o.(frames).
Definition with_sign (v : Z) (o : oled) : oled :=
  mk_oled o.(pc) v o.(str_time) o.(str_dht) o.(str_wea) o.(cur_font) o.(canvas) o.(frames).
Definition with_str_time (v : Z) (o : oled) : oled :=
  mk_oled o.(pc) o.(oled_sign) v o.(str_dht) o.(str_wea) o.(cur_font) o.(canvas) o.(frames).
Definition with_str_dht (v : Z) (o : oled) : oled :=
  mk_oled o.(pc) o.(oled_sign) o.(str_time) v o.(str_wea) o.(cur_font) o.(canvas) o.(frames).
Definition with_str_wea (v : Z) (o : oled) : oled :=
  mk_oled o.(pc) o.(oled_sign) o.(str_time) o.(str_dht) v o.(cur_font) o.(canvas) o.(frames).
Definition with_font (f : option font) (o : oled) : oled :=
  mk_oled o.(pc) o.(oled_sign) o.(str_time) o.(str_dht) o.(str_wea) f o.(canvas) o.(frames).
Definition with_canvas (c : list drawn) (o : oled) : oled :=
  mk_oled o.(pc) o.(oled_sign) o.(str_time) o.(str_dht) o.(str_wea) o.(cur_font) c o.(frames).
Definition with_frames (fs : list (list drawn)) (o : oled) : oled :=
  mk_oled o.(pc) o.(oled_sign) o.(str_time) o.(str_dht) o.(str_wea) o.(cur_font) o.(canvas) fs.

(** The mailbox of the weather thread exists until its first mail is received. *)
Definition waiting_for_weather (o : oled) : bool :=
  match o.(pc) with OWait => true | _ => false end.

(** The drawing operations of the three pages. *)
Definition time_page : list draw :=
  [ClearBuffer; ClearBuffer; SetFont ncenB08; DrawStr 0 10 FYear; DrawStr 52 10 FMouth;
   DrawStr 100 10 FWeek; SetFont ncenB12; DrawStr 30 40 FHour; SendBuffer; Delay].
Definition dht_page : list draw :=
  [ClearBuffer; SetFont ncenB08; DrawStr 0 10 FTemp; DrawStr 0 20 FHumi; SendBuffer; Delay].
Definition weather_page : list draw :=
  [ClearBuffer; SetFont ncenB08; DrawStr 0 10 FName; DrawStr 0 20 FWtemp;
   DrawStr 0 30 FWeather; SendBuffer; Delay].

Section system.
Context {Q : Type} `{!Mailbox Q}.

Record app := mk_app {
  prod : producers;
  disp : oled;
  mb_weather : Q;
  mb_time : Q;
  mb_mpu : Q;
  mb_dht : Q
}.

(** ** Reading the structures *)

(** The array a field of a page is in, through the pointer of the display
    thread; no value for a pointer to something else, for memory that has been
    freed and for a string without an end. *)
Definition read_field (f : field) (s : app) : option (list Z) :=
  let p := s.(prod) in let o := s.(disp) in
  let time (a : mesg_time -> list Z) :=
    if o.(str_time) =? addr_time then c_str (a p.(mes)) else None in
  let dht (a : mesg_dht -> list Z) :=
    if o.(str_dht) =? addr_dht then c_str (a p.(msg)) else None in
  let wea (a : mesg_weather -> list Z) :=
    if o.(str_wea) =? addr_wea
    then match p.(wea) with Held m => c_str (a m) | _ => None end else None in
  match f with
  | FYear => time year | FMouth => time mouth | FWeek => time week | FHour => time hour
  | FTemp => dht temp | FHumi => dht humi
  | FName => wea name | FWtemp => wea wtemp | FWeather => wea weather
  end.

Definition draw_step (d : draw) (s : app) : option oled :=
  let o := s.(disp) in
  match d with
  | ClearBuffer => Some (with_canvas [] o)
  | SetFont f => Some (with_font (Some f) o)
  | DrawStr x y f =>
      t ← read_field f s; Some (with_canvas (o.(canvas) ++ [mk_drawn x y o.(cur_font) t]) o)
  | SendBuffer => Some (with_frames (o.(frames) ++ [o.(canvas)]) o)
  | Delay => Some o
  end.

(** ** Steps *)

(** The display thread up to its next interruption; a receive that waits
    forever stays where it is while there is no mail. *)
Definition oled_step (s : app) : option app :=
  let o := s.(disp) in
  match o.(pc) with
  | OWait =>
      match mq_recv s.(mb_weather) with
      | Some (v, q) => Some (mk_app s.(prod) (with_pc OPoll (with_sign 0 (with_str_wea v o)))
                               q s.(mb_time) s.(mb_mpu) s.(mb_dht))
      | None => Some s
      end
  | OPoll =>
      match mq_recv s.(mb_mpu) with
      | Some (v, q) => Some (mk_app s.(prod) (with_pc OShow (with_sign (s32 v) o))
                               s.(mb_weather) s.(mb_time) q s.(mb_dht))
      | None => Some (mk_app s.(prod) (with_pc OShow o)
                        s.(mb_weather) s.(mb_time) s.(mb_mpu) s.(mb_dht))
      end
  | OShow =>
      if o.(oled_sign) =? 0 then
        match mq_recv s.(mb_time) with
        | Some (v, q) => Some (mk_app s.(prod) (with_pc (ODraw time_page) (with_str_time v o))
                                 s.(mb_weather) q s.(mb_mpu) s.(mb_dht))
        | None => Some s
        end
      else if o.(oled_sign) =? 1 then
        match mq_recv s.(mb_dht) with
        | Some (v, q) => Some (mk_app s.(prod) (with_pc (ODraw dht_page) (with_str_dht v o))
                                 s.(mb_weather) s.(mb_time) s.(mb_mpu) q)
        | None => Some s
        end
      else if o.(oled_sign) =? 2 then
        Some (mk_app s.(prod) (with_pc (ODraw weather_page) o)
                s.(mb_weather) s.(mb_time) s.(mb_mpu) s.(mb_dht))
      else Some (mk_app s.(prod) (with_pc OPoll o)
                   s.(mb_weather) s.(mb_time) s.(mb_mpu) s.(mb_dht))
  | ODraw [] => Some (mk_app s.(prod) (with_pc OPoll o)
                        s.(mb_weather) s.(mb_time) s.(mb_mpu) s.(mb_dht))
  | ODraw (d :: ds) =>
      o ← draw_step d s;
      Some (mk_app s.(prod) (with_pc (ODraw ds) o) s.(mb_weather) s.(mb_time) s.(mb_mpu) s.(mb_dht))
  end.

Inductive event :=
| EPitch (pitch : float)
| ETime (now : Z)
| EDht (data : Z)
| EWeather (j : now_json) (fresh : mesg_weather)
| EFree
| EOled.

Definition mpu_step (pitch : float) (s : app) : app :=
  let p := s.(prod) in
  let '(pg, buff, out) := page_step pitch p.(page) p.(page_buff) in
  mk_app (mk_prod pg buff p.(ctime_buf) p.(mes) p.(msg) p.(wea)) s.(disp)
    s.(mb_weather) s.(mb_time)
    (match out with Some v => snd (mq_send v s.(mb_mpu)) | None => s.(mb_mpu) end) s.(mb_dht).

Definition time_step (now : Z) (s : app) : option app :=
  let p := s.(prod) in
  '(buf, m) ← time_round now p.(ctime_buf) p.(mes);
  Some (mk_app (mk_prod p.(page) p.(page_buff) buf m p.(msg) p.(wea)) s.(disp)
    s.(mb_weather) (snd (mq_send addr_time s.(mb_time))) s.(mb_mpu) s.(mb_dht)).

Definition dht_step (data : Z) (s : app) : option app :=
  let p := s.(prod) in
  '(m, sent) ← dht_round data p.(msg);
  Some (mk_app (mk_prod p.(page) p.(page_buff) p.(ctime_buf) p.(mes) m p.(wea)) s.(disp)
    s.(mb_weather) s.(mb_time) s.(mb_mpu)
    (if sent : bool then snd (mq_send addr_dht s.(mb_dht)) else s.(mb_dht))).

(** [fresh] is what the allocated memory holds.  The display thread detaches the
    mailbox as soon as it has received a mail from it, before the weather thread,
    whose priority is lower, goes on; [rt_mb_send] asserts that its argument is a
    mailbox. *)
Definition weather_step (j : now_json) (fresh : mesg_weather) (s : app) : option app :=
  let p := s.(prod) in
  m ← fill_weather j fresh;
  if waiting_for_weather s.(disp) then
  Some (mk_app (mk_prod p.(page) p.(page_buff) p.(ctime_buf) p.(mes) p.(msg) (Held m)) s.(disp)
    (snd (mq_send addr_wea s.(mb_weather))) s.(mb_time) s.(mb_mpu) s.(mb_dht))
  else None.

Definition free_step (s : app) : app :=
  let p := s.(prod) in
  mk_app (mk_prod p.(page) p.(page_buff) p.(ctime_buf) p.(mes) p.(msg) Freed) s.(disp)
    s.(mb_weather) s.(mb_time) s.(mb_mpu) s.(mb_dht).

Definition app_step (e : event) (s : app) : option app :=
  match e with
  | EPitch p => Some (mpu_step p s)
  | ETime now => time_step now s
  | EDht data => dht_step data s
  | EWeather j fresh => weather_step j fresh s
  | EFree => Some (free_step s)
  | EOled => oled_step s
  end.

End system.
Arguments app : clear implicits.
