(* ===== verification/DisplaySpec.v ===== *)
(** * What the display shows

    Theorems about the system of Display.v over any sequence of steps: the
    display thread only reads strings that have been written and have an end,
    it sends complete pages, and it follows the tilt control. *)

From Stdlib Require Import ZArith Lia.
From stdpp Require Import prelude list.
From S2P Require Import Prelude CFloat CTime Calendar RtcSpec App AppText AppPages Display.
Open Scope Z_scope.

(** ** The environment *)

(** A string of the weather server, of any length. *)
Definition c_text (item : option (list Z)) : Prop :=
  match item with Some s => Forall (fun b => b <> 0) s | None => True end.

(** What the environment may do: times before the year 10000; any 32-bit value of the
    sensor; strings of any length from the weather server and memory for them; the
    weather thread frees what it has sent before it gets the next answer. *)
Definition can_happen {Q} (e : event) (s : app Q) : Prop :=
  match e with
  | EPitch _ | EOled => True
  | ETime now => this_era now
  | EDht data => - 2 ^ 31 <= data < 2 ^ 31
  | EWeather j fresh =>
      (forall m, s.(prod).(wea) <> Held m) /\
      c_text j.(j_name) /\ c_text j.(j_text) /\ c_text j.(j_temperature) /\
      length fresh.(name) = 16%nat /\ length fresh.(weather) = 12%nat /\ length fresh.(wtemp) = 6%nat
  | EFree => exists m, s.(prod).(wea) = Held m
  end.

Definition too_long (n : nat) (item : option (list Z)) : Prop :=
  match item with Some s => (n <= length s)%nat | None => False end.

Definition time_ready (m : mesg_time) : Prop :=
  is_Some (c_str m.(year)) /\ is_Some (c_str m.(mouth)) /\ is_Some (c_str m.(week)) /\
  is_Some (c_str m.(hour)).
Definition dht_ready (m : mesg_dht) : Prop :=
  is_Some (c_str m.(temp)) /\ is_Some (c_str m.(humi)).

(** ** The invariant *)

Section display.
Context {Q : Type} `{!Mailbox Q}.
Implicit Types s : app Q.

Definition time_mails s : Prop :=
  Forall (eq addr_time) (mq_view s.(mb_time)) /\
  (mq_view s.(mb_time) <> [] -> time_ready s.(prod).(mes)).
Definition dht_mails s : Prop :=
  Forall (eq addr_dht) (mq_view s.(mb_dht)) /\
  (mq_view s.(mb_dht) <> [] -> dht_ready s.(prod).(msg)).

(** The strings of a page can be read; the weather page is the exception. *)
Definition is_weather (f : field) : bool :=
  match f with FName | FWtemp | FWeather => true | _ => false end.
Definition field_ready s (f : field) : Prop :=
  match f with
  | FYear | FMouth | FWeek | FHour => s.(disp).(str_time) = addr_time /\ time_ready s.(prod).(mes)
  | FTemp | FHumi => s.(disp).(str_dht) = addr_dht /\ dht_ready s.(prod).(msg)
  | FName | FWtemp | FWeather => True
  end.
Definition op_ready s (d : draw) : Prop :=
  match d with DrawStr _ _ f => field_ready s f | _ => True end.
Definition pc_ready s : Prop :=
  match s.(disp).(pc) with ODraw ops => Forall (op_ready s) ops | _ => True end.

Record inv s : Prop := mk_inv {
  inv_page : 0 <= s.(prod).(page) <= 2;
  inv_buff : s.(prod).(page_buff) = 0 \/ s.(prod).(page_buff) = 1;
  inv_shape : mesg_shape s.(prod).(mes);
  inv_buf : length s.(prod).(ctime_buf) = 25%nat;
  inv_dshape : dht_shape s.(prod).(msg);
  inv_wf : mq_wf s.(mb_weather) /\ mq_wf s.(mb_time) /\ mq_wf s.(mb_mpu) /\ mq_wf s.(mb_dht);
  inv_mpu : Forall (fun v => 0 <= v <= 2) (mq_view s.(mb_mpu));
  inv_sign : 0 <= s.(disp).(oled_sign) <= 2;
  inv_time : time_mails s;
  inv_dht : dht_mails s;
  inv_pc : pc_ready s
}.

(** What sending does, whether there is room or not. *)
Lemma send_spec v q :
  mq_wf q ->
  let q' := snd (mq_send v q) in
  mq_wf q' /\ (mq_view q' = mq_view q \/ mq_view q' = mq_view q ++ [v]).
Proof.
  intros Hq. destruct (Nat.lt_ge_cases (length (mq_view q)) (mq_cap q)) as [Hl|Hl].
  - destruct (mq_send_room q v Hq Hl) as (q' & -> & ? & _ & ?). cbn. auto.
  - rewrite (mq_send_full q v Hq Hl). cbn. auto.
Qed.

Lemma recv_cases q :
  mq_wf q ->
  (mq_recv q = None /\ mq_view q = []) \/
  exists v q', mq_recv q = Some (v, q') /\ mq_wf q' /\ mq_view q = v :: mq_view q'.
Proof.
  intros Hq. destruct (mq_view q) as [|v l] eqn:E.
  - left. by rewrite (mq_recv_none q Hq E).
  - right. destruct (mq_recv_mail q v l Hq E) as (q' & H1 & H2 & _ & H3).
    exists v, q'. by rewrite H1, H3.
Qed.

Lemma time_round_ready now buf m :
  this_era now -> length buf = 25%nat -> mesg_shape m ->
  exists buf' m', time_round now buf m = Some (buf', m') /\
    length buf' = 25%nat /\ mesg_shape m' /\ time_ready m'.
Proof.
  intros Hn Hb Hm. destruct (time_round_spec now buf m Hn Hb Hm) as (b' & m' & E & Lb & Sm & Hr & Hw).
  exists b', m'. split_and!; try done. unfold read_clock in Hr. unfold time_ready.
  rewrite Hw. destruct (c_str (hour m')); [|done]. destruct (c_str (mouth m')); [|done].
  destruct (c_str (year m')); [|done]. split_and!; by eexists.
Qed.

(** The numbers of the sensor do not fit the page. *)
Definition bad_data (data : Z) : Prop := 0 <= data /\ (1000 <= data mod 2 ^ 16 \/ 1000 <= data / 2 ^ 16).

Lemma dht_round_ready data m :
  data < 2 ^ 31 -> dht_shape m ->
  match dht_round data m with
  | Some (m', b) => ~ bad_data data /\ dht_shape m' /\ (dht_ready m -> dht_ready m') /\ (b = true -> dht_ready m')
  | None => bad_data data
  end.
Proof.
  intros Hd Hm. unfold bad_data. destruct (Z.lt_ge_cases data 0) as [Hn|Hn].
  - unfold dht_round. replace (0 <=? data) with false by lia. split; [lia|done].
  - pose proof (dht_round_spec data m (conj Hn Hd) Hm) as H.
    cbv zeta in H. destruct (_ && _) eqn:E in H; [|rewrite H; lia].
    destruct H as (m' & -> & Sm & Ct & Ch & _). split; [lia|].
    split_and!; try done; intros _; unfold dht_ready; rewrite Ct, Ch; split; by eexists.
Qed.

(** Readiness only grows while the producers work. *)
Lemma pc_ready_mono s s' :
  disp s' = disp s ->
  (time_ready s.(prod).(mes) -> time_ready s'.(prod).(mes)) ->
  (dht_ready s.(prod).(msg) -> dht_ready s'.(prod).(msg)) ->
  pc_ready s -> pc_ready s'.
Proof.
  intros Hd Ht Hm. unfold pc_ready. rewrite Hd. destruct (pc (disp s)); try done.
  intros Hf. eapply Forall_impl; [exact Hf|]. intros []; cbn [op_ready]; try done.
  destruct f; cbn [field_ready]; rewrite ?Hd; naive_solver.
Qed.

Lemma mpu_step_inv pitch s : inv s -> inv (mpu_step pitch s).
Proof.
  intros [H1 H2 H3 H4 H5 H6 H7 H8 H9 H10 H11]. destruct H6 as (W1 & W2 & W3 & W4).
  unfold mpu_step. rewrite page_step_tilt by done.
  assert (forall d, 0 <= turn_page d (page (prod s)) <= 2) as Hr by (intros; apply turn_page_range).
  assert (forall d, mq_wf (snd (mq_send (turn_page d (page (prod s))) (mb_mpu s))) /\
    Forall (fun v => 0 <= v <= 2) (mq_view (snd (mq_send (turn_page d (page (prod s))) (mb_mpu s)))))
    as Hs.
  { intros d. destruct (send_spec (turn_page d (page (prod s))) _ W3) as [Hw [-> | ->]];
      (split; [done|]); [done|]. apply Forall_app. split; [done|]. repeat constructor; apply Hr. }
  destruct (tilt_of pitch), (page_buff (prod s) =? 1); split; cbn [prod disp page page_buff mes
    ctime_buf msg mb_weather mb_time mb_mpu mb_dht]; auto; try (split_and!; try done); try apply Hs;
    try apply Hr.
Qed.

Lemma time_step_inv now s :
  inv s -> this_era now -> exists s', time_step now s = Some s' /\ inv s'.
Proof.
  intros [H1 H2 H3 H4 H5 H6 H7 H8 H9 H10 H11] Hn. destruct H6 as (W1 & W2 & W3 & W4).
  destruct (time_round_ready now _ _ Hn H4 H3) as (b' & m' & E & Lb & Sm & Hr).
  unfold time_step. rewrite E. cbn [mbind option_bind]. eexists. split; [reflexivity|].
  destruct (send_spec addr_time _ W2) as [Hw Hv].
  split; cbn [prod disp page page_buff mes ctime_buf msg mb_weather mb_time mb_mpu mb_dht]; auto.
  - split; cbn [mb_time prod mes]; [|done]. destruct H9 as [H9 _].
    destruct Hv as [-> | ->]; [done|]. apply Forall_app. split; [done|]. by repeat constructor.
  - by apply (pc_ready_mono s).
Qed.

Lemma dht_step_inv data s :
  inv s -> can_happen (EDht data) s ->
  match dht_step data s with Some s' => ~ bad_data data /\ inv s' | None => bad_data data end.
Proof.
  intros [H1 H2 H3 H4 H5 H6 H7 H8 H9 H10 H11] [_ Hd]. destruct H6 as (W1 & W2 & W3 & W4).
  pose proof (dht_round_ready data _ Hd H5) as Hr. unfold dht_step.
  destruct (dht_round data (msg (prod s))) as [[m' b]|]; cbn [mbind option_bind]; [|done].
  destruct Hr as (Hok & Sm & Hk & Hb). split; [done|].
  destruct (send_spec addr_dht _ W4) as [Hw Hv]. destruct H10 as [A1 A2].
  split; cbn [prod disp page page_buff mes ctime_buf msg mb_weather mb_time mb_mpu mb_dht]; auto.
  - by destruct b.
  - split; cbn [mb_dht prod msg].
    + destruct b; [|done]. destruct Hv as [-> | ->]; [done|]. apply Forall_app. split; [done|].
      by repeat constructor.
    + destruct b; auto.
  - by apply (pc_ready_mono s).
Qed.

Lemma sprintf_item_spec arr item n :
  c_text item -> length arr = n ->
  match sprintf_item arr item with Some _ => ~ too_long n item | None => too_long n item end.
Proof.
  intros Ht Hl. destruct item as [t|]; [|by intros []]. cbn [sprintf_item too_long].
  pose proof (sprintf_spec arr t Ht) as H. destruct (Nat.ltb_spec (length t) (length arr)) as [E|E].
  - destruct H as (a & -> & _). lia.
  - rewrite H. lia.
Qed.

(** A string of the answer does not fit its array, or the mailbox is gone. *)
Definition bad_weather (j : now_json) s : Prop :=
  too_long 16 j.(j_name) \/ too_long 12 j.(j_text) \/ too_long 6 j.(j_temperature) \/ s.(disp).(pc) <> OWait.

Lemma weather_step_inv j fresh s :
  inv s -> can_happen (EWeather j fresh) s ->
  match weather_step j fresh s with Some s' => ~ bad_weather j s /\ inv s' | None => bad_weather j s end.
Proof.
  intros [H1 H2 H3 H4 H5 H6 H7 H8 H9 H10 H11] (_ & Sn & Sw & St & Ln & Lw & Lt).
  destruct H6 as (W1 & W2 & W3 & W4). unfold weather_step, fill_weather, bad_weather, waiting_for_weather.
  pose proof (sprintf_item_spec _ _ _ Sn Ln) as Hn. destruct (sprintf_item (name fresh) _); cbn [mbind option_bind]; [|tauto].
  pose proof (sprintf_item_spec _ _ _ Sw Lw) as Hw. destruct (sprintf_item (weather fresh) _); cbn [mbind option_bind]; [|tauto].
  pose proof (sprintf_item_spec _ _ _ St Lt) as Ht. destruct (sprintf_item (wtemp fresh) _); cbn [mbind option_bind]; [|tauto].
  destruct (pc (disp s)) eqn:Epc; [|do 3 right; congruence..]. split; [intuition congruence|].
  destruct (send_spec addr_wea _ W1) as [Hm _].
  split; cbn [prod disp page page_buff mes ctime_buf msg mb_weather mb_time mb_mpu mb_dht]; auto.
Qed.

Lemma free_step_inv s : inv s -> inv (free_step s).
Proof.
  intros [H1 H2 H3 H4 H5 H6 H7 H8 H9 H10 H11]. unfold free_step.
  split; cbn [prod disp page page_buff mes ctime_buf msg mb_weather mb_time mb_mpu mb_dht]; auto.
Qed.

(** ** The display thread *)

Lemma read_field_ready s f :
  field_ready s f -> is_weather f = false -> is_Some (read_field f s).
Proof.
  intros Hf Hw. destruct f; cbn [field_ready is_weather] in *; try done;
    destruct Hf as [Hp Hr]; unfold read_field; rewrite Hp, Z.eqb_refl;
    unfold time_ready, dht_ready in Hr; naive_solver.
Qed.

(** The display changes nothing that the fields depend on. *)
Lemma op_ready_disp s o d :
  str_time o = str_time (disp s) -> str_dht o = str_dht (disp s) -> op_ready s d ->
  op_ready (mk_app s.(prod) o s.(mb_weather) s.(mb_time) s.(mb_mpu) s.(mb_dht)) d.
Proof.
  intros Ht Hd. destruct d; try done. destruct f; cbn [op_ready field_ready disp prod];
    rewrite ?Ht, ?Hd; done.
Qed.

Lemma draw_step_frame d s o :
  draw_step d s = Some o ->
  str_time o = str_time (disp s) /\ str_dht o = str_dht (disp s) /\ oled_sign o = oled_sign (disp s).
Proof.
  destruct d; cbn [draw_step]; try (intros [= <-]; done).
  destruct (read_field f s); [|done]. cbn. intros [= <-]. done.
Qed.

Lemma draw_step_ready d s :
  op_ready s d -> is_Some (draw_step d s) \/
  exists x y f, d = DrawStr x y f /\ is_weather f = true /\ read_field f s = None.
Proof.
  intros Hd. destruct d as [| |x y f| |]; try (left; by eexists). cbn [op_ready] in Hd. cbn [draw_step].
  destruct (read_field f s) as [t|] eqn:Er; [left; by eexists|]. right. exists x, y, f. split; [done|].
  destruct (is_weather f) eqn:E; [done|]. destruct (read_field_ready s f Hd E) as [t Et]. congruence.
Qed.

(** The next operation draws a string of the weather page, which cannot be read. *)
Definition reads_weather s : Prop :=
  exists x y f ops, pc (disp s) = ODraw (DrawStr x y f :: ops) /\ is_weather f = true /\ read_field f s = None.

Lemma time_page_ready s :
  str_time (disp s) = addr_time -> time_ready (mes (prod s)) -> Forall (op_ready s) time_page.
Proof. intros Hp Hr. unfold time_page. by rewrite !Forall_cons, Forall_nil. Qed.

Lemma dht_page_ready s :
  str_dht (disp s) = addr_dht -> dht_ready (msg (prod s)) -> Forall (op_ready s) dht_page.
Proof. intros Hp Hr. unfold dht_page. by rewrite !Forall_cons, Forall_nil. Qed.

Lemma weather_page_ready s : Forall (op_ready s) weather_page.
Proof. unfold weather_page. by rewrite !Forall_cons, Forall_nil. Qed.

Lemma oled_step_inv s :
  inv s -> match oled_step s with Some s' => ~ reads_weather s /\ inv s' | None => reads_weather s end.
Proof.
  intros Hs. assert (forall s', oled_step s = Some s' -> ~ reads_weather s) as Hno.
  { intros s' E (x & y & f & ops & Epc & _ & Er). unfold oled_step in E. rewrite Epc in E. cbn [draw_step] in E. by rewrite Er in E. }
  assert (match oled_step s with Some s' => inv s' | None => reads_weather s end) as H; [|by destruct (oled_step s); eauto].
  clear Hno. revert Hs.
  intros [H1 H2 H3 H4 H5 H6 H7 H8 H9 H10 H11]. destruct H6 as (W1 & W2 & W3 & W4).
  assert (inv s) as Hs by (split; auto; done).
  unfold oled_step. destruct (pc (disp s)) as [| | |[|d ds]] eqn:Epc.
  - destruct (recv_cases _ W1) as [[-> _]|(v & q & -> & Hq & _)]; [done|].
    split; auto; try done; cbn; lia.
  - destruct (recv_cases _ W3) as [[-> _]|(v & q & -> & Hq & Hv)]; [by split|].
    rewrite Hv in H7. apply Forall_cons in H7 as [Hvr H7].
    split; auto; try done. cbn [disp with_pc with_sign oled_sign]. rewrite s32_small by lia. lia.
  - destruct (oled_sign (disp s) =? 0) eqn:E0; [|destruct (oled_sign (disp s) =? 1) eqn:E1;
      [|destruct (oled_sign (disp s) =? 2) eqn:E2]].
    + destruct (recv_cases _ W2) as [[-> _]|(v & q & -> & Hq & Hv)]; [done|].
      destruct H9 as [A1 A2]. rewrite Hv in A1, A2. apply Forall_cons in A1 as [<- A1].
      specialize (A2 ltac:(done)). split; auto; try done. by apply time_page_ready.
    + destruct (recv_cases _ W4) as [[-> _]|(v & q & -> & Hq & Hv)]; [done|].
      destruct H10 as [A1 A2]. rewrite Hv in A1, A2. apply Forall_cons in A1 as [<- A1].
      specialize (A2 ltac:(done)). split; auto; try done. by apply dht_page_ready.
    + split; auto; try done. apply weather_page_ready.
    + by split.
  - by split.
  - unfold pc_ready in H11. rewrite Epc in H11. apply Forall_cons in H11 as [Hd Hds].
    destruct (draw_step d s) as [o|] eqn:Ho; cbn [mbind option_bind].
    + destruct (draw_step_frame _ _ _ Ho) as (F1 & F2 & F3).
      split; auto; try done; cbn [disp with_pc oled_sign]; [by rewrite F3|].
      unfold pc_ready. cbn [disp with_pc pc]. eapply Forall_impl; [exact Hds|].
      intros op Hop. by apply op_ready_disp.
    + destruct (draw_step_ready d s Hd) as [[o Ho']|(x & y & f & -> & Hf & Hr)]; [congruence|].
      exists x, y, f, ds. done.
Qed.

(** Where a step leaves an array, uses a mailbox that is gone, or reads a string that
    is not there. *)
Definition goes_wrong (e : event) s : Prop :=
  match e with
  | EDht data => bad_data data
  | EWeather j _ => bad_weather j s
  | EOled => reads_weather s
  | _ => False
  end.

Lemma app_step_inv e s :
  inv s -> can_happen e s ->
  match app_step e s with Some s' => ~ goes_wrong e s /\ inv s' | None => goes_wrong e s end.
Proof.
  intros Hs He. destruct e; cbn [app_step goes_wrong].
  - split; [tauto|by apply mpu_step_inv].
  - destruct (time_step_inv now s Hs He) as (s' & -> & ?). by split; [tauto|].
  - by apply dht_step_inv.
  - by apply (weather_step_inv j fresh).
  - split; [tauto|by apply free_step_inv].
  - by apply oled_step_inv.
Qed.

(** ** Runs *)

(** The tilt control ignores that its mail was refused. *)
Definition refused (e : event) s : bool :=
  match e with
  | EPitch pitch =>
      match snd (page_step pitch s.(prod).(page) s.(prod).(page_buff)) with
      | Some v => negb (fst (mq_send v s.(mb_mpu)) =? 0)
      | None => false
      end
  | _ => false
  end.

(** The flag says whether all pages have been accepted. *)
Inductive reach (s0 : app Q) : bool -> app Q -> Prop :=
| reach_init : reach s0 true s0
| reach_step ok s e s' :
    reach s0 ok s -> can_happen e s -> app_step e s = Some s' ->
    reach s0 (ok && negb (refused e s)) s'.

(** The state after [main] has initialised the mailboxes and the threads have
    allocated their structures, which hold anything. *)
Record start s : Prop := mk_start {
  start_page : s.(prod).(page) = 0 /\ s.(prod).(page_buff) = 1 /\ s.(prod).(wea) = Unused;
  start_shape : mesg_shape s.(prod).(mes) /\ length s.(prod).(ctime_buf) = 25%nat /\
    dht_shape s.(prod).(msg);
  start_boxes : Forall (fun q => mq_wf q /\ mq_view q = [])
    [s.(mb_weather); s.(mb_time); s.(mb_mpu); s.(mb_dht)];
  start_disp : s.(disp).(pc) = OWait /\ s.(disp).(oled_sign) = 0 /\ s.(disp).(frames) = []
}.

Lemma start_inv s : start s -> inv s.
Proof.
  intros [(P1 & P2 & _) (S1 & S2 & S3) B (D1 & D2 & _)]. rewrite !Forall_cons in B.
  destruct B as ((? & ?) & (? & V2) & (? & V3) & (? & V4) & _).
  split; auto; rewrite ?P1, ?D2, ?V3; try lia; try done.
  - split; rewrite V2; done.
  - split; rewrite V4; done.
  - unfold pc_ready. by rewrite D1.
Qed.

Lemma reach_inv s0 ok s : start s0 -> reach s0 ok s -> inv s.
Proof.
  intros H0. induction 1 as [|ok s e s' _ IH He Hstep]; [by apply start_inv|].
  pose proof (app_step_inv e s IH He) as H. rewrite Hstep in H. apply H.
Qed.

(** C31: where the application goes wrong.  In every reachable state, with any
    attitudes, any values of the sensor, any answers of the weather server and times
    before the year 10000, a step succeeds except in exactly these cases: the sensor
    delivers a temperature or a humidity of 1000 or more ([sprintf] leaves its array);
    a string of the weather server is too long for its array, or its mail is sent when
    the display thread has already detached the mailbox; the display thread draws a
    string of the weather page that is not there (freed, or without an end).  So the
    strings of the time page and of the sensor page are always in the structures that
    the mails point to, have been filled before the first mail and have an end. *)
Theorem display_reads_written_strings s0 ok s e :
  start s0 -> reach s0 ok s -> can_happen e s ->
  0 <= s.(disp).(oled_sign) <= 2 /\ (is_Some (app_step e s) <-> ~ goes_wrong e s).
Proof.
  intros H0 Hr He. pose proof (reach_inv _ _ _ H0 Hr) as Hs. split; [apply Hs|].
  pose proof (app_step_inv e s Hs He) as H. destruct (app_step e s) as [s'|].
  - split; [by intros _; apply H|eauto].
  - split; [by intros [? ?]|tauto].
Qed.

(** ** Frames are pages *)

(** Positions and fonts of what is drawn. *)
Abbreviation spot := (Z * Z * option font)%type.
Definition spots (c : list drawn) : list spot :=
  List.map (fun d => (dx d, dy d, dfont d)) c.

Definition time_layout : list spot :=
  [(0, 10, Some ncenB08); (52, 10, Some ncenB08); (100, 10, Some ncenB08); (30, 40, Some ncenB12)].
Definition dht_layout : list spot := [(0, 10, Some ncenB08); (0, 20, Some ncenB08)].
Definition weather_layout : list spot :=
  [(0, 10, Some ncenB08); (0, 20, Some ncenB08); (0, 30, Some ncenB08)].
Definition is_layout (l : list spot) : Prop :=
  l = time_layout \/ l = dht_layout \/ l = weather_layout.

(** What a drawing operation does to positions and font. *)
Definition lay (st : list spot * option font) (d : draw) : list spot * option font :=
  match d with
  | ClearBuffer => ([], st.2)
  | SetFont f => (st.1, Some f)
  | DrawStr x y _ => (st.1 ++ [(x, y, st.2)], st.2)
  | SendBuffer | Delay => st
  end.

Definition is_page (p : list draw) : Prop := p = time_page \/ p = dht_page \/ p = weather_page.

(** The display thread is in the middle of a page, and the canvas is what
    the operations so far have drawn. *)
Definition drawing s : Prop :=
  match s.(disp).(pc) with
  | ODraw ops => exists before st0, is_page (before ++ ops) /\
      foldl lay st0 before = (spots s.(disp).(canvas), s.(disp).(cur_font))
  | _ => True
  end.

Definition frames_ok s : Prop := Forall (fun fr => is_layout (spots fr)) s.(disp).(frames).

Lemma split_at {A} (before : list A) x after l :
  l = before ++ x :: after -> l !! length before = Some x /\ before = take (length before) l.
Proof.
  intros ->. split.
  - by apply list_lookup_middle.
  - by rewrite take_app_length.
Qed.

Lemma page_sent before ops st0 :
  is_page (before ++ SendBuffer :: ops) -> is_layout (foldl lay st0 before).1.
Proof.
  intros Hp. destruct (split_at before SendBuffer ops _ eq_refl) as [Hl ->].
  revert Hl. generalize (length before). intros n. unfold is_layout.
  destruct Hp as [-> | [-> | ->]]; do 11 (try (destruct n as [|n]; [try done|]));
    try done; cbn; auto.
Qed.

Lemma draw_step_lay d s o :
  draw_step d s = Some o ->
  lay (spots (canvas (disp s)), cur_font (disp s)) d = (spots (canvas o), cur_font o) /\
  frames o = match d with
             | SendBuffer => frames (disp s) ++ [canvas (disp s)]
             | _ => frames (disp s)
             end.
Proof.
  destruct d; cbn [draw_step]; try (intros [= <-]; done).
  destruct (read_field f s); [|done]. cbn. intros [= <-]. cbn. split; [|done].
  unfold spots. rewrite map_app. done.
Qed.

Lemma frames_step e s s' :
  app_step e s = Some s' -> drawing s -> frames_ok s -> drawing s' /\ frames_ok s'.
Proof.
  intros Hstep Hd Hf. destruct e; cbn [app_step] in Hstep.
  - injection Hstep as <-. unfold mpu_step. by destruct (page_step _ _ _) as [[? ?] ?].
  - unfold time_step in Hstep. destruct (time_round _ _ _) as [[? ?]|]; [|done].
    by injection Hstep as <-.
  - unfold dht_step in Hstep. destruct (dht_round _ _) as [[? ?]|]; [|done]. by injection Hstep as <-.
  - unfold weather_step in Hstep. destruct (fill_weather _ _); [|done]. cbn [mbind option_bind] in Hstep.
    destruct (waiting_for_weather _); [|done]. by injection Hstep as <-.
  - by injection Hstep as <-.
  - unfold oled_step in Hstep. destruct (pc (disp s)) as [| | |[|d ds]] eqn:Epc.
    + destruct (mq_recv (mb_weather s)) as [[? ?]|]; by injection Hstep as <-.
    + destruct (mq_recv (mb_mpu s)) as [[? ?]|]; by injection Hstep as <-.
    + assert (forall p, is_page p -> exists before st0, is_page (before ++ p) /\
        foldl lay st0 before = (spots (canvas (disp s)), cur_font (disp s))) as Hpage
        by (intros p Hp; by exists [], (spots (canvas (disp s)), cur_font (disp s))).
      destruct (_ =? 0); [|destruct (_ =? 1); [|destruct (_ =? 2)]].
      * destruct (mq_recv (mb_time s)) as [[? ?]|]; injection Hstep as <-; [|done].
        split; [|done]. apply Hpage. by left.
      * destruct (mq_recv (mb_dht s)) as [[? ?]|]; injection Hstep as <-; [|done].
        split; [|done]. apply Hpage. right. by left.
      * injection Hstep as <-. split; [|done]. apply Hpage. right. by right.
      * by injection Hstep as <-.
    + by injection Hstep as <-.
    + destruct (draw_step d s) as [o|] eqn:Ho; [|done]. injection Hstep as <-.
      unfold drawing in Hd. rewrite Epc in Hd. destruct Hd as (before & st0 & Hp & Hl).
      destruct (draw_step_lay _ _ _ Ho) as [Hlay Hfr]. split.
      * exists (before ++ [d]), st0. rewrite <- (assoc (++)). split; [done|].
        rewrite foldl_app, Hl. exact Hlay.
      * unfold frames_ok. cbn [disp with_pc frames]. rewrite Hfr.
        destruct d; try done. apply Forall_app. split; [done|]. constructor; [|done].
        pose proof (page_sent _ _ st0 Hp) as H. by rewrite Hl in H.
Qed.

(** The display shows complete pages.  Whatever happens in between,
    every frame that the display thread sends consists of exactly the strings of
    one of the three pages, each at its place and in its font. *)
Theorem frames_are_pages s0 ok s :
  start s0 -> reach s0 ok s -> Forall (fun fr => is_layout (spots fr)) s.(disp).(frames).
Proof.
  intros H0 Hr. cut (drawing s /\ frames_ok s); [by intros [_ ?]|].
  induction Hr as [|ok s e s' _ IH _ Hstep].
  - destruct H0 as [_ _ _ (D1 & _ & D3)]. unfold drawing, frames_ok. by rewrite D1, D3.
  - destruct IH. by eapply frames_step.
Qed.

(** ** The display follows the tilt control *)

Record follows s : Prop := mk_follows {
  follows_wait : s.(disp).(pc) = OWait -> s.(disp).(oled_sign) = 0;
  follows_page : default s.(disp).(oled_sign) (last (mq_view s.(mb_mpu))) = s.(prod).(page)
}.

Lemma mpu_step_follows pitch s :
  inv s -> refused (EPitch pitch) s = false -> follows s -> follows (mpu_step pitch s).
Proof.
  intros Hs Hn [Fw Fp]. destruct (inv_wf _ Hs) as (_ & _ & W3 & _).
  unfold refused in Hn. unfold mpu_step. rewrite page_step_tilt in * by apply Hs.
  assert (forall d, negb ((mq_send (turn_page d (page (prod s))) (mb_mpu s)).1 =? 0) = false ->
    last (mq_view (mq_send (turn_page d (page (prod s))) (mb_mpu s)).2) =
      Some (turn_page d (page (prod s)))) as Hsend.
  { intros d Hd. destruct (Nat.lt_ge_cases (length (mq_view (mb_mpu s))) (mq_cap (mb_mpu s))) as [Hl|Hl].
    - destruct (mq_send_room _ (turn_page d (page (prod s))) W3 Hl) as (q & -> & _ & _ & Hv).
      cbn [snd]. by rewrite Hv, last_snoc.
    - by rewrite (mq_send_full _ _ W3 Hl) in Hd. }
  destruct (tilt_of pitch), (page_buff (prod s) =? 1); cbn [snd] in Hn;
    (split; [exact Fw|]); cbn [prod disp page mb_mpu]; try exact Fp; by rewrite Hsend.
Qed.

Lemma oled_step_follows s s' :
  inv s -> oled_step s = Some s' -> follows s -> follows s'.
Proof.
  intros Hs Hstep [Fw Fp]. destruct (inv_wf _ Hs) as (W1 & W2 & W3 & W4).
  unfold oled_step in Hstep. destruct (pc (disp s)) as [| | |[|d ds]] eqn:Epc.
  - specialize (Fw eq_refl). destruct (mq_recv (mb_weather s)) as [[? ?]|]; injection Hstep as <-;
      [|by split]. split; cbn [disp with_pc with_sign oled_sign pc mb_mpu prod]; [done|].
    by rewrite <- Fp, Fw.
  - destruct (recv_cases _ W3) as [[E Hv]|(v & q & E & Hq & Hv)]; rewrite E in Hstep;
      injection Hstep as <-; split; try done.
    cbn [disp with_pc with_sign oled_sign mb_mpu prod]. rewrite <- Fp, Hv.
    pose proof (inv_mpu _ Hs) as Hm. rewrite Hv in Hm. apply Forall_cons in Hm as [Hvr _].
    rewrite s32_small, last_cons by lia. by destruct (last (mq_view q)).
  - destruct (_ =? 0); [|destruct (_ =? 1); [|destruct (_ =? 2)]].
    + destruct (mq_recv (mb_time s)) as [[? ?]|]; injection Hstep as <-; split; try done.
      by rewrite Epc.
    + destruct (mq_recv (mb_dht s)) as [[? ?]|]; injection Hstep as <-; split; try done.
      by rewrite Epc.
    + injection Hstep as <-. by split.
    + injection Hstep as <-. by split.
  - injection Hstep as <-. by split.
  - destruct (draw_step d s) as [o|] eqn:Ho; [|done]. injection Hstep as <-.
    destruct (draw_step_frame _ _ _ Ho) as (_ & _ & F3). split; [done|].
    cbn [disp with_pc oled_sign mb_mpu prod]. by rewrite F3.
Qed.

Lemma app_step_follows e s s' :
  inv s -> app_step e s = Some s' -> refused e s = false -> follows s -> follows s'.
Proof.
  intros Hs Hstep Hn Hf. destruct e; cbn [app_step] in Hstep.
  - injection Hstep as <-. by apply mpu_step_follows.
  - unfold time_step in Hstep. destruct (time_round _ _ _) as [[? ?]|]; [|done].
    injection Hstep as <-. by destruct Hf.
  - unfold dht_step in Hstep. destruct (dht_round _ _) as [[? ?]|]; [|done]. injection Hstep as <-.
    by destruct Hf.
  - unfold weather_step in Hstep. destruct (fill_weather _ _); [|done]. cbn [mbind option_bind] in Hstep.
    destruct (waiting_for_weather _); [|done]. injection Hstep as <-. by destruct Hf.
  - injection Hstep as <-. by destruct Hf.
  - by eapply oled_step_follows.
Qed.

(** C33: the display follows the tilt control.  As long as the mailbox has
    accepted every page, the newest page on its way, or the one the display thread
    shows if there is none, is the page that the tilt control has chosen: once the
    display thread has emptied its mailbox, it shows this page. *)
Theorem display_follows_tilt s0 s :
  start s0 -> reach s0 true s ->
  default s.(disp).(oled_sign) (last (mq_view s.(mb_mpu))) = s.(prod).(page) /\
  (mq_view s.(mb_mpu) = [] -> s.(disp).(oled_sign) = s.(prod).(page)).
Proof.
  intros H0 Hr. cut (follows s).
  { intros [_ Hp]. split; [done|]. intros Hv. by rewrite Hv in Hp. }
  remember true as ok eqn:Hok. induction Hr as [|ok s e s' Hr IH He Hstep].
  - destruct H0 as [(P & _) _ B (D1 & D2 & _)]. rewrite !Forall_cons in B.
    destruct B as (_ & _ & (_ & V3) & _). split; [done|]. by rewrite V3, P.
  - apply andb_prop in Hok as [Hok Hn]. apply negb_true_iff in Hn.
    eapply app_step_follows; eauto using reach_inv.
Qed.

End display.
