(* ===== verification/MailboxClient.v ===== *)
(** * The kernel's mailbox as the application uses it

    The mailbox of Mailbox.v, initialised as in src/applications/main.c, is an
    instance of the interface that Display.v is written against; with it the
    theorems about the display hold for the system built on the kernel's code,
    and a run of this system is evaluated. *)

From Stdlib Require Import ZArith Lia Ascii String.
From stdpp Require Import prelude functions list.
From S2P Require Import Prelude CFloat CTime RtcSpec App AppText AppPages Display DisplaySpec.
From S2P Require Import Kernel KernelSpec Mailbox MailboxSpec MailboxSystem.
Open Scope Z_scope.
Open Scope list_scope.

(** ** The instance *)

(** A mailbox between two calls. *)
Record mb_wf (c : msys) : Prop := mk_mb_wf {
  wf_type : is_mailbox (mb c) = true;
  wf_ring : ring_ok (mb c);
  wf_recv : all_suspended suspend_thread (ms_krn c);
  wf_send : all_suspended suspend_sender_thread (ms_krn c)
}.

Definition mb_send (t : tid) (v : Z) (c : msys) : Z * msys :=
  match rt_mb_send t v c with Some (Done r _, c') => (r, c') | _ => (- RT_ERROR, c) end.

(** A receive that does not find a mail gives up or waits; either way the
    caller goes on without a mail for now. *)
Definition mb_recv (t : tid) (c : msys) : option (Z * msys) :=
  match rt_mb_recv t 0 c with Some (Done _ (Some v), c') => Some (v, c') | _ => None end.

Lemma woken_suspended q q' k : all_suspended q' k -> all_suspended q' (woken q k).
Proof.
  intros Hk. unfold woken. destruct (waitq k q) as [|h r]; [done|].
  intros t Ht. rewrite waitq_resumed in Ht. apply list_elem_of_filter in Ht as [Hne Ht].
  unfold resumed. rewrite tcb_alter. case_decide; [done|]. by apply Hk.
Qed.

Lemma length_mails_nat m : ring_ok m -> length (mails m) = Z.to_nat (entry m).
Proof. intros Hm. pose proof (length_mails m Hm). lia. Qed.

Lemma kernel_send_room c v :
  mb_wf c -> (length (mails (mb c)) < Z.to_nat (size (mb c)))%nat ->
  exists c', mb_send 0 v c = (0, c') /\ mb_wf c' /\
    Z.to_nat (size (mb c')) = Z.to_nat (size (mb c)) /\ mails (mb c') = mails (mb c) ++ [v].
Proof.
  intros Hc Hl. pose proof (wf_ring _ Hc) as Hr. rewrite length_mails_nat in Hl by done.
  assert (entry (mb c) < size (mb c)) as Hlt by (destruct Hr; lia).
  unfold mb_send. rewrite send_has_room by (done || apply Hc).
  rewrite mb_put_spec by (done || apply Hc). eexists. split; [reflexivity|].
  split_and!; [|done|by apply stored_mails].
  split; [apply Hc|by apply stored_ring|apply woken_suspended, Hc..].
Qed.

Lemma kernel_send_full c v :
  mb_wf c -> (Z.to_nat (size (mb c)) <= length (mails (mb c)))%nat -> mb_send 0 v c = (-3, c).
Proof.
  intros Hc Hl. pose proof (wf_ring _ Hc) as Hr. rewrite length_mails_nat in Hl by done.
  assert (entry (mb c) = size (mb c)) as E by (destruct Hr; lia).
  unfold mb_send, rt_mb_send, rt_mb_send_wait, bind, gets.
  by rewrite (wf_type _ Hc), E, Z.eqb_refl.
Qed.

Lemma kernel_recv_mail c v l :
  mb_wf c -> mails (mb c) = v :: l ->
  exists c', mb_recv 0 c = Some (v, c') /\ mb_wf c' /\
    Z.to_nat (size (mb c')) = Z.to_nat (size (mb c)) /\ mails (mb c') = l.
Proof.
  intros Hc Hv. pose proof (wf_ring _ Hc) as Hr.
  assert (0 < entry (mb c)) as Hlt.
  { pose proof (length_mails _ Hr) as H. rewrite Hv in H. cbn in H. lia. }
  unfold mb_recv. rewrite recv_has_mail by (done || apply Hc).
  rewrite mb_get_spec by (done || apply Hc).
  rewrite fetched_mails in Hv by done. injection Hv as <- <-.
  eexists. split; [reflexivity|]. split_and!; [|done|done].
  split; [apply Hc|by apply fetched_ring|apply woken_suspended, Hc..].
Qed.

Lemma kernel_recv_none c : mb_wf c -> mails (mb c) = [] -> mb_recv 0 c = None.
Proof.
  intros Hc Hv. pose proof (wf_ring _ Hc) as Hr.
  assert (entry (mb c) = 0) as E by (pose proof (length_mails _ Hr) as H; by rewrite Hv in H).
  unfold mb_recv, rt_mb_recv, bind, gets. by rewrite (wf_type _ Hc), E.
Qed.

#[export] Instance kernel_mailbox : Mailbox msys := {|
  mq_wf := mb_wf;
  mq_view c := mails (mb c);
  mq_cap c := Z.to_nat (size (mb c));
  mq_send := mb_send 0;
  mq_recv := mb_recv 0;
  mq_send_room := kernel_send_room;
  mq_send_full := kernel_send_full;
  mq_recv_mail := kernel_recv_mail;
  mq_recv_none := kernel_recv_none
|}.

(** ** The application on the kernel *)

(** A mailbox as [main] initialises it: 32 mails in 128 bytes, FIFO. *)
Definition mb_pool : list Z := repeat 0 (128 / 4).
Definition main_mailbox : msys :=
  let k := mk_kernel 0 (fun _ => mk_thread 20 0 RT_THREAD_READY None) (fun _ => []) in
  let none := mk_msys k (mk_mb false 0 [] 0 0 0 0) in
  match rt_mb_init mb_pool (128 / 4) RT_IPC_FLAG_FIFO none with
  | Some (_, c) => c
  | None => none
  end.

Lemma main_mailbox_wf : mb_wf main_mailbox.
Proof.
  assert (forall q, all_suspended q (ms_krn main_mailbox)) as Hn.
  { intros q t Ht. assert (waitq (ms_krn main_mailbox) q = []) as E by (by destruct q as [|[|q]]).
    rewrite E in Ht. by apply not_elem_of_nil in Ht. }
  split; [done| |apply Hn..]. split; cbn; change (u16 (128 / 4)) with 32;
    try lia. intros _. split; [lia|done].
Qed.

Definition demo_app : app msys :=
  mk_app
    (mk_prod 0 1 (repeat 0 25) (mk_mesg_time (repeat 7 10) (repeat 7 6) (repeat 7 8) (repeat 7 8))
       (mk_mesg_dht (repeat 7 12) (repeat 7 12)) Unused)
    (mk_oled OWait 0 0 0 0 None [] [])
    main_mailbox main_mailbox main_mailbox main_mailbox.

Lemma demo_start : start demo_app.
Proof.
  split; [done|done| |done]. repeat constructor; apply main_mailbox_wf.
Qed.

(** ** A run *)

Definition run (es : list event) (s : app msys) : option (app msys) :=
  foldl (fun o e => s ← o; app_step e s) (Some s) es.

(** A pitch of -45 degrees. *)
Definition tilted : float := F32.of_Z (-45).

Definition demo_json : now_json :=
  mk_json (Some (chars "Nanyang")) (Some (chars "Sunny")) (Some (chars "21")).
Definition demo_fresh : mesg_weather := mk_mesg_weather (repeat 7 16) (repeat 7 12) (repeat 7 6).

(** The weather arrives, the display shows the time, the clock is tilted and
    the display shows the sensor data. *)
Definition demo_events : list event :=
  [EWeather demo_json demo_fresh; EOled; ETime 1683331200; EOled] ++ repeat EOled 12 ++
  [EPitch tilted; EDht (45 * 2 ^ 16 + 23); EOled; EOled; EOled] ++ repeat EOled 6.

Definition demo_end : app msys := default demo_app (run demo_events demo_app).

Lemma run_snoc es e s : run (es ++ [e]) s = (s ← run es s; app_step e s).
Proof. unfold run. by rewrite foldl_app. Qed.

Example demo_frames :
  option_map (fun s => List.map (List.map dtext) s.(disp).(frames)) (run demo_events demo_app) =
  Some [[chars "2023"; chars "May  6"; chars "Sat"; chars "00:00:00"];
        [chars "Temp: 23 C"; chars "Humi: 45 %"]].
Proof. vm_compute. reflexivity. Qed.

(** A list of events all of which can happen, with no page refused. *)
Fixpoint possible (es : list event) (s : app msys) : Prop :=
  match es with
  | [] => True
  | e :: es => can_happen e s /\ refused e s = false /\
      match app_step e s with Some s' => possible es s' | None => False end
  end.

Lemma possible_reach s0 es s :
  reach s0 true s -> possible es s -> exists s', run es s = Some s' /\ reach s0 true s'.
Proof.
  unfold run. revert s. induction es as [|e es IH]; intros s Hs Hp; [by exists s|].
  destruct Hp as (He & Hr & Hp). cbn [foldl mbind option_bind].
  destruct (app_step e s) as [s'|] eqn:E; [|done]. apply IH; [|done].
  pose proof (reach_step s0 true s e s' Hs He E) as H. by rewrite Hr in H.
Qed.

Lemma demo_possible : possible demo_events demo_app.
Proof. vm_compute. repeat split; try congruence; repeat constructor; congruence. Qed.

Lemma demo_reach : reach demo_app true demo_end.
Proof.
  destruct (possible_reach demo_app demo_events demo_app (reach_init _) demo_possible) as (s & E & Hs).
  unfold demo_end. by rewrite E.
Qed.

Lemma display_reads_written_strings_witness :
  0 <= demo_end.(disp).(oled_sign) <= 2 /\
  (is_Some (app_step EOled demo_end) <-> ~ goes_wrong EOled demo_end).
Proof.
  exact (display_reads_written_strings demo_app true demo_end EOled demo_start demo_reach I).
Defined.

Lemma frames_are_pages_witness :
  Forall (fun fr => is_layout (spots fr)) demo_end.(disp).(frames).
Proof. exact (frames_are_pages demo_app true demo_end demo_start demo_reach). Defined.

Lemma display_follows_tilt_witness :
  default demo_end.(disp).(oled_sign) (last (mails (mb demo_end.(mb_mpu)))) = demo_end.(prod).(page) /\
  (mails (mb demo_end.(mb_mpu)) = [] -> demo_end.(disp).(oled_sign) = demo_end.(prod).(page)).
Proof. exact (display_follows_tilt demo_app demo_end demo_start demo_reach). Defined.

(** ** The weather page *)

(** The weather thread frees its structure right after it has sent the
    pointer; the display keeps the pointer and draws from it: a run that ends in
    the drawing of a freed string. *)
Definition weather_events : list event :=
  [EWeather demo_json demo_fresh; EOled; EFree; EPitch (F32.of_Z 45); EOled; EOled; EOled; EOled].

Lemma weather_possible : possible weather_events demo_app.
Proof. vm_compute. repeat split; try congruence; repeat constructor; eauto; congruence. Qed.

Definition weather_end : app msys := default demo_app (run weather_events demo_app).

Theorem weather_page_reads_freed_memory :
  reach demo_app true weather_end /\ weather_end.(prod).(wea) = Freed /\
  weather_end.(disp).(str_wea) = addr_wea /\ app_step EOled weather_end = None.
Proof.
  split; [|split_and!; vm_compute; reflexivity].
  destruct (possible_reach demo_app weather_events demo_app (reach_init _) weather_possible)
    as (s & E & Hs).
  unfold weather_end. by rewrite E.
Qed.
