(* ===== verification/Heap.v ===== *)
(** * The heap

    The kernel's dynamic memory (src/rt-thread/src/mem.c): blocks with a
    header in front of each, chained forwards and backwards by offsets, first
    fit from the lowest free block, neighbours that are free are merged.  The
    semaphore of the heap makes each function one step.  Assertions are enabled
    in this configuration; one that fails is undefined behaviour, and so is
    taking memory for a header where no header has been written. *)

From Stdlib Require Import ZArith Lia.
From stdpp Require Import prelude gmap.
From S2P Require Import Prelude.
Open Scope Z_scope.
Open Scope c_scope.

Definition HEAP_MAGIC : Z := 0x1ea0.
Definition RT_ALIGN_SIZE : Z := 4.

(** [RT_ALIGN] and [RT_ALIGN_DOWN] on 32-bit values. *)
Definition RT_ALIGN (size align : Z) : Z :=
  Z.land (u32 (size + align - 1)) (u32 (Z.lnot (align - 1))).
Definition RT_ALIGN_DOWN (size align : Z) : Z := Z.land size (u32 (Z.lnot (align - 1))).

(** ** State *)

Record heap_mem := mk_mem {
  magic : Z;
  used : Z;
  next : Z;
  prev : Z
}.

Definition MIN_SIZE : Z := 12.
Definition MIN_SIZE_ALIGNED : Z := 12.
Definition SIZEOF_STRUCT_MEM : Z := 12.

(** [hdrs] holds the headers by their offset from [heap_ptr], [bytes] the
    contents of memory by address; [heap_end] and [lfree] are offsets too. *)
Record heap := mk_heap {
  heap_ptr : Z;
  heap_end : Z;
  lfree : Z;
  mem_size_aligned : Z;
  hdrs : gmap Z heap_mem;
  bytes : Z -> Z;
  used_mem : Z;
  max_mem : Z
}.

Abbreviation H := (M heap).

Definition hdr_at (o : Z) : H heap_mem := fun s =>
  match s.(hdrs) !! o with Some m => Some (m, s) | None => None end.

Definition put_hdrs (h : gmap Z heap_mem) (s : heap) : heap :=
  mk_heap s.(heap_ptr) s.(heap_end) s.(lfree) s.(mem_size_aligned) h s.(bytes)
    s.(used_mem) s.(max_mem).
Definition put_lfree (o : Z) (s : heap) : heap :=
  mk_heap s.(heap_ptr) s.(heap_end) o s.(mem_size_aligned) s.(hdrs) s.(bytes)
    s.(used_mem) s.(max_mem).
Definition put_bytes (b : Z -> Z) (s : heap) : heap :=
  mk_heap s.(heap_ptr) s.(heap_end) s.(lfree) s.(mem_size_aligned) s.(hdrs) b
    s.(used_mem) s.(max_mem).

(** The statistics, [RT_MEM_STATS]: memory taken and its highest value, memory
    given back. *)
Definition add_used (n : Z) (s : heap) : heap :=
  let u := u32 (s.(used_mem) + n) in
  mk_heap s.(heap_ptr) s.(heap_end) s.(lfree) s.(mem_size_aligned) s.(hdrs) s.(bytes)
    u (if s.(max_mem) <? u then u else s.(max_mem)).
Definition sub_used (n : Z) (s : heap) : heap :=
  mk_heap s.(heap_ptr) s.(heap_end) s.(lfree) s.(mem_size_aligned) s.(hdrs) s.(bytes)
    (u32 (s.(used_mem) - n)) s.(max_mem).

Definition set_hdr (o : Z) (m : heap_mem) : H unit :=
  modify (fun s => put_hdrs (<[o := m]> s.(hdrs)) s).
Definition set_lfree (o : Z) : H unit := modify (put_lfree o).

Definition with_used (u : Z) (m : heap_mem) : heap_mem := mk_mem m.(magic) u m.(next) m.(prev).
Definition with_magic (v : Z) (m : heap_mem) : heap_mem := mk_mem v m.(used) m.(next) m.(prev).
Definition with_next (o : Z) (m : heap_mem) : heap_mem := mk_mem m.(magic) m.(used) o m.(prev).
Definition with_prev (o : Z) (m : heap_mem) : heap_mem := mk_mem m.(magic) m.(used) m.(next) o.

(** Changing a header in place. *)
Definition upd_hdr (o : Z) (f : heap_mem -> heap_mem) : H unit :=
  m <- hdr_at o ;; set_hdr o (f m).

Definition RT_ASSERT (b : bool) : H unit := if b then ret tt else undefined.

(** ** Operations *)

Definition plug_holes (mem : Z) : H unit :=
  e <- gets heap_end ;;
  m <- hdr_at mem ;;
  RT_ASSERT ((0 <=? mem) && (mem <? e) && (m.(used) =? 0)) ;;;
  let nmem := m.(next) in
  (if negb (mem =? nmem) then
     n <- hdr_at nmem ;;
     if (n.(used) =? 0) && negb (nmem =? e) then
       lf <- gets lfree ;;
       when (lf =? nmem) (set_lfree mem) ;;;
       upd_hdr mem (with_next n.(next)) ;;;
       upd_hdr n.(next) (with_prev mem)
     else ret tt
   else ret tt) ;;;
  m <- hdr_at mem ;;
  let pmem := m.(prev) in
  if negb (pmem =? mem) then
    p <- hdr_at pmem ;;
    if p.(used) =? 0 then
      lf <- gets lfree ;;
      when (lf =? mem) (set_lfree pmem) ;;;
      upd_hdr pmem (with_next m.(next)) ;;;
      upd_hdr m.(next) (with_prev pmem)
    else ret tt
  else ret tt.

Definition rt_system_heap_init (begin_addr end_addr : Z) : H unit :=
  let begin_align := RT_ALIGN begin_addr RT_ALIGN_SIZE in
  let end_align := RT_ALIGN_DOWN end_addr RT_ALIGN_SIZE in
  if (2 * SIZEOF_STRUCT_MEM <? end_align) && (begin_align <=? end_align - 2 * SIZEOF_STRUCT_MEM)
  then
    let size := end_align - begin_align - 2 * SIZEOF_STRUCT_MEM in
    let e := size + SIZEOF_STRUCT_MEM in
    modify (fun s => mk_heap begin_align e 0 size s.(hdrs) s.(bytes) s.(used_mem) s.(max_mem)) ;;;
    set_hdr 0 (mk_mem HEAP_MAGIC 0 e 0) ;;;
    set_hdr e (mk_mem HEAP_MAGIC 1 e e)
  else ret tt.

(** The search for the next free block from [lfree] on; running out of
    [fuel] would be a loop that does not end. *)
Fixpoint next_free (fuel : nat) : H unit :=
  lf <- gets lfree ;;
  e <- gets heap_end ;;
  m <- hdr_at lf ;;
  if truthy m.(used) && negb (lf =? e) then
    match fuel with
    | O => undefined
    | S fuel => set_lfree m.(next) ;;; next_free fuel
    end
  else RT_ASSERT ((lf =? e) || negb (truthy m.(used))).

(** Taking [size] bytes of the free block at [ptr], the rest of which becomes
    a block of its own if it is large enough. *)
Definition take_block (ptr size : Z) : H Z :=
  msa <- gets mem_size_aligned ;;
  e <- gets heap_end ;;
  hp <- gets heap_ptr ;;
  mem <- hdr_at ptr ;;
  (if size + SIZEOF_STRUCT_MEM + MIN_SIZE_ALIGNED <=? u32 (mem.(next) - (ptr + SIZEOF_STRUCT_MEM))
   then
     let ptr2 := ptr + SIZEOF_STRUCT_MEM + size in
     let mem2 := mk_mem HEAP_MAGIC 0 mem.(next) ptr in
     set_hdr ptr2 mem2 ;;;
     upd_hdr ptr (fun m => with_used 1 (with_next ptr2 m)) ;;;
     when (negb (mem2.(next) =? msa + SIZEOF_STRUCT_MEM)) (upd_hdr mem2.(next) (with_prev ptr2)) ;;;
     modify (add_used (size + SIZEOF_STRUCT_MEM))
   else
     upd_hdr ptr (with_used 1) ;;;
     modify (add_used (u32 (mem.(next) - ptr)))) ;;;
  upd_hdr ptr (with_magic HEAP_MAGIC) ;;;
  lf <- gets lfree ;;
  when (ptr =? lf) (next_free (Z.to_nat e)) ;;;
  let p := hp + ptr + SIZEOF_STRUCT_MEM in
  RT_ASSERT (p + size <=? hp + e) ;;;
  RT_ASSERT (Z.rem p RT_ALIGN_SIZE =? 0) ;;;
  RT_ASSERT (Z.land (hp + ptr) (RT_ALIGN_SIZE - 1) =? 0) ;;;
  ret p.

(** The search for a block that fits. *)
Fixpoint malloc_loop (fuel : nat) (ptr size : Z) : H Z :=
  msa <- gets mem_size_aligned ;;
  if ptr <? u32 (msa - size) then
    match fuel with
    | O => undefined
    | S fuel =>
        mem <- hdr_at ptr ;;
        if negb (truthy mem.(used)) && (size <=? u32 (mem.(next) - (ptr + SIZEOF_STRUCT_MEM)))
        then take_block ptr size
        else malloc_loop fuel mem.(next) size
    end
  else ret 0.

Definition rt_malloc (size : Z) : H Z :=
  if size =? 0 then ret 0 else
  let size := RT_ALIGN size RT_ALIGN_SIZE in
  msa <- gets mem_size_aligned ;;
  if msa <? size then ret 0 else
  let size := if size <? MIN_SIZE_ALIGNED then MIN_SIZE_ALIGNED else size in
  lf <- gets lfree ;;
  malloc_loop (Z.to_nat msa) lf size.

Definition rt_free (rmem : Z) : H unit :=
  if rmem =? 0 then ret tt else
  hp <- gets heap_ptr ;;
  e <- gets heap_end ;;
  RT_ASSERT (Z.land rmem (RT_ALIGN_SIZE - 1) =? 0) ;;;
  RT_ASSERT ((hp <=? rmem) && (rmem <? hp + e)) ;;;
  let mem := rmem - SIZEOF_STRUCT_MEM - hp in
  m <- hdr_at mem ;;
  RT_ASSERT (truthy m.(used)) ;;;
  RT_ASSERT (m.(magic) =? HEAP_MAGIC) ;;;
  upd_hdr mem (fun m => with_magic HEAP_MAGIC (with_used 0 m)) ;;;
  lf <- gets lfree ;;
  when (mem <? lf) (set_lfree mem) ;;;
  modify (sub_used (u32 (m.(next) - mem))) ;;;
  plug_holes mem.

(** [rt_memcpy] and [rt_memset] on memory. *)
Definition copy_bytes (dst src n : Z) (b : Z -> Z) : Z -> Z := fun a =>
  if (dst <=? a) && (a <? dst + n) then b (src + (a - dst)) else b a.
Definition fill_bytes (dst v n : Z) (b : Z -> Z) : Z -> Z := fun a =>
  if (dst <=? a) && (a <? dst + n) then v else b a.

Definition rt_realloc (rmem newsize : Z) : H Z :=
  let newsize := RT_ALIGN newsize RT_ALIGN_SIZE in
  msa <- gets mem_size_aligned ;;
  if msa <? newsize then ret 0 else
  if newsize =? 0 then rt_free rmem ;;; ret 0 else
  if rmem =? 0 then rt_malloc newsize else
  hp <- gets heap_ptr ;;
  e <- gets heap_end ;;
  if (rmem <? hp) || (hp + e <=? rmem) then ret rmem else
  let ptr := rmem - SIZEOF_STRUCT_MEM - hp in
  mem <- hdr_at ptr ;;
  let size := u32 (mem.(next) - ptr - SIZEOF_STRUCT_MEM) in
  if size =? newsize then ret rmem else
  if newsize + SIZEOF_STRUCT_MEM + MIN_SIZE <? size then
    modify (sub_used (size - newsize)) ;;;
    let ptr2 := ptr + SIZEOF_STRUCT_MEM + newsize in
    let mem2 := mk_mem HEAP_MAGIC 0 mem.(next) ptr in
    set_hdr ptr2 mem2 ;;;
    upd_hdr ptr (with_next ptr2) ;;;
    when (negb (mem2.(next) =? msa + SIZEOF_STRUCT_MEM)) (upd_hdr mem2.(next) (with_prev ptr2)) ;;;
    lf <- gets lfree ;;
    when (ptr2 <? lf) (set_lfree ptr2) ;;;
    plug_holes ptr2 ;;;
    ret rmem
  else
    nmem <- rt_malloc newsize ;;
    when (negb (nmem =? 0))
      (modify (fun s => put_bytes (copy_bytes nmem rmem (Z.min size newsize) s.(bytes)) s) ;;;
       rt_free rmem) ;;;
    ret nmem.

Definition rt_calloc (count size : Z) : H Z :=
  p <- rt_malloc (u32 (count * size)) ;;
  when (negb (p =? 0))
    (modify (fun s => put_bytes (fill_bytes p 0 (u32 (count * size)) s.(bytes)) s)) ;;;
  ret p.

(** A heap of 100 bytes at address 0x1000. *)
Definition empty_heap : heap := mk_heap 0 0 0 0 ∅ (fun _ => 0) 0 0.
Example heap_example :
  (rt_system_heap_init 0x1001 0x1080 ;;;
   a <- rt_malloc 5 ;; b <- rt_malloc 20 ;; c <- rt_malloc 13 ;;
   rt_free a ;;; rt_free b ;;; d <- rt_malloc 32 ;; f <- rt_malloc 40 ;; ret (a, b, c, d, f))
    empty_heap <> None.
Proof. vm_compute. discriminate. Qed.
