(* ===== verification/HeapSpec.v ===== *)
(** * The heap is a list of blocks

    The abstraction of Heap.v: a list of blocks, used and free, that fills the
    heap without gaps.  Allocation is first fit on this list, releasing merges a
    block with its free neighbours. *)

From Stdlib Require Import ZArith Lia.
From stdpp Require Import prelude gmap.
From S2P Require Import Prelude Heap.
Open Scope Z_scope.
Open Scope c_scope.

(** A block: its length with the header, and whether it is used. *)
Abbreviation block := (Z * bool)%type.
Implicit Types bs l r : list block.

(** ** Abstract operations *)

Definition total bs : Z := foldr (fun b n => fst b + n) 0 bs.

(** The memory in use. *)
Definition used_total bs : Z := foldr (fun b n => (if snd b : bool then fst b else 0) + n) 0 bs.

Fixpoint first_free (o : Z) bs (e : Z) : Z :=
  match bs with
  | [] => e
  | (len, u) :: bs => if u : bool then first_free (o + len) bs e else o
  end.

(** A block that is free and large enough. *)
Definition fits (size len : Z) (u : bool) : bool := negb u && (size <=? len - 12).

Definition place (size len : Z) r : list block :=
  if size + 24 <=? len - 12 then (size + 12, true) :: (len - size - 12, false) :: r
  else (len, true) :: r.

(** What is taken of a block. *)
Definition taken (size len : Z) : Z := if size + 24 <=? len - 12 then size + 12 else len.

(** First fit: the offset of the block and the new list. *)
Fixpoint first_fit (size o : Z) bs : option (Z * list block) :=
  match bs with
  | [] => None
  | (len, u) :: r =>
      if fits size len u then Some (o, place size len r)
      else match first_fit size (o + len) r with
           | Some (a, r') => Some (a, (len, u) :: r')
           | None => None
           end
  end.

(** What the loop of [rt_malloc] finds: it ends at offset [msa - size]. *)
Fixpoint alloc (msa size o : Z) bs : option (Z * list block) :=
  match bs with
  | [] => None
  | (len, u) :: r =>
      if fits size len u && (o <? msa - size) then Some (o, place size len r)
      else match alloc msa size (o + len) r with
           | Some (a, r') => Some (a, (len, u) :: r')
           | None => None
           end
  end.

(** Releasing a block between [l] and [r]. *)
Definition join_next (len : Z) r : list block :=
  match r with (n, false) :: r => (len + n, false) :: r | _ => (len, false) :: r end.
Fixpoint join_prev l r : list block :=
  match l, r with
  | [(m, false)], (len, _) :: r => (m + len, false) :: r
  | [], _ => r
  | b :: l, _ => b :: join_prev l r
  end.
Definition release l (len : Z) r : list block := join_prev l (join_next len r).

(** ** The representation *)

(** The blocks [bs] lie one after the other from offset [o], after a block at
    [p], to offset [o'], the last of them (or [p]) at [p']. *)
Fixpoint seg (h : gmap Z heap_mem) (p o : Z) bs (p' o' : Z) : Prop :=
  match bs with
  | [] => p = p' /\ o = o'
  | (len, u) :: bs =>
      16 <= len /\ (4 | len) /\ h !! o = Some (mk_mem HEAP_MAGIC (Z.b2z u) (o + len) p) /\
      seg h o (o + len) bs p' o'
  end.

(** No free block after a free block. *)
Fixpoint merged (free : bool) bs : Prop :=
  match bs with
  | [] => True
  | (_, u) :: bs => (free = true -> u = true) /\ merged (negb u) bs
  end.
Fixpoint last_free (free : bool) bs : bool :=
  match bs with [] => free | (_, u) :: bs => last_free (negb u) bs end.

Record heap_ok (s : heap) bs : Prop := mk_heap_ok {
  ok_ptr : 0 < s.(heap_ptr) /\ (4 | s.(heap_ptr));
  ok_size : 12 <= s.(mem_size_aligned) /\ (4 | s.(mem_size_aligned));
  ok_end : s.(heap_end) = s.(mem_size_aligned) + 12;
  ok_range : s.(heap_ptr) + s.(heap_end) < 2 ^ 32;
  ok_seg : exists p, seg s.(hdrs) 0 0 bs p s.(heap_end);
  ok_sentinel : exists q, s.(hdrs) !! s.(heap_end) = Some (mk_mem HEAP_MAGIC 1 s.(heap_end) q);
  ok_merged : merged false bs;
  ok_lfree : s.(lfree) = first_free 0 bs s.(heap_end);
  ok_used : s.(used_mem) = used_total bs
}.

(** ** Segments *)

Lemma seg_app h p o l r p' o' :
  seg h p o (l ++ r) p' o' <-> exists q x, seg h p o l q x /\ seg h q x r p' o'.
Proof.
  revert p o. induction l as [|[len u] l IH]; intros p o; cbn [seg app].
  - split; [intros H; by exists p, o|]. by intros (q & x & [-> ->] & H).
  - rewrite IH. naive_solver.
Qed.

Lemma seg_total h p o bs p' o' : seg h p o bs p' o' -> o' = o + total bs /\ 0 <= total bs.
Proof.
  revert p o. induction bs as [|[len u] bs IH]; intros p o; cbn [seg total foldr fst].
  - intros [-> ->]. lia.
  - intros (Hl & _ & _ & Hs). destruct (IH _ _ Hs). unfold total in *. lia.
Qed.

Lemma seg_le h p o bs p' o' : seg h p o bs p' o' -> o <= o'.
Proof. intros Hs. destruct (seg_total _ _ _ _ _ _ Hs). lia. Qed.

Lemma seg_align h p o bs p' o' : seg h p o bs p' o' -> (4 | o) -> (4 | o').
Proof.
  revert p o. induction bs as [|[len u] bs IH]; intros p o; cbn [seg].
  - by intros [_ ->].
  - intros (_ & Ha & _ & Hs) Ho. eapply IH; [done|]. by apply Z.divide_add_r.
Qed.

(** Headers outside of a segment do not matter to it. *)
Lemma seg_frame h p o bs p' o' x m :
  seg h p o bs p' o' -> x < o \/ o' <= x -> seg (<[x := m]> h) p o bs p' o'.
Proof.
  revert p o. induction bs as [|[len u] bs IH]; intros p o; cbn [seg]; [done|].
  intros (Hl & Ha & Hh & Hs) Hx. pose proof (seg_le _ _ _ _ _ _ Hs).
  split_and!; [done|done|rewrite lookup_insert_ne by lia; done|]. apply IH; [done|lia].
Qed.

(** The block in front of a segment is replaced. *)
Lemma seg_prev h p o bs p' o' q :
  seg h p o bs p' o' -> bs <> [] ->
  exists len u bs', bs = (len, u) :: bs' /\
    h !! o = Some (mk_mem HEAP_MAGIC (Z.b2z u) (o + len) p) /\
    seg (<[o := mk_mem HEAP_MAGIC (Z.b2z u) (o + len) q]> h) q o bs p' o'.
Proof.
  destruct bs as [|[len u] bs]; [done|]. intros (Hl & Ha & Hh & Hs) _. exists len, u, bs.
  split_and!; [done|done|]. cbn [seg]. split_and!; [done|done|by rewrite lookup_insert_eq|].
  apply seg_frame; [done|]. lia.
Qed.

(** ** Runs *)

Lemma hdr_at_eq o s m : s.(hdrs) !! o = Some m -> hdr_at o s = Some (m, s).
Proof. intros H. unfold hdr_at. by rewrite H. Qed.

Lemma upd_hdr_eq o f s m :
  s.(hdrs) !! o = Some m -> upd_hdr o f s = Some (tt, put_hdrs (<[o := f m]> s.(hdrs)) s).
Proof. intros H. unfold upd_hdr, bind. by rewrite (hdr_at_eq _ _ _ H). Qed.

Lemma first_free_used l r o e :
  Forall (fun b => snd b = true) l -> first_free o (l ++ r) e = first_free (o + total l) r e.
Proof.
  intros Hl. revert o. induction Hl as [|[len u] l Hu Hl IH]; intros o; cbn [app first_free].
  - f_equal. cbn. lia.
  - cbn in Hu. rewrite Hu, IH. f_equal. cbn. unfold total. lia.
Qed.

Lemma first_free_found l r o e :
  ~ Forall (fun b => snd b = true) l ->
  forall r', first_free o (l ++ r) e = first_free o (l ++ r') e.
Proof.
  intros Hl r'. revert o Hl. induction l as [|[len u] l IH]; intros o Hl; [by destruct Hl|].
  cbn [app first_free]. destruct u; [|done]. apply IH. intros Hf. apply Hl. by constructor.
Qed.

Lemma next_free_spec fuel s q r p :
  seg s.(hdrs) q s.(lfree) r p s.(heap_end) ->
  (exists q', s.(hdrs) !! s.(heap_end) = Some (mk_mem HEAP_MAGIC 1 s.(heap_end) q')) ->
  s.(heap_end) - s.(lfree) <= Z.of_nat fuel ->
  next_free fuel s = Some (tt, put_lfree (first_free s.(lfree) r s.(heap_end)) s).
Proof.
  revert s q r. induction fuel as [|fuel IH]; intros s q r Hs Hsen Hf;
    destruct r as [|[len u] r]; cbn [seg] in Hs.
  - destruct Hs as [_ E]. cbn [next_free first_free]. unfold bind, gets. rewrite E.
    destruct Hsen as [q' Hq]. rewrite (hdr_at_eq _ _ _ Hq), Z.eqb_refl. cbn.
    by rewrite <- E at 1; destruct s.
  - destruct Hs as (Hl & _ & _ & Hs). pose proof (seg_le _ _ _ _ _ _ Hs). lia.
  - destruct Hs as [_ E]. cbn [next_free first_free]. unfold bind, gets. rewrite E.
    destruct Hsen as [q' Hq]. rewrite (hdr_at_eq _ _ _ Hq), Z.eqb_refl. cbn.
    by rewrite <- E at 1; destruct s.
  - destruct Hs as (Hl & _ & Hh & Hs). pose proof (seg_le _ _ _ _ _ _ Hs).
    cbn [next_free first_free]. unfold bind at 1, gets at 1. unfold bind at 1, gets at 1.
    rewrite (bind_eq _ _ _ _ _ (hdr_at_eq _ _ _ Hh)). cbn [used].
    replace (lfree s =? heap_end s) with false by lia. destruct u; cbn [Z.b2z].
    + change (truthy 1 && negb false) with true. cbv iota.
      rewrite (bind_eq _ _ _ tt (put_lfree (lfree s + len) s)) by done. cbn [next].
      rewrite (IH _ (lfree s) r); cbn [put_lfree lfree hdrs heap_end]; try done. lia.
    + cbn. by destruct s.
Qed.

(** ** Splitting a block *)

(** The header at [o] points back to [n], unless it is the sentinel. *)
Definition relink (e n o : Z) (h : gmap Z heap_mem) : gmap Z heap_mem :=
  if o =? e then h else alter (with_prev n) o h.

Definition split_hdrs (e x q len size u : Z) (h : gmap Z heap_mem) : gmap Z heap_mem :=
  relink e (x + 12 + size) (x + len)
    (<[x := mk_mem HEAP_MAGIC u (x + 12 + size) q]>
       (<[x + 12 + size := mk_mem HEAP_MAGIC 0 (x + len) x]> h)).

Lemma seg_relink h p o r p' e n :
  seg h p o r p' e -> exists p'', seg (relink e n o h) n o r p'' e.
Proof.
  intros Hs. unfold relink. destruct (o =? e) eqn:E.
  - destruct r as [|[len u] r]; cbn [seg] in *.
    + exists n. split; [done|lia].
    + destruct Hs as (Hl & _ & _ & Hs). pose proof (seg_le _ _ _ _ _ _ Hs). lia.
  - destruct r as [|[len u] r]; cbn [seg] in Hs; [lia|].
    destruct Hs as (Hl & Ha & Hh & Hs). exists p'. cbn [seg].
    split_and!; [done|done|by rewrite lookup_alter_eq, Hh|].
    assert (alter (with_prev n) o h = <[o := mk_mem HEAP_MAGIC (Z.b2z u) (o + len) n]> h) as ->.
    { apply map_eq. intros i. destruct (decide (i = o)) as [->|Hi].
      - by rewrite lookup_alter_eq, lookup_insert_eq, Hh.
      - by rewrite lookup_alter_ne, lookup_insert_ne. }
    apply seg_frame; [done|lia].
Qed.

Lemma relink_lookup e n o h i : i <> o \/ o = e -> relink e n o h !! i = h !! i.
Proof.
  intros Hi. unfold relink. destruct (o =? e) eqn:E; [done|].
  rewrite lookup_alter_ne; [done|]. destruct Hi; [done|lia].
Qed.

Lemma seg_relink_frame h p o bs p' o' e n x :
  seg h p o bs p' o' -> x < o \/ o' <= x -> seg (relink e n x h) p o bs p' o'.
Proof.
  intros Hs Hx. unfold relink. destruct (x =? e); [done|].
  destruct (h !! x) as [m|] eqn:E.
  - assert (alter (with_prev n) x h = <[x := with_prev n m]> h) as ->; [|by apply seg_frame].
    apply map_eq. intros i. destruct (decide (i = x)) as [->|Hi].
    + by rewrite lookup_alter_eq, lookup_insert_eq, E.
    + by rewrite lookup_alter_ne, lookup_insert_ne.
  - assert (alter (with_prev n) x h = h) as ->; [|done].
    apply map_eq. intros i. destruct (decide (i = x)) as [->|Hi].
    + by rewrite lookup_alter_eq, E.
    + by rewrite lookup_alter_ne.
Qed.

Lemma split_seg h l len u0 r q x p' e size (u : bool) :
  seg h 0 0 l q x -> h !! x = Some (mk_mem HEAP_MAGIC u0 (x + len) q) ->
  seg h x (x + len) r p' e -> 4 <= size -> 28 + size <= len -> (4 | size) -> (4 | len) ->
  let h' := split_hdrs e x q len size (Z.b2z u) h in
  (exists p'', seg h' 0 0 (l ++ (size + 12, u) :: (len - size - 12, false) :: r) p'' e) /\
  h' !! e = h !! e.
Proof.
  intros Hl Hx Hr Hs0 Hs Ha Hla h'. pose proof (seg_le _ _ _ _ _ _ Hl). pose proof (seg_le _ _ _ _ _ _ Hr).
  unfold h', split_hdrs.
  set (h2 := <[x := _]> (<[x + 12 + size := _]> h)).
  assert (seg h2 x (x + len) r p' e) as Hr2 by (unfold h2; repeat (apply seg_frame; [|lia]); done).
  assert (seg h2 0 0 l q x) as Hl2 by (unfold h2; repeat (apply seg_frame; [|lia]); done).
  destruct (seg_relink h2 x (x + len) r p' e (x + 12 + size) Hr2) as [p'' Hr3].
  split.
  - exists p''. apply seg_app. exists q, x. split; [by apply seg_relink_frame; [|lia]|].
    cbn [seg]. replace (x + (size + 12)) with (x + 12 + size) by lia.
    replace (x + 12 + size + (len - size - 12)) with (x + len) by lia.
    rewrite !relink_lookup by lia. unfold h2.
    rewrite lookup_insert_eq, lookup_insert_ne, lookup_insert_eq by lia.
    split_and!; try done; try lia.
    + apply Z.divide_add_r; [done|by exists 3].
    + apply Z.divide_sub_r; [by apply Z.divide_sub_r|by exists 3].
  - rewrite relink_lookup by lia. unfold h2. by rewrite !lookup_insert_ne by lia.
Qed.

(** ** Allocation *)

(** What an operation leaves alone. *)
Definition same_heap (s s' : heap) : Prop :=
  heap_ptr s' = heap_ptr s /\ heap_end s' = heap_end s /\
  mem_size_aligned s' = mem_size_aligned s /\ bytes s' = bytes s.

(** The highest value of the memory in use is kept up to date. *)
Definition peak (s s' : heap) : Prop := max_mem s' = Z.max (max_mem s) (used_mem s').

Lemma merged_app free l r : merged free (l ++ r) <-> merged free l /\ merged (last_free free l) r.
Proof.
  revert free. induction l as [|[len u] l IH]; intros free; cbn [merged last_free app]; [naive_solver|].
  rewrite IH. naive_solver.
Qed.

Lemma merged_place free size len r :
  merged free ((len, false) :: r) -> merged free (place size len r).
Proof.
  cbn [merged negb]. intros [_ Hm]. unfold place. destruct (_ <=? _); cbn [merged negb].
  - split_and!; try done.
  - split; [done|]. destruct r as [|[n u] r]; [done|]. cbn [merged] in *. naive_solver.
Qed.

Lemma first_free_lt l r o e h p p' o' :
  seg h p o l p' o' -> ~ Forall (fun b => snd b = true) l -> first_free o (l ++ r) e < o'.
Proof.
  revert p o. induction l as [|[len u] l IH]; intros p o Hs Hn; [by destruct Hn|].
  cbn [seg app first_free] in *. destruct Hs as (Hl & _ & _ & Hs).
  pose proof (seg_le _ _ _ _ _ _ Hs). destruct u; [|lia].
  eapply IH; [done|]. intros Hf. apply Hn. by constructor.
Qed.

(** The lowest free block, when the block at [x] is replaced by blocks. *)
Lemma lfree_replace h l q x r r' e :
  seg h 0 0 l q x ->
  first_free 0 (l ++ r') e =
    if decide (Forall (fun b => snd b = true) l) then first_free x r' e
    else first_free 0 (l ++ r) e.
Proof.
  intros Hl. destruct (seg_total _ _ _ _ _ _ Hl) as [E _]. case_decide as Hf.
  - rewrite first_free_used by done. f_equal. lia.
  - by apply first_free_found.
Qed.

Lemma seg_lookup h p o l len u r p' o' :
  seg h p o (l ++ (len, u) :: r) p' o' ->
  exists q, seg h p o l q (o + total l) /\ 16 <= len /\ (4 | len) /\
    h !! (o + total l) = Some (mk_mem HEAP_MAGIC (Z.b2z u) (o + total l + len) q) /\
    seg h (o + total l) (o + total l + len) r p' o'.
Proof.
  intros Hs. apply seg_app in Hs as (q & x & Hl & Hr). destruct (seg_total _ _ _ _ _ _ Hl) as [-> _].
  destruct Hr as (? & ? & ? & ?). by exists q.
Qed.

(** The headers that [take_block] leaves, and that its first part leaves
    them. *)
Definition place_hdrs (e x q len size : Z) (h : gmap Z heap_mem) : gmap Z heap_mem :=
  if size + 24 <=? len - 12 then split_hdrs e x q len size 1 h
  else <[x := mk_mem HEAP_MAGIC 1 (x + len) q]> h.

Lemma place_seg h l len r q x p' e size :
  seg h 0 0 l q x -> h !! x = Some (mk_mem HEAP_MAGIC 0 (x + len) q) ->
  seg h x (x + len) r p' e -> 12 <= size <= len - 12 -> (4 | size) -> (4 | len) ->
  let h' := place_hdrs e x q len size h in
  (exists p'', seg h' 0 0 (l ++ place size len r) p'' e) /\ h' !! e = h !! e.
Proof.
  intros Hl Hx Hr Hs Ha Hla. unfold place_hdrs, place. destruct (_ <=? _) eqn:E.
  - eapply (split_seg h l len 0 r q x p' e size true); try done; lia.
  - pose proof (seg_le _ _ _ _ _ _ Hl). pose proof (seg_le _ _ _ _ _ _ Hr). split.
    + exists p'. apply seg_app. exists q, x. split; [apply seg_frame; [done|lia]|].
      cbn [seg Z.b2z]. rewrite lookup_insert_eq. split_and!; try done; [lia|].
      apply seg_frame; [done|lia].
    + by rewrite lookup_insert_ne by lia.
Qed.

Lemma relink_upd e n o s :
  (o <> e -> is_Some (s.(hdrs) !! o)) ->
  when (negb (o =? e)) (upd_hdr o (with_prev n)) s =
    Some (tt, put_hdrs (relink e n o s.(hdrs)) s).
Proof.
  intros Ho. unfold when, relink. destruct (o =? e) eqn:E; cbn [negb]; [by destruct s|].
  destruct Ho as [m Hm]; [lia|]. rewrite (upd_hdr_eq _ _ _ _ Hm). do 3 f_equal.
  apply map_eq. intros i. destruct (decide (i = o)) as [->|Hi].
  - by rewrite lookup_alter_eq, lookup_insert_eq, Hm.
  - by rewrite lookup_alter_ne, lookup_insert_ne.
Qed.

Lemma seg_head_some h p o r p' e : seg h p o r p' e -> o <> e -> is_Some (h !! o).
Proof. destruct r as [|[len u] r]; cbn [seg]; [naive_solver|]. intros (_ & _ & -> & _). eauto. Qed.

Lemma land3_align z : (4 | z) -> Z.land z 3 = 0.
Proof. intros [k ->]. rewrite (Z.land_ones _ 2) by lia. by apply Z.mod_mul. Qed.

Lemma heap_ok_block s l len u r :
  heap_ok s (l ++ (len, u) :: r) ->
  exists q p, let x := total l in
    seg s.(hdrs) 0 0 l q x /\ s.(hdrs) !! x = Some (mk_mem HEAP_MAGIC (Z.b2z u) (x + len) q) /\
    seg s.(hdrs) x (x + len) r p s.(heap_end) /\ 16 <= len /\ (4 | len) /\
    0 <= x /\ (4 | x) /\ x + len <= s.(heap_end) < 2 ^ 32.
Proof.
  intros Hs. destruct (ok_seg _ _ Hs) as [p Hp]. destruct (seg_lookup _ _ _ _ _ _ _ _ _ Hp)
    as (q & Hl & Hlen & Ha & Hx & Hr). exists q, p. cbv zeta. rewrite !Z.add_0_l in *.
  pose proof (seg_le _ _ _ _ _ _ Hl). pose proof (seg_le _ _ _ _ _ _ Hr).
  pose proof (seg_align _ _ _ _ _ _ Hl (Z.divide_0_r 4)). destruct (ok_ptr _ _ Hs).
  pose proof (ok_range _ _ Hs). split_and!; try done; lia.
Qed.

Lemma used_total_app l r : used_total (l ++ r) = used_total l + used_total r.
Proof. unfold used_total. induction l as [|b l IH]; cbn [app foldr]; lia. Qed.

Lemma used_total_place l size len r :
  used_total (l ++ place size len r) = used_total (l ++ (len, false) :: r) + taken size len.
Proof.
  rewrite !used_total_app. unfold place, taken. destruct (_ <=? _);
    cbn [used_total foldr fst snd]; fold (used_total r); lia.
Qed.

Lemma used_total_bound h p o bs p' o' : seg h p o bs p' o' -> 0 <= used_total bs <= o' - o.
Proof.
  revert p o. induction bs as [|[len u] bs IH]; intros p o; cbn [seg used_total foldr fst snd].
  - intros [-> ->]. lia.
  - intros (Hl & _ & _ & Hs). fold (used_total bs). specialize (IH _ _ Hs). destruct u; lia.
Qed.

(** The first part of [take_block] changes the headers as [place_hdrs]. *)
Lemma take_hdrs_eq s x q len size r p e :
  s.(hdrs) !! x = Some (mk_mem HEAP_MAGIC 0 (x + len) q) ->
  seg s.(hdrs) x (x + len) r p e -> e = mem_size_aligned s + 12 ->
  12 <= size <= len - 12 -> 0 <= x -> x + len < 2 ^ 32 ->
  (if size + SIZEOF_STRUCT_MEM + MIN_SIZE_ALIGNED <=? u32 (x + len - (x + SIZEOF_STRUCT_MEM))
   then
     let ptr2 := x + SIZEOF_STRUCT_MEM + size in
     let mem2 := mk_mem HEAP_MAGIC 0 (x + len) x in
     set_hdr ptr2 mem2 ;;;
     upd_hdr x (fun m => with_used 1 (with_next ptr2 m)) ;;;
     when (negb (mem2.(next) =? mem_size_aligned s + SIZEOF_STRUCT_MEM))
       (upd_hdr mem2.(next) (with_prev ptr2)) ;;;
     modify (add_used (size + SIZEOF_STRUCT_MEM))
   else
     upd_hdr x (with_used 1) ;;;
     modify (add_used (u32 (x + len - x)))) s =
    Some (tt, put_hdrs (place_hdrs e x q len size s.(hdrs)) (add_used (taken size len) s)).
Proof.
  intros Hx Hr He Hs Hx0 Hlt. unfold SIZEOF_STRUCT_MEM, MIN_SIZE_ALIGNED, place_hdrs.
  replace (x + len - (x + 12)) with (len - 12) by lia. rewrite u32_small by lia.
  replace (size + 12 + 12) with (size + 24) by lia. rewrite <- He.
  destruct (size + 24 <=? len - 12) eqn:E.
  - cbv zeta. cbn [next]. set (s1 := put_hdrs (<[x + 12 + size := mk_mem HEAP_MAGIC 0 (x + len) x]> (hdrs s)) s).
    rewrite (bind_eq (set_hdr _ _) _ s tt s1) by done.
    assert (hdrs s1 !! x = Some (mk_mem HEAP_MAGIC 0 (x + len) q)) as Hx1
      by (unfold s1; cbn [put_hdrs hdrs]; rewrite lookup_insert_ne by lia; done).
    rewrite (bind_eq _ _ _ _ _ (upd_hdr_eq _ _ _ _ Hx1)).
    erewrite bind_eq; [|apply relink_upd].
    + unfold taken. by rewrite E.
    + intros Hne. unfold s1. cbn [put_hdrs hdrs].
      rewrite !lookup_insert_ne by lia. by eapply seg_head_some.
  - rewrite (bind_eq _ _ _ _ _ (upd_hdr_eq _ _ _ _ Hx)). unfold taken. rewrite E.
    replace (x + len - x) with len by lia. by rewrite u32_small by lia.
Qed.

Lemma place_head size len r : exists n r', place size len r = (n, true) :: r'.
Proof. unfold place. destruct (_ <=? _); eauto. Qed.

Lemma assert_true b s : b = true -> RT_ASSERT b s = Some (tt, s).
Proof. by intros ->. Qed.

(** The update of the lowest free block. *)
Lemma update_lfree s h' l len r q x p'' b r' n :
  heap_ok s (l ++ (len, false) :: r) -> seg s.(hdrs) 0 0 l q x ->
  seg h' 0 0 (l ++ b :: r') p'' s.(heap_end) -> h' !! s.(heap_end) = s.(hdrs) !! s.(heap_end) ->
  when (x =? s.(lfree)) (next_free (Z.to_nat s.(heap_end)))
      (put_hdrs h' (add_used n s)) =
    Some (tt, put_lfree (first_free 0 (l ++ b :: r') s.(heap_end)) (put_hdrs h' (add_used n s))).
Proof.
  intros Hs Hl Hp Hend. rewrite (lfree_replace _ _ _ _ ((len, false) :: r) (b :: r') (heap_end s) Hl).
  apply seg_app in Hp as (y & z & Hl' & Hr'). destruct (seg_total _ _ _ _ _ _ Hl) as [Ex H0].
  destruct (seg_total _ _ _ _ _ _ Hl') as [Ez _]. assert (z = x) as -> by lia. clear Ez.
  rewrite (ok_lfree _ _ Hs). case_decide as Hf.
  - rewrite first_free_used by done. cbn [first_free]. rewrite <- Ex, Z.eqb_refl. cbn [when].
    assert (lfree s = x) as Ef by (rewrite (ok_lfree _ _ Hs), first_free_used, <- Ex by done; done).
    rewrite (next_free_spec _ (put_hdrs h' (add_used n s)) y (b :: r') p'');
      cbn [put_hdrs add_used lfree hdrs heap_end];
      rewrite ?Ef; try done; [|lia]. rewrite Hend. apply Hs.
  - pose proof (first_free_lt l ((len, false) :: r) 0 (heap_end s) _ _ _ _ Hl Hf).
    replace (x =? _) with false by lia. cbn [when ret].
    rewrite <- (ok_lfree _ _ Hs). by destruct s.
Qed.

Lemma take_block_spec s l len r size :
  heap_ok s (l ++ (len, false) :: r) -> 12 <= size <= len - 12 -> (4 | size) ->
  exists s', take_block (total l) size s = Some (heap_ptr s + total l + 12, s') /\
    heap_ok s' (l ++ place size len r) /\ same_heap s s' /\ peak s s'.
Proof.
  intros Hs Hsize Ha. destruct (heap_ok_block _ _ _ _ _ Hs) as (q & p & Hl & Hx & Hr & Hlen & Hla & H0 & Hxa & He).
  set (x := total l) in *.
  destruct (place_seg _ _ _ _ _ _ _ _ _ Hl Hx Hr Hsize Ha Hla) as [[p'' Hp] Hend].
  unfold take_block. do 3 (unfold bind at 1, gets at 1).
  rewrite (bind_eq _ _ _ _ _ (hdr_at_eq _ _ _ Hx)). cbn [next].
  erewrite bind_eq; [|apply (take_hdrs_eq s x q len size r p (heap_end s)); try done;
    [apply Hs|lia]].
  set (h' := place_hdrs _ _ _ _ _ _) in *.
  destruct (place_head size len r) as (n & r' & Ep). rewrite Ep in Hp.
  destruct (seg_lookup _ _ _ _ _ _ _ _ _ Hp) as (q' & Hl' & _ & _ & Hx' & Hr').
  rewrite !Z.add_0_l in *. fold x in Hl', Hx', Hr'. cbn [Z.b2z] in Hx'.
  erewrite bind_eq; [|apply upd_hdr_eq; exact Hx'].
  cbn [put_hdrs add_used hdrs with_magic used next prev]. rewrite insert_id by done.
  fold (add_used (taken size len) s). fold (put_hdrs h' (add_used (taken size len) s)).
  unfold bind at 1, gets at 1.
  erewrite bind_eq; [|apply (update_lfree s h' l len r q x p'' (n, true) r'); done].
  erewrite bind_eq; [|apply assert_true; unfold SIZEOF_STRUCT_MEM; lia].
  destruct (ok_ptr _ _ Hs) as [Hp0 Hpa].
  erewrite bind_eq; [|apply assert_true, Z.eqb_eq, Z.rem_divide; [done|];
    unfold SIZEOF_STRUCT_MEM; repeat apply Z.divide_add_r; try done; by exists 3].
  erewrite bind_eq; [|apply assert_true, Z.eqb_eq, land3_align; by apply Z.divide_add_r].
  eexists. split; [reflexivity|]. split; [|split; [done|]].
  2: { unfold peak. cbn [put_lfree put_hdrs add_used used_mem max_mem]. destruct (_ <? _) eqn:E; lia. }
  rewrite Ep in *. destruct Hs. split; try done.
  - by exists p''.
  - cbn [put_lfree put_hdrs add_used hdrs heap_end]. by rewrite Hend.
  - rewrite <- Ep. apply merged_app. apply merged_app in ok_merged0 as [? ?].
    split; [done|by apply merged_place].
  - rewrite <- Ep. cbn [put_lfree put_hdrs add_used used_mem]. rewrite ok_used0.
    pose proof (used_total_bound _ _ _ _ _ _ Hp) as Hb. rewrite <- Ep in Hb.
    rewrite used_total_place in *. apply u32_small. lia.
Qed.

Lemma alloc_beyond msa size o bs h p p' o' :
  seg h p o bs p' o' -> msa - size <= o -> alloc msa size o bs = None.
Proof.
  revert p o. induction bs as [|[len u] bs IH]; intros p o Hs Ho; cbn [alloc seg] in *; [done|].
  destruct Hs as (Hl & _ & _ & Hs). replace (o <? msa - size) with false by lia.
  rewrite andb_false_r. by rewrite (IH _ _ Hs) by lia.
Qed.

Lemma alloc_used msa size o l r :
  Forall (fun b => snd b = true) l ->
  alloc msa size o (l ++ r) =
    match alloc msa size (o + total l) r with
    | Some (a, r') => Some (a, l ++ r')
    | None => None
    end.
Proof.
  intros Hl. revert o. induction Hl as [|[len u] l Hu Hl IH]; intros o; cbn [app alloc].
  - cbn. rewrite Z.add_0_r. by destruct (alloc _ _ _ _) as [[? ?]|].
  - cbn in Hu. subst u. cbn [fits negb andb]. rewrite IH. cbn [total foldr fst].
    fold (total l). rewrite Z.add_assoc. by destruct (alloc _ _ _ _) as [[? ?]|].
Qed.

Definition malloc_result (s : heap) l (o : option (Z * list block)) (r : option (Z * heap)) : Prop :=
  match o with
  | None => r = Some (0, s)
  | Some (a, r') => exists s', r = Some (heap_ptr s + a + 12, s') /\ heap_ok s' (l ++ r') /\
                      same_heap s s' /\ peak s s'
  end.

Lemma total_app l r : total (l ++ r) = total l + total r.
Proof. unfold total. induction l as [|b l IH]; cbn [app foldr]; lia. Qed.

Lemma malloc_loop_spec fuel s l r size :
  heap_ok s (l ++ r) -> 12 <= size <= mem_size_aligned s -> (4 | size) ->
  mem_size_aligned s - size - total l <= Z.of_nat fuel ->
  malloc_result s l (alloc (mem_size_aligned s) size (total l) r)
    (malloc_loop fuel (total l) size s).
Proof.
  revert l r. induction fuel as [|fuel IH]; intros l r Hs Hsize Ha Hf;
    destruct (ok_seg _ _ Hs) as [p Hp]; apply seg_app in Hp as (q & x & Hl & Hr);
    destruct (seg_total _ _ _ _ _ _ Hl) as [Ex H0]; rewrite Z.add_0_l in Ex; subst x;
    pose proof (ok_range _ _ Hs); pose proof (ok_end _ _ Hs); pose proof (ok_ptr _ _ Hs) as [? _];
    cbn [malloc_loop]; unfold bind at 1, gets at 1; rewrite u32_small by lia;
    destruct (total l <? mem_size_aligned s - size) eqn:E.
  - lia.
  - rewrite (alloc_beyond _ _ _ _ _ _ _ _ Hr) by lia. done.
  - destruct r as [|[len u] r]; [destruct Hr; lia|].
    destruct (heap_ok_block _ _ _ _ _ Hs) as (q' & p' & _ & Hx & _ & Hlen & Hla & _ & _ & He).
    rewrite (bind_eq _ _ _ _ _ (hdr_at_eq _ _ _ Hx)). cbn [used next alloc].
    unfold SIZEOF_STRUCT_MEM. replace (total l + len - (total l + 12)) with (len - 12) by lia.
    rewrite u32_small by lia. rewrite E, andb_true_r. unfold fits.
    replace (negb (truthy (Z.b2z u))) with (negb u) by (by destruct u).
    destruct (negb u && (size <=? len - 12)) eqn:Ef.
    + assert (u = false) as -> by (destruct u; [done|reflexivity]).
      destruct (take_block_spec s l len r size Hs) as (s' & -> & Hs' & Hsame); [cbn in Ef; lia|done|].
      exists s'. done.
    + specialize (IH (l ++ [(len, u)]) r). rewrite total_app, <- app_assoc in IH.
      cbn [total foldr fst app] in IH. rewrite Z.add_0_r in IH.
      specialize (IH Hs Hsize Ha ltac:(lia)). unfold malloc_result in *.
      destruct (alloc _ _ _ r) as [[a r']|]; [|done].
      destruct IH as (s' & -> & Hs' & Hsame). exists s'. rewrite <- app_assoc in Hs'. done.
  - rewrite (alloc_beyond _ _ _ _ _ _ _ _ Hr) by lia. done.
Qed.

Lemma used_prefix bs o e :
  exists l r, bs = l ++ r /\ Forall (fun b => snd b = true) l /\
    (first_free o bs e = o + total l \/ (r = [] /\ first_free o bs e = e)).
Proof.
  revert o. induction bs as [|[len u] bs IH]; intros o.
  - exists [], []. cbn. split_and!; [done|done|by right].
  - destruct u.
    + destruct (IH (o + len)) as (l & r & -> & Hl & Hf). exists ((len, true) :: l), r.
      split_and!; [done|by constructor|]. cbn [first_free total foldr fst]. fold (total l).
      destruct Hf as [->|[-> ->]]; [left; lia|by right].
    + exists [], ((len, false) :: bs). cbn. split_and!; [done|done|left; lia].
Qed.

(** The loop is first fit, except that it does not take a block whose end would be
    the end of the heap; such a block is the last one and fits exactly. *)
Lemma alloc_first_fit msa size o bs h p p' :
  seg h p o bs p' (msa + 12) ->
  alloc msa size o bs =
    match first_fit size o bs with
    | Some (a, bs') => if a + 12 + size =? msa + 12 then None else Some (a, bs')
    | None => None
    end.
Proof.
  revert p o. induction bs as [|[len u] bs IH]; intros p o Hs; cbn [alloc first_fit seg] in *; [done|].
  destruct Hs as (Hl & _ & _ & Hs). destruct (fits size len u) eqn:Ef; cbn [andb].
  - pose proof (seg_le _ _ _ _ _ _ Hs). unfold fits in Ef. destruct u; [done|]. cbn in Ef.
    destruct (o <? msa - size) eqn:E; [by replace (o + 12 + size =? msa + 12) with false by lia|].
    replace (o + 12 + size =? msa + 12) with true by lia.
    destruct bs as [|[k v] bs]; [done|]. destruct Hs as (Hk & _ & _ & Hs). apply seg_le in Hs. lia.
  - rewrite (IH _ _ Hs). destruct (first_fit size (o + len) bs) as [[a r']|]; [|done]. by destruct (_ =? _).
Qed.

(** The aligned size; the addition wraps around for the largest requests. *)
Lemma align_spec n :
  0 <= n < 2 ^ 32 -> let a := RT_ALIGN n RT_ALIGN_SIZE in
  (4 | a) /\ 0 <= a < 2 ^ 32 /\ (n <= 2 ^ 32 - 4 -> n <= a < n + 4).
Proof.
  intros Hn. unfold RT_ALIGN, RT_ALIGN_SIZE. change (u32 (Z.lnot (4 - 1))) with (Z.ldiff (Z.ones 32) (Z.ones 2)).
  set (m := u32 (n + 4 - 1)). pose proof (u32_range (n + 4 - 1)) as Hm. fold m in Hm.
  assert (Z.land m (Z.ldiff (Z.ones 32) (Z.ones 2)) = m / 4 * 4) as ->.
  { rewrite Z.ldiff_land, Z.land_assoc, Z.land_ones by lia. rewrite (Z.mod_small m) by lia.
    rewrite <- Z.ldiff_land, Z.ldiff_ones_r by lia.
    by rewrite Z.shiftl_mul_pow2, Z.shiftr_div_pow2 by lia. }
  split_and!.
  - apply Z.divide_factor_r.
  - divmod.
  - divmod.
  - intros Hs. assert (m = n + 3) as -> by (unfold m; rewrite u32_small; lia). divmod.
Qed.

Definition request (n : Z) : Z := Z.max 12 (RT_ALIGN n RT_ALIGN_SIZE).

Lemma rt_malloc_spec s bs n :
  heap_ok s bs -> 0 < n < 2 ^ 32 ->
  if mem_size_aligned s <? RT_ALIGN n RT_ALIGN_SIZE then rt_malloc n s = Some (0, s)
  else malloc_result s [] (alloc (mem_size_aligned s) (request n) 0 bs) (rt_malloc n s).
Proof.
  intros Hs Hn. destruct (align_spec n) as (Ha & Hr & _); [lia|]. unfold rt_malloc.
  replace (n =? 0) with false by lia. cbv zeta. unfold bind at 1, gets at 1.
  destruct (_ <? RT_ALIGN n RT_ALIGN_SIZE) eqn:E; [done|].
  assert ((if RT_ALIGN n RT_ALIGN_SIZE <? MIN_SIZE_ALIGNED then MIN_SIZE_ALIGNED
           else RT_ALIGN n RT_ALIGN_SIZE) = request n) as ->.
  { unfold request, MIN_SIZE_ALIGNED. destruct (_ <? 12) eqn:E'; lia. }
  assert (12 <= request n <= mem_size_aligned s /\ (4 | request n)) as [Hq Hqa].
  { destruct (ok_size _ _ Hs). unfold request. split; [lia|].
    destruct (Z.max_spec 12 (RT_ALIGN n RT_ALIGN_SIZE)) as [[_ ->]|[_ ->]]; [done|by exists 3]. }
  destruct (used_prefix bs 0 (heap_end s)) as (l & r & -> & Hl & Hf). rewrite <- (ok_lfree _ _ Hs) in Hf.
  rewrite alloc_used, Z.add_0_l by done.
  assert (lfree s = total l) as Elf.
  { destruct Hf as [->|[-> ->]]; [lia|]. destruct (ok_seg _ _ Hs) as [p Hp].
    rewrite app_nil_r in Hp. destruct (seg_total _ _ _ _ _ _ Hp). lia. }
  assert (0 <= total l) as H0.
  { destruct (ok_seg _ _ Hs) as [p Hp]. apply seg_app in Hp as (? & ? & Hl' & _).
    by destruct (seg_total _ _ _ _ _ _ Hl'). }
  unfold bind, gets. rewrite E. cbv beta. rewrite Elf. pose proof (malloc_loop_spec (Z.to_nat (mem_size_aligned s)) s l r (request n) Hs Hq Hqa ltac:(lia)) as H.
  unfold malloc_result in *. by destruct (alloc _ _ _ r) as [[a r']|].
Qed.

