(* ===== verification/HeapFree.v ===== *)
(** * Releasing and resizing blocks

    [plug_holes], [rt_free] and [rt_realloc] of Heap.v on the list of blocks of
    HeapSpec.v. *)

From Stdlib Require Import ZArith Lia.
From stdpp Require Import prelude gmap.
From S2P Require Import Prelude Heap HeapSpec.
Open Scope Z_scope.
Open Scope c_scope.

Implicit Types bs l r : list block.

(** ** A free block among its neighbours *)

Definition sentinel (e : Z) (h : gmap Z heap_mem) : Prop :=
  exists q, h !! e = Some (mk_mem HEAP_MAGIC 1 e q).

(** A free block at [x], between the blocks [l] and [r]. *)
Record at_block (h : gmap Z heap_mem) (e : Z) l (q x len : Z) r : Prop := mk_at {
  at_left : seg h 0 0 l q x;
  at_len : 16 <= len /\ (4 | len);
  at_hdr : h !! x = Some (mk_mem HEAP_MAGIC 0 (x + len) q);
  at_right : exists p, seg h x (x + len) r p e;
  at_end : sentinel e h
}.

Lemma seg_ext h h' p o bs p' o' :
  seg h p o bs p' o' -> (forall i, o <= i < o' -> h' !! i = h !! i) -> seg h' p o bs p' o'.
Proof.
  revert p o. induction bs as [|[len u] bs IH]; intros p o; cbn [seg]; [done|].
  intros (Hl & Ha & Hh & Hs) Hi. pose proof (seg_le _ _ _ _ _ _ Hs).
  split_and!; [done|done|rewrite Hi by lia; done|]. apply IH; [done|]. intros i Hb. apply Hi. lia.
Qed.

Lemma upd_hdr_alter o f s :
  is_Some (s.(hdrs) !! o) -> upd_hdr o f s = Some (tt, put_hdrs (alter f o s.(hdrs)) s).
Proof.
  intros [m Hm]. rewrite (upd_hdr_eq _ _ _ _ Hm). do 3 f_equal. apply map_eq. intros i.
  destruct (decide (i = o)) as [->|Hi].
  - by rewrite lookup_alter_eq, lookup_insert_eq, Hm.
  - by rewrite lookup_alter_ne, lookup_insert_ne.
Qed.

(** The header at [o], a block or the sentinel, points back to [n]. *)
Lemma seg_back h p o r p' e n :
  seg h p o r p' e -> sentinel e h ->
  is_Some (h !! o) /\ sentinel e (alter (with_prev n) o h) /\
  exists p'', seg (alter (with_prev n) o h) n o r p'' e.
Proof.
  intros Hs [q Hq]. destruct r as [|[len u] r]; cbn [seg] in Hs.
  - destruct Hs as [-> ->]. split_and!; [by eexists| |by exists n].
    exists n. by rewrite lookup_alter_eq, Hq.
  - destruct Hs as (Hl & Ha & Hh & Hs). pose proof (seg_le _ _ _ _ _ _ Hs).
    split_and!; [by eexists| |].
    + exists q. by rewrite lookup_alter_ne by lia.
    + exists p'. cbn [seg]. split_and!; [done|done|by rewrite lookup_alter_eq, Hh|].
      eapply seg_ext; [done|]. intros i Hi. by rewrite lookup_alter_ne by lia.
Qed.

(** A block at [x] takes in what follows it up to [y]. *)
Lemma at_block_extend h e l q x u y z m r p :
  seg h 0 0 l q x -> h !! x = Some (mk_mem HEAP_MAGIC 0 z q) -> x < y -> 16 <= y - x -> (4 | y - x) ->
  seg h u y r p e -> sentinel e h -> m = y - x ->
  let h' := alter (with_prev x) y (alter (with_next y) x h) in
  is_Some (alter (with_next y) x h !! y) /\ at_block h' e l q x m r.
Proof.
  intros Hl Hx Hlt Hlen Ha Hr Hsen -> h'. pose proof (seg_le _ _ _ _ _ _ Hr).
  set (h1 := alter (with_next y) x h) in *.
  assert (seg h1 u y r p e) as Hr1.
  { eapply seg_ext; [exact Hr|]. intros i Hi. unfold h1. by rewrite lookup_alter_ne by lia. }
  assert (sentinel e h1) as Hs1.
  { destruct Hsen as [w Hw]. exists w. unfold h1. by rewrite lookup_alter_ne by lia. }
  destruct (seg_back _ _ _ _ _ _ x Hr1 Hs1) as (Hsome & Hs2 & p2 & Hr2).
  assert (x + (y - x) = y) as Ey by lia.
  split; [done|]. split; unfold h'; rewrite ?Ey; try done.
  - eapply seg_ext; [exact Hl|]. intros i Hi. unfold h1. by rewrite !lookup_alter_ne by lia.
  - rewrite lookup_alter_ne by lia. unfold h1. by rewrite lookup_alter_eq, Hx.
  - by exists p2.
Qed.

(** ** [plug_holes] *)

Definition plug_next (mem nmem e : Z) : H unit :=
  if negb (mem =? nmem) then
    n <- hdr_at nmem ;;
    if (n.(used) =? 0) && negb (nmem =? e) then
      lf <- gets lfree ;;
      when (lf =? nmem) (set_lfree mem) ;;;
      upd_hdr mem (with_next n.(next)) ;;;
      upd_hdr n.(next) (with_prev mem)
    else ret tt
  else ret tt.

Definition plug_prev (mem : Z) : H unit :=
  m <- hdr_at mem ;;
  let pmem := m.(prev) in
  if negb (pmem =? mem) then
    p <- hdr_at pmem ;;
    if p.(used) =? 0 then
      lf <- gets lfree ;;
      when (lf =? mem) (set_lfree pmem) ;;;
      upd_hdr pmem (with_next m.(next)) ;;;
      upd_hdr m.(next) (with_prev pmem)
    else ret tt
  else ret tt.

Lemma plug_holes_parts mem :
  plug_holes mem =
    (e <- gets heap_end ;;
     m <- hdr_at mem ;;
     RT_ASSERT ((0 <=? mem) && (mem <? e) && (m.(used) =? 0)) ;;;
     plug_next mem m.(next) e ;;; plug_prev mem).
Proof. reflexivity. Qed.

(** Two headers are rewritten and the lowest free block stays. *)
Lemma merge_run s a y :
  is_Some (s.(hdrs) !! a) -> is_Some (alter (with_next y) a s.(hdrs) !! y) ->
  (upd_hdr a (with_next y) ;;; upd_hdr y (with_prev a)) s =
    Some (tt, put_hdrs (alter (with_prev a) y (alter (with_next y) a s.(hdrs))) s).
Proof.
  intros Ha Hy. erewrite bind_eq; [|apply upd_hdr_alter, Ha]. by rewrite upd_hdr_alter.
Qed.

Lemma plug_next_spec s l q x len r :
  let e := s.(heap_end) in
  at_block s.(hdrs) e l q x len r -> s.(lfree) <= x ->
  exists h' len' r', plug_next x (x + len) e s = Some (tt, put_hdrs h' s) /\
    join_next len r = (len', false) :: r' /\ at_block h' e l q x len' r'.
Proof.
  intros e Hat Hlf. pose proof Hat as [Hl [Hlen Ha] Hx [p Hr] Hsen].
  pose proof (seg_le _ _ _ _ _ _ Hl). unfold plug_next. replace (x =? x + len) with false by lia.
  cbn [negb]. destruct r as [|[n u] r].
  - destruct Hr as [-> Ee]. destruct Hsen as [z Hz]. rewrite <- Ee in Hz.
    rewrite (bind_eq _ _ _ _ _ (hdr_at_eq _ _ _ Hz)). cbn.
    exists s.(hdrs), len, []. split_and!; try done. by destruct s.
  - cbn [seg] in Hr. destruct Hr as (Hn & Hna & Hh & Hr). pose proof (seg_le _ _ _ _ _ _ Hr).
    rewrite (bind_eq _ _ _ _ _ (hdr_at_eq _ _ _ Hh)). cbn [used next].
    replace (x + len =? e) with false by lia. destruct u; cbn [Z.b2z].
    + exists s.(hdrs), len, ((n, true) :: r). split_and!; try done. by destruct s.
    + change ((0 =? 0) && negb false) with true. cbv iota. unfold bind at 1, gets at 1.
      replace (lfree s =? x + len) with false by lia.
      destruct (at_block_extend (hdrs s) e l q x (x + len) (x + len + n) (x + len) (len + n) r p)
        as [Hy Hat2]; try done; try lia.
      { replace (x + len + n - x) with (len + n) by lia. by apply Z.divide_add_r. }
      rewrite (bind_eq _ _ s tt s) by done.
      rewrite merge_run; [|by rewrite Hx|done]. eexists _, _, _. split_and!; done.
Qed.

Lemma join_prev_snoc l m u len r :
  join_prev (l ++ [(m, u)]) ((len, false) :: r) =
    if u then l ++ (m, u) :: (len, false) :: r else l ++ (m + len, false) :: r.
Proof.
  induction l as [|b l IH]; cbn [app join_prev]; [by destruct u|].
  destruct (l ++ [(m, u)]) eqn:E; [by destruct l|]. rewrite IH.
  destruct b as [k []]; by destruct u.
Qed.

Lemma at_block_seg h e l q x len r :
  at_block h e l q x len r -> exists p, seg h 0 0 (l ++ (len, false) :: r) p e.
Proof.
  intros [Hl [Hlen Ha] Hx [p Hr] _]. exists p. apply seg_app. exists q, x. split; [done|].
  cbn [seg Z.b2z]. done.
Qed.

Lemma last_free_snoc f l m u : last_free f (l ++ [(m, u)]) = negb u.
Proof. revert f. induction l as [|[? ?] l IH]; intros f; cbn [app last_free]; [done|]. apply IH. Qed.

Lemma plug_prev_spec s l q x len r :
  let e := s.(heap_end) in
  at_block s.(hdrs) e l q x len r -> (last_free false l = true -> s.(lfree) < x) ->
  exists h' p, plug_prev x s = Some (tt, put_hdrs h' s) /\
    seg h' 0 0 (join_prev l ((len, false) :: r)) p e /\ sentinel e h'.
Proof.
  intros e Hat Hlf. pose proof Hat as [Hl [Hlen Ha] Hx [p Hr] Hsen].
  pose proof (seg_le _ _ _ _ _ _ Hl). unfold plug_prev.
  rewrite (bind_eq _ _ _ _ _ (hdr_at_eq _ _ _ Hx)). cbn [prev next].
  destruct l as [|b l _] using rev_ind.
  - destruct Hl as [<- <-]. cbn. destruct (at_block_seg _ _ _ _ _ _ _ Hat) as [p' Hp].
    exists s.(hdrs), p'. split; [by destruct s|done].
  - destruct b as [m u]. rewrite join_prev_snoc. apply seg_app in Hl as (y & q' & Hl & Hm).
    destruct Hm as (Hm & Hma & Hq & <- & <-). pose proof (seg_le _ _ _ _ _ _ Hl).
    replace (q' =? q' + m) with false by lia. cbn [negb].
    rewrite (bind_eq _ _ _ _ _ (hdr_at_eq _ _ _ Hq)). cbn [used]. destruct u; cbn [Z.b2z].
    + destruct (at_block_seg _ _ _ _ _ _ _ Hat) as [p' Hp]. rewrite <- app_assoc in Hp.
      exists s.(hdrs), p'. split_and!; try done. by destruct s.
    + change (0 =? 0) with true. cbv iota. unfold bind at 1, gets at 1.
      assert (last_free false (l ++ [(m, false)]) = true) as Hlast.
      { apply last_free_snoc. }
      specialize (Hlf Hlast). replace (lfree s =? q' + m) with false by lia.
      destruct (at_block_extend (hdrs s) e l y q' (q' + m) (q' + m + len) (q' + m) (m + len) r p)
        as [Hy Hat2]; try done; try lia.
      { replace (q' + m + len - q') with (m + len) by lia. by apply Z.divide_add_r. }
      rewrite (bind_eq _ _ s tt s) by done.
      rewrite merge_run; [|by rewrite Hq|done]. destruct (at_block_seg _ _ _ _ _ _ _ Hat2) as [p' Hp].
      eexists _, p'. split_and!; try done. apply Hat2.
Qed.

Lemma plug_holes_spec s l q x len r :
  let e := s.(heap_end) in
  at_block s.(hdrs) e l q x len r -> s.(lfree) <= x ->
  (last_free false l = true -> s.(lfree) < x) ->
  exists h' p, plug_holes x s = Some (tt, put_hdrs h' s) /\
    seg h' 0 0 (release l len r) p e /\ sentinel e h'.
Proof.
  intros e Hat Hle Hlt. pose proof (at_hdr _ _ _ _ _ _ _ Hat) as Hx.
  pose proof (seg_le _ _ _ _ _ _ (at_left _ _ _ _ _ _ _ Hat)).
  destruct (at_right _ _ _ _ _ _ _ Hat) as [p0 Hr]. pose proof (seg_le _ _ _ _ _ _ Hr).
  destruct (at_len _ _ _ _ _ _ _ Hat).
  rewrite plug_holes_parts. unfold bind at 1, gets at 1.
  rewrite (bind_eq _ _ _ _ _ (hdr_at_eq _ _ _ Hx)). cbn [used next].
  fold e. erewrite bind_eq; [|apply assert_true; lia].
  destruct (plug_next_spec s l q x len r Hat Hle) as (h1 & len' & r' & Erun & Ej & Hat1).
  rewrite (bind_eq _ _ _ _ _ Erun).
  destruct (plug_prev_spec (put_hdrs h1 s) l q x len' r' Hat1 Hlt) as (h2 & p & Erun2 & Hp & Hs).
  exists h2, p. unfold release. rewrite Ej. done.
Qed.

(** ** The list after a release *)

Lemma join_next_cons len r : exists n r', join_next len r = (n, false) :: r'.
Proof. destruct r as [|[n []] r]; cbn; eauto. Qed.

Lemma release_cases l len r :
  exists n r', join_next len r = (n, false) :: r' /\
    (last_free false l = false /\ release l len r = l ++ (n, false) :: r' \/
     exists l' m, l = l' ++ [(m, false)] /\ release l len r = l' ++ (m + n, false) :: r').
Proof.
  destruct (join_next_cons len r) as (n & r' & E). exists n, r'. split; [done|].
  unfold release. rewrite E. destruct l as [|[m u] l _] using rev_ind; [by left|].
  rewrite join_prev_snoc, last_free_snoc. destruct u.
  - left. by rewrite <- app_assoc.
  - right. by exists l, m.
Qed.

Lemma join_next_merged len r n r' :
  join_next len r = (n, false) :: r' -> merged false r -> merged true r'.
Proof.
  destruct r as [|[k []] r]; cbn [join_next merged negb]; intros [= <- <-]; [done|naive_solver|naive_solver].
Qed.

Lemma release_merged l len r : merged false l -> merged false r -> merged false (release l len r).
Proof.
  intros Hl Hr. destruct (release_cases l len r) as (n & r' & E & [[Hf ->]|(l' & m & -> & ->)]);
    apply merged_app; cbn [merged negb].
  - rewrite Hf. split_and!; [done|done|]. by eapply join_next_merged.
  - apply merged_app in Hl as [? [? _]]. split_and!; [done|done|]. by eapply join_next_merged.
Qed.

Lemma release_first_free l len r o e :
  first_free o (release l len r) e = first_free o (l ++ (len, false) :: r) e.
Proof.
  destruct (release_cases l len r) as (n & r' & E & [[Hf ->]|(l' & m & -> & ->)]).
  - revert o. clear. induction l as [|[k []] l IH]; intros o; cbn [app first_free]; done.
  - rewrite <- app_assoc. revert o. clear. induction l' as [|[k []] l IH]; intros o; cbn [app first_free]; done.
Qed.

Lemma release_used_total l len r : used_total (release l len r) = used_total (l ++ (len, false) :: r).
Proof.
  assert (forall n r', join_next len r = (n, false) :: r' -> used_total r' = used_total r) as Hj.
  { intros n r'. destruct r as [|[k []] r]; cbn [join_next]; intros [= <- <-]; done. }
  destruct (release_cases l len r) as (n & r' & E & [[Hf ->]|(l' & m & -> & ->)]);
    rewrite ?used_total_app; cbn [used_total foldr fst snd]; fold (used_total r'); fold (used_total r);
    rewrite (Hj _ _ E); lia.
Qed.

(** What is kept of the layout: every used block but the one released. *)
Fixpoint used_blocks (o : Z) bs : list (Z * Z) :=
  match bs with
  | [] => []
  | (len, u) :: bs => if u : bool then (o, len) :: used_blocks (o + len) bs else used_blocks (o + len) bs
  end.

Lemma used_blocks_app o l r : used_blocks o (l ++ r) = used_blocks o l ++ used_blocks (o + total l) r.
Proof.
  revert o. induction l as [|[len u] l IH]; intros o; cbn [app used_blocks].
  - cbn. by rewrite Z.add_0_r.
  - rewrite IH. cbn [total foldr fst]. fold (total l). rewrite Z.add_assoc. by destruct u.
Qed.

Lemma release_used_blocks o l len r :
  used_blocks o (release l len r) = used_blocks o l ++ used_blocks (o + total l + len) r.
Proof.
  assert (forall n r' x, join_next len r = (n, false) :: r' ->
    used_blocks (x + n) r' = used_blocks (x + len) r) as Hj.
  { intros n r' x. destruct r as [|[k []] r]; cbn [join_next]; intros [= <- <-]; [done..|].
    cbn [used_blocks]. by rewrite Z.add_assoc. }
  destruct (release_cases l len r) as (n & r' & E & [[Hf ->]|(l' & m & -> & ->)]);
    rewrite ?used_blocks_app; cbn [used_blocks].
  - by rewrite (Hj _ _ _ E).
  - rewrite app_nil_r, total_app. cbn [total foldr fst].
    rewrite Z.add_assoc, (Hj _ _ _ E). do 2 f_equal. lia.
Qed.

(** ** [rt_free] *)

Lemma same_heap_refl s : same_heap s s.
Proof. done. Qed.
Lemma same_heap_trans s1 s2 s3 : same_heap s1 s2 -> same_heap s2 s3 -> same_heap s1 s3.
Proof. unfold same_heap. intuition congruence. Qed.

(** [plug_holes] completes the release of the block at [x]. *)
Lemma plug_heap_ok s s1 bs l q x len r :
  heap_ok s bs -> same_heap s s1 -> merged false l -> merged false r ->
  at_block s1.(hdrs) s1.(heap_end) l q x len r ->
  s1.(lfree) = first_free 0 (l ++ (len, false) :: r) s1.(heap_end) ->
  s1.(used_mem) = used_total (l ++ (len, false) :: r) ->
  exists s', plug_holes x s1 = Some (tt, s') /\ heap_ok s' (release l len r) /\ same_heap s s'.
Proof.
  intros Hs Hsame Hml Hmr Hat Hlf Hu. pose proof (at_left _ _ _ _ _ _ _ Hat) as Hl.
  destruct (seg_total _ _ _ _ _ _ Hl) as [Ex _].
  pose proof (lfree_replace _ _ _ _ [] ((len, false) :: r) (heap_end s1) Hl) as Hrep.
  assert (s1.(lfree) <= x /\ (last_free false l = true -> s1.(lfree) < x)) as [Hle Hlt].
  { rewrite Hlf. case_decide as Hf.
    - rewrite Hrep. cbn [first_free]. split; [lia|]. intros Hlast. exfalso. revert Hf Hlast. clear.
      destruct l as [|[m u] l _] using rev_ind; [done|]. rewrite last_free_snoc, Forall_app, Forall_singleton.
      cbn. intros [_ ->]. done.
    - pose proof (first_free_lt l ((len, false) :: r) 0 (heap_end s1) _ _ _ _ Hl Hf). lia. }
  destruct (plug_holes_spec s1 l q x len r Hat Hle Hlt) as (h' & p & -> & Hp & [z Hz]).
  exists (put_hdrs h' s1). split; [done|]. destruct Hsame as (E1 & E2 & E3 & E4). split; [|done].
  destruct Hs. split; cbn [put_hdrs heap_ptr heap_end mem_size_aligned hdrs lfree used_mem].
  - by rewrite E1.
  - by rewrite E3.
  - by rewrite E2, E3.
  - by rewrite E1, E2.
  - by exists p.
  - by exists z.
  - by apply release_merged.
  - by rewrite release_first_free.
  - by rewrite release_used_total.
Qed.

Lemma merged_sides l len u r :
  merged false (l ++ (len, u) :: r) -> merged false l /\ merged (negb u) r.
Proof. rewrite merged_app. cbn [merged]. naive_solver. Qed.

Lemma first_free_range h p o bs p' e : seg h p o bs p' e -> o <= first_free o bs e <= e.
Proof.
  revert p o. induction bs as [|[len u] bs IH]; intros p o; cbn [seg first_free].
  - intros [_ ->]. lia.
  - intros (Hl & _ & _ & Hs). pose proof (seg_le _ _ _ _ _ _ Hs). specialize (IH _ _ Hs).
    destruct u; lia.
Qed.

(** The block at [x] becomes free: the test of [rt_free] and [rt_realloc]
    keeps the lowest free block. *)
Lemma first_free_released h l q x len r p e :
  seg h 0 0 l q x -> seg h x (x + len) r p e -> 0 < len ->
  first_free 0 (l ++ (len, false) :: r) e =
    if x <? first_free 0 (l ++ (len, true) :: r) e then x
    else first_free 0 (l ++ (len, true) :: r) e.
Proof.
  intros Hl Hr Hlen. rewrite (lfree_replace _ _ _ _ ((len, true) :: r) _ e Hl). case_decide as Hf.
  - rewrite (lfree_replace _ _ _ _ [] _ e Hl). rewrite decide_True by done. cbn [first_free].
    pose proof (first_free_range _ _ _ _ _ _ Hr). by replace (x <? _) with true by lia.
  - pose proof (first_free_lt l ((len, true) :: r) 0 e _ _ _ _ Hl Hf). by replace (x <? _) with false by lia.
Qed.

Lemma rt_free_spec s l len r :
  heap_ok s (l ++ (len, true) :: r) ->
  exists s', rt_free (heap_ptr s + total l + 12) s = Some (tt, s') /\
    heap_ok s' (release l len r) /\ same_heap s s'.
Proof.
  intros Hs. destruct (heap_ok_block _ _ _ _ _ Hs) as (q & p & Hl & Hx & Hr & Hlen & Hla & H0 & Hxa & He).
  destruct (ok_ptr _ _ Hs) as [Hp0 Hpa]. set (x := total l) in *. unfold rt_free, SIZEOF_STRUCT_MEM.
  replace (heap_ptr s + x + 12 =? 0) with false by lia. do 2 (unfold bind at 1, gets at 1).
  erewrite bind_eq; [|apply assert_true, Z.eqb_eq, land3_align; repeat apply Z.divide_add_r; try done; by exists 3].
  erewrite bind_eq; [|apply assert_true; pose proof (seg_le _ _ _ _ _ _ Hr); lia].
  replace (heap_ptr s + x + 12 - 12 - heap_ptr s) with x by lia. cbv zeta.
  rewrite (bind_eq _ _ _ _ _ (hdr_at_eq _ _ _ Hx)). cbn [used magic Z.b2z next].
  do 2 (erewrite bind_eq; [|by apply assert_true]).
  rewrite (bind_eq _ _ _ _ _ (upd_hdr_eq _ _ _ _ Hx)). cbn [with_magic with_used next prev used].
  set (h1 := <[x := _]> (hdrs s)). unfold bind at 1, gets at 1. cbn [put_hdrs lfree].
  set (lf := first_free 0 (l ++ (len, false) :: r) (heap_end s)).
  assert (when (x <? lfree s) (set_lfree x) (put_hdrs h1 s) =
            Some (tt, put_lfree lf (put_hdrs h1 s))) as Erun.
  { unfold lf. rewrite (first_free_released _ _ _ _ _ _ _ _ Hl Hr) by lia.
    rewrite <- (ok_lfree _ _ Hs). destruct (x <? lfree s); [done|]. by destruct s. }
  rewrite (bind_eq _ _ _ _ _ Erun). replace (x + len - x) with len by lia. rewrite u32_small by lia.
  rewrite (bind_eq (modify _) _ _ tt (sub_used len (put_lfree lf (put_hdrs h1 s)))) by done.
  destruct (merged_sides _ _ _ _ (ok_merged _ _ Hs)) as [Hml Hmr].
  assert (seg h1 0 0 l q x /\ seg h1 x (x + len) r p (heap_end s)) as [Hl1 Hr1]
    by (unfold h1; split; apply seg_frame; try done; lia).
  apply (plug_heap_ok s _ (l ++ (len, true) :: r) l q); try done.
  - split; cbn [sub_used put_lfree put_hdrs hdrs heap_end]; try done.
    + unfold h1. by rewrite lookup_insert_eq.
    + by exists p.
    + destruct (ok_sentinel _ _ Hs) as [z Hz]. exists z. unfold h1. by rewrite lookup_insert_ne by lia.
  - cbn [sub_used put_lfree put_hdrs used_mem]. rewrite (ok_used _ _ Hs).
    destruct (ok_seg _ _ Hs) as [? Hsg]. pose proof (used_total_bound _ _ _ _ _ _ Hsg) as Hb.
    pose proof (used_total_bound _ _ _ _ _ _ Hl). pose proof (used_total_bound _ _ _ _ _ _ Hr).
    rewrite !used_total_app in *. cbn [used_total foldr fst snd] in *. fold (used_total r) in *.
    rewrite u32_small; lia.
Qed.

(** ** [rt_realloc] *)

(** The two ways to change the size of a block. *)
Definition shrink_block (ptr nxt size newsize : Z) : H unit :=
  msa <- gets mem_size_aligned ;;
  modify (sub_used (size - newsize)) ;;;
  let ptr2 := ptr + SIZEOF_STRUCT_MEM + newsize in
  set_hdr ptr2 (mk_mem HEAP_MAGIC 0 nxt ptr) ;;;
  upd_hdr ptr (with_next ptr2) ;;;
  when (negb (nxt =? msa + SIZEOF_STRUCT_MEM)) (upd_hdr nxt (with_prev ptr2)) ;;;
  lf <- gets lfree ;;
  when (ptr2 <? lf) (set_lfree ptr2) ;;;
  plug_holes ptr2.

Definition move_block (rmem size newsize : Z) : H Z :=
  nmem <- rt_malloc newsize ;;
  when (negb (nmem =? 0))
    (modify (fun s => put_bytes (copy_bytes nmem rmem (Z.min size newsize) s.(bytes)) s) ;;;
     rt_free rmem) ;;;
  ret nmem.

Lemma bind_assoc {A B C} (m : H A) (f : A -> H B) (g : B -> H C) s :
  bind (bind m f) g s = bind m (fun a => bind (f a) g) s.
Proof. unfold bind. by destruct (m s) as [[? ?]|]. Qed.

Lemma rt_realloc_eq s l len r n :
  let size := RT_ALIGN n RT_ALIGN_SIZE in
  let p := heap_ptr s + total l + 12 in
  heap_ok s (l ++ (len, true) :: r) -> 0 < size <= mem_size_aligned s ->
  rt_realloc p n s =
    if len - 12 =? size then Some (p, s)
    else if size + 24 <? len - 12 then
      (shrink_block (total l) (total l + len) (len - 12) size ;;; ret p) s
    else move_block p (len - 12) size s.
Proof.
  intros size p Hs Hsz.
  destruct (heap_ok_block _ _ _ _ _ Hs) as (q & p' & Hl & Hx & Hr & Hlen & Hla & H0 & Hxa & He).
  destruct (ok_ptr _ _ Hs) as [Hp0 Hpa]. unfold rt_realloc, SIZEOF_STRUCT_MEM, MIN_SIZE. fold size. cbv zeta.
  unfold bind at 1, gets at 1. replace (mem_size_aligned s <? size) with false by lia.
  replace (size =? 0) with false by lia. replace (p =? 0) with false by lia.
  do 2 (unfold bind at 1, gets at 1).
  replace ((p <? heap_ptr s) || (heap_ptr s + heap_end s <=? p)) with false by lia.
  replace (p - 12 - heap_ptr s) with (total l) by lia.
  rewrite (bind_eq _ _ _ _ _ (hdr_at_eq _ _ _ Hx)). cbn [next].
  replace (total l + len - total l - 12) with (len - 12) by lia. rewrite u32_small by lia.
  destruct (len - 12 =? size); [done|]. replace (size + 12 + 12) with (size + 24) by lia.
  destruct (size + 24 <? len - 12); [|done].
  unfold shrink_block, SIZEOF_STRUCT_MEM, bind, gets. cbv beta zeta. cbn [next].
  repeat (case_match; simplify_eq; try done).
Qed.

(** The headers are split, and the second half is released. *)
Lemma shrink_hdrs s l len r q p size :
  let x := total l in
  seg s.(hdrs) 0 0 l q x -> s.(hdrs) !! x = Some (mk_mem HEAP_MAGIC 1 (x + len) q) ->
  seg s.(hdrs) x (x + len) r p s.(heap_end) -> 4 <= size -> 28 + size <= len -> (4 | size) -> (4 | len) ->
  sentinel s.(heap_end) s.(hdrs) ->
  let h := split_hdrs s.(heap_end) x q len size 1 s.(hdrs) in
  exists q2, at_block h s.(heap_end) (l ++ [(size + 12, true)]) q2 (x + 12 + size) (len - size - 12) r.
Proof.
  intros x Hl Hx Hr Hs1 Hs2 Ha Hla [z Hz] h.
  destruct (split_seg _ l len 1 r q x p _ size true Hl Hx Hr) as [[p2 Hp2] Hsen]; try done.
  cbn [Z.b2z] in Hp2, Hsen. fold h in Hp2, Hsen.
  replace (l ++ (size + 12, true) :: (len - size - 12, false) :: r)
    with ((l ++ [(size + 12, true)]) ++ (len - size - 12, false) :: r) in Hp2 by (by rewrite <- app_assoc).
  destruct (seg_lookup _ _ _ _ _ _ _ _ _ Hp2) as (q2 & Hl2 & Hlen2 & Ha2 & Hx2 & Hr2).
  rewrite Z.add_0_l, total_app in *. cbn [total foldr fst] in *. fold (total l) in Hl2, Hx2, Hr2. fold x in Hl2, Hx2, Hr2.
  replace (x + (size + 12 + 0)) with (x + 12 + size) in * by lia.
  exists q2. split; try done; [by exists p2|]. exists z. by rewrite Hsen.
Qed.

(** The lowest free block, when the block at [x] is split. *)
Lemma first_free_split h l q x len r p e size :
  seg h 0 0 l q x -> seg h x (x + len) r p e -> 0 < size -> 12 + size < len ->
  let lf := first_free 0 (l ++ (len, true) :: r) e in
  first_free 0 ((l ++ [(size + 12, true)]) ++ (len - size - 12, false) :: r) e =
    if x + 12 + size <? lf then x + 12 + size else lf.
Proof.
  intros Hl Hr Hs Hlt lf. unfold lf. rewrite <- app_assoc. cbn [app].
  rewrite (lfree_replace _ _ _ _ ((len, true) :: r) _ e Hl). case_decide as Hf.
  - rewrite (lfree_replace _ _ _ _ [] _ e Hl). rewrite decide_True by done. cbn [first_free].
    pose proof (first_free_range _ _ _ _ _ _ Hr). replace (_ <? _) with true by lia. lia.
  - pose proof (first_free_lt l ((len, true) :: r) 0 e _ _ _ _ Hl Hf). by replace (_ <? _) with false by lia.
Qed.

Lemma shrink_block_spec s l len r size :
  heap_ok s (l ++ (len, true) :: r) -> 4 <= size -> (4 | size) -> size + 24 < len - 12 ->
  exists s', shrink_block (total l) (total l + len) (len - 12) size s = Some (tt, s') /\
    heap_ok s' (release (l ++ [(size + 12, true)]) (len - size - 12) r) /\ same_heap s s'.
Proof.
  intros Hs Hsz Ha Hlt.
  destruct (heap_ok_block _ _ _ _ _ Hs) as (q & p & Hl & Hx & Hr & Hlen & Hla & H0 & Hxa & He).
  pose proof (ok_end _ _ Hs) as Hend. set (x := total l) in *.
  unfold shrink_block, SIZEOF_STRUCT_MEM. cbv zeta. unfold bind at 1, gets at 1.
  set (s1 := sub_used (len - 12 - size) s). rewrite (bind_eq (modify _) _ _ tt s1) by done.
  set (h1 := <[x + 12 + size := mk_mem HEAP_MAGIC 0 (x + len) x]> (hdrs s)).
  rewrite (bind_eq (set_hdr _ _) _ _ tt (put_hdrs h1 s1)) by done.
  assert (h1 !! x = Some (mk_mem HEAP_MAGIC 1 (x + len) q)) as Hx1
    by (unfold h1; rewrite lookup_insert_ne by lia; exact Hx).
  erewrite bind_eq; [|apply upd_hdr_eq; exact Hx1]. cbn [with_next magic used prev].
  change (hdrs (put_hdrs h1 s1)) with h1. set (h2 := <[x := _]> h1). rewrite <- Hend.
  erewrite bind_eq; [|apply relink_upd; intros Hne; unfold h2, h1; cbn [put_hdrs hdrs];
    rewrite !lookup_insert_ne by lia; by eapply seg_head_some].
  destruct (shrink_hdrs s l len r q p size) as [q2 Hat]; try done; try lia; [by apply ok_sentinel in Hs|].
  cbn [put_hdrs hdrs]. set (h3 := split_hdrs _ _ _ _ _ _ _) in Hat.
  set (s2 := put_hdrs _ _). change s2 with (put_hdrs h3 s1). unfold bind at 1, gets at 1.
  set (lf := first_free 0 ((l ++ [(size + 12, true)]) ++ (len - size - 12, false) :: r) (heap_end s)).
  rewrite (bind_eq _ _ _ tt (put_lfree lf (put_hdrs h3 s1))).
  - apply (plug_heap_ok s _ (l ++ (len, true) :: r) _ q2); try done; [..|].
    + destruct (merged_sides _ _ _ _ (ok_merged _ _ Hs)) as [Hml _]. apply merged_app. split; [done|]. cbn. done.
    + by destruct (merged_sides _ _ _ _ (ok_merged _ _ Hs)).
    + cbn [put_lfree put_hdrs s1 sub_used used_mem]. rewrite (ok_used _ _ Hs).
      destruct (ok_seg _ _ Hs) as [? Hsg]. pose proof (used_total_bound _ _ _ _ _ _ Hsg).
      pose proof (used_total_bound _ _ _ _ _ _ Hl). pose proof (used_total_bound _ _ _ _ _ _ Hr).
      rewrite !used_total_app in *. cbn [used_total foldr fst snd] in *. fold (used_total r) in *.
      rewrite u32_small; lia.
  - unfold lf. rewrite (first_free_split _ _ _ _ _ _ _ _ _ Hl Hr) by lia.
    rewrite <- (ok_lfree _ _ Hs). cbn [put_hdrs s1 sub_used lfree].
    destruct (_ <? lfree s); [done|]. by destruct s.
Qed.
