(* ===== verification/HeapSystem.v ===== *)
(** * The heap and its clients

    Any sequence of calls of [rt_malloc], [rt_calloc], [rt_realloc] and
    [rt_free] by clients that release or resize only what they hold: the
    memory they hold stays theirs, and giving everything back restores the
    heap. *)

From Stdlib Require Import ZArith Lia.
From stdpp Require Import prelude gmap.
From S2P Require Import Prelude Heap HeapSpec HeapFree.
Open Scope Z_scope.
Open Scope c_scope.

Implicit Types bs l r : list block.
Implicit Types live : gmap Z Z.

(** ** The used blocks *)

Lemma elem_used_blocks a len o bs :
  (a, len) ∈ used_blocks o bs <-> exists l r, bs = l ++ (len, true) :: r /\ a = o + total l.
Proof.
  revert o. induction bs as [|[k u] bs IH]; intros o; cbn [used_blocks].
  - rewrite elem_of_nil. split; [done|]. by intros ([|] & ? & ? & _).
  - assert ((a, len) ∈ used_blocks (o + k) bs <->
      exists l r, bs = l ++ (len, true) :: r /\ a = o + total ((k, u) :: l)) as IH'.
    { rewrite IH. split; intros (l & r & -> & ->); exists l, r; (split; [done|]);
        cbn [total foldr fst]; unfold total; lia. }
    assert ((exists l r, (k, u) :: bs = l ++ (len, true) :: r /\ a = o + total l) <->
      (u = true /\ (a, len) = (o, k)) \/
      (exists l r, bs = l ++ (len, true) :: r /\ a = o + total ((k, u) :: l))) as ->.
    { split.
      - intros (l & r & E & ->). destruct l as [|b l]; cbn [app] in E.
        + injection E as -> -> ->. left. split; [done|]. f_equal. cbn. lia.
        + injection E as <- ->. right. by exists l, r.
      - intros [[-> [= -> ->]]|(l & r & -> & ->)]; [exists [], bs|by exists ((k, u) :: l), r].
        split; [done|]. cbn. lia. }
    destruct u; rewrite ?elem_of_cons, IH'; naive_solver.
Qed.

(** Used blocks do not overlap. *)
Lemma used_blocks_after h p o bs p' e a len :
  seg h p o bs p' e -> (a, len) ∈ used_blocks o bs -> o <= a /\ 16 <= len /\ (4 | len) /\ a + len <= e.
Proof.
  intros Hs Hin. apply elem_used_blocks in Hin as (l & r & -> & ->).
  destruct (seg_lookup _ _ _ _ _ _ _ _ _ Hs) as (q & Hl & ? & ? & _ & Hr).
  pose proof (seg_le _ _ _ _ _ _ Hl). pose proof (seg_le _ _ _ _ _ _ Hr). done.
Qed.

Lemma used_blocks_disjoint h p o bs p' e a len a' len' :
  seg h p o bs p' e -> (a, len) ∈ used_blocks o bs -> (a', len') ∈ used_blocks o bs ->
  a + len <= a' \/ a' + len' <= a \/ a = a' /\ len = len'.
Proof.
  revert p o. induction bs as [|[k u] bs IH]; intros p o; cbn [used_blocks seg].
  - intros _ Hin. by apply elem_of_nil in Hin.
  - intros (Hk & _ & _ & Hs) Hin Hin'. specialize (IH _ _ Hs).
    destruct u; [|by apply IH]. apply elem_of_cons in Hin as [[= -> ->]|Hin];
      apply elem_of_cons in Hin' as [[= -> ->]|Hin'].
    + by right; right.
    + left. destruct (used_blocks_after _ _ _ _ _ _ _ _ Hs Hin'). lia.
    + right; left. destruct (used_blocks_after _ _ _ _ _ _ _ _ Hs Hin). lia.
    + by apply IH.
Qed.

Lemma alloc_some msa size o bs a bs' :
  alloc msa size o bs = Some (a, bs') ->
  exists l len r, bs = l ++ (len, false) :: r /\ a = o + total l /\ bs' = l ++ place size len r /\
    size <= len - 12 /\ a < msa - size.
Proof.
  revert o bs'. induction bs as [|[k u] bs IH]; intros o bs'; cbn [alloc]; [done|].
  destruct (fits size k u && (o <? msa - size)) eqn:Ef.
  - intros [= <- <-]. unfold fits in Ef. destruct u; [done|]. cbn in Ef. exists [], k, bs. cbn. split_and!; try done; lia.
  - destruct (alloc msa size (o + k) bs) as [[a' r']|] eqn:E; [|done]. intros [= <- <-].
    destruct (IH _ _ E) as (l & len & r & -> & -> & -> & ? & ?). exists ((k, u) :: l), len, r.
    cbn [total foldr fst]. fold (total l). rewrite Z.add_assoc. done.
Qed.

Lemma place_used_blocks o l size len r x :
  x ∈ used_blocks o (l ++ place size len r) <->
  x = (o + total l, taken size len) \/ x ∈ used_blocks o (l ++ (len, false) :: r).
Proof.
  rewrite !used_blocks_app, !elem_of_app. unfold place, taken. destruct (_ <=? _); cbn [used_blocks].
  - rewrite elem_of_cons. replace (o + total l + (size + 12) + (len - size - 12)) with (o + total l + len) by lia. tauto.
  - rewrite elem_of_cons. tauto.
Qed.

Lemma release_elem l len r a k h p p' e :
  seg h p 0 (l ++ (len, true) :: r) p' e ->
  (a, k) ∈ used_blocks 0 (release l len r) <->
  (a, k) ∈ used_blocks 0 (l ++ (len, true) :: r) /\ a <> total l.
Proof.
  intros Hs. rewrite release_used_blocks, used_blocks_app. cbn [used_blocks].
  rewrite !elem_of_app, elem_of_cons, Z.add_0_l.
  destruct (seg_lookup _ _ _ _ _ _ _ _ _ Hs) as (q & Hl & ? & _ & _ & Hr).
  assert ((a, k) ∈ used_blocks 0 l -> a <> total l).
  { intros Hin. destruct (used_blocks_after _ _ _ _ _ _ _ _ Hl Hin). lia. }
  assert ((a, k) ∈ used_blocks (total l + len) r -> a <> total l).
  { intros Hin. destruct (used_blocks_after _ _ _ _ _ _ _ _ Hr Hin). lia. }
  split; [tauto|]. intros [[?|[[= -> ->]|?]] ?]; tauto.
Qed.

(** ** Clients *)

(** [live] holds the memory that clients hold: its address and its size, as
    requested.  Every used block belongs to a client. *)
Record tracks (hp : Z) bs live : Prop := mk_tracks {
  tracked : forall p n, live !! p = Some n ->
    exists len, (p - hp - 12, len) ∈ used_blocks 0 bs /\ 0 < n <= len - 12;
  held : forall a len, (a, len) ∈ used_blocks 0 bs -> is_Some (live !! (hp + a + 12))
}.

Definition heap_inv (s : heap) live : Prop := exists bs, heap_ok s bs /\ tracks (heap_ptr s) bs live.

Inductive call := Malloc (n : Z) | Calloc (count n : Z) | Realloc (p n : Z) | Free (p : Z).

Definition exec (c : call) : H Z :=
  match c with
  | Malloc n => rt_malloc n
  | Calloc count n => rt_calloc count n
  | Realloc p n => rt_realloc p n
  | Free p => rt_free p ;;; ret 0
  end.

(** Clients ask for sizes that can be aligned without wrap around, and hand
    in only what they hold. *)
Definition allowed live (c : call) : Prop :=
  match c with
  | Malloc n => 0 <= n <= 2 ^ 32 - 4
  | Calloc count n => 0 <= count * n <= 2 ^ 32 - 4
  | Realloc p n => 0 <= n <= 2 ^ 32 - 4 /\ (p = 0 \/ is_Some (live !! p))
  | Free p => p = 0 \/ is_Some (live !! p)
  end.

(** What clients hold after a call that returned [res]. *)
Definition after live (c : call) (res : Z) : gmap Z Z :=
  let got n := if res =? 0 then live else <[res := n]> live in
  match c with
  | Malloc n => got n
  | Calloc count n => got (count * n)
  | Realloc p n =>
      if n =? 0 then delete p live
      else if res =? 0 then live else <[res := n]> (delete p live)
  | Free p => delete p live
  end.

Lemma tracks_place hp l size len r live n :
  let bs := l ++ (len, false) :: r in
  0 < n <= size -> size <= len - 12 ->
  tracks hp bs live ->
  tracks hp (l ++ place size len r) (<[hp + total l + 12 := n]> live).
Proof.
  intros bs Hn Hfit Ht.
  assert (size <= taken size len - 12) as Htk by (unfold taken; destruct (_ <=? _); lia).
  split.
  - intros p k. destruct (decide (p = hp + total l + 12)) as [->|Hp].
    + rewrite lookup_insert_eq. intros [= <-]. exists (taken size len).
      rewrite place_used_blocks. split; [left; f_equal; lia|lia].
    + rewrite lookup_insert_ne by done. intros Hk. destruct (tracked _ _ _ Ht _ _ Hk) as (k' & ? & ?).
      exists k'. rewrite place_used_blocks. tauto.
  - intros a k Hin. destruct (decide (a = total l)) as [->|Ha]; [rewrite lookup_insert_eq; eauto|].
    rewrite lookup_insert_ne by lia. apply place_used_blocks in Hin as [[= -> _]|Hin]; [lia|].
    by apply (held _ _ _ Ht _ k).
Qed.

Lemma tracks_release hp l len r live h p p' e :
  seg h p 0 (l ++ (len, true) :: r) p' e -> tracks hp (l ++ (len, true) :: r) live ->
  tracks hp (release l len r) (delete (hp + total l + 12) live).
Proof.
  intros Hs Ht. split.
  - intros a n. rewrite lookup_delete_Some. intros [Ha Hn].
    destruct (tracked _ _ _ Ht _ _ Hn) as (k & Hin & Hk). exists k. split; [|done].
    apply (release_elem _ _ _ _ _ _ _ _ _ Hs). split; [done|lia].
  - intros a k Hin. apply (release_elem _ _ _ _ _ _ _ _ _ Hs) in Hin as [Hin Ha].
    rewrite lookup_delete_ne by lia. by apply (held _ _ _ Ht _ k).
Qed.

(** A held block is a used block of the heap. *)
Lemma inv_held s bs live p n :
  heap_ok s bs -> tracks (heap_ptr s) bs live -> live !! p = Some n ->
  exists l len r, bs = l ++ (len, true) :: r /\ p = heap_ptr s + total l + 12 /\ 0 < n <= len - 12.
Proof.
  intros Hs Ht Hp. destruct (tracked _ _ _ Ht _ _ Hp) as (len & Hin & Hn).
  apply elem_used_blocks in Hin as (l & r & -> & E). exists l, len, r. split_and!; try done; lia.
Qed.

(** The memory held by clients: in the heap, aligned, and apart from each
    other by at least the header in between. *)
Definition areas_ok (s : heap) live : Prop :=
  (forall p n, live !! p = Some n ->
     heap_ptr s + 12 <= p /\ (4 | p) /\ 0 < n /\ p + n <= heap_ptr s + heap_end s) /\
  (forall p n q k, live !! p = Some n -> live !! q = Some k -> p <> q -> p + n + 12 <= q \/ q + k + 12 <= p).

Lemma inv_areas s live : heap_inv s live -> areas_ok s live.
Proof.
  intros (bs & Hs & Ht). destruct (ok_ptr _ _ Hs) as [Hp0 Hpa]. destruct (ok_seg _ _ Hs) as [p' Hseg]. split.
  - intros p n Hp. destruct (inv_held _ _ _ _ _ Hs Ht Hp) as (l & len & r & -> & -> & Hn).
    destruct (heap_ok_block _ _ _ _ _ Hs) as (q & p2 & _ & _ & _ & _ & _ & H0 & Hxa & He).
    split_and!; try lia. repeat apply Z.divide_add_r; try done. by exists 3.
  - intros p n q k Hp Hq Hne. destruct (tracked _ _ _ Ht _ _ Hp) as (len & Hin & Hn).
    destruct (tracked _ _ _ Ht _ _ Hq) as (len' & Hin' & Hk).
    destruct (used_blocks_disjoint _ _ _ _ _ _ _ _ _ _ Hseg Hin Hin') as [?|[?|[? ?]]]; lia.
Qed.

Lemma inv_null s live : heap_inv s live -> live !! 0 = None.
Proof.
  intros Hi. destruct (live !! 0) as [n|] eqn:E; [|done]. destruct (inv_areas _ _ Hi) as [Ha _].
  destruct (Ha _ _ E) as [? _]. destruct Hi as (bs & Hs & _). destruct (ok_ptr _ _ Hs). lia.
Qed.

Lemma inv_bytes s live b : heap_inv s live -> heap_inv (put_bytes b s) live.
Proof. intros (bs & [] & Ht). exists bs. split; [by split|done]. Qed.

(** What a call does to the contents of the memory that clients hold. *)
Definition untouched live (q : Z) (s s' : heap) : Prop :=
  forall p n i, live !! p = Some n -> p <> q -> 0 <= i < n -> bytes s' (p + i) = bytes s (p + i).

Lemma malloc_inv s live n :
  heap_inv s live -> 0 <= n <= 2 ^ 32 - 4 ->
  exists p s', rt_malloc n s = Some (p, s') /\ same_heap s s' /\ live !! p = None /\
    (p = 0 -> s' = s) /\ heap_inv s' (if p =? 0 then live else <[p := n]> live).
Proof.
  intros Hi Hn. pose proof (inv_null _ _ Hi) as H0. pose proof Hi as (bs & Hs & Ht).
  assert (forall k, rt_malloc k s = Some (0, s) -> exists p s', rt_malloc k s = Some (p, s') /\
    same_heap s s' /\ live !! p = None /\ (p = 0 -> s' = s) /\
    heap_inv s' (if p =? 0 then live else <[p := n]> live)) as Hnull by (intros k E; by exists 0, s).
  destruct (decide (n = 0)) as [->|Hn0]; [by apply Hnull|].
  pose proof (rt_malloc_spec s bs n Hs ltac:(lia)) as Hm. destruct (_ <? _); [by apply Hnull|].
  unfold malloc_result in Hm. destruct (alloc _ _ _ _) as [[a bs']|] eqn:Ea; [|by apply Hnull].
  destruct Hm as (s' & E & Hs' & Hsame & _). apply alloc_some in Ea as (l & len & r & -> & -> & -> & Hfit & _).
  destruct (ok_ptr _ _ Hs) as [Hp0 _].
  destruct (heap_ok_block _ _ _ _ _ Hs) as (q & p & Hl & _ & Hr & Hlen & _ & Hx0 & _).
  rewrite Z.add_0_l in *. exists (heap_ptr s + total l + 12), s'. do 2 (split; [done|]). split; [|split; [lia|]].
  - destruct (live !! (heap_ptr s + total l + 12)) as [k|] eqn:Ek; [|done]. exfalso.
    destruct (tracked _ _ _ Ht _ _ Ek) as (k' & Hin & _). rewrite used_blocks_app in Hin.
    cbn [used_blocks] in Hin. apply elem_of_app in Hin as [Hin|Hin].
    + destruct (used_blocks_after _ _ _ _ _ _ _ _ Hl Hin). lia.
    + destruct (used_blocks_after _ _ _ _ _ _ _ _ Hr Hin). lia.
  - replace (heap_ptr s + total l + 12 =? 0) with false by lia. exists (l ++ place (request n) len r).
    split; [done|]. destruct Hsame as [-> _]. apply tracks_place; [|done|done].
    destruct (align_spec n) as (_ & _ & Ha); [lia|]. unfold request. lia.
Qed.

Lemma free_inv s live p :
  heap_inv s live -> p = 0 \/ is_Some (live !! p) ->
  exists s', rt_free p s = Some (tt, s') /\ same_heap s s' /\ heap_inv s' (delete p live).
Proof.
  intros Hi [->|[n Hn]].
  - exists s. do 2 (split; [done|]). by rewrite delete_id by exact (inv_null _ _ Hi).
  - pose proof Hi as (bs & Hs & Ht). destruct (inv_held _ _ _ _ _ Hs Ht Hn) as (l & len & r & -> & -> & _).
    destruct (rt_free_spec _ _ _ _ Hs) as (s' & E & Hs' & Hsame). exists s'. do 2 (split; [done|]).
    exists (release l len r). split; [done|]. destruct Hsame as [-> _].
    destruct (ok_seg _ _ Hs) as [p' Hseg]. by eapply tracks_release.
Qed.

(** A client holds a part of its block, or all of it. *)
Lemma tracks_resize hp bs live p len n :
  (p - hp - 12, len) ∈ used_blocks 0 bs -> 0 < n <= len - 12 -> tracks hp bs live ->
  tracks hp bs (<[p := n]> live).
Proof.
  intros Hin Hn Ht. split.
  - intros q m. destruct (decide (q = p)) as [->|Hq].
    + rewrite lookup_insert_eq. intros [= <-]. by exists len.
    + rewrite lookup_insert_ne by done. apply (tracked _ _ _ Ht).
  - intros a k Ha. pose proof (held _ _ _ Ht _ _ Ha) as Hh.
    destruct (decide (hp + a + 12 = p)) as [->|Hq]; [rewrite lookup_insert_eq; eauto|].
    by rewrite lookup_insert_ne by done.
Qed.

Lemma inv_less s live p k n : heap_inv s (<[p := k]> live) -> 0 < n <= k -> heap_inv s (<[p := n]> live).
Proof.
  intros (bs & Hs & Ht) Hn. exists bs. split; [done|].
  destruct (tracked _ _ _ Ht p k) as (len & Hin & Hk); [by rewrite lookup_insert_eq|].
  rewrite <- (insert_insert_eq live p n k). apply (tracks_resize _ _ _ _ len); [done|lia|done].
Qed.

Lemma untouched_same live q s s' : same_heap s s' -> untouched live q s s'.
Proof. intros (_ & _ & _ & E) p n i _ _ _. by rewrite E. Qed.

(** The block shrinks in place. *)
Lemma tracks_shrink hp l len r live n size h p p' e :
  0 < n <= size -> 28 + size <= len -> seg h p 0 (l ++ (len, true) :: r) p' e ->
  tracks hp (l ++ (len, true) :: r) live ->
  tracks hp (release (l ++ [(size + 12, true)]) (len - size - 12) r) (<[hp + total l + 12 := n]> live).
Proof.
  intros Hn Hlt Hs Ht. set (x := total l) in *.
  assert (forall a k, (a, k) ∈ used_blocks 0 (release (l ++ [(size + 12, true)]) (len - size - 12) r) <->
    (a, k) = (x, size + 12) \/ ((a, k) ∈ used_blocks 0 (l ++ (len, true) :: r) /\ a <> x)) as Hel.
  { intros a k. pose proof (release_elem l len r a k _ _ _ _ Hs) as Hrel. fold x in Hrel. rewrite <- Hrel.
    rewrite !release_used_blocks, !used_blocks_app, total_app.
    cbn [used_blocks total foldr fst]. fold (total l). fold x. rewrite !elem_of_app, !Z.add_0_l.
    replace (x + (size + 12 + 0) + (len - size - 12)) with (x + len) by lia.
    rewrite list_elem_of_singleton. tauto. }
  split.
  - intros a k. destruct (decide (a = hp + x + 12)) as [->|Ha].
    + rewrite lookup_insert_eq. intros [= <-]. exists (size + 12). rewrite Hel. split; [left; f_equal; lia|lia].
    + rewrite lookup_insert_ne by done. intros Hk. destruct (tracked _ _ _ Ht _ _ Hk) as (m & Hin & Hm).
      exists m. rewrite Hel. split; [right; split; [done|lia]|lia].
  - intros a k Hin. apply Hel in Hin as [[= -> _]|[Hin Ha]]; [rewrite lookup_insert_eq; eauto|].
    rewrite lookup_insert_ne by lia. by apply (held _ _ _ Ht _ k).
Qed.

(** The contents of a block move with it. *)
Definition moved live (p p' n : Z) (s s' : heap) : Prop :=
  forall k i, live !! p = Some k -> p' <> 0 -> 0 <= i < Z.min k n -> bytes s' (p' + i) = bytes s (p + i).

Lemma move_inv s live p k cap n size :
  heap_inv s live -> live !! p = Some k -> k <= cap ->
  0 < n <= size -> size <= 2 ^ 32 - 4 -> (4 | size) ->
  exists p' s', move_block p cap size s = Some (p', s') /\
    heap_inv s' (if p' =? 0 then live else <[p' := n]> (delete p live)) /\
    untouched live p s s' /\ moved live p p' n s s'.
Proof.
  intros Hi Hp Hcap Hn Hsz Ha. destruct (malloc_inv _ _ size Hi ltac:(lia)) as (p' & s1 & E1 & Hsame & Hnew & Hs1 & Hi1).
  unfold move_block. rewrite (bind_eq _ _ _ _ _ E1). destruct (p' =? 0) eqn:E0; cbn [negb when].
  - assert (p' = 0) as -> by lia. rewrite Hs1 in * by done.
    exists 0, s. do 2 (split; [done|]). split; [by apply untouched_same|]. by intros ? ? _ [].
  - set (s2 := put_bytes (copy_bytes p' p (Z.min cap size) (bytes s1)) s1).
    assert (heap_inv s2 (<[p' := n]> live)) as Hi2 by (apply inv_bytes; eapply inv_less; [exact Hi1|lia]).
    destruct (free_inv s2 _ p Hi2) as (s3 & E3 & Hsame3 & Hi3).
    { right. rewrite lookup_insert_ne by congruence. eauto. }
    exists p', s3. destruct Hsame3 as (_ & _ & _ & Hb3). destruct Hsame as (_ & _ & _ & Hb1).
    assert (bytes s3 = copy_bytes p' p (Z.min cap size) (bytes s)) as Hb.
    { rewrite Hb3. cbn [s2 put_bytes bytes]. by rewrite Hb1. }
    assert (p' <> p) as Hne by congruence. destruct (inv_areas _ _ Hi1) as [_ Hdis].
    split; [|split; [|split]].
    + unfold bind at 1 2, modify at 1. fold s2. by rewrite E3.
    + rewrite E0. rewrite delete_insert_ne in Hi3 by congruence. done.
    + intros q m i Hq Hqp Hi'. rewrite Hb. unfold copy_bytes.
      destruct (Hdis p' size q m) as [?|?]; [by rewrite lookup_insert_eq| |congruence|..].
      { rewrite lookup_insert_ne by congruence. done. }
      all: by replace ((p' <=? q + i) && (q + i <? p' + Z.min cap size)) with false by lia.
    + intros m i Hm _ Hi'. assert (m = k) as -> by congruence. rewrite Hb. unfold copy_bytes.
      replace ((p' <=? p' + i) && (p' + i <? p' + Z.min cap size)) with true by lia. f_equal. lia.
Qed.

Lemma realloc_inv s live p n :
  heap_inv s live -> 0 <= n <= 2 ^ 32 - 4 -> p = 0 \/ is_Some (live !! p) ->
  exists p' s', rt_realloc p n s = Some (p', s') /\ heap_inv s' (after live (Realloc p n) p') /\
    untouched live p s s' /\ moved live p p' n s s'.
Proof.
  intros Hi Hn Hp. destruct (align_spec n) as (Ha & Hr & Hal); [lia|]. specialize (Hal ltac:(lia)).
  unfold after. cbn zeta. set (size := RT_ALIGN n RT_ALIGN_SIZE) in *.
  destruct (mem_size_aligned s <? size) eqn:Ebig.
  { exists 0, s. unfold rt_realloc, bind, gets. fold size. rewrite Ebig.
    destruct Hi as (bs & Hs & Ht). destruct (ok_size _ _ Hs). replace (n =? 0) with false by lia.
    split_and!; [done|by exists bs|by apply untouched_same|by intros ? ? _ []]. }
  destruct (decide (n = 0)) as [->|Hn0].
  { change size with 0 in *. destruct (free_inv _ _ _ Hi Hp) as (s' & E & Hsame & Hi').
    exists 0, s'. split; [|split; [done|split; [by apply untouched_same|by intros ? ? _ []]]].
    unfold rt_realloc, bind, gets. change (RT_ALIGN 0 RT_ALIGN_SIZE) with 0. rewrite Ebig. cbn. by rewrite E. }
  replace (n =? 0) with false by lia. destruct (decide (p = 0)) as [->|Hp0].
  { destruct (malloc_inv _ _ size Hi ltac:(destruct Ha as [m ->]; lia)) as (p' & s' & E & Hsame & _ & _ & Hi').
    exists p', s'. rewrite delete_id by exact (inv_null _ _ Hi). split; [|split; [|split; [by apply untouched_same|]]].
    - unfold rt_realloc, bind, gets. fold size. rewrite Ebig. by replace (size =? 0) with false by lia.
    - destruct (p' =? 0); [done|]. eapply inv_less; [done|lia].
    - intros k i Hk. by rewrite (inv_null _ _ Hi) in Hk. }
  destruct Hp as [?|[k Hk]]; [done|]. pose proof Hi as (bs & Hs & Ht).
  destruct (inv_held _ _ _ _ _ Hs Ht Hk) as (l & len & r & -> & -> & Hkl).
  rewrite (rt_realloc_eq s l len r n) by (done || lia). fold size.
  destruct (ok_seg _ _ Hs) as [pe Hseg].
  destruct (len - 12 =? size) eqn:E1; [|destruct (size + 24 <? len - 12) eqn:E2].
  - exists (heap_ptr s + total l + 12), s. replace (_ =? 0) with false by lia. rewrite insert_delete_eq.
    split_and!; [done| |by apply untouched_same|done].
    exists (l ++ (len, true) :: r). split; [done|]. apply (tracks_resize _ _ _ _ len); [|lia|done].
    apply elem_used_blocks. exists l, r. split; [done|lia].
  - assert (4 <= size) by (destruct Ha as [m Hm]; lia).
    destruct (shrink_block_spec s l len r size Hs) as (s' & E & Hs' & Hsame); [done|done|lia|].
    exists (heap_ptr s + total l + 12), s'. replace (_ =? 0) with false by lia. rewrite insert_delete_eq.
    split; [by rewrite (bind_eq _ _ _ _ _ E)|split; [|split; [by apply untouched_same|]]].
    + eexists. split; [exact Hs'|]. destruct Hsame as [-> _].
      eapply tracks_shrink; [|lia|done|done]. lia.
    + intros m i _ _ _. by destruct Hsame as (_ & _ & _ & ->).
  - eapply move_inv; try done; try lia. destruct Ha as [m Hm]. lia.
Qed.

(** ** Sequences of calls *)

(** The block a call hands in. *)
Definition arg (c : call) : Z := match c with Realloc p _ | Free p => p | _ => 0 end.

(** The contents of the block a call returns. *)
Definition contents_ok live (c : call) (res : Z) (s s' : heap) : Prop :=
  match c with
  | Realloc p n => moved live p res n s s'
  | Calloc count n => res <> 0 -> forall i, 0 <= i < count * n -> bytes s' (res + i) = 0
  | _ => True
  end.

Lemma heap_exec_inv s live c :
  heap_inv s live -> allowed live c ->
  exists res s', exec c s = Some (res, s') /\ heap_inv s' (after live c res) /\
    untouched live (arg c) s s' /\ contents_ok live c res s s'.
Proof.
  intros Hi Hc. destruct c as [n|count n|p n|p]; cbn [exec allowed after arg contents_ok] in *.
  - destruct (malloc_inv _ _ _ Hi Hc) as (p & s' & E & Hsame & _ & _ & Hi'). exists p, s'.
    split_and!; try done. by apply untouched_same.
  - unfold rt_calloc. rewrite u32_small by lia.
    destruct (malloc_inv _ _ _ Hi Hc) as (p & s' & E & Hsame & Hnew & _ & Hi').
    rewrite (bind_eq _ _ _ _ _ E). destruct (p =? 0) eqn:E0; cbn [negb when].
    + exists p, s'. rewrite E0. split_and!; try done; [by apply untouched_same|lia].
    + exists p, (put_bytes (fill_bytes p 0 (count * n) (bytes s')) s'). rewrite E0.
      split; [done|split; [by apply inv_bytes|split]].
      * intros q k i Hq _ Hik. cbn [put_bytes bytes]. unfold fill_bytes.
        assert (p <> q) as Hne by congruence. destruct (inv_areas _ _ Hi') as [_ Hdis].
        destruct (Hdis p (count * n) q k) as [?|?]; [by rewrite lookup_insert_eq|by rewrite lookup_insert_ne|done|..].
        all: replace (_ && _) with false by lia. all: by destruct Hsame as (_ & _ & _ & ->).
      * intros _ i Hin. cbn [put_bytes bytes]. unfold fill_bytes. by replace (_ && _) with true by lia.
  - destruct Hc as [Hn Hp]. by apply realloc_inv.
  - destruct (free_inv _ _ _ Hi Hc) as (s' & E & Hsame & Hi'). exists 0, s'.
    rewrite (bind_eq _ _ _ _ _ E). split_and!; try done. by apply untouched_same.
Qed.

(** The states of a heap between [b] and [e] that clients can bring about,
    with what they hold. *)
Inductive reach (b e : Z) : heap -> gmap Z Z -> Prop :=
| reach_init s0 s :
    used_mem s0 = 0 -> rt_system_heap_init b e s0 = Some (tt, s) -> reach b e s ∅
| reach_call s live c res s' :
    reach b e s live -> allowed live c -> exec c s = Some (res, s') ->
    reach b e s' (after live c res)
| reach_write s live p n i v :
    reach b e s live -> live !! p = Some n -> 0 <= i < n ->
    reach b e (put_bytes (fun a => if a =? p + i then v else bytes s a) s) live.

(** A region with room for the two headers and the smallest block. *)
Definition region (b e : Z) : Prop :=
  0 < b /\ e < 2 ^ 32 /\ b + 3 + 36 <= e - 3.

Lemma align_down n : 0 <= n < 2 ^ 32 -> let a := RT_ALIGN_DOWN n RT_ALIGN_SIZE in (4 | a) /\ n - 3 <= a <= n.
Proof.
  intros Hn. unfold RT_ALIGN_DOWN, RT_ALIGN_SIZE.
  change (u32 (Z.lnot (4 - 1))) with (Z.ldiff (Z.ones 32) (Z.ones 2)).
  rewrite Z.ldiff_land, Z.land_assoc, Z.land_ones by lia. rewrite (Z.mod_small n) by lia.
  rewrite <- Z.ldiff_land, Z.ldiff_ones_r by lia. rewrite Z.shiftl_mul_pow2, Z.shiftr_div_pow2 by lia.
  split; [apply Z.divide_factor_r|divmod].
Qed.

Lemma init_ok b e s0 :
  region b e -> used_mem s0 = 0 ->
  exists s, rt_system_heap_init b e s0 = Some (tt, s) /\ heap_ok s [(heap_end s, false)].
Proof.
  intros (Hb & He & Hroom) Hu. destruct (align_spec b) as (Hba & Hb32 & Hbr); [lia|]. specialize (Hbr ltac:(lia)).
  destruct (align_down e) as (Hea & Her); [lia|]. unfold rt_system_heap_init.
  set (ba := RT_ALIGN b RT_ALIGN_SIZE) in *. set (ea := RT_ALIGN_DOWN e RT_ALIGN_SIZE) in *.
  unfold SIZEOF_STRUCT_MEM. replace ((2 * 12 <? ea) && (ba <=? ea - 2 * 12)) with true by lia.
  assert (4 | ea - ba - 2 * 12) as Hs by (repeat apply Z.divide_sub_r; try done; by exists 6).
  eexists. split; [reflexivity|]. unfold put_hdrs.
  split; cbn [heap_ptr mem_size_aligned heap_end hdrs lfree used_mem first_free used_total foldr fst snd];
    try lia; try done.
  - split; [lia|done].
  - split; [lia|done].
  - exists 0. cbn [seg Z.b2z]. rewrite lookup_insert_ne, lookup_insert_eq by lia. rewrite Z.add_0_l.
    split_and!; try done; [lia|]. apply Z.divide_add_r; [done|by exists 3].
  - eexists. by rewrite lookup_insert_eq.
Qed.

Lemma heap_reach_inv b e s live : region b e -> reach b e s live -> heap_inv s live.
Proof.
  intros Hr. induction 1 as [s0 s Hu E|s live c res s' _ IH Hc E|s live p n i v _ IH _ _].
  - destruct (init_ok b e s0 Hr Hu) as (s' & E' & Hs). rewrite E in E'. injection E' as <-.
    eexists. split; [done|]. split; [done|]. intros a len Hin. by apply elem_of_nil in Hin.
  - destruct (heap_exec_inv _ _ _ IH Hc) as (res' & s2 & E2 & Hi & _). rewrite E in E2. by injection E2 as -> ->.
  - by apply inv_bytes.
Qed.

(** A merged list without used blocks is one block. *)
Lemma all_free f bs : used_blocks 0 bs = [] -> merged f bs -> bs <> [] -> exists len, bs = [(len, false)].
Proof.
  intros Hu Hm Hne. destruct bs as [|[len []] bs]; [done|done|]. cbn in Hu, Hm. exists len. f_equal.
  destruct bs as [|[len' []] bs]; [done|done|]. cbn in Hm. destruct Hm as [_ [Hm _]]. by specialize (Hm eq_refl).
Qed.

Lemma alloc_too_big msa size bs h p p' o' :
  seg h p 0 bs p' o' -> msa < size -> alloc msa size 0 bs = None.
Proof. intros Hs Hlt. eapply alloc_beyond; [done|lia]. Qed.

(** [rt_malloc] on the list of blocks: the loop and the test before it. *)
Lemma rt_malloc_alloc s bs n :
  heap_ok s bs -> 0 < n < 2 ^ 32 ->
  malloc_result s [] (alloc (mem_size_aligned s) (request n) 0 bs) (rt_malloc n s).
Proof.
  intros Hs Hn. pose proof (rt_malloc_spec s bs n Hs Hn) as Hm.
  destruct (mem_size_aligned s <? RT_ALIGN n RT_ALIGN_SIZE) eqn:E; [|done].
  destruct (ok_seg _ _ Hs) as [p Hp].
  rewrite (alloc_too_big _ _ _ _ _ _ _ Hp); [done|]. unfold request. lia.
Qed.

(** Releasing memory does not touch the highest value. *)
Definition keeps_max {A} (m : H A) : Prop := forall s a s', m s = Some (a, s') -> max_mem s' = max_mem s.

Lemma keeps_max_bind {A B} (m : H A) (k : A -> H B) :
  keeps_max m -> (forall a, keeps_max (k a)) -> keeps_max (bind m k).
Proof.
  intros Hm Hk s b s'. unfold bind. destruct (m s) as [[a s1]|] eqn:E; [|done]. intros E'.
  rewrite (Hk a _ _ _ E'). by apply (Hm _ a).
Qed.

Lemma keeps_max_modify f : (forall s, max_mem (f s) = max_mem s) -> keeps_max (modify f).
Proof. intros Hf s a s' [= _ <-]. apply Hf. Qed.

Lemma keeps_max_ret {A} (a : A) : keeps_max (ret a).
Proof. by intros s a' s' [= _ <-]. Qed.

Lemma keeps_max_gets {A} (f : heap -> A) : keeps_max (gets f).
Proof. by intros s a' s' [= _ <-]. Qed.

Lemma keeps_max_hdr o : keeps_max (hdr_at o).
Proof. intros s a s'. unfold hdr_at. destruct (hdrs s !! o); [|done]. by intros [= _ <-]. Qed.

Lemma keeps_max_free p : keeps_max (rt_free p).
Proof.
  unfold rt_free, plug_holes, RT_ASSERT, upd_hdr, when, set_lfree, set_hdr. cbv zeta.
  repeat first [ apply keeps_max_bind; [|intros ?] | apply keeps_max_ret | apply keeps_max_gets
               | apply keeps_max_hdr | apply keeps_max_modify; done | case_match | done ].
Qed.

(** C34: the chained headers implement a list of blocks.  On a heap that
    represents the list [bs], [rt_malloc] of at most 2^32 - 4 bytes, rounded up,
    takes memory as first fit on the list does and returns NULL when no block is
    large enough, with one exception: it also returns NULL when first fit would
    give out memory up to the very end of the heap, that is when the only block
    that is large enough is the last one and fits exactly.  [rt_free] of a used
    block merges it with its free neighbours.  The result represents the new
    list again, so no two neighbours are free, the lowest free block is known and
    the memory in use is counted; its highest value is kept up to date by an
    allocation and left alone by a release. *)
Theorem heap_refines_block_list s bs :
  heap_ok s bs ->
  (forall n, 0 < n <= 2 ^ 32 - 4 ->
     match first_fit (request n) 0 bs with
     | Some (a, bs') =>
         if a + 12 + request n =? heap_end s then rt_malloc n s = Some (0, s)
         else exists s', rt_malloc n s = Some (heap_ptr s + a + 12, s') /\ heap_ok s' bs' /\
                max_mem s' = Z.max (max_mem s) (used_mem s')
     | None => rt_malloc n s = Some (0, s)
     end) /\
  (forall l len r, bs = l ++ (len, true) :: r ->
     exists s', rt_free (heap_ptr s + total l + 12) s = Some (tt, s') /\ heap_ok s' (release l len r) /\
       max_mem s' = max_mem s).
Proof.
  intros Hs. split.
  - intros n Hn. pose proof (rt_malloc_alloc s bs n Hs ltac:(lia)) as Hm.
    destruct (ok_seg _ _ Hs) as [p Hp]. rewrite (ok_end _ _ Hs) in *.
    rewrite (alloc_first_fit _ _ _ _ _ _ _ Hp) in Hm. unfold malloc_result in Hm.
    destruct (first_fit _ _ _) as [[a bs']|]; [|done]. destruct (_ =? _); [done|].
    destruct Hm as (s' & Em & Hs' & _ & Hpk). by exists s'.
  - intros l len r ->. destruct (rt_free_spec _ _ _ _ Hs) as (s' & E & Hs' & _). exists s'.
    split; [done|]. split; [done|]. by apply (keeps_max_free _ _ _ _ E).
Qed.

(** C35: a heap serves its clients.  After any sequence of calls in which
    clients release or resize only what they hold, what they hold lies in the
    heap, aligned, and apart from each other with room for a header in
    between; the next call returns (no assertion fails, no search runs out of
    the heap), leaves the contents of all other blocks alone, moves the
    contents of a block that it resizes and clears a block for [rt_calloc]. *)
Theorem heap_serves_its_clients b e s live c :
  region b e -> reach b e s live -> allowed live c ->
  areas_ok s live /\
  exists res s', exec c s = Some (res, s') /\ areas_ok s' (after live c res) /\
    untouched live (arg c) s s' /\ contents_ok live c res s s'.
Proof.
  intros Hr Hreach Hc. pose proof (heap_reach_inv _ _ _ _ Hr Hreach) as Hi. split; [by apply inv_areas|].
  destruct (heap_exec_inv _ _ _ Hi Hc) as (res & s' & E & Hi' & Hk & Hco). exists res, s'.
  split; [done|]. split; [by apply inv_areas|done].
Qed.

(** C36: nothing is lost.  After any sequence of calls and writes of clients who hold
    nothing any more, the heap is one free block again, no memory is counted as in
    use, and a request (of at most 2^32 - 4 bytes) is served at the start of the
    heap exactly if its rounded size, the next multiple of four and at least
    twelve, is smaller than the size of the heap; otherwise the result is NULL and
    nothing changes. *)
Theorem heap_restored_when_all_freed b e s :
  region b e -> reach b e s ∅ ->
  s.(hdrs) !! 0 = Some (mk_mem HEAP_MAGIC 0 s.(heap_end) 0) /\ s.(lfree) = 0 /\ s.(used_mem) = 0 /\
  forall n, 0 < n <= 2 ^ 32 - 4 ->
    if request n <? mem_size_aligned s then exists s', rt_malloc n s = Some (heap_ptr s + 12, s')
    else rt_malloc n s = Some (0, s).
Proof.
  intros Hr Hreach. destruct (heap_reach_inv _ _ _ _ Hr Hreach) as (bs & Hs & Ht).
  destruct (ok_seg _ _ Hs) as [p Hp]. destruct (ok_size _ _ Hs) as [Hsz _]. pose proof (ok_end _ _ Hs) as He.
  destruct (all_free false bs) as [len ->].
  - destruct (used_blocks 0 bs) as [|[a k] us] eqn:E; [done|]. exfalso.
    destruct (held _ _ _ Ht a k) as [n Hn]; [rewrite E; apply list_elem_of_here|done].
  - apply Hs.
  - intros ->. destruct Hp as [_ Hp]. lia.
  - cbn [seg Z.b2z] in Hp. destruct Hp as (_ & _ & Hh & _ & Hend). rewrite Z.add_0_l in *. subst len.
    split_and!; [done|by rewrite (ok_lfree _ _ Hs)|by rewrite (ok_used _ _ Hs)|].
    intros n Hn. pose proof (rt_malloc_alloc s _ n Hs ltac:(lia)) as Hm. cbn [alloc] in Hm. unfold fits in Hm.
    destruct (request n <? mem_size_aligned s) eqn:Eq.
    + replace (negb false && _ && _) with true in Hm by (cbn [negb andb]; lia).
      destruct Hm as (s' & E & _). exists s'. rewrite E. do 2 f_equal. lia.
    + by replace (negb false && _ && _) with false in Hm by (cbn [negb andb]; lia).
Qed.

(** ** A heap in use *)

Definition demo_heap : heap := snd (default (tt, empty_heap) (rt_system_heap_init 0x1001 0x1080 empty_heap)).
Definition after_call (c : call) (s : heap) : heap := snd (default (0, s) (exec c s)).

Lemma after_call_eq c s n : fst <$> exec c s = Some n -> exec c s = Some (n, after_call c s).
Proof. unfold after_call. destruct (exec c s) as [[r' s']|]; cbn; congruence. Qed.

Lemma demo_init : rt_system_heap_init 0x1001 0x1080 empty_heap = Some (tt, demo_heap).
Proof. reflexivity. Qed.

Lemma demo_region : region 0x1001 0x1080.
Proof. unfold region. lia. Qed.

Lemma demo_heap_reach : reach 0x1001 0x1080 demo_heap ∅.
Proof. by apply (reach_init _ _ empty_heap). Qed.

Lemma demo_malloc_reach : reach 0x1001 0x1080 (after_call (Malloc 20) demo_heap) {[0x1010 := 20]}.
Proof.
  assert ({[0x1010 := 20]} = after ∅ (Malloc 20) 0x1010) as -> by reflexivity.
  apply (reach_call _ _ demo_heap); [exact demo_heap_reach|cbn; lia|].
  apply after_call_eq. vm_compute. reflexivity.
Qed.

Lemma demo_ok : exists s, heap_ok s [(112, false)] /\ mem_size_aligned s = 100.
Proof.
  destruct (init_ok 0x1001 0x1080 empty_heap demo_region eq_refl) as (s & E & Hs).
  exists s. rewrite demo_init in E. injection E as <-. split; [exact Hs|reflexivity].
Qed.

Lemma heap_refines_block_list_witness :
  exists s bs, heap_ok s bs /\ (exists s', rt_malloc 20 s = Some (heap_ptr s + 0 + 12, s')) /\
    rt_malloc 98 s = Some (0, s).
Proof.
  destruct demo_ok as (s & Hs & Em). exists s, [(112, false)]. split; [exact Hs|].
  destruct (heap_refines_block_list s _ Hs) as [Hm _]. rewrite (ok_end _ _ Hs), Em in Hm. split.
  - pose proof (Hm 20 ltac:(lia)) as E. destruct E as (s' & E & _). exists s'. exact E.
  - exact (Hm 98 ltac:(lia)).
Defined.

Lemma heap_serves_its_clients_witness :
  let s1 := after_call (Malloc 20) demo_heap in
  areas_ok s1 {[0x1010 := 20]} /\
  exists res s', exec (Realloc 0x1010 40) s1 = Some (res, s') /\ res = 0x1030.
Proof.
  destruct (heap_serves_its_clients _ _ _ _ (Realloc 0x1010 40) demo_region demo_malloc_reach) as [Ha (res & s' & E & _)].
  - split; [lia|]. right. eexists. reflexivity.
  - split; [exact Ha|]. exists res, s'. split; [exact E|].
    assert (fst <$> exec (Realloc 0x1010 40) (after_call (Malloc 20) demo_heap) = Some 0x1030) as E'
      by (vm_compute; reflexivity).
    rewrite E in E'. injection E' as ->. reflexivity.
Defined.

Lemma heap_restored_when_all_freed_witness :
  let s := after_call (Free 0x1010) (after_call (Malloc 20) demo_heap) in
  lfree s = 0 /\ used_mem s = 0 /\ (exists s', rt_malloc 96 s = Some (heap_ptr s + 12, s')) /\ rt_malloc 98 s = Some (0, s).
Proof.
  intros s. assert (reach 0x1001 0x1080 s ∅) as Hr.
  { assert (∅ = after {[0x1010 := 20]} (Free 0x1010) 0) as -> by reflexivity.
    apply (reach_call _ _ (after_call (Malloc 20) demo_heap)); [exact demo_malloc_reach|right; eexists; reflexivity|].
    apply after_call_eq. vm_compute. reflexivity. }
  destruct (heap_restored_when_all_freed _ _ _ demo_region Hr) as (_ & Hl & Hu & Hm).
  split; [exact Hl|]. split; [exact Hu|]. split; [exact (Hm 96 ltac:(lia))|exact (Hm 98 ltac:(lia))].
Defined.

(** A request near [2 ^ 32] wraps around when it is aligned, and is served
    with the smallest block. *)
Lemma malloc_wraps_around : fst <$> rt_malloc 0xFFFFFFFE demo_heap = Some 0x1010.
Proof. vm_compute. reflexivity. Qed.

(** The product of [rt_calloc] wraps around: 65536 objects of 65537 bytes are
    served with 64 KB, here with 4 bytes of 0x40000001 objects. *)
Lemma calloc_wraps_around : fst <$> rt_calloc 0x40000001 4 demo_heap = Some 0x1010.
Proof. vm_compute. reflexivity. Qed.

(** The whole heap can not be allocated although it is free. *)
Lemma malloc_refuses_exact_fit :
  mem_size_aligned demo_heap = 100 /\ fst <$> rt_malloc 100 demo_heap = Some 0 /\
  fst <$> rt_malloc 96 demo_heap = Some 0x1010.
Proof. vm_compute. auto. Qed.
