(* ===== verification/Wakes.v ===== *)
(** * Threads on their way

    An object makes something available in units and wakes a waiting thread for
    each; a woken thread tries again when it runs, and may find that another one
    was faster.  No wake-up is lost as long as, while threads wait on a list, at
    least as many woken ones are on their way as there are units: the account, and
    what the functions of the kernel do to it (KernelSpec.v). *)

From Stdlib Require Import ZArith Lia.
From stdpp Require Import prelude functions list.
From S2P Require Import Prelude Kernel KernelSpec.
Open Scope Z_scope.

Section account.
Implicit Types (k : kernel) (bl : tid -> option qid) (q : qid) (t u : tid).

(** [t] was waiting on [q], has been woken without an error, and has not run
    since. *)
Definition coming k bl q t : Prop :=
  bl t = Some q /\ stat (tcb k t) = RT_THREAD_READY /\ error (tcb k t) = RT_EOK.

Record woken_set k bl q (l : list tid) : Prop := {
  ws_nodup : NoDup l;
  ws_elem t : t ∈ l <-> coming k bl q t
}.

(** At least [avail] threads are on their way while others wait. *)
Definition served k bl q (avail : Z) : Prop :=
  exists l, woken_set k bl q l /\ (waitq k q <> [] -> avail <= Z.of_nat (length l)).

Lemma served_le k bl q a a' : served k bl q a -> a' <= a -> served k bl q a'.
Proof. intros (l & Hl & Ha) Hle. exists l. split; [done|]. intros Hq. specialize (Ha Hq). lia. Qed.

(** Nothing changes for this list, except that threads may have left it. *)
Lemma served_same k bl q a k' bl' :
  served k bl q a -> (forall u, coming k' bl' q u <-> coming k bl q u) -> (waitq k' q <> [] -> waitq k q <> []) ->
  served k' bl' q a.
Proof.
  intros (l & [Hn Hl] & Ha) Hc Hq. exists l. split; [|auto]. split; [done|]. intros u. by rewrite Hc.
Qed.

(** One thread changes: it no longer is on its way. *)
Lemma served_leave k bl q a k' bl' t :
  served k bl q a -> (forall u, u <> t -> coming k' bl' q u <-> coming k bl q u) -> ~ coming k' bl' q t ->
  (waitq k' q <> [] -> waitq k q <> []) -> served k' bl' q (a - 1).
Proof.
  intros (l & [Hn Hl] & Ha) Hc Ht Hq. exists (filter (fun u => u <> t) l). split.
  - split; [by apply NoDup_filter|]. intros u. rewrite list_elem_of_filter, Hl. destruct (decide (u = t)) as [->|Hu]; [tauto|].
    rewrite Hc by done. tauto.
  - intros Hne. specialize (Ha (Hq Hne)). assert (length l <= S (length (filter (fun u => u <> t) l)))%nat; [|lia].
    clear -Hn. induction Hn as [|v l Hv Hn IH]; [cbn; lia|]. destruct (decide (v = t)) as [->|Hvt].
    + rewrite filter_cons_False by auto. rewrite filter_out by done. cbn. lia.
    + rewrite filter_cons_True by done. cbn [length]. lia.
Qed.

(** The same where there is nothing available anyway; other threads may have
    come to wait. *)
Lemma served_none k bl q a k' bl' t a' :
  served k bl q a -> (forall u, u <> t -> coming k' bl' q u <-> coming k bl q u) -> ~ coming k' bl' q t ->
  a' <= 0 -> served k' bl' q a'.
Proof.
  intros (l & [Hn Hl] & Ha) Hc Ht Hq. exists (filter (fun u => u <> t) l). split; [|lia].
  split; [by apply NoDup_filter|]. intros u. rewrite list_elem_of_filter, Hl. destruct (decide (u = t)) as [->|Hu]; [tauto|].
  rewrite Hc by done. tauto.
Qed.

Context {k : kernel} {bl : tid -> option qid} (Hk : waits_ok k bl).

(** One unit more, and the first waiting thread is woken. *)
Lemma served_wake q a : served k bl q a -> served (woken q k) bl q (a + 1).
Proof.
  intros (l & [Hn Hl] & Ha). unfold woken. destruct (waitq k q) as [|h r] eqn:Eq.
  { exists l. split; [by split|]. by rewrite Eq. }
  assert (h ∈ waitq k q) as Hin by (rewrite Eq; left). apply (wait_in _ _ Hk) in Hin as [Hb Hs].
  pose proof (wait_error _ _ Hk h Hs) as He. exists (h :: l). split.
  - split.
    + constructor; [|done]. rewrite Hl. intros (_ & ? & _). congruence.
    + intros u. rewrite elem_of_cons, Hl. unfold coming, resumed. rewrite tcb_alter. cbn [unlink tcb]. case_decide as E.
      * subst. cbn. split; [by intros _|by left].
      * split; [by intros [?|?]|by right].
  - intros _. specialize (Ha ltac:(done)). cbn [length]. lia.
Qed.

Lemma coming_woken q q' u : q' <> q -> coming (woken q k) bl q' u <-> coming k bl q' u.
Proof.
  intros Hq. unfold coming. rewrite tcb_woken. destruct (waitq k q) as [|h r] eqn:Eq; [done|]. case_decide as E; [|done].
  subst. assert (h ∈ waitq k q) as Hin by (rewrite Eq; left). apply (wait_in _ _ Hk) in Hin as [Hb _]. rewrite Hb.
  split; intros [[= ->] _]; done.
Qed.

Lemma served_other q q' a : q' <> q -> served k bl q' a -> served (woken q k) bl q' a.
Proof.
  intros Hq Hs. apply (served_same _ _ _ _ _ _ Hs); [intros u; by apply coming_woken|].
  unfold woken. destruct (waitq k q) as [|h r]; [done|]. rewrite waitq_resumed. intros H E. by rewrite E in H.
Qed.

Lemma waits_woken q : waits_ok (woken q k) bl.
Proof.
  unfold woken. destruct (waitq k q) as [|h r] eqn:Eq; [done|]. apply waits_resumed; [done|].
  apply (waits_suspended _ _ Hk q). rewrite Eq. left.
Qed.

(** Threads that are resumed with an error do not come. *)
Lemma served_error q a k' :
  served k bl q a ->
  (forall u, tcb k' u = tcb k u \/ stat (tcb k u) = RT_THREAD_SUSPEND /\ error (tcb k' u) <> RT_EOK) ->
  (waitq k' q <> [] -> waitq k q <> []) -> served k' bl q a.
Proof.
  intros Hs Hu Hq. apply (served_same _ _ _ _ _ _ Hs); [|done]. intros u. unfold coming.
  destruct (Hu u) as [->|[Es Ee]]; [done|]. split; [intros (_ & _ & ?); done|intros (_ & ? & _); congruence].
Qed.

End account.
