(* ===== verification/MessageQueue.v ===== *)
(** * Message queues

    The message queue of src/rt-thread/src/ipc.c: a pool of nodes, each with room
    for a message, that are linked to a queue and a list of free nodes; threads
    wait for a message or for a free node.  A function is cut where it calls
    [rt_schedule], and where it enables interrupts to copy a message: a node that
    has been taken from a list belongs to the thread that copies. *)

From Stdlib Require Import ZArith Lia.
From stdpp Require Import prelude functions list.
From S2P Require Import Prelude Kernel Mailbox Heap.
Open Scope Z_scope.
Open Scope c_scope.

Module Mq.

Definition RT_MQ_ENTRY_MAX : Z := 0xffff.

(** A node is named by its number in the pool; NULL is [None]. *)
Abbreviation node := nat.

(** [next] is [struct rt_mq_message], [body] the bytes behind it.  [is_mq] is
    [rt_object_get_type(...) == RT_Object_Class_MessageQueue]. *)
Record rt_messagequeue := mk_mq {
  is_mq : bool;
  flag : Z;
  msg_size : Z;
  max_msgs : Z;
  entry : Z;
  msg_queue_head : option node;
  msg_queue_tail : option node;
  msg_queue_free : option node;
  next : node -> option node;
  body : node -> list Z
}.

Record qsys := mk_qsys {
  qs_krn : kernel;
  mq : rt_messagequeue
}.

#[export] Instance qsys_kernel : HasKernel qsys := {|
  krn := qs_krn;
  put_krn k s := mk_qsys k s.(mq)
|}.

Abbreviation Q := (M qsys).

Definition on_mq (f : rt_messagequeue -> rt_messagequeue) : Q unit :=
  modify (fun s => mk_qsys s.(qs_krn) (f s.(mq))).

Definition with_entry (v : Z) (m : rt_messagequeue) : rt_messagequeue :=
  mk_mq m.(is_mq) m.(flag) m.(msg_size) m.(max_msgs) v m.(msg_queue_head) m.(msg_queue_tail) m.(msg_queue_free) m.(next) m.(body).
Definition with_head (p : option node) (m : rt_messagequeue) : rt_messagequeue :=
  mk_mq m.(is_mq) m.(flag) m.(msg_size) m.(max_msgs) m.(entry) p m.(msg_queue_tail) m.(msg_queue_free) m.(next) m.(body).
Definition with_tail (p : option node) (m : rt_messagequeue) : rt_messagequeue :=
  mk_mq m.(is_mq) m.(flag) m.(msg_size) m.(max_msgs) m.(entry) m.(msg_queue_head) p m.(msg_queue_free) m.(next) m.(body).
Definition with_free (p : option node) (m : rt_messagequeue) : rt_messagequeue :=
  mk_mq m.(is_mq) m.(flag) m.(msg_size) m.(max_msgs) m.(entry) m.(msg_queue_head) m.(msg_queue_tail) p m.(next) m.(body).
Definition set_next (n : node) (p : option node) (m : rt_messagequeue) : rt_messagequeue :=
  mk_mq m.(is_mq) m.(flag) m.(msg_size) m.(max_msgs) m.(entry) m.(msg_queue_head) m.(msg_queue_tail) m.(msg_queue_free)
    (<[n := p]> m.(next)) m.(body).
(** [rt_memcpy] to the start of a node's room. *)
Definition write_body (n : node) (buffer : list Z) (m : rt_messagequeue) : rt_messagequeue :=
  mk_mq m.(is_mq) m.(flag) m.(msg_size) m.(max_msgs) m.(entry) m.(msg_queue_head) m.(msg_queue_tail) m.(msg_queue_free)
    m.(next) (<[n := buffer ++ drop (length buffer) (m.(body) n)]> m.(body)).

Definition check_type : Q unit := x <- gets mq ;; if x.(is_mq) then ret tt else undefined.

(** ** Setting up *)

(** The loop of [rt_mq_init]: nodes [temp] to [temp + more - 1]. *)
Fixpoint link_free (more : nat) (temp : node) (m : rt_messagequeue) : rt_messagequeue :=
  match more with
  | O => m
  | S more => link_free more (S temp) (with_free (Some temp) (set_next temp m.(msg_queue_free) m))
  end.

(** [pool]: what the rooms of the nodes contain. *)
Definition rt_mq_init (msg_size_ pool_size flag_ : Z) (pool : node -> list Z) : Q Z :=
  let size := u16 (RT_ALIGN msg_size_ RT_ALIGN_SIZE) in
  let max := u16 (pool_size / (size + 4)) in
  on_mq (fun _ => link_free (Z.to_nat max) 0 (mk_mq true flag_ size max 0 None None None (fun _ => None) pool)) ;;;
  on_krn empty_queues ;;;
  ret RT_EOK.

Definition mq_object_detach : Q unit :=
  on_mq (fun m => mk_mq false m.(flag) m.(msg_size) m.(max_msgs) m.(entry) m.(msg_queue_head) m.(msg_queue_tail)
                    m.(msg_queue_free) m.(next) m.(body)).

(** ** Operations *)

(** A call returns, with the bytes of [rt_mq_recv]; blocks; or goes on with a
    node of its own. *)
Inductive outcome :=
| Done (code : Z) (bytes : option (list Z))
| Blocked (timeout tick_delta : Z)
| Holds (msg : node).

Definition mq_block (q : qid) (t : tid) (timeout : Z) : Q outcome :=
  m <- gets mq ;;
  rt_ipc_list_suspend q t m.(flag) ;;;
  if 0 <? timeout then
    now <- rt_tick_get ;;
    start_timer t timeout ;;;
    ret (Blocked timeout now)
  else ret (Blocked timeout 0).

(** One round of the loop of [rt_mq_send_wait], and taking the free node. *)
Definition mq_send_round (t : tid) (timeout : Z) : Q outcome :=
  m <- gets mq ;;
  match m.(msg_queue_free) with
  | None =>
      set_error t RT_EOK ;;;
      if timeout =? 0 then ret (Done (- RT_EFULL) None)
      else mq_block suspend_sender_thread t timeout
  | Some msg =>
      on_mq (with_free (m.(next) msg)) ;;;
      ret (Holds msg)
  end.

Definition rt_mq_send_wait (t : tid) (buffer : list Z) (timeout : Z) : Q outcome :=
  check_type ;;;
  m <- gets mq ;;
  if (length buffer =? 0)%nat then undefined
  else if m.(msg_size) <? Z.of_nat (length buffer) then ret (Done (- RT_ERROR) None)
  else if bool_decide (m.(msg_queue_free) = None) && (timeout =? 0) then ret (Done (- RT_EFULL) None)
  else mq_send_round t timeout.

Definition rt_mq_send (t : tid) (buffer : list Z) : Q outcome := rt_mq_send_wait t buffer 0.

(** [rt_mq_send_wait] after its call of [rt_schedule]. *)
Definition mq_send_resumed (t : tid) (timeout tick_delta : Z) : Q outcome :=
  th <- thread_of t ;;
  if negb (error th =? RT_EOK) then ret (Done (error th) None) else
  now <- rt_tick_get ;;
  mq_send_round t (remaining timeout tick_delta now).

(** The end of the two functions that send: the message is counted, and a
    receiver is woken. *)
Definition mq_sent : Q outcome :=
  m <- gets mq ;;
  if m.(entry) <? RT_MQ_ENTRY_MAX then
    on_mq (with_entry (m.(entry) + 1)) ;;;
    l <- gets (fun s => waitq (krn s) suspend_thread) ;;
    match l with
    | [] => ret (Done RT_EOK None)
    | _ :: _ => rt_ipc_list_resume suspend_thread ;;; ret (Done RT_EOK None)
    end
  else ret (Done (- RT_EFULL) None).

(** [rt_mq_send_wait] from the copy on. *)
Definition mq_send_link (msg : node) (buffer : list Z) : Q outcome :=
  on_mq (set_next msg None) ;;;
  on_mq (write_body msg buffer) ;;;
  m <- gets mq ;;
  (match m.(msg_queue_tail) with Some p => on_mq (set_next p (Some msg)) | None => ret tt end) ;;;
  on_mq (with_tail (Some msg)) ;;;
  (match m.(msg_queue_head) with None => on_mq (with_head (Some msg)) | Some _ => ret tt end) ;;;
  mq_sent.

Definition rt_mq_urgent (buffer : list Z) : Q outcome :=
  check_type ;;;
  m <- gets mq ;;
  if (length buffer =? 0)%nat then undefined
  else if m.(msg_size) <? Z.of_nat (length buffer) then ret (Done (- RT_ERROR) None)
  else match m.(msg_queue_free) with
       | None => ret (Done (- RT_EFULL) None)
       | Some msg => on_mq (with_free (m.(next) msg)) ;;; ret (Holds msg)
       end.

(** [rt_mq_urgent] from the copy on. *)
Definition mq_urgent_link (msg : node) (buffer : list Z) : Q outcome :=
  on_mq (write_body msg buffer) ;;;
  m <- gets mq ;;
  on_mq (set_next msg m.(msg_queue_head)) ;;;
  on_mq (with_head (Some msg)) ;;;
  (match m.(msg_queue_tail) with None => on_mq (with_tail (Some msg)) | Some _ => ret tt end) ;;;
  mq_sent.

(** One round of the loop of [rt_mq_recv], and unlinking the first message. *)
Definition mq_recv_round (t : tid) (timeout : Z) : Q outcome :=
  m <- gets mq ;;
  if m.(entry) =? 0 then
    set_error t RT_EOK ;;;
    if timeout =? 0 then
      set_error t (- RT_ETIMEOUT) ;;;
      ret (Done (- RT_ETIMEOUT) None)
    else mq_block suspend_thread t timeout
  else
    match m.(msg_queue_head) with
    | None => undefined
    | Some msg =>
        on_mq (with_head (m.(next) msg)) ;;;
        when (bool_decide (m.(msg_queue_tail) = Some msg)) (on_mq (with_tail None)) ;;;
        when (0 <? m.(entry)) (on_mq (with_entry (m.(entry) - 1))) ;;;
        ret (Holds msg)
    end.

Definition rt_mq_recv (t : tid) (size timeout : Z) : Q outcome :=
  check_type ;;;
  m <- gets mq ;;
  if size =? 0 then undefined
  else if (m.(entry) =? 0) && (timeout =? 0) then ret (Done (- RT_ETIMEOUT) None)
  else mq_recv_round t timeout.

(** [rt_mq_recv] after its call of [rt_schedule]. *)
Definition mq_recv_resumed (t : tid) (timeout tick_delta : Z) : Q outcome :=
  th <- thread_of t ;;
  if negb (error th =? RT_EOK) then ret (Done (error th) None) else
  now <- rt_tick_get ;;
  mq_recv_round t (remaining timeout tick_delta now).

(** [rt_mq_recv] from the copy on: the node becomes free, and a sender is
    woken. *)
Definition mq_recv_copy (msg : node) (size : Z) : Q outcome :=
  m <- gets mq ;;
  let bytes := take (Z.to_nat (if m.(msg_size) <? size then m.(msg_size) else size)) (m.(body) msg) in
  on_mq (set_next msg m.(msg_queue_free)) ;;;
  on_mq (with_free (Some msg)) ;;;
  l <- gets (fun s => waitq (krn s) suspend_sender_thread) ;;
  match l with
  | [] => ret (Done RT_EOK (Some bytes))
  | _ :: _ => rt_ipc_list_resume suspend_sender_thread ;;; ret (Done RT_EOK (Some bytes))
  end.

(** The loop of a reset; running out of [fuel] would be a loop that does not
    end. *)
Fixpoint mq_drain (fuel : nat) : Q unit :=
  m <- gets mq ;;
  match m.(msg_queue_head) with
  | None => ret tt
  | Some msg =>
      match fuel with
      | O => undefined
      | S fuel =>
          on_mq (with_head (m.(next) msg)) ;;;
          when (bool_decide (m.(msg_queue_tail) = Some msg)) (on_mq (with_tail None)) ;;;
          on_mq (set_next msg m.(msg_queue_free)) ;;;
          on_mq (with_free (Some msg)) ;;;
          mq_drain fuel
      end
  end.

(** A reset runs with interrupts off. *)
Definition rt_mq_control (cmd : Z) : Q Z :=
  check_type ;;;
  if cmd =? RT_IPC_CMD_RESET then
    rt_ipc_list_resume_all suspend_thread ;;;
    rt_ipc_list_resume_all suspend_sender_thread ;;;
    m <- gets mq ;;
    mq_drain (Z.to_nat m.(max_msgs)) ;;;
    on_mq (with_entry 0) ;;;
    ret RT_EOK
  else ret (- RT_ERROR).

End Mq.
