(* ===== verification/MessageQueueSpec.v ===== *)
(** * The lists of a message queue

    The nodes of a message queue (MessageQueue.v) are split between the queue, the
    free nodes, and those that threads hold; what linking and unlinking do to
    them. *)

From Stdlib Require Import ZArith Lia.
From stdpp Require Import prelude functions list.
From S2P Require Import Prelude Kernel KernelSpec Mailbox Heap MessageQueue.
Import Mq.
Open Scope Z_scope.
Open Scope c_scope.

Implicit Types (m : rt_messagequeue) (n : node) (l : list node).

#[export] Instance qsys_laws : KernelLaws qsys.
Proof. split; [done|done|by intros []]. Qed.

(** ** Linked lists *)

(** The nodes from pointer [p] on, at most [fuel] of them. *)
Fixpoint walk (fuel : nat) (nx : node -> option node) (p : option node) : list node :=
  match fuel, p with
  | S fuel, Some n => n :: walk fuel nx (nx n)
  | _, _ => []
  end.

(** The list from pointer [p] to NULL is [l]. *)
Fixpoint chain (nx : node -> option node) (p : option node) l : Prop :=
  match l with
  | [] => p = None
  | n :: l => p = Some n /\ chain nx (nx n) l
  end.

Lemma chain_walk fuel nx p l : chain nx p l -> (length l <= fuel)%nat -> walk fuel nx p = l.
Proof.
  revert fuel p. induction l as [|n l IH]; intros fuel p; [intros ->; by destruct fuel|].
  intros [-> Hc] Hf. destruct fuel as [|fuel]; [cbn in Hf; lia|]. cbn. f_equal. apply IH; [done|cbn in Hf; lia].
Qed.

Lemma chain_other nx n q p l : n ∉ l -> chain nx p l -> chain (<[n := q]> nx) p l.
Proof.
  revert p. induction l as [|x l IH]; intros p Hn; [done|]. apply not_elem_of_cons in Hn as [Hx Hn].
  intros [-> Hc]. split; [done|]. rewrite fn_lookup_insert_ne by done. by apply IH.
Qed.

(** Behind the last node. *)
Lemma chain_snoc nx p l a n :
  NoDup (l ++ [a]) -> n ∉ l ++ [a] -> chain nx p (l ++ [a]) ->
  chain (<[a := Some n]> (<[n := None]> nx)) p (l ++ [a; n]).
Proof.
  revert p. induction l as [|x l IH]; intros p Hd Hn; cbn [app chain] in *.
  - intros [-> _]. apply not_elem_of_cons in Hn as [Hna _]. split; [done|]. rewrite fn_lookup_insert. split; [done|].
    by rewrite fn_lookup_insert_ne, fn_lookup_insert.
  - intros [-> Hc]. apply NoDup_cons in Hd as [Hx Hd]. apply not_elem_of_cons in Hn as [Hnx Hn]. split; [done|].
    rewrite fn_lookup_insert_ne by (intros ->; apply Hx, elem_of_app; right; by left).
    rewrite fn_lookup_insert_ne by done. by apply IH.
Qed.

(** ** The nodes *)

(** [ql]: the queue; [fl]: the free nodes; [own]: the nodes that threads hold. *)
Record mq_ok m (ql fl own : list node) : Prop := {
  ok_head : chain m.(next) m.(msg_queue_head) ql;
  ok_tail : m.(msg_queue_tail) = last ql;
  ok_free : chain m.(next) m.(msg_queue_free) fl;
  ok_entry : m.(entry) = Z.of_nat (length ql);
  ok_nodup : NoDup (ql ++ fl ++ own);
  ok_all : Z.of_nat (length (ql ++ fl ++ own)) = m.(max_msgs);
  ok_max : m.(max_msgs) < 65536;
  ok_body n : n ∈ ql ++ fl ++ own -> Z.of_nat (length (m.(body) n)) = m.(msg_size);
  ok_flag : ipc_flag m.(flag)
}.

(** The order of the three parts. *)
Lemma ok_parts ql fl own ql' fl' own' m m' :
  mq_ok m ql fl own -> ql' ++ fl' ++ own' ≡ₚ ql ++ fl ++ own ->
  m'.(max_msgs) = m.(max_msgs) -> m'.(msg_size) = m.(msg_size) -> m'.(flag) = m.(flag) ->
  (forall n, n ∈ ql ++ fl ++ own -> length (m'.(body) n) = length (m.(body) n)) ->
  chain m'.(next) m'.(msg_queue_head) ql' -> m'.(msg_queue_tail) = last ql' -> chain m'.(next) m'.(msg_queue_free) fl' ->
  m'.(entry) = Z.of_nat (length ql') -> mq_ok m' ql' fl' own'.
Proof.
  intros [H1 H2 H3 H4 H5 H6 H7 H8 H9] Hp E1 E2 E3 Hb G1 G2 G3 G4. split; rewrite ?E1, ?E2, ?E3; try done.
  - by rewrite Hp.
  - by rewrite Hp.
  - intros n Hn. rewrite Hp in Hn. rewrite Hb by done. by apply H8.
Qed.

(** A free node is taken. *)
Lemma ok_take m ql n fl own :
  mq_ok m ql (n :: fl) own -> mq_ok (with_free (m.(next) n) m) ql fl (n :: own).
Proof.
  intros Hm. pose proof Hm as [H1 H2 [H3 H3'] H4 H5 H6 H7 H8]. apply (ok_parts _ _ _ _ _ _ m _ Hm); try done.
  apply Permutation_app_head. symmetry. apply Permutation_middle.
Qed.

Lemma ok_fresh_free m ql n fl own : mq_ok m ql (n :: fl) own -> n ∉ own.
Proof.
  intros Hm. pose proof (ok_nodup _ _ _ _ Hm) as Hd. apply NoDup_app in Hd as (_ & _ & Hd). cbn in Hd. apply NoDup_cons in Hd as [Hd _].
  intros Hin. apply Hd, elem_of_app. by right.
Qed.

(** A node that is held becomes the last one of the queue. *)
Definition linked (n : node) (buffer : list Z) m : rt_messagequeue :=
  let m1 := write_body n buffer (set_next n None m) in
  let m2 := match m.(msg_queue_tail) with Some p => set_next p (Some n) m1 | None => m1 end in
  let m3 := with_tail (Some n) m2 in
  let m4 := match m.(msg_queue_head) with None => with_head (Some n) m3 | Some _ => m3 end in
  with_entry (m.(entry) + 1) m4.

Lemma length_write m n buffer x :
  Z.of_nat (length buffer) <= Z.of_nat (length (m.(body) n)) ->
  length ((write_body n buffer m).(body) x) = length (m.(body) x).
Proof.
  intros Hb. cbn [write_body body]. destruct (decide (x = n)) as [->|Hx]; [|by rewrite fn_lookup_insert_ne].
  rewrite fn_lookup_insert, length_app, length_drop. lia.
Qed.

Lemma ok_link m ql fl own1 own2 n buffer :
  mq_ok m ql fl (own1 ++ n :: own2) -> Z.of_nat (length buffer) <= m.(msg_size) ->
  let m' := linked n buffer m in
  mq_ok m' (ql ++ [n]) fl (own1 ++ own2) /\ (forall x, m'.(body) x = <[n := buffer ++ drop (length buffer) (m.(body) n)]> m.(body) x).
Proof.
  intros Hm Hb m'. pose proof Hm as [H1 H2 H3 H4 H5 H6 H7 H8 H9].
  assert (forall x, body m' x = <[n := buffer ++ drop (length buffer) (body m n)]> (body m) x) as Ebody
    by (intros x; unfold m', linked; by destruct (msg_queue_tail m), (msg_queue_head m)).
  split; [|exact Ebody].
  assert (n ∈ ql ++ fl ++ own1 ++ n :: own2) as Hin by (rewrite !elem_of_app, elem_of_cons; tauto).
  assert ((n ∉ ql) /\ (n ∉ fl)) as [Hnq Hnf].
  { rewrite !app_assoc in H5. rewrite <- (app_assoc ql) in H5. split; intros Hx; rewrite !NoDup_app in H5;
      destruct H5 as (H51 & H52 & _); (apply (H52 n); [rewrite !elem_of_app; tauto|by left]). }
  assert (NoDup ql) as Hqd by (by apply NoDup_app in H5 as [? _]).
  assert (forall x, x ∈ ql -> x ∉ fl) as Hqf.
  { intros x Hx Hf. apply NoDup_app in H5 as (_ & H5 & _). apply (H5 x Hx). apply elem_of_app. by left. }
  apply (ok_parts _ _ _ _ _ _ m _ Hm).
  - rewrite <- app_assoc. apply Permutation_app_head. cbn [app]. rewrite (app_assoc fl own1 (n :: own2)), (app_assoc fl own1 own2).
    apply Permutation_middle.
  - unfold m', linked. by destruct (msg_queue_tail m), (msg_queue_head m).
  - unfold m', linked. by destruct (msg_queue_tail m), (msg_queue_head m).
  - unfold m', linked. by destruct (msg_queue_tail m), (msg_queue_head m).
  - intros x Hx. rewrite Ebody. apply (length_write m n buffer x). rewrite H8 by done. done.
  - unfold m', linked. destruct ql as [|a ql _] using rev_ind.
    + cbn in H1, H2. rewrite H1, H2. cbn. split; [done|]. by rewrite fn_lookup_insert.
    + rewrite last_snoc in H2. rewrite H2. assert (msg_queue_head m <> None) as Hne by (destruct ql; destruct H1 as [-> _]; done).
      destruct (msg_queue_head m) as [h|] eqn:Eh; [|done]. cbn [with_entry with_tail set_next write_body next msg_queue_head].
      rewrite <- app_assoc, Eh. by apply chain_snoc.
  - rewrite last_snoc. unfold m', linked. by destruct (msg_queue_tail m), (msg_queue_head m).
  - assert (msg_queue_free m' = msg_queue_free m) as -> by (unfold m', linked; by destruct (msg_queue_tail m), (msg_queue_head m)).
    assert (next m' = match msg_queue_tail m with Some p => <[p := Some n]> (<[n := None]> (next m)) | None => <[n := None]> (next m) end) as ->
      by (unfold m', linked; by destruct (msg_queue_tail m), (msg_queue_head m)).
    assert (chain (<[n := None]> (next m)) (msg_queue_free m) fl) by (by apply chain_other).
    destruct (msg_queue_tail m) as [p|]; [|done]. apply chain_other; [|done]. apply Hqf. symmetry in H2. by apply last_Some_elem_of in H2.
  - assert (entry m' = entry m + 1) as -> by (unfold m', linked; by destruct (msg_queue_tail m), (msg_queue_head m)).
    rewrite H4, length_app. cbn. lia.
Qed.

(** A node that is held becomes the first one of the queue. *)
Definition pushed (n : node) (buffer : list Z) m : rt_messagequeue :=
  let m1 := with_head (Some n) (set_next n m.(msg_queue_head) (write_body n buffer m)) in
  let m2 := match m.(msg_queue_tail) with None => with_tail (Some n) m1 | Some _ => m1 end in
  with_entry (m.(entry) + 1) m2.

(** The parts are disjoint. *)
Lemma ok_disjoint m ql fl own1 n own2 :
  mq_ok m ql fl (own1 ++ n :: own2) -> (n ∉ ql) /\ (n ∉ fl) /\ n ∈ ql ++ fl ++ own1 ++ n :: own2.
Proof.
  intros Hm. pose proof (ok_nodup _ _ _ _ Hm) as Hd. split_and!; [| |rewrite !elem_of_app, elem_of_cons; tauto];
    intros Hx; apply NoDup_app in Hd as (_ & Hq & Hd).
  - apply (Hq n Hx). rewrite !elem_of_app, elem_of_cons. tauto.
  - apply NoDup_app in Hd as (_ & Hf & _). apply (Hf n Hx). rewrite !elem_of_app, elem_of_cons. tauto.
Qed.

Lemma ok_push m ql fl own1 own2 n buffer :
  mq_ok m ql fl (own1 ++ n :: own2) -> Z.of_nat (length buffer) <= m.(msg_size) ->
  let m' := pushed n buffer m in
  mq_ok m' (n :: ql) fl (own1 ++ own2) /\ (forall x, m'.(body) x = <[n := buffer ++ drop (length buffer) (m.(body) n)]> m.(body) x).
Proof.
  intros Hm Hb m'. pose proof Hm as [H1 H2 H3 H4 H5 H6 H7 H8 H9]. destruct (ok_disjoint _ _ _ _ _ _ Hm) as (Hnq & Hnf & Hin).
  assert (forall x, body m' x = <[n := buffer ++ drop (length buffer) (body m n)]> (body m) x) as Ebody
    by (intros x; unfold m', pushed; by destruct (msg_queue_tail m)).
  split; [|exact Ebody].
  assert (next m' = <[n := msg_queue_head m]> (next m)) as Enext by (unfold m', pushed; by destruct (msg_queue_tail m)).
  apply (ok_parts _ _ _ _ _ _ m _ Hm); try (unfold m', pushed; by destruct (msg_queue_tail m)).
  - cbn [app]. rewrite (app_assoc fl own1 (n :: own2)), (app_assoc fl own1 own2), (app_assoc ql _ (n :: own2)), (app_assoc ql _ own2).
    apply Permutation_middle.
  - intros x Hx. rewrite Ebody. apply (length_write m n buffer x). rewrite H8 by done. done.
  - rewrite Enext. split; [unfold m', pushed; by destruct (msg_queue_tail m)|]. rewrite fn_lookup_insert. by apply chain_other.
  - unfold m', pushed. rewrite H2. destruct ql as [|a ql _] using rev_ind; [done|]. rewrite app_comm_cons, !last_snoc. cbn. by rewrite H2, last_snoc.
  - rewrite Enext. assert (msg_queue_free m' = msg_queue_free m) as -> by (unfold m', pushed; by destruct (msg_queue_tail m)).
    by apply chain_other.
  - assert (entry m' = entry m + 1) as -> by (unfold m', pushed; by destruct (msg_queue_tail m)). rewrite H4. cbn. lia.
Qed.

(** The first node of the queue is taken. *)
Definition unlinked (n : node) m : rt_messagequeue :=
  let m1 := with_head (m.(next) n) m in
  let m2 := if bool_decide (m.(msg_queue_tail) = Some n) then with_tail None m1 else m1 in
  if 0 <? m.(entry) then with_entry (m.(entry) - 1) m2 else m2.

Lemma ok_unlink m n ql fl own : mq_ok m (n :: ql) fl own -> mq_ok (unlinked n m) ql fl (n :: own).
Proof.
  intros Hm. pose proof Hm as [[H1 H1'] H2 H3 H4 H5 H6 H7 H8 H9]. unfold unlinked.
  assert ((0 <? entry m) = true) as -> by (rewrite H4; cbn [length]; apply Z.ltb_lt; lia).
  apply (ok_parts _ _ _ _ _ _ m _ Hm); try (by case_bool_decide).
  - cbn [app]. rewrite (app_assoc ql fl (n :: own)), (app_assoc ql fl own). symmetry. apply Permutation_middle.
  - destruct ql as [|a ql _] using rev_ind.
    + cbn in H2. by rewrite H2, bool_decide_true.
    + rewrite app_comm_cons, last_snoc in H2. rewrite last_snoc, H2, bool_decide_false; [done|].
      intros [= ->]. cbn in H5. apply NoDup_cons in H5 as [H5 _]. apply H5. rewrite !elem_of_app, elem_of_cons. tauto.
  - assert (forall b, entry (with_entry (entry m - 1) b) = entry m - 1) as -> by done. rewrite H4. cbn. lia.
Qed.

(** A node that is held becomes free. *)
Definition freed (n : node) m : rt_messagequeue := with_free (Some n) (set_next n m.(msg_queue_free) m).

Lemma ok_give m ql fl own1 own2 n : mq_ok m ql fl (own1 ++ n :: own2) -> mq_ok (freed n m) ql (n :: fl) (own1 ++ own2).
Proof.
  intros Hm. pose proof Hm as [H1 H2 H3 H4 H5 H6 H7 H8 H9]. destruct (ok_disjoint _ _ _ _ _ _ Hm) as (Hnq & Hnf & _).
  apply (ok_parts _ _ _ _ _ _ m _ Hm); try done.
  - apply Permutation_app_head. cbn [app]. rewrite (app_assoc fl own1 (n :: own2)), (app_assoc fl own1 own2). apply Permutation_middle.
  - by apply chain_other.
  - split; [done|]. cbn [freed with_free set_next next]. rewrite fn_lookup_insert. by apply chain_other.
Qed.

(** ** Reset *)

Lemma drain_spec fuel k m ql fl own :
  mq_ok m ql fl own -> (length ql <= fuel)%nat ->
  exists m' fl', mq_drain fuel (mk_qsys k m) = Some (tt, mk_qsys k m') /\ mq_ok (with_entry 0 m') [] fl' own /\
    m'.(body) = m.(body) /\ m'.(max_msgs) = m.(max_msgs) /\ m'.(msg_size) = m.(msg_size).
Proof.
  (* the loop leaves [entry] alone, which is corrected behind it *)
  assert (forall fuel m ql fl, mq_ok (with_entry (Z.of_nat (length ql)) m) ql fl own -> (length ql <= fuel)%nat ->
    exists m' fl', mq_drain fuel (mk_qsys k m) = Some (tt, mk_qsys k m') /\ mq_ok (with_entry 0 m') [] fl' own /\
      m'.(body) = m.(body) /\ m'.(max_msgs) = m.(max_msgs) /\ m'.(msg_size) = m.(msg_size)) as Hloop.
  { clear m ql fl fuel. induction fuel as [|fuel IH]; intros m ql fl Hm Hf; destruct ql as [|n ql]; try (cbn in Hf; lia).
    - exists m, fl. pose proof (ok_head _ _ _ _ Hm) as Hh. cbn in Hh. cbn [mq_drain]. unfold bind, gets. cbn [mq]. rewrite Hh. by split_and!.
    - exists m, fl. pose proof (ok_head _ _ _ _ Hm) as Hh. cbn in Hh. cbn [mq_drain]. unfold bind, gets. cbn [mq]. rewrite Hh. by split_and!.
    - pose proof (ok_head _ _ _ _ Hm) as [Hh _]. cbn in Hh. cbn [mq_drain]. unfold bind at 1, gets at 1. cbn [mq]. rewrite Hh.
      set (m1 := freed n (let m1 := with_head (next m n) m in if bool_decide (msg_queue_tail m = Some n) then with_tail None m1 else m1)).
      destruct (IH m1 ql (n :: fl)) as (m' & fl' & E & Hm' & Eb & Em & Ei).
      + pose proof (ok_give _ _ _ [] _ _ (ok_unlink _ _ _ _ _ Hm)) as Hg. revert Hg. unfold unlinked.
        cbn [with_entry entry msg_queue_tail length]. rewrite (proj2 (Z.ltb_lt 0 (Z.of_nat (S (length ql))))) by lia.
        replace (Z.of_nat (S (length ql)) - 1) with (Z.of_nat (length ql)) by lia. unfold m1. by case_bool_decide.
      + cbn in Hf. lia.
      + exists m', fl'. rewrite Eb, Em, Ei. split; [|unfold m1; by case_bool_decide].
        rewrite <- E. unfold m1. by case_bool_decide. }
  intros Hm Hf. apply (Hloop fuel m ql fl); [|done]. destruct Hm as [H1 H2 H3 H4 H5 H6 H7 H8 H9]. by split.
Qed.

(** ** Setting up *)

Lemma link_free_spec more temp m fl :
  chain m.(next) m.(msg_queue_free) fl -> (forall n, n ∈ fl -> (n < temp)%nat) ->
  let m' := link_free more temp m in
  chain m'.(next) m'.(msg_queue_free) (rev (seq temp more) ++ fl) /\
  m'.(body) = m.(body) /\ m'.(max_msgs) = m.(max_msgs) /\ m'.(msg_size) = m.(msg_size) /\ m'.(flag) = m.(flag) /\
  m'.(entry) = m.(entry) /\ m'.(msg_queue_head) = m.(msg_queue_head) /\ m'.(msg_queue_tail) = m.(msg_queue_tail) /\ m'.(is_mq) = m.(is_mq).
Proof.
  revert temp m fl. induction more as [|more IH]; intros temp m fl Hc Hl; cbn [link_free seq rev]; [by split_and!|].
  destruct (IH (S temp) (freed temp m) (temp :: fl)) as (H1 & H2).
  - split; [done|]. cbn [freed with_free set_next next]. rewrite fn_lookup_insert. apply chain_other; [|done].
    intros Hin. apply Hl in Hin. lia.
  - intros n Hn. apply elem_of_cons in Hn as [->|Hn]; [lia|]. apply Hl in Hn. lia.
  - rewrite <- app_assoc. by split.
Qed.

Lemma mq_init_ok msg_size_ pool_size flag_ pool c :
  ipc_flag flag_ -> 0 <= pool_size ->
  let size := u16 (RT_ALIGN msg_size_ RT_ALIGN_SIZE) in
  (forall n, Z.of_nat (length (pool n)) = size) ->
  exists c' fl, rt_mq_init msg_size_ pool_size flag_ pool c = Some (RT_EOK, c') /\ mq_ok (mq c') [] fl [] /\
    is_mq (mq c') = true /\ max_msgs (mq c') = u16 (pool_size / (size + 4)) /\ qs_krn c' = empty_queues (qs_krn c).
Proof.
  intros Hf Hp size Hpool. set (max := u16 (pool_size / (size + 4))). pose proof (u16_range (pool_size / (size + 4))) as Hmax. fold max in Hmax.
  destruct (link_free_spec (Z.to_nat max) 0 (mk_mq true flag_ size max 0 None None None (fun _ => None) pool) []) as (H1 & H2 & H3 & H4 & H5 & H6 & H7 & H8 & H9).
  { done. } { intros n Hn. by apply elem_of_nil in Hn. }
  set (m' := link_free _ _ _) in *. exists (mk_qsys (empty_queues (qs_krn c)) m'), (rev (seq 0 (Z.to_nat max))).
  split; [reflexivity|]. cbn [mq qs_krn]. split; [|by split_and!].
  rewrite app_nil_r in H1. split; rewrite ?H3, ?H4, ?H5, ?H6, ?H7, ?H8; try done; cbn [max_msgs].
  - rewrite app_nil_r. cbn [app]. rewrite <- Permutation_rev. apply NoDup_ListNoDup, seq_NoDup.
  - rewrite app_nil_r. cbn [app]. rewrite length_rev, length_seq. lia.
  - lia.
  - intros n _. rewrite H2. apply Hpool.
Qed.
