(* ===== verification/MessageQueueSystem.v ===== *)
(** * Threads sharing a message queue

    Any number of threads send, send urgently, receive, block, time out, reset and
    detach one message queue, in any order and under any schedule.  A step is a
    piece of MessageQueue.v. *)

From Stdlib Require Import ZArith Lia.
From stdpp Require Import prelude functions list.
From S2P Require Import Prelude Kernel KernelSpec Wakes Mailbox MailboxSpec Heap MessageQueue MessageQueueSpec.
Import Mq.
Open Scope Z_scope.
Open Scope c_scope.

Module MqSystem.

(** ** Steps *)

(** Where a thread is: outside, waiting in a call, copying a message into or out
    of a node that it holds, or detaching. *)
Inductive pc :=
| Idle
| Sending (buffer : list Z) (timeout tick_delta : Z)
| Receiving (size timeout tick_delta : Z)
| Linking (urgent : bool) (msg : node) (buffer : list Z)
| Copying (msg : node) (size : Z)
| Detaching (q : qid)
| Resuming (q : qid).

Record sys := mk_sys {
  core : qsys;
  pcs : tid -> pc
}.

Inductive action :=
| ASend (t : tid) (buffer : list Z) (timeout : Z)
| AUrgent (t : tid) (buffer : list Z)
| ARecv (t : tid) (size timeout : Z)
| ARun (t : tid)
| ATimeout (t : tid)
| ATick
| AReset (t : tid)
| ADetach (t : tid).

(** What a step means for the users of the queue: a message enters it, in order
    or first; thread [t] takes the first one, and later gets its bytes. *)
Inductive qlabel := LSent (buffer : list Z) | LUrgent (buffer : list Z) | LTake (t : tid) | LGot (t : tid) (size : Z) (bytes : list Z) | LReset | LTau.

Definition move (k : qsys) (t : tid) (p : pc) (s : sys) : sys := mk_sys k (<[t := p]> s.(pcs)).

Definition after_send (t : tid) (buffer : list Z) (r : option (outcome * qsys)) (s : sys) : option (qlabel * sys) :=
  match r with
  | Some (Done _ _, k) => Some (LTau, move k t Idle s)
  | Some (Blocked timeout d, k) => Some (LTau, move k t (Sending buffer timeout d) s)
  | Some (Holds msg, k) => Some (LTau, move k t (Linking false msg buffer) s)
  | None => None
  end.

Definition after_link (t : tid) (l : qlabel) (r : option (outcome * qsys)) (s : sys) : option (qlabel * sys) :=
  match r with
  | Some (Done c _, k) => Some (if c =? RT_EOK then l else LTau, move k t Idle s)
  | _ => None
  end.

Definition after_recv (t : tid) (size : Z) (r : option (outcome * qsys)) (s : sys) : option (qlabel * sys) :=
  match r with
  | Some (Done _ (Some bytes), k) => Some (LGot t size bytes, move k t Idle s)
  | Some (Done _ None, k) => Some (LTau, move k t Idle s)
  | Some (Blocked timeout d, k) => Some (LTau, move k t (Receiving size timeout d) s)
  | Some (Holds msg, k) => Some (LTake t, move k t (Copying msg size) s)
  | None => None
  end.

Definition mq_step (a : action) (s : sys) : option (qlabel * sys) :=
  match a with
  | ASend t buffer timeout => after_send t buffer (rt_mq_send_wait t buffer timeout s.(core)) s
  | AUrgent t buffer =>
      match rt_mq_urgent buffer s.(core) with
      | Some (Holds msg, k) => Some (LTau, move k t (Linking true msg buffer) s)
      | Some (Done _ _, k) => Some (LTau, move k t Idle s)
      | _ => None
      end
  | ARecv t size timeout => after_recv t size (rt_mq_recv t size timeout s.(core)) s
  | ARun t =>
      match s.(pcs) t with
      | Idle => None
      | Sending buffer timeout d => after_send t buffer (mq_send_resumed t timeout d s.(core)) s
      | Receiving size timeout d => after_recv t size (mq_recv_resumed t timeout d s.(core)) s
      | Linking false msg buffer => after_link t (LSent buffer) (mq_send_link msg buffer s.(core)) s
      | Linking true msg buffer => after_link t (LUrgent buffer) (mq_urgent_link msg buffer s.(core)) s
      | Copying msg size => after_recv t size (mq_recv_copy msg size s.(core)) s
      | Detaching q =>
          match resume_all_test q s.(core) with
          | Some (false, k) => Some (LTau, move k t (Resuming q) s)
          | Some (true, k) =>
              if (q =? suspend_thread)%nat then Some (LTau, move k t (Detaching suspend_sender_thread) s)
              else match mq_object_detach k with
                   | Some (_, k) => Some (LTau, move k t Idle s)
                   | None => None
                   end
          | None => None
          end
      | Resuming q =>
          match resume_all_round q s.(core) with
          | Some (_, k) => Some (LTau, move k t (Detaching q) s)
          | None => None
          end
      end
  | ATimeout t =>
      match expire_thread t s.(core) with
      | Some (_, k) => Some (LTau, mk_sys k s.(pcs))
      | None => None
      end
  | ATick =>
      let k := qs_krn s.(core) in
      Some (LTau, mk_sys (mk_qsys (mk_kernel (u32 (k.(rt_tick) + 1)) k.(tcb) k.(waitq)) (mq s.(core))) s.(pcs))
  | AReset t =>
      match rt_mq_control RT_IPC_CMD_RESET s.(core) with
      | Some (_, k) => Some (LReset, mk_sys k s.(pcs))
      | None => None
      end
  | ADetach t => if is_mq (mq s.(core)) then Some (LTau, move s.(core) t (Detaching suspend_thread) s) else None
  end.

(** ** When a step can happen *)

Definition thr (s : sys) (t : tid) : rt_thread := tcb (qs_krn s.(core)) t.

Definition can_call (s : sys) (t : tid) : Prop :=
  s.(pcs) t = Idle /\ stat (thr s t) = RT_THREAD_READY /\ is_mq (mq s.(core)) = true.

Definition timeout_ok (timeout : Z) : Prop := - 2 ^ 31 <= timeout < 2 ^ 31 - 1.

(** A woken thread runs within 2^31 ticks of having blocked. *)
Definition in_time (s : sys) (t : tid) : Prop :=
  match s.(pcs) t with
  | Sending _ timeout d | Receiving _ timeout d => 0 < timeout -> elapsed d (rt_tick (qs_krn s.(core))) < 2 ^ 31
  | _ => True
  end.

(** The body of the loop of a detach finds the list empty that its test has found
    not empty: in between the last waiting thread has timed out, or was resumed by
    someone else. *)
Definition overtaken (a : action) (s : sys) : Prop :=
  match a with
  | ARun t => match s.(pcs) t with Resuming q => waitq (qs_krn s.(core)) q = [] | _ => False end
  | _ => False
  end.

#[export] Instance overtaken_dec a s : Decision (overtaken a s).
Proof. destruct a as [| | |t| | | |]; try apply _. cbn. destruct (pcs s t); apply _. Defined.

Lemma mq_overtaken a s : overtaken a s -> mq_step a s = None.
Proof.
  destruct a as [| | |t| | | |]; try done. cbn [overtaken mq_step]. destruct (pcs s t); try done.
  unfold resume_all_round, bind, gets. intros E. change (krn (core s)) with (qs_krn (core s)). by rewrite E.
Qed.

(** Calls are made on a queue that exists, by threads that are not in the middle of
    another call; messages and buffers are not empty; timeouts are what the timer
    accepts. *)
Definition enabled (a : action) (s : sys) : Prop :=
  match a with
  | ASend t buffer timeout => can_call s t /\ buffer <> [] /\ timeout_ok timeout
  | AUrgent t buffer => can_call s t /\ buffer <> []
  | ARecv t size timeout => can_call s t /\ 0 < size /\ timeout_ok timeout
  | ARun t => s.(pcs) t <> Idle /\ stat (thr s t) = RT_THREAD_READY /\ in_time s t
  | ATimeout t => stat (thr s t) = RT_THREAD_SUSPEND /\ thread_timer (thr s t) <> None
  | ATick => True
  | AReset t | ADetach t => can_call s t
  end.

(** After [rt_mq_init], with every thread ready. *)
Definition initial (s : sys) : Prop :=
  (exists fl, mq_ok (mq s.(core)) [] fl []) /\ (forall q, waitq (qs_krn s.(core)) q = []) /\
  (forall t, s.(pcs) t = Idle /\ stat (thr s t) = RT_THREAD_READY).

Inductive reach (s0 : sys) : sys -> Prop :=
| reach_start : initial s0 -> reach s0 s0
| reach_step s a l s' : reach s0 s -> enabled a s -> mq_step a s = Some (l, s') -> reach s0 s'.

(** ** What the users see *)

Definition capacity (s : sys) : Z := max_msgs (mq s.(core)).
Definition queued (s : sys) : list node := let m := mq s.(core) in walk (Z.to_nat (max_msgs m)) (next m) (msg_queue_head m).
Definition free_nodes (s : sys) : list node := let m := mq s.(core) in walk (Z.to_nat (max_msgs m)) (next m) (msg_queue_free m).
(** The messages in the queue, the first one first. *)
Definition queue (s : sys) : list (list Z) := map (body (mq s.(core))) (queued s).
(** The message that [t] has taken and not yet got. *)
Definition taken (s : sys) (t : tid) : option (list Z) :=
  match s.(pcs) t with Copying msg _ => Some (body (mq s.(core)) msg) | _ => None end.

(** A queue of messages of [size] bytes each, of which a sender gives the first
    ones. *)
Definition spec_step (size : Z) (q : list (list Z)) (h : tid -> option (list Z)) (l : qlabel)
    (q' : list (list Z)) (h' : tid -> option (list Z)) : Prop :=
  match l with
  | LSent buffer => exists x, q' = q ++ [x] /\ take (length buffer) x = buffer /\ Z.of_nat (length x) = size /\ forall t, h' t = h t
  | LUrgent buffer => exists x, q' = x :: q /\ take (length buffer) x = buffer /\ Z.of_nat (length x) = size /\ forall t, h' t = h t
  | LTake t => exists x, q = x :: q' /\ h t = None /\ forall u, h' u = if decide (u = t) then Some x else h u
  | LGot t n bytes => exists x, h t = Some x /\ bytes = take (Z.to_nat n) x /\ q' = q /\ forall u, h' u = if decide (u = t) then None else h u
  | LReset => q' = [] /\ forall t, h' t = h t
  | LTau => q' = q /\ forall t, h' t = h t
  end.

(** ** The invariant *)

Definition bl_pc (p : pc) : option qid :=
  match p with Sending _ _ _ => Some suspend_sender_thread | Receiving _ _ _ => Some suspend_thread | _ => None end.
Definition bl (s : sys) (t : tid) : option qid := bl_pc (s.(pcs) t).
Definition holds (p : pc) : option node := match p with Linking _ n _ | Copying n _ => Some n | _ => None end.

Definition pc_ok (size : Z) (p : pc) : Prop :=
  match p with
  | Sending buffer timeout _ => buffer <> [] /\ Z.of_nat (length buffer) <= size /\ timeout_ok timeout
  | Receiving n timeout _ => 0 < n /\ timeout_ok timeout
  | Linking _ _ buffer => Z.of_nat (length buffer) <= size
  | Copying _ n => 0 < n
  | Detaching q | Resuming q => q = suspend_thread \/ q = suspend_sender_thread
  | Idle => True
  end.

Record inv (s : sys) : Prop := {
  inv_waits : waits_ok (qs_krn s.(core)) (bl s);
  inv_pcs t : pc_ok (msg_size (mq s.(core))) (s.(pcs) t);
  inv_inj t u n : holds (s.(pcs) t) = Some n -> holds (s.(pcs) u) = Some n -> t = u;
  inv_mq : exists ql fl own,
    mq_ok (mq s.(core)) ql fl own /\ (forall n, n ∈ own <-> exists t, holds (s.(pcs) t) = Some n) /\
    served (qs_krn s.(core)) (bl s) suspend_thread (Z.of_nat (length ql)) /\
    served (qs_krn s.(core)) (bl s) suspend_sender_thread (Z.of_nat (length fl))
}.

Lemma waits_ext k b b' : (forall t, b' t = b t) -> waits_ok k b -> waits_ok k b'.
Proof.
  intros E [H1 H2 H3 H4]. split; [intros t q; rewrite E; apply H1|done|intros t; rewrite E; apply H3|done].
Qed.

Lemma served_ext k b b' q a : (forall t, b' t = b t) -> served k b q a -> served k b' q a.
Proof. intros E Hs. apply (served_same _ _ _ _ _ _ Hs); [|done]. intros u. unfold coming. by rewrite E. Qed.

Lemma bl_move k t p s u : bl (move k t p s) u = <[t := bl_pc p]> (bl s) u.
Proof.
  unfold bl, move. cbn [pcs]. destruct (decide (u = t)) as [->|Hu]; [by rewrite !fn_lookup_insert|by rewrite !fn_lookup_insert_ne].
Qed.

Lemma mq_initial_inv s : initial s -> inv s.
Proof.
  intros ((fl & Hm) & Hq & Ht). assert (forall t, bl s t = None) as Hb by (intros t; unfold bl; by destruct (Ht t) as [-> _]).
  assert (forall q a, served (qs_krn (core s)) (bl s) q a) as Hs.
  { intros q a. exists []. rewrite Hq. split; [|done]. split; [constructor|]. intros t. split; [by intros ?%not_elem_of_nil|].
    intros [E _]. rewrite Hb in E. done. }
  split.
  - split.
    + intros t q. rewrite Hq, Hb. split; [by intros ?%not_elem_of_nil|by intros [? _]].
    + intros q. rewrite Hq. constructor.
    + intros t _. apply Ht.
    + intros t E. destruct (Ht t) as [_ E']. unfold thr in E'. congruence.
  - intros t. by destruct (Ht t) as [-> _].
  - intros t u n. destruct (Ht t) as [-> _]. done.
  - exists [], fl, []. split_and!; try done. intros n. split; [by intros ?%not_elem_of_nil|].
    intros [t E]. destruct (Ht t) as [E' _]. by rewrite E' in E.
Qed.

(** The listings are the lists of the invariant. *)
Lemma ok_listing m ql fl own :
  mq_ok m ql fl own ->
  walk (Z.to_nat (max_msgs m)) (next m) (msg_queue_head m) = ql /\ walk (Z.to_nat (max_msgs m)) (next m) (msg_queue_free m) = fl.
Proof.
  intros [H1 _ H3 _ _ H6 _ _ _]. rewrite !length_app in H6. split; apply chain_walk; try done; lia.
Qed.

(** What a step has to show. *)
Definition good (s : sys) (r : option (qlabel * sys)) : Prop :=
  exists l s', r = Some (l, s') /\ inv s' /\ capacity s' = capacity s /\ msg_size (mq s'.(core)) = msg_size (mq s.(core)) /\
    spec_step (msg_size (mq s.(core))) (queue s) (taken s) l (queue s') (taken s').

(** Thread [t] goes to [p]. *)
Lemma inv_move s t p k' m' ql fl own :
  inv s -> waits_ok k' (<[t := bl_pc p]> (bl s)) -> pc_ok (msg_size (mq s.(core))) p -> msg_size m' = msg_size (mq s.(core)) ->
  mq_ok m' ql fl own ->
  (forall n, n ∈ own <-> holds p = Some n \/ exists u, u <> t /\ holds (s.(pcs) u) = Some n) ->
  (forall u n, u <> t -> holds p = Some n -> holds (s.(pcs) u) <> Some n) ->
  served k' (<[t := bl_pc p]> (bl s)) suspend_thread (Z.of_nat (length ql)) ->
  served k' (<[t := bl_pc p]> (bl s)) suspend_sender_thread (Z.of_nat (length fl)) ->
  inv (move (mk_qsys k' m') t p s).
Proof.
  intros Hs Hw Hp Em Hm Ho Hi H1 H2. assert (forall u, bl (move (mk_qsys k' m') t p s) u = <[t := bl_pc p]> (bl s) u) as Hb by (intros u; apply bl_move).
  split; cbn [core qs_krn mq move].
  - by apply (waits_ext _ _ _ Hb).
  - intros u. rewrite Em. cbn [pcs move]. destruct (decide (u = t)) as [->|Hu]; [by rewrite fn_lookup_insert|].
    rewrite fn_lookup_insert_ne by done. apply Hs.
  - intros u v n. cbn [pcs move]. destruct (decide (u = t)) as [->|Hu]; destruct (decide (v = t)) as [->|Hv]; try done;
      rewrite ?fn_lookup_insert; rewrite ?fn_lookup_insert_ne by done.
    + intros E1 E2. by destruct (Hi v n Hv E1).
    + intros E1 E2. by destruct (Hi u n Hu E2).
    + apply Hs.
  - exists ql, fl, own. split; [done|]. split; [|split; by apply (served_ext _ _ _ _ _ Hb)].
    intros n. rewrite Ho. cbn [pcs move]. split.
    + intros [E|(u & Hu & E)]; [exists t; by rewrite fn_lookup_insert|exists u; by rewrite fn_lookup_insert_ne].
    + intros [u E]. destruct (decide (u = t)) as [->|Hu]; [rewrite fn_lookup_insert in E; by left|].
      rewrite fn_lookup_insert_ne in E by done. right. by exists u.
Qed.

Lemma queue_of m ql fl own k f : mq_ok m ql fl own -> queue (mk_sys (mk_qsys k m) f) = map (body m) ql.
Proof. intros Hm. unfold queue, queued. cbn [core mq]. by rewrite (proj1 (ok_listing _ _ _ _ Hm)). Qed.

Lemma queue_now s ql fl own : mq_ok (mq s.(core)) ql fl own -> queue s = map (body (mq s.(core))) ql.
Proof. intros Hm. unfold queue, queued. by rewrite (proj1 (ok_listing _ _ _ _ Hm)). Qed.

(** What the threads have taken, when [t] goes to [p]. *)
Lemma taken_move k' m' t p s u :
  taken (move (mk_qsys k' m') t p s) u =
    if decide (u = t) then match p with Copying n _ => Some (body m' n) | _ => None end
    else match s.(pcs) u with Copying n _ => Some (body m' n) | _ => None end.
Proof.
  unfold taken, move. cbn [pcs core mq]. case_decide as E; [subst; by rewrite fn_lookup_insert|by rewrite fn_lookup_insert_ne].
Qed.

(** The nodes that are held by the others, when [t] holds none. *)
Lemma owners_others s t (own : list node) :
  (forall n, n ∈ own <-> exists u, holds (s.(pcs) u) = Some n) -> holds (s.(pcs) t) = None ->
  forall n, n ∈ own <-> exists u, u <> t /\ holds (s.(pcs) u) = Some n.
Proof.
  intros Ho Ht n. rewrite Ho. split; [|by intros (u & _ & E); exists u].
  intros [u E]. exists u. split; [|done]. intros ->. congruence.
Qed.

(** ** Waiting threads *)

(** Setting the error of a running thread. *)
Lemma served_stop s t q k' p a :
  inv s -> stat (thr s t) = RT_THREAD_READY -> served (qs_krn s.(core)) (bl s) q a ->
  (forall u, u <> t -> tcb k' u = thr s u) -> (waitq k' q <> [] -> waitq (qs_krn s.(core)) q <> []) -> bl_pc p = None ->
  served k' (<[t := bl_pc p]> (bl s)) q (a - 1) /\
  (a <= 0 -> served k' (<[t := bl_pc p]> (bl s)) q a) /\ (~ coming (qs_krn s.(core)) (bl s) q t -> served k' (<[t := bl_pc p]> (bl s)) q a).
Proof.
  intros Hs Hr Hq Hu Hw Hp.
  assert (forall u, u <> t -> coming k' (<[t := bl_pc p]> (bl s)) q u <-> coming (qs_krn (core s)) (bl s) q u) as Hc
    by (intros u Hne; unfold coming; rewrite fn_lookup_insert_ne, Hu by done; done).
  assert (~ coming k' (<[t := bl_pc p]> (bl s)) q t) as Hn by (unfold coming; rewrite fn_lookup_insert, Hp; by intros [? _]).
  split_and!.
  - by apply (served_leave _ _ _ _ _ _ t Hq).
  - intros Ha. by apply (served_none _ _ _ _ _ _ t _ Hq).
  - intros Hb. apply (served_same _ _ _ _ _ _ Hq); [|done]. intros u. destruct (decide (u = t)) as [->|Hne]; [|by apply Hc].
    done.
Qed.

Lemma error_waits s t e : inv s -> stat (thr s t) = RT_THREAD_READY ->
  let k' := alter_thread (with_error e) t (qs_krn s.(core)) in
  waits_ok k' (bl s) /\ (forall u, u <> t -> tcb k' u = thr s u) /\ (forall q, waitq k' q = waitq (qs_krn s.(core)) q) /\ stat (tcb k' t) = RT_THREAD_READY /\ error (tcb k' t) = e.
Proof.
  intros Hs Hr k'. split; [apply waits_alter; [apply Hs|done|unfold thr in Hr; congruence]|]. split.
  - intros u Hu. unfold k'. by rewrite tcb_alter, decide_False.
  - split; [done|]. unfold k'. by rewrite tcb_alter, decide_True.
Qed.

(** A thread blocks on [q], on which nothing is available. *)
Lemma block_good s t q timeout p :
  inv s -> stat (thr s t) = RT_THREAD_READY -> holds (s.(pcs) t) = None -> bl s t = None \/ bl s t = Some q -> timeout < 2 ^ 31 - 1 ->
  (forall ql fl own, mq_ok (mq s.(core)) ql fl own -> (q = suspend_thread /\ ql = []) \/ (q = suspend_sender_thread /\ fl = [])) ->
  (forall timeout d, bl_pc (p timeout d) = Some q /\ holds (p timeout d) = None) ->
  (forall d, pc_ok (msg_size (mq s.(core))) (p timeout d)) ->
  let k1 := alter_thread (with_error RT_EOK) t (qs_krn s.(core)) in
  exists d k', mq_block q t timeout (mk_qsys k1 (mq s.(core))) = Some (Blocked timeout d, k') /\
    good s (Some (LTau, move k' t (p timeout d) s)).
Proof.
  intros Hs Hr Hh Hb Ht Hnone Hp Hpc k1. destruct (error_waits s t RT_EOK Hs Hr) as (Hw1 & Hu1 & Hq1 & Hr1 & He1). fold k1 in Hw1, Hu1, Hq1, Hr1, He1.
  destruct (inv_mq _ Hs) as (ql & fl & own & Hm & Ho & H1 & H2). set (m := mq (core s)) in *. set (k := qs_krn (core s)) in *.
  set (k2 := waiting q t (flag m) timeout k1). set (d := if 0 <? timeout then rt_tick k1 else 0).
  exists d, (mk_qsys k2 m). split.
  { unfold mq_block, bind at 1, gets at 1. cbn [mq]. unfold bind at 1. rewrite suspend_spec by done. unfold d, k2, waiting.
    destruct (Z.ltb_spec 0 timeout) as [H0|H0]; [|done]. unfold bind, rt_tick_get, gets. rewrite start_timer_spec by lia. done. }
  assert (forall p', bl_pc p' = Some q -> waits_ok k2 (<[t := bl_pc p']> (bl s))) as Hw2
    by (intros p' ->; apply waits_block; [done|done|done|apply Hm]).
  destruct (Hp timeout d) as [Ebl Eh].
  assert (forall q' a, served k (bl s) q' a -> (q' = q -> a <= 0) -> served k2 (<[t := bl_pc (p timeout d)]> (bl s)) q' a) as Hsv.
  { intros q' a Hsv Ha. rewrite Ebl.
    assert (forall u, u <> t -> coming k2 (<[t := Some q]> (bl s)) q' u <-> coming k (bl s) q' u) as Hc.
    { intros u Hne. unfold coming. rewrite fn_lookup_insert_ne by done. unfold k2. rewrite tcb_waiting_ne, Hu1 by done. done. }
    assert (~ coming k2 (<[t := Some q]> (bl s)) q' t) as Hn.
    { unfold coming, k2. rewrite tcb_waiting_self. intros (_ & ? & _). done. }
    destruct (decide (q' = q)) as [->|Hne]; [apply (served_none _ _ _ _ _ _ t _ Hsv); auto|].
    apply (served_same _ _ _ _ _ _ Hsv).
    - intros u. destruct (decide (u = t)) as [->|]; [|by apply Hc]. split; [done|]. intros (E & _). destruct Hb; congruence.
    - unfold k2. rewrite waitq_waiting, decide_False, Hq1 by done. done. }
  assert (inv (move (mk_qsys k2 m) t (p timeout d) s)) as Hinv.
  { apply (inv_move s t _ k2 m ql fl own); try done.
    - by apply Hw2.
    - intros n. rewrite (owners_others s t own Ho Hh), Eh. split; [by right|intros [?|?]; done].
    - intros u n _. by rewrite Eh.
    - apply Hsv; [done|]. intros <-. destruct (Hnone _ _ _ Hm) as [[_ ->]|[E _]]; [cbn; lia|done].
    - apply Hsv; [done|]. intros <-. destruct (Hnone _ _ _ Hm) as [[E _]|[_ ->]]; [done|cbn; lia]. }
  eexists LTau, _. split; [reflexivity|]. split; [done|]. split; [done|]. split; [done|]. cbn [spec_step]. split; [done|].
  intros u. rewrite taken_move. unfold taken. case_decide as E; [subst|done]. fold m.
  destruct (p timeout d); try done; destruct (pcs s t); done.
Qed.


(** A step that neither adds nor takes a message. *)
Lemma tau_good s t p k' m' ql fl own fl' own' :
  mq_ok (mq s.(core)) ql fl own -> mq_ok m' ql fl' own' -> body m' = body (mq s.(core)) ->
  max_msgs m' = max_msgs (mq s.(core)) -> msg_size m' = msg_size (mq s.(core)) ->
  (forall n z, s.(pcs) t <> Copying n z) -> (forall n z, p <> Copying n z) -> inv (move (mk_qsys k' m') t p s) ->
  good s (Some (LTau, move (mk_qsys k' m') t p s)).
Proof.
  intros Hm Hm' Eb Em Es Hc Hp Hi. eexists LTau, _. split; [reflexivity|]. split; [done|]. split; [done|]. split; [done|].
  cbn [spec_step]. split.
  - unfold move. by rewrite (queue_of _ _ _ _ _ _ Hm'), (queue_now _ _ _ _ Hm), Eb.
  - intros u. rewrite taken_move, Eb. unfold taken. case_decide as E; [subst|done].
    destruct p; try (by edestruct Hp); destruct (pcs s t); try done; by edestruct Hc.
Qed.

Lemma no_copy s t : holds (s.(pcs) t) = None -> forall n z, s.(pcs) t <> Copying n z.
Proof. intros H n z E. by rewrite E in H. Qed.

(** A thread goes to where it neither waits nor holds a node; if it was on its
    way to something, that is no longer there. *)
Lemma stop_good s t p k' :
  inv s -> stat (thr s t) = RT_THREAD_READY -> holds (s.(pcs) t) = None -> bl_pc p = None -> holds p = None ->
  pc_ok (msg_size (mq s.(core))) p -> waits_ok k' (bl s) -> (forall u, u <> t -> tcb k' u = thr s u) ->
  (forall q, waitq k' q = waitq (qs_krn s.(core)) q) -> stat (tcb k' t) = RT_THREAD_READY ->
  (forall ql fl own, mq_ok (mq s.(core)) ql fl own ->
     (coming (qs_krn s.(core)) (bl s) suspend_thread t -> ql = []) /\
     (coming (qs_krn s.(core)) (bl s) suspend_sender_thread t -> fl = [])) ->
  good s (Some (LTau, move (mk_qsys k' (mq s.(core))) t p s)).
Proof.
  intros Hs Hr Hh Hb Hp Hpc Hw Hu Hq Hr' Hav. destruct (inv_mq _ Hs) as (ql & fl & own & Hm & Ho & H1 & H2).
  apply (tau_good s t p k' _ ql fl own fl own); try done; [by apply no_copy|intros n z ->; done|].
  destruct (Hav _ _ _ Hm) as [A1 A2].
  assert (forall q a, (coming (qs_krn (core s)) (bl s) q t -> a <= 0) -> served (qs_krn (core s)) (bl s) q a ->
    served k' (<[t := bl_pc p]> (bl s)) q a) as Hsv.
  { intros q a Ha Hsv. destruct (served_stop s t q k' p a Hs Hr Hsv Hu) as (_ & G1 & G2); [by rewrite Hq|done|].
    destruct (decide (a <= 0)) as [|Hgt]; [by apply G1|]. apply G2. intros Hc. specialize (Ha Hc). lia. }
  apply (inv_move s t p k' _ ql fl own); try done.
  - rewrite Hb. by apply waits_return.
  - intros n. rewrite (owners_others s t own Ho Hh), Hp. split; [by right|intros [?|?]; done].
  - intros u n _. by rewrite Hp.
  - apply Hsv; [|done]. intros Hc. by rewrite (A1 Hc).
  - apply Hsv; [|done]. intros Hc. by rewrite (A2 Hc).
Qed.

(** A thread takes a node. *)
Lemma hold_inv s t p n q k m' ql fl own own' :
  inv s -> k = qs_krn s.(core) -> stat (thr s t) = RT_THREAD_READY -> holds (s.(pcs) t) = None -> bl_pc p = None -> holds p = Some n ->
  pc_ok (msg_size (mq s.(core))) p -> msg_size m' = msg_size (mq s.(core)) ->
  bl s t = None \/ bl s t = Some q -> (forall x, x ∈ own' <-> exists u, holds (s.(pcs) u) = Some x) ->
  own = n :: own' -> n ∉ own' -> mq_ok m' ql fl own ->
  (exists a1 a2, served k (bl s) suspend_thread a1 /\ served k (bl s) suspend_sender_thread a2 /\
    Z.of_nat (length ql) <= (if decide (q = suspend_thread) then a1 - 1 else a1) /\
    Z.of_nat (length fl) <= (if decide (q = suspend_sender_thread) then a2 - 1 else a2)) ->
  inv (move (mk_qsys k m') t p s).
Proof.
  intros Hs -> Hr Hh Hb Hp Hpc Es Hbl Ho -> Hn Hm (a1 & a2 & S1 & S2 & L1 & L2).
  assert (forall q' a b, served (qs_krn (core s)) (bl s) q' a -> b <= (if decide (q = q') then a - 1 else a) ->
    served (qs_krn (core s)) (<[t := bl_pc p]> (bl s)) q' b) as Hsv.
  { intros q' a b Hsv Hle. destruct (served_stop s t q' (qs_krn (core s)) p a Hs Hr Hsv) as (G1 & _ & G2); [done|done|done|].
    case_decide as E; [by apply (served_le _ _ _ _ _ G1)|]. refine (served_le _ _ _ _ _ (G2 _) Hle). intros [E' _]. destruct Hbl; congruence. }
  apply (inv_move s t p _ m' ql fl (n :: own')); try done.
  - rewrite Hb. apply waits_return; [apply Hs|done].
  - intros x. rewrite elem_of_cons, (owners_others s t own' Ho Hh), Hp. split; intros [?|?]; try (by right); left; congruence.
  - intros u x _ E Hu. rewrite Hp in E. injection E as <-. apply Hn, Ho. by exists u.
  - by apply (Hsv _ _ _ S1).
  - by apply (Hsv _ _ _ S2).
Qed.


(** A sender takes a free node. *)
Lemma take_free_good s t n p :
  inv s -> stat (thr s t) = RT_THREAD_READY -> holds (s.(pcs) t) = None -> bl s t = None \/ bl s t = Some suspend_sender_thread ->
  msg_queue_free (mq s.(core)) = Some n -> bl_pc p = None -> holds p = Some n -> pc_ok (msg_size (mq s.(core))) p ->
  (forall x z, p <> Copying x z) ->
  good s (Some (LTau, move (mk_qsys (qs_krn s.(core)) (with_free (next (mq s.(core)) n) (mq s.(core)))) t p s)).
Proof.
  intros Hs Hr Hh Hb Hf Hbp Hp Hpc Hc. destruct (inv_mq _ Hs) as (ql & fl & own & Hm & Ho & H1 & H2).
  pose proof (ok_free _ _ _ _ Hm) as Hf'. rewrite Hf in Hf'. destruct fl as [|n' fl]; [done|]. destruct Hf' as [[= <-] _].
  pose proof (ok_take _ _ _ _ _ Hm) as Hm'. apply (tau_good s t _ _ _ ql (n :: fl) own fl (n :: own)); try done; [by apply no_copy|].
  apply (hold_inv s t _ n suspend_sender_thread _ _ ql fl (n :: own) own); try done.
  - by apply (ok_fresh_free (mq (core s)) ql n fl own).
  - eexists _, _. split; [exact H1|]. split; [exact H2|]. rewrite decide_False, decide_True by done. cbn [length]. lia.
Qed.

(** ** Rounds *)

Lemma mq_send_round_good s t buffer timeout :
  inv s -> stat (thr s t) = RT_THREAD_READY -> holds (s.(pcs) t) = None -> bl s t = None \/ bl s t = Some suspend_sender_thread ->
  buffer <> [] -> Z.of_nat (length buffer) <= msg_size (mq s.(core)) -> timeout_ok timeout ->
  good s (after_send t buffer (mq_send_round t timeout s.(core)) s).
Proof.
  intros Hs Hr Hh Hb Hne Hsz Ht. unfold mq_send_round, bind at 1, gets at 1. destruct (inv_mq _ Hs) as (ql & fl & own & Hm & Ho & H1 & H2).
  pose proof (ok_free _ _ _ _ Hm) as Hf. destruct fl as [|n fl]; cbn [chain] in Hf.
  - assert (forall ql' fl' own', mq_ok (mq (core s)) ql' fl' own' -> fl' = []) as Hnil.
    { intros ql' fl' own' Hm'. pose proof (ok_free _ _ _ _ Hm') as Hf'. rewrite Hf in Hf'. destruct fl'; [done|]. by destruct Hf'. }
    rewrite Hf. unfold set_error, bind. rewrite on_krn_eq. destruct (Z.eqb_spec timeout 0) as [->|H0].
    + destruct (error_waits s t RT_EOK Hs Hr) as (Hw1 & Hu1 & Hq1 & Hr1 & He1). apply stop_good; try done.
      intros ql' fl' own' Hm'. split; [|intros _; by apply Hnil in Hm']. intros [E _]. destruct Hb as [Hb|Hb]; by rewrite Hb in E.
    + destruct (block_good s t suspend_sender_thread timeout (Sending buffer)) as (d & k' & E & Hg); try done.
      { apply Ht. }
      { intros ql' fl' own' Hm'. right. split; [done|]. by apply Hnil in Hm'. }
      change (put_krn _ (core s)) with (mk_qsys (alter_thread (with_error RT_EOK) t (qs_krn (core s))) (mq (core s))). by rewrite E.
  - destruct Hf as [Hf Hf']. rewrite Hf. by apply take_free_good.
Qed.

Lemma mq_recv_round_good s t size timeout :
  inv s -> stat (thr s t) = RT_THREAD_READY -> holds (s.(pcs) t) = None -> bl s t = None \/ bl s t = Some suspend_thread ->
  0 < size -> timeout_ok timeout ->
  good s (after_recv t size (mq_recv_round t timeout s.(core)) s).
Proof.
  intros Hs Hr Hh Hb Hsz Ht. unfold mq_recv_round, bind at 1, gets at 1. destruct (inv_mq _ Hs) as (ql & fl & own & Hm & Ho & H1 & H2).
  pose proof (ok_entry _ _ _ _ Hm) as He. pose proof (ok_head _ _ _ _ Hm) as Hhd. destruct ql as [|n ql]; cbn [chain] in Hhd.
  - assert (forall ql' fl' own', mq_ok (mq (core s)) ql' fl' own' -> ql' = []) as Hnil.
    { intros ql' fl' own' Hm'. pose proof (ok_head _ _ _ _ Hm') as Hf'. rewrite Hhd in Hf'. destruct ql'; [done|]. by destruct Hf'. }
    rewrite He. cbn [length]. change (Z.of_nat 0 =? 0) with true. cbv iota.
    unfold set_error, bind at 1. rewrite on_krn_eq. destruct (Z.eqb_spec timeout 0) as [->|H0].
    + unfold bind. rewrite on_krn_eq. cbn [ret after_recv].
      destruct (error_waits s t RT_EOK Hs Hr) as (Hw1 & Hu1 & Hq1 & Hr1 & He1). apply stop_good; try done.
      * apply waits_alter; [done|done|]. cbn [krn put_krn qsys_kernel qs_krn]. intros E. congruence.
      * intros u Hu. rewrite tcb_alter, decide_False by done. cbn [krn put_krn qsys_kernel qs_krn]. by apply Hu1.
      * rewrite tcb_alter, decide_True by done. done.
      * intros ql' fl' own' Hm'. split; [intros _; by apply Hnil in Hm'|]. intros [E _]. destruct Hb as [Hb|Hb]; by rewrite Hb in E.
    + destruct (block_good s t suspend_thread timeout (Receiving size)) as (d & k' & E & Hg); try done.
      { apply Ht. }
      { intros ql' fl' own' Hm'. left. split; [done|]. by apply Hnil in Hm'. }
      change (put_krn _ (core s)) with (mk_qsys (alter_thread (with_error RT_EOK) t (qs_krn (core s))) (mq (core s))). by rewrite E.
  - destruct Hhd as [Hf Hf']. rewrite (proj2 (Z.eqb_neq (entry (mq (core s))) 0)) by (rewrite He; cbn; lia). rewrite Hf.
    set (m' := unlinked n (mq (core s))).
    match goal with |- good s (after_recv t size (?f (core s)) s) => assert (f (core s) = Some (Holds n, mk_qsys (qs_krn (core s)) m')) as -> end.
    { unfold m', unlinked. cbv [bind on_mq modify when ret]. cbn [qs_krn mq].
      by destruct (bool_decide (msg_queue_tail (mq (core s)) = Some n)), (0 <? entry (mq (core s))). }
    pose proof (ok_unlink _ _ _ _ _ Hm) as Hm'. fold m' in Hm'.
    assert (body m' = body (mq (core s)) /\ max_msgs m' = max_msgs (mq (core s)) /\ msg_size m' = msg_size (mq (core s))) as (Eb & Em & Es).
    { unfold m', unlinked. by destruct (bool_decide (msg_queue_tail (mq (core s)) = Some n)), (0 <? entry (mq (core s))). }
    eexists (LTake t), _. split; [reflexivity|]. split; [|split; [done|split; [done|]]].
    + apply (hold_inv s t _ n suspend_thread _ m' ql fl (n :: own) own); try done.
      * pose proof (ok_nodup _ _ _ _ Hm) as Hd. cbn in Hd. apply NoDup_cons in Hd as [Hd _]. intros Hin. apply Hd. rewrite !elem_of_app. tauto.
      * eexists _, _. split; [exact H1|]. split; [exact H2|]. rewrite decide_True, decide_False by done. cbn [length]. lia.
    + cbn [spec_step]. exists (body (mq (core s)) n). split_and!.
      * unfold move. rewrite (queue_of _ _ _ _ _ _ Hm'), (queue_now _ _ _ _ Hm), Eb. done.
      * unfold taken. by destruct (pcs s t).
      * intros u. rewrite taken_move, Eb. done.
Qed.


(** ** Copies *)

(** The end of a call that sends. *)
Lemma sent_spec c : all_suspended suspend_thread (qs_krn c) -> entry (mq c) < RT_MQ_ENTRY_MAX ->
  mq_sent c = Some (Done RT_EOK None, mk_qsys (woken suspend_thread (qs_krn c)) (with_entry (entry (mq c) + 1) (mq c))).
Proof.
  intros Hs He. unfold mq_sent, bind at 1, gets at 1. rewrite (proj2 (Z.ltb_lt _ _) He). unfold bind at 1, on_mq, modify.
  unfold bind at 1, gets at 1. cbn [krn qsys_kernel qs_krn]. destruct (waitq (qs_krn c) suspend_thread) as [|h r] eqn:Eq.
  - unfold woken. by rewrite Eq.
  - unfold bind. by rewrite (list_resume_spec _ h r) by done.
Qed.

Lemma send_link_spec n buffer c : all_suspended suspend_thread (qs_krn c) -> entry (mq c) < RT_MQ_ENTRY_MAX ->
  mq_send_link n buffer c = Some (Done RT_EOK None, mk_qsys (woken suspend_thread (qs_krn c)) (linked n buffer (mq c))).
Proof.
  intros Hs He. unfold mq_send_link, linked. cbv [bind on_mq modify gets ret]. cbn [qs_krn mq write_body set_next msg_queue_tail msg_queue_head].
  destruct (msg_queue_tail (mq c)), (msg_queue_head (mq c)); by rewrite sent_spec.
Qed.

Lemma urgent_link_spec n buffer c : all_suspended suspend_thread (qs_krn c) -> entry (mq c) < RT_MQ_ENTRY_MAX ->
  mq_urgent_link n buffer c = Some (Done RT_EOK None, mk_qsys (woken suspend_thread (qs_krn c)) (pushed n buffer (mq c))).
Proof.
  intros Hs He. unfold mq_urgent_link, pushed. cbv [bind on_mq modify gets ret]. cbn [qs_krn mq write_body set_next msg_queue_tail msg_queue_head].
  destruct (msg_queue_tail (mq c)); by rewrite sent_spec.
Qed.

Lemma recv_copy_spec n size c : all_suspended suspend_sender_thread (qs_krn c) -> Z.of_nat (length (body (mq c) n)) = msg_size (mq c) ->
  mq_recv_copy n size c = Some (Done RT_EOK (Some (take (Z.to_nat size) (body (mq c) n))),
    mk_qsys (woken suspend_sender_thread (qs_krn c)) (freed n (mq c))).
Proof.
  intros Hs Hl. unfold mq_recv_copy, bind at 1, gets at 1.
  assert (take (Z.to_nat (if msg_size (mq c) <? size then msg_size (mq c) else size)) (body (mq c) n) = take (Z.to_nat size) (body (mq c) n)) as ->.
  { destruct (Z.ltb_spec (msg_size (mq c)) size); [|done]. rewrite !take_ge by lia. done. }
  cbv zeta. unfold bind at 1, on_mq, modify. unfold bind at 1. unfold bind at 1, gets at 1. cbn [krn qsys_kernel qs_krn mq].
  destruct (waitq (qs_krn c) suspend_sender_thread) as [|h r] eqn:Eq.
  - unfold woken. by rewrite Eq.
  - unfold bind. by rewrite (list_resume_spec _ h r) by done.
Qed.

(** Thread [t] gives its node away, and wakes a thread of [q]. *)
Lemma give_inv s t n q m' ql fl own1 own2 :
  inv s -> holds (s.(pcs) t) = Some n -> bl s t = None -> msg_size m' = msg_size (mq s.(core)) -> mq_ok m' ql fl (own1 ++ own2) ->
  (forall x, x ∈ own1 ++ n :: own2 <-> exists u, holds (s.(pcs) u) = Some x) -> NoDup (own1 ++ n :: own2) ->
  (exists a1 a2, served (qs_krn s.(core)) (bl s) suspend_thread a1 /\ served (qs_krn s.(core)) (bl s) suspend_sender_thread a2 /\
    Z.of_nat (length ql) = (if decide (q = suspend_thread) then a1 + 1 else a1) /\
    Z.of_nat (length fl) = (if decide (q = suspend_sender_thread) then a2 + 1 else a2)) ->
  inv (move (mk_qsys (woken q (qs_krn s.(core))) m') t Idle s).
Proof.
  intros Hs Hh Hb Es Hm Ho Hd (a1 & a2 & S1 & S2 & L1 & L2). pose proof (inv_waits _ Hs) as Hw.
  assert (forall u, <[t := bl_pc Idle]> (bl s) u = bl s u) as Eb.
  { intros u. destruct (decide (u = t)) as [->|Hu]; [by rewrite fn_lookup_insert, Hb|by rewrite fn_lookup_insert_ne]. }
  assert (forall q' a b, served (qs_krn (core s)) (bl s) q' a -> b = (if decide (q = q') then a + 1 else a) ->
    served (woken q (qs_krn (core s))) (<[t := bl_pc Idle]> (bl s)) q' b) as Hsv.
  { intros q' a b Hsv ->. apply (served_ext _ _ _ _ _ Eb).
    destruct (decide (q = q')) as [E|E]; [rewrite <- E in *; by apply served_wake|]. apply served_other; [done|by intros ->|done]. }
  apply (inv_move s t Idle _ m' ql fl (own1 ++ own2)); try done.
  - apply (waits_ext _ _ _ Eb). by apply waits_woken.
  - intros x. assert (x ∈ own1 ++ own2 <-> x <> n /\ x ∈ own1 ++ n :: own2) as ->.
    { rewrite !elem_of_app, elem_of_cons. apply NoDup_app in Hd as (_ & D1 & D2). apply NoDup_cons in D2 as [D2 _].
      assert (n ∉ own1) by (intros Hin; apply (D1 _ Hin); left). split; [intros [Hx|Hx]; split; try tauto; by intros ->|tauto]. }
    rewrite Ho. split.
    + intros (Hx & u & E). right. exists u. split; [|done]. intros ->. congruence.
    + intros [?|(u & Hu & E)]; [done|]. split; [|by exists u]. intros ->. by apply Hu, (inv_inj _ Hs u t n).
  - by apply (Hsv _ _ _ S1).
  - by apply (Hsv _ _ _ S2).
Qed.


(** The node of a thread among the nodes that are held. *)
Lemma own_split s t n :
  inv s -> holds (s.(pcs) t) = Some n ->
  exists ql fl own1 own2, mq_ok (mq s.(core)) ql fl (own1 ++ n :: own2) /\
    (forall x, x ∈ own1 ++ n :: own2 <-> exists u, holds (s.(pcs) u) = Some x) /\ NoDup (own1 ++ n :: own2) /\
    served (qs_krn s.(core)) (bl s) suspend_thread (Z.of_nat (length ql)) /\
    served (qs_krn s.(core)) (bl s) suspend_sender_thread (Z.of_nat (length fl)) /\ Z.of_nat (length ql) < RT_MQ_ENTRY_MAX.
Proof.
  intros Hs Hh. destruct (inv_mq _ Hs) as (ql & fl & own & Hm & Ho & H1 & H2).
  assert (n ∈ own) as Hin by (apply Ho; by exists t). apply list_elem_of_split in Hin as (own1 & own2 & ->).
  exists ql, fl, own1, own2. split_and!; try done.
  - pose proof (ok_nodup _ _ _ _ Hm) as Hd. apply NoDup_app in Hd as (_ & _ & Hd). by apply NoDup_app in Hd as (_ & _ & Hd).
  - pose proof (ok_all _ _ _ _ Hm) as Ha. pose proof (ok_max _ _ _ _ Hm) as Hx. rewrite !length_app in Ha. cbn [length] in Ha.
    unfold RT_MQ_ENTRY_MAX. lia.
Qed.

(** The messages and what is taken, when [t] fills its own node. *)
Lemma fill_view s t n x m' l u :
  inv s -> holds (s.(pcs) t) = Some n -> (forall z, s.(pcs) t <> Copying n z) ->
  (forall y, body m' y = <[n := x]> (body (mq s.(core))) y) -> n ∉ l ->
  map (body m') l = map (body (mq s.(core))) l /\ forall k, taken (move (mk_qsys k m') t Idle s) u = taken s u.
Proof.
  intros Hs Hh Hc Hb Hl. split.
  - apply map_ext_in. intros y Hy. rewrite Hb, fn_lookup_insert_ne; [done|]. intros ->. by apply Hl, list_elem_of_In.
  - intros k. rewrite taken_move. unfold taken. case_decide as E.
    + subst. destruct (pcs s t) as [| | | |n' z| |] eqn:E'; try done. cbn in Hh. injection Hh as ->. by destruct (Hc z).
    + destruct (pcs s u) as [| | | |n' z| |] eqn:E'; try done. rewrite Hb, fn_lookup_insert_ne; [done|]. intros En.
      apply E, (inv_inj _ Hs u t n); [rewrite E'; cbn; congruence|done].
Qed.

Lemma link_good s t urgent n buffer :
  inv s -> s.(pcs) t = Linking urgent n buffer -> good s (mq_step (ARun t) s).
Proof.
  intros Hs Ep. pose proof (inv_pcs _ Hs t) as Hp. rewrite Ep in Hp. cbn [pc_ok] in Hp.
  assert (holds (pcs s t) = Some n) as Hh by (by rewrite Ep). assert (bl s t = None) as Hb by (unfold bl; by rewrite Ep).
  destruct (own_split s t n Hs Hh) as (ql & fl & own1 & own2 & Hm & Ho & Hd & H1 & H2 & Hlt). pose proof (ok_entry _ _ _ _ Hm) as He.
  assert (all_suspended suspend_thread (qs_krn (core s))) as Hsus by (apply (waits_suspended _ _ (inv_waits _ Hs))).
  destruct (ok_disjoint _ _ _ _ _ _ Hm) as (Hnq & _ & Hin).
  assert (Z.of_nat (length (body (mq (core s)) n)) = msg_size (mq (core s))) as Hlen by (by apply Hm).
  set (x := buffer ++ drop (length buffer) (body (mq (core s)) n)).
  assert (take (length buffer) x = buffer /\ Z.of_nat (length x) = msg_size (mq (core s))) as [Hx1 Hx2].
  { unfold x. split; [apply take_app_length|]. rewrite length_app, length_drop. lia. }
  assert (forall z, pcs s t <> Copying n z) as Hc by (intros z; by rewrite Ep).
  cbn [mq_step]. rewrite Ep. destruct urgent.
  - rewrite urgent_link_spec by (try done; by rewrite He). cbn [after_link]. change (RT_EOK =? RT_EOK) with true. cbv iota.
    destruct (ok_push _ _ _ _ _ _ _ Hm Hp) as [Hm' Hbody]. set (m' := pushed n buffer (mq (core s))) in *.
    assert (msg_size m' = msg_size (mq (core s)) /\ max_msgs m' = max_msgs (mq (core s))) as [Es Em] by (unfold m', pushed; by destruct (msg_queue_tail (mq (core s)))).
    eexists _, _. split; [reflexivity|]. split; [|split; [done|split; [done|]]].
    + apply (give_inv s t n suspend_thread m' (n :: ql) fl own1 own2); try done. eexists _, _. split; [exact H1|]. split; [exact H2|].
      rewrite decide_True, decide_False by done. cbn [length]. lia.
    + cbn [spec_step]. exists x. split_and!; try done.
      * unfold move. rewrite (queue_of _ _ _ _ _ _ Hm'), (queue_now _ _ _ _ Hm). cbn [map]. rewrite Hbody at 1. rewrite fn_lookup_insert. f_equal.
        by apply (fill_view s t n x m' ql t).
      * intros u. by apply (fill_view s t n x m' ql u).
  - rewrite send_link_spec by (try done; by rewrite He). cbn [after_link]. change (RT_EOK =? RT_EOK) with true. cbv iota.
    destruct (ok_link _ _ _ _ _ _ _ Hm Hp) as [Hm' Hbody]. set (m' := linked n buffer (mq (core s))) in *.
    assert (msg_size m' = msg_size (mq (core s)) /\ max_msgs m' = max_msgs (mq (core s))) as [Es Em]
      by (unfold m', linked; by destruct (msg_queue_tail (mq (core s))), (msg_queue_head (mq (core s)))).
    eexists _, _. split; [reflexivity|]. split; [|split; [done|split; [done|]]].
    + apply (give_inv s t n suspend_thread m' (ql ++ [n]) fl own1 own2); try done. eexists _, _. split; [exact H1|]. split; [exact H2|].
      rewrite decide_True, decide_False by done. rewrite length_app. cbn [length]. lia.
    + cbn [spec_step]. exists x. split_and!; try done.
      * unfold move. rewrite (queue_of _ _ _ _ _ _ Hm'), (queue_now _ _ _ _ Hm), map_app. cbn [map]. rewrite (Hbody n), fn_lookup_insert. f_equal.
        by apply (fill_view s t n x m' ql t).
      * intros u. by apply (fill_view s t n x m' ql u).
Qed.

Lemma copy_good s t n size : inv s -> s.(pcs) t = Copying n size -> good s (mq_step (ARun t) s).
Proof.
  intros Hs Ep. pose proof (inv_pcs _ Hs t) as Hp. rewrite Ep in Hp. cbn [pc_ok] in Hp.
  assert (holds (pcs s t) = Some n) as Hh by (by rewrite Ep). assert (bl s t = None) as Hb by (unfold bl; by rewrite Ep).
  destruct (own_split s t n Hs Hh) as (ql & fl & own1 & own2 & Hm & Ho & Hd & H1 & H2 & _).
  destruct (ok_disjoint _ _ _ _ _ _ Hm) as (_ & _ & Hin). cbn [mq_step]. rewrite Ep.
  rewrite recv_copy_spec by (apply (waits_suspended _ _ (inv_waits _ Hs)) || by apply Hm). cbn [after_recv].
  pose proof (ok_give _ _ _ _ _ _ Hm) as Hm'. eexists _, _. split; [reflexivity|]. split; [|split; [done|split; [done|]]].
  - apply (give_inv s t n suspend_sender_thread _ ql (n :: fl) own1 own2); try done. eexists _, _. split; [exact H1|]. split; [exact H2|].
    rewrite decide_False, decide_True by done. cbn [length]. lia.
  - cbn [spec_step]. exists (body (mq (core s)) n). split_and!; try done.
    + unfold taken. by rewrite Ep.
    + unfold move. by rewrite (queue_of _ _ _ _ _ _ Hm'), (queue_now _ _ _ _ Hm).
    + intros u. rewrite taken_move. done.
Qed.


(** ** Calls *)

Lemma mq_check_type_ok c : is_mq (mq c) = true -> check_type c = Some (tt, c).
Proof. intros E. unfold check_type. cbv [bind gets]. by rewrite E. Qed.

(** A thread goes on, with nothing changed. *)
Lemma stay_good s t p :
  inv s -> stat (thr s t) = RT_THREAD_READY -> holds (s.(pcs) t) = None -> bl_pc p = None -> holds p = None ->
  pc_ok (msg_size (mq s.(core))) p -> bl s t = None \/ error (thr s t) <> RT_EOK ->
  good s (Some (LTau, move s.(core) t p s)).
Proof.
  intros Hs Hr Hh Hb Hp Hpc Hn. assert (forall q, ~ coming (qs_krn (core s)) (bl s) q t) as Hc.
  { intros q (E & _ & E'). destruct Hn as [Hn|Hn]; [congruence|done]. }
  assert (core s = mk_qsys (qs_krn (core s)) (mq (core s))) as -> by (by destruct (core s)).
  apply stop_good; try done; [apply Hs|]. intros ql fl own _. split; intros H; by apply Hc in H.
Qed.

Lemma idle_thread s t : s.(pcs) t = Idle -> holds (s.(pcs) t) = None /\ bl s t = None.
Proof. unfold bl. by intros ->. Qed.

Lemma send_call_good s t buffer timeout : inv s -> enabled (ASend t buffer timeout) s -> good s (mq_step (ASend t buffer timeout) s).
Proof.
  intros Hs ((Hi & Hr & Hty) & Hne & Ht). destruct (idle_thread s t Hi) as [Hh Hb]. cbn [mq_step]. unfold rt_mq_send_wait.
  rewrite (bind_eq _ _ _ _ _ (mq_check_type_ok _ Hty)). unfold bind at 1, gets at 1.
  rewrite (proj2 (Nat.eqb_neq (length buffer) 0)) by (by destruct buffer).
  destruct (Z.ltb_spec (msg_size (mq (core s))) (Z.of_nat (length buffer))) as [Hsz|Hsz]; [apply stay_good; by auto|].
  destruct (bool_decide (msg_queue_free (mq (core s)) = None) && (timeout =? 0)); [apply stay_good; by auto|].
  apply mq_send_round_good; auto.
Qed.

Lemma urgent_call_good s t buffer : inv s -> enabled (AUrgent t buffer) s -> good s (mq_step (AUrgent t buffer) s).
Proof.
  intros Hs ((Hi & Hr & Hty) & Hne). destruct (idle_thread s t Hi) as [Hh Hb]. cbn [mq_step]. unfold rt_mq_urgent.
  rewrite (bind_eq _ _ _ _ _ (mq_check_type_ok _ Hty)). unfold bind at 1, gets at 1.
  rewrite (proj2 (Nat.eqb_neq (length buffer) 0)) by (by destruct buffer).
  destruct (Z.ltb_spec (msg_size (mq (core s))) (Z.of_nat (length buffer))) as [Hsz|Hsz]; [apply stay_good; by auto|].
  destruct (msg_queue_free (mq (core s))) as [n|] eqn:Hf; [|apply stay_good; by auto]. apply take_free_good; try done. by left.
Qed.

Lemma recv_call_good s t size timeout : inv s -> enabled (ARecv t size timeout) s -> good s (mq_step (ARecv t size timeout) s).
Proof.
  intros Hs ((Hi & Hr & Hty) & Hsz & Ht). destruct (idle_thread s t Hi) as [Hh Hb]. cbn [mq_step]. unfold rt_mq_recv.
  rewrite (bind_eq _ _ _ _ _ (mq_check_type_ok _ Hty)). unfold bind at 1, gets at 1.
  rewrite (proj2 (Z.eqb_neq size 0)) by lia.
  destruct ((entry (mq (core s)) =? 0) && (timeout =? 0)); [apply stay_good; by auto|]. apply mq_recv_round_good; auto.
Qed.

(** What is left of a timeout is a timeout. *)
Lemma remaining_ok timeout d now : timeout_ok timeout -> (0 < timeout -> elapsed d now < 2 ^ 31) -> timeout_ok (remaining timeout d now).
Proof.
  intros Ht He. destruct (decide (0 < timeout)) as [H0|H0].
  - rewrite remaining_exact by (unfold timeout_ok in Ht; auto; lia). pose proof (u32_range (now - d)). unfold timeout_ok, elapsed in *. lia.
  - unfold remaining. rewrite (proj2 (Z.ltb_ge 0 timeout)) by lia. done.
Qed.

Lemma resumed_good s t :
  inv s -> stat (thr s t) = RT_THREAD_READY -> in_time s t -> is_Some (bl s t) -> good s (mq_step (ARun t) s).
Proof.
  intros Hs Hr Hin [q Hb]. pose proof (inv_pcs _ Hs t) as Hp. cbn [mq_step]. unfold in_time in Hin. unfold bl in Hb.
  destruct (pcs s t) as [|buffer timeout d|size timeout d| | | |] eqn:Ep; try done; cbn [pc_ok] in Hp.
  - destruct Hp as (Hne & Hsz & Ht). unfold mq_send_resumed, bind at 1, thread_of, gets at 1.
    change (tcb (krn (core s)) t) with (thr s t). destruct (Z.eqb_spec (error (thr s t)) RT_EOK) as [E|E]; cbn [negb].
    + unfold bind, rt_tick_get, gets. apply mq_send_round_good; try done.
      * by rewrite Ep.
      * right. unfold bl. by rewrite Ep.
      * by apply remaining_ok.
    + apply stay_good; try done; [by rewrite Ep|by right].
  - destruct Hp as (Hsz & Ht). unfold mq_recv_resumed, bind at 1, thread_of, gets at 1.
    change (tcb (krn (core s)) t) with (thr s t). destruct (Z.eqb_spec (error (thr s t)) RT_EOK) as [E|E]; cbn [negb].
    + unfold bind, rt_tick_get, gets. apply mq_recv_round_good; try done.
      * by rewrite Ep.
      * right. unfold bl. by rewrite Ep.
      * by apply remaining_ok.
    + apply stay_good; try done; [by rewrite Ep|by right].
Qed.


(** ** Timeouts, reset and detaching *)

(** Waiting threads are resumed with an error, and the object changes in nothing
    that matters here. *)
Lemma cancel_inv s k' m' :
  inv s -> waits_ok k' (bl s) ->
  (forall u, tcb k' u = thr s u \/ stat (thr s u) = RT_THREAD_SUSPEND /\ error (tcb k' u) <> RT_EOK) ->
  (forall q, waitq k' q <> [] -> waitq (qs_krn s.(core)) q <> []) ->
  (forall ql fl own, mq_ok (mq s.(core)) ql fl own -> mq_ok m' ql fl own) -> msg_size m' = msg_size (mq s.(core)) ->
  inv (mk_sys (mk_qsys k' m') s.(pcs)).
Proof.
  intros Hs Hw Hu Hq Hm Es. split; try done.
  - intros t. cbn [core mq pcs]. rewrite Es. apply Hs.
  - apply Hs.
  - destruct (inv_mq _ Hs) as (ql & fl & own & Hm0 & Ho & H1 & H2). exists ql, fl, own.
    split; [by apply Hm|]. split; [done|]. split; (eapply served_error; [done|done|by apply Hq]).
Qed.

(** A step of the kernel alone. *)
Lemma kernel_good s k' :
  inv s -> waits_ok k' (bl s) ->
  (forall u, tcb k' u = thr s u \/ stat (thr s u) = RT_THREAD_SUSPEND /\ error (tcb k' u) <> RT_EOK) ->
  (forall q, waitq k' q <> [] -> waitq (qs_krn s.(core)) q <> []) ->
  good s (Some (LTau, mk_sys (mk_qsys k' (mq s.(core))) s.(pcs))).
Proof. intros Hs Hw Hu Hq. eexists _, _. split; [reflexivity|]. split; [by apply cancel_inv|]. done. Qed.

Lemma timeout_good s t : inv s -> enabled (ATimeout t) s -> good s (mq_step (ATimeout t) s).
Proof.
  intros Hs [Hst _]. cbn [mq_step]. rewrite expire_thread_spec by done. apply kernel_good; try done.
  - apply waits_timed_out; [apply Hs|done].
  - intros u. destruct (decide (u = t)) as [->|Hu]; cbn [krn qsys_kernel]; rewrite tcb_timed_out; [|rewrite decide_False by done; by left].
    rewrite decide_True by done. right. by split.
  - intros q Hq E. apply Hq. cbn [timed_out alter_thread unlink waitq krn qsys_kernel]. by rewrite E.
Qed.

Lemma served_empty k b q a a' : served k b q a -> waitq k q = [] -> served k b q a'.
Proof. intros (l & Hl & _) Hq. exists l. split; [done|]. by rewrite Hq. Qed.

Lemma mq_reset_good s t : inv s -> enabled (AReset t) s -> good s (mq_step (AReset t) s).
Proof.
  intros Hs (_ & _ & Hty). cbn [mq_step]. unfold rt_mq_control. rewrite (bind_eq _ _ _ _ _ (mq_check_type_ok _ Hty)).
  change (RT_IPC_CMD_RESET =? RT_IPC_CMD_RESET) with true. cbv iota.
  destruct (@resume_all_spec qsys qsys_kernel qsys_laws suspend_thread (bl s) (core s) (inv_waits _ Hs)) as (k1 & E1 & Hw1 & Hq1 & Hq1' & _ & Hu1).
  rewrite (bind_eq _ _ _ _ _ E1).
  destruct (@resume_all_spec qsys qsys_kernel qsys_laws suspend_sender_thread (bl s) (mk_qsys k1 (mq (core s))) Hw1) as (k2 & E2 & Hw2 & Hq2 & Hq2' & _ & Hu2).
  rewrite (bind_eq _ _ _ _ _ E2). cbn [put_krn krn qsys_kernel qs_krn mq] in *.
  assert (waitq k2 suspend_thread = []) as Hq3 by (by rewrite Hq2').
  assert (forall u, tcb k2 u = thr s u \/ stat (thr s u) = RT_THREAD_SUSPEND /\ error (tcb k2 u) <> RT_EOK) as Hu.
  { intros u. rewrite Hu2, Hu1. pose proof (waits_suspended _ _ (inv_waits _ Hs) suspend_thread u) as Hs1.
    destruct (decide (u ∈ waitq k1 suspend_sender_thread)) as [Hin|Hin].
    - right. rewrite Hq1' in Hin by done. split; [by apply (waits_suspended _ _ (inv_waits _ Hs) suspend_sender_thread)|done].
    - destruct (decide (u ∈ waitq (qs_krn (core s)) suspend_thread)) as [Hin'|Hin']; [|by left]. right. split; [by apply Hs1|done]. }
  destruct (inv_mq _ Hs) as (ql & fl & own & Hm & Ho & H1 & H2).
  destruct (drain_spec (Z.to_nat (max_msgs (mq (core s)))) k2 (mq (core s)) ql fl own Hm) as (m' & fl' & Ed & Hm' & Eb & Em & Es).
  { pose proof (ok_all _ _ _ _ Hm) as Ha. rewrite length_app in Ha. lia. }
  unfold bind at 1, gets at 1. cbn [mq]. rewrite (bind_eq _ _ _ _ _ Ed). unfold bind, on_mq, modify, ret. cbn [qs_krn mq].
  eexists _, _. split; [reflexivity|]. split; [|split; [done|split; [done|]]].
  - split; cbn [core qs_krn mq pcs]; [done|intros u; cbn [with_entry msg_size]; rewrite Es; apply Hs|apply Hs|].
    exists [], fl', own. split; [done|]. split; [done|].
    split; (eapply served_empty; [|done]); (eapply served_error; [done|exact Hu|]); intros Hne; [by rewrite Hq3 in Hne|by rewrite Hq2 in Hne].
  - cbn [spec_step]. split; [by rewrite (queue_of _ _ _ _ _ _ Hm')|]. intros u. unfold taken. cbn [pcs core mq with_entry body]. by rewrite Eb.
Qed.

Lemma mq_detach_good s t q : inv s -> s.(pcs) t = Detaching q -> enabled (ARun t) s -> good s (mq_step (ARun t) s).
Proof.
  intros Hs Ep (_ & Hr & _). pose proof (inv_pcs _ Hs t) as Hp. rewrite Ep in Hp. cbn [pc_ok] in Hp.
  assert (holds (pcs s t) = None) as Hh by (by rewrite Ep). assert (bl s t = None) as Hb by (unfold bl; by rewrite Ep).
  cbn [mq_step]. rewrite Ep. unfold resume_all_test, bind, gets, ret. destruct (waitq (krn (core s)) q) as [|h r].
  - destruct Hp as [-> | ->]; cbn [Nat.eqb suspend_thread suspend_sender_thread].
    + apply stay_good; try done; [by right|by left].
    + unfold mq_object_detach, on_mq, modify.
      set (m := mq (core s)). set (m' := mk_mq false _ _ _ _ _ _ _ _ _). set (s2 := mk_sys (mk_qsys (qs_krn (core s)) m') (pcs s)).
      assert (inv s2) as Hs2.
      { apply cancel_inv; try done; [apply Hs|by left|]. intros ql fl own Hm. apply (ok_parts _ _ _ _ _ _ _ _ Hm); done || apply Hm. }
      apply (stay_good s2 t Idle Hs2 Hr Hh); try done. by left.
  - apply stay_good; try done. by left.
Qed.

Lemma mq_detach_round_good s t q : inv s -> s.(pcs) t = Resuming q -> enabled (ARun t) s -> ~ overtaken (ARun t) s -> good s (mq_step (ARun t) s).
Proof.
  intros Hs Ep (_ & Hr & _) Hin. pose proof (inv_pcs _ Hs t) as Hp. cbn [overtaken] in Hin. rewrite Ep in Hp, Hin. cbn [pc_ok] in Hp.
  assert (holds (pcs s t) = None) as Hh by (by rewrite Ep). assert (bl s t = None) as Hb by (unfold bl; by rewrite Ep).
  cbn [mq_step]. rewrite Ep. unfold resume_all_round, bind, gets. change (krn (core s)) with (qs_krn (core s)).
  destruct (waitq (qs_krn (core s)) q) as [|h r] eqn:Eq; [done|].
  assert (stat (tcb (qs_krn (core s)) h) = RT_THREAD_SUSPEND) as Hst by (apply (waits_suspended _ _ (inv_waits _ Hs) q); rewrite Eq; left).
  rewrite resume_with_error_spec by done. set (k' := cancelled (- RT_ERROR) h (krn (core s))).
  set (s2 := mk_sys (mk_qsys k' (mq (core s))) (pcs s)). assert (inv s2) as Hs2.
  { apply cancel_inv; try done.
    - apply waits_cancelled; [apply Hs|done].
    - intros u. unfold k'. rewrite tcb_cancelled. case_decide; [subst; right; by split|by left].
    - intros q' Hq' E. apply Hq'. unfold k', cancelled. rewrite waitq_resumed. cbn [alter_thread waitq krn qsys_kernel]. by rewrite E. }
  apply (stay_good s2 t (Detaching q) Hs2); try done; [|by left]. unfold thr, s2. cbn [core qs_krn]. apply (wait_idle _ _ (inv_waits _ Hs2)). done.
Qed.


(** ** Every step *)

Lemma mq_run_good s t : inv s -> enabled (ARun t) s -> ~ overtaken (ARun t) s -> good s (mq_step (ARun t) s).
Proof.
  intros Hs Ha Hov. pose proof Ha as (Hni & Hr & Hin). destruct (pcs s t) as [|buffer timeout d|size timeout d|urgent n buffer|n size|q|q] eqn:Ep; [done|..].
  - apply resumed_good; try done. exists suspend_sender_thread. unfold bl. by rewrite Ep.
  - apply resumed_good; try done. exists suspend_thread. unfold bl. by rewrite Ep.
  - by eapply link_good.
  - by eapply copy_good.
  - by eapply mq_detach_good.
  - by eapply mq_detach_round_good.
Qed.

Lemma mq_good s a : inv s -> enabled a s -> ~ overtaken a s -> good s (mq_step a s).
Proof.
  intros Hs Ha Hov. destruct a as [t buffer timeout|t buffer|t size timeout|t|t| |t|t].
  - by apply send_call_good.
  - by apply urgent_call_good.
  - by apply recv_call_good.
  - by apply mq_run_good.
  - by apply timeout_good.
  - cbn [mq_step]. apply kernel_good; try done; [|by left]. by split; apply (inv_waits _ Hs).
  - by apply mq_reset_good.
  - destruct Ha as (Hi & Hr & Hty). cbn [mq_step]. rewrite Hty. destruct (idle_thread s t Hi) as [Hh Hb].
    apply stay_good; try done; by left.
Qed.

Lemma mq_reach_inv s0 s : reach s0 s -> inv s /\ capacity s = capacity s0 /\ msg_size (mq s.(core)) = msg_size (mq s0.(core)).
Proof.
  induction 1 as [Hi|s a l s' _ (IH & Ec & Em) Ha E]; [split; [by apply mq_initial_inv|done]|].
  destruct (decide (overtaken a s)) as [Ho|Ho]; [by rewrite mq_overtaken in E|].
  destruct (mq_good s a IH Ha Ho) as (l' & s'' & E' & Hi & Ec' & Em' & _). rewrite E in E'. injection E' as <- <-. split; [done|]. split; congruence.
Qed.


(** A pool of three nodes; thread 1 waits for a message, thread 0 sends two and an
    urgent one. *)
Definition demo_core : qsys :=
  mk_qsys (mk_kernel 0 (fun _ => mk_thread 10 0 RT_THREAD_READY None) (fun _ => []))
    (mk_mq false 0 0 0 0 None None None (fun _ => None) (fun _ => [])).

Definition demo_start : option sys :=
  match rt_mq_init 4 24 0 (fun _ => [0; 0; 0; 0]) demo_core with
  | Some (_, c) => Some (mk_sys c (fun _ => Idle))
  | None => None
  end.

Fixpoint run_all (l : list action) (s : sys) : option (list qlabel * sys) :=
  match l with
  | [] => Some ([], s)
  | a :: l =>
      match mq_step a s with
      | Some (x, s) => match run_all l s with Some (xs, s) => Some (x :: xs, s) | None => None end
      | None => None
      end
  end.

(** A run of steps that are possible. *)
Fixpoint run_ok (l : list action) (s : sys) : Prop :=
  match l with
  | [] => True
  | a :: l => enabled a s /\ match mq_step a s with Some (_, s) => run_ok l s | None => True end
  end.

Lemma reach_run s0 l : forall s xs s', reach s0 s -> run_ok l s -> run_all l s = Some (xs, s') -> reach s0 s'.
Proof.
  induction l as [|a l IH]; intros s xs s' Hr Hok E; cbn [run_all] in E; [by injection E as <- <-|].
  destruct Hok as [Ha Hok]. destruct (mq_step a s) as [[x s1]|] eqn:Es; [|done].
  destruct (run_all l s1) as [[ys s2]|] eqn:El; [|done]. injection E as <- <-.
  apply (IH s1 ys s2); [|done|done]. by apply (reach_step s0 s a x).
Qed.

Definition demo_run : list action :=
  [ARecv 1 3 100; ASend 0 [7; 8] 0; ARun 0; ASend 0 [9] 0; ARun 0; ARun 1; ARun 1; AUrgent 0 [5]; ARun 0].


End MqSystem.
