(* ===== verification/MemPool.v ===== *)
(** * Memory pools

    src/rt-thread/src/mempool.c: a pool of blocks of one size; a block that is free
    links to the next free one, a block that is in use to its pool.  A function is
    cut where it calls [rt_schedule]. *)

From Stdlib Require Import ZArith Lia.
From stdpp Require Import prelude functions list.
From S2P Require Import Prelude Kernel Mailbox Heap.
Open Scope Z_scope.
Open Scope c_scope.

Module Mp.

(** Blocks are named by their number in the pool. *)
Abbreviation block := nat.

(** The word before a block. *)
Inductive header := Free (next : option block) | InUse.

(** [is_mp] is [rt_object_get_type(...) == RT_Object_Class_MemPool]. *)
Record rt_mempool := mk_mp {
  is_mp : bool;
  size : Z;
  block_size : Z;
  block_list : option block;
  block_total_count : Z;
  block_free_count : Z;
  headers : block -> header
}.

Record psys := mk_psys {
  ps_krn : kernel;
  mp : rt_mempool
}.

#[export] Instance psys_kernel : HasKernel psys := {|
  krn := ps_krn;
  put_krn k s := mk_psys k s.(mp)
|}.

Abbreviation P := (M psys).

Definition on_mp (f : rt_mempool -> rt_mempool) : P unit := modify (fun s => mk_psys s.(ps_krn) (f s.(mp))).

(** The first free block, the number of free ones, and a header. *)
Definition with_blocks (l : option block) (count : Z) (b : block) (h : header) (m : rt_mempool) : rt_mempool :=
  mk_mp m.(is_mp) m.(size) m.(block_size) l m.(block_total_count) count (<[b := h]> m.(headers)).

(** ** Setting up *)

(** The loop of [rt_mp_init] from [offset] on. *)
Fixpoint link_blocks (more : nat) (offset : block) (h : block -> header) : block -> header :=
  match more with
  | O => h
  | S more => link_blocks more (S offset) (<[offset := Free (Some (S offset))]> h)
  end.

(** Without a single block, the word before the pool would be written. *)
Definition rt_mp_init (size_ block_size_ : Z) : P Z :=
  if (size_ <=? 0) || (block_size_ <=? 0) then undefined
  else
    let sz := RT_ALIGN_DOWN size_ RT_ALIGN_SIZE in
    let bs := u32 (RT_ALIGN block_size_ RT_ALIGN_SIZE) in
    let total := sz / (bs + 4) in
    if total =? 0 then undefined
    else
      let h := link_blocks (Z.to_nat total) 0 (fun _ => InUse) in
      on_mp (fun _ => mk_mp true sz bs (Some 0%nat) total total (<[Z.to_nat (total - 1) := Free None]> h)) ;;;
      on_krn (fun k => mk_kernel k.(rt_tick) k.(tcb) (<[suspend_thread := []]> k.(waitq))) ;;;
      ret RT_EOK.

Definition mp_object_detach : P unit :=
  on_mp (fun m => mk_mp false m.(size) m.(block_size) m.(block_list) m.(block_total_count) m.(block_free_count) m.(headers)).

(** ** Operations *)

(** A call returns, with a block or without one, or blocks. *)
Inductive outcome := Done (b : option block) | Blocked (time before_sleep : Z).

(** [rt_list_insert_after] on the list itself: the new thread is the first. *)
Definition mp_suspend (t : tid) : P unit :=
  rt_thread_suspend t ;;;
  on_krn (fun k => mk_kernel k.(rt_tick) k.(tcb) (<[suspend_thread := t :: k.(waitq) suspend_thread]> k.(waitq))).

(** One round of the loop of [rt_mp_alloc], and taking the block. *)
Definition mp_alloc_round (t : tid) (time : Z) : P outcome :=
  m <- gets mp ;;
  if m.(block_free_count) =? 0 then
    if time =? 0 then set_error t (- RT_ETIMEOUT) ;;; ret (Done None)
    else
      set_error t RT_EOK ;;;
      mp_suspend t ;;;
      if 0 <? time then
        before_sleep <- rt_tick_get ;;
        start_timer t time ;;;
        ret (Blocked time before_sleep)
      else ret (Blocked time 0)
  else
    match m.(block_list) with
    | None => undefined
    | Some b =>
        match m.(headers) b with
        | Free next => on_mp (with_blocks next (m.(block_free_count) - 1) b InUse) ;;; ret (Done (Some b))
        | InUse => undefined
        end
    end.

Definition rt_mp_alloc (t : tid) (time : Z) : P outcome := mp_alloc_round t time.

(** [rt_mp_alloc] after its call of [rt_schedule]. *)
Definition mp_alloc_resumed (t : tid) (time before_sleep : Z) : P outcome :=
  th <- thread_of t ;;
  if negb (error th =? RT_EOK) then ret (Done None) else
  now <- rt_tick_get ;;
  mp_alloc_round t (remaining time before_sleep now).

(** The pool of a block is found in its header. *)
Definition rt_mp_free (b : option block) : P unit :=
  match b with
  | None => ret tt
  | Some b =>
      m <- gets mp ;;
      match m.(headers) b with
      | Free _ => undefined
      | InUse =>
          on_mp (with_blocks (Some b) (u32 (m.(block_free_count) + 1)) b (Free m.(block_list))) ;;;
          l <- gets (fun s => waitq (krn s) suspend_thread) ;;
          match l with
          | [] => ret tt
          | t :: _ =>
              set_error t RT_EOK ;;;
              rt_thread_resume t ;;;
              ret tt
          end
      end
  end.

End Mp.
