(* ===== verification/MemPoolSystem.v ===== *)
(** * Threads sharing a memory pool

    Any number of threads take blocks of one pool (MemPool.v), wait for them, time
    out and give them back, in any order and under any schedule. *)

From Stdlib Require Import ZArith Lia.
From stdpp Require Import prelude functions list.
From S2P Require Import Prelude Kernel KernelSpec Wakes Mailbox MailboxSpec Heap MemPool.
Import Mp.
Open Scope Z_scope.
Open Scope c_scope.

#[export] Instance psys_laws : KernelLaws psys.
Proof. split; [done|done|by intros []]. Qed.

(** ** Free blocks *)

(** The free blocks from pointer [p] on are [l]. *)
Fixpoint free_chain (h : block -> header) (p : option block) (l : list block) : Prop :=
  match l with
  | [] => p = None
  | b :: l => p = Some b /\ exists next, h b = Free next /\ free_chain h next l
  end.

Lemma free_chain_other h b x p l : b ∉ l -> free_chain h p l -> free_chain (<[b := x]> h) p l.
Proof.
  revert p. induction l as [|y l IH]; intros p Hb; [done|]. apply not_elem_of_cons in Hb as [Hy Hb].
  intros (-> & next & E & Hc). split; [done|]. exists next. rewrite fn_lookup_insert_ne by done. split; [done|]. by apply IH.
Qed.

(** [fl]: the free blocks; [own]: the ones in use. *)
Record pool_ok (m : rt_mempool) (fl own : list block) : Prop := {
  po_free : free_chain m.(headers) m.(block_list) fl;
  po_own b : b ∈ own -> m.(headers) b = InUse;
  po_nodup : NoDup (fl ++ own);
  po_count : m.(block_free_count) = Z.of_nat (length fl);
  po_total : m.(block_total_count) = Z.of_nat (length (fl ++ own));
  po_max : m.(block_total_count) < 2 ^ 32
}.

Lemma pool_take m b next fl own :
  pool_ok m (b :: fl) own -> m.(headers) b = Free next ->
  pool_ok (with_blocks next (m.(block_free_count) - 1) b InUse m) fl (b :: own) /\ b ∉ own.
Proof.
  intros [(E & n & Eh & H1) H2 H3 H4 H5 H6] En. rewrite En in Eh. injection Eh as <-. cbn in H3. apply NoDup_cons in H3 as [Hb H3].
  rewrite elem_of_app in Hb. split; [|tauto]. split; cbn [with_blocks headers block_list block_free_count block_total_count].
  - apply free_chain_other; [tauto|done].
  - intros x [->|Hx]%elem_of_cons; [by rewrite fn_lookup_insert|]. rewrite fn_lookup_insert_ne by (intros ->; tauto). by apply H2.
  - rewrite <- Permutation_middle. constructor; [rewrite elem_of_app; tauto|done].
  - rewrite H4. cbn [length]. lia.
  - rewrite H5, <- Permutation_middle. done.
  - done.
Qed.

Lemma pool_give m b fl own1 own2 :
  pool_ok m fl (own1 ++ b :: own2) ->
  pool_ok (with_blocks (Some b) (u32 (m.(block_free_count) + 1)) b (Free m.(block_list)) m) (b :: fl) (own1 ++ own2).
Proof.
  intros [H1 H2 H3 H4 H5 H6]. assert (fl ++ own1 ++ b :: own2 ≡ₚ b :: fl ++ own1 ++ own2) as Hp by (by rewrite <- !Permutation_middle).
  rewrite Hp in H3. apply NoDup_cons in H3 as [Hb H3]. rewrite !elem_of_app in Hb. assert (b ∉ fl) as Hbf by tauto.
  split; cbn [with_blocks headers block_list block_free_count block_total_count].
  - split; [done|]. exists (block_list m). rewrite fn_lookup_insert. split; [done|]. by apply free_chain_other.
  - intros x Hx. apply elem_of_app in Hx. rewrite fn_lookup_insert_ne by (intros ->; tauto). apply H2. rewrite elem_of_app, elem_of_cons. tauto.
  - cbn [app]. constructor; [rewrite !elem_of_app; tauto|done].
  - rewrite H5, Hp in H6. cbn [length] in H6. rewrite length_app in H6. rewrite H4, u32_small by lia. cbn [length]. lia.
  - by rewrite H5, Hp.
  - done.
Qed.

(** What [rt_mp_init] sets up. *)
Lemma link_blocks_other more offset h b : (b < offset)%nat -> link_blocks more offset h b = h b.
Proof.
  revert offset h. induction more as [|more IH]; intros offset h Hb; cbn [link_blocks]; [done|]. rewrite IH by lia.
  by rewrite fn_lookup_insert_ne by lia.
Qed.

Lemma link_blocks_at more offset h b : (offset <= b < offset + more)%nat -> link_blocks more offset h b = Free (Some (S b)).
Proof.
  revert offset h. induction more as [|more IH]; intros offset h Hb; cbn [link_blocks]; [lia|].
  destruct (decide (b = offset)) as [->|Hne]; [rewrite link_blocks_other by lia; by rewrite fn_lookup_insert|]. apply IH. lia.
Qed.

Lemma blocks_chain h n : forall more b,
  (b + more = S n)%nat -> (forall x, (b <= x < n)%nat -> h x = Free (Some (S x))) -> h n = Free None -> (0 < more)%nat ->
  free_chain h (Some b) (seq b more).
Proof.
  induction more as [|more IH]; intros b Hn Hs He Hm; [lia|]. cbn [seq free_chain]. split; [done|]. destruct more as [|more].
  - exists None. replace b with n by lia. done.
  - exists (Some (S b)). split; [apply Hs; lia|]. apply IH; [lia| |done|lia]. intros x Hx. apply Hs. lia.
Qed.

Lemma mp_init_ok size_ block_size_ c :
  0 < size_ < 2 ^ 32 -> 0 < block_size_ -> let total := RT_ALIGN_DOWN size_ RT_ALIGN_SIZE / (u32 (RT_ALIGN block_size_ RT_ALIGN_SIZE) + 4) in
  0 < total < 2 ^ 32 ->
  exists c', rt_mp_init size_ block_size_ c = Some (RT_EOK, c') /\ pool_ok (mp c') (seq 0 (Z.to_nat total)) [] /\ is_mp (mp c') = true /\
    tcb (ps_krn c') = tcb (ps_krn c) /\ waitq (ps_krn c') suspend_thread = [].
Proof.
  intros Hs Hb total Ht. unfold rt_mp_init. rewrite (proj2 (Z.leb_gt size_ 0)), (proj2 (Z.leb_gt block_size_ 0)) by lia. cbn [orb]. cbv zeta.
  fold total. rewrite (proj2 (Z.eqb_neq total 0)) by lia. eexists. split; [reflexivity|]. cbn [mp ps_krn tcb waitq].
  split; [|by split_and!].
  set (h := <[Z.to_nat (total - 1) := Free None]> (link_blocks (Z.to_nat total) 0 (fun _ => InUse))).
  split; cbn [headers block_list block_free_count block_total_count].
  - apply (blocks_chain h (Z.to_nat (total - 1))); [lia| | |lia].
    + intros x Hx. unfold h. rewrite fn_lookup_insert_ne by lia. apply link_blocks_at. lia.
    + unfold h. by rewrite fn_lookup_insert.
  - by intros b ?%not_elem_of_nil.
  - rewrite app_nil_r. apply NoDup_ListNoDup, seq_NoDup.
  - rewrite length_seq. cbn. fold total. lia.
  - rewrite app_nil_r, length_seq. cbn. fold total. lia.
  - cbn. fold total. lia.
Qed.

(** ** Waiting threads *)

(** A running thread comes to wait on [q], at any place. *)
Lemma waits_insert k bl k' q t :
  waits_ok k bl -> stat (tcb k t) = RT_THREAD_READY -> stat (tcb k' t) = RT_THREAD_SUSPEND -> error (tcb k' t) = RT_EOK ->
  (forall u, u <> t -> tcb k' u = tcb k u) -> (forall u, u ∈ waitq k' q <-> u = t \/ u ∈ waitq k q) -> NoDup (waitq k' q) ->
  (forall q', q' <> q -> waitq k' q' = waitq k q') -> waits_ok k' (<[t := Some q]> bl).
Proof.
  intros Hk Hs Hs' He Hu Hq Hn Hq'. assert (forall q', t ∉ waitq k q') as Hnt by (intros q' [_ ?]%(wait_in _ _ Hk); congruence). split.
  - intros u q'. destruct (decide (q' = q)) as [->|Hne]; [rewrite Hq|rewrite Hq' by done].
    + destruct (decide (u = t)) as [->|Hut]; [rewrite fn_lookup_insert; intuition congruence|].
      rewrite fn_lookup_insert_ne, Hu, (wait_in _ _ Hk) by done. intuition congruence.
    + destruct (decide (u = t)) as [->|Hut]; [rewrite fn_lookup_insert; split; [by intros ?%Hnt|intuition congruence]|].
      rewrite fn_lookup_insert_ne, Hu, (wait_in _ _ Hk) by done. done.
  - intros q'. destruct (decide (q' = q)) as [->|Hne]; [done|]. rewrite Hq' by done. apply (wait_nodup _ _ Hk).
  - intros u. destruct (decide (u = t)) as [->|Hut]; [by rewrite fn_lookup_insert|]. rewrite fn_lookup_insert_ne, Hu by done. apply (wait_idle _ _ Hk).
  - intros u. destruct (decide (u = t)) as [->|Hut]; [done|]. rewrite Hu by done. apply (wait_error _ _ Hk).
Qed.

(** The first thread is woken, with its error reset. *)
Definition rewoken (k : kernel) : kernel :=
  match waitq k suspend_thread with [] => k | h :: _ => resumed h (alter_thread (with_error RT_EOK) h k) end.

Lemma rewoken_ok k bl a : waits_ok k bl -> served k bl suspend_thread a -> waits_ok (rewoken k) bl /\ served (rewoken k) bl suspend_thread (a + 1).
Proof.
  intros Hk Hs. unfold rewoken. destruct (waitq k suspend_thread) as [|h r] eqn:Eq.
  { split; [done|]. destruct Hs as (l & Hl & _). exists l. split; [done|]. by rewrite Eq. }
  assert (stat (tcb k h) = RT_THREAD_SUSPEND) as Hst by (apply (waits_suspended _ _ Hk suspend_thread); rewrite Eq; left).
  pose proof (wait_error _ _ Hk h Hst) as He. set (k1 := alter_thread (with_error RT_EOK) h k).
  assert (waits_ok k1 bl) as Hk1 by (apply waits_alter; [done|done|by rewrite He]).
  assert (served k1 bl suspend_thread a) as Hs1.
  { apply (served_same _ _ _ _ _ _ Hs); [|done]. intros u. unfold coming, k1. rewrite tcb_alter. case_decide; [subst|done]. cbn [with_error stat error]. by rewrite He. }
  assert (resumed h k1 = woken suspend_thread k1) as -> by (unfold woken; change (waitq k1 suspend_thread) with (waitq k suspend_thread); by rewrite Eq).
  split; [by apply waits_woken|by apply served_wake].
Qed.

Module MpSystem.

(** ** Steps *)

Inductive pc := Idle | Allocating (time before_sleep : Z) | Detaching | Resuming.

(** [own]: the blocks that the users have. *)
Record sys := mk_sys {
  core : psys;
  pcs : tid -> pc;
  own : list block
}.

Inductive action :=
| AAlloc (t : tid) (time : Z)
| AFree (b : block)
| ARun (t : tid)
| ATimeout (t : tid)
| ATick
| ADetach (t : tid).

(** The block that a call has returned, if it has. *)
Definition after_alloc (t : tid) (r : option (outcome * psys)) (s : sys) : option (option block * sys) :=
  match r with
  | Some (Done None, k) => Some (None, mk_sys k (<[t := Idle]> s.(pcs)) s.(own))
  | Some (Done (Some b), k) => Some (Some b, mk_sys k (<[t := Idle]> s.(pcs)) (b :: s.(own)))
  | Some (Blocked time d, k) => Some (None, mk_sys k (<[t := Allocating time d]> s.(pcs)) s.(own))
  | None => None
  end.

Definition mp_step (a : action) (s : sys) : option (option block * sys) :=
  match a with
  | AAlloc t time => after_alloc t (rt_mp_alloc t time s.(core)) s
  | AFree b =>
      match rt_mp_free (Some b) s.(core) with
      | Some (_, k) => Some (None, mk_sys k s.(pcs) (filter (fun x => x <> b) s.(own)))
      | None => None
      end
  | ARun t =>
      match s.(pcs) t with
      | Idle => None
      | Allocating time d => after_alloc t (mp_alloc_resumed t time d s.(core)) s
      | Detaching =>
          match resume_all_test suspend_thread s.(core) with
          | Some (false, k) => Some (None, mk_sys k (<[t := Resuming]> s.(pcs)) s.(own))
          | Some (true, k) =>
              match mp_object_detach k with
              | Some (_, k) => Some (None, mk_sys k (<[t := Idle]> s.(pcs)) s.(own))
              | None => None
              end
          | None => None
          end
      | Resuming =>
          match resume_all_round suspend_thread s.(core) with
          | Some (_, k) => Some (None, mk_sys k (<[t := Detaching]> s.(pcs)) s.(own))
          | None => None
          end
      end
  | ATimeout t =>
      match expire_thread t s.(core) with
      | Some (_, k) => Some (None, mk_sys k s.(pcs) s.(own))
      | None => None
      end
  | ATick =>
      let k := ps_krn s.(core) in
      Some (None, mk_sys (mk_psys (mk_kernel (u32 (k.(rt_tick) + 1)) k.(tcb) k.(waitq)) (mp s.(core))) s.(pcs) s.(own))
  | ADetach t => Some (None, mk_sys s.(core) (<[t := Detaching]> s.(pcs)) s.(own))
  end.

Definition thr (s : sys) (t : tid) : rt_thread := tcb (ps_krn s.(core)) t.
Definition timeout_ok (time : Z) : Prop := - 2 ^ 31 <= time < 2 ^ 31 - 1.

(** Blocks are given back by who has them; a woken thread runs within 2^31 ticks of
    having blocked; timeouts are what the timer accepts. *)
Definition enabled (a : action) (s : sys) : Prop :=
  match a with
  | AAlloc t time => s.(pcs) t = Idle /\ stat (thr s t) = RT_THREAD_READY /\ timeout_ok time
  | AFree b => b ∈ s.(own)
  | ARun t =>
      stat (thr s t) = RT_THREAD_READY /\
      match s.(pcs) t with
      | Idle => False
      | Allocating time d => 0 < time -> elapsed d (rt_tick (ps_krn s.(core))) < 2 ^ 31
      | Detaching | Resuming => True
      end
  | ATimeout t => stat (thr s t) = RT_THREAD_SUSPEND /\ thread_timer (thr s t) <> None
  | ATick => True
  | ADetach t => s.(pcs) t = Idle /\ stat (thr s t) = RT_THREAD_READY /\ is_mp (mp s.(core)) = true
  end.

(** The body of the loop of a detach finds the list empty that its test has found
    not empty: in between the last waiting thread has timed out, or was resumed by
    someone else. *)
Definition overtaken (a : action) (s : sys) : Prop :=
  match a with
  | ARun t => s.(pcs) t = Resuming /\ waitq (ps_krn s.(core)) suspend_thread = []
  | _ => False
  end.

#[export] Instance pc_eq_dec : EqDecision pc.
Proof. solve_decision. Defined.

#[export] Instance overtaken_dec a s : Decision (overtaken a s).
Proof. destruct a; apply _. Defined.

Lemma mp_overtaken a s : overtaken a s -> mp_step a s = None.
Proof.
  destruct a as [| |t| | |]; try done. intros [Ep E]. cbn [mp_step]. rewrite Ep.
  unfold resume_all_round, bind, gets. change (krn (core s)) with (ps_krn (core s)). by rewrite E.
Qed.

(** After [rt_mp_init], with every thread ready. *)
Definition initial (s : sys) : Prop :=
  (exists fl, pool_ok (mp s.(core)) fl []) /\ (forall q, waitq (ps_krn s.(core)) q = []) /\
  (forall t, s.(pcs) t = Idle /\ stat (thr s t) = RT_THREAD_READY) /\ s.(own) = [].

Inductive reach (s0 : sys) : sys -> Prop :=
| reach_start : initial s0 -> reach s0 s0
| reach_step s a r s' : reach s0 s -> enabled a s -> mp_step a s = Some (r, s') -> reach s0 s'.

(** ** The invariant *)

Definition bl_pc (p : pc) : option qid := match p with Allocating _ _ => Some suspend_thread | _ => None end.
Definition bl (s : sys) (t : tid) : option qid := bl_pc (s.(pcs) t).
Definition pc_ok (p : pc) : Prop := match p with Allocating time _ => timeout_ok time | _ => True end.

Record inv (s : sys) : Prop := {
  inv_waits : waits_ok (ps_krn s.(core)) (bl s);
  inv_pcs t : pc_ok (s.(pcs) t);
  inv_pool : exists fl, pool_ok (mp s.(core)) fl s.(own);
  inv_served : served (ps_krn s.(core)) (bl s) suspend_thread (block_free_count (mp s.(core)))
}.

Lemma mp_waits_ext k b b' : (forall t, b' t = b t) -> waits_ok k b -> waits_ok k b'.
Proof. intros E [H1 H2 H3 H4]. split; [intros t q; rewrite E; apply H1|done|intros t; rewrite E; apply H3|done]. Qed.

Lemma mp_served_ext k b b' q a : (forall t, b' t = b t) -> served k b q a -> served k b' q a.
Proof. intros E Hs. apply (served_same _ _ _ _ _ _ Hs); [|done]. intros u. unfold coming. by rewrite E. Qed.

Lemma mp_bl_move (s : sys) k t p o u : bl (mk_sys k (<[t := p]> s.(pcs)) o) u = <[t := bl_pc p]> (bl s) u.
Proof.
  unfold bl. cbn [pcs]. destruct (decide (u = t)) as [->|Hu]; [by rewrite !fn_lookup_insert|by rewrite !fn_lookup_insert_ne].
Qed.

(** What a step has to show. *)
Definition good (s : sys) (r : option (option block * sys)) : Prop :=
  exists o s', r = Some (o, s') /\ inv s' /\ block_total_count (mp s'.(core)) = block_total_count (mp s.(core)) /\
    (forall b, o = Some b -> b ∉ s.(own)).

Lemma mp_move_inv s t p k' m' o fl :
  inv s -> waits_ok k' (<[t := bl_pc p]> (bl s)) -> pc_ok p -> pool_ok m' fl o ->
  served k' (<[t := bl_pc p]> (bl s)) suspend_thread (block_free_count m') ->
  inv (mk_sys (mk_psys k' m') (<[t := p]> s.(pcs)) o).
Proof.
  intros Hs Hw Hp Hm Hsv. split; cbn [core ps_krn mp own].
  - apply (mp_waits_ext _ _ _ (mp_bl_move s _ t p _)). done.
  - intros u. cbn [pcs]. destruct (decide (u = t)) as [->|Hu]; [by rewrite fn_lookup_insert|]. rewrite fn_lookup_insert_ne by done. apply Hs.
  - by exists fl.
  - by apply (mp_served_ext _ _ _ _ _ (mp_bl_move s _ t p _)).
Qed.

Lemma mp_initial_inv s : initial s -> inv s.
Proof.
  intros ((fl & Hm) & Hq & Ht & Ho). assert (forall t, bl s t = None) as Hb by (intros t; unfold bl; by destruct (Ht t) as [-> _]). split.
  - split.
    + intros t q. rewrite Hq, Hb. split; [by intros ?%not_elem_of_nil|by intros [? _]].
    + intros q. rewrite Hq. constructor.
    + intros t _. apply Ht.
    + intros t E. destruct (Ht t) as [_ E']. unfold thr in E'. congruence.
  - intros t. by destruct (Ht t) as [-> _].
  - exists fl. by rewrite Ho.
  - exists []. rewrite Hq. split; [|done]. split; [constructor|]. intros t. split; [by intros ?%not_elem_of_nil|]. intros [E _]. by rewrite Hb in E.
Qed.

(** ** Rounds *)

(** A running thread stops waiting for the pool. *)
Lemma mp_stop s t k' p a :
  inv s -> stat (thr s t) = RT_THREAD_READY -> (forall u, u <> t -> tcb k' u = thr s u) -> waitq k' suspend_thread = waitq (ps_krn s.(core)) suspend_thread ->
  bl_pc p = None -> a = block_free_count (mp s.(core)) ->
  served k' (<[t := bl_pc p]> (bl s)) suspend_thread (a - 1) /\ (a <= 0 \/ ~ coming (ps_krn s.(core)) (bl s) suspend_thread t -> served k' (<[t := bl_pc p]> (bl s)) suspend_thread a).
Proof.
  intros Hs Hr Hu Hq Hp ->. pose proof (inv_served _ Hs) as Hsv.
  assert (forall u, u <> t -> coming k' (<[t := bl_pc p]> (bl s)) suspend_thread u <-> coming (ps_krn (core s)) (bl s) suspend_thread u) as Hc
    by (intros u Hne; unfold coming; rewrite fn_lookup_insert_ne, Hu by done; done).
  assert (~ coming k' (<[t := bl_pc p]> (bl s)) suspend_thread t) as Hn by (unfold coming; rewrite fn_lookup_insert, Hp; by intros [? _]).
  split; [apply (served_leave _ _ _ _ _ _ t Hsv); [done|done|by rewrite Hq]|].
  intros [Ha|Ha]; [by apply (served_none _ _ _ _ _ _ t _ Hsv)|]. apply (served_same _ _ _ _ _ _ Hsv); [|by rewrite Hq].
  intros u. destruct (decide (u = t)) as [->|Hne]; [done|by apply Hc].
Qed.

(** The kernel when a thread waits for a block. *)
Definition stacked (t : tid) (time : Z) (k : kernel) : kernel :=
  let k := alter_thread (fun th => with_timer None (with_stat RT_THREAD_SUSPEND th)) t k in
  let k := mk_kernel k.(rt_tick) k.(tcb) (<[suspend_thread := t :: k.(waitq) suspend_thread]> k.(waitq)) in
  if 0 <? time then timed t time k else k.

Lemma stacked_tcb t time k u : tcb (stacked t time k) u =
  if decide (u = t) then with_timer (if 0 <? time then Some (u32 (rt_tick k + time)) else None) (with_stat RT_THREAD_SUSPEND (tcb k t)) else tcb k u.
Proof.
  unfold stacked, timed. destruct (0 <? time); rewrite ?tcb_alter; cbn [tcb rt_tick alter_thread]; case_decide as E; try subst;
    rewrite ?fn_lookup_alter; rewrite ?fn_lookup_alter_ne by done; done.
Qed.

Lemma stacked_waitq t time k q : waitq (stacked t time k) q = if decide (q = suspend_thread) then t :: waitq k suspend_thread else waitq k q.
Proof.
  assert (waitq (stacked t time k) q = <[suspend_thread := t :: waitq k suspend_thread]> (waitq k) q) as -> by (unfold stacked, timed; by destruct (0 <? time)).
  case_decide as E; [subst; by rewrite fn_lookup_insert|by rewrite fn_lookup_insert_ne].
Qed.

Lemma mp_round_good s t time :
  inv s -> stat (thr s t) = RT_THREAD_READY -> timeout_ok time -> good s (after_alloc t (mp_alloc_round t time s.(core)) s).
Proof.
  intros Hs Hr Ht. pose proof (inv_waits _ Hs) as Hw. destruct (inv_pool _ Hs) as (fl & Hm). unfold mp_alloc_round, bind at 1, gets at 1.
  pose proof (po_count _ _ _ Hm) as Hc. set (k := ps_krn (core s)) in *. set (m := mp (core s)) in *.
  assert (forall e, let k1 := alter_thread (with_error e) t k in waits_ok k1 (bl s) /\ (forall u, u <> t -> tcb k1 u = thr s u) /\ tcb k1 t = with_error e (thr s t)) as Hset.
  { intros e k1. split; [apply waits_alter; [done|done|unfold thr in Hr; fold k in Hr; congruence]|]. unfold k1.
    split; [intros u Hu; by rewrite tcb_alter, decide_False|by rewrite tcb_alter, decide_True]. }
  destruct fl as [|b fl].
  - assert (block_free_count m = 0) as H0 by (by rewrite Hc). rewrite H0, Z.eqb_refl. destruct (Z.eqb_spec time 0) as [->|Hne].
    + unfold set_error, bind. rewrite on_krn_eq. destruct (Hset (- RT_ETIMEOUT)) as (H1 & H2 & H3). fold k in H1, H2, H3.
      eexists _, _. split; [reflexivity|]. split; [|done]. apply (mp_move_inv s t Idle _ m _ []); try done.
      * apply waits_return; [done|]. cbn [krn psys_kernel]. fold k. by rewrite H3.
      * fold m. rewrite H0. apply (mp_stop s t _ Idle 0); try done. by left.
    + destruct (Hset RT_EOK) as (H1 & H2 & H3). set (k1 := alter_thread (with_error RT_EOK) t k) in *.
      match goal with |- good s (after_alloc t (?f (core s)) s) =>
        assert (f (core s) = Some (Blocked time (if 0 <? time then rt_tick k else 0), mk_psys (stacked t time k1) m)) as -> end.
      { unfold set_error, mp_suspend, rt_thread_suspend, thread_of, bind, gets. rewrite on_krn_eq. cbn [krn put_krn psys_kernel ps_krn mp]. fold k k1 m.
        rewrite H3. rewrite bool_decide_eq_true_2 by done. cbv [ret]. rewrite !on_krn_eq. cbn [krn put_krn psys_kernel ps_krn mp]. unfold stacked.
        destruct (Z.ltb_spec 0 time) as [Hp|Hp]; [|done]. unfold rt_tick_get, gets. rewrite start_timer_spec by (unfold timeout_ok in Ht; lia). done. }
      eexists _, _. split; [reflexivity|]. split; [|done]. apply (mp_move_inv s t _ _ m _ []); try done.
      * apply (waits_insert k1); [done|by rewrite H3|by rewrite stacked_tcb, decide_True|by rewrite stacked_tcb, decide_True, H3|..].
        -- intros u Hu. by rewrite stacked_tcb, decide_False.
        -- intros u. rewrite stacked_waitq, decide_True by done. apply elem_of_cons.
        -- rewrite stacked_waitq, decide_True by done. constructor; [|apply (wait_nodup _ _ H1)].
           intros [_ E]%(wait_in _ _ H1). rewrite H3 in E. cbn in E. congruence.
        -- intros q' Hq'. by rewrite stacked_waitq, decide_False.
      * apply (served_none k (bl s) suspend_thread (block_free_count m) _ _ t); [apply Hs| | |lia].
        -- intros u Hu. unfold coming. rewrite fn_lookup_insert_ne, stacked_tcb, decide_False, H2 by done. done.
        -- unfold coming. rewrite stacked_tcb, decide_True by done. intros (_ & ? & _). done.
  - rewrite (proj2 (Z.eqb_neq (block_free_count m) 0)) by (rewrite Hc; cbn; lia). destruct (po_free _ _ _ Hm) as (E & next & Eh & _). rewrite E, Eh.
    destruct (pool_take _ _ _ _ _ Hm Eh) as [Hm' Hb]. eexists _, _. split; [reflexivity|]. split; [|split; [done|by intros ? [= <-]]].
    apply (mp_move_inv s t Idle k _ _ fl); try done.
    + by apply waits_return.
    + apply (mp_stop s t k Idle (block_free_count m)); done.
Qed.

Lemma mp_free_good s b : inv s -> enabled (AFree b) s -> good s (mp_step (AFree b) s).
Proof.
  intros Hs Hb. cbn [enabled] in Hb. destruct (inv_pool _ Hs) as (fl & Hm). cbn [mp_step rt_mp_free]. unfold bind at 1, gets at 1.
  rewrite (po_own _ _ _ Hm b Hb). apply list_elem_of_split in Hb as (o1 & o2 & Eo). rewrite Eo in Hm |- *.
  pose proof (po_nodup _ _ _ Hm) as Hd. apply NoDup_app in Hd as (_ & _ & Hd). apply NoDup_app in Hd as (_ & Hd1 & Hd2). apply NoDup_cons in Hd2 as [Hd2 _].
  assert (b ∉ o1) as Hb1 by (intros Hin; apply (Hd1 _ Hin); left).
  rewrite filter_app, filter_cons_False, !filter_out by (done || by intros []). pose proof (pool_give _ _ _ _ _ Hm) as Hm'.
  set (m' := with_blocks _ _ _ _ _) in *. set (k := ps_krn (core s)) in *.
  match goal with |- good s (match ?f (core s) with _ => _ end) => assert (f (core s) = Some (tt, mk_psys (rewoken k) m')) as -> end.
  { unfold bind at 1, on_mp, modify. unfold bind at 1, gets at 1. cbn [krn psys_kernel ps_krn]. unfold rewoken. fold k.
    destruct (waitq k suspend_thread) as [|h r] eqn:Eq; [done|]. unfold set_error, bind. rewrite on_krn_eq. cbn [krn put_krn psys_kernel ps_krn mp]. fold k.
    rewrite resume_spec; [done|]. cbn [krn psys_kernel ps_krn]. rewrite tcb_alter, decide_True by done. cbn [with_error stat].
    apply (waits_suspended _ _ (inv_waits _ Hs) suspend_thread). fold k. rewrite Eq. left. }
  eexists _, _. split; [reflexivity|]. split; [|done].
  destruct (rewoken_ok k (bl s) (block_free_count (mp (core s))) (inv_waits _ Hs) (inv_served _ Hs)) as [H1 H2].
  split; cbn [core ps_krn mp own]; [done|apply Hs|by exists (b :: fl)|].
  replace (block_free_count m') with (block_free_count (mp (core s)) + 1); [done|].
  rewrite (po_count _ _ _ Hm), (po_count _ _ _ Hm'). cbn [length]. lia.
Qed.

(** A thread goes to a place where it does not wait. *)
Lemma mp_stay_good s t p m' :
  inv s -> stat (thr s t) = RT_THREAD_READY -> bl s t = None \/ error (thr s t) <> RT_EOK -> bl_pc p = None -> pc_ok p ->
  (forall fl, pool_ok (mp s.(core)) fl s.(own) -> pool_ok m' fl s.(own)) -> block_free_count m' = block_free_count (mp s.(core)) ->
  block_total_count m' = block_total_count (mp s.(core)) ->
  good s (Some (None, mk_sys (mk_psys (ps_krn s.(core)) m') (<[t := p]> s.(pcs)) s.(own))).
Proof.
  intros Hs Hr Hn Hp Hpc Hm' Ec Et. destruct (inv_pool _ Hs) as (fl & Hm). eexists _, _. split; [reflexivity|]. split; [|done].
  apply (mp_move_inv s t p _ m' _ fl); try done; [rewrite Hp; apply waits_return; [apply Hs|done]|by apply Hm'|]. rewrite Ec.
  apply (mp_stop s t _ p (block_free_count (mp (core s)))); try done. right. intros (E & _ & E'). destruct Hn as [Hn|Hn]; [congruence|done].
Qed.

(** The kernel resumes waiting threads with an error, or goes on to the next
    tick. *)
Lemma mp_cancel_inv s k' :
  inv s -> waits_ok k' (bl s) ->
  (forall u, tcb k' u = thr s u \/ stat (thr s u) = RT_THREAD_SUSPEND /\ error (tcb k' u) <> RT_EOK) ->
  (waitq k' suspend_thread <> [] -> waitq (ps_krn s.(core)) suspend_thread <> []) -> inv (mk_sys (mk_psys k' (mp s.(core))) s.(pcs) s.(own)).
Proof.
  intros Hs Hw Hu Hq. split; cbn [core ps_krn mp own]; [done|apply Hs|apply Hs|]. by apply (served_error _ _ _ (inv_served _ Hs)).
Qed.

Lemma psys_eta (c : psys) : c = mk_psys (ps_krn c) (mp c).
Proof. by destruct c. Qed.

Lemma mp_run_good s t : inv s -> enabled (ARun t) s -> ~ overtaken (ARun t) s -> good s (mp_step (ARun t) s).
Proof.
  intros Hs [Hr Hin] Hov. cbn [overtaken] in Hov. cbn [mp_step]. pose proof (inv_pcs _ Hs t) as Hp. destruct (pcs s t) as [|time d| |] eqn:Ep; [done|..]; cbn [pc_ok] in Hp.
  - unfold mp_alloc_resumed, bind at 1, thread_of, gets at 1. change (tcb (krn (core s)) t) with (thr s t).
    destruct (Z.eqb_spec (error (thr s t)) RT_EOK) as [E|E]; cbn [negb].
    + unfold bind, rt_tick_get, gets. apply mp_round_good; [done|done|]. destruct (decide (0 < time)) as [H0|H0].
      * rewrite remaining_exact by (unfold timeout_ok in Hp; auto; lia). pose proof (u32_range (rt_tick (ps_krn (core s)) - d)).
        change (krn (core s)) with (ps_krn (core s)). unfold timeout_ok, elapsed in *. lia.
      * unfold remaining. rewrite (proj2 (Z.ltb_ge 0 time)) by lia. done.
    + cbn [ret after_alloc]. rewrite (psys_eta (core s)). apply mp_stay_good; try done. by right.
  - assert (bl s t = None) as Hb by (unfold bl; by rewrite Ep). unfold resume_all_test, bind, gets, ret.
    destruct (waitq (krn (core s)) suspend_thread) as [|h r].
    + unfold mp_object_detach, on_mp, modify. apply mp_stay_good; try done; [by left|]. intros fl [H1 H2 H3 H4 H5 H6]. by split.
    + rewrite (psys_eta (core s)). apply mp_stay_good; try done. by left.
  - assert (bl s t = None) as Hb by (unfold bl; by rewrite Ep). unfold resume_all_round, bind, gets. change (krn (core s)) with (ps_krn (core s)).
    destruct (waitq (ps_krn (core s)) suspend_thread) as [|h r] eqn:Eq; [tauto|].
    assert (stat (tcb (ps_krn (core s)) h) = RT_THREAD_SUSPEND) as Hst by (apply (waits_suspended _ _ (inv_waits _ Hs) suspend_thread); rewrite Eq; left).
    rewrite resume_with_error_spec by done. set (s2 := mk_sys (mk_psys (cancelled (- RT_ERROR) h (ps_krn (core s))) (mp (core s))) (pcs s) (own s)).
    assert (inv s2) as Hs2.
    { apply mp_cancel_inv; [done|apply waits_cancelled; [apply Hs|done]| |].
      - intros u. rewrite tcb_cancelled. case_decide; [subst; right; by split|by left].
      - intros _. by rewrite Eq. }
    apply (mp_stay_good s2 t Detaching (mp (core s)) Hs2); try done; [|by left]. apply (wait_idle _ _ (inv_waits _ Hs2)). done.
Qed.

Lemma mp_good s a : inv s -> enabled a s -> ~ overtaken a s -> good s (mp_step a s).
Proof.
  intros Hs Ha Hov. destruct a as [t time|b|t|t| |t].
  - destruct Ha as (_ & Hr & Ht). by apply mp_round_good.
  - by apply mp_free_good.
  - by apply mp_run_good.
  - destruct Ha as [Hst _]. cbn [mp_step]. rewrite expire_thread_spec by done. eexists _, _. split; [reflexivity|]. split; [|done].
    apply mp_cancel_inv; [done|apply waits_timed_out; [apply Hs|done]| |].
    + intros u. destruct (decide (u = t)) as [->|Hu]; cbn [krn psys_kernel]; rewrite tcb_timed_out; [|rewrite decide_False by done; by left].
      rewrite decide_True by done. right. by split.
    + intros Hq E. apply Hq. cbn [timed_out alter_thread unlink waitq krn psys_kernel]. by rewrite E.
  - eexists _, _. split; [reflexivity|]. split; [|done]. apply mp_cancel_inv; [done|by split; apply (inv_waits _ Hs)|by left|done].
  - destruct Ha as (Hi & Hr & _). cbn [mp_step]. rewrite (psys_eta (core s)). apply mp_stay_good; try done. left. unfold bl. by rewrite Hi.
Qed.

Lemma mp_reach_inv s0 s : reach s0 s -> inv s /\ block_total_count (mp s.(core)) = block_total_count (mp s0.(core)).
Proof.
  induction 1 as [Hi|s a r s' _ (IH & Et) Ha E]; [split; [by apply mp_initial_inv|done]|].
  destruct (decide (overtaken a s)) as [Ho|Ho]; [by rewrite mp_overtaken in E|].
  destruct (mp_good s a IH Ha Ho) as (r' & s'' & E' & Hi & Et' & _). rewrite E in E'. injection E' as <- <-. split; [done|]. congruence.
Qed.


(** ** Runs *)

Definition demo_start : option sys :=
  match rt_mp_init 16 4 (mk_psys (mk_kernel 0 (fun _ => mk_thread 10 0 RT_THREAD_READY None) (fun _ => [])) (mk_mp false 0 0 None 0 0 (fun _ => InUse))) with
  | Some (_, c) => Some (mk_sys c (fun _ => Idle) [])
  | None => None
  end.

Fixpoint run_all (l : list action) (s : sys) : option (list (option block) * sys) :=
  match l with
  | [] => Some ([], s)
  | a :: l =>
      match mp_step a s with
      | Some (x, s) => match run_all l s with Some (xs, s) => Some (x :: xs, s) | None => None end
      | None => None
      end
  end.

Fixpoint run_ok (l : list action) (s : sys) : Prop :=
  match l with
  | [] => True
  | a :: l => enabled a s /\ match mp_step a s with Some (_, s) => run_ok l s | None => True end
  end.

Lemma mp_reach_run s0 l : forall s xs s', reach s0 s -> run_ok l s -> run_all l s = Some (xs, s') -> reach s0 s'.
Proof.
  induction l as [|a l IH]; intros s xs s' Hr Hok E; cbn [run_all] in E; [by injection E as <- <-|].
  destruct Hok as [Ha Hok]. destruct (mp_step a s) as [[x s1]|] eqn:Es; [|done].
  destruct (run_all l s1) as [[ys s2]|] eqn:El; [|done]. injection E as <- <-.
  apply (IH s1 ys s2); [|done|done]. by apply (reach_step s0 s a x).
Qed.

(** Two blocks; the third thread waits until the first one gives its block
    back. *)
Definition demo_run : list action := [AAlloc 1 0; AAlloc 2 0; AAlloc 3 100; AFree 0; ARun 3].


(** The thread that has come last gets the next block, since it is inserted
    before the ones that wait already. *)
Theorem last_waiter_is_served_first :
  exists s0 l s, demo_start = Some s0 /\ run_all [AAlloc 0 0; AAlloc 0 0; AAlloc 1 (-1); AAlloc 2 (-1); AFree 0] s0 = Some (l, s) /\
    stat (thr s 1) = RT_THREAD_SUSPEND /\ stat (thr s 2) = RT_THREAD_READY.
Proof.
  destruct demo_start as [s0|] eqn:E0; [|by vm_compute in E0].
  destruct (run_all [AAlloc 0 0; AAlloc 0 0; AAlloc 1 (-1); AAlloc 2 (-1); AFree 0] s0) as [[l s]|] eqn:E;
    [|vm_compute in E0; injection E0 as <-; by vm_compute in E].
  exists s0, l, s. split; [done|]. split; [done|]. vm_compute in E0. injection E0 as <-. vm_compute in E. injection E as <- <-. by vm_compute.
Qed.

End MpSystem.
