(* ===== verification/RingBuffer.v ===== *)
(** * The ring buffer

    src/rt-thread/components/drivers/src/ringbuffer.c, through which the AT
    command line and the pipes pass bytes: a pool with a read and a write
    position of 15 bits, each with a mirror bit that tells a full buffer from
    an empty one.  The pool, the memory behind [buffer_ptr], is part of the
    state; an access outside of it is undefined.  The caller's buffers are
    lists: what [ptr] points to is an argument, what is copied out is a
    result. *)

From Stdlib Require Import ZArith Lia.
From stdpp Require Import prelude list.
From S2P Require Import Prelude Heap.
Open Scope Z_scope.
Open Scope c_scope.

Module RingBuffer.

(** [read_mirror] and [write_mirror] are bit fields of width 1, the indices
    of width 15. *)
Record rt_ringbuffer := mk_rb {
  buffer_ptr : list Z;
  read_mirror : Z;
  read_index : Z;
  write_mirror : Z;
  write_index : Z;
  buffer_size : Z
}.

Definition bits1 (z : Z) : Z := z mod 2.
Definition bits15 (z : Z) : Z := z mod 2 ^ 15.

Inductive rt_ringbuffer_state := RT_RINGBUFFER_EMPTY | RT_RINGBUFFER_FULL | RT_RINGBUFFER_HALFFULL.
#[export] Instance rt_ringbuffer_state_eq_dec : EqDecision rt_ringbuffer_state.
Proof. solve_decision. Defined.

Abbreviation R := (M rt_ringbuffer).

Definition set_pool (l : list Z) (rb : rt_ringbuffer) : rt_ringbuffer :=
  mk_rb l rb.(read_mirror) rb.(read_index) rb.(write_mirror) rb.(write_index) rb.(buffer_size).
Definition set_read_mirror (x : Z) (rb : rt_ringbuffer) : rt_ringbuffer :=
  mk_rb rb.(buffer_ptr) (bits1 x) rb.(read_index) rb.(write_mirror) rb.(write_index) rb.(buffer_size).
Definition set_read_index (x : Z) (rb : rt_ringbuffer) : rt_ringbuffer :=
  mk_rb rb.(buffer_ptr) rb.(read_mirror) (bits15 x) rb.(write_mirror) rb.(write_index) rb.(buffer_size).
Definition set_write_mirror (x : Z) (rb : rt_ringbuffer) : rt_ringbuffer :=
  mk_rb rb.(buffer_ptr) rb.(read_mirror) rb.(read_index) (bits1 x) rb.(write_index) rb.(buffer_size).
Definition set_write_index (x : Z) (rb : rt_ringbuffer) : rt_ringbuffer :=
  mk_rb rb.(buffer_ptr) rb.(read_mirror) rb.(read_index) rb.(write_mirror) (bits15 x) rb.(buffer_size).

(** [rb->write_mirror = ~rb->write_mirror], and the same for reading. *)
Definition flip_write : R unit := modify (fun rb => set_write_mirror (Z.lnot rb.(write_mirror)) rb).
Definition flip_read : R unit := modify (fun rb => set_read_mirror (Z.lnot rb.(read_mirror)) rb).

(** [memcpy(&rb->buffer_ptr[i], &ptr[from], n)] *)
Definition copy_in (i : Z) (ptr : list Z) (from n : Z) : R unit :=
  pool <- gets buffer_ptr ;;
  if (0 <=? i) && (0 <=? n) && (i + n <=? Z.of_nat (length pool)) &&
     (0 <=? from) && (from + n <=? Z.of_nat (length ptr))
  then modify (set_pool (list_inserts (Z.to_nat i) (take (Z.to_nat n) (drop (Z.to_nat from) ptr)) pool))
  else undefined.

(** [memcpy(dst, &rb->buffer_ptr[i], n)] *)
Definition copy_out (i n : Z) : R (list Z) :=
  pool <- gets buffer_ptr ;;
  if (0 <=? i) && (0 <=? n) && (i + n <=? Z.of_nat (length pool))
  then ret (take (Z.to_nat n) (drop (Z.to_nat i) pool))
  else undefined.

Definition rt_ringbuffer_status (rb : rt_ringbuffer) : rt_ringbuffer_state :=
  if rb.(read_index) =? rb.(write_index) then
    if rb.(read_mirror) =? rb.(write_mirror) then RT_RINGBUFFER_EMPTY else RT_RINGBUFFER_FULL
  else RT_RINGBUFFER_HALFFULL.

Definition rt_ringbuffer_data_len (rb : rt_ringbuffer) : Z :=
  match rt_ringbuffer_status rb with
  | RT_RINGBUFFER_EMPTY => 0
  | RT_RINGBUFFER_FULL => u32 rb.(buffer_size)
  | RT_RINGBUFFER_HALFFULL =>
      if rb.(read_index) <? rb.(write_index) then u32 (rb.(write_index) - rb.(read_index))
      else u32 (rb.(buffer_size) - (rb.(read_index) - rb.(write_index)))
  end.

Definition rt_ringbuffer_space_len (rb : rt_ringbuffer) : Z :=
  u32 (rb.(buffer_size) - rt_ringbuffer_data_len rb).

(** The assertion is on the size as it is passed. *)
Definition rt_ringbuffer_init (pool : list Z) (size : Z) : R unit :=
  if 0 <? size then
    modify (fun _ => mk_rb pool 0 0 0 0 (s16 (RT_ALIGN_DOWN size RT_ALIGN_SIZE)))
  else undefined.

(** The part that [rt_ringbuffer_put] and [rt_ringbuffer_put_force] share: the
    bytes are copied, in two parts when they reach the end of the pool.  The
    result tells whether the end was reached. *)
Definition put_bytes (ptr : list Z) (from length : Z) : R bool :=
  rb <- gets id ;;
  if length <? rb.(buffer_size) - rb.(write_index) then
    copy_in rb.(write_index) ptr from length ;;;
    modify (set_write_index (rb.(write_index) + length)) ;;;
    ret false
  else
    let first := rb.(buffer_size) - rb.(write_index) in
    copy_in rb.(write_index) ptr from first ;;;
    copy_in 0 ptr (from + first) (length - first) ;;;
    flip_write ;;;
    modify (set_write_index (length - first)) ;;;
    ret true.

Definition rt_ringbuffer_put (ptr : list Z) (length : Z) : R Z :=
  rb <- gets id ;;
  let size := u16 (rt_ringbuffer_space_len rb) in
  if size =? 0 then ret 0 else
  let length := if size <? length then size else length in
  put_bytes ptr 0 length ;;;
  ret length.

Definition rt_ringbuffer_put_force (ptr : list Z) (length : Z) : R Z :=
  rb <- gets id ;;
  let space_length := u16 (rt_ringbuffer_space_len rb) in
  let from := if rb.(buffer_size) <? length then length - rb.(buffer_size) else 0 in
  let length := if rb.(buffer_size) <? length then u16 rb.(buffer_size) else length in
  wrapped <- put_bytes ptr from length ;;
  when (space_length <? length)
    (when wrapped flip_read ;;;
     modify (fun rb => set_read_index rb.(write_index) rb)) ;;;
  ret length.

(** The number of bytes and the bytes that are copied to [ptr]. *)
Definition rt_ringbuffer_get (length : Z) : R (Z * list Z) :=
  rb <- gets id ;;
  let size := rt_ringbuffer_data_len rb in
  if size =? 0 then ret (0, []) else
  let length := if size <? length then u16 size else length in
  if length <? rb.(buffer_size) - rb.(read_index) then
    l <- copy_out rb.(read_index) length ;;
    modify (set_read_index (rb.(read_index) + length)) ;;;
    ret (length, l)
  else
    let first := rb.(buffer_size) - rb.(read_index) in
    l1 <- copy_out rb.(read_index) first ;;
    l2 <- copy_out 0 (length - first) ;;
    flip_read ;;;
    modify (set_read_index (length - first)) ;;;
    ret (length, l1 ++ l2).

(** The number of bytes and the position in the pool where they are. *)
Definition rt_ringbuffer_peak : R (Z * option Z) :=
  rb <- gets id ;;
  let size := rt_ringbuffer_data_len rb in
  if size =? 0 then ret (0, None) else
  let ptr := rb.(read_index) in
  if size <? u32 (rb.(buffer_size) - rb.(read_index)) then
    modify (set_read_index (rb.(read_index) + size)) ;;;
    ret (size, Some ptr)
  else
    let size := rb.(buffer_size) - rb.(read_index) in
    flip_read ;;;
    modify (set_read_index 0) ;;;
    ret (size, Some ptr).

(** [rb->buffer_ptr[rb->write_index] = ch] *)
Definition store_char (ch : Z) : R unit :=
  rb <- gets id ;; copy_in rb.(write_index) [ch] 0 1.

Definition rt_ringbuffer_putchar (ch : Z) : R Z :=
  rb <- gets id ;;
  if rt_ringbuffer_space_len rb =? 0 then ret 0 else
  store_char ch ;;;
  if rb.(write_index) =? rb.(buffer_size) - 1 then
    flip_write ;;;
    modify (set_write_index 0) ;;;
    ret 1
  else
    modify (set_write_index (rb.(write_index) + 1)) ;;;
    ret 1.

Definition rt_ringbuffer_putchar_force (ch : Z) : R Z :=
  rb <- gets id ;;
  let old_state := rt_ringbuffer_status rb in
  store_char ch ;;;
  if rb.(write_index) =? rb.(buffer_size) - 1 then
    flip_write ;;;
    modify (set_write_index 0) ;;;
    when (bool_decide (old_state = RT_RINGBUFFER_FULL))
      (flip_read ;;; modify (fun rb => set_read_index rb.(write_index) rb)) ;;;
    ret 1
  else
    modify (set_write_index (rb.(write_index) + 1)) ;;;
    when (bool_decide (old_state = RT_RINGBUFFER_FULL))
      (modify (fun rb => set_read_index rb.(write_index) rb)) ;;;
    ret 1.

(** The number of bytes and the byte that is stored in [*ch]. *)
Definition rt_ringbuffer_getchar : R (Z * option Z) :=
  rb <- gets id ;;
  if rt_ringbuffer_data_len rb =? 0 then ret (0, None) else
  l <- copy_out rb.(read_index) 1 ;;
  if rb.(read_index) =? rb.(buffer_size) - 1 then
    flip_read ;;;
    modify (set_read_index 0) ;;;
    ret (1, hd_error l)
  else
    modify (set_read_index (rb.(read_index) + 1)) ;;;
    ret (1, hd_error l).

Definition rt_ringbuffer_reset : R unit :=
  modify (set_read_mirror 0) ;;;
  modify (set_read_index 0) ;;;
  modify (set_write_mirror 0) ;;;
  modify (set_write_index 0).

End RingBuffer.
