(* ===== verification/RingBufferSpec.v ===== *)
(** * The ring buffer is a byte queue

    The abstraction of RingBuffer.v: the bytes from the read position on, going
    round the end of the pool.  Every operation acts on them as on a queue of a
    bounded length. *)

From Stdlib Require Import ZArith Lia.
From stdpp Require Import prelude list list_numbers.
From S2P Require Import Prelude Heap RingBuffer.
Import RingBuffer.
Open Scope Z_scope.
Open Scope c_scope.

(** ** Reading round the end of the pool *)

(** [len] bytes of a pool of size [n], from position [i] on. *)
Definition ring (p : list Z) (n i len : Z) : list Z :=
  (fun k => at_ p (Z.to_nat ((i + k) mod n))) <$> seqZ 0 len.

Lemma length_ring p n i len : length (ring p n i len) = Z.to_nat len.
Proof. unfold ring. by rewrite length_fmap, length_seqZ. Qed.

Lemma ring_lookup p n i len k : 0 <= k < len -> ring p n i len !! Z.to_nat k = Some (at_ p (Z.to_nat ((i + k) mod n))).
Proof.
  intros Hk. unfold ring. rewrite list_lookup_fmap, lookup_seqZ_lt by lia. cbn [fmap option_fmap option_map].
  do 4 f_equal. lia.
Qed.

Lemma ring_0 p n i : ring p n i 0 = [].
Proof. done. Qed.

Lemma ring_ext p p' n i i' len :
  (forall k, 0 <= k < len -> at_ p (Z.to_nat ((i + k) mod n)) = at_ p' (Z.to_nat ((i' + k) mod n))) ->
  ring p n i len = ring p' n i' len.
Proof.
  intros H. unfold ring. apply list_fmap_ext. intros j k Hk. apply lookup_seqZ in Hk as [-> Hj]. apply H. lia.
Qed.

Lemma ring_mod p n i len : 0 < n -> ring p n (i mod n) len = ring p n i len.
Proof. intros Hn. apply ring_ext. intros k _. by rewrite Zplus_mod_idemp_l. Qed.

Lemma ring_app p n i a b : 0 <= a -> 0 <= b -> ring p n i (a + b) = ring p n i a ++ ring p n (i + a) b.
Proof.
  intros Ha Hb. unfold ring. rewrite seqZ_app, fmap_app by lia. f_equal.
  apply list_eq. intros j. rewrite !list_lookup_fmap.
  destruct (decide (Z.of_nat j < b)) as [Hj|Hj].
  - rewrite !lookup_seqZ_lt by lia. cbn. do 4 f_equal. lia.
  - rewrite !lookup_seqZ_ge by lia. done.
Qed.

Lemma ring_take p n i len m : 0 <= m <= len -> take (Z.to_nat m) (ring p n i len) = ring p n i m.
Proof.
  intros Hm. replace len with (m + (len - m)) by lia. rewrite ring_app by lia.
  apply take_app_length'. rewrite length_ring. lia.
Qed.

Lemma ring_drop p n i len m : 0 <= m <= len -> drop (Z.to_nat m) (ring p n i len) = ring p n (i + m) (len - m).
Proof.
  intros Hm. replace len with (m + (len - m)) at 1 by lia. rewrite ring_app by lia.
  apply drop_app_length'. rewrite length_ring. lia.
Qed.

(** Without reaching the end, it is a part of the pool. *)
Lemma ring_linear p n i len :
  0 <= i -> i + len <= n -> n <= Z.of_nat (length p) ->
  ring p n i len = take (Z.to_nat len) (drop (Z.to_nat i) p).
Proof.
  intros Hi Hl Hn. destruct (decide (0 <= len)) as [H0|H0].
  2:{ unfold ring. rewrite seqZ_nil by lia. replace (Z.to_nat len) with 0%nat by lia. done. }
  apply list_eq. intros j. destruct (decide (Z.of_nat j < len)) as [Hj|Hj].
  - replace j with (Z.to_nat (Z.of_nat j)) by lia. rewrite ring_lookup by lia.
    rewrite Z.mod_small by lia. rewrite lookup_take_lt, lookup_drop by lia.
    unfold at_. destruct (lookup_lt_is_Some_2 p (Z.to_nat i + Z.to_nat (Z.of_nat j))%nat) as [x Hx]; [lia|].
    rewrite Hx. f_equal. replace (Z.to_nat (i + Z.of_nat j)) with (Z.to_nat i + Z.to_nat (Z.of_nat j))%nat by lia.
    rewrite nth_lookup, Hx. done.
  - rewrite !lookup_ge_None_2; [done|rewrite length_take; lia|rewrite length_ring; lia].
Qed.

(** Overwriting other positions does not matter. *)
Lemma at_inserts_ne j l p k : (k < j \/ j + length l <= k)%nat -> at_ (list_inserts j l p) k = at_ p k.
Proof.
  intros [Hk|Hk]; unfold at_; rewrite !nth_lookup.
  - by rewrite list_lookup_inserts_lt.
  - by rewrite list_lookup_inserts_ge.
Qed.

Lemma at_inserts j l p k : (k < length l)%nat -> (j + length l <= length p)%nat -> at_ (list_inserts j l p) (j + k) = at_ l k.
Proof.
  intros Hk Hl. unfold at_. rewrite !nth_lookup. rewrite list_lookup_inserts by lia.
  by replace (j + k - j)%nat with k by lia.
Qed.

(** ** Well-formed buffers *)

(** A reader is behind the writer in the same mirror, or ahead of it while the
    writer is one mirror further. *)
Record wf (rb : rt_ringbuffer) : Prop := {
  wf_size : 0 < buffer_size rb < 2 ^ 15;
  wf_pool : buffer_size rb <= Z.of_nat (length (buffer_ptr rb));
  wf_read : 0 <= read_index rb < buffer_size rb;
  wf_write : 0 <= write_index rb < buffer_size rb;
  wf_mirrors : (read_mirror rb = 0 \/ read_mirror rb = 1) /\ (write_mirror rb = 0 \/ write_mirror rb = 1);
  wf_order : if read_mirror rb =? write_mirror rb then read_index rb <= write_index rb
             else write_index rb <= read_index rb
}.

Definition used (rb : rt_ringbuffer) : Z :=
  if read_mirror rb =? write_mirror rb then write_index rb - read_index rb
  else buffer_size rb - read_index rb + write_index rb.

Definition contents (rb : rt_ringbuffer) : list Z :=
  ring (buffer_ptr rb) (buffer_size rb) (read_index rb) (used rb).

Lemma used_range rb : wf rb -> 0 <= used rb <= buffer_size rb.
Proof. intros []. unfold used. destruct (_ =? _); lia. Qed.

Lemma length_contents rb : length (contents rb) = Z.to_nat (used rb).
Proof. apply length_ring. Qed.

Lemma data_len_used rb : wf rb -> rt_ringbuffer_data_len rb = used rb.
Proof.
  intros Hw. pose proof (used_range rb Hw) as Hu. destruct Hw. unfold rt_ringbuffer_data_len, rt_ringbuffer_status.
  unfold used in *. destruct (Z.eqb_spec (read_index rb) (write_index rb)) as [E|E];
    destruct (Z.eqb_spec (read_mirror rb) (write_mirror rb)) as [E'|E'].
  - lia.
  - rewrite u32_small; lia.
  - replace (read_index rb <? write_index rb) with true by lia. rewrite u32_small; lia.
  - replace (read_index rb <? write_index rb) with false by lia. rewrite u32_small; lia.
Qed.

Lemma space_len rb : wf rb -> rt_ringbuffer_space_len rb = buffer_size rb - used rb.
Proof.
  intros Hw. unfold rt_ringbuffer_space_len. rewrite data_len_used by done.
  pose proof (used_range rb Hw). pose proof (wf_size rb Hw). rewrite u32_small; lia.
Qed.

Lemma write_at rb : wf rb -> write_index rb = (read_index rb + used rb) mod buffer_size rb.
Proof.
  intros []. unfold used. destruct (_ =? _).
  - rewrite Z.mod_small; lia.
  - replace (read_index rb + (buffer_size rb - read_index rb + write_index rb))
      with (write_index rb + 1 * buffer_size rb) by lia. rewrite Z_mod_plus_full, Z.mod_small; lia.
Qed.

Lemma status_full rb : wf rb -> rt_ringbuffer_status rb = RT_RINGBUFFER_FULL <-> used rb = buffer_size rb.
Proof.
  intros []. unfold rt_ringbuffer_status, used.
  destruct (Z.eqb_spec (read_index rb) (write_index rb)); destruct (Z.eqb_spec (read_mirror rb) (write_mirror rb));
    split; intros; try done; try lia.
Qed.

(** Going forward from a position, at most once round. *)
Definition wraps (n i m : Z) : bool := n <=? i + m.
Definition flip_if (b : bool) (x : Z) : Z := if b then 1 - x else x.

Lemma forward n i m : 0 <= i < n -> 0 <= m <= n -> (i + m) mod n = if wraps n i m then i + m - n else i + m.
Proof.
  intros Hi Hm. unfold wraps. destruct (n <=? i + m) eqn:E.
  - replace (i + m) with (i + m - n + 1 * n) by lia. rewrite Z_mod_plus_full, Z.mod_small; lia.
  - apply Z.mod_small. lia.
Qed.

Lemma bits1_lnot x : x = 0 \/ x = 1 -> bits1 (Z.lnot x) = 1 - x.
Proof. by intros [->| ->]. Qed.

Lemma bits15_small x : 0 <= x < 2 ^ 15 -> bits15 x = x.
Proof. apply Z.mod_small. Qed.

(** ** Copying *)

(** Position [i + k] of [p'] holds byte [k] of the [m] bytes copied, the rest
    of the pool is as before. *)
Record copied (p p' : list Z) (n i m : Z) (ptr : list Z) (from : Z) : Prop := {
  copied_length : length p' = length p;
  copied_new : forall k, 0 <= k < m -> at_ p' (Z.to_nat ((i + k) mod n)) = at_ ptr (Z.to_nat (from + k));
  copied_old : forall k, m <= k < n -> at_ p' (Z.to_nat ((i + k) mod n)) = at_ p (Z.to_nat ((i + k) mod n))
}.

Lemma at_take_drop ptr from m k :
  0 <= from -> 0 <= k < m -> from + m <= Z.of_nat (length ptr) ->
  at_ (take (Z.to_nat m) (drop (Z.to_nat from) ptr)) (Z.to_nat k) = at_ ptr (Z.to_nat (from + k)).
Proof.
  intros Hf Hk Hl. unfold at_. rewrite !nth_lookup, lookup_take_lt, lookup_drop by lia.
  do 2 f_equal. lia.
Qed.

Lemma length_take_drop (ptr : list Z) from m :
  0 <= from -> 0 <= m -> from + m <= Z.of_nat (length ptr) ->
  length (take (Z.to_nat m) (drop (Z.to_nat from) ptr)) = Z.to_nat m.
Proof. intros. rewrite length_take, length_drop. lia. Qed.

Definition inserted (p : list Z) (i : Z) (ptr : list Z) (from m : Z) : list Z :=
  list_inserts (Z.to_nat i) (take (Z.to_nat m) (drop (Z.to_nat from) ptr)) p.

Lemma inserted_new p i ptr from m k :
  0 <= i -> 0 <= from -> 0 <= k < m -> from + m <= Z.of_nat (length ptr) -> i + m <= Z.of_nat (length p) ->
  at_ (inserted p i ptr from m) (Z.to_nat (i + k)) = at_ ptr (Z.to_nat (from + k)).
Proof.
  intros. unfold inserted. replace (Z.to_nat (i + k)) with (Z.to_nat i + Z.to_nat k)%nat by lia.
  rewrite at_inserts by (rewrite length_take_drop; lia). apply at_take_drop; lia.
Qed.

Lemma inserted_old p i ptr from m j :
  0 <= i -> 0 <= from -> 0 <= m -> from + m <= Z.of_nat (length ptr) -> (0 <= j < i \/ i + m <= j) ->
  at_ (inserted p i ptr from m) (Z.to_nat j) = at_ p (Z.to_nat j).
Proof. intros. unfold inserted. apply at_inserts_ne. rewrite length_take_drop; lia. Qed.

Lemma length_inserted p i ptr from m : length (inserted p i ptr from m) = length p.
Proof. apply length_inserts. Qed.

(** In one part, and in two. *)
Lemma copied_one p n i m ptr from :
  0 <= i < n -> 0 <= m -> i + m <= n -> n <= Z.of_nat (length p) -> 0 <= from -> from + m <= Z.of_nat (length ptr) ->
  copied p (inserted p i ptr from m) n i m ptr from.
Proof.
  intros. split; [apply length_inserted|..]; intros k Hk; rewrite forward by lia; unfold wraps.
  - destruct (n <=? i + k) eqn:E; [lia|]. apply inserted_new; lia.
  - destruct (n <=? i + k) eqn:E; apply inserted_old; lia.
Qed.

Lemma copied_two p n i m ptr from :
  0 <= i < n -> n <= i + m -> m <= n -> n <= Z.of_nat (length p) -> 0 <= from -> from + m <= Z.of_nat (length ptr) ->
  copied p (inserted (inserted p i ptr from (n - i)) 0 ptr (from + (n - i)) (m - (n - i))) n i m ptr from.
Proof.
  intros. split; [by rewrite !length_inserted|..]; intros k Hk; rewrite forward by lia; unfold wraps;
    destruct (n <=? i + k) eqn:E.
  - replace (i + k - n) with (0 + (i + k - n)) by lia.
    rewrite inserted_new by (rewrite ?length_inserted; lia). do 2 f_equal. lia.
  - rewrite inserted_old by lia. rewrite inserted_new by lia. done.
  - rewrite !inserted_old by lia. done.
  - lia.
Qed.

Lemma copied_ring_new p p' n i m ptr from :
  copied p p' n i m ptr from -> 0 <= from -> 0 <= m -> from + m <= Z.of_nat (length ptr) ->
  ring p' n i m = take (Z.to_nat m) (drop (Z.to_nat from) ptr).
Proof.
  intros [_ Hn _] Hf Hm Hl. apply list_eq. intros j. destruct (decide (Z.of_nat j < m)) as [Hj|Hj].
  - rewrite <- (Nat2Z.id j). rewrite ring_lookup, Hn by lia.
    rewrite <- (at_take_drop ptr from m (Z.of_nat j)) by lia. unfold at_. rewrite nth_lookup.
    destruct (lookup_lt_is_Some_2 (take (Z.to_nat m) (drop (Z.to_nat from) ptr)) (Z.to_nat (Z.of_nat j))) as [x Hx].
    { rewrite length_take_drop; lia. }
    by rewrite Hx.
  - rewrite !lookup_ge_None_2; [done|rewrite length_take_drop; lia|rewrite length_ring; lia].
Qed.

Lemma copied_ring_old p p' n i m ptr from i0 len :
  copied p p' n i m ptr from -> 0 <= i < n -> 0 <= m -> 0 <= i0 < n -> len + m <= n -> (i0 + len) mod n = i ->
  ring p' n i0 len = ring p n i0 len.
Proof.
  intros [_ _ Ho] Hi Hm Hi0 Hlen Hend. apply ring_ext. intros k Hk.
  assert ((i0 + k) mod n = (i + (k + n - len)) mod n) as E.
  { rewrite <- Hend, Zplus_mod_idemp_l. replace (i0 + len + (k + n - len)) with (i0 + k + 1 * n) by lia.
    by rewrite Z_mod_plus_full. }
  rewrite E. apply Ho. lia.
Qed.

(** ** Writing *)

Lemma copy_in_eq i ptr from m rb :
  0 <= i -> 0 <= m -> i + m <= Z.of_nat (length (buffer_ptr rb)) -> 0 <= from -> from + m <= Z.of_nat (length ptr) ->
  copy_in i ptr from m rb = Some (tt, set_pool (inserted (buffer_ptr rb) i ptr from m) rb).
Proof. intros. unfold copy_in. cbv [bind gets]. replace (_ && _) with true by lia. done. Qed.

(** The buffer after [m] bytes have been written to it. *)
Definition wrote (rb : rt_ringbuffer) (p' : list Z) (m : Z) : rt_ringbuffer :=
  mk_rb p' rb.(read_mirror) rb.(read_index)
    (flip_if (wraps rb.(buffer_size) rb.(write_index) m) rb.(write_mirror))
    ((rb.(write_index) + m) mod rb.(buffer_size)) rb.(buffer_size).

Lemma put_bytes_spec rb ptr from m :
  wf rb -> 0 <= m <= buffer_size rb -> 0 <= from -> from + m <= Z.of_nat (length ptr) ->
  exists p', put_bytes ptr from m rb = Some (wraps (buffer_size rb) (write_index rb) m, wrote rb p' m) /\
    copied (buffer_ptr rb) p' (buffer_size rb) (write_index rb) m ptr from.
Proof.
  intros [Hs Hp Hr Hw [_ Hm] _] Hm' Hf Hl. unfold put_bytes, wrote.
  rewrite forward by lia. unfold wraps. cbv [bind gets id].
  destruct (m <? buffer_size rb - write_index rb) eqn:E.
  - replace (buffer_size rb <=? write_index rb + m) with false by lia.
    rewrite copy_in_eq by lia. eexists. split; [|apply (copied_one _ _ _ m); lia].
    cbv [modify ret set_write_index set_pool flip_if]; cbn. rewrite bits15_small by lia. done.
  - replace (buffer_size rb <=? write_index rb + m) with true by lia.
    rewrite copy_in_eq by lia. cbv beta iota. rewrite copy_in_eq by (cbn [set_pool buffer_ptr]; rewrite ?length_inserted; lia).
    eexists. split; [|apply (copied_two _ _ _ m); lia].
    cbv [flip_write modify ret set_write_index set_write_mirror set_pool flip_if]; cbn.
    rewrite bits15_small, bits1_lnot by lia. do 3 f_equal. lia.
Qed.

(** All cases of the mirror bits. *)
Ltac mirrors rb :=
  destruct rb as [pool rm ri wm wi n];
  match goal with H : wf _ |- _ =>
    let Hr := fresh in let Hw := fresh in let Ho := fresh in
    destruct H as [? ? ? ? [Hr Hw] Ho];
    cbn [buffer_ptr read_mirror read_index write_mirror write_index buffer_size] in *;
    destruct Hr; destruct Hw; subst; cbv [Z.eqb Pos.eqb] in Ho
  end.

Ltac by_cases :=
  cbv [flip_if wraps used] in *;
  cbn [buffer_ptr read_mirror read_index write_mirror write_index buffer_size] in *;
  repeat match goal with
         | |- context [?a <=? ?b] => destruct (Z.leb_spec a b)
         | H : context [?a <=? ?b] |- _ => destruct (Z.leb_spec a b)
         end;
  change (1 - 0) with 1 in *; change (1 - 1) with 0 in *; cbv [Z.eqb Pos.eqb] in *; try lia.

Lemma wrote_fits rb p' m ptr from :
  wf rb -> 0 <= m <= buffer_size rb - used rb -> 0 <= from -> from + m <= Z.of_nat (length ptr) ->
  copied (buffer_ptr rb) p' (buffer_size rb) (write_index rb) m ptr from ->
  wf (wrote rb p' m) /\ used (wrote rb p' m) = used rb + m /\
  contents (wrote rb p' m) = contents rb ++ take (Z.to_nat m) (drop (Z.to_nat from) ptr).
Proof.
  intros Hw Hm Hf Hl Hc. pose proof (used_range rb Hw) as Hu. pose proof (write_at rb Hw) as Hwi.
  assert (wf (wrote rb p' m) /\ used (wrote rb p' m) = used rb + m) as [Hw' Hu'].
  { pose proof (copied_length _ _ _ _ _ _ _ Hc) as Hlen. clear Hc Hwi. unfold wrote.
    rewrite forward by (destruct Hw; lia). mirrors rb.
    all: split; [split; cbn [buffer_ptr read_mirror read_index write_mirror write_index buffer_size]; rewrite ?Hlen|].
    all: by_cases. }
  split; [done|]. split; [done|]. unfold contents. rewrite Hu'. cbn [wrote buffer_ptr buffer_size read_index].
  rewrite ring_app by lia. f_equal.
  - pose proof (wf_read rb Hw). pose proof (wf_write rb Hw).
    eapply copied_ring_old; [exact Hc|done|lia|done|lia|done].
  - pose proof (wf_size rb Hw). rewrite <- ring_mod by lia. rewrite <- Hwi. eapply copied_ring_new; [exact Hc|lia..].
Qed.

(** When the old bytes are overwritten, the oldest ones are dropped. *)
Definition forced (rb : rt_ringbuffer) (p' : list Z) (m : Z) : rt_ringbuffer :=
  let rb' := wrote rb p' m in
  mk_rb p' (flip_if (wraps rb.(buffer_size) rb.(write_index) m) rb.(read_mirror))
    rb'.(write_index) rb'.(write_mirror) rb'.(write_index) rb.(buffer_size).

Lemma forced_full rb p' m ptr from :
  wf rb -> read_mirror rb <> write_mirror rb -> buffer_size rb - used rb < m <= buffer_size rb ->
  0 <= from -> from + m <= Z.of_nat (length ptr) ->
  copied (buffer_ptr rb) p' (buffer_size rb) (write_index rb) m ptr from ->
  wf (forced rb p' m) /\
  contents (forced rb p' m) =
    drop (Z.to_nat (used rb + m - buffer_size rb)) (contents rb) ++ take (Z.to_nat m) (drop (Z.to_nat from) ptr).
Proof.
  intros Hw Hne Hm Hf Hl Hc. pose proof (used_range rb Hw) as Hu. pose proof (write_at rb Hw) as Hwi.
  pose proof (copied_length _ _ _ _ _ _ _ Hc) as Hlen.
  assert (wf (forced rb p' m) /\ used (forced rb p' m) = buffer_size rb) as [Hw' Hu'].
  { clear Hc Hwi. unfold forced, wrote; cbn [write_index write_mirror].
    rewrite forward by (destruct Hw; lia). mirrors rb; try lia.
    all: split; [split; cbn [buffer_ptr read_mirror read_index write_mirror write_index buffer_size]; rewrite ?Hlen|].
    all: by_cases. }
  split; [done|]. unfold contents. rewrite Hu'. cbn [forced wrote buffer_ptr buffer_size read_index write_index].
  replace (buffer_size rb) with ((buffer_size rb - m) + m) at 3 by lia. rewrite ring_app by lia.
  set (n := buffer_size rb) in *. assert (0 < n) as Hn by (destruct Hw; lia).
  assert (0 <= write_index rb < n) as Hwr by (destruct Hw; lia). f_equal.
  - rewrite ring_drop by lia. rewrite (copied_ring_old (buffer_ptr rb) p' n (write_index rb) m ptr from).
    + rewrite !ring_mod by lia. replace (used rb - (used rb + m - n)) with (n - m) by lia.
      apply ring_ext. intros k Hk. do 2 f_equal. rewrite Hwi, Zplus_assoc_reverse, Zplus_mod_idemp_l.
      replace (read_index rb + used rb + (m + k)) with (read_index rb + (used rb + m - n) + k + 1 * n) by lia.
      by rewrite Z_mod_plus_full.
    + done.
    + done.
    + lia.
    + apply Z.mod_pos_bound. lia.
    + lia.
    + rewrite Zplus_mod_idemp_l. replace (write_index rb + m + (n - m)) with (write_index rb + 1 * n) by lia.
      rewrite Z_mod_plus_full. apply Z.mod_small. done.
  - rewrite <- (ring_mod p' n (_ + _)), Zplus_mod_idemp_l by lia.
    replace (write_index rb + m + (n - m)) with (write_index rb + 1 * n) by lia.
    rewrite Z_mod_plus_full, Z.mod_small by done. eapply copied_ring_new; [exact Hc|lia..].
Qed.

(** ** Reading *)

Definition took (rb : rt_ringbuffer) (m : Z) : rt_ringbuffer :=
  mk_rb rb.(buffer_ptr) (flip_if (wraps rb.(buffer_size) rb.(read_index) m) rb.(read_mirror))
    ((rb.(read_index) + m) mod rb.(buffer_size)) rb.(write_mirror) rb.(write_index) rb.(buffer_size).

Lemma took_ok rb m :
  wf rb -> 0 <= m <= used rb ->
  wf (took rb m) /\ used (took rb m) = used rb - m /\ contents (took rb m) = drop (Z.to_nat m) (contents rb).
Proof.
  intros Hw Hm. pose proof (used_range rb Hw) as Hu.
  assert (wf (took rb m) /\ used (took rb m) = used rb - m) as [Hw' Hu'].
  { unfold took. rewrite forward by (destruct Hw; lia). mirrors rb.
    all: split; [split; cbn [buffer_ptr read_mirror read_index write_mirror write_index buffer_size]|].
    all: by_cases. }
  split; [done|]. split; [done|]. unfold contents. rewrite Hu', ring_drop by lia.
  cbn [took buffer_ptr buffer_size read_index]. rewrite ring_mod by (destruct Hw; lia). done.
Qed.

Lemma copy_out_eq i m rb :
  0 <= i -> 0 <= m -> i + m <= buffer_size rb -> buffer_size rb <= Z.of_nat (length (buffer_ptr rb)) ->
  copy_out i m rb = Some (ring (buffer_ptr rb) (buffer_size rb) i m, rb).
Proof.
  intros. unfold copy_out. cbv [bind gets]. replace (_ && _) with true by lia.
  rewrite ring_linear by lia. done.
Qed.
