(* ===== verification/RingBufferSystem.v ===== *)
(** * Any sequence of operations on a ring buffer

    The operations of RingBuffer.v act on the bytes in the buffer as the
    operations of a byte queue of bounded length, in any order, and what
    [rt_ringbuffer_put_force] does where it fails to. *)

From Stdlib Require Import ZArith Lia.
From stdpp Require Import prelude list list_numbers.
From S2P Require Import Prelude Heap RingBuffer RingBufferSpec.
Import RingBuffer.
Open Scope Z_scope.
Open Scope c_scope.

(** ** Operations *)

Inductive rb_op :=
| RPut (l : list Z)
| RPutForce (l : list Z)
| RGet (n : Z)
| RPeak
| RPutchar (ch : Z)
| RPutcharForce (ch : Z)
| RGetchar
| RReset.

(** The number that is returned, and the bytes that are delivered. *)
Definition rb_exec (o : rb_op) : R (Z * list Z) :=
  match o with
  | RPut l => n <- rt_ringbuffer_put l (Z.of_nat (length l)) ;; ret (n, [])
  | RPutForce l => n <- rt_ringbuffer_put_force l (Z.of_nat (length l)) ;; ret (n, [])
  | RGet n => rt_ringbuffer_get n
  | RPeak =>
      '(n, ptr) <- rt_ringbuffer_peak ;;
      match ptr with
      | Some i => l <- copy_out i n ;; ret (n, l)
      | None => ret (n, [])
      end
  | RPutchar ch => n <- rt_ringbuffer_putchar ch ;; ret (n, [])
  | RPutcharForce ch => n <- rt_ringbuffer_putchar_force ch ;; ret (n, [])
  | RGetchar => '(n, c) <- rt_ringbuffer_getchar ;; ret (n, match c with Some c => [c] | None => [] end)
  | RReset => rt_ringbuffer_reset ;;; ret (0, [])
  end.

(** ** The byte queue *)

Definition zlen (l : list Z) : Z := Z.of_nat (length l).

(** The last [n] elements. *)
Definition lastn (n : Z) (l : list Z) : list Z := drop (Z.to_nat (zlen l - n)) l.

Inductive queue_step (cap : Z) : rb_op -> list Z -> Z * list Z -> list Z -> Prop :=
| q_put l q n : n = Z.min (zlen l) (cap - zlen q) ->
    queue_step cap (RPut l) q (n, []) (q ++ take (Z.to_nat n) l)
| q_put_force l q :
    queue_step cap (RPutForce l) q (Z.min (zlen l) cap, []) (lastn cap (q ++ l))
| q_get n q m : m = Z.min n (zlen q) ->
    queue_step cap (RGet n) q (m, take (Z.to_nat m) q) (drop (Z.to_nat m) q)
| q_peak n q : 0 <= n <= zlen q -> (n = 0 -> q = []) ->
    queue_step cap RPeak q (n, take (Z.to_nat n) q) (drop (Z.to_nat n) q)
| q_putchar ch q : zlen q < cap -> queue_step cap (RPutchar ch) q (1, []) (q ++ [ch])
| q_putchar_full ch q : zlen q = cap -> queue_step cap (RPutchar ch) q (0, []) q
| q_putchar_force ch q : queue_step cap (RPutcharForce ch) q (1, []) (lastn cap (q ++ [ch]))
| q_getchar c q : queue_step cap RGetchar (c :: q) (1, [c]) q
| q_getchar_empty : queue_step cap RGetchar [] (0, []) []
| q_reset q : queue_step cap RReset q (0, []) [].

(** Lengths are 16-bit numbers; [rt_ringbuffer_put_force] only works when
    nothing has to be overwritten, or reader and writer are in different
    mirrors. *)
Definition rb_allowed (rb : rt_ringbuffer) (o : rb_op) : Prop :=
  match o with
  | RPut l => zlen l < 65536
  | RPutForce l => zlen l < 65536 /\ (zlen l <= buffer_size rb - used rb \/ read_mirror rb <> write_mirror rb)
  | RGet n => 0 <= n < 65536
  | _ => True
  end.

(** ** Each operation *)

Lemma zlen_contents rb : wf rb -> zlen (contents rb) = used rb.
Proof. intros Hw. unfold zlen. rewrite length_contents. pose proof (used_range rb Hw). lia. Qed.

Lemma lastn_short n l : zlen l <= n -> lastn n l = l.
Proof. intros Hl. unfold lastn. by replace (Z.to_nat (zlen l - n)) with 0%nat by lia. Qed.

Lemma lastn_app n q l m :
  0 <= m -> m = Z.min (zlen l) n -> n <= zlen q + m ->
  lastn n (q ++ l) = drop (Z.to_nat (zlen q + m - n)) q ++ lastn m l.
Proof.
  intros Hm -> Hn. unfold lastn, zlen in *. rewrite length_app, drop_app. f_equal.
  - destruct (decide (Z.of_nat (length l) <= n)) as [E|E].
    + f_equal. lia.
    + rewrite !drop_ge; [done|lia..].
  - f_equal. lia.
Qed.

(** What a step has to show. *)
Definition rb_sim (o : rb_op) (rb : rt_ringbuffer) : Prop :=
  exists r rb', rb_exec o rb = Some (r, rb') /\ wf rb' /\ buffer_size rb' = buffer_size rb /\
    queue_step (buffer_size rb) o (contents rb) r (contents rb').

Lemma put_eq rb l :
  wf rb -> zlen l < 65536 ->
  exists p', let m := Z.min (zlen l) (buffer_size rb - used rb) in
    (m = 0 /\ rt_ringbuffer_put l (zlen l) rb = Some (0, rb) \/
     rt_ringbuffer_put l (zlen l) rb = Some (m, wrote rb p' m) /\
     copied (buffer_ptr rb) p' (buffer_size rb) (write_index rb) m l 0).
Proof.
  intros Hw Hl. pose proof (used_range rb Hw) as Hu. pose proof (wf_size rb Hw) as Hs. cbv zeta.
  unfold rt_ringbuffer_put. cbv [bind gets id]. rewrite space_len, u16_small by (done || lia).
  destruct (Z.eqb_spec (buffer_size rb - used rb) 0) as [E|E].
  { exists []. left. unfold zlen. split; [lia|done]. }
  set (m := if _ <? _ then _ else _). assert (m = Z.min (zlen l) (buffer_size rb - used rb)) as Em.
  { unfold m. destruct (Z.ltb_spec (buffer_size rb - used rb) (zlen l)); lia. }
  clearbody m. rewrite <- Em. unfold zlen in Em.
  destruct (put_bytes_spec rb l 0 m Hw) as (p' & E' & Hc); [lia..|].
  exists p'. right. by rewrite E'.
Qed.

Lemma sim_put rb l : wf rb -> rb_allowed rb (RPut l) -> rb_sim (RPut l) rb.
Proof.
  intros Hw Hl. destruct (put_eq rb l Hw Hl) as (p' & H). cbv zeta in H.
  pose proof (used_range rb Hw). unfold rb_sim, rb_exec. change (Z.of_nat (length l)) with (zlen l).
  destruct H as [[Hm E]|[E Hc]].
  - rewrite (bind_eq _ _ _ _ _ E). eexists _, _. split; [reflexivity|]. split; [done|]. split; [done|].
    replace (contents rb) with (contents rb ++ take (Z.to_nat 0) l) at 2 by (cbn; apply app_nil_r).
    constructor. rewrite zlen_contents by done. done.
  - rewrite (bind_eq _ _ _ _ _ E). eexists _, _. split; [reflexivity|].
    destruct (wrote_fits rb p' (Z.min (zlen l) (buffer_size rb - used rb)) l 0 Hw) as (Hw' & _ & ->);
      [unfold zlen; lia|lia|unfold zlen; lia|done|].
    split; [done|]. split; [done|]. rewrite drop_0. constructor. by rewrite zlen_contents.
Qed.

Lemma put_force_eq rb l :
  wf rb -> zlen l < 65536 ->
  exists p', let m := Z.min (zlen l) (buffer_size rb) in
    rt_ringbuffer_put_force l (zlen l) rb =
      Some (m, if buffer_size rb - used rb <? m then forced rb p' m else wrote rb p' m) /\
    copied (buffer_ptr rb) p' (buffer_size rb) (write_index rb) m l (zlen l - m).
Proof.
  intros Hw Hl. pose proof (used_range rb Hw) as Hu. pose proof (wf_size rb Hw) as Hs. cbv zeta.
  assert (0 <= zlen l) by (unfold zlen; lia).
  unfold rt_ringbuffer_put_force. cbv [bind gets id].
  rewrite space_len, (u16_small (buffer_size rb - used rb)), (u16_small (buffer_size rb)) by (done || lia).
  set (from := if buffer_size rb <? zlen l then zlen l - buffer_size rb else 0).
  set (m := if buffer_size rb <? zlen l then buffer_size rb else zlen l).
  assert (m = Z.min (zlen l) (buffer_size rb)) as Em.
  { unfold m. destruct (Z.ltb_spec (buffer_size rb) (zlen l)); lia. }
  assert (from = zlen l - m) as Ef.
  { rewrite Em. unfold from. destruct (Z.ltb_spec (buffer_size rb) (zlen l)); lia. }
  destruct (put_bytes_spec rb l from m Hw) as (p' & E' & Hc); [lia|lia|unfold zlen in *; lia|].
  exists p'. rewrite <- Em, <- Ef. split; [|done]. rewrite E'.
  destruct Hw as [? ? ? ? [Hrm Hwm] _].
  assert (bits15 ((write_index rb + m) mod buffer_size rb) = (write_index rb + m) mod buffer_size rb) as Eb.
  { pose proof (Z.mod_pos_bound (write_index rb + m) (buffer_size rb)). apply bits15_small. lia. }
  destruct (buffer_size rb - used rb <? m); [|done].
  destruct (wraps (buffer_size rb) (write_index rb) m) eqn:Ew;
    cbv [when bind flip_read modify ret set_read_index set_read_mirror forced wrote flip_if]; cbn;
    rewrite Ew, ?Eb, ?bits1_lnot by done; done.
Qed.

Lemma sim_put_force rb l : wf rb -> rb_allowed rb (RPutForce l) -> rb_sim (RPutForce l) rb.
Proof.
  intros Hw [Hl Hok]. destruct (put_force_eq rb l Hw Hl) as (p' & H). cbv zeta in H. destruct H as [E Hc].
  pose proof (used_range rb Hw) as Hu. pose proof (wf_size rb Hw) as Hs. pose proof (zlen_contents rb Hw) as Hz.
  assert (0 <= zlen l) by (unfold zlen; lia). unfold rb_sim, rb_exec. change (Z.of_nat (length l)) with (zlen l).
  rewrite (bind_eq _ _ _ _ _ E). eexists _, _. split; [reflexivity|].
  set (m := Z.min (zlen l) (buffer_size rb)) in *.
  assert (take (Z.to_nat m) (drop (Z.to_nat (zlen l - m)) l) = lastn m l) as El.
  { unfold lastn. apply take_ge. rewrite length_drop. unfold zlen in *. lia. }
  destruct (Z.ltb_spec (buffer_size rb - used rb) m) as [Hm|Hm].
  - destruct (forced_full rb p' m l (zlen l - m) Hw) as (Hw' & Ec); [lia|lia|lia|change (Z.of_nat (length l)) with (zlen l); lia|done|].
    split; [done|]. split; [done|]. rewrite Ec, El, <- Hz.
    rewrite <- (lastn_app (buffer_size rb) _ _ m) by lia. constructor.
  - destruct (wrote_fits rb p' m l (zlen l - m) Hw) as (Hw' & _ & Ec); [lia|lia|change (Z.of_nat (length l)) with (zlen l); lia|done|].
    split; [done|]. split; [done|]. rewrite Ec, El.
    replace (contents rb ++ lastn m l) with (lastn (buffer_size rb) (contents rb ++ l)); [constructor|].
    destruct (decide (zlen l <= buffer_size rb)) as [Hs'|Hs'].
    + rewrite (lastn_short m l) by lia. apply lastn_short. unfold zlen in *. rewrite length_app. lia.
    + replace (contents rb) with (@nil Z); [by replace m with (buffer_size rb) by lia|].
      symmetry. apply length_zero_iff_nil. unfold zlen in Hz. lia.
Qed.

Lemma get_eq rb n :
  wf rb -> 0 <= n < 65536 ->
  let m := Z.min n (used rb) in
  rt_ringbuffer_get n rb = Some ((m, take (Z.to_nat m) (contents rb)), took rb m) \/
  m = 0 /\ rt_ringbuffer_get n rb = Some ((0, []), rb).
Proof.
  intros Hw Hn m. pose proof (used_range rb Hw) as Hu. pose proof (wf_size rb Hw) as Hs.
  unfold rt_ringbuffer_get. cbv [bind gets id]. rewrite data_len_used by done.
  destruct (Z.eqb_spec (used rb) 0) as [E|E]; [right; split; [lia|done]|left].
  replace (if used rb <? n then u16 (used rb) else n) with m.
  2:{ rewrite u16_small by lia. unfold m. destruct (Z.ltb_spec (used rb) n); lia. }
  assert (0 <= m <= used rb) as Hm by lia. clearbody m. unfold contents. rewrite ring_take by done.
  destruct Hw as [? ? ? ? [Hrm _] _]. unfold took. rewrite forward by lia.
  destruct (Z.ltb_spec m (buffer_size rb - read_index rb)) as [Hl|Hl];
    unfold wraps; [replace (buffer_size rb <=? read_index rb + m) with false by lia|replace (buffer_size rb <=? read_index rb + m) with true by lia].
  - rewrite copy_out_eq by lia. cbv [modify ret set_read_index flip_if]. by rewrite bits15_small by lia.
  - rewrite !copy_out_eq by lia. cbv [modify ret set_read_index set_read_mirror flip_if flip_read].
    cbn [buffer_ptr read_mirror read_index write_mirror write_index buffer_size].
    rewrite bits15_small, bits1_lnot by (done || lia).
    replace (read_index rb + m - buffer_size rb) with (m - (buffer_size rb - read_index rb)) by lia.
    set (a := buffer_size rb - read_index rb) in *. replace (ring _ _ (read_index rb) m)
      with (ring (buffer_ptr rb) (buffer_size rb) (read_index rb) (a + (m - a))) by (f_equal; lia).
    rewrite ring_app by lia. rewrite <- (ring_mod _ _ (read_index rb + a)) by lia.
    replace (read_index rb + a) with (0 + 1 * buffer_size rb) by lia. by rewrite Z_mod_plus_full.
Qed.

Lemma sim_get rb n : wf rb -> rb_allowed rb (RGet n) -> rb_sim (RGet n) rb.
Proof.
  intros Hw Hn. pose proof (used_range rb Hw) as Hu. pose proof (zlen_contents rb Hw) as Hz. cbn in Hn.
  unfold rb_sim, rb_exec. destruct (get_eq rb n Hw Hn) as [E|[Hm E]]; cbv zeta in *; rewrite E;
    eexists _, _; (split; [reflexivity|]).
  - destruct (took_ok rb (Z.min n (used rb)) Hw) as (Hw' & _ & ->); [lia|]. split; [done|]. split; [done|].
    constructor. by rewrite Hz.
  - split; [done|]. split; [done|]. apply (q_get _ n (contents rb) 0). by rewrite Hz.
Qed.

Lemma sim_peak rb : wf rb -> rb_sim RPeak rb.
Proof.
  intros Hw. pose proof (used_range rb Hw) as Hu. pose proof (zlen_contents rb Hw) as Hz.
  pose proof (wf_size rb Hw) as Hs. pose proof (wf_read rb Hw) as Hr. pose proof (wf_pool rb Hw) as Hp.
  unfold rb_sim, rb_exec, rt_ringbuffer_peak. cbv [bind gets id]. rewrite data_len_used, u32_small by (done || lia).
  destruct (Z.eqb_spec (used rb) 0) as [E|E].
  { eexists _, _. split; [reflexivity|]. split; [done|]. split; [done|].
    assert (contents rb = []) as E0 by (apply length_zero_iff_nil; unfold zlen in *; lia).
    rewrite E0. apply (q_peak _ 0 []); [split; done|done]. }
  set (m := Z.min (used rb) (buffer_size rb - read_index rb)).
  assert (forall rb', rb' = took rb m -> exists r rb'', (l <- copy_out (read_index rb) m ;; ret (m, l)) rb' = Some (r, rb'') /\
    wf rb'' /\ buffer_size rb'' = buffer_size rb /\ queue_step (buffer_size rb) RPeak (contents rb) r (contents rb'')) as H.
  { intros rb' ->. destruct (took_ok rb m Hw) as (Hw' & _ & Ec); [lia|].
    cbv [bind]. rewrite copy_out_eq by (cbn [took buffer_size buffer_ptr]; lia). eexists _, _. split; [reflexivity|].
    split; [done|]. split; [done|]. rewrite Ec. cbn [took buffer_ptr buffer_size].
    rewrite <- (ring_take _ _ _ (used rb) m) by lia. apply q_peak; lia. }
  unfold took in H. rewrite forward in H by lia. destruct Hw as [_ _ _ _ [Hrm _] _].
  destruct (Z.ltb_spec (used rb) (buffer_size rb - read_index rb)) as [Hl|Hl].
  - replace (used rb) with m by lia. apply H. unfold wraps.
    replace (buffer_size rb <=? read_index rb + m) with false by lia. unfold set_read_index. rewrite bits15_small by lia. done.
  - replace (buffer_size rb - read_index rb) with m by lia. apply H. unfold wraps.
    replace (buffer_size rb <=? read_index rb + m) with true by lia. cbv [set_read_index set_read_mirror flip_if].
    cbn [buffer_ptr read_mirror read_index write_mirror write_index buffer_size].
    rewrite bits15_small, bits1_lnot by (done || lia). f_equal. lia.
Qed.

(** One character is a block of one byte. *)
Lemma store_char_eq rb ch :
  wf rb ->
  let p' := inserted (buffer_ptr rb) (write_index rb) [ch] 0 1 in
  store_char ch rb = Some (tt, set_pool p' rb) /\ copied (buffer_ptr rb) p' (buffer_size rb) (write_index rb) 1 [ch] 0.
Proof.
  intros []. cbv zeta. split; [|apply copied_one; cbn [length]; lia].
  unfold store_char. cbv [bind gets id]. apply copy_in_eq; cbn [length]; lia.
Qed.

Lemma wraps_one n i : 0 <= i < n -> wraps n i 1 = (i =? n - 1).
Proof. intros. unfold wraps. destruct (Z.leb_spec n (i + 1)), (Z.eqb_spec i (n - 1)); lia. Qed.

Lemma sim_putchar rb ch : wf rb -> rb_sim (RPutchar ch) rb.
Proof.
  intros Hw. pose proof (used_range rb Hw) as Hu. pose proof (zlen_contents rb Hw) as Hz.
  destruct (store_char_eq rb ch Hw) as [E Hc]. cbv zeta in *. set (p' := inserted _ _ _ _ _) in *.
  unfold rb_sim, rb_exec, rt_ringbuffer_putchar. cbv [bind gets id]. rewrite space_len by done.
  destruct (Z.eqb_spec (buffer_size rb - used rb) 0) as [E0|E0].
  { eexists _, _. split; [reflexivity|]. split; [done|]. split; [done|]. apply q_putchar_full. lia. }
  rewrite E. exists (1, []), (wrote rb p' 1).
  destruct (wrote_fits rb p' 1 [ch] 0 Hw) as (Hw' & _ & Ec); [lia|lia|cbn; lia|done|].
  split; [|split; [done|split; [done|rewrite Ec; apply q_putchar; lia]]].
  destruct Hw as [? ? ? ? [_ Hwm] _]. unfold wrote. rewrite forward, wraps_one by lia.
  destruct (Z.eqb_spec (write_index rb) (buffer_size rb - 1)) as [E1|E1];
    cbv [flip_write modify ret set_write_index set_write_mirror set_pool flip_if];
    cbn [buffer_ptr read_mirror read_index write_mirror write_index buffer_size];
    rewrite bits15_small, ?bits1_lnot by (done || lia); do 3 f_equal; lia.
Qed.

Lemma sim_putchar_force rb ch : wf rb -> rb_sim (RPutcharForce ch) rb.
Proof.
  intros Hw. pose proof (used_range rb Hw) as Hu. pose proof (zlen_contents rb Hw) as Hz.
  pose proof (wf_size rb Hw) as Hs. pose proof (status_full rb Hw) as Hf.
  destruct (store_char_eq rb ch Hw) as [E Hc]. cbv zeta in *. set (p' := inserted _ _ _ _ _) in *.
  exists (1, []), (if decide (used rb = buffer_size rb) then forced rb p' 1 else wrote rb p' 1). split.
  - unfold rb_exec, rt_ringbuffer_putchar_force. cbv [bind gets id]. rewrite E.
    destruct Hw as [? ? ? ? [Hrm Hwm] _]. unfold forced, wrote. rewrite forward, wraps_one by lia.
    destruct (decide (used rb = buffer_size rb)) as [Ef|Ef];
      [rewrite bool_decide_eq_true_2 by tauto|rewrite bool_decide_eq_false_2 by tauto];
      destruct (Z.eqb_spec (write_index rb) (buffer_size rb - 1)) as [E1|E1];
      cbv [when flip_write flip_read modify ret bind set_write_index set_read_index set_read_mirror set_write_mirror set_pool flip_if];
      cbn [buffer_ptr read_mirror read_index write_mirror write_index buffer_size];
      rewrite ?(bits15_small 0), ?(bits15_small (write_index rb + 1)), ?(bits15_small 0),
        ?(bits15_small (write_index rb + 1)), ?bits1_lnot by (done || lia);
      do 3 f_equal; lia.
  - destruct (decide (used rb = buffer_size rb)) as [Ef|Ef].
    + destruct (forced_full rb p' 1 [ch] 0 Hw) as (Hw' & Ec);
        [destruct Hw; unfold used in Ef; destruct (Z.eqb_spec (read_mirror rb) (write_mirror rb)); lia|lia|lia|cbn; lia|done|].
      split; [done|]. split; [done|]. rewrite Ec, <- Hz.
      replace (take (Z.to_nat 1) (drop (Z.to_nat 0) [ch])) with (lastn 1 [ch]) by done.
      rewrite <- (lastn_app (buffer_size rb) _ _ 1) by (try change (zlen [ch]) with 1; lia). constructor.
    + destruct (wrote_fits rb p' 1 [ch] 0 Hw) as (Hw' & _ & Ec); [lia|lia|cbn; lia|done|].
      split; [done|]. split; [done|]. rewrite Ec. change (take (Z.to_nat 1) (drop (Z.to_nat 0) [ch])) with [ch].
      rewrite <- (lastn_short (buffer_size rb) (_ ++ _)); [constructor|].
      unfold zlen in *. rewrite length_app. cbn [length]. lia.
Qed.

Lemma sim_getchar rb : wf rb -> rb_sim RGetchar rb.
Proof.
  intros Hw. pose proof (used_range rb Hw) as Hu. pose proof (zlen_contents rb Hw) as Hz.
  unfold rb_sim, rb_exec, rt_ringbuffer_getchar. cbv [bind gets id]. rewrite data_len_used by done.
  destruct (Z.eqb_spec (used rb) 0) as [E|E].
  { eexists _, _. split; [reflexivity|]. split; [done|]. split; [done|].
    assert (contents rb = []) as -> by (apply length_zero_iff_nil; unfold zlen in *; lia). constructor. }
  destruct (took_ok rb 1 Hw) as (Hw' & _ & Ec); [lia|].
  destruct (contents rb) as [|c q] eqn:Eq; [unfold zlen in Hz; cbn in Hz; lia|].
  assert (ring (buffer_ptr rb) (buffer_size rb) (read_index rb) 1 = [c]) as E1.
  { rewrite <- (ring_take _ _ _ (used rb) 1) by lia. change (ring _ _ _ (used rb)) with (contents rb). by rewrite Eq. }
  rewrite copy_out_eq by (destruct Hw; lia). rewrite E1. exists (1, [c]), (took rb 1).
  split; [|split; [done|split; [done|rewrite Ec; constructor]]].
  destruct Hw as [? ? ? ? [Hrm _] _]. unfold took. rewrite forward, wraps_one by lia.
  destruct (Z.eqb_spec (read_index rb) (buffer_size rb - 1)) as [E2|E2];
    cbv [flip_read modify ret set_read_index set_read_mirror flip_if hd_error];
    cbn [buffer_ptr read_mirror read_index write_mirror write_index buffer_size];
    rewrite bits15_small, ?bits1_lnot by (done || lia); do 3 f_equal; lia.
Qed.

Lemma sim_reset rb : wf rb -> rb_sim RReset rb.
Proof.
  intros [Hs Hp _ _ _ _]. eexists _, _. split; [reflexivity|]. split; [|split; [done|constructor]].
  split; cbn [buffer_ptr read_mirror read_index write_mirror write_index buffer_size]; [done|done|split; [done|apply Hs]..|by split; left|done].
Qed.

Lemma rb_sim_all rb o : wf rb -> rb_allowed rb o -> rb_sim o rb.
Proof.
  intros Hw Ho. destruct o.
  - by apply sim_put.
  - by apply sim_put_force.
  - by apply sim_get.
  - by apply sim_peak.
  - by apply sim_putchar.
  - by apply sim_putchar_force.
  - by apply sim_getchar.
  - by apply sim_reset.
Qed.

(** ** Any sequence of operations *)

Inductive rb_reach (pool : list Z) (size : Z) : rt_ringbuffer -> Prop :=
| rb_start rb0 rb : rt_ringbuffer_init pool size rb0 = Some (tt, rb) -> rb_reach pool size rb
| rb_next rb o r rb' : rb_reach pool size rb -> rb_allowed rb o -> rb_exec o rb = Some (r, rb') ->
    rb_reach pool size rb'.

Definition capacity (size : Z) : Z := size - size mod 4.

Lemma ring_align_down size : 4 <= size < 2 ^ 15 -> s16 (RT_ALIGN_DOWN size RT_ALIGN_SIZE) = capacity size.
Proof.
  intros Hs. unfold RT_ALIGN_DOWN, RT_ALIGN_SIZE, capacity. change (4 - 1) with 3.
  assert (Z.land size (u32 (Z.lnot 3)) = size - size mod 4) as ->.
  { change (u32 (Z.lnot 3)) with (Z.shiftl (Z.ones 30) 2).
    assert (size = 4 * (size / 4) + size mod 4) as E by (apply Z.div_mod; lia).
    transitivity (Z.shiftl (size / 4) 2); [|rewrite Z.shiftl_mul_pow2 by lia; change (2 ^ 2) with 4; lia].
    change 4 with (2 ^ 2). rewrite <- Z.shiftr_div_pow2 by lia. apply Z.bits_inj'. intros k Hk.
    rewrite Z.land_spec, !Z.shiftl_spec by lia. destruct (decide (k < 2)) as [H2|H2].
    - rewrite !(Z.testbit_neg_r _ (k - 2)) by lia. by rewrite andb_false_r.
    - rewrite Z.shiftr_spec by lia. replace (k - 2 + 2) with k by lia.
      destruct (decide (k - 2 < 30)) as [H3|H3].
      + rewrite Z.ones_spec_low by lia. by rewrite andb_true_r.
      + rewrite Z.ones_spec_high by lia. rewrite andb_false_r. symmetry. apply Z.bits_above_log2; [lia|].
        apply Z.log2_lt_pow2; [lia|]. assert (2 ^ 15 < 2 ^ k) by (apply Z.pow_lt_mono_r; lia). lia. }
  pose proof (Z.mod_pos_bound size 4). apply s16_small. lia.
Qed.

Lemma rb_reach_wf pool size rb :
  4 <= size < 2 ^ 15 -> size <= zlen pool -> rb_reach pool size rb ->
  wf rb /\ buffer_size rb = capacity size.
Proof.
  intros Hs Hp. induction 1 as [rb0 rb E|rb o r rb' _ [Hw Hc] Ho E].
  - unfold rt_ringbuffer_init in E. replace (0 <? size) with true in E by lia.
    injection E as <-. rewrite ring_align_down by done. split; [|done].
    assert (0 < capacity size <= size) by (unfold capacity; divmod).
    unfold zlen in *.
    split; cbn [buffer_ptr read_mirror read_index write_mirror write_index buffer_size]; [lia|lia|lia|lia|by split; left|done].
  - destruct (rb_sim_all rb o Hw Ho) as (r' & rb'' & E' & Hw' & Hb & _). split; congruence.
Qed.

(** C32: Started on a pool of at least 4 bytes, the ring buffer is a queue of
    bytes that holds as many as the pool's size rounded down to a multiple of 4:
    it starts empty, and whatever has been done to it, the next operation
    returns and does what it does on such a queue.  [rt_ringbuffer_put] stores
    as many bytes as fit, [rt_ringbuffer_get] delivers the oldest ones in order,
    the forcing versions drop the oldest ones, and [rt_ringbuffer_peak] hands out
    a part from the front that is not empty unless the queue is. *)
Theorem ringbuffer_refines_byte_queue pool size :
  4 <= size < 2 ^ 15 -> size <= zlen pool ->
  (forall rb0, exists rb, rt_ringbuffer_init pool size rb0 = Some (tt, rb) /\ contents rb = []) /\
  forall rb o, rb_reach pool size rb -> rb_allowed rb o ->
    exists r rb', rb_exec o rb = Some (r, rb') /\
      queue_step (capacity size) o (contents rb) r (contents rb') /\
      zlen (contents rb') <= capacity size.
Proof.
  intros Hs Hp. split.
  - intros rb0. unfold rt_ringbuffer_init. replace (0 <? size) with true by lia. eauto.
  - intros rb o Hr Ho. destruct (rb_reach_wf pool size rb Hs Hp Hr) as [Hw <-].
    destruct (rb_sim_all rb o Hw Ho) as (r & rb' & E & Hw' & Hb & Hq). exists r, rb'. split; [done|]. split; [done|].
    rewrite zlen_contents by done. pose proof (used_range rb' Hw'). lia.
Qed.

(** A buffer of 8 bytes that has taken 6, given 5 and takes 6 more. *)
Definition demo_pool : list Z := replicate 8 0.
Definition demo_rb : rt_ringbuffer := mk_rb [9; 10; 11; 12; 5; 6; 7; 8] 0 5 1 4 8.

Lemma demo_rb_reach : rb_reach demo_pool 8 demo_rb.
Proof.
  apply (rb_next _ _ (mk_rb [1; 2; 3; 4; 5; 6; 0; 0] 0 5 0 6 8) (RPut [7; 8; 9; 10; 11; 12]) (6, [])); [|done|done].
  apply (rb_next _ _ (mk_rb [1; 2; 3; 4; 5; 6; 0; 0] 0 0 0 6 8) (RGet 5) (5, [1; 2; 3; 4; 5])); [|done|done].
  apply (rb_next _ _ (mk_rb demo_pool 0 0 0 0 8) (RPut [1; 2; 3; 4; 5; 6]) (6, [])); [|done|done].
  by apply (rb_start _ _ (mk_rb [] 0 0 0 0 0)).
Qed.

Lemma ringbuffer_refines_byte_queue_witness :
  exists r rb', rb_exec (RPutForce [13; 14; 15]) demo_rb = Some (r, rb') /\
    queue_step (capacity 8) (RPutForce [13; 14; 15]) (contents demo_rb) r (contents rb') /\
    zlen (contents rb') <= capacity 8.
Proof.
  apply (ringbuffer_refines_byte_queue demo_pool 8); [lia|done|apply demo_rb_reach|].
  split; [done|right; done].
Defined.

(** Where the condition of [rb_allowed] does not hold, [rt_ringbuffer_put_force]
    loses everything: reader and writer both go to the next mirror, which makes
    the buffer look empty. *)
Theorem put_force_loses_everything rb l :
  wf rb -> zlen l < 65536 -> read_mirror rb = write_mirror rb ->
  exists n rb', rb_exec (RPutForce l) rb = Some ((n, []), rb') /\ n = Z.min (zlen l) (buffer_size rb) /\
    (buffer_size rb - used rb < n -> contents rb' = []).
Proof.
  intros Hw Hl Hm. destruct (put_force_eq rb l Hw Hl) as (p' & H). cbv zeta in H. destruct H as [E Hc].
  unfold rb_exec. change (Z.of_nat (length l)) with (zlen l). rewrite (bind_eq _ _ _ _ _ E).
  eexists _, _. split; [reflexivity|]. split; [done|]. intros Hlt. rewrite (proj2 (Z.ltb_lt _ _)) by done.
  unfold contents, forced, used, wrote. cbn [buffer_ptr read_mirror read_index write_mirror write_index buffer_size].
  by rewrite Hm, Z.eqb_refl, Z.sub_diag.
Qed.

Example put_force_bug :
  exists rb rb', rb_reach (replicate 4 0) 4 rb /\ contents rb = [1] /\
    rb_exec (RPutForce [2; 3; 4; 5]) rb = Some ((4, []), rb') /\ contents rb' = [].
Proof.
  exists (mk_rb [1; 0; 0; 0] 0 0 0 1 4), (mk_rb [5; 2; 3; 4] 1 1 1 1 4). split; [|done].
  apply (rb_next _ _ (mk_rb [0; 0; 0; 0] 0 0 0 0 4) (RPut [1]) (1, [])); [|done|done].
  by apply (rb_start _ _ (mk_rb [] 0 0 0 0 0)).
Qed.
