(* ===== verification/Sched.v ===== *)
(** * The scheduler

    src/rt-thread/src/scheduler.c and the functions of thread.c and clock.c
    that change what the scheduler chooses from: one list of ready threads per
    priority, a bitmap of the priorities whose list is not empty, and the
    running thread, which is on no list.  The kernel runs on one core, so each
    function is a step: it runs with interrupts disabled, or in stretches
    whose interleaving the callers of this file do not see.  A context switch
    is the assignment of [rt_current_thread].  Only what the scheduler knows of
    a thread is here: its timer is in Timer.v and Kernel.v, the lists on which
    suspended threads wait are in Kernel.v, and the list of objects, the stack
    and the cleanup function of a thread do not matter to the scheduler. *)

From Stdlib Require Import ZArith Lia.
From stdpp Require Import prelude functions list.
From S2P Require Import Prelude Kernel.
Open Scope Z_scope.
Open Scope c_scope.

Module Sched.

Definition RT_THREAD_PRIORITY_MAX : Z := 32.

(** ** First bit set *)

(** [__builtin_ffs] of the compiler, which the port uses: the number of the
    lowest bit set, counted from 1, or 0. *)
Definition builtin_ffs (value : Z) : Z :=
  match find (Z.testbit value) (seqZ 0 32) with Some n => n + 1 | None => 0 end.

(** The portable version. *)
Definition __lowest_bit_bitmap : list Z :=
  [0; 0; 1; 0; 2; 0; 1; 0; 3; 0; 1; 0; 2; 0; 1; 0;
   4; 0; 1; 0; 2; 0; 1; 0; 3; 0; 1; 0; 2; 0; 1; 0;
   5; 0; 1; 0; 2; 0; 1; 0; 3; 0; 1; 0; 2; 0; 1; 0;
   4; 0; 1; 0; 2; 0; 1; 0; 3; 0; 1; 0; 2; 0; 1; 0;
   6; 0; 1; 0; 2; 0; 1; 0; 3; 0; 1; 0; 2; 0; 1; 0;
   4; 0; 1; 0; 2; 0; 1; 0; 3; 0; 1; 0; 2; 0; 1; 0;
   5; 0; 1; 0; 2; 0; 1; 0; 3; 0; 1; 0; 2; 0; 1; 0;
   4; 0; 1; 0; 2; 0; 1; 0; 3; 0; 1; 0; 2; 0; 1; 0;
   7; 0; 1; 0; 2; 0; 1; 0; 3; 0; 1; 0; 2; 0; 1; 0;
   4; 0; 1; 0; 2; 0; 1; 0; 3; 0; 1; 0; 2; 0; 1; 0;
   5; 0; 1; 0; 2; 0; 1; 0; 3; 0; 1; 0; 2; 0; 1; 0;
   4; 0; 1; 0; 2; 0; 1; 0; 3; 0; 1; 0; 2; 0; 1; 0;
   6; 0; 1; 0; 2; 0; 1; 0; 3; 0; 1; 0; 2; 0; 1; 0;
   4; 0; 1; 0; 2; 0; 1; 0; 3; 0; 1; 0; 2; 0; 1; 0;
   5; 0; 1; 0; 2; 0; 1; 0; 3; 0; 1; 0; 2; 0; 1; 0;
   4; 0; 1; 0; 2; 0; 1; 0; 3; 0; 1; 0; 2; 0; 1; 0].
Definition lowest_bit (i : Z) : Z := nth (Z.to_nat i) __lowest_bit_bitmap 0.

Definition __rt_ffs (value : Z) : Z :=
  if value =? 0 then 0
  else if has value 0xff then lowest_bit (Z.land value 0xff) + 1
  else if has value 0xff00 then lowest_bit (Z.shiftr (Z.land value 0xff00) 8) + 9
  else if has value 0xff0000 then lowest_bit (Z.shiftr (Z.land value 0xff0000) 16) + 17
  else lowest_bit (Z.shiftr (Z.land value 0xff000000) 24) + 25.

(** ** State *)

(** [stat & RT_THREAD_STAT_MASK] *)
Inductive tstat := INIT | READY | SUSPEND | RUNNING | CLOSE.
#[export] Instance tstat_eq_dec : EqDecision tstat.
Proof. solve_decision. Defined.

(** [yield] is the bit RT_THREAD_STAT_YIELD of [stat]. *)
Record thread := mk_thr {
  init_priority : Z;
  current_priority : Z;
  number_mask : Z;
  stat : tstat;
  yield : bool;
  init_tick : Z;
  remaining_tick : Z
}.

Record sched := mk_sched {
  rt_thread_priority_table : Z -> list tid;
  rt_thread_ready_priority_group : Z;
  rt_scheduler_lock_nest : Z;
  rt_current_thread : option tid;
  rt_current_priority : Z;
  thr : tid -> thread
}.

Abbreviation C := (M sched).

Definition with_stat (x : tstat) (t : thread) : thread :=
  mk_thr t.(init_priority) t.(current_priority) t.(number_mask) x t.(yield) t.(init_tick) t.(remaining_tick).
Definition with_yield (y : bool) (t : thread) : thread :=
  mk_thr t.(init_priority) t.(current_priority) t.(number_mask) t.(stat) y t.(init_tick) t.(remaining_tick).
Definition with_priority (p : Z) (t : thread) : thread :=
  mk_thr t.(init_priority) p (u32 (Z.shiftl 1 p)) t.(stat) t.(yield) t.(init_tick) t.(remaining_tick).
Definition with_remaining (n : Z) (t : thread) : thread :=
  mk_thr t.(init_priority) t.(current_priority) t.(number_mask) t.(stat) t.(yield) t.(init_tick) n.

Definition put_table (x : Z -> list tid) (s : sched) : sched :=
  mk_sched x s.(rt_thread_ready_priority_group) s.(rt_scheduler_lock_nest) s.(rt_current_thread)
    s.(rt_current_priority) s.(thr).
Definition put_group (x : Z) (s : sched) : sched :=
  mk_sched s.(rt_thread_priority_table) x s.(rt_scheduler_lock_nest) s.(rt_current_thread)
    s.(rt_current_priority) s.(thr).
Definition put_lock (x : Z) (s : sched) : sched :=
  mk_sched s.(rt_thread_priority_table) s.(rt_thread_ready_priority_group) x s.(rt_current_thread)
    s.(rt_current_priority) s.(thr).
Definition put_current (t : tid) (p : Z) (s : sched) : sched :=
  mk_sched s.(rt_thread_priority_table) s.(rt_thread_ready_priority_group) s.(rt_scheduler_lock_nest)
    (Some t) p s.(thr).
Definition put_thr (f : thread -> thread) (t : tid) (s : sched) : sched :=
  mk_sched s.(rt_thread_priority_table) s.(rt_thread_ready_priority_group) s.(rt_scheduler_lock_nest)
    s.(rt_current_thread) s.(rt_current_priority) (<[t := f (s.(thr) t)]> s.(thr)).

Definition get_thr (t : tid) : C thread := gets (fun s => s.(thr) t).
Definition set_thr (f : thread -> thread) (t : tid) : C unit := modify (put_thr f t).
Definition RT_ASSERT (b : bool) : C unit := if b then ret tt else undefined.

(** [rt_thread_self()], used as a pointer. *)
Definition rt_thread_self : C tid := fun s =>
  match s.(rt_current_thread) with Some t => Some (t, s) | None => None end.

(** ** scheduler.c *)

Definition rt_system_scheduler_init : C unit :=
  modify (fun s => mk_sched (fun _ => []) 0 0 s.(rt_current_thread) s.(rt_current_priority) s.(thr)).

(** The first thread of the list of the highest priority.  The list is not
    empty where the code calls this; an entry of an empty list would be
    garbage. *)
Definition _get_highest_priority_thread : C (tid * Z) := fun s =>
  let p := builtin_ffs s.(rt_thread_ready_priority_group) - 1 in
  match s.(rt_thread_priority_table) p with
  | t :: _ => Some ((t, p), s)
  | [] => None
  end.

(** [thread->stat = x | (thread->stat & ~RT_THREAD_STAT_MASK)] keeps the
    yield bit. *)
Definition rt_schedule_insert_thread (t : tid) : C unit :=
  c <- gets rt_current_thread ;;
  if bool_decide (c = Some t) then set_thr (with_stat RUNNING) t
  else
    set_thr (with_stat READY) t ;;;
    th <- get_thr t ;;
    modify (fun s => put_table
      (<[th.(current_priority) := s.(rt_thread_priority_table) th.(current_priority) ++ [t]]>
         s.(rt_thread_priority_table)) s) ;;;
    modify (fun s => put_group (Z.lor s.(rt_thread_ready_priority_group) th.(number_mask)) s).

(** [rt_list_remove] unlinks the thread from the list it is on. *)
Definition unlink (t : tid) (s : sched) : sched :=
  put_table (fun p => filter (fun u => u <> t) (s.(rt_thread_priority_table) p)) s.

Definition rt_schedule_remove_thread (t : tid) : C unit :=
  modify (unlink t) ;;;
  th <- get_thr t ;;
  l <- gets (fun s => s.(rt_thread_priority_table) th.(current_priority)) ;;
  match l with
  | [] => modify (fun s => put_group
            (Z.land s.(rt_thread_ready_priority_group) (u32 (Z.lnot th.(number_mask)))) s)
  | _ => ret tt
  end.

Definition rt_schedule : C unit :=
  nest <- gets rt_scheduler_lock_nest ;;
  if negb (nest =? 0) then ret tt else
  group <- gets rt_thread_ready_priority_group ;;
  if group =? 0 then ret tt else
  '(hi, prio) <- _get_highest_priority_thread ;;
  cur <- rt_thread_self ;;
  th <- get_thr cur ;;
  let running := bool_decide (th.(stat) = RUNNING) in
  let stays := running && ((th.(current_priority) <? prio) ||
                           ((th.(current_priority) =? prio) && negb th.(yield))) in
  let to_thread := if stays then cur else hi in
  let need_insert_from_thread := running && negb stays in
  when running (set_thr (with_yield false) cur) ;;;
  if negb (bool_decide (to_thread = cur)) then
    modify (put_current to_thread (u8 prio)) ;;;
    when need_insert_from_thread (rt_schedule_insert_thread cur) ;;;
    rt_schedule_remove_thread to_thread ;;;
    set_thr (with_stat RUNNING) to_thread
  else
    rt_schedule_remove_thread cur ;;;
    set_thr (with_stat RUNNING) cur.

Definition rt_system_scheduler_start : C unit :=
  '(hi, _) <- _get_highest_priority_thread ;;
  modify (fun s => put_current hi s.(rt_current_priority) s) ;;;
  rt_schedule_remove_thread hi ;;;
  set_thr (fun th => with_yield false (with_stat RUNNING th)) hi.

Definition rt_enter_critical : C unit :=
  modify (fun s => put_lock (s16 (s.(rt_scheduler_lock_nest) + 1)) s).

Definition rt_exit_critical : C unit :=
  modify (fun s => put_lock (s16 (s.(rt_scheduler_lock_nest) - 1)) s) ;;;
  nest <- gets rt_scheduler_lock_nest ;;
  if nest <=? 0 then
    modify (put_lock 0) ;;;
    c <- gets rt_current_thread ;;
    match c with Some _ => rt_schedule | None => ret tt end
  else ret tt.

(** ** thread.c *)

(** [_rt_thread_init]: the fields the scheduler knows. *)
Definition _rt_thread_init (t : tid) (priority tick : Z) : C unit :=
  RT_ASSERT (priority <? RT_THREAD_PRIORITY_MAX) ;;;
  set_thr (fun _ => mk_thr priority priority 0 INIT false tick tick) t.

(** One step.  The code tests the state before it disables interrupts, and enables
    them between the removal from a list and the insertion into the ready list:
    two callers that resume the same thread are taken one after the other. *)
Definition rt_thread_resume (t : tid) : C Z :=
  th <- get_thr t ;;
  if negb (bool_decide (th.(stat) = SUSPEND)) then ret (- RT_ERROR) else
  modify (unlink t) ;;;
  rt_schedule_insert_thread t ;;;
  ret RT_EOK.

Definition rt_thread_startup (t : tid) : C Z :=
  th <- get_thr t ;;
  RT_ASSERT (bool_decide (th.(stat) = INIT)) ;;;
  set_thr (fun th => with_priority th.(init_priority) th) t ;;;
  set_thr (fun th => with_yield false (with_stat SUSPEND th)) t ;;;
  rt_thread_resume t ;;;
  c <- gets rt_current_thread ;;
  match c with Some _ => rt_schedule | None => ret tt end ;;;
  ret RT_EOK.

Definition rt_thread_suspend (t : tid) : C Z :=
  th <- get_thr t ;;
  if negb (bool_decide (th.(stat) = READY)) && negb (bool_decide (th.(stat) = RUNNING))
  then ret (- RT_ERROR) else
  c <- gets rt_current_thread ;;
  RT_ASSERT (negb (bool_decide (th.(stat) = RUNNING)) || bool_decide (c = Some t)) ;;;
  rt_schedule_remove_thread t ;;;
  set_thr (with_stat SUSPEND) t ;;;
  ret RT_EOK.

Definition rt_thread_yield : C Z :=
  t <- rt_thread_self ;;
  set_thr (fun th => with_yield true (with_remaining th.(init_tick) th)) t ;;;
  rt_schedule ;;;
  ret RT_EOK.

(** The timeout function of a thread's timer. *)
Definition rt_thread_timeout (t : tid) : C unit :=
  th <- get_thr t ;;
  RT_ASSERT (bool_decide (th.(stat) = SUSPEND)) ;;;
  modify (unlink t) ;;;
  rt_schedule_insert_thread t ;;;
  rt_schedule.

(** RT_THREAD_CTRL_CHANGE_PRIORITY *)
Definition rt_thread_change_priority (t : tid) (priority : Z) : C unit :=
  th <- get_thr t ;;
  if bool_decide (th.(stat) = READY) then
    rt_schedule_remove_thread t ;;;
    set_thr (with_priority priority) t ;;;
    rt_schedule_insert_thread t
  else set_thr (with_priority priority) t.

Definition close (th : thread) : thread := with_yield false (with_stat CLOSE th).

Definition rt_thread_exit : C unit :=
  t <- rt_thread_self ;;
  rt_schedule_remove_thread t ;;;
  set_thr close t ;;;
  rt_schedule.

(** One step, although interrupts are enabled between its parts. *)
Definition rt_thread_detach (t : tid) : C Z :=
  th <- get_thr t ;;
  if bool_decide (th.(stat) = CLOSE) then ret RT_EOK else
  when (negb (bool_decide (th.(stat) = INIT))) (rt_schedule_remove_thread t) ;;;
  set_thr close t ;;;
  ret RT_EOK.

(** ** clock.c *)

(** The time slice in [rt_tick_increase]; the tick counter and the check of the
    timers are in Timer.v. *)
Definition rt_tick_increase : C unit :=
  t <- rt_thread_self ;;
  set_thr (fun th => with_remaining (u32 (th.(remaining_tick) - 1)) th) t ;;;
  th <- get_thr t ;;
  when (th.(remaining_tick) =? 0)
    (set_thr (fun th => with_yield true (with_remaining th.(init_tick) th)) t ;;; rt_schedule).

End Sched.
