(* ===== verification/SchedSpec.v ===== *)
(** * What the scheduler chooses

    The bitmap search, the invariant of the ready lists, and the choice of the
    running thread (Sched.v). *)

From Stdlib Require Import ZArith Lia.
From stdpp Require Import prelude functions list.
From S2P Require Import Prelude Kernel Sched.
Import Sched.
Open Scope Z_scope.
Open Scope c_scope.

(** ** First bit set *)

(** [n] is the number of the lowest bit set in [v]. *)
Definition lowest (v n : Z) : Prop :=
  0 <= n /\ Z.testbit v n = true /\ forall i, 0 <= i < n -> Z.testbit v i = false.

Lemma lowest_unique v n m : lowest v n -> lowest v m -> n = m.
Proof.
  intros (Hn & Hbn & Hln) (Hm & Hbm & Hlm).
  destruct (Z.lt_trichotomy n m) as [?|[?|?]]; [|done|].
  - by rewrite Hlm in Hbn by lia.
  - by rewrite Hln in Hbm by lia.
Qed.

Lemma find_lowest (f : Z -> bool) a n k :
  find f (seqZ a n) = Some k -> a <= k < a + n /\ f k = true /\ forall i, a <= i < k -> f i = false.
Proof.
  destruct (decide (0 <= n)) as [Hn|Hn]; [|by rewrite seqZ_nil by lia].
  revert a k. pattern n. apply natlike_ind; [by intros a k|clear n Hn|done].
  intros n Hn IH a k. rewrite seqZ_cons by lia. rewrite Z.pred_succ. cbn [find].
  destruct (f a) eqn:E.
  - intros [= <-]. split_and!; [lia..|done|]. intros i. lia.
  - intros H. destruct (IH _ _ H) as (? & ? & Hlow). split_and!; [lia..|done|].
    intros i Hi. destruct (decide (i = a)) as [->|]; [done|]. apply Hlow. lia.
Qed.

Lemma find_none (f : Z -> bool) a n : find f (seqZ a n) = None -> forall i, a <= i < a + n -> f i = false.
Proof.
  intros H i Hi. eapply (find_none _ _ H). apply list_elem_of_In, elem_of_seqZ. lia.
Qed.

Lemma builtin_ffs_lowest v : 0 < v < 2 ^ 32 -> lowest v (builtin_ffs v - 1) /\ 0 < builtin_ffs v <= 32.
Proof.
  intros Hv. unfold builtin_ffs. destruct (find _ _) as [n|] eqn:E.
  - apply find_lowest in E as (? & ? & ?). replace (n + 1 - 1) with n by lia. split; [split; [lia|done]|lia].
  - exfalso. assert (v = 0); [|lia]. apply Z.bits_inj'. intros i Hi. rewrite Z.bits_0.
    destruct (decide (i < 32)); [eapply find_none; [done|lia]|].
    apply Z.bits_above_log2; [lia|]. destruct (Z.log2_lt_pow2 v 32) as [Hl _]; [lia|]. lia.
Qed.

(** The table lists the lowest bit of every byte. *)
Lemma lowest_bit_table b : 0 < b < 256 -> lowest b (lowest_bit b) /\ lowest_bit b < 8.
Proof.
  intros Hb.
  assert (forallb (fun b => match find (Z.testbit b) (seqZ 0 8) with
                            | Some n => n =? lowest_bit b | None => false end) (seqZ 1 255) = true) as Ht
    by (vm_compute; reflexivity).
  rewrite forallb_forall in Ht. specialize (Ht b). rewrite <- list_elem_of_In, elem_of_seqZ in Ht.
  specialize (Ht ltac:(lia)). cbv beta in Ht. destruct (find _ _) as [n|] eqn:E; [|done].
  apply find_lowest in E as (? & ? & ?). apply Z.eqb_eq in Ht. subst n. split; [split; [lia|done]|lia].
Qed.

(** Byte [k] of a word. *)
Lemma byte_testbit v k i :
  0 <= k -> 0 <= i < 8 -> Z.testbit (Z.shiftr (Z.land v (Z.shiftl 0xff k)) k) i = Z.testbit v (k + i).
Proof.
  intros Hk Hi. rewrite Z.shiftr_spec, Z.land_spec, Z.shiftl_spec by lia.
  change 0xff with (Z.ones 8). rewrite Z.ones_spec_low by lia. rewrite andb_true_r. f_equal. lia.
Qed.

Lemma byte_range v k : 0 <= k -> 0 <= Z.shiftr (Z.land v (Z.shiftl 0xff k)) k < 256.
Proof.
  intros Hk. rewrite Z.shiftr_land, Z.shiftr_shiftl_l, Z.sub_diag, Z.shiftl_0_r by lia.
  change 0xff with (Z.ones 8). rewrite Z.land_ones by lia. apply Z.mod_pos_bound. lia.
Qed.

(** The lowest bit of the lowest byte that is not zero. *)
Lemma byte_lowest v k :
  0 <= k -> (forall i, 0 <= i < k -> Z.testbit v i = false) -> Z.land v (Z.shiftl 0xff k) <> 0 ->
  lowest v (k + lowest_bit (Z.shiftr (Z.land v (Z.shiftl 0xff k)) k)).
Proof.
  intros Hk Hz Hnz. set (b := Z.shiftr _ _). pose proof (byte_range v k Hk) as Hr. fold b in Hr.
  assert (b <> 0) as Hb.
  { intros E. apply Hnz. apply Z.bits_inj'. intros i Hi. rewrite Z.land_spec, Z.bits_0, Z.shiftl_spec by lia.
    change 0xff with (Z.ones 8). rewrite Z.testbit_ones by lia.
    destruct ((0 <=? i - k) && (i - k <? 8)) eqn:Ei; [|by rewrite andb_false_r].
    rewrite andb_true_r. replace i with (k + (i - k)) by lia. rewrite <- byte_testbit by lia. fold b.
    by rewrite E, Z.bits_0. }
  destruct (lowest_bit_table b ltac:(lia)) as [(H0 & Ht & Hl) H8].
  split; [lia|]. split.
  - rewrite <- byte_testbit by lia. exact Ht.
  - intros i Hi. destruct (decide (i < k)); [apply Hz; lia|].
    replace i with (k + (i - k)) by lia. rewrite <- byte_testbit by lia. apply Hl. lia.
Qed.

Lemma low_byte_zero v k :
  0 <= k -> (forall i, 0 <= i < k -> Z.testbit v i = false) -> Z.land v (Z.shiftl 0xff k) = 0 ->
  forall i, 0 <= i < k + 8 -> Z.testbit v i = false.
Proof.
  intros Hk Hz H0 i Hi. destruct (decide (i < k)); [apply Hz; lia|].
  replace i with (k + (i - k)) by lia. rewrite <- byte_testbit by lia. by rewrite H0, Z.shiftr_0_l, Z.bits_0.
Qed.

Lemma byte_cases v k :
  0 <= k -> (forall i, 0 <= i < k -> Z.testbit v i = false) ->
  if has v (Z.shiftl 0xff k) then lowest v (k + lowest_bit (Z.shiftr (Z.land v (Z.shiftl 0xff k)) k))
  else forall i, 0 <= i < k + 8 -> Z.testbit v i = false.
Proof.
  intros Hk Hz. unfold has, truthy. destruct (Z.land v (Z.shiftl 255 k) =? 0) eqn:E; cbn [negb].
  - apply low_byte_zero; [done|done|lia].
  - apply byte_lowest; [done|done|lia].
Qed.

Lemma rt_ffs_lowest v : 0 < v < 2 ^ 32 -> lowest v (__rt_ffs v - 1).
Proof.
  intros Hv. unfold __rt_ffs. replace (v =? 0) with false by lia.
  change 0xff00 with (Z.shiftl 0xff 8). change 0xff0000 with (Z.shiftl 0xff 16).
  change 0xff000000 with (Z.shiftl 0xff 24).
  pose proof (byte_cases v 0 ltac:(lia) ltac:(intros; lia)) as H0. rewrite Z.shiftl_0_r, Z.shiftr_0_r in H0.
  destruct (has v 0xff); [by rewrite Z.add_simpl_r|].
  pose proof (byte_cases v 8 ltac:(lia) H0) as H1.
  destruct (has v (Z.shiftl 0xff 8)); [by replace (_ + 9 - 1) with (8 + lowest_bit (Z.shiftr (Z.land v (Z.shiftl 0xff 8)) 8)) by lia|].
  pose proof (byte_cases v 16 ltac:(lia) H1) as H2.
  destruct (has v (Z.shiftl 0xff 16)); [by replace (_ + 17 - 1) with (16 + lowest_bit (Z.shiftr (Z.land v (Z.shiftl 0xff 16)) 16)) by lia|].
  pose proof (byte_cases v 24 ltac:(lia) H2) as H3.
  destruct (has v (Z.shiftl 0xff 24)).
  - by replace (_ + 25 - 1) with (24 + lowest_bit (Z.shiftr (Z.land v (Z.shiftl 0xff 24)) 24)) by lia.
  - destruct (builtin_ffs_lowest v Hv) as [(Hn & Ht & _) Hr]. by rewrite H3 in Ht by lia.
Qed.

Lemma rt_ffs_builtin v : 0 <= v < 2 ^ 32 -> __rt_ffs v = builtin_ffs v.
Proof.
  intros Hv. destruct (decide (v = 0)) as [->|Hn]; [reflexivity|].
  destruct (builtin_ffs_lowest v ltac:(lia)) as [Hb _].
  pose proof (lowest_unique _ _ _ (rt_ffs_lowest v ltac:(lia)) Hb). lia.
Qed.

(** ** The ready lists *)

(** The mask belongs to the priority, or the thread has not been started. *)
Definition prio_ok (th : thread) : Prop :=
  0 <= current_priority th < 32 /\
  (number_mask th = Z.shiftl 1 (current_priority th) \/
   number_mask th = 0 /\ (stat th = INIT \/ stat th = CLOSE)).

(** The lists hold exactly the ready threads, each once and at its priority,
    and the bitmap the priorities of the lists that are not empty; the thread
    [x] may be in between. *)
Record lists_ok (x : option tid) (s : sched) : Prop := mk_lists {
  ok_group : 0 <= rt_thread_ready_priority_group s < 2 ^ 32;
  ok_bits : forall p, 0 <= p < 32 ->
    Z.testbit (rt_thread_ready_priority_group s) p = true <-> rt_thread_priority_table s p <> [];
  ok_ready : forall t p, t ∈ rt_thread_priority_table s p <->
    x <> Some t /\ stat (thr s t) = READY /\ current_priority (thr s t) = p;
  ok_nodup : forall p, NoDup (rt_thread_priority_table s p);
  ok_prio : forall t, prio_ok (thr s t);
  ok_init : forall t, 0 <= init_priority (thr s t) < 32
}.

(** The running thread is the current one, and the current one has been
    started and is on no list. *)
Definition current_ok (s : sched) : Prop :=
  (forall t, stat (thr s t) = RUNNING -> rt_current_thread s = Some t) /\
  (forall t, rt_current_thread s = Some t -> stat (thr s t) <> READY /\ stat (thr s t) <> INIT).

Definition wf (s : sched) : Prop := lists_ok None s /\ current_ok s.

(** What the list functions leave alone. *)
Definition same_rest (s s' : sched) : Prop :=
  rt_scheduler_lock_nest s' = rt_scheduler_lock_nest s /\
  rt_current_thread s' = rt_current_thread s /\
  rt_current_priority s' = rt_current_priority s.

Lemma testbit_mask p i : 0 <= p < 32 -> 0 <= i -> Z.testbit (Z.shiftl 1 p) i = bool_decide (i = p).
Proof.
  intros Hp Hi. rewrite Z.shiftl_1_l. case_bool_decide as E.
  - subst. by apply Z.pow2_bits_true.
  - apply Z.pow2_bits_false. lia.
Qed.

Lemma testbit_clear p i : 0 <= p < 32 -> 0 <= i < 32 ->
  Z.testbit (u32 (Z.lnot (Z.shiftl 1 p))) i = negb (bool_decide (i = p)).
Proof.
  intros Hp Hi. unfold u32. rewrite Z.mod_pow2_bits_low by lia. rewrite Z.lnot_spec by lia.
  by rewrite testbit_mask by lia.
Qed.

Lemma lor_range a p : 0 <= a < 2 ^ 32 -> 0 <= p < 32 -> 0 <= Z.lor a (Z.shiftl 1 p) < 2 ^ 32.
Proof.
  intros Ha Hp. split; [apply Z.lor_nonneg; split; [lia|apply Z.shiftl_nonneg; lia]|].
  destruct (decide (Z.lor a (Z.shiftl 1 p) = 0)) as [->|Hn]; [lia|].
  apply Z.log2_lt_pow2.
  - assert (0 <= Z.lor a (Z.shiftl 1 p)); [|lia]. apply Z.lor_nonneg. split; [lia|apply Z.shiftl_nonneg; lia].
  - rewrite Z.log2_lor by (try apply Z.shiftl_nonneg; lia). rewrite Z.shiftl_1_l, Z.log2_pow2 by lia.
    destruct (decide (a = 0)) as [->|]; [cbn; lia|]. apply Z.max_lub_lt; [|lia]. apply Z.log2_lt_pow2; lia.
Qed.

Lemma land_range a b : 0 <= a < 2 ^ 32 -> 0 <= b -> 0 <= Z.land a b < 2 ^ 32.
Proof.
  intros Ha Hb. split; [apply Z.land_nonneg; lia|].
  destruct (decide (Z.land a b = 0)) as [->|Hn]; [lia|].
  assert (0 <= Z.land a b) by (apply Z.land_nonneg; lia).
  apply Z.log2_lt_pow2; [lia|]. pose proof (Z.log2_land a b ltac:(lia) ltac:(lia)).
  destruct (decide (a = 0)) as [->|]; [by rewrite Z.land_0_l in Hn|].
  assert (Z.log2 a < 32) by (apply Z.log2_lt_pow2; lia). lia.
Qed.

(** ** Removing and inserting *)

Lemma remove_ok x t s :
  lists_ok x s -> (x = None \/ x = Some t) ->
  exists s', rt_schedule_remove_thread t s = Some (tt, s') /\ lists_ok (Some t) s' /\
    thr s' = thr s /\ same_rest s s' /\
    forall p, rt_thread_priority_table s' p = filter (fun u => u <> t) (rt_thread_priority_table s p).
Proof.
  intros Hs Hx. destruct (ok_prio _ _ Hs t) as [Hp Hm]. set (p0 := current_priority (thr s t)) in *.
  unfold rt_schedule_remove_thread, get_thr, bind, modify, gets. cbn [unlink put_table thr rt_thread_priority_table].
  fold p0. set (f := fun p => filter (fun u => u <> t) (rt_thread_priority_table s p)).
  assert (forall u p, u ∈ f p <-> Some t <> Some u /\ stat (thr s u) = READY /\ current_priority (thr s u) = p) as Hready.
  { intros u p. unfold f. rewrite list_elem_of_filter, (ok_ready _ _ Hs). destruct Hx as [->| ->]; intuition congruence. }
  assert (forall p, p <> p0 -> f p = rt_thread_priority_table s p) as Hother.
  { intros p Hpp. unfold f. apply filter_out. intros Hu. apply (ok_ready _ _ Hs) in Hu as (_ & _ & ?). done. }
  assert (forall g, 0 <= g < 2 ^ 32 ->
    (forall p, 0 <= p < 32 -> Z.testbit g p = true <-> f p <> []) -> forall s',
    s' = put_group g (put_table f s) -> lists_ok (Some t) s') as Hnew.
  { intros g Hg Hb s' ->. split; cbn [put_group put_table rt_thread_ready_priority_group rt_thread_priority_table thr];
      try done; [|apply (ok_prio _ _ Hs)|apply (ok_init _ _ Hs)].
    intros p. apply NoDup_filter, (ok_nodup _ _ Hs). }
  change (unlink t s) with (put_table f s).
  change (filter (fun u => u <> t) (rt_thread_priority_table s p0)) with (f p0).
  destruct (f p0) as [|u l] eqn:E.
  - eexists. split; [reflexivity|]. cbn [put_table rt_thread_ready_priority_group].
    split; [|done]. eapply Hnew; [| |reflexivity].
    + apply land_range; [apply Hs|]. unfold u32. apply Z.mod_pos_bound. lia.
    + intros p Hpp. rewrite Z.land_spec. destruct Hm as [Hm|[Hm Hst]]; rewrite Hm.
      * rewrite testbit_clear by lia. destruct (decide (p = p0)) as [->|Hne].
        -- rewrite bool_decide_true, andb_false_r, E by done. done.
        -- rewrite bool_decide_false, andb_true_r, Hother by done. by apply (ok_bits _ _ Hs).
      * change (u32 (Z.lnot 0)) with (Z.ones 32). rewrite Z.ones_spec_low, andb_true_r by lia.
        rewrite (ok_bits _ _ Hs) by done. unfold f. rewrite filter_out; [done|].
        intros Hin. apply (ok_ready _ _ Hs) in Hin as (_ & Hrd & _). destruct Hst; congruence.
  - exists (put_table f s). split; [reflexivity|]. split; [|done]. eapply (Hnew (rt_thread_ready_priority_group s));
      [apply Hs| |done]. intros p Hpp. destruct (decide (p = p0)) as [->|Hne].
    + rewrite E, (ok_bits _ _ Hs) by done. split; [done|]. intros _. intros E0. unfold f in E. by rewrite E0 in E.
    + rewrite Hother by done. by apply (ok_bits _ _ Hs).
Qed.

Lemma insert_ok t s :
  lists_ok (Some t) s -> rt_current_thread s <> Some t ->
  stat (thr s t) <> INIT -> stat (thr s t) <> CLOSE ->
  exists s', rt_schedule_insert_thread t s = Some (tt, s') /\ lists_ok None s' /\
    thr s' = <[t := with_stat READY (thr s t)]> (thr s) /\ same_rest s s' /\
    forall p, rt_thread_priority_table s' p =
      if decide (p = current_priority (thr s t)) then rt_thread_priority_table s p ++ [t]
      else rt_thread_priority_table s p.
Proof.
  intros Hs Hc Hst Hst2. destruct (ok_prio _ _ Hs t) as [Hp [Hm|[_ []]]]; [|done|done]. set (p0 := current_priority (thr s t)) in *.
  unfold rt_schedule_insert_thread, get_thr, set_thr, bind, modify, gets. rewrite bool_decide_false by done.
  cbn [put_thr put_table put_group thr rt_thread_priority_table rt_thread_ready_priority_group].
  rewrite !fn_lookup_insert. cbn [with_stat current_priority number_mask]. fold p0. rewrite Hm.
  set (f := <[p0 := rt_thread_priority_table s p0 ++ [t]]> (rt_thread_priority_table s)).
  assert (forall p, f p = if decide (p = p0) then rt_thread_priority_table s p ++ [t]
                          else rt_thread_priority_table s p) as Hf.
  { intros p. unfold f. case_decide as E; [subst; by rewrite fn_lookup_insert|by rewrite fn_lookup_insert_ne]. }
  assert (forall p, t ∉ rt_thread_priority_table s p) as Hnt.
  { intros p Hin. apply (ok_ready _ _ Hs) in Hin as [? _]. done. }
  eexists. split; [reflexivity|].
  split; [|split; [done|split; [done|exact Hf]]].
  split; cbn [put_group put_table put_thr rt_thread_ready_priority_group rt_thread_priority_table thr]; fold f.
  - apply lor_range; [apply Hs|done].
  - intros p Hpp. rewrite Z.lor_spec, testbit_mask, Hf by lia. case_decide as E.
    + rewrite bool_decide_true, orb_true_r by done. split; [by destruct (rt_thread_priority_table s p)|done].
    + rewrite bool_decide_false, orb_false_r by done. by apply (ok_bits _ _ Hs).
  - intros u p. rewrite Hf. destruct (decide (u = t)) as [->|Hu].
    + rewrite fn_lookup_insert. cbn [with_stat stat current_priority]. fold p0. case_decide as E.
      * split; [done|]. intros _. apply elem_of_app. right. by apply list_elem_of_singleton.
      * split; [intros Hin; by destruct (Hnt p)|naive_solver].
    + rewrite fn_lookup_insert_ne by done.
      pose proof (ok_ready _ _ Hs u p) as Hr. assert (Some t <> Some u) by congruence. case_decide as E.
      * rewrite elem_of_app, list_elem_of_singleton, Hr. naive_solver.
      * rewrite Hr. naive_solver.
  - intros p. rewrite Hf. case_decide; [|apply (ok_nodup _ _ Hs)]. apply NoDup_app.
    split_and!; [apply (ok_nodup _ _ Hs)| |apply NoDup_singleton].
    intros u Hin ->%list_elem_of_singleton. by destruct (Hnt p).
  - intros u. destruct (decide (u = t)) as [->|Hu].
    + rewrite fn_lookup_insert. split; [done|by left].
    + rewrite fn_lookup_insert_ne by done. apply (ok_prio _ _ Hs).
  - intros u. destruct (decide (u = t)) as [->|Hu]; [rewrite fn_lookup_insert|rewrite fn_lookup_insert_ne by done];
      apply (ok_init _ _ Hs).
Qed.

(** ** [rt_schedule] *)

(** Changes of a thread that the lists do not depend on. *)
Lemma lists_ok_thr x s f t :
  lists_ok x s -> stat (f (thr s t)) = stat (thr s t) ->
  current_priority (f (thr s t)) = current_priority (thr s t) ->
  number_mask (f (thr s t)) = number_mask (thr s t) ->
  init_priority (f (thr s t)) = init_priority (thr s t) -> lists_ok x (put_thr f t s).
Proof.
  intros Hs E1 E2 E3 E4.
  assert (forall u, stat (thr (put_thr f t s) u) = stat (thr s u) /\
    current_priority (thr (put_thr f t s) u) = current_priority (thr s u) /\
    number_mask (thr (put_thr f t s) u) = number_mask (thr s u) /\
    init_priority (thr (put_thr f t s) u) = init_priority (thr s u)) as Hu.
  { intros u. cbn [put_thr thr]. destruct (decide (u = t)) as [->|Hne];
      [by rewrite fn_lookup_insert|by rewrite fn_lookup_insert_ne]. }
  destruct Hs. split; try done.
  - intros u p. destruct (Hu u) as (-> & -> & _). apply ok_ready0.
  - intros u. unfold prio_ok. destruct (Hu u) as (-> & -> & -> & _). apply ok_prio0.
  - intros u. destruct (Hu u) as (_ & _ & _ & ->). apply ok_init0.
Qed.

(** A thread that is off the lists and not ready may be in any state. *)
Lemma lists_ok_stat t s x :
  lists_ok (Some t) s -> x <> READY -> stat (thr s t) <> INIT -> stat (thr s t) <> CLOSE ->
  lists_ok None (put_thr (with_stat x) t s).
Proof.
  intros Hs Hr Hi Hst. destruct (ok_prio _ _ Hs t) as [Hp [Hm|[_ []]]]; [|done|done]. destruct Hs.
  split; try done; cbn [put_thr thr]; intros u; destruct (decide (u = t)) as [->|Hne];
    rewrite ?fn_lookup_insert, ?fn_lookup_insert_ne by done; try done.
  - intros p. cbn [put_thr rt_thread_priority_table]. rewrite ok_ready0. cbn [with_stat stat]. intuition congruence.
  - intros p. cbn [put_thr rt_thread_priority_table]. rewrite ok_ready0. intuition congruence.
  - split; [done|by left].
  - apply ok_init0.
Qed.

(** Not ready means not on a list. *)
Lemma lists_ok_off t s : lists_ok None s -> stat (thr s t) <> READY -> lists_ok (Some t) s.
Proof.
  intros Hs Ht. destruct Hs. split; try done. intros u p. rewrite ok_ready0. intuition congruence.
Qed.

Lemma get_highest s :
  lists_ok None s -> rt_thread_ready_priority_group s <> 0 ->
  exists hi p l, _get_highest_priority_thread s = Some ((hi, p), s) /\ 0 <= p < 32 /\
    rt_thread_priority_table s p = hi :: l /\ forall q, q < p -> rt_thread_priority_table s q = [].
Proof.
  intros Hs Hg. pose proof (ok_group _ _ Hs). destruct (builtin_ffs_lowest (rt_thread_ready_priority_group s))
    as [(H0 & Ht & Hlow) Hr]; [lia|]. unfold _get_highest_priority_thread.
  set (p := builtin_ffs (rt_thread_ready_priority_group s) - 1) in *.
  apply (ok_bits _ _ Hs) in Ht; [|lia]. destruct (rt_thread_priority_table s p) as [|hi l] eqn:E; [done|].
  exists hi, p, l. split_and!; try done; [lia|]. intros q Hq.
  destruct (rt_thread_priority_table s q) as [|u m] eqn:Eq; [done|]. exfalso.
  assert (u ∈ rt_thread_priority_table s q) as Hu by (rewrite Eq; apply list_elem_of_here).
  apply (ok_ready _ _ Hs) in Hu as (_ & Hst & Hp). destruct (ok_prio _ _ Hs u) as [Hrg _].
  assert (Z.testbit (rt_thread_ready_priority_group s) q = true) as Hb by (apply (ok_bits _ _ Hs); [lia|by rewrite Eq]).
  rewrite Hlow in Hb by lia. done.
Qed.

Lemma no_group_no_ready s t : lists_ok None s -> rt_thread_ready_priority_group s = 0 -> stat (thr s t) <> READY.
Proof.
  intros Hs Hg Ht. destruct (ok_prio _ _ Hs t) as [Hp _].
  assert (t ∈ rt_thread_priority_table s (current_priority (thr s t))) as Hin by (by apply (ok_ready _ _ Hs)).
  pose proof (proj2 (ok_bits _ _ Hs _ Hp)) as Hb. rewrite Hg, Z.bits_0 in Hb.
  destruct (rt_thread_priority_table s _); [by apply elem_of_nil in Hin|]. by discriminate Hb.
Qed.

(** The current thread keeps the processor. *)
Definition stays (s : sched) (c : tid) (p : Z) : bool :=
  bool_decide (stat (thr s c) = RUNNING) &&
  ((current_priority (thr s c) <? p) ||
   ((current_priority (thr s c) =? p) && negb (yield (thr s c)))).

(** What [rt_schedule] does when it has found thread [hi] at priority [p]. *)
Record stayed (s s' : sched) (c : tid) : Prop := mk_stayed {
  st_current : rt_current_thread s' = Some c;
  st_table : forall q, rt_thread_priority_table s' q = rt_thread_priority_table s q;
  st_thr : forall u, thr s' u = if decide (u = c) then with_yield false (thr s c) else thr s u
}.

Definition requeue (s : sched) (c : tid) (q : Z) : list tid :=
  rt_thread_priority_table s q ++
  if bool_decide (stat (thr s c) = RUNNING /\ current_priority (thr s c) = q) then [c] else [].

Record switched (s s' : sched) (c hi : tid) : Prop := mk_switched {
  sw_current : rt_current_thread s' = Some hi;
  sw_table : forall q, rt_thread_priority_table s' q = filter (fun u => u <> hi) (requeue s c q);
  sw_thr : forall u, thr s' u =
    if decide (u = hi) then with_stat RUNNING (thr s hi)
    else if decide (u = c /\ stat (thr s c) = RUNNING) then with_stat READY (with_yield false (thr s c))
    else thr s u
}.

Lemma with_same_stat x th : stat th = x -> with_stat x th = th.
Proof. intros <-. by destruct th. Qed.

Lemma schedule_stays s c :
  wf s -> rt_current_thread s = Some c -> stat (thr s c) = RUNNING ->
  exists s', (rt_schedule_remove_thread c ;;; set_thr (with_stat RUNNING) c)
               (put_thr (with_yield false) c s) = Some (tt, s') /\
    lists_ok None s' /\ rt_scheduler_lock_nest s' = rt_scheduler_lock_nest s /\ stayed s s' c.
Proof.
  intros [Hs Hc] Ec Hr. set (s1 := put_thr (with_yield false) c s).
  assert (lists_ok None s1) as Hs1 by (by apply lists_ok_thr).
  assert (thr s1 c = with_yield false (thr s c)) as E1 by (cbn [s1 put_thr thr]; apply fn_lookup_insert).
  destruct (remove_ok None c s1 Hs1 (or_introl eq_refl)) as (s2 & E2 & Hs2 & Ht & (Hl & Hcur & _) & Htab).
  rewrite (bind_eq _ _ _ _ _ E2). eexists. split; [reflexivity|].
  assert (stat (thr s2 c) = RUNNING) as Hr2 by (by rewrite Ht, E1).
  split; [|split; [exact Hl|split]].
  - apply lists_ok_stat; try done; by rewrite Hr2.
  - cbn [put_thr rt_current_thread]. by rewrite Hcur.
  - intros q. cbn [put_thr rt_thread_priority_table]. rewrite Htab. apply filter_out.
    intros Hin. apply (ok_ready _ _ Hs1) in Hin as (_ & ? & _). rewrite E1 in *. cbn [with_yield stat] in *. congruence.
  - intros u. cbn [put_thr thr]. rewrite Ht. destruct (decide (u = c)) as [->|Hu].
    + rewrite fn_lookup_insert, E1. by apply with_same_stat.
    + rewrite fn_lookup_insert_ne by done. cbn [s1 put_thr thr]. by rewrite fn_lookup_insert_ne.
Qed.

(** The state after the current thread has been put back. *)
Lemma schedule_requeues s c hi p :
  wf s -> rt_current_thread s = Some c -> hi <> c ->
  let running := bool_decide (stat (thr s c) = RUNNING) in
  let s0 := if running then put_thr (with_yield false) c s else s in
  exists s1, when running (rt_schedule_insert_thread c) (put_current hi p s0) = Some (tt, s1) /\
    lists_ok None s1 /\ rt_scheduler_lock_nest s1 = rt_scheduler_lock_nest s /\
    rt_current_thread s1 = Some hi /\
    (forall q, rt_thread_priority_table s1 q = requeue s c q) /\
    (forall u, thr s1 u = if decide (u = c /\ stat (thr s c) = RUNNING)
                          then with_stat READY (with_yield false (thr s c)) else thr s u).
Proof.
  intros [Hs Hc] Ec Hne running s0. unfold running in *. destruct (Hc) as [Hrun Hcur].
  destruct (Hcur c Ec) as [Hnr Hni]. unfold requeue. case_bool_decide as Hr.
  - assert (lists_ok (Some c) (put_current hi p s0)) as Hs0.
    { unfold s0. apply lists_ok_off; [|cbn [put_current put_thr thr]; by rewrite fn_lookup_insert].
      destruct (lists_ok_thr None s (with_yield false) c Hs) as []; try done. }
    assert (thr s0 c = with_yield false (thr s c)) as E0 by (cbn [s0 put_thr thr]; apply fn_lookup_insert).
    destruct (insert_ok c (put_current hi p s0) Hs0) as (s1 & E & Hs1 & Ht & (Hl & Hcu & _) & Htab).
    { cbn [put_current rt_current_thread]. congruence. }
    { cbn [put_current thr]. rewrite E0. done. }
    { cbn [put_current thr]. rewrite E0. cbn [with_yield stat]. congruence. }
    exists s1. split; [exact E|]. split; [done|]. cbn [put_current rt_current_thread thr rt_scheduler_lock_nest] in *.
    rewrite E0 in *. cbn [with_yield current_priority] in Htab. split_and!; try done.
    + intros q. rewrite Htab. case_decide as Eq.
      * rewrite bool_decide_true by done. done.
      * rewrite bool_decide_false by (intros [_ ?]; congruence). by rewrite app_nil_r.
    + intros u. rewrite Ht. destruct (decide (u = c)) as [->|Hu].
      * rewrite fn_lookup_insert. by rewrite decide_True.
      * rewrite fn_lookup_insert_ne by done. rewrite decide_False by naive_solver.
        cbn [s0 put_thr thr]. by rewrite fn_lookup_insert_ne.
  - exists (put_current hi p s). split; [done|]. split; [destruct Hs; by split|]. split_and!; try done.
    + intros q. rewrite bool_decide_false by naive_solver. by rewrite app_nil_r.
    + intros u. by rewrite decide_False by naive_solver.
Qed.

Lemma schedule_switches s c hi p :
  wf s -> rt_current_thread s = Some c -> stat (thr s hi) = READY ->
  let running := bool_decide (stat (thr s c) = RUNNING) in
  let s0 := if running then put_thr (with_yield false) c s else s in
  exists s', (modify (put_current hi p) ;;;
              when running (rt_schedule_insert_thread c) ;;;
              rt_schedule_remove_thread hi ;;; set_thr (with_stat RUNNING) hi) s0 = Some (tt, s') /\
    lists_ok None s' /\ rt_scheduler_lock_nest s' = rt_scheduler_lock_nest s /\ switched s s' c hi.
Proof.
  intros Hw Ec Hhi running s0. pose proof Hw as [Hs [_ Hcur]].
  assert (hi <> c) as Hne by (intros ->; by destruct (Hcur c Ec)).
  destruct (schedule_requeues s c hi p Hw Ec Hne) as (s1 & E1 & Hs1 & Hl1 & Hc1 & Ht1 & Hth1).
  fold running in E1. fold s0 in E1.
  rewrite (bind_eq (modify _) _ _ tt (put_current hi p s0)) by done. rewrite (bind_eq _ _ _ _ _ E1).
  assert (thr s1 hi = thr s hi) as Ehi by (rewrite Hth1, decide_False by naive_solver; done).
  destruct (remove_ok None hi s1 Hs1 (or_introl eq_refl)) as (s2 & E2 & Hs2 & Ht2 & (Hl2 & Hc2 & _) & Htab2).
  rewrite (bind_eq _ _ _ _ _ E2). eexists. split; [reflexivity|].
  split; [|split; [cbn [put_thr rt_scheduler_lock_nest]; congruence|split]].
  - apply lists_ok_stat; try done; rewrite Ht2, Ehi, Hhi; done.
  - cbn [put_thr rt_current_thread]. congruence.
  - intros q. cbn [put_thr rt_thread_priority_table]. by rewrite Htab2, Ht1.
  - intros u. cbn [put_thr thr]. rewrite Ht2. destruct (decide (u = hi)) as [->|Hu]; [by rewrite fn_lookup_insert, Ehi|].
    rewrite fn_lookup_insert_ne by done. apply Hth1.
Qed.

(** The whole function. *)
Lemma schedule_spec s c :
  wf s -> rt_current_thread s = Some c -> rt_scheduler_lock_nest s = 0 ->
  exists s', rt_schedule s = Some (tt, s') /\ lists_ok None s' /\ rt_scheduler_lock_nest s' = 0 /\
    (rt_thread_ready_priority_group s = 0 /\ s' = s \/
     exists hi p l, rt_thread_priority_table s p = hi :: l /\
       (forall q, q < p -> rt_thread_priority_table s q = []) /\
       if stays s c p then stayed s s' c else switched s s' c hi).
Proof.
  intros Hw Ec Hlock. pose proof Hw as [Hs Hcok]. unfold rt_schedule.
  rewrite (bind_eq (gets _) _ s (rt_scheduler_lock_nest s) s) by done. rewrite Hlock. cbn [Z.eqb negb].
  rewrite (bind_eq (gets _) _ s (rt_thread_ready_priority_group s) s) by done.
  destruct (rt_thread_ready_priority_group s =? 0) eqn:Eg.
  { exists s. split_and!; try done. left. split; [lia|done]. }
  destruct (get_highest s Hs) as (hi & p & l & Egh & Hp & Ehi & Hlow); [lia|]. rewrite (bind_eq _ _ _ _ _ Egh).
  rewrite (bind_eq rt_thread_self _ s c s) by (unfold rt_thread_self; by rewrite Ec).
  rewrite (bind_eq (get_thr c) _ s (thr s c) s) by done. cbv zeta. fold (stays s c p).
  assert (stat (thr s hi) = READY /\ current_priority (thr s hi) = p) as [Hr Hhp].
  { apply (ok_ready _ _ Hs hi p). rewrite Ehi. apply list_elem_of_here. }
  set (s0 := if bool_decide (stat (thr s c) = RUNNING) then put_thr (with_yield false) c s else s).
  rewrite (bind_eq (when _ _) _ s tt s0) by (unfold s0; by case_bool_decide).
  destruct (stays s c p) eqn:Est.
  - rewrite bool_decide_true by done. cbn [negb].
    assert (stat (thr s c) = RUNNING) as Hrun.
    { unfold stays in Est. apply andb_prop in Est as [Est _]. by apply bool_decide_eq_true in Est. }
    unfold s0. rewrite bool_decide_true by done.
    destruct (schedule_stays s c Hw Ec Hrun) as (s' & E & Hs' & Hl & Hst). exists s'. rewrite E.
    split_and!; try done; [congruence|]. right. exists hi, p, l. by rewrite Est.
  - assert (hi <> c) by (intros ->; destruct Hcok as [_ Hcok]; by destruct (Hcok c Ec)).
    rewrite bool_decide_false by done. cbn [negb].
    destruct (schedule_switches s c hi (u8 p) Hw Ec Hr) as (s' & E & Hs' & Hl & Hsw).
    fold s0 in E. exists s'. rewrite andb_true_r, E. split_and!; try done; [congruence|]. right. exists hi, p, l. by rewrite Est.
Qed.
