(* ===== verification/SchedSystem.v ===== *)
(** * The scheduler over any sequence of operations

    Threads are initialised, started, suspended, resumed, time out, change
    priority, yield, use up their time slices and end, in any order, with the
    scheduler locked or not: the ready lists stay consistent, and whenever the
    scheduler has decided, the thread it has chosen is one of the highest
    priority among those that are ready. *)

From Stdlib Require Import ZArith Lia.
From stdpp Require Import prelude functions list.
From S2P Require Import Prelude Kernel Sched SchedSpec.
Import Sched.
Open Scope Z_scope.
Open Scope c_scope.

(** ** Threads off the lists *)

Definition thread_ok (th : thread) : Prop := prio_ok th /\ 0 <= init_priority th < 32.

(** Once started, a thread has its mask; closing it is always possible. *)
Lemma prio_ok_stat x th :
  prio_ok th -> (stat th <> INIT /\ stat th <> CLOSE) \/ x = INIT \/ x = CLOSE -> prio_ok (with_stat x th).
Proof. intros [Hp Hm] Hx. split; [exact Hp|]. cbn [with_stat number_mask current_priority stat]. tauto. Qed.

Lemma lists_thread_ok x s t : lists_ok x s -> thread_ok (thr s t).
Proof. intros Hs. split; [apply (ok_prio _ _ Hs)|apply (ok_init _ _ Hs)]. Qed.

Lemma lists_ok_set s t f :
  lists_ok (Some t) s -> thread_ok (f (thr s t)) -> lists_ok (Some t) (put_thr f t s).
Proof.
  intros [Hg Hb Hr Hn Hp Hi] [Hp' Hi'].
  split; try done; cbn [put_thr thr rt_thread_priority_table]; intros u; destruct (decide (u = t)) as [->|Hne];
    rewrite ?fn_lookup_insert, ?fn_lookup_insert_ne by done; try done.
  all: first [apply Hp | apply Hi | intros p; rewrite Hr; intuition congruence].
Qed.

Lemma lists_ok_drop s t : lists_ok (Some t) s -> stat (thr s t) <> READY -> lists_ok None s.
Proof. intros [Hg Hb Hr Hn Hp Hi] Ht. split; try done. intros u p. rewrite Hr. intuition congruence. Qed.

Lemma unlink_off x s t : lists_ok x s -> (x = Some t \/ x = None /\ stat (thr s t) <> READY) ->
  lists_ok (Some t) (unlink t s).
Proof.
  intros Hs Hx. assert (forall p, t ∉ rt_thread_priority_table s p) as Hnt.
  { intros p Hin. apply (ok_ready _ _ Hs) in Hin as (? & ? & _). naive_solver. }
  assert (forall p, filter (fun u => u <> t) (rt_thread_priority_table s p) = rt_thread_priority_table s p) as Hf.
  { intros p. by apply filter_out. }
  destruct Hs as [Hg Hb Hr Hn Hp Hi]. split; cbn [unlink put_table rt_thread_priority_table rt_thread_ready_priority_group thr]; try done.
  - intros p Hpp. rewrite Hf. by apply Hb.
  - intros u p. rewrite Hf. specialize (Hr u p). specialize (Hnt p). rewrite Hr.
    destruct (decide (u = t)) as [->|Hu]; [rewrite Hr in Hnt; tauto|].
    destruct Hx as [->|[-> _]]; intuition congruence.
  - intros p. rewrite Hf. apply Hn.
Qed.

(** ** Every operation keeps the scheduler well formed *)

Lemma schedule_current_ok s s' c :
  current_ok s -> rt_current_thread s = Some c ->
  (forall hi p l, rt_thread_priority_table s p = hi :: l -> stat (thr s hi) = READY) ->
  (s' = s \/ stayed s s' c \/ exists hi, stat (thr s hi) = READY /\ switched s s' c hi) -> current_ok s'.
Proof.
  intros [Hrun Hcur] Ec Hready [->|[[Hc _ Ht]|(hi & Hhi & [Hc _ Ht])]]; [done|..].
  - split; intros t; rewrite Ht, Hc; destruct (decide (t = c)) as [->|Hne]; cbn [with_yield stat].
    + done.
    + intros Hr. apply Hrun in Hr. congruence.
    + intros _. by apply Hcur.
    + congruence.
  - split; intros t; rewrite Ht, Hc; destruct (decide (t = hi)) as [->|Hne]; try done.
    + destruct (decide (t = c /\ stat (thr s c) = RUNNING)) as [Hd|Hd]; [by cbn [with_stat stat]|]. intros Hr. exfalso. apply Hd. pose proof (Hrun _ Hr). split; congruence.
    + congruence.
Qed.

Lemma schedule_wf s c :
  wf s -> rt_current_thread s = Some c ->
  exists s', rt_schedule s = Some (tt, s') /\ wf s' /\ is_Some (rt_current_thread s') /\
    rt_scheduler_lock_nest s' = rt_scheduler_lock_nest s.
Proof.
  intros Hw Ec. destruct (decide (rt_scheduler_lock_nest s = 0)) as [Hl|Hl].
  - destruct (schedule_spec s c Hw Ec Hl) as (s' & E & Hs' & Hl' & Hcase). exists s'. split; [done|].
    destruct Hw as [Hs Hc]. split; [split; [done|]|split; [|congruence]].
    + apply (schedule_current_ok s s' c Hc Ec).
      * intros hi p l Ehi. apply (ok_ready _ _ Hs hi p). rewrite Ehi. apply list_elem_of_here.
      * destruct Hcase as [[_ ->]|(hi & p & l & Ehi & _ & Hst)]; [by left|]. right.
        destruct (stays s c p); [by left|right]. exists hi. split; [|done].
        apply (ok_ready _ _ Hs hi p). rewrite Ehi. apply list_elem_of_here.
    + destruct Hcase as [[_ ->]|(hi & p & l & Ehi & _ & Hst)]; [by rewrite Ec|].
      destruct (stays s c p); destruct Hst as [-> _ _]; done.
  - exists s. split_and!; try done. unfold rt_schedule, bind, gets.
    by replace (rt_scheduler_lock_nest s =? 0) with false by lia.
Qed.

Lemma thr_put f t s u : thr (put_thr f t s) u = if decide (u = t) then f (thr s t) else thr s u.
Proof. cbn [put_thr thr]. case_decide as E; [subst; by rewrite fn_lookup_insert|by rewrite fn_lookup_insert_ne]. Qed.

(** Changes of a thread that leave its state alone. *)
Lemma wf_thr s f t :
  wf s -> (forall th, stat (f th) = stat th /\ current_priority (f th) = current_priority th /\
                      number_mask (f th) = number_mask th /\ init_priority (f th) = init_priority th) ->
  wf (put_thr f t s).
Proof.
  intros [Hs [Hr Hc]] Hf. destruct (Hf (thr s t)) as (E1 & E2 & E3 & E4). split; [by apply lists_ok_thr|].
  split; intros u; rewrite thr_put; case_decide as E; subst; rewrite ?E1; auto.
Qed.

(** A thread that is put on or off the lists. *)
Lemma insert_wf s t :
  lists_ok (Some t) s -> stat (thr s t) <> INIT -> stat (thr s t) <> CLOSE -> rt_current_thread s <> Some t ->
  (forall u, u <> t -> stat (thr s u) = RUNNING -> rt_current_thread s = Some u) ->
  (forall u, rt_current_thread s = Some u -> stat (thr s u) <> READY /\ stat (thr s u) <> INIT) ->
  exists s', rt_schedule_insert_thread t s = Some (tt, s') /\ wf s' /\
    rt_current_thread s' = rt_current_thread s /\ rt_scheduler_lock_nest s' = rt_scheduler_lock_nest s.
Proof.
  intros Hs Hi Hcl Hne Hrun Hcur. destruct (insert_ok t s Hs Hne Hi Hcl) as (s' & E & Hs' & Ht & (Hl & Hc & _) & _).
  exists s'. split; [done|]. split; [|done]. split; [done|].
  assert (forall u, thr s' u = if decide (u = t) then with_stat READY (thr s t) else thr s u) as Hth.
  { intros u. rewrite Ht. case_decide as Eu; [subst; by rewrite fn_lookup_insert|by rewrite fn_lookup_insert_ne]. }
  split; intros u; rewrite Hth, Hc; case_decide as Eu; try done.
  - by apply Hrun.
  - congruence.
  - apply Hcur.
Qed.

Lemma remove_wf s t f x :
  wf s -> (x = SUSPEND /\ stat (thr s t) <> INIT /\ stat (thr s t) <> CLOSE) \/ x = CLOSE ->
  (forall th, stat (f th) = x /\ current_priority (f th) = current_priority th /\
              number_mask (f th) = number_mask th /\ init_priority (f th) = init_priority th) ->
  exists s1, rt_schedule_remove_thread t s = Some (tt, s1) /\ wf (put_thr f t s1) /\
    rt_current_thread s1 = rt_current_thread s /\ rt_scheduler_lock_nest s1 = rt_scheduler_lock_nest s.
Proof.
  intros [Hs [Hr Hc]] Hx Hf. destruct (remove_ok None t s Hs (or_introl eq_refl))
    as (s1 & E & Hs1 & Ht & (Hl & Hcu & _) & _). exists s1. split; [done|]. split; [|done].
  destruct (Hf (thr s1 t)) as (E1 & E2 & E3 & E4).
  assert (x <> READY /\ x <> INIT /\ x <> RUNNING) as (Hx1 & Hx2 & Hx3) by (destruct Hx as [[-> _]| ->]; done).
  split.
  - apply (lists_ok_drop _ t); [|rewrite thr_put, decide_True by done; congruence].
    apply lists_ok_set; [done|]. destruct (lists_thread_ok _ _ t Hs1) as [Hp Hin]. split; [|congruence].
    unfold prio_ok in *. rewrite E1, E2, E3. rewrite <- Ht in Hx. tauto.
  - split; intros u; rewrite thr_put, Ht; cbn [put_thr rt_current_thread]; rewrite Hcu; case_decide as Eu.
    + rewrite Ht in E1. congruence.
    + apply Hr.
    + intros _. rewrite Ht in E1. split; congruence.
    + apply Hc.
Qed.

(** ** Operations *)

Inductive op :=
| OInit (t : tid) (priority tick : Z)
| OStartup (t : tid)
| OStart
| OSchedule
| OSuspend (t : tid)
| OResume (t : tid)
| OTimeout (t : tid)
| OYield
| OTick
| OPriority (t : tid) (priority : Z)
| OExit
| ODetach (t : tid)
| OEnter
| OLeave.

Definition void {A} (m : C A) : C unit := m ;;; ret tt.

Definition exec_op (o : op) : C unit :=
  match o with
  | OInit t p k => _rt_thread_init t p k
  | OStartup t => void (rt_thread_startup t)
  | OStart => rt_system_scheduler_start
  | OSchedule => rt_schedule
  | OSuspend t => void (rt_thread_suspend t)
  | OResume t => void (rt_thread_resume t)
  | OTimeout t => rt_thread_timeout t
  | OYield => void rt_thread_yield
  | OTick => rt_tick_increase
  | OPriority t p => rt_thread_change_priority t p
  | OExit => rt_thread_exit
  | ODetach t => void (rt_thread_detach t)
  | OEnter => rt_enter_critical
  | OLeave => rt_exit_critical
  end.

(** When the code may call it: a thread object is initialised while it is not
    in use and started once, a timer of a thread runs out while the thread is
    suspended, and some thread is ready when the scheduler starts. *)
Definition allowed_op (s : sched) (o : op) : Prop :=
  match o with
  | OInit t p k => 0 <= p < 32 /\ rt_current_thread s <> Some t /\
                   (stat (thr s t) = INIT \/ stat (thr s t) = CLOSE)
  | OStartup t => stat (thr s t) = INIT
  | OStart => rt_current_thread s = None /\ exists t, stat (thr s t) = READY
  | OTimeout t => stat (thr s t) = SUSPEND /\ is_Some (rt_current_thread s)
  | OPriority _ p => 0 <= p < 32
  | OSchedule | OYield | OTick | OExit => is_Some (rt_current_thread s)
  | OEnter => rt_scheduler_lock_nest s < 32767
  | OSuspend _ | OResume _ | ODetach _ | OLeave => True
  end.

Definition lock_ok (s : sched) : Prop := 0 <= rt_scheduler_lock_nest s < 32768.
Definition good (s : sched) : Prop := wf s /\ lock_ok s.

(** The scheduler has decided: the current thread runs, and no ready thread has
    a higher priority (a lower number).  Some thread can run at any time, as
    the idle thread can. *)
Definition decided (s : sched) : Prop :=
  forall c, rt_current_thread s = Some c -> (exists u, stat (thr s u) = READY \/ stat (thr s u) = RUNNING) ->
    stat (thr s c) = RUNNING /\
    forall u, stat (thr s u) = READY -> current_priority (thr s c) <= current_priority (thr s u).

Lemma table_min s p u hi l :
  lists_ok None s -> rt_thread_priority_table s p = hi :: l ->
  (forall q, q < p -> rt_thread_priority_table s q = []) ->
  stat (thr s u) = READY -> p <= current_priority (thr s u).
Proof.
  intros Hs Ehi Hlow Hu. destruct (decide (current_priority (thr s u) < p)) as [Hlt|]; [|lia].
  assert (u ∈ rt_thread_priority_table s (current_priority (thr s u))) as Hin by (by apply (ok_ready _ _ Hs)).
  rewrite Hlow in Hin by done. by apply elem_of_nil in Hin.
Qed.

Lemma schedule_decided s c s' :
  wf s -> rt_current_thread s = Some c -> rt_scheduler_lock_nest s = 0 ->
  rt_schedule s = Some (tt, s') -> decided s'.
Proof.
  intros Hw Ec Hl E. destruct (schedule_spec s c Hw Ec Hl) as (s2 & E2 & Hs2 & _ & Hcase).
  rewrite E in E2. injection E2 as <-. pose proof Hw as [Hs [Hrun Hcur]].
  destruct Hcase as [[Hg ->]|(hi & p & l & Ehi & Hlow & Hst)].
  - intros c' Ec' [u Hu]. assert (stat (thr s u) = RUNNING) as Hr.
    { destruct Hu as [Hu|Hu]; [|done]. by destruct (no_group_no_ready s u Hs Hg). }
    apply Hrun in Hr as Hu'. assert (c' = u) as -> by congruence. split; [done|].
    intros v Hv. by destruct (no_group_no_ready s v Hs Hg).
  - assert (stat (thr s hi) = READY /\ current_priority (thr s hi) = p) as [Hr Hp].
    { apply (ok_ready _ _ Hs hi p). rewrite Ehi. apply list_elem_of_here. }
    destruct (stays s c p) eqn:Est.
    + destruct Hst as [Hc' _ Ht']. intros c' Ec' _. assert (c' = c) as -> by congruence.
      rewrite Ht', decide_True by done. cbn [with_yield stat current_priority]. unfold stays in Est.
      apply andb_prop in Est as [Hrn Hle]. apply bool_decide_eq_true in Hrn. split; [done|].
      intros u. rewrite Ht'. destruct (decide (u = c)) as [->|Hu]; [cbn; congruence|]. intros Hur.
      pose proof (table_min s p u hi l Hs Ehi Hlow Hur). lia.
    + destruct Hst as [Hc' _ Ht']. intros c' Ec' _. assert (c' = hi) as -> by congruence.
      rewrite Ht', decide_True by done. cbn [with_stat stat current_priority]. rewrite Hp. split; [done|].
      intros u. rewrite Ht'. destruct (decide (u = hi)) as [->|Hu]; [done|].
      destruct (decide (u = c /\ stat (thr s c) = RUNNING)) as [[-> Hrn]|Hd].
      * intros _. cbn [with_stat with_yield current_priority]. unfold stays in Est.
        rewrite bool_decide_true in Est by done. lia.
      * intros Hur. exact (table_min s p u hi l Hs Ehi Hlow Hur).
Qed.

(** What an operation that ends in [rt_schedule] establishes. *)
Definition outcome {A} (m : option (A * sched)) : Prop :=
  exists a s', m = Some (a, s') /\ good s' /\ (rt_scheduler_lock_nest s' = 0 -> decided s').

Lemma void_outcome {A} (m : C A) s : outcome (m s) -> outcome (void m s).
Proof. intros (a & s' & E & H). exists tt, s'. unfold void. by rewrite (bind_eq _ _ _ _ _ E). Qed.

Lemma schedule_outcome s : good s -> is_Some (rt_current_thread s) -> outcome (rt_schedule s).
Proof.
  intros [Hw Hl] [c Ec]. destruct (schedule_wf s c Hw Ec) as (s' & E & Hw' & _ & El).
  exists tt, s'. split; [done|]. split; [split; [done|unfold lock_ok; by rewrite El]|].
  intros Hz. apply (schedule_decided s c); try done. congruence.
Qed.

(** [rt_schedule] once the scheduler runs, as the ends of some operations. *)
Lemma maybe_schedule_outcome s :
  good s -> outcome ((match rt_current_thread s with Some _ => rt_schedule | None => ret tt end) s).
Proof.
  intros Hg. destruct (rt_current_thread s) eqn:E; [apply schedule_outcome; [done|by rewrite E]|].
  exists tt, s. split; [done|]. split; [done|]. intros _ c Ec. congruence.
Qed.

Lemma mask_shiftl p : 0 <= p < 32 -> u32 (Z.shiftl 1 p) = Z.shiftl 1 p.
Proof.
  intros Hp. apply u32_small. rewrite Z.shiftl_1_l. split; [apply Z.pow_nonneg; lia|]. apply Z.pow_lt_mono_r; lia.
Qed.

Lemma priority_ok p th : 0 <= p < 32 -> prio_ok (with_priority p th).
Proof. intros Hp. split; [done|left]. by apply mask_shiftl. Qed.

(** [rt_thread_resume] of a suspended thread. *)
Lemma resume_good s t :
  good s -> stat (thr s t) = SUSPEND ->
  exists s', (modify (unlink t) ;;; rt_schedule_insert_thread t) s = Some (tt, s') /\ good s' /\
    rt_current_thread s' = rt_current_thread s.
Proof.
  intros [[Hs [Hr Hc]] Hl] Ht. rewrite (bind_eq (modify _) _ _ tt (unlink t s)) by done.
  assert (lists_ok (Some t) (unlink t s)) as Hs1 by (apply (unlink_off None); [done|right; by rewrite Ht]).
  destruct (decide (rt_current_thread s = Some t)) as [Ec|Ec].
  - exists (put_thr (with_stat RUNNING) t (unlink t s)). split; [|split; [|done]].
    + unfold rt_schedule_insert_thread, bind, gets. by rewrite bool_decide_true.
    + split; [|done]. split; [apply (lists_ok_drop _ t); [apply lists_ok_set; [done|]|by rewrite thr_put, decide_True]|].
      * destruct (lists_thread_ok _ _ t Hs) as [Hp Hi]. split; [|done]. apply prio_ok_stat; [done|].
        left. cbn [unlink put_table thr]. by rewrite Ht.
      * split; intros u; rewrite thr_put; cbn [put_thr unlink put_table rt_current_thread thr]; case_decide as E.
        -- by subst.
        -- apply Hr.
        -- done.
        -- apply Hc.
  - destruct (insert_wf (unlink t s) t Hs1) as (s' & E & Hw' & Hcu & Hlo); try done.
    + cbn [unlink put_table thr]. by rewrite Ht.
    + cbn [unlink put_table thr]. by rewrite Ht.
    + cbn [unlink put_table thr rt_current_thread]. intros u _. apply Hr.
    + exists s'. split; [exact E|]. split; [split; [done|unfold lock_ok; by rewrite Hlo]|done].
Qed.

Lemma startup_outcome s t : good s -> stat (thr s t) = INIT -> outcome (rt_thread_startup t s).
Proof.
  intros Hg Ht. pose proof Hg as [[Hs [Hr Hc]] Hl]. unfold rt_thread_startup.
  rewrite (bind_eq (get_thr t) _ s (thr s t) s) by done. rewrite Ht. rewrite bool_decide_true by done.
  set (s1 := put_thr (fun th => with_priority (init_priority th) th) t s).
  set (s2 := put_thr (fun th => with_yield false (with_stat SUSPEND th)) t s1).
  rewrite (bind_eq _ _ s tt s) by done. rewrite (bind_eq _ _ s tt s1) by done. rewrite (bind_eq _ _ s1 tt s2) by done.
  assert (forall u, thr s2 u = if decide (u = t) then with_yield false (with_stat SUSPEND
    (with_priority (init_priority (thr s t)) (thr s t))) else thr s u) as Hth.
  { intros u. unfold s2. rewrite thr_put. destruct (decide (u = t)) as [->|Hu]; unfold s1; rewrite thr_put;
      [by rewrite decide_True|by rewrite decide_False]. }
  destruct (lists_thread_ok _ _ t Hs) as [_ Hi].
  assert (good s2) as Hg2.
  { split; [|done]. split.
    - apply (lists_ok_drop _ t); [|by rewrite Hth, decide_True].
      apply lists_ok_set; [apply lists_ok_set; [by apply lists_ok_off; [|rewrite Ht]|]|].
      + split; [by apply priority_ok|done].
      + unfold s1. rewrite thr_put, decide_True by done. split; [|done].
        destruct (priority_ok (init_priority (thr s t)) (thr s t) Hi) as [? _]. split; [done|left].
        by apply mask_shiftl.
    - split; intros u; rewrite Hth; cbn [s2 s1 put_thr rt_current_thread]; case_decide as E; try done; [apply Hr|apply Hc]. }
  destruct (resume_good s2 t Hg2) as (s3 & E3 & Hg3 & Hc3); [by rewrite Hth, decide_True|].
  assert (rt_thread_resume t s2 = Some (RT_EOK, s3)) as Eres.
  { unfold rt_thread_resume. rewrite (bind_eq (get_thr t) _ s2 (thr s2 t) s2) by done.
    rewrite (Hth t), decide_True by done. cbn [with_yield with_stat stat].
    rewrite bool_decide_true by done. cbn [negb]. revert E3. unfold bind.
    destruct (modify (unlink t) s2) as [[? sa]|]; [|done]. by intros ->. }
  rewrite (bind_eq _ _ _ _ _ Eres). rewrite (bind_eq (gets _) _ s3 (rt_current_thread s3) s3) by done.
  destruct (maybe_schedule_outcome s3 Hg3) as ([] & s4 & E4 & Hg4). exists RT_EOK, s4. by rewrite (bind_eq _ _ _ _ _ E4).
Qed.

Lemma init_good s t p k : good s -> allowed_op s (OInit t p k) -> exists s', _rt_thread_init t p k s = Some (tt, s') /\ good s'.
Proof.
  intros [[Hs [Hr Hc]] Hl] (Hp & Hne & Hst). unfold _rt_thread_init, RT_ASSERT, RT_THREAD_PRIORITY_MAX.
  replace (p <? 32) with true by lia. eexists. split; [reflexivity|]. split; [|done]. split.
  - apply (lists_ok_drop _ t); [|by rewrite thr_put, decide_True].
    apply lists_ok_set; [apply lists_ok_off; [done|by destruct Hst as [->| ->]]|]. split; [|exact Hp]. split; [exact Hp|]. right. by split; [|left].
  - split; intros u; rewrite thr_put; cbn [put_thr rt_current_thread]; case_decide as E; subst; try done; [apply Hr|apply Hc].
Qed.

Lemma start_outcome s : good s -> allowed_op s OStart -> outcome (rt_system_scheduler_start s).
Proof.
  intros [[Hs [Hr Hc]] Hl] (Hnone & t & Ht). unfold rt_system_scheduler_start.
  destruct (get_highest s Hs) as (hi & p & l & E & Hp & Ehi & Hlow).
  { intros Hg. by destruct (no_group_no_ready s t Hs Hg). }
  rewrite (bind_eq _ _ _ _ _ E). set (s1 := put_current hi (rt_current_priority s) s).
  rewrite (bind_eq (modify _) _ _ tt s1) by done.
  assert (lists_ok None s1) as Hs1 by (destruct Hs; by split).
  assert (stat (thr s hi) = READY /\ current_priority (thr s hi) = p) as [Hhr Hhp].
  { apply (ok_ready _ _ Hs hi p). rewrite Ehi. apply list_elem_of_here. }
  destruct (remove_ok None hi s1 Hs1 (or_introl eq_refl)) as (s2 & E2 & Hs2 & Ht2 & (Hl2 & Hc2 & _) & _).
  rewrite (bind_eq _ _ _ _ _ E2). change (thr s1) with (thr s) in Ht2.
  set (f := fun th => with_yield false (with_stat RUNNING th)). exists tt, (put_thr f hi s2). split; [done|].
  assert (forall u, thr (put_thr f hi s2) u = if decide (u = hi) then f (thr s hi) else thr s u) as Hth
    by (intros u; by rewrite thr_put, Ht2).
  assert (rt_current_thread (put_thr f hi s2) = Some hi) as Ecur by (cbn [put_thr rt_current_thread]; by rewrite Hc2).
  split; [split; [split|unfold lock_ok; cbn [put_thr rt_scheduler_lock_nest]; by rewrite Hl2]|].
  - apply (lists_ok_drop _ hi); [|by rewrite Hth, decide_True].
    apply lists_ok_set; [done|]. rewrite Ht2. destruct (lists_thread_ok _ _ hi Hs) as [Hpr Hin].
    split; [|done]. apply (prio_ok_stat RUNNING (thr s hi)); [done|left; by rewrite Hhr].
  - split; intros u; rewrite Hth, Ecur; destruct (decide (u = hi)) as [->|Hu]; try done; [|congruence].
    intros Hu'. apply Hr in Hu'. congruence.
  - intros _ c Ec _. assert (c = hi) as -> by congruence. rewrite Hth, decide_True by done. split; [done|].
    intros u. rewrite Hth. destruct (decide (u = hi)) as [->|Hu]; [done|]. intros Hur.
    cbn [f with_yield with_stat current_priority]. rewrite Hhp. exact (table_min s p u hi l Hs Ehi Hlow Hur).
Qed.

Lemma suspend_good s t : good s -> exists z s', rt_thread_suspend t s = Some (z, s') /\ good s'.
Proof.
  intros Hg. pose proof Hg as [[Hs [Hr Hc]] Hl]. unfold rt_thread_suspend.
  rewrite (bind_eq (get_thr t) _ s (thr s t) s) by done.
  destruct (negb _ && negb _) eqn:E; [by exists (- RT_ERROR), s|].
  rewrite (bind_eq (gets _) _ s (rt_current_thread s) s) by done.
  assert (negb (bool_decide (stat (thr s t) = RUNNING)) || bool_decide (rt_current_thread s = Some t) = true) as Ea.
  { destruct (decide (stat (thr s t) = RUNNING)) as [Et|Et].
    - apply orb_true_intro. right. by apply bool_decide_eq_true, Hr.
    - by rewrite bool_decide_false. }
  rewrite Ea. rewrite (bind_eq (RT_ASSERT true) _ s tt s) by done.
  destruct (remove_wf s t (with_stat SUSPEND) SUSPEND) as (s1 & E1 & Hw & Hcu & Hlo); try done.
  { left. split; [done|]. split; intros Ei; rewrite Ei in E; discriminate E. }
  rewrite (bind_eq _ _ _ _ _ E1). exists RT_EOK, (put_thr (with_stat SUSPEND) t s1). split; [done|].
  split; [done|]. unfold lock_ok. cbn [put_thr rt_scheduler_lock_nest]. by rewrite Hlo.
Qed.

Lemma rt_thread_resume_good s t : good s -> exists z s', rt_thread_resume t s = Some (z, s') /\ good s'.
Proof.
  intros Hg. unfold rt_thread_resume. rewrite (bind_eq (get_thr t) _ s (thr s t) s) by done.
  case_bool_decide as Et; cbn [negb]; [|by exists (- RT_ERROR), s].
  destruct (resume_good s t Hg Et) as (s' & E & Hg' & _). exists RT_EOK, s'. split; [|done].
  revert E. unfold bind. destruct (modify (unlink t) s) as [[? sa]|]; [|done]. by intros ->.
Qed.

Lemma timeout_outcome s t :
  good s -> stat (thr s t) = SUSPEND -> is_Some (rt_current_thread s) -> outcome (rt_thread_timeout t s).
Proof.
  intros Hg Ht Hc. unfold rt_thread_timeout. rewrite (bind_eq (get_thr t) _ s (thr s t) s) by done.
  rewrite Ht, bool_decide_true by done. rewrite (bind_eq (RT_ASSERT true) _ s tt s) by done.
  destruct (resume_good s t Hg Ht) as (s' & E & Hg' & Hc').
  assert ((modify (unlink t) ;;; rt_schedule_insert_thread t ;;; rt_schedule) s = rt_schedule s') as ->.
  { revert E. unfold bind. destruct (modify (unlink t) s) as [[? sa]|]; [|done]. by intros ->. }
  apply schedule_outcome; [done|by rewrite Hc'].
Qed.

Lemma good_thr s f t :
  good s -> (forall th, stat (f th) = stat th /\ current_priority (f th) = current_priority th /\
                        number_mask (f th) = number_mask th /\ init_priority (f th) = init_priority th) ->
  good (put_thr f t s).
Proof. intros [Hw Hl] Hf. split; [by apply wf_thr|done]. Qed.

Lemma yield_outcome s : good s -> is_Some (rt_current_thread s) -> outcome (rt_thread_yield s).
Proof.
  intros Hg [c Ec]. unfold rt_thread_yield.
  rewrite (bind_eq rt_thread_self _ s c s) by (unfold rt_thread_self; by rewrite Ec).
  set (f := fun th => with_yield true (with_remaining (init_tick th) th)).
  rewrite (bind_eq (set_thr _ _) _ s tt (put_thr f c s)) by done.
  destruct (schedule_outcome (put_thr f c s)) as ([] & s' & E & H); [by apply good_thr|by eexists|].
  exists RT_EOK, s'. by rewrite (bind_eq _ _ _ _ _ E).
Qed.

Lemma tick_good s : good s -> is_Some (rt_current_thread s) -> exists s', rt_tick_increase s = Some (tt, s') /\ good s'.
Proof.
  intros Hg [c Ec]. unfold rt_tick_increase.
  rewrite (bind_eq rt_thread_self _ s c s) by (unfold rt_thread_self; by rewrite Ec).
  set (s1 := put_thr (fun th => with_remaining (u32 (remaining_tick th - 1)) th) c s).
  rewrite (bind_eq (set_thr _ _) _ s tt s1) by done.
  rewrite (bind_eq (get_thr c) _ s1 (thr s1 c) s1) by done.
  assert (good s1) as Hg1 by (by apply good_thr). unfold when. destruct (_ =? 0); [|by exists s1].
  set (f := fun th => with_yield true (with_remaining (init_tick th) th)).
  rewrite (bind_eq (set_thr _ _) _ s1 tt (put_thr f c s1)) by done.
  destruct (schedule_outcome (put_thr f c s1)) as ([] & s' & E & H & _); [by apply good_thr|by eexists|]. by exists s'.
Qed.

Lemma priority_good s t p : good s -> 0 <= p < 32 -> exists s', rt_thread_change_priority t p s = Some (tt, s') /\ good s'.
Proof.
  intros [[Hs [Hr Hc]] Hl] Hp. unfold rt_thread_change_priority.
  rewrite (bind_eq (get_thr t) _ s (thr s t) s) by done.
  assert (forall th, 0 <= init_priority th < 32 -> thread_ok (with_priority p th)) as Hok.
  { intros th Hi. split; [by apply priority_ok|done]. }
  case_bool_decide as Et.
  - assert (rt_current_thread s <> Some t) as Hne by (intros E; by destruct (Hc t E)).
    destruct (remove_ok None t s Hs (or_introl eq_refl)) as (s1 & E1 & Hs1 & Ht1 & (Hl1 & Hc1 & _) & _).
    rewrite (bind_eq _ _ _ _ _ E1). rewrite (bind_eq (set_thr _ _) _ s1 tt (put_thr (with_priority p) t s1)) by done.
    destruct (insert_wf (put_thr (with_priority p) t s1) t) as (s' & E' & Hw & Hcu & Hlo).
    + apply lists_ok_set; [done|]. apply Hok, (ok_init _ _ Hs1).
    + rewrite thr_put, decide_True by done. cbn [with_priority stat]. by rewrite Ht1, Et.
    + rewrite thr_put, decide_True by done. cbn [with_priority stat]. by rewrite Ht1, Et.
    + cbn [put_thr rt_current_thread]. by rewrite Hc1.
    + intros u Hu. rewrite thr_put, decide_False by done. cbn [put_thr rt_current_thread]. rewrite Ht1, Hc1. apply Hr.
    + intros u. cbn [put_thr rt_current_thread]. rewrite Hc1, thr_put. intros Eu.
      rewrite decide_False by congruence. rewrite Ht1. by apply Hc.
    + exists s'. split; [exact E'|]. split; [done|]. unfold lock_ok. rewrite Hlo. cbn [put_thr rt_scheduler_lock_nest]. by rewrite Hl1.
  - exists (put_thr (with_priority p) t s). split; [done|]. split; [|done]. split.
    + apply (lists_ok_drop _ t); [|by rewrite thr_put, decide_True].
      apply lists_ok_set; [by apply lists_ok_off|]. apply Hok, (ok_init _ _ Hs).
    + split; intros u; rewrite thr_put; cbn [put_thr rt_current_thread]; case_decide as E; subst; [apply Hr|apply Hr|apply Hc|apply Hc].
Qed.

Lemma exit_outcome s : good s -> is_Some (rt_current_thread s) -> outcome (rt_thread_exit s).
Proof.
  intros [Hw Hl] [c Ec]. unfold rt_thread_exit.
  rewrite (bind_eq rt_thread_self _ s c s) by (unfold rt_thread_self; by rewrite Ec).
  destruct (remove_wf s c close CLOSE Hw) as (s1 & E1 & Hw1 & Hcu & Hlo); [by right|done|].
  rewrite (bind_eq _ _ _ _ _ E1). rewrite (bind_eq (set_thr _ _) _ s1 tt (put_thr close c s1)) by done.
  apply schedule_outcome.
  - split; [done|]. unfold lock_ok. cbn [put_thr rt_scheduler_lock_nest]. by rewrite Hlo.
  - cbn [put_thr rt_current_thread]. by rewrite Hcu, Ec.
Qed.

Lemma detach_good s t : good s -> exists z s', rt_thread_detach t s = Some (z, s') /\ good s'.
Proof.
  intros Hg. pose proof Hg as [Hw Hl]. unfold rt_thread_detach. rewrite (bind_eq (get_thr t) _ s (thr s t) s) by done.
  destruct (bool_decide (stat (thr s t) = CLOSE)); [by exists RT_EOK, s|].
  destruct (decide (stat (thr s t) = INIT)) as [Ei|Ei].
  - rewrite bool_decide_true by done. exists RT_EOK, (put_thr close t s). split; [done|].
    split; [|done]. destruct Hw as [Hs [Hr Hc]]. split.
    + apply (lists_ok_drop _ t); [|by rewrite thr_put, decide_True].
      apply lists_ok_set; [by apply lists_ok_off; [|rewrite Ei]|].
      destruct (lists_thread_ok _ _ t Hs) as [Hp Hi]. split; [|done]. apply (prio_ok_stat CLOSE (thr s t)); tauto.
    + split; intros u; rewrite thr_put; cbn [put_thr rt_current_thread]; case_decide as E; subst; try done; [apply Hr|apply Hc].
  - rewrite bool_decide_false by done. cbn [negb when].
    destruct (remove_wf s t close CLOSE Hw) as (s1 & E1 & Hw1 & Hcu & Hlo); [by right|done|].
    rewrite (bind_eq _ _ _ _ _ E1). exists RT_EOK, (put_thr close t s1). split; [done|]. split; [done|].
    unfold lock_ok. cbn [put_thr rt_scheduler_lock_nest]. by rewrite Hlo.
Qed.

Lemma lock_good s n : good s -> 0 <= n < 32768 -> good (put_lock n s).
Proof. intros [[Hs Hc] _] Hn. split; [split; [destruct Hs; by split|done]|done]. Qed.

Lemma leave_outcome s : good s -> outcome (rt_exit_critical s).
Proof.
  intros Hg. pose proof Hg as [_ Hl]. unfold lock_ok in Hl. unfold rt_exit_critical.
  set (n := s16 (rt_scheduler_lock_nest s - 1)). assert (n = rt_scheduler_lock_nest s - 1) as En.
  { unfold n, s16, swrap. rewrite Z.mod_small by lia. lia. }
  rewrite (bind_eq (modify _) _ s tt (put_lock n s)) by done.
  rewrite (bind_eq (gets _) _ (put_lock n s) n (put_lock n s)) by done.
  destruct (n <=? 0) eqn:E.
  - rewrite (bind_eq (modify _) _ _ tt (put_lock 0 s)) by done.
    rewrite (bind_eq (gets _) _ _ (rt_current_thread (put_lock 0 s)) (put_lock 0 s)) by done.
    apply maybe_schedule_outcome, lock_good; [done|lia].
  - exists tt, (put_lock n s). split; [done|]. split; [apply lock_good; [done|lia]|].
    cbn [put_lock rt_scheduler_lock_nest]. lia.
Qed.

(** Operations that end with a decision of the scheduler. *)
Definition reschedules (o : op) : bool :=
  match o with
  | OStartup _ | OStart | OSchedule | OTimeout _ | OYield | OExit | OLeave => true
  | _ => false
  end.

Definition kept (o : op) (m : option (unit * sched)) : Prop :=
  exists s', m = Some (tt, s') /\ good s' /\
    (reschedules o = true -> rt_scheduler_lock_nest s' = 0 -> decided s').

Lemma exec_kept s o : good s -> allowed_op s o -> kept o (exec_op o s).
Proof.
  assert (forall (m : option (unit * sched)) o, outcome m -> kept o m) as Ho.
  { intros m o' ([] & s' & E & Hg & Hd). exists s'. auto. }
  assert (forall A (m : C A) o, reschedules o = false -> (exists a s', m s = Some (a, s') /\ good s') ->
    kept o (void m s)) as Hv.
  { intros A m o' Hn (a & s' & E & Hg'). exists s'. unfold void. rewrite (bind_eq _ _ _ _ _ E). rewrite Hn. done. }
  assert (forall (m : option (unit * sched)) o, reschedules o = false -> (exists s', m = Some (tt, s') /\ good s') ->
    kept o m) as Hn.
  { intros m o' Hr (s' & E & Hg'). exists s'. rewrite Hr. done. }
  intros Hg Ha. destruct o as [t p k|t| | |t|t|t| | |t p| |t| |]; cbn [exec_op allowed_op] in *.
  - apply Hn; [done|by apply init_good].
  - by apply Ho, void_outcome, startup_outcome.
  - by apply Ho, start_outcome.
  - by apply Ho, schedule_outcome.
  - apply Hv; [done|by apply suspend_good].
  - apply Hv; [done|by apply rt_thread_resume_good].
  - destruct Ha. by apply Ho, timeout_outcome.
  - by apply Ho, void_outcome, yield_outcome.
  - apply Hn; [done|by apply tick_good].
  - apply Hn; [done|by apply priority_good].
  - by apply Ho, exit_outcome.
  - apply Hv; [done|by apply detach_good].
  - apply Hn; [done|]. eexists. split; [reflexivity|]. destruct Hg as [? Hl]. unfold lock_ok in Hl.
    apply lock_good; [done|]. unfold s16, swrap. rewrite Z.mod_small by lia. lia.
  - by apply Ho, leave_outcome.
Qed.

(** ** Theorems *)

(** The states of the system: threads that were never used, then any sequence
    of operations. *)
Inductive sreach : sched -> Prop :=
| sreach_init s s' :
    (forall t, thread_ok (thr s t) /\ stat (thr s t) = INIT) -> rt_current_thread s = None ->
    rt_system_scheduler_init s = Some (tt, s') -> sreach s'
| sreach_step s o s' :
    sreach s -> allowed_op s o -> exec_op o s = Some (tt, s') -> sreach s'.

Lemma sreach_good s : sreach s -> good s.
Proof.
  induction 1 as [s s' Ht Hc E|s o s' _ IH Ha E].
  - injection E as <-. split; [|unfold lock_ok; cbn; lia]. split.
    + split; cbn; try done; try lia.
      * intros p Hp. by rewrite Z.bits_0.
      * intros t p. rewrite elem_of_nil. destruct (Ht t) as [_ ->]. naive_solver.
      * constructor.
      * intros t. apply Ht.
      * intros t. apply (Ht t).
    + split; intros t; cbn; [|by rewrite Hc]. destruct (Ht t) as [_ ->]. done.
  - destruct (exec_kept s o IH Ha) as (s2 & E2 & Hg & _). congruence.
Qed.

(** C37: the data of the scheduler are well formed in every state: the list of
    each priority holds exactly the ready threads of this priority, each once;
    the bitmap has a bit set exactly for the lists that are not empty; each
    started thread has the mask of its priority; and at most the current thread
    is running and it is on no list.  Every operation that may be called
    returns, and keeps this. *)
Theorem ready_queues_well_formed s o :
  sreach s -> allowed_op s o -> wf s /\ exists s', exec_op o s = Some (tt, s') /\ wf s'.
Proof.
  intros Hs Ha. pose proof (sreach_good s Hs) as Hg. split; [apply Hg|].
  destruct (exec_kept s o Hg Ha) as (s' & E & [Hw _] & _). by exists s'.
Qed.

(** C38: the highest priority runs.  Whenever a thread starts, yields, ends,
    times out or leaves a critical section, or the scheduler is started or
    called, and the scheduler is not locked afterwards, the current thread is
    in the running state and no ready thread has a higher priority. *)
Theorem highest_priority_runs s o s' c :
  sreach s -> allowed_op s o -> reschedules o = true ->
  exec_op o s = Some (tt, s') -> rt_scheduler_lock_nest s' = 0 -> rt_current_thread s' = Some c ->
  (exists u, stat (thr s' u) = READY \/ stat (thr s' u) = RUNNING) ->
  stat (thr s' c) = RUNNING /\
  forall u, stat (thr s' u) = READY -> current_priority (thr s' c) <= current_priority (thr s' u).
Proof.
  intros Hs Ha Hr E Hl Hc Hu. destruct (exec_kept s o (sreach_good s Hs) Ha) as (s2 & E2 & _ & Hd).
  assert (s2 = s') as -> by congruence. exact (Hd Hr Hl c Hc Hu).
Qed.

(** ** Round robin *)

(** Thread [c] runs at priority [p], the highest that is ready; [l] are the
    others of this priority. *)
Record rr (s : sched) (p : Z) (c : tid) (l : list tid) : Prop := mk_rr {
  rr_good : good s;
  rr_lock : rt_scheduler_lock_nest s = 0;
  rr_current : rt_current_thread s = Some c;
  rr_running : stat (thr s c) = RUNNING;
  rr_prio : current_priority (thr s c) = p;
  rr_list : rt_thread_priority_table s p = l;
  rr_low : forall q, q < p -> rt_thread_priority_table s q = []
}.

Definition next_turn (c : tid) (l : list tid) : tid * list tid :=
  match l with [] => (c, []) | h :: l => (h, l ++ [c]) end.

Lemma schedule_rr s p c l :
  rr s p c l -> yield (thr s c) = true ->
  exists s', rt_schedule s = Some (tt, s') /\ rr s' p (fst (next_turn c l)) (snd (next_turn c l)).
Proof.
  intros [Hg Hl Ec Hrun Hp Htab Hlow] Hy. pose proof Hg as [Hw _]. pose proof Hw as [Hs _].
  destruct (schedule_outcome s Hg) as ([] & s' & E & Hg' & _); [by eexists|]. exists s'. split; [done|].
  destruct (schedule_spec s c Hw Ec Hl) as (s2 & E2 & _ & Hl2 & Hcase). assert (s2 = s') as -> by congruence.
  destruct Hcase as [[Hz ->]|(hi & p0 & m & Ehi & Hlow0 & Hst)].
  - destruct l as [|h l]; [by split|]. exfalso.
    assert (h ∈ rt_thread_priority_table s p) as Hin by (rewrite Htab; apply list_elem_of_here).
    apply (ok_ready _ _ Hs) in Hin as (_ & Hr & _). by destruct (no_group_no_ready s h Hs Hz).
  - assert (p <= p0) as Hle.
    { destruct (decide (p0 < p)) as [Hlt|]; [|lia]. rewrite Hlow in Ehi by done. done. }
    unfold stays in Hst. rewrite Hrun, Hp, Hy in Hst. rewrite bool_decide_true in Hst by done. cbn [negb] in Hst.
    rewrite andb_false_r, orb_false_r in Hst. cbn [andb] in Hst. destruct l as [|h l]; cbn [next_turn fst snd].
    + assert (p < p0) as Hlt by (destruct (decide (p = p0)) as [->|]; [congruence|lia]).
      replace (p <? p0) with true in Hst by lia. destruct Hst as [Hc Ht Hth].
      split; try done; [..|].
      * by rewrite Hth, decide_True.
      * by rewrite Hth, decide_True.
      * by rewrite Ht.
      * intros q Hq. by rewrite Ht, Hlow.
    + assert (p0 = p) as ->.
      { destruct (decide (p < p0)) as [Hlt|]; [|lia]. rewrite Hlow0 in Htab by done. done. }
      replace (p <? p) with false in Hst by lia. rewrite Htab in Ehi. injection Ehi as <- <-.
      destruct Hst as [Hc Ht Hth].
      assert (h ∈ rt_thread_priority_table s p) as Hin by (rewrite Htab; apply list_elem_of_here).
      pose proof (ok_nodup _ _ Hs p) as Hnd. rewrite Htab in Hnd. apply NoDup_cons in Hnd as [Hnh _].
      apply (ok_ready _ _ Hs) in Hin as (_ & Hr & Hhp). assert (h <> c) as Hne by congruence.
      split; try done.
      * by rewrite Hth, decide_True.
      * rewrite Hth, decide_True by done. exact Hhp.
      * rewrite Ht. unfold requeue. rewrite Htab, bool_decide_true by done.
        rewrite filter_app, filter_cons_False, filter_out by (done || naive_solver).
        rewrite filter_cons_True by congruence. done.
      * intros q Hq. rewrite Ht. unfold requeue. rewrite Hlow by done.
        rewrite bool_decide_false by (intros [_ ?]; lia). done.
Qed.

(** ** Time slices *)

(** The running thread uses up a tick, or yields. *)
Inductive event := Tick | Yield.

Definition event_step (e : event) : C unit :=
  match e with Tick => rt_tick_increase | Yield => rt_thread_yield ;;; ret tt end.

Fixpoint run (es : list event) (s : sched) : option sched :=
  match es with
  | [] => Some s
  | e :: es => match event_step e s with Some (_, s) => run es s | None => None end
  end.

(** The specification: a queue of threads, the running one first, with the ticks
    left of their time slices.  A thread whose slice is used up or that yields
    goes to the end, with a slice of its full length. *)
Abbreviation rot := (list (tid * Z)).

Definition rot_step (slice : tid -> Z) (e : event) (q : rot) : rot :=
  match q, e with
  | [], _ => []
  | (c, n) :: q, Yield => q ++ [(c, slice c)]
  | (c, n) :: q, Tick => if n =? 1 then q ++ [(c, slice c)] else (c, n - 1) :: q
  end.

Definition rot_run (slice : tid -> Z) (es : list event) (q : rot) : rot := foldl (fun q e => rot_step slice e q) q es.

Definition slices (s : sched) (l : list tid) : rot := map (fun t => (t, remaining_tick (thr s t))) l.
Definition ticks (q : rot) : Z := foldr (fun x n => snd x + n) 0 q.

(** Time slices of at least one tick. *)
Definition slice_ok (s : sched) (t : tid) : Prop :=
  1 <= remaining_tick (thr s t) < 2 ^ 32 /\ 1 <= init_tick (thr s t) < 2 ^ 32.

(** The scheduler itself does not touch the time slices. *)
Definition same_ticks (s s' : sched) : Prop :=
  forall t, remaining_tick (thr s' t) = remaining_tick (thr s t) /\ init_tick (thr s' t) = init_tick (thr s t).
Definition keeps_ticks {A} (m : C A) : Prop := forall s a s', m s = Some (a, s') -> same_ticks s s'.

Lemma keeps_ticks_bind {A B} (m : C A) (k : A -> C B) :
  keeps_ticks m -> (forall a, keeps_ticks (k a)) -> keeps_ticks (bind m k).
Proof.
  intros Hm Hk s b s'. unfold bind. destruct (m s) as [[a s1]|] eqn:E; [|done]. intros E' t.
  destruct (Hk a _ _ _ E' t) as [-> ->]. by apply (Hm _ a).
Qed.

Lemma keeps_ticks_ret {A} (a : A) : keeps_ticks (ret a).
Proof. by intros s a' s' [= _ <-]. Qed.

Lemma keeps_ticks_gets {A} (f : sched -> A) : keeps_ticks (gets f).
Proof. by intros s a' s' [= _ <-]. Qed.

Lemma keeps_ticks_modify f : (forall s, thr (f s) = thr s) -> keeps_ticks (modify f).
Proof. intros Hf s a s' [= _ <-] t. by rewrite Hf. Qed.

Lemma keeps_ticks_set f t :
  (forall th, remaining_tick (f th) = remaining_tick th /\ init_tick (f th) = init_tick th) -> keeps_ticks (set_thr f t).
Proof. intros Hf s a s' [= _ <-] u. rewrite thr_put. case_decide; [subst; apply Hf|done]. Qed.

Lemma keeps_ticks_highest : keeps_ticks _get_highest_priority_thread.
Proof. intros s a s'. unfold _get_highest_priority_thread. by destruct (rt_thread_priority_table _ _); intros [= _ <-]. Qed.

Lemma keeps_ticks_self : keeps_ticks rt_thread_self.
Proof. intros s a s'. unfold rt_thread_self. by destruct (rt_current_thread s); intros [= _ <-]. Qed.

Lemma keeps_ticks_schedule : keeps_ticks rt_schedule.
Proof.
  unfold rt_schedule, rt_schedule_insert_thread, rt_schedule_remove_thread, when, get_thr.
  repeat first [ apply keeps_ticks_bind; [|intros ?] | apply keeps_ticks_ret | apply keeps_ticks_gets
               | apply keeps_ticks_modify; done | apply keeps_ticks_set; done | case_match
               | apply keeps_ticks_highest | apply keeps_ticks_self ].
Qed.

Lemma rr_thr s p c l f :
  rr s p c l -> (forall th, stat (f th) = stat th /\ current_priority (f th) = current_priority th /\
                 number_mask (f th) = number_mask th /\ init_priority (f th) = init_priority th) ->
  rr (put_thr f c s) p c l.
Proof.
  intros [Hg Hl Ec Hrun Hp Htab Hlow] Hf. destruct (Hf (thr s c)) as (E1 & E2 & _).
  split; try done; [by apply good_thr|..]; rewrite thr_put, decide_True by done; congruence.
Qed.

Lemma rr_nodup s p c l : rr s p c l -> NoDup (c :: l).
Proof.
  intros [[[Hs _] _] _ _ Hrun _ <- _]. constructor; [|apply (ok_nodup _ _ Hs)].
  intros (_ & Hr & _)%(ok_ready _ _ Hs). congruence.
Qed.

(** The running thread [c] with others [l] of its priority: it goes to the end,
    with a full time slice. *)
Lemma give_way s p c l :
  rr s p c l ->
  exists s', rt_schedule (put_thr (fun th => with_yield true (with_remaining (init_tick th) th)) c s) = Some (tt, s') /\
    rr s' p (fst (next_turn c l)) (snd (next_turn c l)) /\
    (forall t, init_tick (thr s' t) = init_tick (thr s t) /\
       remaining_tick (thr s' t) = if decide (t = c) then init_tick (thr s c) else remaining_tick (thr s t)).
Proof.
  intros Hrr. set (f := fun th => with_yield true (with_remaining (init_tick th) th)).
  destruct (schedule_rr (put_thr f c s) p c l) as (s' & E & Hrr'); [by apply rr_thr|by rewrite thr_put, decide_True|].
  exists s'. split; [done|]. split; [done|]. intros t. destruct (keeps_ticks_schedule _ _ _ E t) as [-> ->].
  rewrite thr_put. by case_decide; subst.
Qed.

(** One event. *)
Lemma event_rr s p c l e :
  rr s p c l -> (forall t, t ∈ c :: l -> slice_ok s t) ->
  exists s' c' l', event_step e s = Some (tt, s') /\ rr s' p c' l' /\ (forall t, t ∈ c' :: l' <-> t ∈ c :: l) /\
    (forall t, init_tick (thr s' t) = init_tick (thr s t)) /\
    slices s' (c' :: l') = rot_step (fun t => init_tick (thr s t)) e (slices s (c :: l)).
Proof.
  intros Hrr Hok. pose proof (rr_current _ _ _ _ Hrr) as Ec. pose proof (rr_nodup _ _ _ _ Hrr) as Hn.
  assert (forall s1, rr s1 p c l -> (forall t, init_tick (thr s1 t) = init_tick (thr s t)) ->
    (forall t, t <> c -> remaining_tick (thr s1 t) = remaining_tick (thr s t)) ->
    exists s' c' l', rt_schedule (put_thr (fun th => with_yield true (with_remaining (init_tick th) th)) c s1) = Some (tt, s') /\
      rr s' p c' l' /\ (forall t, t ∈ c' :: l' <-> t ∈ c :: l) /\ (forall t, init_tick (thr s' t) = init_tick (thr s t)) /\
      slices s' (c' :: l') = slices s l ++ [(c, init_tick (thr s c))]) as Hend.
  { intros s1 Hrr1 Hi Hr. destruct (give_way s1 p c l Hrr1) as (s' & E & Hrr' & Ht).
    exists s', (fst (next_turn c l)), (snd (next_turn c l)). split; [done|]. split; [done|]. split; [|split].
    - intros t. destruct l as [|h l]; [done|]. cbn [next_turn fst snd]. rewrite !elem_of_cons, elem_of_app, list_elem_of_singleton. tauto.
    - intros t. destruct (Ht t) as [-> _]. apply Hi.
    - transitivity (map (fun t => (t, remaining_tick (thr s' t))) (l ++ [c])); [by destruct l|].
      rewrite map_app. cbn [map]. destruct (Ht c) as [_ ->]. rewrite decide_True, Hi by done. f_equal.
      apply map_ext_in. intros t Hin%list_elem_of_In. assert (t <> c) as Hne by (intros ->; by apply NoDup_cons in Hn as [? _]).
      destruct (Ht t) as [_ ->]. by rewrite decide_False, Hr. }
  destruct e; cbn [event_step rot_step slices map].
  - unfold rt_tick_increase. rewrite (bind_eq rt_thread_self _ s c s) by (unfold rt_thread_self; by rewrite Ec).
    set (s1 := put_thr (fun th => with_remaining (u32 (remaining_tick th - 1)) th) c s).
    rewrite (bind_eq (set_thr _ _) _ s tt s1) by done. rewrite (bind_eq (get_thr c) _ s1 (thr s1 c) s1) by done.
    assert (rr s1 p c l) as Hrr1 by (by apply rr_thr).
    assert (forall t, init_tick (thr s1 t) = init_tick (thr s t)) as Hi1 by (intros t; unfold s1; rewrite thr_put; by case_decide; subst).
    assert (forall t, t <> c -> remaining_tick (thr s1 t) = remaining_tick (thr s t)) as Hr1.
    { intros t Hne. unfold s1. by rewrite thr_put, decide_False. }
    destruct (Hok c) as [Hc _]; [left|].
    assert (remaining_tick (thr s1 c) = remaining_tick (thr s c) - 1) as Erc.
    { unfold s1. rewrite thr_put, decide_True by done. cbn [with_remaining remaining_tick]. rewrite u32_small; lia. }
    rewrite Erc. destruct (Z.eqb_spec (remaining_tick (thr s c)) 1) as [E1|E1].
    + rewrite E1. change (1 - 1 =? 0) with true. cbn [when].
      rewrite (bind_eq (set_thr _ _) _ s1 tt (put_thr (fun th => with_yield true (with_remaining (init_tick th) th)) c s1)) by done.
      by apply Hend.
    + replace (remaining_tick (thr s c) - 1 =? 0) with false by lia. cbn [when].
      exists s1, c, l. split; [done|]. split; [done|]. split; [done|]. split; [done|]. unfold slices. cbn [map]. rewrite Erc. f_equal.
      apply map_ext_in. intros t Hin%list_elem_of_In. f_equal. apply Hr1. intros ->. by apply NoDup_cons in Hn as [? _].
  - unfold rt_thread_yield. destruct (Hend s) as (s' & c' & l' & E & H); [done|done|done|]. exists s', c', l'. split; [|done].
    unfold bind at 1. unfold bind at 1. unfold rt_thread_self at 1. rewrite Ec.
    by rewrite (bind_eq (set_thr _ _) _ s tt (put_thr (fun th => with_yield true (with_remaining (init_tick th) th)) c s)), (bind_eq _ _ _ _ _ E) by done.
Qed.

Lemma rot_step_init f g e q : (forall t, f t = g t) -> rot_step f e q = rot_step g e q.
Proof. intros E. destruct q as [|[c n] q]; [done|]. destruct e; cbn; by rewrite E. Qed.

Lemma rot_run_init f g es : forall q, (forall t, f t = g t) -> rot_run f es q = rot_run g es q.
Proof.
  induction es as [|e es IH]; intros q E; [done|]. cbn [rot_run foldl]. rewrite (rot_step_init f g) by done. by apply (IH _ E).
Qed.

(** A step leaves at least one tick. *)
Lemma slices_ok_step s s' p c l c' l' e :
  (forall t, t ∈ c :: l -> slice_ok s t) -> (forall t, t ∈ c' :: l' <-> t ∈ c :: l) ->
  (forall t, init_tick (thr s' t) = init_tick (thr s t)) -> rr s' p c' l' ->
  slices s' (c' :: l') = rot_step (fun t => init_tick (thr s t)) e (slices s (c :: l)) ->
  forall t, t ∈ c' :: l' -> slice_ok s' t.
Proof.
  intros Hok Hl Hi _ Eq t Ht. assert ((t, remaining_tick (thr s' t)) ∈ slices s' (c' :: l')) as Hin.
  { unfold slices. apply list_elem_of_In, in_map_iff. exists t. split; [done|]. by apply list_elem_of_In. }
  rewrite Eq in Hin. unfold slice_ok. rewrite Hi. destruct (Hok t (proj1 (Hl t) Ht)) as [_ Hti]. split; [|done].
  assert (forall x n, (x, n) ∈ slices s (c :: l) -> 1 <= n < 2 ^ 32) as Hall.
  { intros x n (u & [= <- <-] & Hu%list_elem_of_In)%list_elem_of_In%in_map_iff. apply Hok, Hu. }
  cbn [slices map rot_step] in Hin, Hall. fold (slices s l) in Hin, Hall.
  assert ((t, remaining_tick (thr s' t)) ∈ slices s l ++ [(c, init_tick (thr s c))] -> 1 <= remaining_tick (thr s' t) < 2 ^ 32) as Hend.
  { rewrite elem_of_app, list_elem_of_singleton. intros [Hin'|[= -> ->]]; [apply (Hall t); by right|apply (Hok c); left]. }
  pose proof (Hall c (remaining_tick (thr s c)) ltac:(left)) as Hc.
  destruct e; [|by apply Hend]. destruct (Z.eqb_spec (remaining_tick (thr s c)) 1) as [E|E]; [by apply Hend|].
  apply elem_of_cons in Hin as [[= -> ->]|Hin]; [lia|]. apply (Hall t). by right.
Qed.

Lemma run_rr es : forall s p c l,
  rr s p c l -> (forall t, t ∈ c :: l -> slice_ok s t) ->
  exists s' c' l', run es s = Some s' /\ rr s' p c' l' /\
    slices s' (c' :: l') = rot_run (fun t => init_tick (thr s t)) es (slices s (c :: l)).
Proof.
  induction es as [|e es IH]; intros s p c l Hrr Hok; [by exists s, c, l|].
  destruct (event_rr s p c l e Hrr Hok) as (s1 & c1 & l1 & E & Hrr1 & Hl & Hi & Eq).
  destruct (IH s1 p c1 l1 Hrr1) as (s2 & c2 & l2 & E2 & Hrr2 & Eq2).
  { by eapply slices_ok_step. }
  exists s2, c2, l2. cbn [run]. rewrite E. split; [done|]. split; [done|]. rewrite Eq2, Eq. cbn [rot_run foldl]. by apply (rot_run_init _ _ es).
Qed.

(** Ticks alone. *)
Lemma rot_ticks slice c n q m :
  Z.of_nat m < n -> rot_run slice (replicate m Tick) ((c, n) :: q) = (c, n - Z.of_nat m) :: q.
Proof.
  revert n. induction m as [|m IH]; intros n Hm; [by rewrite Z.sub_0_r|]. cbn [replicate rot_run foldl rot_step].
  replace (n =? 1) with false by lia. fold (rot_run slice (replicate m Tick) ((c, n - 1) :: q)). rewrite IH by lia. do 2 f_equal. lia.
Qed.

Lemma rot_full slice c n q m :
  1 <= n -> n <= Z.of_nat m ->
  rot_run slice (replicate m Tick) ((c, n) :: q) = rot_run slice (replicate (m - Z.to_nat n) Tick) (q ++ [(c, slice c)]).
Proof.
  intros Hn Hm. replace m with (Z.to_nat (n - 1) + S (m - Z.to_nat n))%nat at 1 by lia.
  rewrite replicate_add. unfold rot_run. rewrite foldl_app. fold (rot_run slice (replicate (Z.to_nat (n - 1)) Tick) ((c, n) :: q)).
  rewrite rot_ticks by lia. rewrite Z2Nat.id by lia. replace (n - (n - 1)) with 1 by lia. done.
Qed.

Lemma rot_nth slice n : forall k q,
  Forall (fun x => 1 <= snd x) q -> (n < length q)%nat -> ticks (take n q) <= Z.of_nat k < ticks (take (S n) q) ->
  fst <$> head (rot_run slice (replicate k Tick) q) = fst <$> q !! n.
Proof.
  assert (forall n k q r, Forall (fun x => 1 <= snd x) q -> (n < length q)%nat ->
    ticks (take n q) <= Z.of_nat k < ticks (take (S n) q) ->
    fst <$> head (rot_run slice (replicate k Tick) (q ++ r)) = fst <$> q !! n) as H.
  { clear. intros n. induction n as [|n IH]; intros k q r Hq Hn Hk; (destruct q as [|[c m] q]; [cbn in Hn; lia|]); inversion Hq as [|? ? Hm Hq']; subst; cbn [snd] in Hm.
    - rewrite !firstn_cons, !firstn_O in Hk. cbn in Hk. cbn [app]. by rewrite rot_ticks by lia.
    - rewrite !firstn_cons in Hk.
      cbn [ticks foldr snd] in Hk. fold (ticks (take n q)) in Hk. fold (ticks (take (S n) q)) in Hk.
      assert (0 <= ticks (take n q)) as H0.
      { clear -Hq'. revert n. induction Hq' as [|x q Hx Hq IH]; intros [|n]; [done|done|done|]. cbn. specialize (IH n). unfold ticks in IH. lia. }
      cbn [app]. rewrite rot_full by lia. rewrite <- app_assoc. cbn [length] in Hn. cbn [lookup list_lookup]. apply IH; [done|lia|]. lia. }
  intros k q Hq Hn Hk. rewrite <- (app_nil_r q) at 1. by apply H.
Qed.

(** C39: threads of the same priority share the processor.  While nothing but ticks
    and yields happens (no thread of a higher priority becomes ready, the running
    one does not block, all slices have at least one tick), the threads of the
    highest ready priority are served as a queue: for any sequence of ticks and
    yields, the running thread is the first of the queue in which a thread goes to
    the end, with a new slice, when it yields or has used up its slice.  In
    particular, with ticks alone each of them runs for exactly the ticks left of its
    slice, in the order of the list. *)
Theorem round_robin s p c l :
  rr s p c l -> (forall t, t ∈ c :: l -> slice_ok s t) ->
  (forall es, exists s', run es s = Some s' /\ wf s' /\
     rt_current_thread s' = fst <$> head (rot_run (fun t => init_tick (thr s t)) es (slices s (c :: l)))) /\
  (forall n k, (n <= length l)%nat ->
     ticks (slices s (take n (c :: l))) <= Z.of_nat k < ticks (slices s (take (S n) (c :: l))) ->
     exists s', run (replicate k Tick) s = Some s' /\ rt_current_thread s' = (c :: l) !! n).
Proof.
  intros Hrr Hok.
  assert (forall es, exists s', run es s = Some s' /\ wf s' /\
     rt_current_thread s' = fst <$> head (rot_run (fun t => init_tick (thr s t)) es (slices s (c :: l)))) as Hrun.
  { intros es. destruct (run_rr es s p c l Hrr Hok) as (s' & c' & l' & E & Hrr' & Eq). exists s'. split; [done|].
    split; [exact (proj1 (rr_good _ _ _ _ Hrr'))|]. rewrite <- Eq. cbn. exact (rr_current _ _ _ _ Hrr'). }
  split; [exact Hrun|]. intros n k Hn Hk. destruct (Hrun (replicate k Tick)) as (s' & E & _ & Ec). exists s'. split; [done|].
  rewrite Ec. rewrite (rot_nth _ n).
  - unfold slices. change (map ?f ?l) with (f <$> l). rewrite list_lookup_fmap. by destruct ((c :: l) !! n).
  - apply Forall_forall. intros x (t & <- & Ht%list_elem_of_In)%list_elem_of_In%in_map_iff. apply (Hok t Ht).
  - unfold slices. rewrite length_map. cbn [length]. lia.
  - unfold slices in *. by rewrite !firstn_map.
Qed.

(** ** A system with three threads

    Thread 0 idles at the lowest priority, threads 1 and 2 share priority 10. *)

Definition boot_sched : sched :=
  mk_sched (fun _ => []) 0 0 None 0 (fun _ => mk_thr 0 0 0 INIT false 0 0).
Definition after_op (o : op) (s : sched) : sched := default s (snd <$> exec_op o s).

Definition boot_ops : list op :=
  [OInit 0%nat 31 32; OInit 1%nat 10 20; OInit 2%nat 10 20; OStartup 0%nat; OStartup 1%nat; OStartup 2%nat; OStart].
Definition run_ops (os : list op) (s : sched) : sched := foldl (fun s o => after_op o s) s os.
Definition demo_sched : sched := run_ops boot_ops boot_sched.

Lemma after_op_step s o : sreach s -> allowed_op s o -> sreach (after_op o s).
Proof.
  intros Hs Ha. destruct (exec_kept s o (sreach_good s Hs) Ha) as (s' & E & _). unfold after_op. rewrite E.
  by eapply sreach_step.
Qed.

Lemma demo_sreach : sreach demo_sched.
Proof.
  unfold demo_sched, run_ops, boot_ops. cbn [foldl].
  apply after_op_step; [|split; [reflexivity|exists 1%nat; vm_compute; reflexivity]].
  do 3 (apply after_op_step; [|vm_compute; reflexivity]).
  do 3 (apply after_op_step; [|split; [lia|split; [vm_compute; discriminate|left; vm_compute; reflexivity]]]).
  apply (sreach_init boot_sched); [|done|done]. intros t. split; [|done]. split; [split; [cbn; lia|right; cbn; auto]|cbn; lia].
Qed.

Lemma demo_allowed : allowed_op demo_sched OYield.
Proof. vm_compute. eauto. Qed.

Lemma ready_queues_well_formed_witness :
  wf demo_sched /\ exists s', exec_op OYield demo_sched = Some (tt, s') /\ wf s'.
Proof. exact (ready_queues_well_formed demo_sched OYield demo_sreach demo_allowed). Defined.

Lemma highest_priority_runs_witness :
  exists s', exec_op OYield demo_sched = Some (tt, s') /\ stat (thr s' 2%nat) = RUNNING /\
    forall u, stat (thr s' u) = READY -> 10 <= current_priority (thr s' u).
Proof.
  exists (after_op OYield demo_sched). split; [vm_compute; reflexivity|].
  apply (highest_priority_runs demo_sched OYield (after_op OYield demo_sched) 2%nat demo_sreach demo_allowed eq_refl);
    [vm_compute; reflexivity|reflexivity|vm_compute; reflexivity|].
  exists 2%nat. right. vm_compute. reflexivity.
Defined.

Lemma demo_rr : rr demo_sched 10 1%nat [2%nat].
Proof.
  split; [exact (sreach_good _ demo_sreach)|vm_compute; reflexivity..|].
  intros q Hq. pose proof (sreach_good _ demo_sreach) as [[Hs _] _].
  destruct (decide (0 <= q)) as [H0|H0].
  - assert (Forall (fun q => rt_thread_priority_table demo_sched q = []) (seqZ 0 10)) as Hall
      by (vm_compute; repeat constructor).
    rewrite Forall_forall in Hall. apply Hall, elem_of_seqZ. lia.
  - destruct (rt_thread_priority_table demo_sched q) as [|t m] eqn:E; [done|]. exfalso.
    assert (t ∈ rt_thread_priority_table demo_sched q) as Hin by (rewrite E; apply list_elem_of_here).
    apply (ok_ready _ _ Hs) in Hin as (_ & _ & Hp). destruct (ok_prio _ _ Hs t) as [Hr _]. lia.
Qed.

(** Thread 1 yields after three ticks, thread 2 uses up its slice of twenty: thread 1
    runs again; without the yield thread 2 would have run after twenty ticks. *)
Lemma round_robin_witness :
  (exists s', run (replicate 3 Tick ++ [Yield] ++ replicate 20 Tick) demo_sched = Some s' /\ rt_current_thread s' = Some 1%nat) /\
  (exists s', run (replicate 20 Tick) demo_sched = Some s' /\ rt_current_thread s' = Some 2%nat).
Proof.
  destruct (round_robin demo_sched 10 1%nat [2%nat] demo_rr) as [H1 H2].
  - intros t [->|[->|[]%elem_of_nil]%elem_of_cons]%elem_of_cons; vm_compute; repeat split; discriminate.
  - split.
    + destruct (H1 (replicate 3 Tick ++ [Yield] ++ replicate 20 Tick)) as (s' & E & _ & Ec). exists s'. split; [exact E|].
      rewrite Ec. vm_compute. reflexivity.
    + destruct (H2 1%nat 20%nat) as (s' & E & Ec); [cbn; lia|vm_compute; split; [discriminate|reflexivity]|]. exists s'. split; [exact E|exact Ec].
Defined.

(** Changing the priority of a thread does not call the scheduler: thread 1
    lowers its priority below that of thread 2 and runs on. *)
Lemma priority_change_does_not_schedule :
  let s := after_op (OPriority 1%nat 20) demo_sched in
  rt_current_thread s = Some 1%nat /\ current_priority (thr s 1%nat) = 20 /\
  stat (thr s 2%nat) = READY /\ current_priority (thr s 2%nat) = 10.
Proof. vm_compute. auto. Qed.
