(* ===== verification/Timer.v ===== *)
(** * Timers

    src/rt-thread/src/timer.c, with one level of lists as this configuration
    has it, and the tick of clock.c.  Timers are on the list of the tick
    interrupt, on the list of the timer thread, or, while their timeout function
    runs, on the list that is local to [rt_timer_check].  The timer
    thread is in SoftTimer.v; the list of objects is not part of this state. *)

From Stdlib Require Import ZArith Lia.
From stdpp Require Import prelude functions list.
From S2P Require Import Prelude Kernel.
Open Scope Z_scope.
Open Scope c_scope.

Module Timer.

(** A timer is named by a number. *)
Abbreviation timer_id := nat.

(** The bits of [parent.flag] are fields. *)
Record rt_timer := mk_timer {
  activated : bool;
  periodic : bool;
  soft : bool;
  init_tick : Z;
  timeout_tick : Z
}.

(** [fired] is the history of the calls of timeout functions. *)
Record timers := mk_timers {
  rt_tick : Z;
  rt_timer_list : list timer_id;
  rt_soft_timer_list : list timer_id;
  temp_list : list timer_id;
  tm : timer_id -> rt_timer;
  fired : list timer_id
}.

Abbreviation T := (M timers).

Definition with_active (b : bool) (x : rt_timer) : rt_timer :=
  mk_timer b x.(periodic) x.(soft) x.(init_tick) x.(timeout_tick).
Definition with_periodic (b : bool) (x : rt_timer) : rt_timer :=
  mk_timer x.(activated) b x.(soft) x.(init_tick) x.(timeout_tick).
Definition with_init (n : Z) (x : rt_timer) : rt_timer :=
  mk_timer x.(activated) x.(periodic) x.(soft) n x.(timeout_tick).
Definition with_timeout (n : Z) (x : rt_timer) : rt_timer :=
  mk_timer x.(activated) x.(periodic) x.(soft) x.(init_tick) n.

Definition put_tick (n : Z) (s : timers) : timers :=
  mk_timers n s.(rt_timer_list) s.(rt_soft_timer_list) s.(temp_list) s.(tm) s.(fired).
Definition put_hard (l : list timer_id) (s : timers) : timers :=
  mk_timers s.(rt_tick) l s.(rt_soft_timer_list) s.(temp_list) s.(tm) s.(fired).
Definition put_soft (l : list timer_id) (s : timers) : timers :=
  mk_timers s.(rt_tick) s.(rt_timer_list) l s.(temp_list) s.(tm) s.(fired).
Definition put_temp (l : list timer_id) (s : timers) : timers :=
  mk_timers s.(rt_tick) s.(rt_timer_list) s.(rt_soft_timer_list) l s.(tm) s.(fired).
Definition put_tm (f : rt_timer -> rt_timer) (t : timer_id) (s : timers) : timers :=
  mk_timers s.(rt_tick) s.(rt_timer_list) s.(rt_soft_timer_list) s.(temp_list)
    (<[t := f (s.(tm) t)]> s.(tm)) s.(fired).
Definition log_call (t : timer_id) (s : timers) : timers :=
  mk_timers s.(rt_tick) s.(rt_timer_list) s.(rt_soft_timer_list) s.(temp_list) s.(tm) (s.(fired) ++ [t]).

Definition get_tm (t : timer_id) : T rt_timer := gets (fun s => s.(tm) t).
Definition set_tm (f : rt_timer -> rt_timer) (t : timer_id) : T unit := modify (put_tm f t).

(** ** Operations *)

Definition _rt_timer_init (t : timer_id) (time : Z) (per sft : bool) : T unit :=
  set_tm (fun _ => mk_timer false per sft time 0) t.

(** A timer is unlinked from the list it is on. *)
Definition without (t : timer_id) : list timer_id -> list timer_id := filter (fun u => u <> t).
Definition _rt_timer_remove (t : timer_id) : T unit :=
  modify (fun s => put_hard (without t s.(rt_timer_list))
                     (put_soft (without t s.(rt_soft_timer_list)) (put_temp (without t s.(temp_list)) s))).

(** The place of a timer: after those that time out at the same tick, before
    the first one that times out later. *)
Fixpoint insert_timer (timeout : timer_id -> Z) (t : timer_id) (l : list timer_id) : list timer_id :=
  match l with
  | [] => [t]
  | u :: l =>
      let d := u32 (timeout u - timeout t) in
      if d =? 0 then u :: insert_timer timeout t l
      else if d <? RT_TICK_MAX / 2 then t :: u :: l
      else u :: insert_timer timeout t l
  end.

Definition rt_timer_start (t : timer_id) : T Z :=
  _rt_timer_remove t ;;;
  set_tm (with_active false) t ;;;
  x <- get_tm t ;;
  (if x.(init_tick) <? RT_TICK_MAX / 2 then ret tt else undefined) ;;;
  now <- gets rt_tick ;;
  set_tm (with_timeout (u32 (now + x.(init_tick)))) t ;;;
  modify (fun s =>
    let timeout u := timeout_tick (s.(tm) u) in
    if x.(soft) then put_soft (insert_timer timeout t s.(rt_soft_timer_list)) s
    else put_hard (insert_timer timeout t s.(rt_timer_list)) s) ;;;
  set_tm (with_active true) t ;;;
  ret RT_EOK.

Definition rt_timer_stop (t : timer_id) : T Z :=
  x <- get_tm t ;;
  if negb x.(activated) then ret (- RT_ERROR) else
  _rt_timer_remove t ;;;
  set_tm (with_active false) t ;;;
  ret RT_EOK.

Definition rt_timer_detach (t : timer_id) : T Z :=
  _rt_timer_remove t ;;;
  set_tm (with_active false) t ;;;
  ret RT_EOK.

(** The commands of [rt_timer_control] that change the timer. *)
Definition rt_timer_set_time (t : timer_id) (n : Z) : T unit := set_tm (with_init n) t.
Definition rt_timer_set_periodic (t : timer_id) (b : bool) : T unit := set_tm (with_periodic b) t.

Definition rt_timer_next_timeout_tick : T Z := gets (fun s =>
  match s.(rt_timer_list) with t :: _ => timeout_tick (s.(tm) t) | [] => RT_TICK_MAX end).

(** ** The tick *)

Section check.

(** What a timeout function does to the timers: it starts timers (after
    setting their time) and stops them. *)
Inductive cmd := CStart (t : timer_id) (n : Z) | CStop (t : timer_id).
Variable timeout_func : timer_id -> list cmd.

Definition run_cmd (c : cmd) : T unit :=
  match c with
  | CStart t n => rt_timer_set_time t n ;;; rt_timer_start t ;;; ret tt
  | CStop t => rt_timer_stop t ;;; ret tt
  end.
Fixpoint run_cmds (cs : list cmd) : T unit :=
  match cs with [] => ret tt | c :: cs => run_cmd c ;;; run_cmds cs end.

(** One timer that is due. *)
Definition fire (t : timer_id) : T unit :=
  _rt_timer_remove t ;;;
  x <- get_tm t ;;
  when (negb x.(periodic)) (set_tm (with_active false) t) ;;;
  modify (fun s => put_temp (t :: s.(temp_list)) s) ;;;
  modify (log_call t) ;;;
  run_cmds (timeout_func t) ;;;
  l <- gets temp_list ;;
  match l with
  | [] => ret tt
  | _ =>
      modify (fun s => put_temp (without t s.(temp_list)) s) ;;;
      x <- get_tm t ;;
      when (x.(periodic) && x.(activated)) (set_tm (with_active false) t ;;; rt_timer_start t ;;; ret tt)
  end.

(** The loop; running out of [fuel] would be a loop that does not end. *)
Fixpoint check_loop (fuel : nat) : T unit :=
  l <- gets rt_timer_list ;;
  match l with
  | [] => ret tt
  | t :: _ =>
      current_tick <- gets rt_tick ;;
      x <- get_tm t ;;
      if u32 (current_tick - x.(timeout_tick)) <? RT_TICK_MAX / 2 then
        match fuel with O => undefined | S fuel => fire t ;;; check_loop fuel end
      else ret tt
  end.

Definition rt_timer_check : T unit :=
  l <- gets rt_timer_list ;;
  check_loop (length l).

(** The timers in [rt_tick_increase]. *)
Definition tick_timers : T unit :=
  modify (fun s => put_tick (u32 (s.(rt_tick) + 1)) s) ;;;
  rt_timer_check.

End check.

End Timer.
