(* ===== verification/TimerSpec.v ===== *)
(** * Timers fire on time

    The order of the timer list, and what a tick does (Timer.v). *)

From Stdlib Require Import ZArith Lia Sorting.Sorted.
From stdpp Require Import prelude functions list.
From S2P Require Import Prelude Kernel Timer.
Import Timer.
Open Scope Z_scope.
Open Scope c_scope.

Implicit Types (t u : timer_id) (l : list timer_id) (s : timers).

(** ** Time left *)

(** The ticks until a timer is due: the difference of 32-bit ticks as a signed
    number, negative when the timer is late. *)
Definition due s t : Z := s32 (timeout_tick (tm s t) - rt_tick s).

Definition MAX_DUE : Z := 0x7ffffffe.

(** The place of a timer by the time left. *)
Fixpoint insert_due (d : timer_id -> Z) t l : list timer_id :=
  match l with
  | [] => [t]
  | u :: l => if d u <=? d t then u :: insert_due d t l else t :: u :: l
  end.

Lemma u32_due s t u : u32 (timeout_tick (tm s u) - timeout_tick (tm s t)) = u32 (due s u - due s t).
Proof. unfold due, u32, s32, swrap. divmod. Qed.

Lemma insert_timer_due s t l :
  (forall u, u ∈ l -> -1 <= due s u <= MAX_DUE) -> 0 <= due s t <= MAX_DUE ->
  insert_timer (fun u => timeout_tick (tm s u)) t l = insert_due (due s) t l.
Proof.
  intros Hl Ht. unfold MAX_DUE in *. induction l as [|u l IH]; [done|]. cbn [insert_timer insert_due].
  rewrite u32_due, IH by (intros v Hv; apply Hl; by apply list_elem_of_further).
  specialize (Hl u ltac:(apply list_elem_of_here)). change (RT_TICK_MAX / 2) with 0x7fffffff.
  destruct (due s u <=? due s t) eqn:E.
  - destruct (u32 (due s u - due s t) =? 0) eqn:E0; [done|].
    destruct (u32 (due s u - due s t) <? 0x7fffffff) eqn:E2; [|done]. exfalso.
    destruct (decide (due s u = due s t)) as [Eq|]; [|unfold u32 in E2; revert E2; divmod].
    rewrite Eq, Z.sub_diag in E0. discriminate E0.
  - rewrite u32_small by lia. replace (_ =? 0) with false by lia. by replace (_ <? _) with true by lia.
Qed.

Lemma insert_due_elem d t l u : u ∈ insert_due d t l <-> u = t \/ u ∈ l.
Proof.
  induction l as [|v l IH]; cbn [insert_due]; [by rewrite list_elem_of_singleton, elem_of_nil; tauto|].
  destruct (_ <=? _); rewrite !elem_of_cons, ?IH; tauto.
Qed.

Lemma insert_due_nodup d t l : t ∉ l -> NoDup l -> NoDup (insert_due d t l).
Proof.
  intros Ht Hl. induction Hl as [|v l Hv Hl IH]; cbn [insert_due]; [apply NoDup_singleton|].
  rewrite not_elem_of_cons in Ht. destruct Ht as [Ht1 Ht2]. destruct (_ <=? _).
  - apply NoDup_cons. split; [|by apply IH]. rewrite insert_due_elem. intros [->|?]; done.
  - apply NoDup_cons. split; [by rewrite not_elem_of_cons|]. by apply NoDup_cons.
Qed.

Definition sorted_due (d : timer_id -> Z) : list timer_id -> Prop := StronglySorted (fun a b => d a <= d b).

Lemma insert_due_sorted d t l : sorted_due d l -> sorted_due d (insert_due d t l).
Proof.
  unfold sorted_due. intros Hl. induction Hl as [|v l Hl IH Hv]; cbn [insert_due]; [constructor; constructor|].
  destruct (d v <=? d t) eqn:E.
  - constructor; [done|]. rewrite Forall_forall in *. intros u Hu. apply insert_due_elem in Hu as [->|Hu]; [lia|auto].
  - constructor; [by constructor|]. rewrite Forall_forall in *. intros u Hu. apply elem_of_cons in Hu as [->|Hu]; [lia|].
    specialize (Hv u Hu). lia.
Qed.

(** A timer with time left does not change the timers that are due. *)
Lemma insert_due_filter d t l : 1 <= d t -> filter (fun u => d u <= 0) (insert_due d t l) = filter (fun u => d u <= 0) l.
Proof.
  intros Ht. induction l as [|v l IH]; cbn [insert_due]; [by rewrite filter_cons_False by lia|].
  destruct (_ <=? _).
  - destruct (decide (d v <= 0)); [rewrite !filter_cons_True by done; by rewrite IH|].
    by rewrite !filter_cons_False by done.
  - by rewrite filter_cons_False by lia.
Qed.

Lemma sorted_filter d (P : timer_id -> Prop) `{forall x, Decision (P x)} l : sorted_due d l -> sorted_due d (filter P l).
Proof.
  unfold sorted_due. intros Hl. induction Hl as [|v l Hl IH Hv]; [constructor|].
  destruct (decide (P v)); [rewrite filter_cons_True by done|by rewrite filter_cons_False].
  constructor; [done|]. rewrite Forall_forall in *. intros u Hu. apply list_elem_of_filter in Hu as [_ Hu]. auto.
Qed.

Lemma sorted_ext d d' l : (forall u, u ∈ l -> d' u = d u) -> sorted_due d l -> sorted_due d' l.
Proof.
  unfold sorted_due. intros Hd Hl. induction Hl as [|v l Hl IH Hv]; [constructor|].
  constructor; [apply IH; intros u Hu; apply Hd; by apply list_elem_of_further|].
  rewrite Forall_forall in *. intros u Hu.
  rewrite !Hd by (apply list_elem_of_here || by apply list_elem_of_further). auto.
Qed.

(** ** The timer list *)

(** Every timer of the list is active and [lo] ticks away or more; the list is
    in the order in which the timers are due. *)
Record timers_ok (lo : Z) s : Prop := mk_ok {
  ok_tick : 0 <= rt_tick s < 2 ^ 32;
  ok_nodup : NoDup (rt_timer_list s);
  ok_due : forall t, t ∈ rt_timer_list s -> lo <= due s t <= MAX_DUE;
  ok_sorted : sorted_due (due s) (rt_timer_list s);
  ok_active : forall t, t ∈ rt_timer_list s -> activated (tm s t) = true;
  ok_init : forall t, 0 <= init_tick (tm s t) <= MAX_DUE /\ (periodic (tm s t) = true -> 1 <= init_tick (tm s t))
}.

(** The timers that are due now. *)
Definition expired s : list timer_id := filter (fun t => due s t <= 0) (rt_timer_list s).

(** Timers other than [ts] are as before. *)
Definition frame (ts : list timer_id) s s' : Prop :=
  forall u, u ∉ ts -> tm s' u = tm s u /\ (u ∈ rt_timer_list s' <-> u ∈ rt_timer_list s).

Lemma frame_trans ts1 ts2 s1 s2 s3 : frame ts1 s1 s2 -> frame ts2 s2 s3 -> frame (ts1 ++ ts2) s1 s3.
Proof.
  intros H1 H2 u Hu. rewrite not_elem_of_app in Hu. destruct Hu as [Hu1 Hu2].
  destruct (H1 u Hu1) as [E1 I1]. destruct (H2 u Hu2) as [E2 I2]. split; [congruence|tauto].
Qed.

(** What an operation on timer [t] leaves alone. *)
Record others_same t s s' : Prop := mk_same {
  same_tick : rt_tick s' = rt_tick s;
  same_fired : fired s' = fired s;
  same_temp : temp_list s' = without t (temp_list s);
  same_frame : frame [t] s s'
}.

Lemma tm_put f t s u : tm (put_tm f t s) u = if decide (u = t) then f (tm s t) else tm s u.
Proof. cbn [put_tm tm]. case_decide as E; [subst; by rewrite fn_lookup_insert|by rewrite fn_lookup_insert_ne]. Qed.

Lemma due_same s s' t : rt_tick s' = rt_tick s -> timeout_tick (tm s' t) = timeout_tick (tm s t) -> due s' t = due s t.
Proof. unfold due. by intros -> ->. Qed.

Lemma without_elem t l u : u ∈ without t l <-> u <> t /\ u ∈ l.
Proof. unfold without. by rewrite list_elem_of_filter. Qed.

Lemma filter_without (P : timer_id -> Prop) `{forall x, Decision (P x)} t l : filter P (without t l) = without t (filter P l).
Proof. unfold without. rewrite !list_filter_filter. apply list_filter_iff. tauto. Qed.

Lemma filter_ext_in (P Q : timer_id -> Prop) `{forall x, Decision (P x)} `{forall x, Decision (Q x)} l :
  (forall x, x ∈ l -> P x <-> Q x) -> filter P l = filter Q l.
Proof.
  induction l as [|v l IH]; intros HPQ; [done|].
  pose proof (HPQ v (list_elem_of_here _ _)) as Hv.
  assert (filter P l = filter Q l) as E
    by (apply IH; intros x Hx; apply HPQ; by apply list_elem_of_further).
  destruct (decide (P v)).
  - rewrite !filter_cons_True by tauto. by rewrite E.
  - rewrite !filter_cons_False by tauto. done.
Qed.

Lemma without_other t u l : u <> t -> u ∈ l -> u ∈ without t l.
Proof. intros. by apply without_elem. Qed.

(** The state after a timer has been unlinked. *)
Definition removed t s : timers :=
  put_hard (without t s.(rt_timer_list))
    (put_soft (without t s.(rt_soft_timer_list)) (put_temp (without t s.(temp_list)) s)).

(** Unlinking a timer and changing what is its own. *)
Lemma unlinked_ok lo t s s' :
  timers_ok lo s -> rt_tick s' = rt_tick s -> rt_timer_list s' = without t (rt_timer_list s) ->
  fired s' = fired s -> temp_list s' = without t (temp_list s) -> (forall u, u <> t -> tm s' u = tm s u) ->
  init_tick (tm s' t) = init_tick (tm s t) -> periodic (tm s' t) = periodic (tm s t) ->
  timers_ok lo s' /\ expired s' = without t (expired s) /\ others_same t s s'.
Proof.
  intros [Ht Hn Hd Hs Ha Hi] E1 E2 E3 E4 Htm E5 E6.
  assert (forall u, u ∈ without t (rt_timer_list s) -> due s' u = due s u) as Hdue.
  { intros u Hu. apply without_elem in Hu as [Hu _]. apply due_same; [done|by rewrite Htm]. }
  assert (frame [t] s s') as Hframe.
  { intros u Hu. apply not_elem_of_cons in Hu as [Hu _]. split; [by apply Htm|]. rewrite E2, without_elem. tauto. }
  split; [split; rewrite ?E1, ?E2|split; [|by split]].
  - exact Ht.
  - by apply NoDup_filter.
  - intros u Hu. rewrite Hdue by done. apply without_elem in Hu as [_ Hu]. by apply Hd.
  - apply (sorted_ext (due s)); [exact Hdue|]. by apply sorted_filter.
  - intros u Hu. apply without_elem in Hu as [Hne Hu]. rewrite Htm by done. by apply Ha.
  - intros u. destruct (decide (u = t)) as [->|Hu]; [rewrite E5, E6|rewrite Htm by done]; apply Hi.
  - unfold expired. rewrite E2, <- filter_without. apply filter_ext_in. intros u Hu. by rewrite Hdue.
Qed.

Lemma removed_ok lo t s :
  timers_ok lo s ->
  let s' := put_tm (with_active false) t (removed t s) in
  timers_ok lo s' /\ expired s' = without t (expired s) /\ others_same t s s'.
Proof.
  intros Hs s'. apply unlinked_ok; try done; unfold s'; [|by rewrite tm_put, decide_True..].
  intros u Hu. by rewrite tm_put, decide_False.
Qed.

(** ** Operations *)

Lemma due_start s t n : 0 <= rt_tick s < 2 ^ 32 -> 0 <= n <= MAX_DUE ->
  s32 (u32 (rt_tick s + n) - rt_tick s) = n.
Proof. unfold MAX_DUE, s32, swrap, u32. intros. divmod. Qed.

(** The state after a timer, unlinked before, has been put on its list. *)
Definition placed t s : timers :=
  let n := init_tick (tm s t) in
  let s1 := put_tm (with_timeout (u32 (rt_tick s + n))) t s in
  let timeout u := timeout_tick (tm s1 u) in
  let s2 := if soft (tm s t) then put_soft (insert_timer timeout t s1.(rt_soft_timer_list)) s1
            else put_hard (insert_timer timeout t s1.(rt_timer_list)) s1 in
  put_tm (with_active true) t s2.

Lemma placed_tm t s :
  tm (placed t s) t = with_active true (with_timeout (u32 (rt_tick s + init_tick (tm s t))) (tm s t)) /\
  (forall u, u <> t -> tm (placed t s) u = tm s u).
Proof.
  unfold placed. cbv zeta. split; [|intros u Hu]; rewrite tm_put; [rewrite decide_True by done|rewrite decide_False by done];
    destruct (soft (tm s t)); cbn [put_soft put_hard tm];
    change (tm (put_tm ?f t s)) with (<[t := f (tm s t)]> (tm s));
    rewrite ?fn_lookup_insert, ?fn_lookup_insert_ne by done; done.
Qed.

Lemma placed_ok lo s t :
  timers_ok lo s -> -1 <= lo <= 0 -> t ∉ rt_timer_list s ->
  let s' := placed t s in
  timers_ok lo s' /\ frame [t] s s' /\ (1 <= init_tick (tm s t) -> expired s' = expired s).
Proof.
  intros Hs Hlo Hnt s'. pose proof Hs as [Ht Hn Hd Hso Ha Hi]. destruct (Hi t) as [Hi0 Hip].
  destruct (placed_tm t s) as [Etm Etm']. fold s' in Etm, Etm'. set (n := init_tick (tm s t)) in *.
  assert (rt_tick s' = rt_tick s) as Etick by (unfold s', placed; by destruct (soft (tm s t))).
  assert (due s' t = n) as Edt.
  { unfold due. rewrite Etm, Etick. cbn [with_active with_timeout timeout_tick]. by apply due_start. }
  assert (forall u, u ∈ rt_timer_list s -> due s' u = due s u) as Edu.
  { intros u Hu. apply due_same; [done|]. rewrite Etm'; [done|]. by intros ->. }
  assert (rt_timer_list s' = if soft (tm s t) then rt_timer_list s else insert_due (due s') t (rt_timer_list s)) as El.
  { assert (rt_timer_list s' = if soft (tm s t) then rt_timer_list s
      else insert_timer (fun u => timeout_tick (tm s' u)) t (rt_timer_list s)) as ->.
    - assert (forall u, timeout_tick (tm s' u) = timeout_tick (tm (put_tm (with_timeout (u32 (rt_tick s + n))) t s) u)) as Eto.
      { intros u. rewrite tm_put. destruct (decide (u = t)) as [->|Hu]; [by rewrite Etm|by rewrite Etm']. }
      transitivity (if soft (tm s t) then rt_timer_list s else insert_timer
        (fun u => timeout_tick (tm (put_tm (with_timeout (u32 (rt_tick s + n))) t s) u)) t (rt_timer_list s)).
      { unfold s', placed. fold n. by destruct (soft (tm s t)). }
      destruct (soft (tm s t)); [done|]. clear -Eto.
      induction (rt_timer_list s) as [|v l IH]; [done|]. cbn [insert_timer]. by rewrite !Eto, IH.
    - destruct (soft (tm s t)); [done|]. apply insert_timer_due; [|by rewrite Edt].
      intros u Hu. rewrite Edu by done. specialize (Hd u Hu). lia. }
  split; [split|split].
  - by rewrite Etick.
  - rewrite El. destruct (soft _); [done|]. by apply insert_due_nodup.
  - intros u Hu. assert (u = t /\ soft (tm s t) = false \/ u ∈ rt_timer_list s) as [[-> _]|Hin].
    { rewrite El in Hu. destruct (soft _); [by right|]. apply insert_due_elem in Hu as [->|?]; auto. }
    + rewrite Edt. lia.
    + rewrite Edu by done. by apply Hd.
  - rewrite El. assert (sorted_due (due s') (rt_timer_list s)) by (by apply (sorted_ext (due s))).
    destruct (soft _); [done|]. by apply insert_due_sorted.
  - intros u Hu. destruct (decide (u = t)) as [->|Hne]; [by rewrite Etm|]. rewrite Etm' by done. apply Ha.
    rewrite El in Hu. destruct (soft _); [done|]. apply insert_due_elem in Hu as [?|?]; done.
  - intros u. destruct (decide (u = t)) as [->|Hne]; [rewrite Etm; exact (Hi t)|rewrite Etm' by done; apply Hi].
  - intros u Hu. apply not_elem_of_cons in Hu as [Hu _]. split; [by apply Etm'|]. rewrite El.
    destruct (soft _); [done|]. rewrite insert_due_elem. tauto.
  - intros Hpos. unfold expired. rewrite El.
    transitivity (filter (fun u => due s' u <= 0) (rt_timer_list s)).
    + destruct (soft _); [done|]. apply insert_due_filter. lia.
    + apply filter_ext_in. intros u Hu. by rewrite Edu.
Qed.

Lemma start_eq s t :
  0 <= init_tick (tm s t) <= MAX_DUE ->
  rt_timer_start t s = Some (RT_EOK, placed t (put_tm (with_active false) t (removed t s))).
Proof.
  intros Hi. unfold rt_timer_start.
  rewrite (bind_eq (_rt_timer_remove t) _ s tt (removed t s)) by done.
  set (s1 := put_tm (with_active false) t (removed t s)).
  rewrite (bind_eq (set_tm _ _) _ _ tt s1) by done. rewrite (bind_eq (get_tm t) _ s1 (tm s1 t) s1) by done.
  assert (init_tick (tm s1 t) = init_tick (tm s t)) as En by (unfold s1; by rewrite tm_put, decide_True).
  unfold MAX_DUE in Hi. change (RT_TICK_MAX / 2) with 0x7fffffff.
  replace (init_tick (tm s1 t) <? 0x7fffffff) with true by lia. done.
Qed.

(** Starting a timer: for the list, it makes no difference whether the timer
    counts as active before. *)
Lemma start_ok lo s t (inactive : bool) :
  timers_ok lo s -> -1 <= lo <= 0 ->
  exists s', rt_timer_start t (if inactive then put_tm (with_active false) t s else s) = Some (RT_EOK, s') /\
    timers_ok lo s' /\ others_same t s s' /\
    (1 <= init_tick (tm s t) -> expired s' = without t (expired s)).
Proof.
  intros Hs Hlo. set (s0 := if inactive then _ else _).
  assert (forall u, u <> t -> tm s0 u = tm s u) as Hother
    by (intros u Hu; unfold s0; destruct inactive; [by rewrite tm_put, decide_False|done]).
  assert (init_tick (tm s0 t) = init_tick (tm s t) /\ periodic (tm s0 t) = periodic (tm s t)) as [Ei Ep]
    by (unfold s0; destruct inactive; [by rewrite tm_put, decide_True|done]).
  set (s1 := put_tm (with_active false) t (removed t s0)).
  destruct (unlinked_ok lo t s s1 Hs) as (Hs1 & He1 & [Ho1 Ho2 Ho3 Ho4]);
    try (unfold s1, s0; by destruct inactive); try (unfold s1; by rewrite tm_put, decide_True).
  { intros u Hu. unfold s1. rewrite tm_put, decide_False by done. by apply Hother. }
  exists (placed t s1). split; [apply start_eq; rewrite Ei; apply Hs|].
  assert (t ∉ rt_timer_list s1) as Hnt by (intros Hin; by apply without_elem in Hin as [? _]).
  destruct (placed_ok lo s1 t Hs1 Hlo Hnt) as (Hs2 & Hf2 & He2).
  split; [done|]. split.
  - split; [by rewrite <- Ho1; unfold placed; destruct (soft _)|by rewrite <- Ho2; unfold placed; destruct (soft _)|
      by rewrite <- Ho3; unfold placed; destruct (soft _)|].
    intros u Hu. apply (frame_trans [t] [t] s s1 _ Ho4 Hf2). by rewrite not_elem_of_app.
  - intros Hp. rewrite He2; [done|]. unfold s1. rewrite tm_put, decide_True by done. cbn. lia.
Qed.

(** What commands do to the timer [c] whose timeout function runs. *)
Record busy (c : timer_id) s s' : Prop := mk_busy {
  busy_tick : rt_tick s' = rt_tick s;
  busy_fired : fired s' = fired s;
  busy_temp : temp_list s' = [] \/ temp_list s' = [c]
}.

Lemma others_busy c t s s' :
  others_same t s s' -> temp_list s = [] \/ temp_list s = [c] -> busy c s s'.
Proof.
  intros [H1 H2 H3 _] Ht. split; try done. rewrite H3. destruct Ht as [->| ->]; [by left|].
  unfold without. destruct (decide (c = t)) as [->|Hn]; [left; by rewrite filter_cons_False by auto|].
  right. by rewrite filter_cons_True.
Qed.

Lemma stop_ok lo s t :
  timers_ok lo s ->
  exists z s', rt_timer_stop t s = Some (z, s') /\ timers_ok lo s' /\ expired s' = without t (expired s) /\
    (s' = s \/ others_same t s s').
Proof.
  intros Hs. unfold rt_timer_stop. rewrite (bind_eq (get_tm t) _ s (tm s t) s) by done.
  destruct (activated (tm s t)) eqn:Ea; cbn [negb].
  - destruct (removed_ok lo t s Hs) as (Hs1 & He1 & Ho1).
    exists RT_EOK, (put_tm (with_active false) t (removed t s)). auto.
  - exists (- RT_ERROR), s. split; [done|]. split; [done|]. split; [|by left]. symmetry. apply filter_out.
    unfold expired. rewrite list_elem_of_filter. intros [_ Hin]. apply (ok_active _ _ Hs) in Hin. congruence.
Qed.

Lemma set_time_ok lo s t n :
  timers_ok lo s -> 0 <= n <= MAX_DUE -> (periodic (tm s t) = true -> 1 <= n) ->
  let s' := put_tm (with_init n) t s in timers_ok lo s' /\ expired s' = expired s /\ frame [t] s s'.
Proof.
  intros [Ht Hn Hd Hs Ha Hi] Hr Hp s'.
  assert (forall u, timeout_tick (tm s' u) = timeout_tick (tm s u) /\ activated (tm s' u) = activated (tm s u)) as Hu.
  { intros u. unfold s'. rewrite tm_put. by destruct (decide (u = t)) as [->|]. }
  assert (forall u, due s' u = due s u) as Hdue by (intros u; apply due_same; [done|apply Hu]).
  split; [split|].
  - exact Ht.
  - exact Hn.
  - intros u Hin. rewrite Hdue. by apply Hd.
  - by apply (sorted_ext (due s)).
  - intros u Hin. destruct (Hu u) as [_ ->]. by apply Ha.
  - intros u. unfold s'. rewrite tm_put. destruct (decide (u = t)) as [->|]; [done|apply Hi].
  - split; [unfold expired; apply list_filter_iff; intros u; by rewrite Hdue|].
    intros v Hv. apply not_elem_of_cons in Hv as [Hv _]. unfold s'. by rewrite tm_put, decide_False.
Qed.

(** ** Timeout functions *)

Section check.
Variable timeout_func : timer_id -> list cmd.

(** Timeout functions start timers only for a later tick. *)
Definition cmd_ok (c : cmd) : Prop := match c with CStart _ n => 1 <= n <= MAX_DUE | CStop _ => True end.
Hypothesis funcs_ok : forall t, Forall cmd_ok (timeout_func t).

Definition target (c : cmd) : timer_id := match c with CStart t _ | CStop t => t end.
Definition targets t : list timer_id := target <$> timeout_func t.

Lemma run_cmd_ok c x s :
  timers_ok (-1) s -> cmd_ok x -> temp_list s = [] \/ temp_list s = [c] ->
  exists s', run_cmd x s = Some (tt, s') /\ timers_ok (-1) s' /\ busy c s s' /\
    frame [target x] s s' /\ expired s' = without (target x) (expired s).
Proof.
  intros Hs Hx Ht. destruct x as [t n|t]; cbn [run_cmd target cmd_ok] in *.
  - destruct (set_time_ok (-1) s t n Hs) as (Hs1 & He1 & Hf1); [lia|lia|]. set (s1 := put_tm (with_init n) t s) in *.
    rewrite (bind_eq (rt_timer_set_time t n) _ s tt s1) by done.
    destruct (start_ok (-1) s1 t false Hs1) as (s2 & E2 & Hs2 & Ho2 & He2); [lia|].
    rewrite (bind_eq _ _ _ _ _ E2). exists s2. split; [done|]. split; [done|]. split; [|split].
    + destruct (others_busy c t s1 s2 Ho2 Ht) as [? ? ?]. by split.
    + intros u Hu. apply (frame_trans [t] [t] s s1 _ Hf1 (same_frame _ _ _ Ho2)). by rewrite not_elem_of_app.
    + rewrite <- He1. apply He2. unfold s1. rewrite tm_put, decide_True by done. cbn. lia.
  - destruct (stop_ok (-1) s t Hs) as (z & s' & E & Hs' & He' & Hcase). rewrite (bind_eq _ _ _ _ _ E).
    exists s'. split; [done|]. split; [done|]. destruct Hcase as [->|Ho]; [by split|].
    split; [exact (others_busy c t s s' Ho Ht)|]. split; [exact (same_frame _ _ _ Ho)|done].
Qed.

Lemma run_cmds_ok c cs s :
  timers_ok (-1) s -> Forall cmd_ok cs -> temp_list s = [] \/ temp_list s = [c] ->
  exists s', run_cmds cs s = Some (tt, s') /\ timers_ok (-1) s' /\ busy c s s' /\
    frame (target <$> cs) s s' /\ expired s' = filter (fun u => u ∉ target <$> cs) (expired s).
Proof.
  intros Hs Hc. revert s Hs. induction Hc as [|x cs Hx Hc IH]; intros s Hs Ht; cbn [run_cmds].
  - exists s. split; [done|]. split; [done|]. split; [by split|]. split; [done|]. symmetry.
    induction (expired s) as [|v l IHl]; [done|]. rewrite filter_cons_True by (apply not_elem_of_nil). by rewrite IHl.
  - destruct (run_cmd_ok c x s Hs Hx Ht) as (s1 & E1 & Hs1 & [B1 B2 B3] & Hf1 & He1). rewrite (bind_eq _ _ _ _ _ E1).
    destruct (IH s1 Hs1 B3) as (s2 & E2 & Hs2 & [B4 B5 B6] & Hf2 & He2). exists s2. split; [done|]. split; [done|].
    split; [split; congruence|]. split; [exact (frame_trans _ _ _ _ _ Hf1 Hf2)|]. rewrite He2, He1. unfold without. rewrite list_filter_filter.
    apply list_filter_iff. intros u. rewrite fmap_cons, not_elem_of_cons. tauto.
Qed.

(** One timer that is due: its function is called once, and the timers that
    are due after it are the others, less those the function started or
    stopped. *)
Lemma fire_ok s t l :
  timers_ok (-1) s -> temp_list s = [] -> rt_timer_list s = t :: l ->
  exists s', fire timeout_func t s = Some (tt, s') /\ timers_ok (-1) s' /\ temp_list s' = [] /\
    rt_tick s' = rt_tick s /\ fired s' = fired s ++ [t] /\ frame (t :: targets t) s s' /\
    expired s' = filter (fun u => u ∉ targets t) (without t (expired s)).
Proof.
  intros Hs Htemp Hl. unfold fire. rewrite (bind_eq (_rt_timer_remove t) _ s tt (removed t s)) by done.
  rewrite (bind_eq (get_tm t) _ _ (tm s t) (removed t s)) by done.
  set (s1 := if periodic (tm s t) then removed t s else put_tm (with_active false) t (removed t s)).
  rewrite (bind_eq (when _ _) _ _ tt s1) by (unfold s1; by destruct (periodic (tm s t))).
  destruct (unlinked_ok (-1) t s s1) as (Hs1 & He1 & [Ho1 Ho2 Ho3 Ho4]); try done;
    try (unfold s1; destruct (periodic (tm s t)) eqn:Ep; rewrite ?tm_put, ?decide_True by done; done || exact Ep).
  { intros u Hu. unfold s1. destruct (periodic (tm s t)); [done|]. by rewrite tm_put, decide_False. }
  assert (temp_list s1 = []) as Et1 by (by rewrite Ho3, Htemp).
  set (s2 := log_call t (put_temp [t] s1)).
  rewrite (bind_eq (modify _) _ s1 tt (put_temp [t] s1)) by (unfold modify; by rewrite Et1).
  rewrite (bind_eq (modify _) _ _ tt s2) by done.
  assert (timers_ok (-1) s2) as Hs2 by (destruct Hs1; by split).
  destruct (run_cmds_ok t (timeout_func t) s2 Hs2 (funcs_ok t)) as (s3 & E3 & Hs3 & [B1 B2 B3] & Hf3 & He3); [by right|].
  rewrite (bind_eq _ _ _ _ _ E3). rewrite (bind_eq (gets temp_list) _ s3 (temp_list s3) s3) by done.
  change (expired s2) with (expired s1) in He3. rewrite He1 in He3. fold (targets t) in He3.
  change (rt_tick s2) with (rt_tick s1) in B1. change (fired s2) with (fired s1 ++ [t]) in B2. rewrite Ho1 in B1. rewrite Ho2 in B2.
  assert (frame (t :: targets t) s s3) as Hfr by exact (frame_trans [t] (targets t) s s1 s3 Ho4 Hf3).
  destruct B3 as [B3|B3]; rewrite B3; [by exists s3|].
  set (s4 := put_temp [] s3).
  rewrite (bind_eq (modify _) _ s3 tt s4) by (unfold modify, without; by rewrite B3, filter_cons_False by auto).
  rewrite (bind_eq (get_tm t) _ s4 (tm s4 t) s4) by done.
  assert (timers_ok (-1) s4) as Hs4 by (destruct Hs3; by split).
  destruct (periodic (tm s4 t) && activated (tm s4 t)) eqn:Ep; cbn [when]; [|by exists s4].
  rewrite (bind_eq (set_tm _ _) _ s4 tt (put_tm (with_active false) t s4)) by done.
  destruct (start_ok (-1) s4 t true Hs4) as (s5 & E5 & Hs5 & [C1 C2 C3 C4] & He5); [lia|]. rewrite (bind_eq _ _ _ _ _ E5).
  exists s5. split; [done|]. split; [done|]. split; [by rewrite C3|]. split; [by rewrite C1|]. split; [by rewrite C2|].
  split.
  { intros u Hu. apply (frame_trans (t :: targets t) [t] s s4 s5 Hfr C4).
    apply not_elem_of_app. split; [done|]. apply not_elem_of_cons in Hu as [Hu _].
    apply not_elem_of_cons. split; [done|apply not_elem_of_nil]. }
  rewrite He5.
  - change (expired s4) with (expired s3). rewrite He3. apply filter_out. rewrite list_elem_of_filter.
    intros [_ Hin]. by apply without_elem in Hin as [? _].
  - apply andb_prop in Ep as [Ep _]. by apply (ok_init _ _ Hs4 t).
Qed.

(** ** The tick *)

Lemma due_test s t : 0 <= rt_tick s < 2 ^ 32 -> -1 <= due s t <= MAX_DUE ->
  (u32 (rt_tick s - timeout_tick (tm s t)) <? RT_TICK_MAX / 2) = bool_decide (due s t <= 0).
Proof.
  intros Ht Hd. change (RT_TICK_MAX / 2) with 0x7fffffff. unfold MAX_DUE in Hd.
  assert (u32 (rt_tick s - timeout_tick (tm s t)) = u32 (- due s t)) as ->
    by (unfold due, u32, s32, swrap; divmod).
  case_bool_decide as E; unfold u32; divmod.
Qed.

Lemma check_loop_eq fuel s :
  timers_ok (-1) s ->
  check_loop timeout_func fuel s =
    match rt_timer_list s with
    | [] => Some (tt, s)
    | t :: _ => if bool_decide (due s t <= 0) then
                  match fuel with O => None | S n => (fire timeout_func t ;;; check_loop timeout_func n) s end
                else Some (tt, s)
    end.
Proof.
  intros Hs. assert (forall t l, rt_timer_list s = t :: l ->
    (u32 (rt_tick s - timeout_tick (tm s t)) <? RT_TICK_MAX / 2) = bool_decide (due s t <= 0)) as Htest.
  { intros t l El. apply due_test; [apply Hs|]. apply (ok_due _ _ Hs). rewrite El. apply list_elem_of_here. }
  destruct fuel; cbn [check_loop]; rewrite (bind_eq (gets rt_timer_list) _ s (rt_timer_list s) s) by done;
    destruct (rt_timer_list s) as [|t l]; try done; specialize (Htest t l eq_refl);
    rewrite (bind_eq (gets rt_tick) _ s (rt_tick s) s), (bind_eq (get_tm t) _ s (tm s t) s), Htest by done;
    by case_bool_decide.
Qed.

Lemma expired_head s t l :
  timers_ok (-1) s -> rt_timer_list s = t :: l ->
  if decide (due s t <= 0) then expired s = t :: without t (expired s) else expired s = [].
Proof.
  intros Hs El. pose proof (ok_sorted _ _ Hs) as Hso. pose proof (ok_nodup _ _ Hs) as Hnd. rewrite El in *.
  unfold expired. rewrite El. apply NoDup_cons in Hnd as [Hnt _]. case_decide as Hd.
  - rewrite filter_cons_True by done. f_equal. unfold without. rewrite filter_cons_False by auto.
    symmetry. apply filter_out. rewrite list_elem_of_filter. tauto.
  - rewrite filter_cons_False by done. inversion Hso as [|? ? _ Hall]; subst. rewrite Forall_forall in Hall.
    clear El Hso Hnt. induction l as [|v l IHl]; [done|].
    rewrite filter_cons_False by (specialize (Hall v (list_elem_of_here _ _)); lia).
    apply IHl. intros x Hx. apply Hall. by apply list_elem_of_further.
Qed.

(** What the loop achieves. *)
Definition checked s (m : option (unit * timers)) : Prop :=
  exists s' f, m = Some (tt, s') /\ timers_ok (-1) s' /\ temp_list s' = [] /\
    rt_tick s' = rt_tick s /\ fired s' = fired s ++ f /\ expired s' = [] /\
    f `sublist_of` expired s /\
    (forall t, t ∈ expired s -> t ∈ f \/ exists u, u ∈ f /\ t ∈ targets u) /\
    frame (f ++ (f ≫= targets)) s s'.

Lemma check_done s : timers_ok (-1) s -> temp_list s = [] -> expired s = [] -> checked s (Some (tt, s)).
Proof.
  intros Hs Ht He. exists s, []. rewrite app_nil_r, He. do 6 (split; [done|]). split; [constructor|].
  split; [|done]. intros u Hin. by apply elem_of_nil in Hin.
Qed.

Lemma check_loop_ok fuel s :
  timers_ok (-1) s -> temp_list s = [] -> (length (expired s) <= fuel)%nat ->
  checked s (check_loop timeout_func fuel s).
Proof.
  revert s. induction fuel as [|fuel IH]; intros s Hs Ht Hf; rewrite check_loop_eq by done;
    destruct (rt_timer_list s) as [|t l] eqn:El.
  1, 3: apply check_done; [done|done|]; unfold expired; by rewrite El.
  - pose proof (expired_head s t l Hs El) as He. case_decide as Hd.
    + rewrite He in Hf. cbn in Hf. lia.
    + rewrite bool_decide_false by done. by apply check_done.
  - pose proof (expired_head s t l Hs El) as He. case_decide as Hd.
    + rewrite bool_decide_true by done.
      destruct (fire_ok s t l Hs Ht El) as (s1 & E1 & Hs1 & Ht1 & Etk1 & Ef1 & Hf1 & Ee1).
      rewrite (bind_eq _ _ _ _ _ E1).
      assert (expired s1 `sublist_of` without t (expired s)) as Hsub by (rewrite Ee1; apply sublist_filter).
      destruct (IH s1 Hs1 Ht1) as (s2 & f & E2 & Hs2 & Ht2 & Etk2 & Ef2 & Ee2 & Hsub2 & Hall & Hf2).
      { apply sublist_length in Hsub. rewrite He in Hf. cbn [length] in Hf. lia. }
      exists s2, (t :: f). rewrite Ef2, Ef1, <- app_assoc.
      do 3 (split; [done|]). split; [congruence|]. do 2 (split; [done|]). split; [|split].
      * rewrite He. apply sublist_skip. by trans (expired s1).
      * intros u Hu. rewrite He in Hu. apply elem_of_cons in Hu as [->|Hu]; [left; apply list_elem_of_here|].
        destruct (decide (u ∈ targets t)) as [Hin|Hnin]; [right; exists t; split; [apply list_elem_of_here|done]|].
        destruct (Hall u) as [Hf'|(v & Hv & Hv')].
        -- rewrite Ee1. by apply list_elem_of_filter.
        -- left. by apply list_elem_of_further.
        -- right. exists v. split; [by apply list_elem_of_further|done].
      * intros u Hu. apply (frame_trans (t :: targets t) (f ++ (f ≫= targets)) s s1 s2 Hf1 Hf2).
        cbn in Hu. rewrite !not_elem_of_app, !not_elem_of_cons, ?not_elem_of_app in *. tauto.
    + rewrite bool_decide_false by done. by apply check_done.
Qed.

Lemma tick_due s t : 0 <= rt_tick s < 2 ^ 32 -> 0 <= due s t -> due (put_tick (u32 (rt_tick s + 1)) s) t = due s t - 1.
Proof. unfold due. cbn [put_tick tm rt_tick]. unfold s32, swrap, u32. intros. divmod. Qed.

Lemma tick_ok s :
  timers_ok 0 s -> timers_ok (-1) (put_tick (u32 (rt_tick s + 1)) s).
Proof.
  intros [Ht Hn Hd Hs Ha Hi]. assert (forall t, t ∈ rt_timer_list s ->
    due (put_tick (u32 (rt_tick s + 1)) s) t = due s t - 1) as Hdue.
  { intros t Hin. apply tick_due; [done|]. by apply Hd. }
  split; try done.
  - cbn. apply u32_range.
  - intros t Hin. rewrite Hdue by done. specialize (Hd t Hin). lia.
  - apply (sorted_ext (fun t => due s t - 1)); [exact Hdue|].
    cbn [put_tick rt_timer_list]. clear -Hs. unfold sorted_due in *. induction Hs as [|v l Hl IH Hv]; [constructor|].
    constructor; [done|]. eapply Forall_impl; [done|]. cbn. lia.
Qed.

Lemma tick_timers_ok s :
  timers_ok 0 s -> temp_list s = [] ->
  exists s' f, tick_timers timeout_func s = Some (tt, s') /\ timers_ok 1 s' /\ temp_list s' = [] /\
    rt_tick s' = u32 (rt_tick s + 1) /\ fired s' = fired s ++ f /\
    f `sublist_of` filter (fun t => due s t <= 1) (rt_timer_list s) /\
    (forall t, t ∈ rt_timer_list s -> due s t <= 1 -> t ∈ f \/ exists u, u ∈ f /\ t ∈ targets u) /\
    frame (f ++ (f ≫= targets)) s s'.
Proof.
  intros Hs Ht. unfold tick_timers, rt_timer_check. set (s1 := put_tick (u32 (rt_tick s + 1)) s).
  rewrite (bind_eq (modify _) _ s tt s1) by done. rewrite (bind_eq (gets _) _ s1 (rt_timer_list s1) s1) by done.
  pose proof (tick_ok s Hs) as Hs1. fold s1 in Hs1.
  assert (expired s1 = filter (fun t => due s t <= 1) (rt_timer_list s)) as He.
  { unfold expired. apply filter_ext_in. intros u Hu. unfold s1. rewrite tick_due; [lia|apply Hs|by apply (ok_due _ _ Hs)]. }
  destruct (check_loop_ok (length (rt_timer_list s1)) s1 Hs1 Ht) as (s' & f & E & Hs' & Ht' & Etk & Ef & Ee & Hsub & Hall & Hfr).
  { apply length_filter. }
  exists s', f. rewrite He in *. split_and!; try done.
  - destruct Hs' as [H1 H2 H3 H4 H5 H6]. split; try done. intros t Hin. specialize (H3 t Hin). split; [|lia].
    destruct (decide (due s' t <= 0)) as [Hd|]; [|lia]. exfalso.
    assert (t ∈ expired s') as Hx by (unfold expired; by apply list_elem_of_filter). rewrite Ee in Hx. by apply elem_of_nil in Hx.
  - intros t Hin Hd. apply Hall. by apply list_elem_of_filter.
Qed.

End check.
