(* ===== verification/TimerSystem.v ===== *)
(** * Timers over time

    Any sequence of starts, stops, changes and ticks keeps the list of timers
    in order; a timer that is left alone fires at exactly its tick. *)

From Stdlib Require Import ZArith Lia.
From stdpp Require Import prelude functions list.
From S2P Require Import Prelude Kernel Timer TimerSpec.
Import Timer.
Open Scope Z_scope.
Open Scope c_scope.

Implicit Types (t u : timer_id) (s : timers).

Section system.
Variable timeout_func : timer_id -> list cmd.

(** ** Reachable states *)

Inductive top :=
| TInit (t : timer_id) (time : Z) (per sft : bool)
| TStart (t : timer_id)
| TStop (t : timer_id)
| TDetach (t : timer_id)
| TSetTime (t : timer_id) (n : Z)
| TSetPeriodic (t : timer_id) (b : bool)
| TTick.

Definition exec_top (o : top) : T unit :=
  match o with
  | TInit t time per sft => _rt_timer_init t time per sft
  | TStart t => rt_timer_start t ;;; ret tt
  | TStop t => rt_timer_stop t ;;; ret tt
  | TDetach t => rt_timer_detach t ;;; ret tt
  | TSetTime t n => rt_timer_set_time t n
  | TSetPeriodic t b => rt_timer_set_periodic t b
  | TTick => tick_timers timeout_func
  end.

(** Times are below half the range of the tick, a periodic timer has a period,
    and a timer is initialised while it is not in use. *)
Definition allowed_top s (o : top) : Prop :=
  match o with
  | TInit t time per _ => t ∉ rt_timer_list s /\ 0 <= time <= MAX_DUE /\ (per = true -> 1 <= time)
  | TSetTime t n => 0 <= n <= MAX_DUE /\ (periodic (tm s t) = true -> 1 <= n)
  | TSetPeriodic t b => (b = true -> 1 <= init_tick (tm s t))
  | _ => True
  end.

Inductive treach : timers -> Prop :=
| treach_boot s :
    0 <= rt_tick s < 2 ^ 32 -> rt_timer_list s = [] -> temp_list s = [] ->
    (forall t, init_tick (tm s t) = 0 /\ periodic (tm s t) = false) -> treach s
| treach_step s o s' : treach s -> allowed_top s o -> exec_top o s = Some (tt, s') -> treach s'.

Hypothesis funcs_ok : forall t, Forall cmd_ok (timeout_func t).

Definition between s : Prop := timers_ok 0 s /\ temp_list s = [].

(** A change of a timer that the list does not depend on. *)
Lemma between_put f t s :
  between s ->
  (t ∈ rt_timer_list s -> timeout_tick (f (tm s t)) = timeout_tick (tm s t) /\ activated (f (tm s t)) = activated (tm s t)) ->
  0 <= init_tick (f (tm s t)) <= MAX_DUE /\ (periodic (f (tm s t)) = true -> 1 <= init_tick (f (tm s t))) ->
  between (put_tm f t s).
Proof.
  intros [[Ht Hn Hd Hs Ha Hi] Hte] Hf Hf2. split; [|done].
  assert (forall u, u ∈ rt_timer_list s -> timeout_tick (tm (put_tm f t s) u) = timeout_tick (tm s u) /\
    activated (tm (put_tm f t s) u) = activated (tm s u)) as Hu.
  { intros u Hin. rewrite tm_put. destruct (decide (u = t)) as [->|]; [by apply Hf|done]. }
  assert (forall u, u ∈ rt_timer_list s -> due (put_tm f t s) u = due s u) as Hdue
    by (intros u Hin; apply due_same; [done|by apply Hu]).
  split; try done.
  - intros u Hin. rewrite Hdue by done. by apply Hd.
  - by apply (sorted_ext (due s)).
  - intros u Hin. destruct (Hu u Hin) as [_ ->]. by apply Ha.
  - intros u. rewrite tm_put. destruct (decide (u = t)) as [->|]; [done|apply Hi].
Qed.

Lemma without_nil t s : temp_list s = [] -> without t (temp_list s) = [].
Proof. by intros ->. Qed.

Lemma exec_top_ok s o : between s -> allowed_top s o -> exists s', exec_top o s = Some (tt, s') /\ between s'.
Proof.
  intros Hb Ha. pose proof Hb as [Hs Hte]. destruct o as [t time per sft|t|t|t|t n|t b|]; cbn [exec_top allowed_top] in *.
  - eexists. split; [reflexivity|]. destruct Ha as (Hnt & Hr & Hp). by apply between_put.
  - destruct (start_ok 0 s t false Hs) as (s' & E & Hs' & [_ _ C _] & _); [lia|]. cbv iota in E.
    rewrite (bind_eq _ _ _ _ _ E). exists s'. split; [done|]. split; [done|]. rewrite C. by apply without_nil.
  - destruct (stop_ok 0 s t Hs) as (z & s' & E & Hs' & _ & Hc). rewrite (bind_eq _ _ _ _ _ E). exists s'.
    split; [done|]. split; [done|]. destruct Hc as [->|[_ _ C _]]; [done|]. rewrite C. by apply without_nil.
  - destruct (removed_ok 0 t s Hs) as (Hs1 & _ & [_ _ C _]).
    exists (put_tm (with_active false) t (removed t s)). split; [done|]. split; [done|]. rewrite C. by apply without_nil.
  - eexists. split; [reflexivity|]. by apply between_put.
  - eexists. split; [reflexivity|]. apply between_put; [done|done|]. split; [apply (ok_init _ _ Hs t)|done].
  - destruct (tick_timers_ok timeout_func funcs_ok s Hs Hte) as (s' & f & E & [H1 H2 H3 H4 H5 H6] & Ht' & _).
    exists s'. split; [done|]. split; [|done]. split; try done. intros t Hin. specialize (H3 t Hin). lia.
Qed.

Lemma treach_between s : treach s -> between s.
Proof.
  induction 1 as [s Htk Hl Ht Hi|s o s' _ IH Ha E].
  - split; [|done]. split; [done|rewrite Hl; constructor|..].
    + intros t Hin. rewrite Hl in Hin. by apply elem_of_nil in Hin.
    + rewrite Hl. constructor.
    + intros t Hin. rewrite Hl in Hin. by apply elem_of_nil in Hin.
    + intros t. destruct (Hi t) as [-> ->]. unfold MAX_DUE. split; [lia|done].
  - destruct (exec_top_ok s o IH Ha) as (s2 & E2 & Hb). congruence.
Qed.

(** ** Ticks *)

Inductive ticks : nat -> timers -> timers -> Prop :=
| ticks_O s : ticks 0 s s
| ticks_S n s s1 s2 : tick_timers timeout_func s = Some (tt, s1) -> ticks n s1 s2 -> ticks (S n) s s2.

(** A timer that no timeout function touches. *)
Definition undisturbed t : Prop := forall u, t ∉ targets timeout_func u.

Lemma tick_waits s t :
  between s -> undisturbed t -> t ∈ rt_timer_list s -> 1 < due s t ->
  exists s', tick_timers timeout_func s = Some (tt, s') /\ between s' /\
    t ∈ rt_timer_list s' /\ due s' t = due s t - 1 /\ exists f, fired s' = fired s ++ f /\ t ∉ f.
Proof.
  intros Hb Hu Hin Hd. pose proof Hb as [Hs Hte].
  destruct (tick_timers_ok timeout_func funcs_ok s Hs Hte) as (s' & f & E & Hs1 & Ht' & Etk & Ef & Hsub & _ & Hfr).
  assert (t ∉ f) as Hnf.
  { intros Hf. eapply elem_of_submseteq in Hf; [|by apply sublist_submseteq].
    apply list_elem_of_filter in Hf as [? _]. lia. }
  destruct (Hfr t) as [Etm Hiff].
  { rewrite not_elem_of_app. split; [done|]. intros Hx. apply list_elem_of_bind in Hx as (v & Hv & _). by apply (Hu v). }
  exists s'. split; [done|]. split; [|split; [by apply Hiff|split; [|by exists f]]].
  - destruct (exec_top_ok s TTick Hb I) as (s2 & E2 & Hb2). cbn [exec_top] in E2. congruence.
  - rewrite <- (tick_due s t); [|apply Hs|lia]. unfold due. by rewrite Etk, Etm.
Qed.

(** C40: timers fire on time.  In every state of the timers, a timer that is
    on the list with [n] ticks left, and that is not started or stopped by
    anyone in the meantime, is not called in the next [n - 1] ticks and is
    called at tick [n], whatever the other timers do and also across the
    wrap-around of the tick; a tick always comes to an end. *)
Theorem timer_fires_on_time n s t :
  treach s -> undisturbed t -> t ∈ rt_timer_list s -> due s t = Z.of_nat (S n) ->
  (exists s1 s2, ticks n s s1 /\ tick_timers timeout_func s1 = Some (tt, s2)) /\
  forall s1 s2, ticks n s s1 -> tick_timers timeout_func s1 = Some (tt, s2) ->
    exists f g, fired s1 = fired s ++ f /\ t ∉ f /\ fired s2 = fired s1 ++ g /\ t ∈ g.
Proof.
  intros Hr Hu. assert (forall n s, between s -> t ∈ rt_timer_list s -> due s t = Z.of_nat (S n) ->
    (exists s1, ticks n s s1) /\
    forall s1, ticks n s s1 -> between s1 /\ t ∈ rt_timer_list s1 /\ due s1 t = 1 /\ exists f, fired s1 = fired s ++ f /\ t ∉ f) as Hgo.
  { clear n s Hr. induction n as [|n IH]; intros s Hb Hin Hd.
    - split; [exists s; constructor|]. intros s1 H1. inversion H1; subst. split_and!; try done.
      exists []. rewrite app_nil_r. split; [done|apply not_elem_of_nil].
    - destruct (tick_waits s t Hb Hu Hin ltac:(lia)) as (s' & E & Hb' & Hin' & Hd' & f & Ef & Hnf).
      destruct (IH s' Hb' Hin' ltac:(lia)) as [[s1 Hex] Hall]. split; [exists s1; by econstructor|].
      intros s2 H2. inversion H2 as [|? ? s3 ? E3 Hs3]; subst. assert (s3 = s') as -> by congruence.
      destruct (Hall s2 Hs3) as (? & ? & ? & g & Eg & Hng). split_and!; try done.
      exists (f ++ g). rewrite Eg, Ef, app_assoc. split; [done|]. by rewrite not_elem_of_app. }
  intros Hin Hd. destruct (Hgo n s (treach_between s Hr) Hin Hd) as [[s1 H1] Hall]. split.
  - destruct (Hall s1 H1) as (Hb1 & _). destruct (exec_top_ok s1 TTick Hb1 I) as (s2 & E & _). by exists s1, s2.
  - clear s1 H1. intros s1 s2 H1 E. destruct (Hall s1 H1) as ([Hs1 Hte] & Hin1 & Hd1 & f & Ef & Hnf).
    destruct (tick_timers_ok timeout_func funcs_ok s1 Hs1 Hte) as (s3 & g & E3 & _ & _ & _ & Eg & _ & Hdue & _).
    assert (s3 = s2) as -> by congruence. exists f, g. split_and!; try done.
    destruct (Hdue t Hin1) as [?|(v & _ & Hv)]; [lia|done|]. by destruct (Hu v).
Qed.

End system.

(** ** An example

    Timer 0 is periodic with 3 ticks, timer 1 fires once after 5 ticks; the
    tick wraps around in between. *)

Definition boot_timers : timers :=
  mk_timers 0xfffffffe [] [] [] (fun _ => mk_timer false false false 0 0) [].
Definition no_func (t : timer_id) : list cmd := [].
Definition demo_tops : list top :=
  [TInit 0%nat 3 true false; TInit 1%nat 5 false false; TStart 0%nat; TStart 1%nat].
Definition after_top (o : top) (s : timers) : timers := default s (snd <$> exec_top no_func o s).
Definition demo_timers : timers := foldl (fun s o => after_top o s) boot_timers demo_tops.

Example demo_six_ticks :
  fired (foldl (fun s o => after_top o s) demo_timers (repeat TTick 6)) = [0; 1; 0]%nat.
Proof. vm_compute. reflexivity. Qed.

Lemma no_func_ok t : Forall cmd_ok (no_func t).
Proof. constructor. Qed.

Lemma demo_treach : treach no_func demo_timers.
Proof.
  assert (forall s o, treach no_func s -> allowed_top s o -> treach no_func (after_top o s)) as Hstep.
  { intros s o Hs Ha. destruct (exec_top_ok no_func no_func_ok s o (treach_between no_func no_func_ok s Hs) Ha) as (s' & E & _).
    unfold after_top. rewrite E. by eapply treach_step. }
  unfold demo_timers, demo_tops. cbn [foldl]. do 2 (apply Hstep; [|exact I]).
  do 2 (apply Hstep; [|split; [apply not_elem_of_nil|unfold MAX_DUE; lia]]).
  by apply treach_boot.
Qed.

Lemma timer_fires_on_time_witness :
  exists s1 s2, ticks no_func 4 demo_timers s1 /\ tick_timers no_func s1 = Some (tt, s2) /\
    exists f g, fired s1 = fired demo_timers ++ f /\ 1%nat ∉ f /\ fired s2 = fired s1 ++ g /\ 1%nat ∈ g.
Proof.
  destruct (timer_fires_on_time no_func no_func_ok 4 demo_timers 1%nat demo_treach) as [(s1 & s2 & H1 & H2) H].
  - intros u. apply not_elem_of_nil.
  - change (rt_timer_list demo_timers) with [0; 1]%nat. apply list_elem_of_further, list_elem_of_here.
  - vm_compute. reflexivity.
  - exists s1, s2. split; [exact H1|]. split; [exact H2|]. exact (H s1 s2 H1 H2).
Defined.

(** A periodic timer without a period stops the system: the loop of
    [rt_timer_check] fires it for ever. *)
Definition due_again s : Prop :=
  rt_timer_list s = [0%nat] /\ temp_list s = [] /\ 0 <= rt_tick s < 2 ^ 32 /\
  timeout_tick (tm s 0%nat) = rt_tick s /\ periodic (tm s 0%nat) = true /\ activated (tm s 0%nat) = true /\
  soft (tm s 0%nat) = false /\ init_tick (tm s 0%nat) = 0.

Lemma due_again_fires s : due_again s -> exists s', fire no_func 0%nat s = Some (tt, s') /\ due_again s'.
Proof.
  intros (El & Et & Hk & Hto & Hp & Ha & Hs & Hi). unfold fire.
  rewrite (bind_eq (_rt_timer_remove 0) _ s tt (removed 0 s)) by done.
  rewrite (bind_eq (get_tm 0) _ _ (tm s 0%nat) (removed 0 s)) by done. rewrite Hp. cbn [negb].
  rewrite (bind_eq (when false _) _ _ tt (removed 0 s)) by done.
  set (s1 := put_temp [0%nat] (removed 0 s)).
  rewrite (bind_eq (modify _) _ _ tt s1) by (unfold modify, removed; cbn; by rewrite Et).
  rewrite (bind_eq (modify _) _ _ tt (log_call 0 s1)) by done.
  rewrite (bind_eq (run_cmds _) _ _ tt (log_call 0 s1)) by done.
  rewrite (bind_eq (gets _) _ _ [0%nat] (log_call 0 s1)) by done.
  set (s2 := put_temp [] (log_call 0 s1)). rewrite (bind_eq (modify _) _ _ tt s2) by done.
  rewrite (bind_eq (get_tm 0) _ _ (tm s 0%nat) s2) by done. rewrite Hp, Ha. cbn [andb when].
  set (s3 := put_tm (with_active false) 0 s2). rewrite (bind_eq (set_tm _ _) _ _ tt s3) by done.
  assert (tm s3 0%nat = with_active false (tm s 0%nat)) as E3 by reflexivity.
  rewrite (bind_eq _ _ s3 _ _ (start_eq s3 0 ltac:(rewrite E3; cbn; rewrite Hi; unfold MAX_DUE; lia))).
  set (s4 := put_tm (with_active false) 0 (removed 0 s3)).
  assert (tm s4 0%nat = with_active false (tm s 0%nat)) as E4 by reflexivity.
  eexists. split; [reflexivity|]. destruct (placed_tm 0 s4) as [Ep _].
  assert (rt_tick (placed 0 s4) = rt_tick s) as Etk by (unfold placed; by destruct (soft _)).
  unfold due_again. rewrite Ep, Etk, E4. cbn [with_active with_timeout timeout_tick periodic activated soft init_tick].
  split_and!; try done; try lia.
  - unfold placed. rewrite E4. cbn [with_active soft]. rewrite Hs. cbn [put_tm put_hard rt_timer_list].
    change (rt_timer_list s4) with (without 0 (without 0 (rt_timer_list s))). by rewrite El.
  - unfold placed. rewrite E4. cbn [with_active soft]. by rewrite Hs.
  - change (rt_tick s4) with (rt_tick s). rewrite Hi, Z.add_0_r. by apply u32_small.
Qed.

Lemma period_zero_never_ends fuel s : due_again s -> check_loop no_func fuel s = None.
Proof.
  revert s. induction fuel as [|fuel IH]; intros s Hd; pose proof Hd as (El & _ & _ & Hto & _); cbn [check_loop];
    rewrite (bind_eq (gets _) _ s (rt_timer_list s) s), El by done;
    rewrite (bind_eq (gets _) _ s (rt_tick s) s), (bind_eq (get_tm 0) _ s (tm s 0%nat) s), Hto, Z.sub_diag by done;
    change (u32 0 <? RT_TICK_MAX / 2) with true; [done|].
  destruct (due_again_fires s Hd) as (s' & E & Hd'). rewrite (bind_eq _ _ _ _ _ E). by apply IH.
Qed.
