(* ===== verification/SoftTimer.v ===== *)
(** * Soft timers

    The thread of src/rt-thread/src/timer.c that serves the soft timers:
    [rt_thread_timer_entry] and [rt_soft_timer_check], and the part of
    [rt_timer_start] that wakes it.  The thread is cut wherever interrupts are
    enabled, so that ticks, interrupt handlers and threads of a higher priority
    may run in between.  The timers are those of Timer.v; the state of a hard
    timer has no influence on the thread, except for the timer of the thread
    itself, which is the number of ticks it still sleeps (TimerSystem.v). *)

From Stdlib Require Import ZArith Lia.
From stdpp Require Import prelude functions list.
From S2P Require Import Prelude Kernel Timer.
Import Timer.
Open Scope Z_scope.
Open Scope c_scope.

Module SoftTimer.

(** Where the thread is:
    - [AtLoop]: before [rt_timer_list_next_timeout];
    - [AtSuspend]: before [rt_thread_suspend];
    - [AtTick]: before [rt_tick_get], with [next_timeout];
    - [AtDelay]: before [rt_thread_delay];
    - [Suspended]: suspended, with the ticks left when it is in
      [rt_thread_delay];
    - [AtCheck]: before a round of the loop of [rt_soft_timer_check];
    - [InFunc]: in the timeout function of a timer, with what it still does. *)
Inductive tpc :=
| AtLoop
| AtSuspend
| AtTick (next_timeout : Z)
| AtDelay (n : Z)
| Suspended (left : option Z)
| AtCheck
| InFunc (t : timer_id) (todo : list cmd).

(** [busy]: [soft_timer_status == RT_SOFT_TIMER_BUSY]. *)
Record soft_sys := mk_soft {
  base : timers;
  pc : tpc;
  busy : bool
}.

Abbreviation W := (M soft_sys).

Definition on_base {A} (m : T A) : W A :=
  fun s => match m s.(base) with
           | Some (a, b) => Some (a, mk_soft b s.(pc) s.(busy))
           | None => None
           end.
Definition goto (p : tpc) : W unit := modify (fun s => mk_soft s.(base) p s.(busy)).
Definition set_busy (b : bool) : W unit := modify (fun s => mk_soft s.(base) s.(pc) b).

Definition is_suspended (p : tpc) : bool := match p with Suspended _ => true | _ => false end.

(** [rt_timer_start] with the test for the timer thread at its end. *)
Definition soft_timer_start (t : timer_id) : W Z :=
  r <- on_base (rt_timer_start t) ;;
  x <- on_base (get_tm t) ;;
  s <- gets id ;;
  when (x.(soft) && negb s.(busy) && is_suspended s.(pc)) (goto AtCheck) ;;;
  ret r.

(** A timer operation of a timeout function. *)
Definition soft_cmd (c : cmd) : W unit :=
  match c with
  | CStart t n => on_base (rt_timer_set_time t n) ;;; soft_timer_start t ;;; ret tt
  | CStop t => on_base (rt_timer_stop t) ;;; ret tt
  end.

Section thread.
Variable timeout_func : timer_id -> list cmd.

(** From the test of the loop of [rt_soft_timer_check] to the call of a timeout
    function. *)
Definition soft_check : W unit :=
  l <- on_base (gets rt_soft_timer_list) ;;
  match l with
  | [] => goto AtLoop
  | t :: _ =>
      current_tick <- on_base (gets rt_tick) ;;
      x <- on_base (get_tm t) ;;
      if u32 (current_tick - x.(timeout_tick)) <? RT_TICK_MAX / 2 then
        on_base (_rt_timer_remove t) ;;;
        when (negb x.(periodic)) (on_base (set_tm (with_active false) t)) ;;;
        on_base (modify (fun s => put_temp (t :: s.(temp_list)) s)) ;;;
        set_busy true ;;;
        on_base (modify (log_call t)) ;;;
        goto (InFunc t (timeout_func t))
      else goto AtLoop
  end.

(** From the return of the timeout function to the next round. *)
Definition soft_return (t : timer_id) : W unit :=
  set_busy false ;;;
  goto AtCheck ;;;
  l <- on_base (gets temp_list) ;;
  match l with
  | [] => ret tt
  | _ =>
      on_base (modify (fun s => put_temp (without t s.(temp_list)) s)) ;;;
      x <- on_base (get_tm t) ;;
      when (x.(periodic) && x.(activated))
        (on_base (set_tm (with_active false) t) ;;; soft_timer_start t ;;; ret tt)
  end.

(** The next piece of the thread; a suspended thread does not run. *)
Definition rt_thread_timer_entry : W unit :=
  p <- gets pc ;;
  match p with
  | AtLoop =>
      next_timeout <- on_base (gets (fun s =>
        match s.(rt_soft_timer_list) with t :: _ => timeout_tick (s.(tm) t) | [] => RT_TICK_MAX end)) ;;
      if next_timeout =? RT_TICK_MAX then goto AtSuspend else goto (AtTick next_timeout)
  | AtSuspend => goto (Suspended None)
  | AtTick next_timeout =>
      current_tick <- on_base (gets rt_tick) ;;
      let d := u32 (next_timeout - current_tick) in
      if d <? RT_TICK_MAX / 2 then goto (AtDelay d) else goto AtCheck
  | AtDelay n => goto (Suspended (Some n))
  | Suspended _ => undefined
  | AtCheck => soft_check
  | InFunc t (c :: todo) => soft_cmd c ;;; goto (InFunc t todo)
  | InFunc t [] => soft_return t
  end.

End thread.

(** The tick: the counter, and the timer of the thread. *)
Definition soft_tick : W unit :=
  on_base (modify (fun s => put_tick (u32 (s.(rt_tick) + 1)) s)) ;;;
  p <- gets pc ;;
  match p with
  | Suspended (Some n) => if n <=? 1 then goto AtCheck else goto (Suspended (Some (n - 1)))
  | _ => ret tt
  end.

End SoftTimer.
