(* ===== verification/SoftTimerSystem.v ===== *)
(** * Soft timers are served

    What the timer thread (SoftTimer.v) promises, whatever starts, stops and
    changes soft timers, and when.  Between its look at the list and its sleep
    the thread can be disturbed, and then it may sleep past a timer: the steps
    carry a flag for this, and two theorems show what goes wrong. *)

From Stdlib Require Import ZArith Lia Sorting.Sorted.
From stdpp Require Import prelude functions list.
From S2P Require Import Prelude Kernel Timer TimerSpec SoftTimer.
Import Timer SoftTimer.
Open Scope Z_scope.
Open Scope c_scope.

Implicit Types (t u : timer_id) (b : timers) (s : soft_sys).

Module SoftSystem.

(** Times are at most [LONGEST] ticks, and the thread is never more than [LATE]
    ticks late (about 12 days of milliseconds each). *)
Definition LONGEST : Z := 2 ^ 30.
Definition LATE : Z := 2 ^ 30.

(** ** The list of soft timers *)

Record soft_ok b : Prop := mk_soft_ok {
  so_tick : 0 <= rt_tick b < 2 ^ 32;
  so_nodup : NoDup (rt_soft_timer_list b);
  so_due : forall t, t ∈ rt_soft_timer_list b -> - LATE <= due b t <= LONGEST;
  so_sorted : sorted_due (due b) (rt_soft_timer_list b);
  so_active : forall t, t ∈ rt_soft_timer_list b -> activated (tm b t) = true;
  so_soft : forall t, soft (tm b t) = true;
  so_init : forall t, 0 <= init_tick (tm b t) <= LONGEST /\ (periodic (tm b t) = true -> 1 <= init_tick (tm b t));
  so_temp : forall t, t ∈ temp_list b -> t ∉ rt_soft_timer_list b
}.

Definition overdue b : list timer_id := filter (fun t => due b t <= 0) (rt_soft_timer_list b).

(** What an operation on timer [t] leaves alone. *)
Record touched t b b' : Prop := mk_touched {
  to_tick : rt_tick b' = rt_tick b;
  to_fired : fired b' = fired b;
  to_temp : forall u, u ∈ temp_list b' -> u ∈ temp_list b;
  to_other : forall u, u <> t -> tm b' u = tm b u /\ (u ∈ rt_soft_timer_list b' <-> u ∈ rt_soft_timer_list b)
}.

Lemma insert_timer_late b t l :
  (forall u, u ∈ l -> - LATE <= due b u <= LONGEST) -> 0 <= due b t <= LONGEST ->
  insert_timer (fun u => timeout_tick (tm b u)) t l = insert_due (due b) t l.
Proof.
  intros Hl Ht. unfold LATE, LONGEST in *. induction l as [|u l IH]; [done|]. cbn [insert_timer insert_due].
  rewrite u32_due, IH by (intros v Hv; apply Hl; by apply list_elem_of_further).
  specialize (Hl u ltac:(apply list_elem_of_here)). change (RT_TICK_MAX / 2) with 0x7fffffff.
  destruct (due b u <=? due b t) eqn:E.
  - destruct (u32 (due b u - due b t) =? 0) eqn:E0; [done|].
    destruct (u32 (due b u - due b t) <? 0x7fffffff) eqn:E2; [|done]. exfalso.
    destruct (decide (due b u = due b t)) as [Eq|]; [|unfold u32 in E2; revert E2; divmod].
    rewrite Eq, Z.sub_diag in E0. discriminate E0.
  - rewrite u32_small by lia. replace (_ =? 0) with false by lia. by replace (_ <? _) with true by lia.
Qed.

(** A timer is unlinked, and what is its own may change. *)
Lemma soft_unlinked t b b' :
  soft_ok b -> rt_tick b' = rt_tick b -> rt_soft_timer_list b' = without t (rt_soft_timer_list b) ->
  fired b' = fired b -> temp_list b' = without t (temp_list b) -> (forall u, u <> t -> tm b' u = tm b u) ->
  soft (tm b' t) = true -> 0 <= init_tick (tm b' t) <= LONGEST /\ (periodic (tm b' t) = true -> 1 <= init_tick (tm b' t)) ->
  soft_ok b' /\ overdue b' = without t (overdue b) /\ touched t b b'.
Proof.
  intros [Ht Hn Hd Hs Ha Hso Hi Htp] E1 E2 E3 E4 Htm E5 E6.
  assert (forall u, u ∈ without t (rt_soft_timer_list b) -> due b' u = due b u) as Hdue.
  { intros u Hu. apply without_elem in Hu as [Hu _]. apply due_same; [done|by rewrite Htm]. }
  split; [split; rewrite ?E1, ?E2|split].
  - exact Ht.
  - by apply NoDup_filter.
  - intros u Hu. rewrite Hdue by done. apply without_elem in Hu as [_ Hu]. by apply Hd.
  - apply (sorted_ext (due b)); [exact Hdue|]. by apply sorted_filter.
  - intros u Hu. apply without_elem in Hu as [Hne Hu]. rewrite Htm by done. by apply Ha.
  - intros u. destruct (decide (u = t)) as [->|Hu]; [done|by rewrite Htm].
  - intros u. destruct (decide (u = t)) as [->|Hu]; [done|rewrite Htm by done; apply Hi].
  - intros u. rewrite E4, !without_elem. intros [_ Hu] [_ Hin]. by apply (Htp u).
  - unfold overdue. rewrite E2, <- filter_without. apply filter_ext_in. intros u Hu. by rewrite Hdue.
  - split; try done; intros u; [rewrite E4, without_elem; tauto|]. intros Hu. split; [by apply Htm|]. rewrite E2, without_elem. tauto.
Qed.

(** A change of a timer that the list does not depend on. *)
Lemma soft_put f t b :
  soft_ok b ->
  (t ∈ rt_soft_timer_list b -> timeout_tick (f (tm b t)) = timeout_tick (tm b t) /\ activated (f (tm b t)) = activated (tm b t)) ->
  soft (f (tm b t)) = true ->
  0 <= init_tick (f (tm b t)) <= LONGEST /\ (periodic (f (tm b t)) = true -> 1 <= init_tick (f (tm b t))) ->
  soft_ok (put_tm f t b) /\ (forall u, u ∈ rt_soft_timer_list b -> due (put_tm f t b) u = due b u).
Proof.
  intros [Ht Hn Hd Hs Ha Hso Hi Htp] Hf Hf1 Hf2.
  assert (forall u, u ∈ rt_soft_timer_list b -> timeout_tick (tm (put_tm f t b) u) = timeout_tick (tm b u) /\
    activated (tm (put_tm f t b) u) = activated (tm b u)) as Hu.
  { intros u Hin. rewrite tm_put. destruct (decide (u = t)) as [->|]; [by apply Hf|done]. }
  assert (forall u, u ∈ rt_soft_timer_list b -> due (put_tm f t b) u = due b u) as Hdue
    by (intros u Hin; apply due_same; [done|by apply Hu]).
  split; [|done]. split; try done.
  - intros u Hin. rewrite Hdue by done. by apply Hd.
  - by apply (sorted_ext (due b)).
  - intros u Hin. destruct (Hu u Hin) as [_ ->]. by apply Ha.
  - intros u. rewrite tm_put. by destruct (decide (u = t)) as [->|].
  - intros u. rewrite tm_put. destruct (decide (u = t)) as [->|]; [done|apply Hi].
Qed.

Lemma soft_placed t b :
  soft_ok b -> t ∉ rt_soft_timer_list b -> t ∉ temp_list b ->
  soft_ok (placed t b) /\ touched t b (placed t b) /\
  (1 <= init_tick (tm b t) -> overdue (placed t b) = overdue b).
Proof.
  intros Hs Hnt Hntt. pose proof Hs as [Ht Hn Hd Hso Ha Hsf Hi Htp]. set (b' := placed t b). destruct (Hi t) as [Hi0 Hip].
  destruct (placed_tm t b) as [Etm Etm']. fold b' in Etm, Etm'. set (n := init_tick (tm b t)) in *. pose proof (Hsf t) as Est.
  assert (rt_tick b' = rt_tick b) as Etick by (unfold b', placed; by rewrite Est).
  assert (due b' t = n) as Edt.
  { unfold due. rewrite Etm, Etick. cbn [with_active with_timeout timeout_tick]. apply (due_start b t); [done|]. unfold LONGEST, MAX_DUE in *. lia. }
  assert (forall u, u ∈ rt_soft_timer_list b -> due b' u = due b u) as Edu.
  { intros u Hu. apply due_same; [done|]. rewrite Etm'; [done|]. by intros ->. }
  assert (rt_soft_timer_list b' = insert_due (due b') t (rt_soft_timer_list b)) as El.
  { transitivity (insert_timer (fun u => timeout_tick (tm b' u)) t (rt_soft_timer_list b)).
    - set (b1 := put_tm (with_timeout (u32 (rt_tick b + n))) t b).
      assert (forall u, timeout_tick (tm b' u) = timeout_tick (tm b1 u)) as Eto.
      { intros u. unfold b1. rewrite tm_put. destruct (decide (u = t)) as [->|Hu]; [by rewrite Etm|by rewrite Etm']. }
      transitivity (insert_timer (fun u => timeout_tick (tm b1 u)) t (rt_soft_timer_list b)).
      { unfold b', placed. fold n b1. by rewrite Est. }
      clear -Eto. induction (rt_soft_timer_list b) as [|v l IH]; [done|]. cbn [insert_timer]. by rewrite !Eto, IH.
    - apply insert_timer_late; [|by rewrite Edt]. intros u Hu. rewrite Edu by done. by apply Hd. }
  split; [split|split].
  - by rewrite Etick.
  - rewrite El. by apply insert_due_nodup.
  - intros u Hu. rewrite El in Hu. apply insert_due_elem in Hu as [->|Hu]; [rewrite Edt; unfold LATE in *; lia|].
    rewrite Edu by done. by apply Hd.
  - rewrite El. apply insert_due_sorted. by apply (sorted_ext (due b)).
  - intros u Hu. destruct (decide (u = t)) as [->|Hne]; [by rewrite Etm|]. rewrite Etm' by done. apply Ha.
    rewrite El in Hu. apply insert_due_elem in Hu as [?|?]; done.
  - intros u. destruct (decide (u = t)) as [->|Hne]; [by rewrite Etm|by rewrite Etm'].
  - intros u. destruct (decide (u = t)) as [->|Hne]; [rewrite Etm; exact (Hi t)|rewrite Etm' by done; apply Hi].
  - intros u Hu. assert (u ∈ temp_list b) as Hub by (revert Hu; unfold b', placed; by rewrite Est).
    rewrite El, insert_due_elem. intros [->|Hin]; [done|]. by apply (Htp u).
  - split; [done|unfold b', placed; by rewrite Est| |].
    + intros u. unfold b', placed. by rewrite Est.
    + intros u Hu. split; [by apply Etm'|]. rewrite El, insert_due_elem. tauto.
  - intros Hpos. unfold overdue. rewrite El. rewrite insert_due_filter by lia. apply filter_ext_in. intros u Hu. by rewrite Edu.
Qed.

(** ** Operations *)

(** It makes no difference whether the timer counts as active before. *)
Lemma soft_started t (inactive : bool) b :
  soft_ok b ->
  exists b', rt_timer_start t (if inactive then put_tm (with_active false) t b else b) = Some (RT_EOK, b') /\
    soft_ok b' /\ touched t b b' /\ (t ∉ temp_list b') /\ (1 <= init_tick (tm b t) -> overdue b' = without t (overdue b)).
Proof.
  intros Hs. set (b0 := if inactive then _ else _).
  assert (forall u, u <> t -> tm b0 u = tm b u) as Hother
    by (intros u Hu; unfold b0; destruct inactive; [by rewrite tm_put, decide_False|done]).
  assert (init_tick (tm b0 t) = init_tick (tm b t) /\ periodic (tm b0 t) = periodic (tm b t) /\ soft (tm b0 t) = soft (tm b t)) as (Ei & Ep & Es)
    by (unfold b0; destruct inactive; [by rewrite tm_put, decide_True|done]).
  pose proof (so_init _ Hs t) as [Hi Hip]. set (b1 := put_tm (with_active false) t (removed t b0)).
  assert (tm b1 t = with_active false (tm b0 t)) as E1 by (unfold b1; by rewrite tm_put, decide_True).
  destruct (soft_unlinked t b b1 Hs) as (Hs1 & He1 & [Ho1 Ho2 Ho3 Ho4]); try (unfold b1, b0; by destruct inactive).
  { intros u Hu. unfold b1. rewrite tm_put, decide_False by done. by apply Hother. }
  { rewrite E1. cbn [with_active soft]. rewrite Es. apply Hs. }
  { rewrite E1. cbn [with_active init_tick periodic]. by rewrite Ei, Ep. }
  exists (placed t b1). split; [apply start_eq; rewrite Ei; unfold LONGEST, MAX_DUE in *; lia|].
  assert (t ∉ rt_soft_timer_list b1) as Hnt by (intros Hin; by apply without_elem in Hin as [? _]).
  assert (t ∉ temp_list b1) as Hntt by (intros Hin; by apply without_elem in Hin as [? _]).
  destruct (soft_placed t b1 Hs1 Hnt Hntt) as (Hs2 & [C1 C2 C3 C4] & He2).
  split; [done|]. split; [|split; [by intros Hin; apply Hntt, C3|]].
  - split; [congruence|congruence|auto|]. intros u Hu. destruct (Ho4 u Hu) as [A1 A2]. destruct (C4 u Hu) as [B1 B2].
    split; [congruence|tauto].
  - intros Hp. rewrite He2; [done|]. rewrite E1. cbn [with_active init_tick]. lia.
Qed.

Lemma soft_removed t b :
  soft_ok b ->
  let b' := put_tm (with_active false) t (removed t b) in soft_ok b' /\ overdue b' = without t (overdue b) /\ touched t b b'.
Proof.
  intros Hs b'. assert (tm b' t = with_active false (tm b t)) as E by (unfold b'; by rewrite tm_put, decide_True).
  apply soft_unlinked; try done; rewrite ?E.
  - intros u Hu. unfold b'. by rewrite tm_put, decide_False.
  - apply Hs.
  - apply (so_init _ Hs t).
Qed.

Lemma soft_stopped t b :
  soft_ok b ->
  exists z b', rt_timer_stop t b = Some (z, b') /\ soft_ok b' /\ overdue b' = without t (overdue b) /\
    touched t b b' /\ t ∉ rt_soft_timer_list b'.
Proof.
  intros Hs. unfold rt_timer_stop. rewrite (bind_eq (get_tm t) _ b (tm b t) b) by done.
  destruct (activated (tm b t)) eqn:Ea; cbn [negb].
  - destruct (soft_removed t b Hs) as (Hs1 & He1 & Ho1).
    exists RT_EOK, (put_tm (with_active false) t (removed t b)). do 4 (split; [done|]). intros Hin. by apply without_elem in Hin as [? _].
  - assert (t ∉ rt_soft_timer_list b) as Hn by (intros Hin; apply (so_active _ Hs) in Hin; congruence).
    exists (- RT_ERROR), b. split; [done|]. split; [done|]. split; [|by split].
    symmetry. apply filter_out. unfold overdue. rewrite list_elem_of_filter. tauto.
Qed.

Lemma soft_set_time t n b :
  soft_ok b -> 0 <= n <= LONGEST -> (periodic (tm b t) = true -> 1 <= n) ->
  let b' := put_tm (with_init n) t b in
  soft_ok b' /\ overdue b' = overdue b /\ (forall u, u ∈ rt_soft_timer_list b -> due b' u = due b u).
Proof.
  intros Hs Hn Hp b'. destruct (soft_put (with_init n) t b Hs) as [Hs' Hd]; [done|apply Hs|done|].
  split; [done|]. split; [|done]. unfold overdue. apply filter_ext_in. intros u Hu. by rewrite Hd.
Qed.

(** ** Due now *)

Lemma late_test b t : 0 <= rt_tick b < 2 ^ 32 -> - LATE <= due b t <= LONGEST ->
  (u32 (rt_tick b - timeout_tick (tm b t)) <? RT_TICK_MAX / 2) = bool_decide (due b t <= 0).
Proof.
  intros Ht Hd. change (RT_TICK_MAX / 2) with 0x7fffffff. unfold LATE, LONGEST in Hd.
  assert (u32 (rt_tick b - timeout_tick (tm b t)) = u32 (- due b t)) as ->
    by (unfold due, u32, s32, swrap; divmod).
  case_bool_decide as E; unfold u32; divmod.
Qed.

Lemma left_test b t : 0 <= rt_tick b < 2 ^ 32 -> - LATE <= due b t <= LONGEST ->
  let d := u32 (timeout_tick (tm b t) - rt_tick b) in
  (d <? RT_TICK_MAX / 2) = bool_decide (0 <= due b t) /\ (0 <= due b t -> d = due b t).
Proof.
  intros Ht Hd d. change (RT_TICK_MAX / 2) with 0x7fffffff. unfold LATE, LONGEST in Hd.
  assert (d = u32 (due b t)) as -> by (unfold d, due, u32, s32, swrap; divmod).
  split; [case_bool_decide as E; unfold u32; divmod|]. intros H. apply u32_small. lia.
Qed.

Lemma overdue_head b t l :
  soft_ok b -> rt_soft_timer_list b = t :: l ->
  if decide (due b t <= 0) then exists l', overdue b = t :: l' /\ without t (overdue b) = l' else overdue b = [].
Proof.
  intros Hs El. pose proof (so_sorted _ Hs) as Hso. pose proof (so_nodup _ Hs) as Hnd. rewrite El in *.
  unfold overdue. rewrite El. apply NoDup_cons in Hnd as [Hnt _]. case_decide as Hd.
  - eexists. rewrite filter_cons_True by done. split; [reflexivity|]. unfold without. rewrite filter_cons_False by auto.
    apply filter_out. rewrite list_elem_of_filter. tauto.
  - rewrite filter_cons_False by done. inversion Hso as [|? ? _ Hall]; subst. rewrite Forall_forall in Hall.
    clear El Hso Hnt. induction l as [|v l IHl]; [done|].
    rewrite filter_cons_False by (specialize (Hall v (list_elem_of_here _ _)); lia).
    apply IHl. intros x Hx. apply Hall. by apply list_elem_of_further.
Qed.

(** ** The system *)

Inductive sact :=
| SThread
| STick
| SInit (t : timer_id) (time : Z) (per : bool)
| SStart (t : timer_id)
| SStop (t : timer_id)
| SDetach (t : timer_id)
| SSetTime (t : timer_id) (n : Z)
| SSetPeriodic (t : timer_id) (p : bool).

Section system.
Variable timeout_func : timer_id -> list cmd.

Definition exec_soft (a : sact) : W unit :=
  match a with
  | SThread => rt_thread_timer_entry timeout_func
  | STick => soft_tick
  | SInit t time per => on_base (_rt_timer_init t time per true)
  | SStart t => soft_timer_start t ;;; ret tt
  | SStop t => on_base (rt_timer_stop t) ;;; ret tt
  | SDetach t => on_base (rt_timer_detach t) ;;; ret tt
  | SSetTime t n => on_base (rt_timer_set_time t n)
  | SSetPeriodic t p => on_base (rt_timer_set_periodic t p)
  end.

(** What may happen, at any time: the thread runs when it is not suspended,
    times are within their bounds, periods are not 0, and a timer in use is not
    initialised again. *)
Definition allowed s (a : sact) : Prop :=
  let b := s.(base) in
  match a with
  | SThread => is_suspended s.(pc) = false
  | STick => forall t, t ∈ rt_soft_timer_list b -> - LATE < due b t
  | SInit t time per => (t ∉ rt_soft_timer_list b) /\ (t ∉ temp_list b) /\ 0 <= time <= LONGEST /\ (per = true -> 1 <= time)
  | SSetTime t n => 0 <= n <= LONGEST /\ (periodic (tm b t) = true -> 1 <= n)
  | SSetPeriodic t p => p = true -> 1 <= init_tick (tm b t)
  | _ => True
  end.

(** The first timer is due at the tick that [rt_timer_list_next_timeout] returns
    when there is no timer. *)
Definition looks_empty b : bool :=
  match rt_soft_timer_list b with t :: _ => timeout_tick (tm b t) =? RT_TICK_MAX | [] => false end.

(** Whether the thread has been disturbed since its last look at the list: a
    timer is started before the thread is asleep, or stopped before it has read
    the tick, or the tick advances after it has read it; or it has taken the list
    for empty. *)
Definition disturbed s (a : sact) (d : bool) : bool :=
  match a, s.(pc) with
  | SThread, AtLoop => looks_empty s.(base)
  | SStart _, (AtSuspend | AtTick _ | AtDelay _) => true
  | (SStop _ | SDetach _), AtTick _ => true
  | STick, AtDelay _ => true
  | _, _ => d
  end.

(** Timeout functions start timers only for a later tick. *)
Definition soft_cmd_ok (c : cmd) : Prop := match c with CStart _ n => 1 <= n <= LONGEST | CStop _ => True end.
Hypothesis soft_funcs_ok : forall t, Forall soft_cmd_ok (timeout_func t).

(** The thread at its start, no soft timer in use. *)
Definition soft_initial s : Prop :=
  s.(pc) = AtLoop /\ s.(busy) = false /\ 0 <= rt_tick s.(base) < 2 ^ 32 /\ rt_soft_timer_list s.(base) = [] /\
  temp_list s.(base) = [] /\
  forall t, soft (tm s.(base) t) = true /\ init_tick (tm s.(base) t) = 0 /\ periodic (tm s.(base) t) = false.

Inductive soft_reach : bool -> soft_sys -> Prop :=
| soft_start s : soft_initial s -> soft_reach false s
| soft_step d s a s' : soft_reach d s -> allowed s a -> exec_soft a s = Some (tt, s') ->
    soft_reach (disturbed s a d) s'.

(** ** The invariant *)

(** What an undisturbed thread that goes to sleep knows of the list. *)
Definition sleep_ok b (p : tpc) : Prop :=
  match p with
  | AtSuspend | Suspended None => rt_soft_timer_list b = []
  | AtTick next => exists t l, rt_soft_timer_list b = t :: l /\ next = timeout_tick (tm b t)
  | AtDelay n | Suspended (Some n) => 0 <= n /\ forall t, t ∈ rt_soft_timer_list b -> n <= due b t
  | _ => True
  end.

Definition pc_ok (p : tpc) : Prop :=
  match p with
  | InFunc t todo => exists before, timeout_func t = before ++ todo
  | _ => True
  end.

Definition in_func (p : tpc) : option timer_id := match p with InFunc t _ => Some t | _ => None end.

Record sinv (d : bool) s : Prop := {
  si_ok : soft_ok s.(base);
  si_pc : pc_ok s.(pc);
  si_sleep : d = false -> sleep_ok s.(base) s.(pc);
  si_temp : forall t, t ∈ temp_list s.(base) -> in_func s.(pc) = Some t;
  si_busy : s.(busy) = bool_decide (is_Some (in_func s.(pc)))
}.

(** Timers that leave the list do not disturb a thread that has read the tick. *)
Lemma sleep_ok_less b b' p :
  (forall next, p <> AtTick next) ->
  (forall u, u ∈ rt_soft_timer_list b' -> u ∈ rt_soft_timer_list b /\ due b' u = due b u) ->
  sleep_ok b p -> sleep_ok b' p.
Proof.
  intros Hp Hl. assert (rt_soft_timer_list b = [] -> rt_soft_timer_list b' = []) as Hnil.
  { intros E. destruct (rt_soft_timer_list b') as [|v l]; [done|]. destruct (Hl v (list_elem_of_here _ _)) as [Hv _].
    rewrite E in Hv. by apply elem_of_nil in Hv. }
  assert (forall n, (0 <= n /\ forall t, t ∈ rt_soft_timer_list b -> n <= due b t) ->
    0 <= n /\ forall t, t ∈ rt_soft_timer_list b' -> n <= due b' t) as Hn.
  { intros n [H0 H]. split; [done|]. intros u Hu. destruct (Hl u Hu) as [Hin ->]. by apply H. }
  destruct p as [| |next| |[n|]| |]; cbn; auto. by destruct (Hp next).
Qed.

(** Changes that leave the list and the times on it. *)
Lemma sleep_ok_same b b' p :
  rt_tick b' = rt_tick b -> rt_soft_timer_list b' = rt_soft_timer_list b ->
  (forall u, u ∈ rt_soft_timer_list b -> timeout_tick (tm b' u) = timeout_tick (tm b u)) ->
  sleep_ok b p -> sleep_ok b' p.
Proof.
  intros Et El Htm. assert (forall u, u ∈ rt_soft_timer_list b -> due b' u = due b u) as Hd
    by (intros u Hu; apply due_same; [done|by apply Htm]).
  destruct p as [| |next| |[n|]| |]; cbn; rewrite ?El; try done.
  2,3: intros [H0 H]; split; [done|]; intros u Hu; rewrite Hd by done; by apply H.
  intros (t & l & E & ->). exists t, l. split; [done|]. rewrite Htm; [done|]. rewrite E. apply list_elem_of_here.
Qed.

(** The list is the same. *)
Lemma touched_less t b b' :
  touched t b b' -> t ∉ rt_soft_timer_list b' ->
  forall u, u ∈ rt_soft_timer_list b' -> u ∈ rt_soft_timer_list b /\ due b' u = due b u.
Proof.
  intros [E1 _ _ Ho] Ht u Hu. assert (u <> t) as Hne by (by intros ->). destruct (Ho u Hne) as [Etm Hiff].
  split; [by apply Hiff|]. by apply due_same; [|rewrite Etm].
Qed.

Lemma touched_temp t b b' p :
  touched t b b' -> (forall u, u ∈ temp_list b -> in_func p = Some u) -> forall u, u ∈ temp_list b' -> in_func p = Some u.
Proof. intros [_ _ E _] H u Hu. by apply H, E. Qed.

(** Another thread starts a timer. *)
Lemma start_sinv d s t :
  sinv d s ->
  exists s', soft_timer_start t s = Some (RT_EOK, s') /\ sinv (disturbed s (SStart t) d) s'.
Proof.
  intros [Hok Hpc Hsl Htp Hb]. destruct (soft_started t false (base s) Hok) as (b' & E & Hok' & Ht & Hnt & _). cbv iota in E.
  unfold soft_timer_start, on_base, bind, get_tm, gets, id. rewrite E. cbn [base pc busy]. rewrite (so_soft _ Hok' t).
  pose proof (touched_temp t (base s) b' (pc s) Ht Htp) as Htp'.
  destruct (is_suspended (pc s)) eqn:Esu.
  - assert (busy s = false) as -> by (rewrite Hb; by destruct (pc s)). cbn. eexists. split; [reflexivity|].
    split; try done. cbn. intros u Hu. specialize (Htp' u Hu). by destruct (pc s).
  - rewrite andb_false_r. cbn. eexists. split; [reflexivity|]. split; try done. cbn.
    destruct (pc s) as [| | | |o| |]; done.
Qed.

(** Changes that only take timers off the list. *)
Lemma less_sinv d s a b' :
  sinv d s -> (exists t, a = SStop t \/ a = SDetach t) -> soft_ok b' ->
  (forall u, u ∈ rt_soft_timer_list b' -> u ∈ rt_soft_timer_list s.(base) /\ due b' u = due s.(base) u) ->
  (forall u, u ∈ temp_list b' -> u ∈ temp_list s.(base)) ->
  sinv (disturbed s a d) (mk_soft b' s.(pc) s.(busy)).
Proof.
  intros [Hok Hpc Hsl Htp Hb] Ha Hok' Hl Ht. split; cbn; [done|done| |auto|done].
  intros Hd. assert (forall next, pc s <> AtTick next) as Hn.
  { intros next E. destruct Ha as (t & [->| ->]); cbn in Hd; by rewrite E in Hd. }
  apply (sleep_ok_less (base s)); [done|done|]. apply Hsl.
  destruct Ha as (t & [->| ->]); cbn in Hd; by destruct (pc s) as [| |next| | | |].
Qed.

(** A change of a timer that leaves the list and its times. *)
Lemma put_sinv d s f t :
  sinv d s -> soft_ok (put_tm f t s.(base)) ->
  (t ∈ rt_soft_timer_list s.(base) -> timeout_tick (f (tm s.(base) t)) = timeout_tick (tm s.(base) t)) ->
  sinv d (mk_soft (put_tm f t s.(base)) s.(pc) s.(busy)).
Proof.
  intros [Hok Hpc Hsl Htp Hb] Hok' Hf. split; cbn; try done. intros Hd.
  apply (sleep_ok_same (base s)); [done|done| |by apply Hsl]. intros u Hu. rewrite tm_put.
  destruct (decide (u = t)) as [->|]; [by apply Hf|done].
Qed.

Lemma tick_sinv d s :
  sinv d s -> allowed s STick -> exists s', soft_tick s = Some (tt, s') /\ sinv (disturbed s STick d) s'.
Proof.
  intros [Hok Hpc Hsl Htp Hb] Hlate. cbn [allowed] in Hlate. pose proof Hok as [Ht Hn Hd Hs Ha Hsf Hi Hto]. set (b := base s) in *.
  set (b' := put_tick (u32 (rt_tick b + 1)) b).
  assert (forall u, u ∈ rt_soft_timer_list b -> due b' u = due b u - 1) as Hdue.
  { intros u Hu. specialize (Hd u Hu). unfold LATE, LONGEST in Hd. revert Hd. unfold due, b'. cbn [put_tick tm rt_tick].
    unfold s32, swrap, u32. intros. divmod. }
  assert (soft_ok b') as Hok'.
  { split; try done.
    - apply u32_range.
    - intros u Hu. rewrite Hdue by done. specialize (Hd u Hu). specialize (Hlate u Hu). lia.
    - apply (sorted_ext (fun u => due b u - 1)); [exact Hdue|]. change (rt_soft_timer_list b') with (rt_soft_timer_list b).
      clear -Hs. unfold sorted_due in *. induction Hs as [|v l Hl IH Hv]; [constructor|].
      constructor; [done|]. eapply Forall_impl; [done|]. cbn. lia. }
  unfold soft_tick, on_base, bind, modify, gets. fold b. fold b'. cbn [pc base busy].
  assert (forall p, in_func p = in_func (pc s) -> pc_ok p ->
    (disturbed s STick d = false -> sleep_ok b' p) -> sinv (disturbed s STick d) (mk_soft b' p (busy s))) as Hgo.
  { intros p Ep Hp Hs'. split; cbn [base pc busy]; [done|done|done| |by rewrite Ep]. rewrite Ep. exact Htp. }
  cbn [disturbed] in *. destruct (pc s) as [| | | |[n|]| |t todo] eqn:Epc; try (eexists; split; [reflexivity|]; apply Hgo; done).
  destruct (Z.leb_spec n 1) as [Hn1|Hn1]; (eexists; split; [reflexivity|]; apply Hgo; [done|done|]); [done|].
  intros Hd0. destruct (Hsl Hd0) as [Hn0 Hle]. split; [lia|]. intros u Hu. rewrite Hdue by done. specialize (Hle u Hu). lia.
Qed.

Lemma other_sinv d s a :
  sinv d s -> allowed s a -> a <> SThread -> exists s', exec_soft a s = Some (tt, s') /\ sinv (disturbed s a d) s'.
Proof.
  intros Hi Hc Ha. pose proof (si_ok _ _ Hi) as Hok. destruct a as [| |t time per|t|t|t|t n|t p]; cbn [exec_soft allowed] in *; [done| | | | | | |].
  - by apply tick_sinv.
  - destruct Hc as (Hnl & Hnt & Hr & Hp). eexists. split; [reflexivity|].
    destruct (soft_put (fun _ => mk_timer false per true time 0) t (base s) Hok) as [Hok' Hd]; [done|done|done|].
    apply put_sinv; [by destruct (pc s)|done|done].
  - destruct (start_sinv d s t Hi) as (s' & E & Hi'). rewrite (bind_eq _ _ _ _ _ E). by exists s'.
  - destruct (soft_stopped t (base s) Hok) as (z & b' & E & Hok' & _ & Ho & Hn). unfold bind, on_base. rewrite E.
    eexists. split; [reflexivity|]. apply less_sinv; [done|eauto|done| |].
    + by apply (touched_less t).
    + apply Ho.
  - destruct (soft_removed t (base s) Hok) as (Hok' & _ & Ho). eexists. split; [reflexivity|].
    apply less_sinv; [done|eauto|done| |].
    + apply (touched_less t _ _ Ho). intros Hin. by apply without_elem in Hin as [? _].
    + intros u Hu. by apply without_elem in Hu as [_ Hu].
  - destruct Hc as (Hr & Hp). destruct (soft_set_time t n (base s) Hok Hr Hp) as (Hok' & _ & _). eexists. split; [reflexivity|].
    apply put_sinv; [by destruct (pc s)|done|done].
  - eexists. split; [reflexivity|].
    destruct (soft_put (with_periodic p) t (base s) Hok) as [Hok' _]; [done|apply Hok| |].
    + split; [apply (so_init _ Hok t)|done].
    + apply put_sinv; [by destruct (pc s)|done|done].
Qed.

(** ** The thread *)

(** How long the thread may go on by itself. *)
Definition weight (l : list timer_id) : nat := sum_list_with (fun t => length (timeout_func t) + 8)%nat l.
Definition rank s : nat :=
  weight (overdue s.(base)) +
  match s.(pc) with
  | Suspended _ => 0
  | AtSuspend | AtDelay _ => 1
  | AtTick next =>
      if (u32 (next - rt_tick s.(base)) <? RT_TICK_MAX / 2)%Z then 2
      else match overdue s.(base) with [] => 5 | _ => 2 end
  | AtLoop => 3
  | AtCheck => match overdue s.(base) with [] => 4 | _ => 1 end
  | InFunc _ todo => 5 + length todo
  end.

Lemma weight_sublist l l' : l `sublist_of` l' -> (weight l <= weight l')%nat.
Proof. unfold weight. induction 1; cbn; lia. Qed.

Lemma without_sublist t l : without t l `sublist_of` l.
Proof. apply sublist_filter. Qed.

(** No timeout function starts or stops the timer. *)
Definition left_alone t : Prop := forall u, t ∉ targets timeout_func u.

(** What a step of the thread does: the functions it calls are those of timers
    that are due, it comes nearer to its sleep, and a timer that is left alone
    is called or stays. *)
Definition progress s s' : Prop :=
  rt_tick s'.(base) = rt_tick s.(base) /\ (rank s' < rank s)%nat /\
  exists f, fired s'.(base) = fired s.(base) ++ f /\
    (forall t, t ∈ f -> t ∈ rt_soft_timer_list s.(base) /\ due s.(base) t <= 0) /\
    forall t, left_alone t -> t ∈ rt_soft_timer_list s.(base) ->
      t ∈ f \/ (t ∈ rt_soft_timer_list s'.(base) /\ tm s'.(base) t = tm s.(base) t).

Lemma progress_same s p : (rank (mk_soft s.(base) p s.(busy)) < rank s)%nat -> progress s (mk_soft s.(base) p s.(busy)).
Proof.
  intros Hr. split; [done|]. split; [done|]. exists []. rewrite app_nil_r. split; [done|]. split; [|by right].
  intros t Ht. by apply elem_of_nil in Ht.
Qed.

(** Moving on without touching the timers. *)
Lemma goto_good d d' s p :
  sinv d s -> in_func s.(pc) = None -> in_func p = None -> (d' = false -> sleep_ok s.(base) p) ->
  (rank (mk_soft s.(base) p s.(busy)) < rank s)%nat ->
  let s' := mk_soft s.(base) p s.(busy) in sinv d' s' /\ progress s s'.
Proof.
  intros [Hok Hpc Hsl Htp Hb] H1 H2 Hp Hr s'. split; [|by apply progress_same].
  split; cbn; [done|by destruct p|done| |by rewrite H2, Hb, H1]. intros t Ht. specialize (Htp t Ht). congruence.
Qed.

(** What a step of the thread is to achieve. *)
Definition thread_good (d : bool) s : Prop :=
  exists s', exec_soft SThread s = Some (tt, s') /\ sinv (disturbed s SThread d) s' /\ progress s s'.

Lemma loop_good d s : sinv d s -> s.(pc) = AtLoop -> thread_good d s.
Proof.
  intros Hi Epc. pose proof (si_ok _ _ Hi) as Hso. unfold thread_good. cbn [exec_soft disturbed].
  assert (in_func (pc s) = None) as Hnf by (by rewrite Epc).
  unfold rt_thread_timer_entry, bind, gets, on_base, goto, modify. rewrite Epc. cbn [pc base busy].
  destruct (rt_soft_timer_list (base s)) as [|t l] eqn:El.
  - rewrite Z.eqb_refl. eexists. split; [reflexivity|]. apply (goto_good d _ s); try done. unfold rank. cbn. rewrite Epc. lia.
  - unfold looks_empty. rewrite El. destruct (timeout_tick (tm (base s) t) =? RT_TICK_MAX) eqn:Emax; (eexists; split; [reflexivity|]).
    + apply (goto_good d _ s); try done. unfold rank. cbn. rewrite Epc. lia.
    + apply (goto_good d _ s); try done; [by exists t, l|]. unfold rank. cbn [base pc]. rewrite Epc.
      destruct (left_test (base s) t) as [-> _]; [apply Hso|apply (so_due _ Hso); rewrite El; apply list_elem_of_here|].
      case_bool_decide as Hd; [lia|]. pose proof (overdue_head (base s) t l Hso El) as Ho.
      rewrite decide_True in Ho by lia. destruct Ho as (l' & -> & _). lia.
Qed.

Lemma sleep_good d s : sinv d s -> s.(pc) = AtSuspend \/ (exists n, s.(pc) = AtDelay n) -> thread_good d s.
Proof.
  intros Hi Hpc. pose proof (si_sleep _ _ Hi) as Hok. unfold thread_good. cbn [exec_soft disturbed].
  unfold rt_thread_timer_entry, bind, gets, on_base, goto, modify.
  destruct Hpc as [Epc|[n Epc]]; rewrite Epc in *; (eexists; split; [reflexivity|]);
    (apply (goto_good d _ s); try done; [by rewrite Epc|unfold rank; cbn; rewrite Epc; lia]).
Qed.

Lemma tick_read_good d s next : sinv d s -> s.(pc) = AtTick next -> thread_good d s.
Proof.
  intros Hi Epc. pose proof (si_sleep _ _ Hi) as Hok. pose proof (si_ok _ _ Hi) as Hso. rewrite Epc in Hok.
  unfold thread_good. cbn [exec_soft disturbed].
  unfold rt_thread_timer_entry, bind, gets, on_base, goto, modify. rewrite Epc. cbn [pc base busy].
  destruct (u32 (next - rt_tick (base s)) <? RT_TICK_MAX / 2) eqn:Et;
    (eexists; split; [reflexivity|]; apply (goto_good d _ s); try done; try (by rewrite Epc)).
  - intros Hd0. destruct (Hok Hd0) as (t & l & El & ->).
    destruct (left_test (base s) t) as [Htest Hval]; [apply Hso|apply (so_due _ Hso); rewrite El; apply list_elem_of_here|].
    rewrite Et in Htest. symmetry in Htest. apply bool_decide_eq_true_1 in Htest. rewrite Hval by done.
    split; [done|]. intros u Hu. pose proof (so_sorted _ Hso) as Hs. rewrite El in Hs, Hu.
    inversion Hs as [|? ? _ Hall]; subst. rewrite Forall_forall in Hall. apply elem_of_cons in Hu as [->|Hu]; [lia|auto].
  - unfold rank. cbn [base pc]. rewrite Epc, Et. lia.
  - unfold rank. cbn [base pc]. rewrite Epc, Et. destruct (overdue (base s)); lia.
Qed.

Lemma on_base_gets {B} (f : timers -> B) s : on_base (gets f) s = Some (f s.(base), s).
Proof. by destruct s. Qed.

Lemma no_temp d s : sinv d s -> in_func s.(pc) = None -> temp_list s.(base) = [].
Proof.
  intros Hi Hn. destruct (temp_list (base s)) as [|t l] eqn:E; [done|]. exfalso.
  pose proof (si_temp _ _ Hi t) as Ht. rewrite E, Hn in Ht. discriminate Ht. apply list_elem_of_here.
Qed.

(** A timer that is due is taken off the list and its function is called. *)
Lemma call_good d s t l :
  sinv d s -> s.(pc) = AtCheck -> rt_soft_timer_list s.(base) = t :: l -> due s.(base) t <= 0 ->
  exists s', soft_check timeout_func s = Some (tt, s') /\ sinv d s' /\ progress s s'.
Proof.
  intros Hi Epc El Hd. pose proof (si_ok _ _ Hi) as Hso. assert (t ∈ rt_soft_timer_list (base s)) as Hin by (rewrite El; apply list_elem_of_here).
  pose proof (no_temp d s Hi ltac:(by rewrite Epc)) as Etemp. set (b := base s) in *.
  set (b1 := if periodic (tm b t) then removed t b else put_tm (with_active false) t (removed t b)).
  assert (tm b1 t = tm b t \/ tm b1 t = with_active false (tm b t)) as Etm
    by (unfold b1; destruct (periodic (tm b t)); [by left|right; by rewrite tm_put, decide_True]).
  destruct (soft_unlinked t b b1 Hso) as (Hok1 & Eo1 & [C1 C2 C3 C4]); try (unfold b1; by destruct (periodic (tm b t))).
  { intros u Hu. unfold b1. destruct (periodic (tm b t)); [done|]. by rewrite tm_put, decide_False. }
  { destruct Etm as [->| ->]; apply Hso. }
  { destruct Etm as [->| ->]; apply (so_init _ Hso t). }
  clear C3. assert (temp_list b1 = []) as C3
    by (transitivity (without t (temp_list b)); [unfold b1; by destruct (periodic (tm b t))|by rewrite Etemp]). set (b2 := log_call t (put_temp [t] b1)).
  assert (t ∉ rt_soft_timer_list b1) as Hnt
    by (unfold b1; destruct (periodic (tm b t)); intros Hx; by apply without_elem in Hx as [? _]).
  assert (soft_check timeout_func s = Some (tt, mk_soft b2 (InFunc t (timeout_func t)) true)) as ->.
  { unfold soft_check. rewrite (bind_eq _ _ _ _ _ (on_base_gets rt_soft_timer_list s)). fold b. rewrite El.
    rewrite (bind_eq _ _ _ _ _ (on_base_gets rt_tick s)), (bind_eq _ _ _ _ _ (on_base_gets (fun b => tm b t) s)). fold b.
    rewrite (late_test b t (so_tick _ Hso) (so_due _ Hso t Hin)), bool_decide_true by done.
    rewrite (bind_eq _ _ s tt (mk_soft (removed t b) (pc s) (busy s))) by done.
    rewrite (bind_eq _ _ _ tt (mk_soft b1 (pc s) (busy s))) by (unfold b1; by destruct (periodic (tm b t))).
    rewrite (bind_eq _ _ _ tt (mk_soft (put_temp [t] b1) (pc s) (busy s))) by (unfold on_base, modify; cbn [base]; by rewrite C3).
    done. }
  eexists. split; [reflexivity|]. split.
  - split; cbn [base pc busy in_func pc_ok].
    + destruct Hok1. split; try done. intros u Hu. change (u ∈ [t]) in Hu. by apply list_elem_of_singleton in Hu as ->.
    + by exists [].
    + done.
    + intros u Hu. change (u ∈ [t]) in Hu. by apply list_elem_of_singleton in Hu as ->.
    + by rewrite bool_decide_true.
  - split; [done|]. split.
    + pose proof (overdue_head b t l Hso El) as Ho. rewrite decide_True in Ho by done. destruct Ho as (l' & Eo & Ew).
      unfold rank. cbn [base pc]. rewrite Epc. change (overdue b2) with (overdue b1). fold b. rewrite Eo1, Ew, Eo. unfold weight. cbn. lia.
    + exists [t]. cbn [base]. change (fired b2) with (fired b1 ++ [t]). rewrite C2. split; [done|]. split.
      * intros u Hu. apply list_elem_of_singleton in Hu as ->. done.
      * intros u _ Hu. destruct (decide (u = t)) as [->|Hne]; [left; apply list_elem_of_here|right].
        destruct (C4 u Hne) as [E Hiff]. split; [by apply Hiff|done].
Qed.

Lemma check_good d s : sinv d s -> s.(pc) = AtCheck -> thread_good d s.
Proof.
  intros Hi Epc. pose proof (si_ok _ _ Hi) as Hso. unfold thread_good. cbn [exec_soft disturbed].
  rewrite Epc. unfold rt_thread_timer_entry.
  rewrite (bind_eq (gets pc) _ s AtCheck s) by (unfold gets; by rewrite Epc).
  assert (forall o, overdue (base s) = [] -> o = Some (tt, mk_soft (base s) AtLoop (busy s)) ->
    exists s', o = Some (tt, s') /\ sinv d s' /\ progress s s') as Hloop.
  { intros o Eo ->. eexists. split; [reflexivity|]. apply (goto_good d _ s); try done; [by rewrite Epc|].
    unfold rank. cbn. rewrite Epc, Eo. cbn. lia. }
  destruct (rt_soft_timer_list (base s)) as [|t l] eqn:El.
  { apply Hloop; [unfold overdue; by rewrite El|]. unfold soft_check, bind, on_base, gets. by rewrite El. }
  destruct (decide (due (base s) t <= 0)) as [Hd|Hd]; [by apply (call_good d s t l)|].
  pose proof (overdue_head (base s) t l Hso El) as Ho. rewrite decide_False in Ho by done. apply Hloop; [done|].
  unfold soft_check, bind, on_base, get_tm, gets. rewrite El. cbn [base pc busy].
  rewrite late_test, bool_decide_false; [done|done|apply Hso|]. apply (so_due _ Hso). rewrite El. apply list_elem_of_here.
Qed.

(** An operation on timer [u] in the timeout function. *)
Lemma touched_progress s b' p bz u :
  touched u s.(base) b' -> overdue b' `sublist_of` overdue s.(base) -> (forall t, left_alone t -> t ∈ rt_soft_timer_list s.(base) -> t <> u) ->
  (rank (mk_soft b' p bz) < rank s)%nat -> progress s (mk_soft b' p bz).
Proof.
  intros [C1 C2 C3 C4] Ho Hu Hr. split; [done|]. split; [done|]. exists []. rewrite app_nil_r. split; [done|]. split.
  - intros t Ht. by apply elem_of_nil in Ht.
  - intros t Ha Hin. right. destruct (C4 t (Hu t Ha Hin)) as [E Hiff]. split; [by apply Hiff|done].
Qed.

Lemma cmd_good d s t c todo : sinv d s -> s.(pc) = InFunc t (c :: todo) -> thread_good d s.
Proof.
  intros Hi Epc. pose proof Hi as [Hso Hpc _ Htp Hb]. rewrite Epc in Hpc, Htp, Hb. destruct Hpc as [before Ef]. cbn [in_func] in Htp, Hb.
  rewrite bool_decide_true in Hb by done. unfold thread_good. cbn [exec_soft disturbed].
  replace (match pc s with AtLoop => _ | _ => d end) with d by (by rewrite Epc). unfold rt_thread_timer_entry.
  rewrite (bind_eq (gets pc) _ s (InFunc t (c :: todo)) s) by (unfold gets; by rewrite Epc).
  assert (soft_cmd_ok c) as Hc. { pose proof (soft_funcs_ok t) as H. rewrite Ef in H. apply Forall_app in H as [_ H]. by inversion H. }
  assert (forall x, left_alone x -> x ∈ rt_soft_timer_list (base s) -> x <> target c) as Hne.
  { intros x Hx _ ->. apply (Hx t). unfold targets. rewrite Ef, fmap_app. apply elem_of_app. right. apply list_elem_of_here. }
  assert (forall b', soft_cmd c s = Some (tt, mk_soft b' (pc s) true) -> soft_ok b' -> touched (target c) (base s) b' ->
    overdue b' = without (target c) (overdue (base s)) ->
    exists s', (soft_cmd c ;;; goto (InFunc t todo)) s = Some (tt, s') /\ sinv d s' /\ progress s s') as Hgo.
  { intros b' E Hok' Ht Eo. rewrite (bind_eq _ _ _ _ _ E). eexists. split; [reflexivity|]. cbn [base pc busy]. split.
    - split; cbn [base pc busy in_func pc_ok]; [done| |done| |by rewrite bool_decide_true].
      + exists (before ++ [c]). by rewrite <- app_assoc.
      + intros x Hx. by apply Htp, (to_temp _ _ _ Ht).
    - apply (touched_progress s b' _ _ (target c)); [done|rewrite Eo; apply without_sublist|done|].
      unfold rank. cbn [base pc]. rewrite Epc. cbn [length]. rewrite Eo.
      pose proof (weight_sublist _ _ (without_sublist (target c) (overdue (base s)))). lia. }
  destruct c as [u n|u]; cbn [target soft_cmd soft_cmd_ok] in *.
  - destruct (soft_set_time u n (base s) Hso) as (Hs1 & Eo1 & _); [lia|lia|]. set (b1 := put_tm (with_init n) u (base s)) in *.
    destruct (soft_started u false b1 Hs1) as (b2 & E2 & Hs2 & [C1 C2 C3 C4] & _ & Eo2). cbv iota in E2.
    assert (init_tick (tm b1 u) = n) as Ei by (unfold b1; by rewrite tm_put, decide_True).
    apply (Hgo b2); [|done| |rewrite Eo2, Eo1 by lia; done].
    + rewrite (bind_eq _ _ s tt (mk_soft b1 (pc s) true)) by (unfold on_base, rt_timer_set_time, set_tm, modify; by rewrite Hb).
      unfold soft_timer_start, on_base, bind, get_tm, gets, id. cbn [base]. rewrite E2. cbn [base pc busy negb].
      rewrite andb_false_r. done.
    + split; [done|done|done|]. intros x Hx. destruct (C4 x Hx) as [E Hiff]. split; [|done].
      rewrite E. unfold b1. by rewrite tm_put, decide_False.
  - destruct (soft_stopped u (base s) Hso) as (z & b' & E & Hs' & Eo & Ho & _).
    apply (Hgo b'); [|done|done|done]. unfold soft_cmd, bind, on_base, ret. rewrite E. cbn. by rewrite Hb.
Qed.

Lemma return_good d s t : sinv d s -> s.(pc) = InFunc t [] -> thread_good d s.
Proof.
  intros Hi Epc. pose proof Hi as [Hso _ _ Htp _]. rewrite Epc in Htp. cbn [in_func] in Htp. set (b := base s) in *.
  unfold thread_good. cbn [exec_soft disturbed].
  replace (match pc s with AtLoop => _ | _ => d end) with d by (by rewrite Epc). unfold rt_thread_timer_entry. rewrite (bind_eq (gets pc) _ s (InFunc t []) s) by (unfold gets; by rewrite Epc).
  unfold soft_return. rewrite (bind_eq (set_busy false) _ s tt (mk_soft b (pc s) false)) by done.
  rewrite (bind_eq (goto AtCheck) _ _ tt (mk_soft b AtCheck false)) by done.
  rewrite (bind_eq _ _ _ _ _ (on_base_gets temp_list (mk_soft b AtCheck false))). cbn [base].
  assert (forall b', soft_ok b' -> temp_list b' = [] -> touched t b b' -> (t ∉ rt_soft_timer_list b \/ b' = b) ->
    overdue b' `sublist_of` overdue b -> sinv d (mk_soft b' AtCheck false) /\ progress s (mk_soft b' AtCheck false)) as Hgo.
  { intros b' Hok' Et Ht Hn Ho. split.
    - split; cbn; [done|done|done| |done]. intros u. rewrite Et. intros Hu. by apply elem_of_nil in Hu.
    - assert (rank (mk_soft b' AtCheck false) < rank s)%nat as Hr.
      { unfold rank. cbn [base pc]. rewrite Epc. fold b. pose proof (weight_sublist _ _ Ho). cbn [length]. destruct (overdue b'); lia. }
      destruct Hn as [Hn| ->]; [apply (touched_progress s b' _ _ t); try done; by intros x _ Hx ->|].
      destruct Ht as [C1 C2 _ _]. split; [done|]. split; [done|]. exists []. rewrite app_nil_r. split; [done|]. split; [|by right].
      intros u Hu. by apply elem_of_nil in Hu. }
  destruct (temp_list b) as [|v l] eqn:Et.
  { eexists. split; [reflexivity|]. apply Hgo; [done|done|by split|by right|done]. }
  assert (v = t) as -> by (specialize (Htp v (list_elem_of_here _ _)); congruence).
  assert (t ∉ rt_soft_timer_list b) as Hnt by (apply (so_temp _ Hso); rewrite Et; apply list_elem_of_here).
  assert (without t (temp_list b) = []) as Ew.
  { rewrite Et. clear -Htp. induction (t :: l) as [|x r IH]; [done|]. unfold without.
    assert (Some t = Some x) as [= <-] by (apply Htp, list_elem_of_here). rewrite filter_cons_False by auto.
    apply IH. intros u Hu. apply Htp. by apply list_elem_of_further. }
  set (b1 := put_temp [] b). rewrite (bind_eq _ _ _ tt (mk_soft b1 AtCheck false)) by (unfold on_base, modify; cbn [base]; by rewrite Ew).
  rewrite (bind_eq _ _ _ _ _ (on_base_gets (fun b => tm b t) (mk_soft b1 AtCheck false))). cbn [base].
  assert (soft_ok b1) as Hok1 by (destruct Hso; split; try done; intros u Hu; by apply elem_of_nil in Hu).
  assert (forall b', touched t b1 b' -> touched t b b') as Htr.
  { intros b' [C1 C2 C3 C4]. split; [done|done| |done]. intros u Hu. specialize (C3 u Hu). by apply elem_of_nil in C3. }
  change (tm b1 t) with (tm b t). destruct (periodic (tm b t) && activated (tm b t)) eqn:Ep; cbn [when].
  - destruct (soft_started t true b1 Hok1) as (b2 & E2 & Hok2 & Ht2 & Hn2 & Eo2). cbv iota in E2.
    rewrite (bind_eq _ _ _ tt (mk_soft (put_tm (with_active false) t b1) AtCheck false)) by done.
    unfold soft_timer_start, on_base, bind, get_tm, gets, id. cbn [base]. rewrite E2. cbn [base pc busy is_suspended].
    rewrite andb_false_r. eexists. split; [reflexivity|]. apply Hgo; [done| |by apply Htr|by left|].
    + destruct (temp_list b2) as [|x r] eqn:Ex; [done|]. pose proof (to_temp _ _ _ Ht2 x) as Hx. rewrite Ex in Hx.
      specialize (Hx (list_elem_of_here _ _)). by apply elem_of_nil in Hx.
    + rewrite Eo2; [apply (without_sublist t (overdue b))|]. apply andb_prop in Ep as [Ep _]. by apply (so_init _ Hso t).
  - eexists. split; [reflexivity|]. apply Hgo; [done|done|by apply Htr; split|by left|done].
Qed.

Lemma soft_thread_good d s : sinv d s -> allowed s SThread -> thread_good d s.
Proof.
  intros Hi Hns. cbn [allowed] in Hns. destruct (pc s) as [| |next|n|o| |t [|c todo]] eqn:Epc; cbn in Hns; try done.
  - by apply loop_good.
  - apply sleep_good; auto.
  - by apply (tick_read_good d s next).
  - apply sleep_good; eauto.
  - by apply check_good.
  - by apply (return_good d s t).
  - by apply (cmd_good d s t c todo).
Qed.

Lemma soft_act_good d s a :
  sinv d s -> allowed s a -> exists s', exec_soft a s = Some (tt, s') /\ sinv (disturbed s a d) s'.
Proof.
  intros Hi Hc. assert (a = SThread \/ a <> SThread) as [->|Ha] by (destruct a; (by left) || by right); [|by apply other_sinv].
  destruct (soft_thread_good d s Hi Hc) as (s' & E & Hi' & _). by exists s'.
Qed.

Lemma soft_reach_sinv d s : soft_reach d s -> sinv d s.
Proof.
  induction 1 as [s (Epc & Eb & Ht & El & Et & Hi)|d s a s' _ IH Hc E].
  - split; rewrite ?Epc; try done; [|rewrite Et; intros t Hin; by apply elem_of_nil in Hin].
    split; rewrite ?El, ?Et; try done; try (intros t Hin; by apply elem_of_nil in Hin).
    + constructor.
    + constructor.
    + intros t. apply Hi.
    + intros t. destruct (Hi t) as (_ & -> & ->). unfold LONGEST. split; [lia|done].
  - destruct (soft_act_good d s a IH Hc) as (s2 & E2 & Hi). congruence.
Qed.

(** The thread runs by itself for [n] steps. *)
Inductive thread_runs : nat -> bool -> soft_sys -> bool -> soft_sys -> Prop :=
| runs_O d s : thread_runs 0 d s d s
| runs_S n d s s1 d2 s2 : allowed s SThread -> exec_soft SThread s = Some (tt, s1) ->
    thread_runs n (disturbed s SThread d) s1 d2 s2 -> thread_runs (S n) d s d2 s2.

Lemma runs_good n d s d' s' :
  thread_runs n d s d' s' -> sinv d s ->
  sinv d' s' /\ (n <= rank s)%nat /\
  exists f, fired s'.(base) = fired s.(base) ++ f /\
    forall t, left_alone t -> t ∈ rt_soft_timer_list s.(base) ->
      t ∈ f \/ (t ∈ rt_soft_timer_list s'.(base) /\ due s'.(base) t = due s.(base) t).
Proof.
  induction 1 as [d s|n d s s1 d2 s2 Hc E _ IH]; intros Hi.
  - split; [done|]. split; [lia|]. exists []. rewrite app_nil_r. split; [done|by right].
  - destruct (soft_thread_good d s Hi Hc) as (s1' & E1 & Hi1 & Etk & Hr & f1 & Ef1 & _ & Hk1). assert (s1' = s1) as -> by congruence.
    destruct (IH Hi1) as (Hi2 & Hn & f2 & Ef2 & Hk2). split; [done|]. split; [lia|].
    exists (f1 ++ f2). rewrite Ef2, Ef1, app_assoc. split; [done|].
    intros t Ha Hin. destruct (Hk1 t Ha Hin) as [?|[Hin1 Etm]]; [left; apply elem_of_app; by left|].
    destruct (Hk2 t Ha Hin1) as [?|[Hin2 Ed]]; [left; apply elem_of_app; by right|right]. split; [done|].
    rewrite Ed. by apply due_same; [|rewrite Etm].
Qed.

(** ** Service *)


End system.

(** ** Examples *)

Definition no_func (t : timer_id) : list cmd := [].
Definition boot_soft (tick : Z) : soft_sys :=
  mk_soft (mk_timers tick [] [] [] (fun _ => mk_timer false false true 0 0) []) AtLoop false.
Definition after_soft s (a : sact) : soft_sys := default s (snd <$> exec_soft no_func a s).

Lemma no_func_soft t : Forall soft_cmd_ok (no_func t).
Proof. constructor. Qed.

Lemma after_reach d d' s a :
  soft_reach no_func d s -> allowed s a -> disturbed s a d = d' -> soft_reach no_func d' (after_soft s a).
Proof.
  intros Hr Hc <-.
  destruct (soft_act_good no_func no_func_soft d s a (soft_reach_sinv no_func no_func_soft d s Hr) Hc) as (s' & E & _).
  unfold after_soft. rewrite E. by apply (soft_step no_func d s a).
Qed.

(** The thread alone, with the flag. *)
Fixpoint run_flag (n : nat) (d : bool) s : bool * soft_sys :=
  match n with
  | O => (d, s)
  | S n => run_flag n (disturbed s SThread d) (after_soft s SThread)
  end.

Fixpoint awake (n : nat) s : bool :=
  match n with
  | O => true
  | S n => negb (is_suspended s.(pc)) && awake n (after_soft s SThread)
  end.

Lemma runs_awake n d s :
  soft_reach no_func d s -> awake n s = true ->
  thread_runs no_func n d s (run_flag n d s).1 (run_flag n d s).2.
Proof.
  revert d s. induction n as [|n IH]; intros d s Hr Ha; [apply runs_O|].
  cbn [awake] in Ha. apply andb_prop in Ha as [Hs%negb_true_iff Ha]. cbn [run_flag].
  destruct (soft_act_good no_func no_func_soft d s SThread (soft_reach_sinv no_func no_func_soft _ _ Hr) Hs)
    as (s1 & E & _).
  apply (runs_S _ n d s s1); [done|done|].
  replace s1 with (after_soft s SThread) by (unfold after_soft; by rewrite E).
  apply IH; [|done]. by apply (after_reach d).
Qed.

(** Timer 0, set to 3 ticks, is one tick late when the thread runs, and the tick
    has wrapped around. *)
Definition late_soft : soft_sys :=
  foldl after_soft (boot_soft 0xfffffffe) [SInit 0%nat 3 false; SStart 0%nat; STick; STick; STick; STick].

Lemma late_reach : soft_reach no_func false late_soft.
Proof.
  unfold late_soft. cbn [foldl].
  do 4 (apply (after_reach false);
        [|intros t Ht; apply list_elem_of_singleton in Ht as ->; by vm_compute|reflexivity]).
  apply (after_reach false); [|exact I|reflexivity].
  apply (after_reach false); [|unfold LONGEST; split_and!; try done; try lia; apply not_elem_of_nil|reflexivity].
  apply soft_start. by split_and!.
Qed.

Definition served_soft : bool * soft_sys := run_flag 7 false late_soft.

Lemma served_runs : thread_runs no_func 7 false late_soft served_soft.1 served_soft.2.
Proof. apply runs_awake; [exact late_reach|vm_compute; reflexivity]. Qed.


(** ** What goes wrong *)

(** A timer that is started after the thread has found the list empty, before it
    is suspended: the thread is not woken, and no tick wakes it. *)
Theorem soft_wakeup_lost :
  let s := foldl after_soft (boot_soft 0) [SInit 0%nat 3 false; SThread; SStart 0%nat; SThread] in
  s.(pc) = Suspended None /\ rt_soft_timer_list s.(base) = [0%nat] /\
  forall n, (foldl after_soft s (replicate n STick)).(pc) = Suspended None.
Proof.
  intros s. split; [by vm_compute|]. split; [by vm_compute|]. assert (pc s = Suspended None) as E by (by vm_compute).
  clearbody s. intros n. revert s E. induction n as [|n IH]; intros s E; [done|]. cbn [replicate foldl]. apply IH.
  unfold after_soft. cbn [exec_soft]. unfold soft_tick, on_base, bind, modify, gets. cbn [pc]. by rewrite E.
Qed.

(** The tick RT_TICK_MAX means that there is no timer: a timer that is due at
    exactly this tick is not served. *)
Theorem last_tick_means_no_timer :
  let s := foldl after_soft (boot_soft 0xfffffff0) [SInit 0%nat 15 false; SStart 0%nat; SThread; SThread] in
  s.(pc) = Suspended None /\ rt_soft_timer_list s.(base) = [0%nat] /\ due s.(base) 0%nat = 15.
Proof. cbv zeta. split; [by vm_compute|]. split; by vm_compute. Qed.

End SoftSystem.
