(* ===== verification/AtClient.v ===== *)
(** * The AT client

    src/rt-thread/components/net/at/src/at_client.c: the text protocol with the
    network module.  A parser thread reads the module's bytes line by line; a
    line is an unsolicited result code (URC), whose function it calls, or a part
    of the response to the command in progress.  [at_obj_exec_cmd] sends a
    command and waits for the end of the response; it is cut at its wait.

    The bytes that the serial device has received and nobody has read yet are
    [rx]; [at_client_getchar] takes the first one, and a function that finds no
    byte waits.  A string constant is the list of its characters without the
    final 0.  [resp_notice] is the number of units of the semaphore that have not
    been taken (the [credit] of SemaphoreSystem.v): a thread that waits can take
    one when there is one, and can time out at any time. *)

From Stdlib Require Import ZArith Lia.
From stdpp Require Import prelude functions list.
From S2P Require Import Prelude Kernel.
Open Scope Z_scope.
Open Scope c_scope.

Module AtClient.

Definition RT_ENOMEM : Z := 5.
Definition RT_EBUSY : Z := 7.

(** ["OK"], ["ERROR"], ["FAIL"] *)
Definition AT_RESP_END_OK : list Z := [79; 75].
Definition AT_RESP_END_ERROR : list Z := [69; 82; 82; 79; 82].
Definition AT_RESP_END_FAIL : list Z := [70; 65; 73; 76].

Definition AT_RESP_OK : Z := 0.
Definition AT_RESP_ERROR : Z := -1.
Definition AT_RESP_TIMEOUT : Z := -2.
Definition AT_RESP_BUFF_FULL : Z := -3.

(** [func] names the function that is called. *)
Record at_urc := mk_urc {
  cmd_prefix : list Z;
  cmd_suffix : list Z;
  func : option nat
}.

Record at_response := mk_resp {
  buf : list Z;
  buf_size : Z;
  buf_len : Z;
  line_num : Z;
  line_counts : Z;
  timeout : Z
}.

(** A response object is named by a number.  [cli] is
    [status == AT_STATUS_CLI]. *)
Record at_client := mk_client {
  cli : bool;
  end_sign : Z;
  recv_line_buf : list Z;
  recv_line_len : Z;
  recv_bufsz : Z;
  resp : option nat;
  resp_notice : Z;
  resp_status : Z;
  urc_table : list (list at_urc)
}.

(** The client with the response objects of its users, the unread bytes, and the
    calls of URC functions so far, each with its line and the bytes that were
    unread then, the last one first. *)
Record at_sys := mk_at {
  client : at_client;
  responses : nat -> at_response;
  rx : list Z;
  urc_calls : list (nat * list Z * list Z)
}.

Abbreviation A := (M at_sys).

Definition on_client (f : at_client -> at_client) : A unit :=
  modify (fun s => mk_at (f s.(client)) s.(responses) s.(rx) s.(urc_calls)).
Definition set_resp (r : nat) (x : at_response) : A unit :=
  modify (fun s => mk_at s.(client) (<[r := x]> s.(responses)) s.(rx) s.(urc_calls)).

Definition with_line (l : list Z) (n : Z) (c : at_client) : at_client :=
  mk_client c.(cli) c.(end_sign) l n c.(recv_bufsz) c.(resp) c.(resp_notice) c.(resp_status) c.(urc_table).
Definition with_resp (r : option nat) (c : at_client) : at_client :=
  mk_client c.(cli) c.(end_sign) c.(recv_line_buf) c.(recv_line_len) c.(recv_bufsz) r c.(resp_notice) c.(resp_status) c.(urc_table).
Definition with_notice (n : Z) (c : at_client) : at_client :=
  mk_client c.(cli) c.(end_sign) c.(recv_line_buf) c.(recv_line_len) c.(recv_bufsz) c.(resp) n c.(resp_status) c.(urc_table).
Definition with_status (x : Z) (c : at_client) : at_client :=
  mk_client c.(cli) c.(end_sign) c.(recv_line_buf) c.(recv_line_len) c.(recv_bufsz) c.(resp) c.(resp_notice) x c.(urc_table).

(** ** Functions of kservice.c on memory

    [cs]: the bytes from the pointer to the end of its array; reading behind it
    is undefined. *)

(** Against a constant of [count] characters or more. *)
Fixpoint rt_strncmp (cs ct : list Z) (count : nat) {struct count} : option Z :=
  match count with
  | O => Some 0
  | S count =>
      match cs, ct with
      | c :: cs, d :: ct =>
          let res := s8 (c - d) in
          if negb (res =? 0) || (c =? 0) then Some res else rt_strncmp cs ct count
      | _, _ => None
      end
  end.

Fixpoint rt_memcmp (cs ct : list Z) {struct ct} : option Z :=
  match ct with
  | [] => Some 0
  | d :: ct =>
      match cs with
      | c :: cs => let res := c - d in if negb (res =? 0) then Some res else rt_memcmp cs ct
      | [] => None
      end
  end.

Fixpoint rt_strlen (cs : list Z) : option nat :=
  match cs with
  | [] => None
  | c :: cs => if c =? 0 then Some O else S <$> rt_strlen cs
  end.

(** [l1] is what is left of the string; the result is whether it is found. *)
Fixpoint strstr_from (l1 : nat) (s1 s2 : list Z) {struct l1} : option bool :=
  if (l1 <? length s2)%nat then Some false
  else
    match rt_memcmp s1 s2 with
    | Some res =>
        if res =? 0 then Some true
        else match l1, s1 with S l1, _ :: s1 => strstr_from l1 s1 s2 | _, _ => Some false end
    | None => None
    end.

Definition rt_strstr (s1 s2 : list Z) : option bool :=
  match s2 with
  | [] => Some true
  | _ => l1 ← rt_strlen s1; strstr_from l1 s1 s2
  end.

(** Writing [l] at [i]; outside of the array it is undefined. *)
Definition mem_write (i : Z) (l mem : list Z) : option (list Z) :=
  if (0 <=? i) && (i + Z.of_nat (length l) <=? Z.of_nat (length mem))
  then Some (take (Z.to_nat i) mem ++ l ++ drop (Z.to_nat i + length l) mem) else None.

(** Lifting a result that may be undefined. *)
Definition run {B} (x : option B) : A B := match x with Some v => ret v | None => undefined end.

(** ** Receiving *)

Definition urc_matches (buffer : list Z) (bufsz : Z) (u : at_urc) : option bool :=
  let prefix_len := length u.(cmd_prefix) in
  let suffix_len := length u.(cmd_suffix) in
  if bufsz <? Z.of_nat (prefix_len + suffix_len) then Some false
  else
    p ← rt_strncmp buffer u.(cmd_prefix) prefix_len;
    if negb (p =? 0) then Some false
    else
      q ← rt_strncmp (drop (Z.to_nat (bufsz - Z.of_nat suffix_len)) buffer) u.(cmd_suffix) suffix_len;
      Some (q =? 0).

Fixpoint find_urc (buffer : list Z) (bufsz : Z) (l : list at_urc) : option (option at_urc) :=
  match l with
  | [] => Some None
  | u :: l =>
      b ← urc_matches buffer bufsz u;
      if (b : bool) then Some (Some u) else find_urc buffer bufsz l
  end.

Definition get_urc_obj (c : at_client) : option (option at_urc) :=
  find_urc c.(recv_line_buf) c.(recv_line_len) (concat c.(urc_table)).

(** The next byte; [None] when there is none and the thread waits. *)
Definition at_client_getchar : A (option Z) :=
  fun s =>
    match s.(rx) with
    | [] => Some (None, s)
    | ch :: l => Some (Some ch, mk_at s.(client) s.(responses) l s.(urc_calls))
    end.

(** [size] bytes; 0 and what is there is lost when they do not come in time,
    that is, when [rx] has not got them. *)
Fixpoint at_client_obj_recv (size : nat) (got : list Z) : A (Z * list Z) :=
  match size with
  | O => ret (Z.of_nat (length got), got)
  | S size =>
      c <- at_client_getchar ;;
      match c with
      | Some ch => at_client_obj_recv size (got ++ [ch])
      | None => ret (0, got)
      end
  end.

(** What a line ends with: a new line, the end sign or a URC. *)
Definition line_ends (ch last_ch : Z) (c : at_client) : option bool :=
  if ((ch =? 10) && (last_ch =? 13)) || (truthy c.(end_sign) && (ch =? c.(end_sign))) then Some true
  else u ← get_urc_obj c; Some (bool_decide (is_Some u)).

(** The loop of [at_recv_readline], for the bytes [input] that are there; [None]
    as result: it waits for more. *)
Fixpoint readline_from (input : list Z) (read_len last_ch : Z) (is_full : bool) : A (option Z) :=
  match input with
  | [] => ret None
  | _ :: input =>
      c <- at_client_getchar ;;
      match c with
      | None => undefined
      | Some ch =>
          x <- gets client ;;
          (if read_len <? x.(recv_bufsz)
           then l <- run (mem_write read_len [ch] x.(recv_line_buf)) ;; on_client (with_line l (read_len + 1))
           else ret tt) ;;;
          let is_full := is_full || negb (read_len <? x.(recv_bufsz)) in
          let read_len := if read_len <? x.(recv_bufsz) then read_len + 1 else read_len in
          x <- gets client ;;
          e <- run (line_ends ch last_ch x) ;;
          if (e : bool) then
            if is_full then
              on_client (with_line (replicate (Z.to_nat x.(recv_bufsz)) 0) 0) ;;;
              ret (Some (- RT_EFULL))
            else ret (Some read_len)
          else readline_from input read_len ch is_full
      end
  end.

Definition at_recv_readline : A (option Z) :=
  on_client (fun c => with_line (replicate (Z.to_nat c.(recv_bufsz)) 0) 0 c) ;;;
  input <- gets rx ;;
  readline_from input 0 0 false.

(** ** The parser *)

Section parser.
(** What a URC function does to the bytes that follow its line. *)
Context (urc_func : nat -> list Z -> list Z -> list Z).

(** The end of a response: the new status, or that it goes on. *)
Definition response_end (line : list Z) (r : at_response) : option (option Z) :=
  ok ← rt_memcmp line AT_RESP_END_OK;
  if (ok =? 0) && (r.(line_num) =? 0) then Some (Some AT_RESP_OK)
  else
    err ← rt_strstr line AT_RESP_END_ERROR;
    if (err : bool) then Some (Some AT_RESP_ERROR)
    else
      fail ← rt_memcmp line AT_RESP_END_FAIL;
      if fail =? 0 then Some (Some AT_RESP_ERROR)
      else if (r.(line_counts) =? r.(line_num)) && truthy r.(line_num) then Some (Some AT_RESP_OK)
      else Some None.

(** A line of the response [r] in progress. *)
Definition parse_response (r : nat) : A unit :=
  c <- gets client ;;
  line <- run (mem_write (c.(recv_line_len) - 1) [0] c.(recv_line_buf)) ;;
  on_client (with_line line c.(recv_line_len)) ;;;
  x <- gets (fun s => s.(responses) r) ;;
  (if x.(buf_len) + c.(recv_line_len) <? x.(buf_size) then
     b <- run (mem_write x.(buf_len) (take (Z.to_nat c.(recv_line_len)) line) x.(buf)) ;;
     set_resp r (mk_resp b x.(buf_size) (x.(buf_len) + c.(recv_line_len)) x.(line_num) (x.(line_counts) + 1) x.(timeout))
   else on_client (with_status AT_RESP_BUFF_FULL)) ;;;
  x <- gets (fun s => s.(responses) r) ;;
  e <- run (response_end line x) ;;
  match e with
  | None => ret tt
  | Some status =>
      on_client (with_status status) ;;;
      on_client (with_resp None) ;;;
      on_client (fun c => with_notice (c.(resp_notice) + 1) c)
  end.

(** The body of the loop of [client_parser] after a line has been read. *)
Definition parse_line : A unit :=
  c <- gets client ;;
  u <- run (get_urc_obj c) ;;
  match u with
  | Some u =>
      match u.(func) with
      | Some f =>
          let line := take (Z.to_nat c.(recv_line_len)) c.(recv_line_buf) in
          modify (fun s => mk_at s.(client) s.(responses) (urc_func f line s.(rx)) ((f, line, s.(rx)) :: s.(urc_calls)))
      | None => ret tt
      end
  | None =>
      match c.(resp) with
      | Some r => parse_response r
      | None => ret tt
      end
  end.

(** One round; [false]: it waits in the middle of a line. *)
Definition client_parser : A bool :=
  n <- at_recv_readline ;;
  match n with
  | None => ret false
  | Some n => (if 0 <? n then parse_line else ret tt) ;;; ret true
  end.
End parser.

(** ** Executing a command *)

Inductive outcome := Done (code : Z) | Waits.

(** [at_obj_exec_cmd] up to its wait; the client's lock is held from here to its
    return.  Sending the command does not change the client.  One step, although
    the parser may run between [client->resp = resp] and the reset of the
    response. *)
Definition at_obj_exec_cmd (r : option nat) : A outcome :=
  c <- gets client ;;
  if c.(cli) && bool_decide (is_Some r) then ret (Done (- RT_EBUSY))
  else
    on_client (with_status AT_RESP_OK) ;;;
    on_client (with_resp r) ;;;
    match r with
    | Some r =>
        x <- gets (fun s => s.(responses) r) ;;
        set_resp r (mk_resp x.(buf) x.(buf_size) 0 x.(line_num) 0 x.(timeout)) ;;;
        ret Waits
    | None =>
        on_client (with_resp None) ;;;
        ret (Done RT_EOK)
    end.

(** [rt_sem_take] has returned RT_EOK; only with a unit there. *)
Definition exec_notified : A Z :=
  on_client (fun c => with_notice (c.(resp_notice) - 1) c) ;;;
  c <- gets client ;;
  on_client (with_resp None) ;;;
  ret (if negb (c.(resp_status) =? AT_RESP_OK) then - RT_ERROR else RT_EOK).

(** [rt_sem_take] has returned an error. *)
Definition exec_timed_out : A Z :=
  on_client (with_status AT_RESP_TIMEOUT) ;;;
  on_client (with_resp None) ;;;
  ret (- RT_ETIMEOUT).

(** ** Reading a response *)

(** The start of line [n], counted from [at_line]; the fuel is the number of
    lines left. *)
Fixpoint get_line_from (more : nat) (mem : list Z) (off : nat) (at_line n : Z) : option (option nat) :=
  match more with
  | O => Some None
  | S more =>
      if n =? at_line then Some (Some off)
      else l ← rt_strlen (drop off mem); get_line_from more mem (off + l + 1)%nat (at_line + 1) n
  end.

Definition at_resp_get_line (x : at_response) (n : Z) : option (option nat) :=
  if (x.(line_counts) <? n) || (n <=? 0) then Some None
  else get_line_from (Z.to_nat x.(line_counts)) x.(buf) 0 1 n.

Fixpoint get_line_kw_from (more : nat) (mem : list Z) (off : nat) (keyword : list Z) : option (option nat) :=
  match more with
  | O => Some None
  | S more =>
      b ← rt_strstr (drop off mem) keyword;
      if (b : bool) then Some (Some off)
      else l ← rt_strlen (drop off mem); get_line_kw_from more mem (off + l + 1)%nat keyword
  end.

Definition at_resp_get_line_by_kw (x : at_response) (keyword : list Z) : option (option nat) :=
  get_line_kw_from (Z.to_nat x.(line_counts)) x.(buf) 0 keyword.

(** ** Setting up *)

(** [resp_ok], [buf_ok]: there is memory for the object and its buffer.  Without
    it the result is NULL. *)
Definition at_create_resp (resp_ok buf_ok : bool) (r : nat) (size lines time : Z) : A (option nat) :=
  if resp_ok && buf_ok then
    set_resp r (mk_resp (replicate (Z.to_nat size) 0) size 0 lines 0 time) ;;;
    ret (Some r)
  else ret None.

Definition at_obj_set_end_sign (ch : Z) : A unit :=
  on_client (fun c => mk_client c.(cli) ch c.(recv_line_buf) c.(recv_line_len) c.(recv_bufsz) c.(resp)
                        c.(resp_notice) c.(resp_status) c.(urc_table)).

(** [ok]: the first allocation succeeds.  The one of the larger table is taken to
    succeed; the code loses the table when it does not. *)
Definition at_obj_set_urc_table (ok : bool) (t : list at_urc) : A Z :=
  if negb ok then ret (- RT_ENOMEM)
  else
    on_client (fun c => mk_client c.(cli) c.(end_sign) c.(recv_line_buf) c.(recv_line_len) c.(recv_bufsz) c.(resp)
                          c.(resp_notice) c.(resp_status) (c.(urc_table) ++ [t])) ;;;
    ret RT_EOK.

(** The client as [at_client_para_init] leaves it, in a table that was 0 before,
    when there is memory for everything. *)
Definition at_client_para_init (bufsz : Z) : at_client :=
  mk_client false 0 (replicate (Z.to_nat bufsz) 0) 0 bufsz None 0 AT_RESP_OK [].

End AtClient.
