(* ===== verification/AtLines.v ===== *)
(** * Lines from the network module

    What the string functions that the AT client uses compute, and how
    [at_recv_readline] cuts the bytes of the network module into lines
    (AtClient.v): a line ends with the first new line, end sign or unsolicited
    result code. *)

From Stdlib Require Import ZArith Lia.
From stdpp Require Import prelude functions list.
From S2P Require Import Prelude Kernel AtClient.
Import AtClient.
Open Scope Z_scope.
Open Scope c_scope.

(** ** Bytes and strings *)

Definition is_char (c : Z) : Prop := 0 <= c < 256.

(** The characters of a string constant. *)
Definition is_text (l : list Z) : Prop := Forall (fun c => 0 < c < 256) l.

Lemma s8_diff_zero c d : is_char c -> is_char d -> s8 (c - d) = 0 <-> c = d.
Proof. unfold is_char, s8, swrap. intros. change (2 ^ (8 - 1)) with 128. change (2 ^ 8) with 256. split; [|intros ->]; divmod. Qed.

Lemma strncmp_spec ct : forall cs,
  Forall is_char cs -> is_text ct -> (length ct <= length cs)%nat ->
  exists r, rt_strncmp cs ct (length ct) = Some r /\ (r = 0 <-> ct `prefix_of` cs).
Proof.
  induction ct as [|d ct IH]; intros cs Hc Ht Hl; cbn [length rt_strncmp].
  { exists 0. split; [done|]. split; [intros _; apply prefix_nil|done]. }
  destruct cs as [|c cs]; [cbn in Hl; lia|]. inversion Hc as [|? ? Hcc Hcs]. inversion Ht as [|? ? Hd Htt]. subst.
  pose proof (s8_diff_zero c d Hcc) as Hz. destruct (Z.eqb_spec (s8 (c - d)) 0) as [E|E]; cbn [negb orb].
  - apply Hz in E; [|unfold is_char; lia]. subst d. replace (c =? 0) with false by lia.
    destruct (IH cs Hcs Htt) as (r & Er & Hr); [cbn in Hl; lia|]. exists r. split; [done|]. rewrite Hr.
    split; [apply prefix_cons|apply prefix_cons_inv_2].
  - eexists. split; [reflexivity|]. split; [done|]. intros Hp%prefix_cons_inv_1. destruct E. apply Hz; [unfold is_char; lia|done].
Qed.

Lemma memcmp_spec ct : forall cs,
  (length ct <= length cs)%nat -> exists r, rt_memcmp cs ct = Some r /\ (r = 0 <-> ct `prefix_of` cs).
Proof.
  induction ct as [|d ct IH]; intros cs Hl; cbn [length rt_memcmp].
  { exists 0. split; [done|]. split; [intros _; apply prefix_nil|done]. }
  destruct cs as [|c cs]; [cbn in Hl; lia|]. destruct (Z.eqb_spec (c - d) 0) as [E|E]; cbn [negb].
  - assert (c = d) as -> by lia. destruct (IH cs) as (r & Er & Hr); [cbn in Hl; lia|]. exists r. split; [done|]. rewrite Hr.
    split; [apply prefix_cons|apply prefix_cons_inv_2].
  - eexists. split; [reflexivity|]. split; [done|]. intros Hp%prefix_cons_inv_1. lia.
Qed.

Lemma strlen_spec l rest : 0 ∉ l -> rt_strlen (l ++ 0 :: rest) = Some (length l).
Proof.
  induction l as [|c l IH]; intros Hn; cbn [app rt_strlen]; [done|]. apply not_elem_of_cons in Hn as [Hc Hn].
  replace (c =? 0) with false by (symmetry; apply Z.eqb_neq; auto). by rewrite IH.
Qed.

(** [s2] occurs in [s1]. *)
Definition occurs (s2 s1 : list Z) : Prop := exists k, s2 `prefix_of` drop k s1 /\ (k + length s2 <= length s1)%nat.

Lemma strstr_from_spec s2 rest : s2 <> [] -> forall s1,
  exists b, strstr_from (length s1) (s1 ++ rest) s2 = Some b /\ (b = true <-> occurs s2 s1).
Proof.
  intros Hne s1. induction s1 as [|c s1 IH].
  - exists false. split; [by destruct s2|]. split; [done|]. intros (k & _ & Hk). destruct s2; [done|]. cbn in Hk. lia.
  - cbn [length strstr_from]. destruct (Nat.ltb_spec (S (length s1)) (length s2)) as [Hlt|Hge].
    { exists false. split; [done|]. split; [done|]. intros (k & _ & Hk). cbn in Hk. lia. }
    destruct (memcmp_spec s2 ((c :: s1) ++ rest)) as (r & Er & Hr); [rewrite length_app; cbn; lia|]. rewrite Er.
    assert (s2 `prefix_of` (c :: s1) ++ rest <-> s2 `prefix_of` c :: s1) as Hpre.
    { split; [|intros; by apply prefix_app_r]. intros [k E]. exists (take (S (length s1) - length s2) k).
      apply (f_equal (take (S (length s1)))) in E. rewrite take_app_le in E by (cbn; lia).
      rewrite firstn_all2 in E by (cbn; lia). by rewrite take_app_ge in E by lia. }
    destruct (Z.eqb_spec r 0) as [E|E].
    + exists true. split; [done|]. split; [|done]. intros _. exists O. split; [by apply Hpre, Hr|cbn; lia].
    + cbn [app]. destruct IH as (b & Eb & Hb). rewrite Eb. exists b. split; [done|]. rewrite Hb. split.
      * intros (k & Hk & Hl). exists (S k). split; [done|cbn; lia].
      * intros ([|k] & Hk & Hl); [destruct E; apply Hr, Hpre, Hk|]. exists k. split; [done|cbn in Hl; lia].
Qed.

(** On a string in an array. *)
Lemma strstr_spec s2 s1 rest :
  0 ∉ s1 -> s2 <> [] -> exists b, rt_strstr (s1 ++ 0 :: rest) s2 = Some b /\ (b = true <-> occurs s2 s1).
Proof.
  intros H0 Hne. replace (rt_strstr (s1 ++ 0 :: rest) s2) with (l1 ← rt_strlen (s1 ++ 0 :: rest); strstr_from l1 (s1 ++ 0 :: rest) s2)
    by (by destruct s2).
  rewrite strlen_spec by done. by apply strstr_from_spec.
Qed.

Lemma mem_write_spec a b l c :
  length b = length l -> mem_write (Z.of_nat (length a)) l (a ++ b ++ c) = Some (a ++ l ++ c).
Proof.
  intros Hl. unfold mem_write. rewrite !length_app.
  rewrite (proj2 (Z.leb_le 0 _)), (proj2 (Z.leb_le _ (Z.of_nat (length a + _)))) by lia. cbn [andb]. rewrite Nat2Z.id, take_app_length.
  do 3 f_equal. rewrite <- Hl, drop_app_add. by rewrite drop_app_length.
Qed.

(** ** Unsolicited result codes *)

Definition urc_ok (u : at_urc) : Prop := is_text u.(cmd_prefix) /\ is_text u.(cmd_suffix).

(** The line is one of the code [u]. *)
Definition is_urc (line : list Z) (u : at_urc) : Prop :=
  u.(cmd_prefix) `prefix_of` line /\ u.(cmd_suffix) `suffix_of` line /\
  (length u.(cmd_prefix) + length u.(cmd_suffix) <= length line)%nat.

#[export] Instance is_urc_dec line u : Decision (is_urc line u).
Proof. unfold is_urc. apply _. Defined.

(** The first code of the table that the line is one of. *)
Fixpoint first_urc (line : list Z) (l : list at_urc) : option at_urc :=
  match l with
  | [] => None
  | u :: l => if decide (is_urc line u) then Some u else first_urc line l
  end.

Lemma suffix_drop (l1 l2 : list Z) : l1 `suffix_of` l2 <-> (length l1 <= length l2)%nat /\ drop (length l2 - length l1) l2 = l1.
Proof.
  split.
  - intros [k ->]. rewrite length_app. split; [lia|]. replace (length k + length l1 - length l1)%nat with (length k) by lia.
    apply drop_app_length.
  - intros [Hl E]. exists (take (length l2 - length l1) l2). rewrite <- E at 2. symmetry. apply take_drop.
Qed.

Lemma prefix_short (p l z : list Z) : (length p <= length l)%nat -> p `prefix_of` l ++ z <-> p `prefix_of` l.
Proof.
  intros Hl. split; [|apply prefix_app_r]. intros [k E]. exists (take (length l - length p) k).
  apply (f_equal (take (length l))) in E. rewrite take_app_length in E. by rewrite take_app_ge in E by lia.
Qed.

Lemma urc_matches_spec line z u :
  Forall is_char (line ++ z) -> urc_ok u ->
  urc_matches (line ++ z) (Z.of_nat (length line)) u = Some (bool_decide (is_urc line u)).
Proof.
  intros Hc [Hp Hs]. unfold urc_matches.
  destruct (Z.ltb_spec (Z.of_nat (length line)) (Z.of_nat (length (cmd_prefix u) + length (cmd_suffix u)))) as [Hlt|Hge].
  { rewrite bool_decide_eq_false_2; [done|]. intros (_ & _ & H). lia. }
  destruct (strncmp_spec (cmd_prefix u) (line ++ z)) as (r & -> & Hr); [done|done|rewrite length_app; lia|]. cbn.
  rewrite prefix_short in Hr by lia. destruct (Z.eqb_spec r 0) as [E|E]; cbn [negb].
  2:{ rewrite bool_decide_eq_false_2; [done|]. intros (H & _). by apply E, Hr. }
  apply Hr in E. set (n := Z.to_nat _). assert (n = (length line - length (cmd_suffix u))%nat) as -> by lia.
  destruct (strncmp_spec (cmd_suffix u) (drop (length line - length (cmd_suffix u)) (line ++ z))) as (q & -> & Hq).
  - by apply Forall_drop.
  - done.
  - rewrite length_drop, length_app. lia.
  - cbn. f_equal. rewrite drop_app_le in Hq by lia. rewrite prefix_short in Hq by (rewrite length_drop; lia).
    assert (cmd_suffix u `prefix_of` drop (length line - length (cmd_suffix u)) line <-> cmd_suffix u `suffix_of` line) as Hsuf.
    { rewrite suffix_drop. split.
      - intros Hpre. split; [lia|]. apply (prefix_length_eq _ _) in Hpre; [done|]. rewrite length_drop. lia.
      - intros [_ ->]. done. }
    destruct (Z.eqb_spec q 0) as [E0|E0].
    + rewrite bool_decide_eq_true_2; [done|]. split; [done|]. split; [by apply Hsuf, Hq|lia].
    + rewrite bool_decide_eq_false_2; [done|]. intros (_ & H & _). by apply E0, Hq, Hsuf.
Qed.

Lemma find_urc_spec line z l :
  Forall is_char (line ++ z) -> Forall urc_ok l ->
  find_urc (line ++ z) (Z.of_nat (length line)) l = Some (first_urc line l).
Proof.
  intros Hc Hl. induction Hl as [|u l Hu Hl IH]; [done|]. cbn [find_urc first_urc]. rewrite urc_matches_spec by done. cbn.
  destruct (decide (is_urc line u)); [by rewrite bool_decide_eq_true_2|]. by rewrite bool_decide_eq_false_2.
Qed.

(** ** Lines *)

(** The bytes [p] since the end of the last line end a line: with CR LF, with
    the end sign, or because what the buffer holds of them is a code. *)
Definition ends (c : at_client) (p : list Z) : bool :=
  bool_decide ([13; 10] `suffix_of` p) || (truthy c.(end_sign) && bool_decide ([c.(end_sign)] `suffix_of` p)) ||
  bool_decide (is_Some (first_urc (take (Z.to_nat c.(recv_bufsz)) p) (concat c.(urc_table)))).

(** The next line, given that [p] does not end one, and the bytes after it. *)
Fixpoint cut (c : at_client) (p input : list Z) : option (list Z * list Z) :=
  match input with
  | [] => None
  | ch :: input => if ends c (p ++ [ch]) then Some (p ++ [ch], input) else cut c (p ++ [ch]) input
  end.

Definition next_line (c : at_client) (input : list Z) : option (list Z * list Z) := cut c [] input.

(** It is the shortest one. *)
Lemma cut_spec c input : forall p,
  match cut c p input with
  | Some (q, rest) => exists k ch, q = p ++ k ++ [ch] /\ input = k ++ ch :: rest /\ ends c q = true /\
      forall k1 ch1 k2, k = k1 ++ ch1 :: k2 -> ends c (p ++ k1 ++ [ch1]) = false
  | None => forall k1 ch1 k2, input = k1 ++ ch1 :: k2 -> ends c (p ++ k1 ++ [ch1]) = false
  end.
Proof.
  induction input as [|ch input IH]; intros p; cbn [cut].
  { intros [|? k1] ch1 k2 E; done. }
  destruct (ends c (p ++ [ch])) eqn:E.
  - exists [], ch. split; [done|]. split; [done|]. split; [done|]. intros [|? k1] ch1 k2 E'; done.
  - specialize (IH (p ++ [ch])). destruct (cut c (p ++ [ch]) input) as [[q rest]|].
    + destruct IH as (k & ch' & -> & -> & Hq & Hk). exists (ch :: k), ch'. split; [by rewrite <- app_assoc|]. split; [done|].
      split; [done|]. intros [|b k1] ch1 k2 [= -> E']; [done|]. specialize (Hk k1 ch1 k2 E'). by rewrite <- app_assoc in Hk.
    + intros [|b k1] ch1 k2 [= -> E']; [done|]. specialize (IH k1 ch1 k2 E'). by rewrite <- app_assoc in IH.
Qed.

Lemma next_line_app c input q rest : next_line c input = Some (q, rest) -> input = q ++ rest /\ q <> [].
Proof.
  intros E. pose proof (cut_spec c input []) as H. unfold next_line in E. rewrite E in H.
  destruct H as (k & ch & -> & -> & _). cbn [app]. rewrite <- app_assoc. split; [done|]. by destruct k.
Qed.

(** ** The loop *)

Record client_ok (c : at_client) : Prop := {
  co_size : 8 <= c.(recv_bufsz) < 2 ^ 31;
  co_urcs : Forall urc_ok (concat c.(urc_table))
}.

(** The line buffer with the bytes [p] of the line in it. *)
Definition padded (n : Z) (p : list Z) : list Z :=
  take (Z.to_nat n) p ++ replicate (Z.to_nat n - length p) 0.

Definition at_line (l : list Z) (n : Z) (input : list Z) (s : at_sys) : at_sys :=
  mk_at (with_line l n s.(client)) s.(responses) input s.(urc_calls).

Lemma length_padded n p : 0 <= n -> length (padded n p) = Z.to_nat n.
Proof. intros Hn. unfold padded. rewrite length_app, length_take, length_replicate. lia. Qed.

Lemma padded_short n p : Z.of_nat (length p) <= n -> padded n p = p ++ replicate (Z.to_nat n - length p) 0.
Proof. intros Hl. unfold padded. by rewrite firstn_all2 by lia. Qed.

Lemma padded_chars n p : Forall is_char p -> Forall is_char (padded n p).
Proof. intros Hp. apply Forall_app. split; [by apply Forall_take|]. apply Forall_replicate. unfold is_char. lia. Qed.

(** Storing the next byte. *)
Lemma padded_snoc n p ch :
  Z.of_nat (length p) < n -> mem_write (Z.of_nat (length p)) [ch] (padded n p) = Some (padded n (p ++ [ch])).
Proof.
  intros Hl. rewrite !padded_short by (rewrite ?length_app; cbn; lia).
  replace (Z.to_nat n - length p)%nat with (S (Z.to_nat n - length (p ++ [ch]))) by (rewrite length_app; cbn; lia).
  cbn [replicate]. change (0 :: replicate _ 0) with ([0] ++ replicate (Z.to_nat n - length (p ++ [ch])) 0).
  rewrite mem_write_spec by done. by rewrite <- app_assoc.
Qed.

Lemma padded_full n p ch : n <= Z.of_nat (length p) -> padded n (p ++ [ch]) = padded n p.
Proof.
  intros Hl. unfold padded. rewrite take_app_le by lia. rewrite length_app.
  by replace (Z.to_nat n - (length p + length [ch]))%nat with (Z.to_nat n - length p)%nat by (cbn; lia).
Qed.

Lemma newline_suffix (p : list Z) ch :
  (ch =? 10) && (default 0 (last p) =? 13) = bool_decide ([13; 10] `suffix_of` p ++ [ch]).
Proof.
  apply eq_bool_prop_intro. rewrite bool_decide_spec, Is_true_true, andb_true_iff, !Z.eqb_eq. split.
  - intros [-> E]. destruct p as [|x p _] using rev_ind; [done|]. rewrite last_snoc in E. cbn in E. subst.
    exists p. by rewrite <- app_assoc.
  - intros [k E]. change [13; 10] with ([13] ++ [10]) in E. rewrite app_assoc in E. apply app_inj_tail in E as [-> ->].
    by rewrite last_snoc.
Qed.

Lemma sign_suffix (p : list Z) ch e : (ch =? e) = bool_decide ([e] `suffix_of` p ++ [ch]).
Proof.
  apply eq_bool_prop_intro. rewrite bool_decide_spec, Is_true_true, Z.eqb_eq. split.
  - intros ->. by exists p.
  - intros [k E]. by apply app_inj_tail in E as [_ ->].
Qed.

(** The test at the end of a round. *)
Lemma line_ends_spec c p ch n :
  client_ok c -> Forall is_char (p ++ [ch]) -> n = Z.min (Z.of_nat (length (p ++ [ch]))) (recv_bufsz c) ->
  line_ends ch (default 0 (last p)) (with_line (padded (recv_bufsz c) (p ++ [ch])) n c) = Some (ends c (p ++ [ch])).
Proof.
  intros [Hs Hu] Hc ->. unfold line_ends, ends, get_urc_obj. cbn [end_sign with_line recv_line_buf recv_line_len urc_table].
  rewrite newline_suffix, (sign_suffix p ch). destruct (_ || _); [done|]. cbn [orb].
  set (l := take (Z.to_nat (recv_bufsz c)) (p ++ [ch])).
  assert (Z.min (Z.of_nat (length (p ++ [ch]))) (recv_bufsz c) = Z.of_nat (length l)) as ->.
  { unfold l. rewrite length_take. lia. }
  unfold padded. fold l. rewrite find_urc_spec; [done| |done]. by apply padded_chars.
Qed.

(** What [at_recv_readline] has done when it returns, or waits. *)
Definition line_read (n : Z) (p input : list Z) (s : at_sys) (o : option (list Z * list Z)) : option Z * at_sys :=
  match o with
  | Some (q, rest) =>
      if Z.of_nat (length q) <=? n
      then (Some (Z.of_nat (length q)), at_line (padded n q) (Z.of_nat (length q)) rest s)
      else (Some (- RT_EFULL), at_line (replicate (Z.to_nat n) 0) 0 rest s)
  | None => (None, at_line (padded n (p ++ input)) (Z.min (Z.of_nat (length (p ++ input))) n) [] s)
  end.

Lemma readline_loop s input : forall p,
  let n := recv_bufsz (client s) in
  let len := Z.of_nat (length p) in
  client_ok (client s) -> Forall is_char (p ++ input) ->
  readline_from input (Z.min len n) (default 0 (last p)) (n <? len) (at_line (padded n p) (Z.min len n) input s)
    = Some (line_read n p input s (cut (client s) p input)).
Proof.
  induction input as [|ch input IH]; intros p n len Hok Hc; cbn [readline_from cut].
  { cbn [line_read]. by rewrite app_nil_r. }
  pose proof (co_size _ Hok) as Hn. fold n in Hn.
  assert (Forall is_char (p ++ [ch])) as Hcp.
  { apply Forall_app in Hc as [Hp Hi]. inversion Hi. apply Forall_app. split; [done|]. by constructor. }
  assert (Forall is_char ((p ++ [ch]) ++ input)) as Hc' by (by rewrite <- app_assoc).
  assert (Z.of_nat (length (p ++ [ch])) = len + 1) as El by (rewrite length_app; cbn; lia).
  unfold bind at 1, at_client_getchar. cbn [rx at_line client]. unfold bind at 1, gets at 1. cbn [client recv_bufsz with_line].
  change (recv_bufsz (client s)) with n. set (s1 := at_line (padded n (p ++ [ch])) (Z.min (len + 1) n) input s).
  assert ((if Z.min len n <? n
           then l <- run (mem_write (Z.min len n) [ch] (recv_line_buf (with_line (padded n p) (Z.min len n) (client s)))) ;;
                on_client (with_line l (Z.min len n + 1)) else ret tt)
            (mk_at (with_line (padded n p) (Z.min len n) (client s)) (responses s) input (urc_calls s)) = Some (tt, s1)) as E1.
  { unfold s1. destruct (Z.ltb_spec (Z.min len n) n) as [Hlt|Hge].
    - replace (Z.min len n) with len in * by lia. cbn [recv_line_buf with_line]. unfold len. rewrite padded_snoc by lia.
      by replace (Z.min (Z.of_nat (length p) + 1) n) with (Z.of_nat (length p) + 1) by lia.
    - rewrite padded_full by lia. by replace (Z.min (len + 1) n) with (Z.min len n) by lia. }
  rewrite (bind_eq _ _ _ _ _ E1). unfold bind at 1, gets at 1. change (client s1) with (with_line (padded n (p ++ [ch])) (Z.min (len + 1) n) (client s)).
  rewrite (line_ends_spec (client s) p ch) by (done || by rewrite El). unfold bind at 1, run at 1, ret at 1.
  replace ((n <? len) || negb (Z.min len n <? n)) with (n <? len + 1) by lia.
  replace (if Z.min len n <? n then Z.min len n + 1 else Z.min len n) with (Z.min (len + 1) n) by (destruct (Z.ltb_spec (Z.min len n) n); lia).
  destruct (ends (client s) (p ++ [ch])) eqn:Ee.
  - cbn [line_read]. rewrite El. destruct (Z.ltb_spec n (len + 1)) as [Hlt|Hge].
    + replace (len + 1 <=? n) with false by lia. done.
    + replace (len + 1 <=? n) with true by lia. unfold s1. by replace (Z.min (len + 1) n) with (len + 1) by lia.
  - specialize (IH (p ++ [ch]) Hok Hc'). cbv zeta in IH. rewrite El, last_snoc in IH. change (default 0 (Some ch)) with ch in IH. fold n s1 in IH. rewrite IH.
    destruct (cut (client s) (p ++ [ch]) input) as [[q rest]|]; [done|]. cbn [line_read]. by rewrite <- app_assoc.
Qed.

Lemma readline_spec s :
  client_ok (client s) -> Forall is_char (rx s) ->
  at_recv_readline s = Some (line_read (recv_bufsz (client s)) [] (rx s) s (next_line (client s) (rx s))).
Proof.
  intros Hok Hc. unfold at_recv_readline, bind at 1, on_client, modify, bind at 1, gets at 1. cbn [rx].
  pose proof (readline_loop s (rx s) [] Hok Hc) as E. cbv zeta in E. cbn [length last] in E. pose proof (co_size _ Hok) as Hn.
  change (Z.of_nat 0) with 0 in E.
  rewrite Z.min_l in E by lia. rewrite (proj2 (Z.ltb_ge _ 0)) in E by lia. unfold next_line. rewrite <- E. unfold at_line, padded.
  by rewrite take_nil, Nat.sub_0_r.
Qed.

(** C4: [at_recv_readline] cuts the bytes of the network module into lines.  It
    returns as soon as the bytes since the last line end one (with CR LF, the end
    sign or a complete unsolicited result code), and waits exactly as long as
    they do not; the line is the shortest such part of the input, all of it is
    consumed and nothing behind it, and the line is delivered, with the first
    code of the table that it is one of, unless it is longer than the buffer:
    then it is dropped as a whole, whatever its length, and the next line begins
    behind it. *)
Theorem lines_are_cut_at_their_ends s :
  client_ok s.(client) -> Forall is_char s.(rx) ->
  exists r s', at_recv_readline s = Some (r, s') /\ s'.(responses) = s.(responses) /\ s'.(urc_calls) = s.(urc_calls) /\
    ((r = None /\ forall p rest, s.(rx) = p ++ rest -> p <> [] -> ends s.(client) p = false) \/
     exists q, s.(rx) = q ++ s'.(rx) /\ ends s.(client) q = true /\
       (forall p rest, q = p ++ rest -> p <> [] -> rest <> [] -> ends s.(client) p = false) /\
       (if Z.of_nat (length q) <=? s.(client).(recv_bufsz)
        then r = Some (Z.of_nat (length q)) /\ take (length q) s'.(client).(recv_line_buf) = q /\
             get_urc_obj s'.(client) = Some (first_urc q (concat s.(client).(urc_table)))
        else r = Some (- RT_EFULL) /\ s'.(client).(recv_line_len) = 0)).
Proof.
  intros Hok Hc. rewrite readline_spec by done. pose proof (cut_spec (client s) (rx s) []) as Hcut. fold (next_line (client s) (rx s)) in Hcut.
  destruct (next_line (client s) (rx s)) as [[q rest]|] eqn:En; cbn [line_read].
  - destruct Hcut as (k & ch & Eq & Erx & He & Hk). cbn [app] in Eq. apply next_line_app in En as [Ea _].
    assert (forall p rest', q = p ++ rest' -> p <> [] -> rest' <> [] -> ends (client s) p = false) as Hmin.
    { intros p rest' E Hp Hr. destruct p as [|d p' _] using rev_ind; [done|]. destruct rest' as [|z r' _] using rev_ind; [done|].
      rewrite Eq, app_assoc in E. apply app_inj_tail in E as [E _]. rewrite <- app_assoc in E. cbn in E. exact (Hk p' d r' E). }
    assert (Forall is_char q) as Hcq. { rewrite Ea in Hc. by apply Forall_app in Hc as [? _]. }
    destruct (Z.leb_spec (Z.of_nat (length q)) (recv_bufsz (client s))) as [Hl|Hl];
      (eexists _, _; split; [reflexivity|]; split; [done|]; split; [done|]; right; exists q; split; [done|]; split; [done|]; split; [done|]);
      rewrite ?(proj2 (Z.leb_le _ _)), ?(proj2 (Z.leb_gt _ _)) by done; [|done].
    split; [done|]. cbn [at_line client with_line recv_line_buf]. rewrite padded_short by done.
    split; [apply take_app_length|]. unfold get_urc_obj. cbn [with_line recv_line_buf recv_line_len urc_table].
    apply find_urc_spec; [|apply Hok]. rewrite <- padded_short by done. by apply padded_chars.
  - eexists _, _. split; [reflexivity|]. split; [done|]. split; [done|]. left. split; [done|]. intros p rest E Hp.
    destruct p as [|d p' _] using rev_ind; [done|]. rewrite <- app_assoc in E. exact (Hcut p' d rest E).
Qed.

(** A client with the codes [+IPD ... :] and [... ,CLOSED CR LF], and the bytes
    of [OK CR LF +IPD,0,5:hello]. *)
Definition demo_urcs : list at_urc :=
  [mk_urc [43; 73; 80; 68] [58] (Some 0%nat); mk_urc [] [44; 67; 76; 79; 83; 69; 68; 13; 10] (Some 1%nat)].
Definition demo_client : at_client :=
  mk_client false 0 (replicate 16 0) 0 16 None 0 0 [demo_urcs].
Definition demo_at : at_sys :=
  mk_at demo_client (fun _ => mk_resp [] 0 0 0 0 0)
    [79; 75; 13; 10; 43; 73; 80; 68; 44; 48; 44; 53; 58; 104; 101; 108; 108; 111] [].

Lemma demo_client_ok : client_ok demo_client.
Proof. split; [done|]. repeat constructor. Qed.

Lemma lines_are_cut_at_their_ends_witness :
  exists r s', at_recv_readline demo_at = Some (r, s') /\ r = Some 4 /\ s'.(responses) = demo_at.(responses) /\
    exists q, demo_at.(rx) = q ++ s'.(rx) /\ ends demo_client q = true.
Proof.
  destruct (lines_are_cut_at_their_ends demo_at demo_client_ok) as (r & s' & E & Hr & _ & Hc).
  - by repeat constructor.
  - exists r, s'. split; [done|].
    assert (r = Some 4) as -> by (vm_compute in E; by injection E as <- _).
    split; [done|]. split; [done|]. destruct Hc as [[? _]|(q & Eq & He & _)]; [done|]. exists q. by split.
Defined.
