(* ===== verification/AtSystem.v ===== *)
(** * Commands and their responses

    The parser thread and the threads that execute commands on one AT client
    (AtClient.v), in any order.  The parser handles a line without being
    interrupted by a thread that executes a command: its priority is higher than
    that of every such thread.  A command that begins while no notice of an
    earlier one is left gets its own response. *)

From Stdlib Require Import ZArith Lia.
From stdpp Require Import prelude functions list.
From S2P Require Import Prelude Kernel AtClient AtLines.
Import AtClient.
Open Scope Z_scope.
Open Scope c_scope.

Module AtSystem.

(** ** Lines in a response *)

(** A line as it is stored: its last byte is replaced by the end of a string. *)
Definition stored (q : list Z) : list Z := removelast q ++ [0].

(** The string that this is: up to the first 0. *)
Fixpoint upto0 (l : list Z) : list Z :=
  match l with
  | [] => []
  | c :: l => if c =? 0 then [] else c :: upto0 l
  end.
Definition text (q : list Z) : list Z := upto0 (removelast q).

Definition total_len (ls : list (list Z)) : Z := Z.of_nat (length (concat ls)).

(** The lines that fit into the buffer of a response. *)
Definition keep (size : Z) (kept : list (list Z)) (q : list Z) : list (list Z) :=
  if total_len kept + Z.of_nat (length q) <? size then kept ++ [q] else kept.
Definition kept (size : Z) (ls : list (list Z)) : list (list Z) := foldl (keep size) [] ls.

Lemma occurs_seq s2 s1 :
  occurs s2 s1 <-> Exists (fun k => s2 `prefix_of` drop k s1 /\ (k + length s2 <= length s1)%nat) (seq 0 (S (length s1))).
Proof.
  rewrite Exists_exists. split.
  - intros (k & Hp & Hk). exists k. split; [apply elem_of_seq; lia|by split].
  - intros (k & _ & Hk). by exists k.
Qed.

#[export] Instance occurs_dec s2 s1 : Decision (occurs s2 s1).
Proof.
  destruct (decide (Exists (fun k => s2 `prefix_of` drop k s1 /\ (k + length s2 <= length s1)%nat) (seq 0 (S (length s1))))) as [H|H].
  - left. by apply occurs_seq.
  - right. by rewrite occurs_seq.
Defined.

(** The status that a line ends a response with, [n] lines of it being kept. *)
Definition verdict (num : Z) (n : nat) (q : list Z) : option Z :=
  if bool_decide (AT_RESP_END_OK `prefix_of` text q) && (num =? 0) then Some AT_RESP_OK
  else if bool_decide (occurs AT_RESP_END_ERROR (text q)) || bool_decide (AT_RESP_END_FAIL `prefix_of` text q) then Some AT_RESP_ERROR
  else if (Z.of_nat n =? num) && truthy num then Some AT_RESP_OK
  else None.

(** The verdict on the last of the lines [ls ++ [q]]. *)
Definition verdict_of (x : at_response) (ls : list (list Z)) (q : list Z) : option Z :=
  verdict x.(line_num) (length (kept x.(buf_size) (ls ++ [q]))) q.

(** No line has ended the response. *)
Definition unfinished (x : at_response) (ls : list (list Z)) : Prop :=
  forall ls1 q ls2, ls = ls1 ++ q :: ls2 -> verdict_of x ls1 q = None.

(** The response holds the lines that fit. *)
Record holds (x : at_response) (ls : list (list Z)) : Prop := {
  h_size : Z.of_nat (length x.(buf)) = x.(buf_size);
  h_len : x.(buf_len) = total_len (kept x.(buf_size) ls);
  h_count : x.(line_counts) = Z.of_nat (length (kept x.(buf_size) ls));
  h_fits : kept x.(buf_size) ls = [] \/ x.(buf_len) < x.(buf_size);
  h_data : take (Z.to_nat x.(buf_len)) x.(buf) = concat (map stored (kept x.(buf_size) ls));
  h_lines : Forall (fun q => q <> []) (kept x.(buf_size) ls)
}.

(** ** Facts about strings *)

Lemma upto0_split l : exists z, l ++ [0] = upto0 l ++ 0 :: z /\ 0 ∉ upto0 l.
Proof.
  induction l as [|c l (z & E & Hn)]; cbn [app upto0].
  { exists []. split; [done|apply not_elem_of_nil]. }
  destruct (Z.eqb_spec c 0) as [->|Hc].
  - exists (l ++ [0]). split; [done|apply not_elem_of_nil].
  - exists z. split; [by rewrite E|]. apply not_elem_of_cons. auto.
Qed.

Lemma upto0_id l : 0 ∉ l -> upto0 l = l.
Proof.
  induction l as [|c l IH]; [done|]. intros [Hc Hl]%not_elem_of_cons. cbn [upto0].
  rewrite (proj2 (Z.eqb_neq _ _)) by auto. by rewrite IH.
Qed.

(** The array with a stored line in it. *)
Lemma stored_text q z : exists z', stored q ++ z = text q ++ 0 :: z' /\ 0 ∉ text q.
Proof.
  destruct (upto0_split (removelast q)) as (z' & E & Hn). exists (z' ++ z). split; [|done].
  unfold stored, text. by rewrite E, <- app_assoc.
Qed.

Lemma length_removelast (q : list Z) : length (removelast q) = (length q - 1)%nat.
Proof. induction q as [|a [|b q] IH]; [done|done|]. cbn [removelast length] in *. lia. Qed.

Lemma length_stored q : q <> [] -> length (stored q) = length q.
Proof. intros Hq. unfold stored. rewrite length_app, length_removelast. destruct q; [done|]. cbn. lia. Qed.

Lemma text_prefix t (l z : list Z) : is_text t -> t `prefix_of` l ++ 0 :: z <-> t `prefix_of` l.
Proof.
  intros Ht. split; [|apply prefix_app_r]. intros Hp. apply (prefix_short _ _ (0 :: z)); [|done].
  destruct (Nat.le_gt_cases (length t) (length l)) as [|Hgt]; [done|]. destruct Hp as [k E]. exfalso.
  assert (t !! length l = Some 0) as E0.
  { apply (f_equal (lookup (length l))) in E. rewrite lookup_app_r, Nat.sub_diag in E by lia. cbn in E.
    rewrite lookup_app_l in E by lia. done. }
  unfold is_text in Ht. rewrite Forall_lookup in Ht. specialize (Ht _ _ E0). lia.
Qed.

Lemma replace_last (q z : list Z) :
  q <> [] -> mem_write (Z.of_nat (length q) - 1) [0] (q ++ z) = Some (stored q ++ z).
Proof.
  intros Hq. destruct q as [|c q _] using rev_ind; [done|]. unfold stored. rewrite removelast_last, length_app. cbn [length].
  replace (Z.of_nat (length q + 1) - 1) with (Z.of_nat (length q)) by lia. rewrite <- !app_assoc.
  by apply (mem_write_spec q [c] [0] z).
Qed.

(** The end of a response is recognised. *)
Lemma response_end_spec q z x :
  (length AT_RESP_END_FAIL <= length (stored q ++ z))%nat ->
  response_end (stored q ++ z) x
    = Some (if bool_decide (AT_RESP_END_OK `prefix_of` text q) && (line_num x =? 0) then Some AT_RESP_OK
            else if bool_decide (occurs AT_RESP_END_ERROR (text q)) || bool_decide (AT_RESP_END_FAIL `prefix_of` text q) then Some AT_RESP_ERROR
            else if (line_counts x =? line_num x) && truthy (line_num x) then Some AT_RESP_OK else None).
Proof.
  intros Hl. destruct (stored_text q z) as (z' & E & Hn). rewrite E in *. unfold response_end.
  destruct (memcmp_spec AT_RESP_END_OK (text q ++ 0 :: z')) as (r1 & -> & H1); [cbn in *; lia|]. cbn [mbind option_bind].
  destruct (memcmp_spec AT_RESP_END_FAIL (text q ++ 0 :: z')) as (r2 & -> & H2); [done|].
  destruct (strstr_spec AT_RESP_END_ERROR (text q) z') as (b & -> & Hb); [done|done|]. cbn [mbind option_bind].
  rewrite text_prefix in H1 by (by repeat constructor). rewrite text_prefix in H2 by (by repeat constructor).
  assert ((r1 =? 0) = bool_decide (AT_RESP_END_OK `prefix_of` text q)) as -> by (apply eq_bool_prop_intro; rewrite bool_decide_spec, Is_true_true, Z.eqb_eq; done).
  assert ((r2 =? 0) = bool_decide (AT_RESP_END_FAIL `prefix_of` text q)) as -> by (apply eq_bool_prop_intro; rewrite bool_decide_spec, Is_true_true, Z.eqb_eq; done).
  assert (b = bool_decide (occurs AT_RESP_END_ERROR (text q))) as -> by (apply eq_bool_prop_intro; rewrite bool_decide_spec, Is_true_true; done).
  destruct (_ && _); [done|]. destruct (bool_decide (occurs _ _)); [done|]. cbn [orb]. destruct (bool_decide _); [done|].
  by destruct (_ && _).
Qed.

Lemma kept_snoc size ls q : kept size (ls ++ [q]) = keep size (kept size ls) q.
Proof. unfold kept. by rewrite foldl_app. Qed.

Lemma kept_subset size ls q : q ∈ kept size ls -> q ∈ ls.
Proof.
  induction ls as [|p ls IH] using rev_ind; [done|]. rewrite kept_snoc, elem_of_app. unfold keep. destruct (_ <? _).
  - rewrite elem_of_app. intros [?|?]; auto.
  - auto.
Qed.

Lemma total_len_snoc ls q : total_len (ls ++ [q]) = total_len ls + Z.of_nat (length q).
Proof. unfold total_len. rewrite concat_app, length_app. cbn. rewrite app_nil_r. lia. Qed.

Lemma length_concat_stored ls : Forall (fun q => q <> []) ls -> length (concat (map stored ls)) = length (concat ls).
Proof.
  induction 1 as [|q ls Hq Hls IH]; [done|]. cbn. rewrite !length_app, IH, length_stored by done. done.
Qed.

(** ** Reading a response *)

(** Line [k] starts at [off] and is a string in the array. *)
Definition string_at (mem : list Z) (off : nat) (l : list Z) : Prop :=
  exists z, drop off mem = l ++ 0 :: z.

Lemma get_line_from_spec mem n : forall ls off i z,
  Forall (fun q => 0 ∉ removelast q) ls -> drop off mem = concat (map stored ls) ++ z ->
  i <= n < i + Z.of_nat (length ls) ->
  exists o q, get_line_from (length ls) mem off i n = Some (Some o) /\ ls !! Z.to_nat (n - i) = Some q /\ string_at mem o (removelast q).
Proof.
  induction ls as [|q ls IH]; intros off i z Hn Ed Hi; [cbn in Hi; lia|]. inversion Hn as [|? ? Hq Hls]. subst.
  cbn [length get_line_from map concat] in *. unfold stored at 1 in Ed. rewrite <- !app_assoc in Ed. cbn [app] in Ed.
  destruct (Z.eqb_spec n i) as [->|Hne].
  - exists off, q. split; [done|]. rewrite Z.sub_diag. split; [done|]. by eexists.
  - rewrite Ed, strlen_spec by done. cbn [mbind option_bind].
    destruct (IH (off + length (removelast q) + 1)%nat (i + 1) z Hls) as (o & q' & E & El & Hs).
    + replace (off + length (removelast q) + 1)%nat with (off + S (length (removelast q)))%nat by lia.
      rewrite <- drop_drop, Ed. change (0 :: concat (map stored ls) ++ z) with ([0] ++ concat (map stored ls) ++ z).
      rewrite app_assoc, drop_app_length'; [done|]. rewrite length_app. cbn. lia.
    + lia.
    + exists o, q'. split; [done|]. split; [|done]. replace (Z.to_nat (n - i)) with (S (Z.to_nat (n - (i + 1)))) by lia. done.
Qed.

(** A response gives back its lines, without their last byte. *)
Lemma get_line_spec x ls k :
  holds x ls -> Forall (fun q => 0 ∉ removelast q) (kept x.(buf_size) ls) -> 1 <= k <= x.(line_counts) ->
  exists o q, at_resp_get_line x k = Some (Some o) /\ kept x.(buf_size) ls !! Z.to_nat (k - 1) = Some q /\
    string_at x.(buf) o (removelast q).
Proof.
  intros [_ _ Hc _ Hd _] Hn Hk. unfold at_resp_get_line. replace (_ || _) with false by lia. rewrite Hc, Nat2Z.id.
  apply (get_line_from_spec _ _ _ _ _ (drop (Z.to_nat (buf_len x)) (buf x))); [done| |lia].
  rewrite drop_0, <- Hd. symmetry. apply take_drop.
Qed.

(** ** The parser *)

(** The settings of the client, which a line does not change. *)
Definition same_setup (c c' : at_client) : Prop :=
  c'.(cli) = c.(cli) /\ c'.(end_sign) = c.(end_sign) /\ c'.(recv_bufsz) = c.(recv_bufsz) /\ c'.(urc_table) = c.(urc_table).

(** The line [q] has become part of the response [r], to the lines [ls]. *)
Record took_line (r : nat) (ls : list (list Z)) (q : list Z) (s s' : at_sys) : Prop := {
  tl_holds : holds (s'.(responses) r) (ls ++ [q]);
  tl_size : (s'.(responses) r).(buf_size) = (s.(responses) r).(buf_size);
  tl_num : (s'.(responses) r).(line_num) = (s.(responses) r).(line_num);
  tl_other r' : r' <> r -> s'.(responses) r' = s.(responses) r';
  tl_rx : s'.(rx) = s.(rx);
  tl_setup : same_setup s.(client) s'.(client);
  tl_end : match verdict_of (s.(responses) r) ls q with
           | Some st => s'.(client).(resp) = None /\ s'.(client).(resp_notice) = s.(client).(resp_notice) + 1 /\ s'.(client).(resp_status) = st
           | None => s'.(client).(resp) = s.(client).(resp) /\ s'.(client).(resp_notice) = s.(client).(resp_notice)
           end
}.

(** The line is stored if it fits. *)
Lemma holds_snoc x ls q :
  holds x ls -> q <> [] ->
  if buf_len x + Z.of_nat (length q) <? buf_size x then
    exists b, mem_write (buf_len x) (stored q) (buf x) = Some b /\
      holds (mk_resp b (buf_size x) (buf_len x + Z.of_nat (length q)) (line_num x) (line_counts x + 1) (timeout x)) (ls ++ [q]) /\
      kept (buf_size x) (ls ++ [q]) = kept (buf_size x) ls ++ [q]
  else holds x (ls ++ [q]) /\ kept (buf_size x) (ls ++ [q]) = kept (buf_size x) ls.
Proof.
  intros [Hs Hl Hc Hf Hd Hn] Hq. assert (0 <= buf_len x) as H0 by (rewrite Hl; unfold total_len; lia).
  destruct (Z.ltb_spec (buf_len x + Z.of_nat (length q)) (buf_size x)) as [Hlt|Hge].
  - assert (kept (buf_size x) (ls ++ [q]) = kept (buf_size x) ls ++ [q]) as Ek.
    { rewrite kept_snoc. unfold keep. rewrite <- Hl. by rewrite (proj2 (Z.ltb_lt _ _)). }
    set (a := take (Z.to_nat (buf_len x)) (buf x)). set (m := take (length q) (drop (Z.to_nat (buf_len x)) (buf x))).
    set (z := drop (length q) (drop (Z.to_nat (buf_len x)) (buf x))).
    assert (buf x = a ++ m ++ z) as Eb by (unfold a, m, z; by rewrite !take_drop).
    assert (length a = Z.to_nat (buf_len x)) as Ea by (unfold a; rewrite length_take; lia).
    assert (length m = length q) as Em by (unfold m; rewrite length_take, length_drop; lia).
    exists (a ++ stored q ++ z). split; [|split; [|done]].
    + rewrite Eb. replace (buf_len x) with (Z.of_nat (length a)) by lia. apply mem_write_spec. rewrite length_stored by done. lia.
    + split; cbn [buf buf_size buf_len line_counts]; rewrite ?Ek.
      * rewrite <- Hs, Eb, !length_app, length_stored by done. lia.
      * by rewrite total_len_snoc, Hl.
      * rewrite length_app. cbn. lia.
      * right. lia.
      * rewrite map_app, concat_app, <- Hd. fold a. cbn. rewrite app_nil_r.
        replace (Z.to_nat (buf_len x + Z.of_nat (length q))) with (length a + length (stored q))%nat by (rewrite length_stored by done; lia).
        rewrite take_app_add'; [|done]. by rewrite take_app_length.
      * apply Forall_app. split; [done|]. by constructor.
  - assert (kept (buf_size x) (ls ++ [q]) = kept (buf_size x) ls) as Ek.
    { rewrite kept_snoc. unfold keep. rewrite <- Hl. by rewrite (proj2 (Z.ltb_ge _ _)). }
    split; [|done]. by split; rewrite ?Ek.
Qed.

Lemma same_setup_refl c : same_setup c c.
Proof. done. Qed.

Lemma parse_response_spec s r q z ls :
  recv_line_buf (client s) = q ++ z -> recv_line_len (client s) = Z.of_nat (length q) -> q <> [] ->
  (4 <= length (q ++ z))%nat -> holds (responses s r) ls ->
  exists s', parse_response r s = Some (tt, s') /\ took_line r ls q s s'.
Proof.
  intros Eb El Hq H4 Hh. set (x := responses s r).
  assert (length (stored q ++ z) = length (q ++ z)) as Els by (by rewrite !length_app, length_stored).
  unfold parse_response. unfold bind at 1, gets at 1. rewrite Eb, El. rewrite (bind_eq _ _ _ (stored q ++ z) s).
  2:{ rewrite replace_last by done. done. }
  unfold bind at 1, on_client at 1, modify at 1. unfold bind at 1, gets at 1. cbn [responses]. fold x.
  rewrite take_app_length' by (rewrite length_stored by done; lia).
  pose proof (holds_snoc x ls q Hh Hq) as Hsn.
  set (s1 := mk_at (with_line (stored q ++ z) (Z.of_nat (length q)) (client s)) (responses s) (rx s) (urc_calls s)).
  set (st := verdict_of x ls q).
  assert (exists s2, (if buf_len x + Z.of_nat (length q) <? buf_size x
      then b <- run (mem_write (buf_len x) (stored q) (buf x)) ;;
           set_resp r (mk_resp b (buf_size x) (buf_len x + Z.of_nat (length q)) (line_num x) (line_counts x + 1) (timeout x))
      else on_client (with_status AT_RESP_BUFF_FULL)) s1 = Some (tt, s2) /\
      holds (responses s2 r) (ls ++ [q]) /\ buf_size (responses s2 r) = buf_size x /\ line_num (responses s2 r) = line_num x /\
      (forall r', r' <> r -> responses s2 r' = responses s r') /\ rx s2 = rx s /\ same_setup (client s) (client s2) /\
      resp (client s2) = resp (client s) /\ resp_notice (client s2) = resp_notice (client s)) as (s2 & E2 & Hh2 & Esz & Enum & Eo & Er & Hss & Ers & Ent).
  { destruct (buf_len x + Z.of_nat (length q) <? buf_size x).
    - destruct Hsn as (b & Ew & Hh' & _). rewrite Ew. eexists. split; [reflexivity|]. cbn [responses client rx].
      rewrite !fn_lookup_insert. split; [done|]. split; [done|]. split; [done|]. split; [intros; by rewrite fn_lookup_insert_ne|]. done.
    - destruct Hsn as [Hh' _]. eexists. split; [reflexivity|]. done. }
  rewrite (bind_eq _ _ _ _ _ E2). unfold bind at 1, gets at 1. rewrite response_end_spec by (cbn; lia).
  assert (Z.of_nat (length (kept (buf_size x) (ls ++ [q]))) = line_counts (responses s2 r)) as Ecnt by (rewrite (h_count _ _ Hh2), Esz; done).
  assert ((if bool_decide (AT_RESP_END_OK `prefix_of` text q) && (line_num (responses s2 r) =? 0) then Some AT_RESP_OK
           else if bool_decide (occurs AT_RESP_END_ERROR (text q)) || bool_decide (AT_RESP_END_FAIL `prefix_of` text q) then Some AT_RESP_ERROR
           else if (line_counts (responses s2 r) =? line_num (responses s2 r)) && truthy (line_num (responses s2 r)) then Some AT_RESP_OK else None)
          = st) as -> by (unfold st, verdict_of, verdict; by rewrite Ecnt, Enum).
  unfold bind at 1, run, ret at 1. destruct st as [v|] eqn:Est.
  - eexists. split; [reflexivity|]. split; try done. fold x. fold st. rewrite Est. cbn. by rewrite Ent.
  - eexists. split; [reflexivity|]. split; try done. fold x. fold st. rewrite Est. by split.
Qed.

(** ** Steps *)

(** [current]: the response of the command in progress, whose thread holds the
    client's lock and waits; [lines]: the lines that have become part of its
    response; [results]: the commands that have returned, each with its response,
    its result and these lines. *)
Record sys := mk_sys {
  atc : at_sys;
  current : option nat;
  lines : list (list Z);
  results : list (at_response * Z * list (list Z))
}.

Inductive action :=
| ABytes (l : list Z)
| AParse
| AExec (r : option nat)
| ANotified
| ATimeout.

(** The line that the parser is about to read, if it will be part of a response. *)
Definition response_line (a : at_sys) : option (list Z) :=
  match next_line a.(client) a.(rx), a.(client).(resp) with
  | Some (q, _), Some _ =>
      if Z.of_nat (length q) <=? a.(client).(recv_bufsz) then
        match first_urc q (concat a.(client).(urc_table)) with None => Some q | Some _ => None end
      else None
  | _, _ => None
  end.

Section system.
Context (urc_func : nat -> list Z -> list Z -> list Z).
(** URC functions take bytes from the front of the input. *)
Context (urc_consumes : forall f line input, urc_func f line input `suffix_of` input).

Definition at_step (a : action) (s : sys) : option sys :=
  match a with
  | ABytes l =>
      let c := s.(atc) in
      Some (mk_sys (mk_at c.(client) c.(responses) (c.(rx) ++ l) c.(urc_calls)) s.(current) s.(lines) s.(results))
  | AParse =>
      match client_parser urc_func s.(atc) with
      | Some (true, c) =>
          Some (mk_sys c s.(current) (match response_line s.(atc) with Some q => s.(lines) ++ [q] | None => s.(lines) end) s.(results))
      | _ => None
      end
  | AExec r =>
      match at_obj_exec_cmd r s.(atc) with
      | Some (Waits, c) => Some (mk_sys c r [] s.(results))
      | Some (Done _, c) => Some (mk_sys c None [] s.(results))
      | None => None
      end
  | ANotified =>
      match s.(current), exec_notified s.(atc) with
      | Some r, Some (code, c) => Some (mk_sys c None [] ((c.(responses) r, code, s.(lines)) :: s.(results)))
      | _, _ => None
      end
  | ATimeout =>
      match s.(current), exec_timed_out s.(atc) with
      | Some r, Some (code, c) => Some (mk_sys c None [] ((c.(responses) r, code, s.(lines)) :: s.(results)))
      | _, _ => None
      end
  end.

(** A command begins when nobody else has the lock and no notice is left; the
    parser reads a line that has arrived completely. *)
Definition enabled (a : action) (s : sys) : Prop :=
  match a with
  | ABytes l => Forall is_char l
  | AParse => next_line s.(atc).(client) s.(atc).(rx) <> None
  | AExec r => s.(current) = None /\ s.(atc).(client).(resp_notice) = 0
  | ANotified => s.(current) <> None /\ 0 < s.(atc).(client).(resp_notice)
  | ATimeout => s.(current) <> None
  end.

(** After [at_client_init], with response objects from [at_create_resp]. *)
Definition initial (s : sys) : Prop :=
  client_ok s.(atc).(client) /\ s.(atc).(client).(resp) = None /\ s.(atc).(client).(resp_notice) = 0 /\
  (forall r, Z.of_nat (length (s.(atc).(responses) r).(buf)) = (s.(atc).(responses) r).(buf_size)) /\
  s.(atc).(rx) = [] /\ s.(current) = None /\ s.(results) = [].

Inductive reach : sys -> Prop :=
| reach_start s : initial s -> reach s
| reach_step s a s' : reach s -> enabled a s -> at_step a s = Some s' -> reach s'.

(** ** The invariant *)

(** The lines [ls] are a complete response that ends with the status [st]. *)
Definition complete (x : at_response) (ls : list (list Z)) (st : Z) : Prop :=
  exists ls1 q, ls = ls1 ++ [q] /\ unfinished x ls1 /\ verdict_of x ls1 q = Some st.

Definition answered '(x, code, ls) : Prop :=
  holds x ls /\ (code = - RT_ETIMEOUT \/ exists st, complete x ls st /\ code = if st =? AT_RESP_OK then RT_EOK else - RT_ERROR).

Record inv (s : sys) : Prop := {
  inv_client : client_ok s.(atc).(client);
  inv_rx : Forall is_char s.(atc).(rx);
  inv_sizes r : Z.of_nat (length (s.(atc).(responses) r).(buf)) = (s.(atc).(responses) r).(buf_size);
  inv_command :
    match s.(current) with
    | None => s.(atc).(client).(resp) = None
    | Some r =>
        let x := s.(atc).(responses) r in
        holds x s.(lines) /\
        match s.(atc).(client).(resp) with
        | Some r' => r' = r /\ s.(atc).(client).(resp_notice) = 0 /\ unfinished x s.(lines)
        | None => s.(atc).(client).(resp_notice) = 1 /\ complete x s.(lines) s.(atc).(client).(resp_status)
        end
    end;
  inv_results : Forall answered s.(results)
}.

Lemma unfinished_snoc x ls q : unfinished x ls -> verdict_of x ls q = None -> unfinished x (ls ++ [q]).
Proof.
  intros Hu Hv ls1 q' ls2 E. destruct ls2 as [|z ls2 _] using rev_ind.
  - apply app_inj_tail in E as [-> ->]. done.
  - rewrite app_comm_cons, app_assoc in E. apply app_inj_tail in E as [-> _]. by eapply Hu.
Qed.

(** What is expected of a response depends on its settings only. *)
Lemma verdict_of_same x x' ls q : buf_size x' = buf_size x -> line_num x' = line_num x -> verdict_of x' ls q = verdict_of x ls q.
Proof. unfold verdict_of. by intros -> ->. Qed.

Lemma unfinished_same x x' ls : buf_size x' = buf_size x -> line_num x' = line_num x -> unfinished x ls -> unfinished x' ls.
Proof. intros E1 E2 Hu ls1 q ls2 E. rewrite (verdict_of_same x x') by done. by eapply Hu. Qed.

Lemma initial_at_inv s : initial s -> inv s.
Proof.
  intros (Hc & Hr & Hn & Hs & Ex & Ecur & Eres). split; rewrite ?Ex, ?Ecur, ?Eres; try done; constructor.
Qed.

Definition good (r : option sys) : Prop := exists s', r = Some s' /\ inv s'.

(** A line of the response in progress. *)
Lemma inv_took_line s r q a1 a2 :
  inv s -> current s = Some r -> resp (client (atc s)) = Some r -> same_setup (client (atc s)) (client a1) ->
  resp (client a1) = Some r -> resp_notice (client a1) = resp_notice (client (atc s)) -> responses a1 = responses (atc s) ->
  Forall is_char (rx a1) -> took_line r (lines s) q a1 a2 -> inv (mk_sys a2 (current s) (lines s ++ [q]) (results s)).
Proof.
  intros [Hc Hx Hs Hcmd Hres] Ecur Eresp (_ & _ & Esz & Etab) Er1 En1 Erps Hx1 [Hh Esize Enum Eoth Erx (_ & _ & Esz2 & Etab2) Hend].
  rewrite Ecur, Eresp in Hcmd. cbv zeta in Hcmd. destruct Hcmd as (_ & _ & En & Hun). rewrite Erps in *.
  split; cbn [atc current lines results].
  - destruct Hc as [H1 H2]. split; [by rewrite Esz2, Esz|by rewrite Etab2, Etab].
  - by rewrite Erx.
  - intros r'. destruct (decide (r' = r)) as [->|Hne]; [apply Hh|]. rewrite Eoth by done. apply Hs.
  - rewrite Ecur. cbv zeta. split; [done|]. destruct (verdict_of (responses (atc s) r) (lines s) q) as [st|] eqn:Ev.
    + destruct Hend as (-> & En2 & Est). split; [lia|]. exists (lines s), q. split; [done|]. split.
      * by apply (unfinished_same (responses (atc s) r)).
      * rewrite (verdict_of_same (responses (atc s) r)) by done. by rewrite Est.
    + destruct Hend as (-> & En2). rewrite Er1. split; [done|]. split; [lia|].
      apply (unfinished_same (responses (atc s) r)); [done|done|]. by apply unfinished_snoc.
  - done.
Qed.

(** Steps of the parser that do not concern a response. *)
Lemma inv_other s a :
  inv s -> same_setup (client (atc s)) (client a) -> resp (client a) = resp (client (atc s)) ->
  resp_notice (client a) = resp_notice (client (atc s)) -> resp_status (client a) = resp_status (client (atc s)) ->
  responses a = responses (atc s) -> Forall is_char (rx a) -> inv (mk_sys a (current s) (lines s) (results s)).
Proof.
  intros [Hc Hx Hs Hcmd Hres] (_ & _ & Esz & Etab) Er En Est Erps Hxa. split; cbn [atc current lines results]; rewrite ?Erps, ?Er, ?En, ?Est; try done.
  destruct Hc as [H1 H2]. split; [by rewrite Esz|by rewrite Etab].
Qed.

Lemma parse_good s : inv s -> enabled AParse s -> good (at_step AParse s).
Proof.
  intros Hs Hen. pose proof (inv_client _ Hs) as Hok. pose proof (inv_rx _ Hs) as Hx. pose proof (co_size _ Hok) as Hn.
  cbn [enabled at_step] in *. unfold client_parser, response_line. unfold bind at 1. rewrite (readline_spec _ Hok Hx).
  destruct (next_line (client (atc s)) (rx (atc s))) as [[q rest]|] eqn:En; [|done]. cbn [line_read].
  apply next_line_app in En as [Erx Hq]. rewrite Erx in Hx. apply Forall_app in Hx as [Hcq Hcr].
  destruct (Z.leb_spec (Z.of_nat (length q)) (recv_bufsz (client (atc s)))) as [Hl|Hl].
  2:{ cbn. eexists. split; [reflexivity|]. destruct (resp (client (atc s))); by apply inv_other. }
  rewrite (proj2 (Z.ltb_lt 0 _)) by (destruct q; [done|cbn; lia]). set (n := recv_bufsz (client (atc s))) in *.
  set (a1 := at_line (padded n q) (Z.of_nat (length q)) rest (atc s)).
  assert (get_urc_obj (client a1) = Some (first_urc q (concat (urc_table (client (atc s)))))) as Eu.
  { unfold get_urc_obj, a1. cbn [at_line client with_line recv_line_buf recv_line_len urc_table]. rewrite padded_short by done.
    apply find_urc_spec; [|apply Hok]. rewrite <- padded_short by done. by apply padded_chars. }
  unfold bind at 1, parse_line. unfold bind at 1, gets at 1. rewrite Eu. unfold bind at 1, run at 1, ret at 1.
  destruct (first_urc q _) as [u|] eqn:Efu.
  - assert (exists a2, (match func u with
        | Some f => modify (fun s0 => mk_at (client s0) (responses s0)
             (urc_func f (take (Z.to_nat (recv_line_len (client a1))) (recv_line_buf (client a1))) (rx s0))
             ((f, take (Z.to_nat (recv_line_len (client a1))) (recv_line_buf (client a1)), rx s0) :: urc_calls s0))
        | None => ret tt end) a1 = Some (tt, a2) /\ client a2 = client a1 /\ responses a2 = responses a1 /\ rx a2 `suffix_of` rest)
      as (a2 & E2 & Ec2 & Er2 & [k Ek]).
    { destruct (func u); eexists; (split; [reflexivity|]); [|done]. split; [done|]. split; [done|]. apply urc_consumes. }
    rewrite E2. eexists. split; [reflexivity|]. rewrite Ek in Hcr. apply Forall_app in Hcr as [_ Hcr].
    destruct (resp (client (atc s))); apply inv_other; rewrite ?Ec2, ?Er2; done.
  - change (resp (client a1)) with (resp (client (atc s))). pose proof (inv_command _ Hs) as Hcmd.
    destruct (resp (client (atc s))) as [r|] eqn:Er.
    + destruct (current s) as [r'|] eqn:Ecur; [|done]. cbv zeta in Hcmd. destruct Hcmd as (Hh & -> & _).
      destruct (parse_response_spec a1 r' q (replicate (Z.to_nat n - length q) 0) (lines s)) as (a2 & E2 & Ht); try done.
      * unfold a1. cbn [at_line client with_line recv_line_buf]. by apply padded_short.
      * rewrite <- padded_short by done. rewrite length_padded by lia. lia.
      * rewrite E2. eexists. split; [reflexivity|]. cbn iota. rewrite <- Ecur. by apply (inv_took_line s r' q a1 a2).
    + eexists. split; [reflexivity|]. by apply inv_other.
Qed.

Lemma at_good s a : inv s -> enabled a s -> good (at_step a s).
Proof.
  intros Hs Hen. destruct a as [l| |r| |].
  - eexists. split; [reflexivity|]. apply inv_other; try done. cbn. apply Forall_app. split; [apply Hs|done].
  - by apply parse_good.
  - destruct Hen as [Ecur En]. cbn [at_step]. unfold at_obj_exec_cmd. cbv [bind gets].
    destruct (cli (client (atc s)) && bool_decide (is_Some r)).
    { eexists. split; [reflexivity|]. pose proof Hs as [Hc Hx Hsz Hcmd Hres]. rewrite Ecur in Hcmd. by split. }
    destruct r as [r|]; (eexists; split; [reflexivity|]); destruct Hs as [Hc Hx Hsz Hcmd Hres];
      (split; cbn [atc current lines results client responses rx]; try done; try (by destruct Hc; split)).
    + intros r'. destruct (decide (r' = r)) as [->|Hne]; [rewrite fn_lookup_insert; apply Hsz|by rewrite fn_lookup_insert_ne].
    + rewrite fn_lookup_insert. cbn. split.
      * split; cbn; try done; try (by left); try constructor; apply Hsz.
      * split; [done|]. split; [done|]. intros ls1 q ls2 E. by destruct ls1.
  - destruct Hen as [Hcur Hn]. cbn [at_step]. pose proof Hs as [Hc Hx Hsz Hcmd Hres]. destruct (current s) as [r|] eqn:Ecur; [|done].
    cbv zeta in Hcmd. destruct Hcmd as (Hh & Hcmd).
    destruct (resp (client (atc s))) as [r'|]; [lia|]. destruct Hcmd as (En & Hcomp).
    eexists. split; [reflexivity|]. split; cbn [atc current lines results]; try done; try (by destruct Hc; split).
    constructor; [|done]. cbn. split; [done|]. right. exists (resp_status (client (atc s))). split; [done|]. by destruct (_ =? _).
  - cbn [at_step enabled] in *. pose proof Hs as [Hc Hx Hsz Hcmd Hres]. destruct (current s) as [r|] eqn:Ecur; [|done].
    cbv zeta in Hcmd. destruct Hcmd as (Hh & Hcmd).
    eexists. split; [reflexivity|]. split; cbn [atc current lines results]; try done; try (by destruct Hc; split).
    constructor; [|done]. cbn. split; [done|]. by left.
Qed.

Lemma reach_at_inv s : reach s -> inv s.
Proof.
  induction 1 as [s Hi|s a s' _ IH Ha E]; [by apply initial_at_inv|].
  destruct (at_good s a IH Ha) as (s'' & E' & Hi). congruence.
Qed.

(** C10: Whatever bytes the network module sends, and whatever commands are
    executed, every step returns: no access outside of a buffer.  A command that
    begins while no notice of an earlier one is left, and does not time out,
    returns after the line that ends its own response: RT_EOK exactly when that
    line says so (OK at its start, or the number of lines that was asked for),
    -RT_ERROR when it contains ERROR or starts with FAIL; no line before it ended
    the response.  The response holds the lines that were received since the
    command began, in order, as far as they fit into its buffer, and
    [at_resp_get_line] gives back each of them, without its last byte. *)
Theorem commands_get_their_responses s :
  reach s ->
  (forall a, enabled a s -> is_Some (at_step a s)) /\
  forall x code ls, (x, code, ls) ∈ s.(results) ->
    (code = - RT_ETIMEOUT \/
     exists ls1 q st, ls = ls1 ++ [q] /\ (forall l1 p l2, ls1 = l1 ++ p :: l2 -> verdict_of x l1 p = None) /\
       verdict_of x ls1 q = Some st /\ code = if st =? AT_RESP_OK then RT_EOK else - RT_ERROR) /\
    x.(line_counts) = Z.of_nat (length (kept x.(buf_size) ls)) /\
    (Forall (fun q => 0 ∉ removelast q) ls -> forall k, 1 <= k <= x.(line_counts) ->
       exists o q, at_resp_get_line x k = Some (Some o) /\ kept x.(buf_size) ls !! Z.to_nat (k - 1) = Some q /\
         string_at x.(buf) o (removelast q)).
Proof.
  intros Hr. apply reach_at_inv in Hr as Hs. split.
  - intros a Ha. destruct (at_good s a Hs Ha) as (s' & -> & _). eauto.
  - intros x code ls Hin. pose proof (inv_results _ Hs) as Hres. rewrite Forall_forall in Hres. destruct (Hres _ Hin) as [Hh Hc].
    split; [|split].
    + destruct Hc as [?|(st & (ls1 & q & E & Hu & Hv) & Ec)]; [by left|]. right. exists ls1, q, st. by split_and!.
    + apply Hh.
    + intros Hn k Hk. apply (get_line_spec x ls); [done| |done]. apply Forall_forall. rewrite Forall_forall in Hn.
      intros q Hq. by apply Hn, (kept_subset (buf_size x)).
Qed.

End system.

(** ** Examples *)

(** A client with a buffer of 32 bytes and a response of [size] bytes that ends
    with OK or ERROR. *)
Definition demo_start (size : Z) : sys :=
  mk_sys (mk_at (mk_client false 0 (replicate 32 0) 0 32 None 0 0 [demo_urcs])
            (fun _ => mk_resp (replicate (Z.to_nat size) 0) size 0 0 0 0) [] []) None [] [].

Definition no_urc (f : nat) (line input : list Z) : list Z := input.

Lemma suffix_refl_at (l : list Z) : l `suffix_of` l.
Proof. done. Qed.

Definition run_all (l : list action) (s : sys) : option sys :=
  foldl (fun r a => match r with Some s => at_step no_urc a s | None => None end) (Some s) l.

(** ["+X:1 CR LF"] and ["OK CR LF"] *)
Definition demo_lines : list Z := [43; 88; 58; 49; 13; 10; 79; 75; 13; 10].

Lemma run_reach l : forall s s',
  reach no_urc s -> run_all l s = Some s' ->
  (forall l1 a l2 s1, l = l1 ++ a :: l2 -> run_all l1 s = Some s1 -> enabled a s1) -> reach no_urc s'.
Proof.
  induction l as [|a l IH]; intros s s' Hr E Hen; [by injection E as <-|].
  unfold run_all in E. cbn [foldl] in E. destruct (at_step no_urc a s) as [s1|] eqn:E1.
  - apply (IH s1); [|done|].
    + apply (reach_step _ s a); [done| |done]. by apply (Hen [] a l).
    + intros l1 a' l2 s2 -> E2. apply (Hen (a :: l1) a' l2); [done|]. unfold run_all. cbn [foldl]. by rewrite E1.
  - exfalso. clear -E. induction l; [done|]. auto.
Qed.

Definition demo_run : list action := [AExec (Some 0%nat); ABytes demo_lines; AParse; AParse; ANotified].

Lemma demo_initial_at size : 0 <= size -> initial (demo_start size).
Proof.
  intros Hs. split; [split; [done|by repeat constructor]|]. split; [done|]. split; [done|]. split; [|done].
  intros r. cbn. rewrite length_replicate. lia.
Qed.

Lemma demo_enabled l1 a l2 s1 : demo_run = l1 ++ a :: l2 -> run_all l1 (demo_start 64) = Some s1 -> enabled a s1.
Proof.
  intros E Es. destruct l1 as [|a1 l1]; [injection E as <- _; vm_compute in Es; by injection Es as <-|]. injection E as <- E.
  destruct l1 as [|a1 l1]; [injection E as <- _; vm_compute in Es; injection Es as <-; by repeat constructor|]. injection E as <- E.
  destruct l1 as [|a1 l1]; [injection E as <- _; vm_compute in Es; by injection Es as <-|]. injection E as <- E.
  destruct l1 as [|a1 l1]; [injection E as <- _; vm_compute in Es; by injection Es as <-|]. injection E as <- E.
  destruct l1 as [|a1 l1]; [injection E as <- _; vm_compute in Es; by injection Es as <-|]. injection E as <- E.
  clear Es. by destruct l1.
Qed.

(** The command returns RT_EOK and its response gives back ["+X:1 CR"]. *)
Lemma commands_get_their_responses_witness :
  exists s x ls, run_all demo_run (demo_start 64) = Some s /\ s.(results) = [(x, RT_EOK, ls)] /\
    exists o q, at_resp_get_line x 1 = Some (Some o) /\ kept x.(buf_size) ls !! Z.to_nat (1 - 1) = Some q /\
      string_at x.(buf) o (removelast q).
Proof.
  destruct (run_all demo_run (demo_start 64)) as [s|] eqn:E; [|by vm_compute in E].
  destruct (results s) as [|[[x code] ls] rs] eqn:Er; [by vm_compute in E; injection E as <-|].
  assert (code = RT_EOK /\ rs = [] /\ line_counts x = 2 /\ Forall (fun q => 0 ∉ removelast q) ls) as (-> & -> & Hc & Hn).
  { vm_compute in E. injection E as <-. injection Er as <- <- <- <-. split; [done|]. split; [done|]. split; [done|].
    repeat constructor; by apply (bool_decide_unpack _). }
  exists s, x, ls. split; [done|]. split; [done|].
  destruct (commands_get_their_responses no_urc (fun _ _ _ => suffix_refl_at _) s) as [_ H].
  - apply (run_reach demo_run (demo_start 64)); [|done|apply demo_enabled]. constructor. by apply demo_initial_at.
  - destruct (H x RT_EOK ls) as (_ & _ & Hg); [rewrite Er; left|]. apply Hg; [done|]. rewrite Hc. lia.
Defined.

(** A notice that is left: the first command times out just before its response
    is complete.  The next command returns RT_EOK at once, although the module
    has not answered it. *)
Theorem late_response_answers_next_command :
  exists s, run_all [AExec (Some 0%nat); ABytes demo_lines; AParse; AParse; ATimeout; AExec (Some 0%nat); ANotified] (demo_start 64) = Some s /\
    match s.(results) with
    | (x, code, ls) :: _ => code = RT_EOK /\ ls = [] /\ x.(line_counts) = 0
    | [] => False
    end.
Proof.
  destruct (run_all _ _) as [s|] eqn:E; [|by vm_compute in E]. exists s. split; [done|]. vm_compute in E. by injection E as <-.
Qed.

(** A response that is too long for its buffer of 6 bytes: the line with the data
    is lost, and the command returns RT_EOK all the same. *)
Theorem truncated_response_is_success :
  exists s, run_all demo_run (demo_start 6) = Some s /\
    match s.(results) with
    | (x, code, ls) :: _ => code = RT_EOK /\ length ls = 2%nat /\ kept x.(buf_size) ls = [[79; 75; 13; 10]]
    | [] => False
    end.
Proof.
  destruct (run_all _ _) as [s|] eqn:E; [|by vm_compute in E]. exists s. split; [done|]. vm_compute in E. by injection E as <-.
Qed.

End AtSystem.
