(* ===== verification/AtSocket.v ===== *)
(** * Data from the network

    The way of the data that the network module receives to the program: the
    function of the code [+IPD] (src/packages/at_device-v2.0.4/class/esp8266/
    at_socket_esp8266.c) reads them behind its line, and the socket layer
    (src/rt-thread/components/net/at/at_socket/at_socket.c) keeps them in a list
    of packets until [at_recvfrom] takes them.  [at_recvfrom] is cut at its
    wait. *)

From Stdlib Require Import ZArith Lia.
From stdpp Require Import prelude functions list.
From S2P Require Import Prelude Kernel AtClient.
Import AtClient.
Open Scope Z_scope.
Open Scope c_scope.

Module AtSocket.

(** ** [sscanf] *)

Definition is_space (c : Z) : bool := (c =? 32) || ((9 <=? c) && (c <=? 13)).
Definition is_digit (c : Z) : bool := (48 <=? c) && (c <=? 57).

Fixpoint skip_spaces (l : list Z) : list Z :=
  match l with
  | c :: r => if is_space c then skip_spaces r else l
  | [] => []
  end.

(** The digits at the start of [l], to the number [n] so far. *)
Fixpoint scan_digits (n : Z) (l : list Z) : Z * list Z :=
  match l with
  | c :: r => if is_digit c then scan_digits (10 * n + (c - 48)) r else (n, l)
  | [] => (n, [])
  end.

Definition scan_number (l : list Z) : option (Z * list Z) :=
  match l with
  | c :: _ => if is_digit c then Some (scan_digits 0 l) else None
  | [] => None
  end.

(** [%d] *)
Definition scan_d (l : list Z) : option (Z * list Z) :=
  match skip_spaces l with
  | 45 :: r => '(n, r) ← scan_number r; Some (- n, r)
  | 43 :: r => scan_number r
  | l => scan_number l
  end.

(** Characters that have to be there. *)
Fixpoint scan_lit (t l : list Z) : option (list Z) :=
  match t, l with
  | [], _ => Some l
  | a :: t, c :: l => if a =? c then scan_lit t l else None
  | _ :: _, [] => None
  end.

(** ["+IPD,"] *)
Definition ipd_start : list Z := [43; 73; 80; 68; 44].

(** [sscanf] of the line with [+IPD,%d,%d:] into [device_socket] and [bfsz],
    which are 0 before. *)
Definition sscanf_ipd (data : list Z) : Z * Z :=
  match scan_lit ipd_start data with
  | None => (0, 0)
  | Some l =>
      match scan_d l with
      | None => (0, 0)
      | Some (a, l) =>
          match scan_lit [44] l with
          | None => (a, 0)
          | Some l => match scan_d l with None => (a, 0) | Some (b, _) => (a, b) end
          end
      end
  end.

(** ** The function of the code +IPD *)

Definition AT_DEVICE_ESP8266_SOCKETS_NUM : Z := 5.

(** Without memory for the data: they are read and dropped, 8 bytes at a time;
    [rounds] is the number of rounds left. *)
Fixpoint drop_data (rounds : nat) (temp_size bfsz : Z) : A unit :=
  match rounds with
  | O => ret tt
  | S rounds =>
      at_client_obj_recv (Z.to_nat (if 8 <? bfsz - temp_size then 8 else bfsz - temp_size)) [] ;;;
      drop_data rounds (temp_size + 8) bfsz
  end.

(** What is passed to the callback of AT_SOCKET_EVT_RECV, if it is called.
    [calloc_ok]: [rt_calloc] has memory of this size.  A socket number behind the
    array of sockets is undefined. *)
Definition urc_recv_func (calloc_ok : Z -> bool) (data : list Z) : A (option (nat * list Z)) :=
  let '(a, b) := sscanf_ipd data in
  let device_socket := s32 a in
  let bfsz := u32 b in
  if (device_socket <? 0) || (bfsz =? 0) then ret None
  else if negb (calloc_ok bfsz) then drop_data (Z.to_nat ((bfsz + 7) / 8)) 0 bfsz ;;; ret None
  else
    '(n, recv_buf) <- at_client_obj_recv (Z.to_nat bfsz) [] ;;
    if negb (n =? bfsz) then ret None
    else if device_socket <? AT_DEVICE_ESP8266_SOCKETS_NUM then ret (Some (Z.to_nat device_socket, recv_buf))
    else undefined.

(** The codes of at_socket_esp8266.c and at_device_esp8266.c; the function of
    [+IPD] is number 4. *)
Definition esp8266_socket_urcs : list at_urc :=
  let crlf := [13; 10] in
  [mk_urc [83; 69; 78; 68; 32; 79; 75] crlf (Some 0%nat);
   mk_urc [83; 69; 78; 68; 32; 70; 65; 73; 76] crlf (Some 1%nat);
   mk_urc [82; 101; 99; 118] ([98; 121; 116; 101; 115] ++ crlf) (Some 2%nat);
   mk_urc [] ([44; 67; 76; 79; 83; 69; 68] ++ crlf) (Some 3%nat);
   mk_urc [43; 73; 80; 68] [58] (Some 4%nat)].
Definition esp8266_device_urcs : list at_urc :=
  let crlf := [13; 10] in
  [mk_urc [98; 117; 115; 121; 32; 112] crlf (Some 5%nat);
   mk_urc [98; 117; 115; 121; 32; 115] crlf (Some 6%nat);
   mk_urc [87; 73; 70; 73; 32; 67; 79; 78; 78; 69; 67; 84; 69; 68] crlf (Some 7%nat);
   mk_urc [87; 73; 70; 73; 32; 68; 73; 83; 67; 79; 78; 78; 69; 67; 84] crlf (Some 7%nat)].

(** What the functions of these codes do to the bytes behind their lines. *)
Definition esp8266_urc (calloc_ok : Z -> bool) (f : nat) (line input : list Z) : list Z :=
  match f with
  | 4%nat =>
      match urc_recv_func calloc_ok line (mk_at (at_client_para_init 8) (fun _ => mk_resp [] 0 0 0 0 0) input []) with
      | Some (_, s) => rx s
      | None => input
      end
  | _ => input
  end.

(** ** Sockets *)

Inductive at_socket_state := AT_SOCKET_NONE | AT_SOCKET_OPEN | AT_SOCKET_LISTEN | AT_SOCKET_CONNECT | AT_SOCKET_CLOSED.
#[export] Instance at_socket_state_eq_dec : EqDecision at_socket_state.
Proof. solve_decision. Defined.

(** A packet: its bytes, and how many of them have been taken ([bfsz_index]).
    [magic] is [magic == AT_SOCKET_MAGIC]; [recv_notice] counts the units of the
    semaphore as in AtClient.v. *)
Record at_socket := mk_sock {
  magic : bool;
  state : at_socket_state;
  recvpkt_list : list (list Z * Z);
  recv_notice : Z;
  rcvevent : Z;
  errevent : Z
}.

Abbreviation K := (M at_socket).

Definition with_pkts (l : list (list Z * Z)) (x : at_socket) : at_socket :=
  mk_sock x.(magic) x.(state) l x.(recv_notice) x.(rcvevent) x.(errevent).
Definition with_sock_notice (n : Z) (x : at_socket) : at_socket :=
  mk_sock x.(magic) x.(state) x.(recvpkt_list) n x.(rcvevent) x.(errevent).
Definition with_rcvevent (n : Z) (x : at_socket) : at_socket :=
  mk_sock x.(magic) x.(state) x.(recvpkt_list) x.(recv_notice) n x.(errevent).
Definition with_errevent (n : Z) (x : at_socket) : at_socket :=
  mk_sock x.(magic) x.(state) x.(recvpkt_list) x.(recv_notice) x.(rcvevent) n.
Definition with_state (st : at_socket_state) (x : at_socket) : at_socket :=
  mk_sock x.(magic) st x.(recvpkt_list) x.(recv_notice) x.(rcvevent) x.(errevent).

(** [at_do_event_changes] for AT_EVENT_RECV and AT_EVENT_ERROR. *)
Definition recv_event (is_plus : bool) : K unit :=
  modify (fun x =>
    if is_plus then with_rcvevent (u16 (x.(rcvevent) + 1)) x
    else if truthy x.(rcvevent) then with_rcvevent (x.(rcvevent) - 1) x else x).
Definition error_event : K unit := modify (fun x => with_errevent (u16 (x.(errevent) + 1)) x).

(** [ok]: there is memory for the packet. *)
Definition at_recvpkt_put (ok : bool) (ptr : list Z) : K Z :=
  if ok then
    modify (fun x => with_pkts (x.(recvpkt_list) ++ [(ptr, 0)]) x) ;;;
    ret (Z.of_nat (length ptr))
  else ret 0.

(** The loop of [at_recvpkt_get] from the first packet on, with the bytes it
    copies.  Deleting a packet frees the node whose successor is read next:
    [kept] says whether its memory still holds what it held then, which is not so
    when another thread, such as the parser, has allocated memory in between; to
    go on with something else is undefined. *)
Fixpoint recvpkt_from (kept : bool) (l : list (list Z * Z)) (content_pos len : Z) (mem : list Z) : K (Z * list Z) :=
  match l with
  | [] => ret (content_pos, mem)
  | (buff, index) :: l =>
      let page_pos := Z.of_nat (length buff) - index in
      if len - content_pos <=? page_pos then
        let n := len - content_pos in
        modify (with_pkts (if index + n =? Z.of_nat (length buff) then l else (buff, index + n) :: l)) ;;;
        ret (len, mem ++ take (Z.to_nat n) (drop (Z.to_nat index) buff))
      else
        modify (with_pkts l) ;;;
        if negb kept then undefined else
        recvpkt_from kept l (content_pos + page_pos) len (mem ++ take (Z.to_nat page_pos) (drop (Z.to_nat index) buff))
  end.

Definition at_recvpkt_get (kept : bool) (len : Z) : K (Z * list Z) :=
  l <- gets recvpkt_list ;;
  recvpkt_from kept l 0 len [].

(** The callback of AT_SOCKET_EVT_RECV. *)
Definition at_recv_notice_cb (ok : bool) (buff : list Z) : K unit :=
  x <- gets (fun x => x) ;;
  if x.(magic) then
    at_recvpkt_put ok buff ;;;
    modify (fun x => with_sock_notice (x.(recv_notice) + 1) x) ;;;
    recv_event true
  else ret tt.

Definition at_closed_notice_cb : K unit :=
  x <- gets (fun x => x) ;;
  if x.(magic) then
    recv_event true ;;;
    error_event ;;;
    modify (with_state AT_SOCKET_CLOSED) ;;;
    modify (fun x => with_sock_notice (x.(recv_notice) + 1) x)
  else ret tt.

Inductive outcome := Done (result : Z) (bytes : list Z) | Waits.

(** From [__exit] on. *)
Definition recv_exit (result recv_len : Z) (bytes : list Z) : K outcome :=
  if 0 <? recv_len then
    recv_event false ;;;
    l <- gets recvpkt_list ;;
    (match l with
     | _ :: _ => recv_event true
     | [] => modify (with_rcvevent 0)
     end) ;;;
    ret (Done recv_len bytes)
  else
    error_event ;;;
    ret (Done result []).

(** Up to the wait, on a socket that is connected or does not need to be. *)
Definition at_recvfrom (kept : bool) (len : Z) (dontwait : bool) : K outcome :=
  if len =? 0 then ret (Done (-1) [])
  else
    '(n, bytes) <- at_recvpkt_get kept len ;;
    if 0 <? n then recv_exit 0 n bytes
    else
      x <- gets (fun x => x) ;;
      if bool_decide (x.(state) = AT_SOCKET_CLOSED) then recv_exit 0 0 []
      else if negb (bool_decide (x.(state) = AT_SOCKET_CONNECT)) && negb (bool_decide (x.(state) = AT_SOCKET_OPEN))
      then recv_exit (-1) 0 []
      else if dontwait then recv_exit 0 0 []
      else ret Waits.

(** [rt_sem_take] has returned RT_EOK. *)
Definition recv_notified (kept : bool) (len : Z) : K outcome :=
  modify (fun x => with_sock_notice (x.(recv_notice) - 1) x) ;;;
  '(n, bytes) <- at_recvpkt_get kept len ;;
  if 0 <? n then recv_exit 0 n bytes else ret Waits.

(** [rt_sem_take] has returned an error. *)
Definition recv_timed_out : K outcome := recv_exit (-1) 0 [].

End AtSocket.
