(* ===== verification/AtFrames.v ===== *)
(** * Frames of data in the module's text

    The network module announces received data with [+IPD,<socket>,<size>:] and
    sends them as they are.  Whatever bytes they are, line ends, codes and
    responses included, the parser passes exactly them on, and goes on behind
    them (AtClient.v, AtSocket.v). *)

From Stdlib Require Import ZArith Lia.
From stdpp Require Import prelude functions list.
From S2P Require Import Prelude Kernel CTime App AppText AtClient AtLines AtSocket.
Import AtClient AtSocket.
Open Scope Z_scope.
Open Scope c_scope.

(** ** Reading numbers *)

Definition all_digits (l : list Z) : Prop := Forall (fun c => is_digit c = true) l.
Definition no_digit (r : list Z) : Prop := match r with c :: _ => is_digit c = false | [] => True end.

Lemma scan_digits_spec l r n :
  all_digits l -> no_digit r -> scan_digits n (l ++ r) = (foldl (fun a b => 10 * a + (b - 48)) n l, r).
Proof.
  intros Hl Hr. revert n. induction Hl as [|c l Hc Hl IH]; intros n; cbn [app scan_digits foldl].
  - destruct r as [|c r]; [done|]. cbn [scan_digits no_digit] in *. by rewrite Hr.
  - by rewrite Hc, IH.
Qed.

Lemma decimal_digits fuel n : 0 <= n -> all_digits (decimal_from fuel n).
Proof.
  revert n. induction fuel as [|fuel IH]; intros n Hn; cbn [decimal_from]; [by constructor|]. destruct (Z.ltb_spec n 10).
  - repeat constructor. unfold is_digit. lia.
  - apply Forall_app. split; [apply IH; divmod|]. repeat constructor. unfold is_digit. pose proof (Z.mod_pos_bound n 10). lia.
Qed.

Lemma decimal_cons n : 0 <= n -> exists c l, decimal n = c :: l /\ is_digit c = true.
Proof.
  intros Hn. pose proof (decimal_digits 10 n Hn) as Hd. fold (decimal n) in Hd. destruct (decimal n) as [|c l] eqn:E.
  - exfalso. unfold decimal in E. cbn [decimal_from] in E. destruct (n <? 10); [done|]. by apply app_eq_nil in E as [_ ?].
  - inversion Hd. eauto.
Qed.

Lemma scan_d_decimal n r : 0 <= n < 10 ^ 10 -> no_digit r -> scan_d (decimal n ++ r) = Some (n, r).
Proof.
  intros Hn Hr. destruct (decimal_cons n) as (c & l & E & Hc); [lia|].
  assert (scan_number (decimal n ++ r) = Some (n, r)) as Es.
  { rewrite E at 1. cbn [app scan_number]. rewrite Hc. change (c :: l ++ r) with ((c :: l) ++ r). rewrite <- E.
    rewrite scan_digits_spec; [|apply decimal_digits; lia|done]. do 2 f_equal. apply (decimal_value 10). done. }
  unfold scan_d. rewrite <- Es, E. cbn [app skip_spaces]. unfold is_digit in Hc. unfold is_space.
  replace ((c =? 32) || ((9 <=? c) && (c <=? 13))) with false by lia.
  destruct c as [|c|c]; [done| |done]. do 6 (destruct c as [c|c|]; try done).
Qed.

(** ** Headers *)

Definition ipd_header (id n : Z) : list Z := ipd_start ++ decimal id ++ [44] ++ decimal n ++ [58].

Lemma sscanf_header id n : 0 <= id < 10 ^ 10 -> 0 <= n < 10 ^ 10 -> sscanf_ipd (ipd_header id n) = (id, n).
Proof.
  intros Hi Hn. unfold sscanf_ipd, ipd_header. cbn [ipd_start app scan_lit Z.eqb Pos.eqb].
  change (ipd_start ++ _) with (43 :: 73 :: 80 :: 68 :: 44 :: decimal id ++ [44] ++ decimal n ++ [58]).
  cbn [scan_lit Z.eqb Pos.eqb]. rewrite scan_d_decimal by done. cbn [app scan_lit Z.eqb Pos.eqb]. by rewrite scan_d_decimal.
Qed.

Definition ipd_urc : at_urc := mk_urc [43; 73; 80; 68] [58] (Some 4%nat).

(** The codes of a table with this one: the others end with a line feed. *)
Definition ends_with_lf (u : at_urc) : Prop := exists k, u.(cmd_suffix) = k ++ [10].
Definition ipd_table (l : list at_urc) : Prop :=
  exists pre post, l = pre ++ ipd_urc :: post /\ Forall ends_with_lf pre /\ Forall ends_with_lf post.

Lemma esp8266_table : ipd_table (concat [esp8266_device_urcs; esp8266_socket_urcs]).
Proof.
  exists (esp8266_device_urcs ++ take 4 esp8266_socket_urcs), []. split; [done|]. split; [|constructor].
  apply (Forall_impl (fun u => last (cmd_suffix u) = Some 10)); [by repeat constructor|].
  intros u [k E]%last_Some. by exists k.
Qed.

Lemma not_lf_urc u p d : ends_with_lf u -> d <> 10 -> ~ is_urc (p ++ [d]) u.
Proof.
  intros [k E] Hd (_ & [z Hs] & _). rewrite E, app_assoc in Hs. by apply app_inj_tail in Hs as [_ ?].
Qed.

Lemma not_ipd_urc p d : d <> 58 -> ~ is_urc (p ++ [d]) ipd_urc.
Proof. intros Hd (_ & [z Hs] & _). cbn in Hs. by apply app_inj_tail in Hs as [_ ?]. Qed.

Lemma first_urc_none line l : Forall (fun u => ~ is_urc line u) l -> first_urc line l = None.
Proof. induction 1 as [|u l Hu Hl IH]; [done|]. cbn [first_urc]. by rewrite decide_False. Qed.

Lemma first_urc_app line l1 l2 : first_urc line l1 = None -> first_urc line (l1 ++ l2) = first_urc line l2.
Proof. induction l1 as [|u l1 IH]; [done|]. cbn [first_urc app]. by case_decide. Qed.

(** The characters of a header but the last do not end a line. *)
Definition plain (c : Z) : Prop := c <> 10 /\ c <> 13 /\ c <> 58 /\ c <> 62 /\ is_char c.

Lemma header_plain id n : 0 <= id -> 0 <= n -> Forall plain (ipd_start ++ decimal id ++ [44] ++ decimal n).
Proof.
  intros Hi Hn. assert (forall k, 0 <= k -> Forall plain (decimal k)) as Hd.
  { intros k Hk. eapply Forall_impl; [apply (decimal_digits 10 k Hk)|]. intros c. unfold is_digit, plain, is_char. lia. }
  repeat (apply Forall_app; split); auto; repeat (constructor; [unfold plain, is_char; lia|]); constructor.
Qed.

Section client.
Context (c : at_client) (Hsign : c.(end_sign) = 0 \/ c.(end_sign) = 62) (Htab : ipd_table (concat c.(urc_table))).

Lemma plain_not_end p d : Forall plain (p ++ [d]) -> Z.of_nat (length (p ++ [d])) <= recv_bufsz c -> ends c (p ++ [d]) = false.
Proof.
  intros Hp Hl. apply Forall_app in Hp as [_ Hd]. inversion Hd as [|? ? (H10 & H13 & H58 & H62 & Hch) _]. subst.
  unfold ends. rewrite <- newline_suffix, <- sign_suffix. rewrite firstn_all2 by lia.
  rewrite (first_urc_none (p ++ [d])).
  - replace (d =? 10) with false by lia. replace (truthy (end_sign c) && (d =? end_sign c)) with false; [done|].
    unfold truthy. destruct Hsign as [-> | ->]; cbn [Z.eqb negb andb]; [done|]. symmetry. by apply Z.eqb_neq.
  - destruct Htab as (pre & post & -> & Hpre & Hpost). apply Forall_app. split; [|constructor].
    + eapply Forall_impl; [exact Hpre|]. intros u Hu. by apply not_lf_urc.
    + by apply not_ipd_urc.
    + eapply Forall_impl; [exact Hpost|]. intros u Hu. by apply not_lf_urc.
Qed.

Lemma cut_first k : forall p ch rest,
  (forall k1 ch1 k2, k = k1 ++ ch1 :: k2 -> ends c (p ++ k1 ++ [ch1]) = false) -> ends c (p ++ k ++ [ch]) = true ->
  cut c p (k ++ ch :: rest) = Some (p ++ k ++ [ch], rest).
Proof.
  induction k as [|b k IH]; intros p ch rest Hk He; cbn [app cut].
  - cbn [app] in He. by rewrite He.
  - pose proof (Hk [] b k eq_refl) as Hb. cbn [app] in Hb. rewrite Hb, IH.
    + by rewrite <- app_assoc.
    + intros k1 ch1 k2 ->. rewrite <- app_assoc. by apply (Hk (b :: k1) ch1 k2).
    + by rewrite <- app_assoc.
Qed.

Lemma header_urc body : first_urc ((ipd_start ++ body) ++ [58]) (concat c.(urc_table)) = Some ipd_urc.
Proof.
  destruct Htab as (pre & post & -> & Hpre & Hpost). rewrite first_urc_app.
  - cbn [first_urc]. rewrite decide_True; [done|]. split; [|split].
    + by exists ([44] ++ body ++ [58]).
    + by exists (ipd_start ++ body).
    + rewrite !length_app. cbn. lia.
  - apply first_urc_none. eapply Forall_impl; [exact Hpre|]. intros u Hu. by apply not_lf_urc.
Qed.

(** The header is a line. *)
Lemma next_line_header id n input :
  0 <= id -> 0 <= n -> Z.of_nat (length (ipd_header id n)) <= recv_bufsz c ->
  next_line c (ipd_header id n ++ input) = Some (ipd_header id n, input) /\
  first_urc (ipd_header id n) (concat c.(urc_table)) = Some ipd_urc.
Proof.
  intros Hi Hn Hl. set (body := decimal id ++ [44] ++ decimal n).
  assert (ipd_header id n = (ipd_start ++ body) ++ [58]) as E by (unfold ipd_header, body; by rewrite <- !app_assoc).
  rewrite E in *. split; [|apply header_urc]. rewrite <- app_assoc. cbn [app]. unfold next_line.
  pose proof (header_plain id n Hi Hn) as Hp. fold body in Hp. apply cut_first; cbn [app].
  - intros k1 ch1 k2 E'. rewrite E' in *. apply plain_not_end.
    + change (ch1 :: k2) with ([ch1] ++ k2) in Hp. rewrite app_assoc in Hp. by apply Forall_app in Hp as [? _].
    + rewrite !length_app in *. cbn in *. lia.
  - unfold ends. rewrite firstn_all2 by lia. rewrite header_urc. apply orb_true_r.
Qed.
End client.

(** ** Reading the data *)

Lemma obj_recv_spec n : forall got s,
  (n <= length (rx s))%nat ->
  at_client_obj_recv n got s = Some ((Z.of_nat (length got + n), got ++ take n (rx s)),
    mk_at (client s) (responses s) (drop n (rx s)) (urc_calls s)).
Proof.
  induction n as [|n IH]; intros got s Hl; cbn [at_client_obj_recv].
  - rewrite Nat.add_0_r, take_0, app_nil_r, drop_0. by destruct s.
  - unfold bind, at_client_getchar. destruct (rx s) as [|ch l] eqn:E; [cbn in Hl; lia|]. rewrite IH by (cbn in *; lia).
    cbn [rx client responses urc_calls take drop]. rewrite length_app, <- app_assoc. cbn [length app].
    by replace (length got + 1 + n)%nat with (length got + S n)%nat by lia.
Qed.

Lemma urc_recv_header calloc_ok id data input s :
  0 <= id < AT_DEVICE_ESP8266_SOCKETS_NUM -> 1 <= Z.of_nat (length data) < 2 ^ 31 -> calloc_ok (Z.of_nat (length data)) = true ->
  rx s = data ++ input ->
  urc_recv_func calloc_ok (ipd_header id (Z.of_nat (length data))) s
    = Some (Some (Z.to_nat id, data), mk_at (client s) (responses s) input (urc_calls s)).
Proof.
  intros Hi Hn Hc Erx. unfold AT_DEVICE_ESP8266_SOCKETS_NUM in *. unfold urc_recv_func. rewrite sscanf_header by lia.
  assert (s32 id = id) as -> by (unfold s32, swrap; change (2 ^ (32 - 1)) with 2147483648; divmod).
  rewrite u32_small by lia. rewrite Hc. replace ((id <? 0) || (Z.of_nat (length data) =? 0)) with false by lia. cbn [negb].
  rewrite Nat2Z.id. unfold bind. rewrite obj_recv_spec by (rewrite Erx, length_app; lia). cbn [length Nat.add app].
  rewrite Erx, take_app_length, drop_app_length, Z.eqb_refl. cbn [negb]. unfold AT_DEVICE_ESP8266_SOCKETS_NUM.
  by rewrite (proj2 (Z.ltb_lt _ _)) by lia.
Qed.

(** C5: Data that the network module has received are passed on as they are.
    When its text contains [+IPD,<socket>,<size>:] at the start of a line and
    that many bytes behind it, the parser, with the codes of the module's driver
    and with or without the end sign of a send in progress, reads exactly this
    header and these bytes, whatever the bytes are (CR LF, OK or another header
    among them), calls the function of the code, which hands exactly these bytes
    to the socket, and goes on behind them; the command in progress, its response
    and its notice are left alone. *)
Theorem network_data_are_transparent calloc_ok s id data rest :
  client_ok s.(client) -> s.(client).(end_sign) = 0 \/ s.(client).(end_sign) = 62 ->
  concat s.(client).(urc_table) = concat [esp8266_device_urcs; esp8266_socket_urcs] ->
  0 <= id < AT_DEVICE_ESP8266_SOCKETS_NUM -> 1 <= Z.of_nat (length data) < 2 ^ 31 -> calloc_ok (Z.of_nat (length data)) = true ->
  Z.of_nat (length (ipd_header id (Z.of_nat (length data)))) <= s.(client).(recv_bufsz) ->
  Forall is_char s.(rx) -> s.(rx) = ipd_header id (Z.of_nat (length data)) ++ data ++ rest ->
  exists s', client_parser (esp8266_urc calloc_ok) s = Some (true, s') /\
    s'.(rx) = rest /\ s'.(responses) = s.(responses) /\ s'.(client).(resp) = s.(client).(resp) /\
    s'.(client).(resp_notice) = s.(client).(resp_notice) /\ s'.(client).(resp_status) = s.(client).(resp_status) /\
    exists line input,
      s'.(urc_calls) = (4%nat, line, input) :: s.(urc_calls) /\
      forall t, t.(rx) = input -> exists t', urc_recv_func calloc_ok line t = Some (Some (Z.to_nat id, data), t') /\ t'.(rx) = rest.
Proof.
  intros Hok Hsign Htab Hid Hn Hc Hlen Hch Erx. set (h := ipd_header id (Z.of_nat (length data))) in *.
  assert (ipd_table (concat (urc_table (client s)))) as Ht by (rewrite Htab; apply esp8266_table).
  destruct (next_line_header (client s) Hsign Ht id (Z.of_nat (length data)) (data ++ rest)) as [Enl Eu]; [lia|lia|done|].
  fold h in Enl, Eu. unfold client_parser, bind at 1. rewrite readline_spec by done. rewrite Erx, Enl. cbn [line_read].
  rewrite (proj2 (Z.leb_le _ _) Hlen). pose proof (co_size _ Hok) as Hsz.
  assert (0 < Z.of_nat (length h)) as Hpos by (unfold h, ipd_header; rewrite !length_app; cbn; lia).
  rewrite (proj2 (Z.ltb_lt _ _) Hpos). set (n := recv_bufsz (client s)) in *. set (a1 := at_line _ _ _ _).
  assert (get_urc_obj (client a1) = Some (Some ipd_urc)) as Eu1.
  { unfold get_urc_obj, a1. cbn [at_line client with_line recv_line_buf recv_line_len urc_table]. rewrite padded_short by done.
    rewrite <- Eu. apply find_urc_spec; [|apply Hok]. rewrite <- padded_short by done. apply padded_chars.
    rewrite Erx in Hch. by apply Forall_app in Hch as [? _]. }
  assert (take (Z.to_nat (recv_line_len (client a1))) (recv_line_buf (client a1)) = h) as El.
  { unfold a1. cbn [at_line client with_line recv_line_buf recv_line_len]. rewrite Nat2Z.id, padded_short by done. apply take_app_length. }
  unfold bind at 1, parse_line, bind at 1, gets at 1. rewrite Eu1. unfold bind at 1, run at 1, ret at 1. cbn [ipd_urc func].
  rewrite El. unfold modify. cbn [client responses rx urc_calls a1 at_line].
  eexists. split; [reflexivity|]. cbn [rx responses client urc_calls with_line resp resp_notice resp_status esp8266_urc].
  unfold h at 1. rewrite (urc_recv_header calloc_ok id data rest) by done. cbn [rx].
  do 5 (split; [done|]). exists h, (data ++ rest). split; [done|]. intros t Et. eexists. split; [by apply urc_recv_header|done].
Qed.

(** ["+IPD,1,6:OK CR LF >a"] and an OK behind it. *)
Definition demo_data : list Z := [79; 75; 13; 10; 62; 97].
Definition demo_frame : at_sys :=
  mk_at (mk_client false 0 (replicate 64 0) 0 64 None 0 0 [esp8266_device_urcs; esp8266_socket_urcs])
    (fun _ => mk_resp [] 0 0 0 0 0) (ipd_header 1 6 ++ demo_data ++ [79; 75; 13; 10]) [].

Lemma network_data_are_transparent_witness :
  exists s', client_parser (esp8266_urc (fun _ => true)) demo_frame = Some (true, s') /\ s'.(rx) = [79; 75; 13; 10] /\
    exists line input, s'.(urc_calls) = [(4%nat, line, input)] /\
      exists t', urc_recv_func (fun _ => true) line (mk_at s'.(client) s'.(responses) input []) = Some (Some (1%nat, demo_data), t').
Proof.
  destruct (network_data_are_transparent (fun _ => true) demo_frame 1 demo_data [79; 75; 13; 10])
    as (s' & E & Er & _ & _ & _ & _ & line & input & El & Ht).
  - split; [done|]. by repeat constructor.
  - by left.
  - reflexivity.
  - unfold AT_DEVICE_ESP8266_SOCKETS_NUM. lia.
  - cbn. lia.
  - reflexivity.
  - vm_compute. discriminate.
  - vm_compute. by repeat constructor.
  - reflexivity.
  - exists s'. split; [done|]. split; [done|]. exists line, input. split; [done|].
    destruct (Ht (mk_at (client s') (responses s') input [])) as (t' & E' & _); [done|]. by exists t'.
Defined.
