(* ===== verification/AtStream.v ===== *)
(** * A socket as a stream of bytes

    The parser puts packets on the list of a socket, the program takes any number
    of bytes at a time from it (AtSocket.v): what is taken is what was put, in
    order, whatever the sizes are. *)

From Stdlib Require Import ZArith Lia.
From stdpp Require Import prelude functions list.
From S2P Require Import Prelude Kernel AtClient AtSocket.
Import AtSocket.
Open Scope Z_scope.
Open Scope c_scope.

Module AtStream.

(** ** Packets *)

(** The bytes that are left, and packets that have some. *)
Definition left_in (p : list Z * Z) : list Z := drop (Z.to_nat p.2) p.1.
Definition pending (l : list (list Z * Z)) : list Z := concat (map left_in l).
Definition pkt_ok (p : list Z * Z) : Prop := 0 <= p.2 < Z.of_nat (length p.1).

Lemma length_left p : pkt_ok p -> Z.of_nat (length (left_in p)) = Z.of_nat (length p.1) - p.2.
Proof. unfold pkt_ok, left_in. intros H. rewrite length_drop. lia. Qed.

(** The loop goes on behind the first packet, whose node it has freed. *)
Definition reads_freed (len : Z) (l : list (list Z * Z)) : bool :=
  match l with p :: _ => Z.of_nat (length (left_in p)) <? len | [] => false end.

Lemma recvpkt_spec kept : forall l content_pos len mem x,
  Forall pkt_ok l -> 0 <= content_pos < len -> x.(recvpkt_list) = l ->
  if negb kept && reads_freed (len - content_pos) l then recvpkt_from kept l content_pos len mem x = None
  else exists l', let want := Z.to_nat (len - content_pos) in
    recvpkt_from kept l content_pos len mem x
      = Some ((Z.min len (content_pos + Z.of_nat (length (pending l))), mem ++ take want (pending l)), with_pkts l' x) /\
    Forall pkt_ok l' /\ pending l' = drop want (pending l).
Proof.
  induction l as [|[b i] l IH]; intros cp len mem x Hok Hcp Ex; cbn [recvpkt_from reads_freed].
  { rewrite andb_false_r. exists []. cbn [pending map concat length Z.of_nat]. rewrite take_nil, drop_nil, app_nil_r.
    split; [|done]. replace (Z.min len _) with cp by lia. destruct x. cbn in Ex. by subst. }
  inversion Hok as [|? ? Hp Hl]. subst. pose proof (length_left (b, i) Hp) as El. cbn [fst snd] in El. destruct Hp as [Hi Hib]. cbn [fst snd] in *.
  set (want := Z.to_nat (len - cp)). change (pending ((b, i) :: l)) with (left_in (b, i) ++ pending l). cbv zeta.
  set (d := left_in (b, i)) in *. change (drop (Z.to_nat i) b) with d.
  destruct (Z.leb_spec (len - cp) (Z.of_nat (length b) - i)) as [Hle|Hgt].
  - rewrite (proj2 (Z.ltb_ge _ _)) by lia. rewrite andb_false_r.
    exists (if i + (len - cp) =? Z.of_nat (length b) then l else (b, i + (len - cp)) :: l).
    assert (Z.min len (cp + Z.of_nat (length (d ++ pending l))) = len) as -> by (rewrite length_app; lia).
    rewrite take_app_le by lia. rewrite drop_app_le by lia. split; [|split].
    + unfold bind, modify, ret. by destruct x.
    + destruct (Z.eqb_spec (i + (len - cp)) (Z.of_nat (length b))); [done|]. constructor; [|done]. split; cbn; lia.
    + destruct (Z.eqb_spec (i + (len - cp)) (Z.of_nat (length b))) as [E|E].
      * rewrite (drop_ge d) by lia. done.
      * change (left_in (b, i + (len - cp)) ++ pending l = drop want d ++ pending l). f_equal. unfold d, left_in. cbn [fst snd].
        rewrite drop_drop. f_equal. lia.
  - rewrite (proj2 (Z.ltb_lt _ _)) by lia. destruct kept; cbn [negb andb]; [|done]. set (x1 := with_pkts l x).
    destruct (IH (cp + (Z.of_nat (length b) - i)) len (mem ++ d) x1 Hl) as (l' & E & Hl' & Ep); [lia|done|].
    exists l'. unfold bind at 1, modify at 1. fold x1.
    replace (take (Z.to_nat (Z.of_nat (length b) - i)) d) with d by (symmetry; apply firstn_all2; lia). rewrite E.
    replace (Z.to_nat (len - (cp + (Z.of_nat (length b) - i)))) with (want - length d)%nat in * by lia.
    split; [|split; [done|]].
    + rewrite take_app_ge by lia. rewrite <- app_assoc.
      replace (Z.of_nat (length (d ++ pending l))) with (Z.of_nat (length b) - i + Z.of_nat (length (pending l))) by (rewrite length_app; lia).
      by rewrite Z.add_assoc.
    + rewrite drop_app_ge by lia. done.
Qed.

Lemma get_spec kept len x :
  Forall pkt_ok x.(recvpkt_list) -> 0 < len ->
  let d := pending x.(recvpkt_list) in
  if negb kept && reads_freed len x.(recvpkt_list) then at_recvpkt_get kept len x = None
  else exists l', at_recvpkt_get kept len x = Some ((Z.min len (Z.of_nat (length d)), take (Z.to_nat len) d), with_pkts l' x) /\
    Forall pkt_ok l' /\ pending l' = drop (Z.to_nat len) d.
Proof.
  intros Hok Hlen d. pose proof (recvpkt_spec kept (recvpkt_list x) 0 len [] x Hok ltac:(lia) eq_refl) as H.
  unfold at_recvpkt_get, bind at 1 2, gets at 1 2. cbv zeta in H. rewrite Z.sub_0_r in H.
  destruct (negb kept && _); [done|]. destruct H as (l' & E & H). exists l'. by rewrite E.
Qed.

(** Packets with bytes left. *)
Lemma pending_nil l : Forall pkt_ok l -> pending l = [] -> l = [].
Proof.
  intros Hl E. destruct Hl as [|p l Hp Hl]; [done|]. exfalso. pose proof (length_left p Hp) as El. destruct Hp as [_ Hp].
  cbn in E. apply app_eq_nil in E as [E _]. rewrite E in El. cbn in El. lia.
Qed.

(** ** Steps *)

(** One thread receives; [waits]: it waits for this many bytes.  [put] and [got]:
    the bytes that were put on the list and taken from it so far. *)
Record sys := mk_sys {
  sock : at_socket;
  waits : option Z;
  put : list Z;
  got : list Z
}.

(** AData: data, and whether there is memory for the packet; [kept]: whether the
    memory of a node that the call frees keeps its contents until it is read. *)
Inductive action :=
| AData (ok : bool) (data : list Z)
| AClose
| ARecv (len : Z) (dontwait kept : bool)
| ANotified (kept : bool)
| ATimeout.

(** What the receiving thread sees of its call. *)
Inductive event := Returned (len result : Z) (bytes : list Z) | Blocked | Nothing.

Definition received (len : Z) (o : option (outcome * at_socket)) (s : sys) : option (event * sys) :=
  match o with
  | Some (Done r b, x) => Some (Returned len r b, mk_sys x None s.(put) (s.(got) ++ b))
  | Some (Waits, x) => Some (Blocked, mk_sys x (Some len) s.(put) s.(got))
  | None => None
  end.

Definition sock_step (a : action) (s : sys) : option (event * sys) :=
  match a with
  | AData ok d =>
      match at_recv_notice_cb ok d s.(sock) with
      | Some (_, x) => Some (Nothing, mk_sys x s.(waits) (if s.(sock).(magic) && ok then s.(put) ++ d else s.(put)) s.(got))
      | None => None
      end
  | AClose =>
      match at_closed_notice_cb s.(sock) with
      | Some (_, x) => Some (Nothing, mk_sys x s.(waits) s.(put) s.(got))
      | None => None
      end
  | ARecv len dontwait kept => received len (at_recvfrom kept len dontwait s.(sock)) s
  | ANotified kept => match s.(waits) with Some len => received len (recv_notified kept len s.(sock)) s | None => None end
  | ATimeout => match s.(waits) with Some len => received len (recv_timed_out s.(sock)) s | None => None end
  end.

Definition enabled (a : action) (s : sys) : Prop :=
  match a with
  | AData _ d => d <> []
  | AClose => True
  | ARecv len _ _ => s.(waits) = None /\ 0 <= len
  | ANotified _ => s.(waits) <> None /\ 0 < s.(sock).(recv_notice)
  | ATimeout => s.(waits) <> None
  end.

(** The call reads a node that it has freed and that no longer holds its
    contents. *)
Definition reused (a : action) (s : sys) : bool :=
  match a with
  | ARecv len _ kept => negb kept && reads_freed len s.(sock).(recvpkt_list)
  | ANotified kept =>
      match s.(waits) with
      | Some len => negb kept && reads_freed len s.(sock).(recvpkt_list)
      | None => false
      end
  | _ => false
  end.

(** A socket without packets, nobody receiving. *)
Definition initial (s : sys) : Prop :=
  s.(sock).(recvpkt_list) = [] /\ 0 <= s.(sock).(recv_notice) /\ s.(waits) = None /\ s.(put) = [] /\ s.(got) = [].

Inductive reach : sys -> Prop :=
| reach_start s : initial s -> reach s
| reach_step s a e s' : reach s -> enabled a s -> sock_step a s = Some (e, s') -> reach s'.

(** ** The invariant *)

Record inv (s : sys) : Prop := {
  inv_pkts : Forall pkt_ok s.(sock).(recvpkt_list);
  inv_stream : s.(put) = s.(got) ++ pending s.(sock).(recvpkt_list);
  inv_notice : 0 <= s.(sock).(recv_notice);
  inv_waits len : s.(waits) = Some len -> 0 < len /\ (s.(sock).(recvpkt_list) <> [] -> 0 < s.(sock).(recv_notice))
}.

(** What a call returns when [d] is pending: bytes, as many as there are and were
    asked for, or none, but not after a notice; it waits when nothing is there. *)
Definition fair (a : action) (d : list Z) (e : event) : Prop :=
  match e with
  | Returned len r b =>
      (b = take (Z.to_nat len) d /\ r = Z.of_nat (length b) /\ b <> []) \/
      ((forall kept, a <> ANotified kept) /\ b = [] /\ r <= 0 /\ (r = 0 -> d = []))
  | Blocked => d = []
  | Nothing => True
  end.

Definition good (a : action) (s : sys) (r : option (event * sys)) : Prop :=
  if reused a s then r = None else
  exists e s', r = Some (e, s') /\ inv s' /\ fair a (pending s.(sock).(recvpkt_list)) e.

(** A call that ends without bytes. *)
Lemma exit_none result x :
  exists x', recv_exit result 0 [] x = Some (Done result [], x') /\
    x'.(recvpkt_list) = x.(recvpkt_list) /\ x'.(recv_notice) = x.(recv_notice).
Proof. by eexists. Qed.

(** A call that ends with bytes: only the events change. *)
Lemma exit_some result n b x :
  0 < n ->
  exists x', recv_exit result n b x = Some (Done n b, x') /\
    x'.(recvpkt_list) = x.(recvpkt_list) /\ x'.(recv_notice) = x.(recv_notice).
Proof.
  intros Hn. unfold recv_exit. rewrite (proj2 (Z.ltb_lt _ _) Hn). unfold recv_event, bind, modify, gets, ret.
  destruct x as [mg st l nt re ee]. cbn. destruct (truthy re); destruct l; by eexists.
Qed.

(** Taking bytes in the middle of a call, [k] being the rest when there are none. *)
Lemma take_bytes a s kept len nt (k : K outcome) :
  inv s -> 0 < len -> 0 <= nt -> reused a s = negb kept && reads_freed len s.(sock).(recvpkt_list) ->
  let d := pending s.(sock).(recvpkt_list) in
  (d = [] -> s.(sock).(recvpkt_list) = [] -> good a s (received len (k (with_sock_notice nt s.(sock))) s)) ->
  good a s (received len (('(n, bytes) <- at_recvpkt_get kept len ;; if 0 <? n then recv_exit 0 n bytes else k) (with_sock_notice nt s.(sock))) s).
Proof.
  intros [Hp Hst Hnt Hw] Hlen Hn Hre d Hk. pose proof (get_spec kept len (with_sock_notice nt (sock s)) Hp Hlen) as Hget.
  cbn [recvpkt_list with_sock_notice] in Hget. fold d in Hget. unfold good in Hk |- *. rewrite <- Hre in Hget.
  destruct (reused a s); [unfold bind; by rewrite Hget|]. destruct Hget as (l' & E & Hl & Ep).
  destruct (decide (d = [])) as [Ed|Ed].
  { pose proof (pending_nil _ Hp Ed) as El. specialize (Hk Ed El). unfold bind at 1, at_recvpkt_get, gets, bind.
    cbn [recvpkt_list with_sock_notice]. rewrite El in Hk |- *. cbn. exact Hk. }
  rewrite (bind_eq _ _ _ _ _ E). assert (0 < Z.min len (Z.of_nat (length d))) as Hpos by (destruct d; [done|cbn; lia]).
  rewrite (proj2 (Z.ltb_lt _ _) Hpos).
  destruct (exit_some 0 _ (take (Z.to_nat len) d) (with_pkts l' (with_sock_notice nt (sock s))) Hpos) as (x' & Ex & El & En).
  rewrite Ex. eexists _, _. split; [done|]. split.
  - split; cbn [sock waits put got]; rewrite ?El, ?En; try done. change (put s = (got s ++ take (Z.to_nat len) d) ++ pending l'). by rewrite Hst, Ep, <- app_assoc, take_drop.
  - left. fold d. split; [done|]. split; [rewrite length_take; lia|]. intros E0. apply (f_equal length) in E0. rewrite length_take in E0.
    cbn in E0. lia.
Qed.

(** Nothing is taken. *)
Lemma no_bytes a s len result (x : at_socket) :
  (forall kept, a <> ANotified kept) -> reused a s = false -> inv s -> result <= 0 -> (result = 0 -> pending s.(sock).(recvpkt_list) = []) ->
  x.(recvpkt_list) = s.(sock).(recvpkt_list) -> x.(recv_notice) = s.(sock).(recv_notice) ->
  good a s (received len (Some (Done result [], x)) s).
Proof.
  intros Ha Hre [Hp Hst Hnt Hw] Hr H0 El En. unfold good. rewrite Hre. eexists _, _. split; [done|]. split; [|by right].
  split; cbn [sock waits put got]; rewrite ?El, ?En, ?app_nil_r; done.
Qed.

Lemma with_same_notice x : with_sock_notice x.(recv_notice) x = x.
Proof. by destruct x. Qed.

Lemma no_freed len kept l : len <= 0 \/ l = [] -> negb kept && reads_freed len l = false.
Proof.
  intros [H| ->]; [|by rewrite andb_false_r]. destruct l as [|p l]; cbn; [by rewrite andb_false_r|].
  rewrite (proj2 (Z.ltb_ge _ _)) by lia. by rewrite andb_false_r.
Qed.

Lemma stream_recv_good s len dontwait kept :
  inv s -> 0 <= len -> good (ARecv len dontwait kept) s (received len (at_recvfrom kept len dontwait s.(sock)) s).
Proof.
  intros Hi Hlen. unfold at_recvfrom. destruct (Z.eqb_spec len 0) as [->|Hne].
  { apply no_bytes; try done. apply no_freed. by left. }
  rewrite <- (with_same_notice (sock s)) at 1. apply take_bytes; [done|lia|apply (inv_notice _ Hi)|done|]. intros Ed El.
  rewrite with_same_notice. unfold bind at 1, gets at 1.
  assert (reused (ARecv len dontwait kept) s = false) as Hre by (apply no_freed; by right).
  repeat case_match; try (by apply no_bytes). unfold good. rewrite Hre. eexists _, _. split; [done|]. split; [|done].
  destruct Hi as [Hp Hst Hnt Hw]. split; cbn [sock waits put got]; try done. intros len' [= <-]. split; [lia|done].
Qed.

Lemma notified_good s len kept :
  inv s -> s.(waits) = Some len -> 0 < s.(sock).(recv_notice) ->
  good (ANotified kept) s (received len (recv_notified kept len s.(sock)) s).
Proof.
  intros Hi Hw Hn. destruct (inv_waits _ Hi _ Hw) as [Hlen _]. unfold recv_notified. unfold bind at 1, modify at 1.
  apply take_bytes; [done|done|lia|cbn; by rewrite Hw|]. intros Ed El.
  assert (reused (ANotified kept) s = false) as Hre by (cbn; rewrite Hw; apply no_freed; by right).
  unfold good. rewrite Hre. eexists _, _. split; [done|]. split; [|done].
  destruct Hi as [Hp Hst Hnt Hw']. split; cbn; try done; [lia|]. intros len' [= <-]. done.
Qed.

Lemma data_good s ok d : inv s -> d <> [] -> good (AData ok d) s (sock_step (AData ok d) s).
Proof.
  intros [Hp Hst Hnt Hw] Hd. unfold sock_step, at_recv_notice_cb. unfold bind at 1, gets at 1.
  destruct (magic (sock s)) eqn:Em; [|by eexists _, _].
  destruct ok; (eexists _, _; split; [reflexivity|]; split; [|done]); split; cbn.
  - apply Forall_app. split; [done|]. constructor; [|done]. split; cbn; [lia|]. destruct d; [done|cbn; lia].
  - rewrite Hst. unfold pending. rewrite map_app, concat_app. cbn. unfold left_in at 3. cbn. by rewrite drop_0, app_nil_r, app_assoc.
  - lia.
  - intros len E. destruct (Hw _ E). lia.
  - done.
  - done.
  - lia.
  - intros len E. destruct (Hw _ E). lia.
Qed.

Lemma close_good s : inv s -> good AClose s (sock_step AClose s).
Proof.
  intros [Hp Hst Hnt Hw]. unfold sock_step, at_closed_notice_cb. unfold bind at 1, gets at 1.
  destruct (magic (sock s)) eqn:Em; [|by eexists _, _].
  eexists _, _; split; [reflexivity|]; split; [|done]; split; cbn; try done; [lia|]. intros len E. destruct (Hw _ E). lia.
Qed.

Lemma stream_step_good s a : inv s -> enabled a s -> good a s (sock_step a s).
Proof.
  intros Hi He. destruct a as [ok d| |len dw kept|kept|]; cbn [enabled] in He.
  - by apply data_good.
  - by apply close_good.
  - destruct He as [Hw Hl]. by apply stream_recv_good.
  - cbn [sock_step]. destruct He as [Hw Hn]. destruct (waits s) as [len|] eqn:E; [|done]. by apply notified_good.
  - cbn [sock_step]. destruct (waits s) as [len|] eqn:E; [|done]. unfold recv_timed_out.
    destruct (exit_none (-1) (sock s)) as (x & -> & El & En). apply no_bytes; [done|done|done|lia|lia|done|done].
Qed.

Lemma stream_reach_inv s : reach s -> inv s.
Proof.
  induction 1 as [s (El & Hn & Hw & Hp & Hg)|s a e s' _ IH He E].
  - split; rewrite ?El, ?Hp, ?Hg; try done. intros len. by rewrite Hw.
  - pose proof (stream_step_good s a IH He) as Hg. unfold good in Hg. destruct (reused a s); [congruence|].
    destruct Hg as (e' & s2 & E' & Hi & _). congruence.
Qed.

Lemma received_len len o s e s' : received len o s = Some (e, s') -> e = Blocked \/ exists r b, e = Returned len r b.
Proof. unfold received. intros E. repeat case_match; simplify_eq; eauto. Qed.

(** ** The stream *)

(** C9: A socket of the AT layer is a stream of bytes.  Whatever the parser puts
    on it (with or without memory for a packet), whatever a thread asks for, and
    however its waits end: a step returns unless a call that takes more than the
    first packet finds the memory of the node it has just freed in use again
    (at_socket.c:167 reads the successor from there), which is undefined; the
    bytes taken so far, followed by the bytes still on the list, are exactly the
    bytes put, in order; a call returns the first [len] pending bytes, or all of
    them when there are fewer, or no byte and a result of at most 0, which is 0
    only when nothing is pending; it waits only when nothing is pending; and a
    receiver that waits while there are bytes has been notified, so the end of
    its wait gives it at least one. *)
Theorem socket_is_a_byte_stream s :
  reach s ->
  s.(put) = s.(got) ++ pending s.(sock).(recvpkt_list) /\
  (forall a, enabled a s ->
     if reused a s then sock_step a s = None
     else exists e s', sock_step a s = Some (e, s') /\ fair a (pending s.(sock).(recvpkt_list)) e) /\
  (forall len, s.(waits) = Some len -> pending s.(sock).(recvpkt_list) <> [] ->
     forall kept, enabled (ANotified kept) s /\
     (reused (ANotified kept) s = false -> exists b s', sock_step (ANotified kept) s = Some (Returned len (Z.of_nat (length b)) b, s') /\
       b = take (Z.to_nat len) (pending s.(sock).(recvpkt_list)) /\ b <> [])).
Proof.
  intros H. pose proof (stream_reach_inv s H) as Hi. split; [apply (inv_stream _ Hi)|]. split.
  { intros a Ha. pose proof (stream_step_good s a Hi Ha) as Hg. unfold good in Hg. destruct (reused a s); [done|].
    destruct Hg as (e & s' & E & _ & Hf). by exists e, s'. }
  intros len Hw Hd kept. destruct (inv_waits _ Hi _ Hw) as [Hlen Hn].
  assert (recvpkt_list (sock s) <> []) as Hl by (intros E; rewrite E in Hd; done).
  assert (enabled (ANotified kept) s) as He by (split; [by rewrite Hw|by apply Hn]). split; [done|]. intros Hre.
  pose proof (stream_step_good s (ANotified kept) Hi He) as Hg. unfold good in Hg. rewrite Hre in Hg.
  destruct Hg as (e & s' & E & _ & Hf). cbn [sock_step] in *. rewrite Hw in *.
  destruct (received_len _ _ _ _ _ E) as [-> | (r & b & ->)]; [done|]. destruct Hf as [(Hb & -> & Hb0)|[Hx _]]; [|by destruct (Hx kept)].
  by exists b, s'.
Qed.

Definition open_socket : at_socket := mk_sock true AT_SOCKET_CONNECT [] 0 0 0.
Definition demo_start : sys := mk_sys open_socket None [] [].

Lemma socket_is_a_byte_stream_witness :
  exists s, reach s /\ s.(got) = [1; 2; 3; 4] /\ pending s.(sock).(recvpkt_list) = [5] /\
    s.(put) = s.(got) ++ pending s.(sock).(recvpkt_list) /\
    exists e s', sock_step (ARecv 10 false true) s = Some (e, s') /\ fair (ARecv 10 false true) [5] e.
Proof.
  eassert (reach _) as H.
  { eapply (reach_step _ (ARecv 4 false true)).
    - eapply (reach_step _ (AData true [4; 5])).
      + eapply (reach_step _ (AData true [1; 2; 3])); [apply (reach_start demo_start); done|done|reflexivity].
      + done.
      + reflexivity.
    - split; [reflexivity|lia].
    - reflexivity. }
  eexists. split; [exact H|]. destruct (socket_is_a_byte_stream _ H) as (Hp & Hs & _).
  split; [reflexivity|]. split; [reflexivity|]. split; [exact Hp|]. apply (Hs (ARecv 10 false true)). split; [reflexivity|lia].
Defined.

(** ** What goes wrong *)

(** The peer closes the connection while a thread waits for data: the thread takes
    the notice, finds no packet and waits again, with no unit left; the socket's
    state, which would end a call that starts now, is not looked at again. *)
Theorem close_does_not_end_the_wait x len :
  x.(magic) = true -> x.(recvpkt_list) = [] ->
  exists x1 x2, at_closed_notice_cb x = Some (tt, x1) /\ recv_notified true len x1 = Some (Waits, x2) /\
    x2.(state) = AT_SOCKET_CLOSED /\ x2.(recv_notice) = x.(recv_notice).
Proof.
  destruct x as [mg st l nt re ee]. cbn. intros -> ->. eexists _, _. split; [reflexivity|]. split; [reflexivity|]. cbn. split; [done|lia].
Qed.

(** A request for more than the first packet holds: the loop reads the successor
    of the node it has just freed, and what it does then is undefined when the
    memory has been allocated again. *)
Theorem get_reads_freed_nodes b i l len x :
  Forall pkt_ok ((b, i) :: l) -> x.(recvpkt_list) = (b, i) :: l -> Z.of_nat (length b) - i < len ->
  at_recvpkt_get false len x = None.
Proof.
  intros Hok Ex Hlen. pose proof (Forall_inv Hok) as Hp. pose proof (length_left _ Hp) as El. destruct Hp as [Hp1 Hp2]. cbn [fst snd] in *.
  pose proof (get_spec false len x) as H. rewrite Ex in H. cbn [reads_freed negb andb] in H.
  rewrite (proj2 (Z.ltb_lt _ _)) in H by lia. apply H; [done|lia].
Qed.

(** With MSG_DONTWAIT and no data the call returns 0, as it does when the peer has
    closed the connection, and counts an error. *)
Theorem dontwait_looks_closed x len :
  0 < len -> x.(recvpkt_list) = [] -> x.(state) = AT_SOCKET_CONNECT ->
  exists x', at_recvfrom true len true x = Some (Done 0 [], x') /\
    at_recvfrom true len true (with_state AT_SOCKET_CLOSED x) = Some (Done 0 [], with_state AT_SOCKET_CLOSED x') /\
    x'.(errevent) = u16 (x.(errevent) + 1).
Proof.
  destruct x as [mg st l nt re ee]. cbn. intros Hlen -> ->. unfold at_recvfrom. rewrite (proj2 (Z.eqb_neq len 0)) by lia.
  eexists. split; [reflexivity|]. by split.
Qed.

End AtStream.
