(* ===== verification/AtTable.v ===== *)
(** * The sockets of the network module

    The table of sockets of src/rt-thread/components/net/at/at_socket/at_socket.c
    and its operations on the module (src/packages/at_device-v2.0.4/class/esp8266/
    at_socket_esp8266.c): opening, connecting, sending, options and closing.  A
    function is cut where it waits for the module.  The receiving side of a socket
    is AtSocket.v. *)

From Stdlib Require Import ZArith Lia.
From stdpp Require Import prelude functions list.
From S2P Require Import Prelude Kernel AtClient AtSocket.
Import AtSocket.
Open Scope Z_scope.
Open Scope c_scope.

Module AtTable.

(** ** The table *)

Inductive at_socket_type := AT_SOCKET_INVALID | AT_SOCKET_TCP | AT_SOCKET_UDP.
#[export] Instance at_socket_type_eq_dec : EqDecision at_socket_type.
Proof. solve_decision. Defined.

(** The fields of [struct at_socket]: [sk] the ones of the receiving side. *)
Record entry := mk_entry {
  sk : at_socket;
  socket : Z;
  type : at_socket_type;
  recv_timeout : Z;
  send_timeout : Z;
  sendevent : Z
}.

(** [sockets]: the array of the device; [_socket_list]: the list of the entries
    in use, by their index. *)
Record table := mk_table {
  sockets : nat -> entry;
  _socket_list : list nat
}.

Abbreviation T := (M table).

Definition with_sk (x : at_socket) (e : entry) : entry :=
  mk_entry x e.(socket) e.(type) e.(recv_timeout) e.(send_timeout) e.(sendevent).
Definition with_type (ty : at_socket_type) (e : entry) : entry :=
  mk_entry e.(sk) e.(socket) ty e.(recv_timeout) e.(send_timeout) e.(sendevent).
Definition with_sendevent (n : Z) (e : entry) : entry :=
  mk_entry e.(sk) e.(socket) e.(type) e.(recv_timeout) e.(send_timeout) n.
Definition set_state (st : at_socket_state) (e : entry) : entry := with_sk (with_state st e.(sk)) e.

Definition on_entry (n : nat) (f : entry -> entry) : T unit :=
  modify (fun s => mk_table (<[n := f (s.(sockets) n)]> s.(sockets)) s.(_socket_list)).
Definition get_entry (n : nat) : T entry := gets (fun s => s.(sockets) n).
(** A function of AtSocket.v on entry [n]. *)
Definition on_sk (n : nat) (k : M at_socket unit) : T unit :=
  e <- get_entry n ;;
  match k e.(sk) with
  | Some (_, x) => on_entry n (with_sk x)
  | None => undefined
  end.

(** The loop of [at_get_socket]. *)
Fixpoint get_from (f : nat -> entry) (sd : Z) (l : list nat) : option nat :=
  match l with
  | [] => None
  | n :: l => if (sd =? socket (f n)) && magic (sk (f n)) then Some n else get_from f sd l
  end.
Definition at_get_socket (sd : Z) : T (option nat) := gets (fun s => get_from s.(sockets) sd s.(_socket_list)).

(** ** Opening *)

(** [alloc_empty_socket]: the number is the first one that the list does not have
    at its place, and the entry is inserted there. *)
Fixpoint insert_socket (f : nat -> entry) (idx : Z) (new : nat) (l : list nat) : Z * list nat :=
  match l with
  | [] => (idx, [new])
  | n :: r =>
      if socket (f n) =? idx then let '(i, r) := insert_socket f (idx + 1) new r in (i, n :: r)
      else (idx, new :: n :: r)
  end.

(** The first entry that is not in use, of [more] from [idx] on. *)
Fixpoint empty_entry (f : nat -> entry) (more idx : nat) : nat :=
  match more with
  | O => idx
  | S more => if magic (sk (f idx)) then empty_entry f more (S idx) else idx
  end.

Definition socket_num : nat := Z.to_nat AT_DEVICE_ESP8266_SOCKETS_NUM.

(** The lock makes it one step.  [sem_ok], [mutex_ok]: there is memory for the
    semaphore and the mutex of the socket. *)
Definition alloc_socket_by_device (sem_ok mutex_ok : bool) : T (option nat) :=
  s <- gets (fun s => s) ;;
  let idx := empty_entry s.(sockets) socket_num 0 in
  if (socket_num <=? idx)%nat then ret None
  else
    let '(sd, l) := insert_socket s.(sockets) 0 idx s.(_socket_list) in
    modify (fun s => mk_table s.(sockets) l) ;;;
    on_entry idx (fun e =>
      mk_entry (mk_sock true AT_SOCKET_NONE [] 0 0 0) sd e.(type) e.(recv_timeout) e.(send_timeout) 0) ;;;
    if negb sem_ok then ret None
    else if negb mutex_ok then ret None
    else ret (Some idx).

Definition SOCK_STREAM : Z := 1.
Definition SOCK_DGRAM : Z := 2.

(** [device_ok]: [alloc_socket] finds the network device. *)
Definition at_socket (ty : Z) (device_ok sem_ok mutex_ok : bool) : T Z :=
  let open st :=
    if negb device_ok then ret (-1)
    else
      r <- alloc_socket_by_device sem_ok mutex_ok ;;
      match r with
      | None => ret (-1)
      | Some n =>
          on_entry n (with_type st) ;;;
          on_entry n (set_state AT_SOCKET_OPEN) ;;;
          e <- get_entry n ;;
          ret e.(socket)
      end in
  if ty =? SOCK_STREAM then open AT_SOCKET_TCP
  else if ty =? SOCK_DGRAM then open AT_SOCKET_UDP
  else ret (-1).

(** ** Closing *)

(** The first entry of the list that has the number [sd] is taken out. *)
Fixpoint remove_from (f : nat -> entry) (sd : Z) (l : list nat) : list nat :=
  match l with
  | [] => []
  | n :: l => if (sd =? socket (f n)) && magic (sk (f n)) then l else n :: remove_from f sd l
  end.

Definition zero_entry (_ : entry) : entry :=
  mk_entry (mk_sock false AT_SOCKET_NONE [] 0 0 0) 0 AT_SOCKET_INVALID 0 0 0.

(** One step: the semaphore, the lock and the packets of the entry are gone at once
    with it, although the code deletes them one after the other with interrupts
    enabled, [magic] being reset last. *)
Definition free_socket (n : nat) : T Z :=
  e <- get_entry n ;;
  modify (fun s => mk_table s.(sockets) (remove_from s.(sockets) e.(socket) s.(_socket_list))) ;;;
  on_entry n zero_entry ;;;
  ret 0.

(** A call returns, or waits for the module to close, connect or send on an
    entry. *)
Inductive outcome := Done (result : Z) | Closes (n : nat) | Connects (n : nat) | Sends (n : nat).

Definition at_closesocket (sd : Z) : T outcome :=
  r <- at_get_socket sd ;;
  match r with
  | None => ret (Done (-1))
  | Some n =>
      e <- get_entry n ;;
      on_entry n (set_state AT_SOCKET_CLOSED) ;;;
      if negb (bool_decide (state e.(sk) = AT_SOCKET_CLOSED)) then ret (Closes n)
      else free_socket n ;;; ret (Done 0)
  end.

(** [result]: what the module's function has returned. *)
Definition closesocket_end (n : nat) (result : Z) : T outcome :=
  free_socket n ;;;
  ret (Done (if negb (result =? 0) then -1 else 0)).

Definition at_shutdown (sd how : Z) : T outcome :=
  r <- at_get_socket sd ;;
  match r with
  | None => ret (Done (-1))
  | Some n =>
      e <- get_entry n ;;
      on_entry n (set_state AT_SOCKET_CLOSED) ;;;
      if negb (bool_decide (state e.(sk) = AT_SOCKET_CLOSED)) then ret (Closes n)
      else free_socket n ;;; ret (Done 0)
  end.

(** ** Connecting and sending *)

Definition send_event (n : nat) : T unit := on_entry n (with_sendevent 1).

Definition at_connect (sd : Z) : T outcome :=
  r <- at_get_socket sd ;;
  match r with
  | None => ret (Done (-1))
  | Some n =>
      e <- get_entry n ;;
      if negb (bool_decide (state e.(sk) = AT_SOCKET_OPEN)) then
        on_sk n error_event ;;;
        send_event n ;;;
        ret (Done (-1))
      else ret (Connects n)
  end.

Definition connect_end (n : nat) (result : Z) : T outcome :=
  if result <? 0 then
    on_sk n error_event ;;;
    send_event n ;;;
    ret (Done (-1))
  else
    on_entry n (set_state AT_SOCKET_CONNECT) ;;;
    send_event n ;;;
    ret (Done 0).

(** [to_]: there is an address. *)
Definition at_sendto (sd : Z) (data : list Z) (to_ : bool) : T outcome :=
  if (length data =? 0)%nat then ret (Done (-1))
  else
    r <- at_get_socket sd ;;
    match r with
    | None => ret (Done (-1))
    | Some n =>
        e <- get_entry n ;;
        let st := state e.(sk) in
        match e.(type) with
        | AT_SOCKET_TCP =>
            if bool_decide (st = AT_SOCKET_CLOSED) then ret (Done 0)
            else if negb (bool_decide (st = AT_SOCKET_CONNECT)) && negb (bool_decide (st = AT_SOCKET_OPEN)) then
              on_sk n error_event ;;; ret (Done (-1))
            else ret (Sends n)
        | AT_SOCKET_UDP => if to_ && bool_decide (st = AT_SOCKET_OPEN) then ret (Connects n) else ret (Sends n)
        | AT_SOCKET_INVALID => on_sk n error_event ;;; ret (Done (-1))
        end
    end.

(** The connection that sending on an open UDP socket needs. *)
Definition sendto_connected (n : nat) (result : Z) : T outcome :=
  if result <? 0 then on_sk n error_event ;;; ret (Done (-1))
  else on_entry n (set_state AT_SOCKET_CONNECT) ;;; ret (Sends n).

Definition sendto_end (n : nat) (len : Z) : T outcome :=
  if len <? 0 then on_sk n error_event ;;; ret (Done (-1)) else ret (Done len).

(** ** Options *)

Definition SOL_SOCKET : Z := 0xfff.
Definition IPPROTO_TCP : Z := 6.
Definition SO_SNDTIMEO : Z := 0x1005.
Definition SO_RCVTIMEO : Z := 0x1006.

(** The value is a [struct timeval]. *)
Definition at_setsockopt (sd level optname tv_sec tv_usec : Z) : T Z :=
  r <- at_get_socket sd ;;
  match r with
  | None => ret (-1)
  | Some n =>
      let timeout := s32 (tv_sec * 1000 + Z.quot tv_usec 1000) in
      if level =? SOL_SOCKET then
        if optname =? SO_RCVTIMEO then
          on_entry n (fun e => mk_entry e.(sk) e.(socket) e.(type) timeout e.(send_timeout) e.(sendevent)) ;;; ret 0
        else if optname =? SO_SNDTIMEO then
          on_entry n (fun e => mk_entry e.(sk) e.(socket) e.(type) e.(recv_timeout) timeout e.(sendevent)) ;;; ret 0
        else ret (-1)
      else if level =? IPPROTO_TCP then ret 0
      else ret (-1)
  end.

(** The result, and the [struct timeval]. *)
Definition at_getsockopt (sd level optname : Z) : T (Z * option (Z * Z)) :=
  r <- at_get_socket sd ;;
  match r with
  | None => ret (-1, None)
  | Some n =>
      e <- get_entry n ;;
      let value timeout := (0, Some (u32 timeout / 1000, (u32 timeout mod 1000) * 1000)) in
      if level =? SOL_SOCKET then
        if optname =? SO_RCVTIMEO then ret (value e.(recv_timeout))
        else if optname =? SO_SNDTIMEO then ret (value e.(send_timeout))
        else ret (-1, None)
      else ret (-1, None)
  end.

(** ** The module *)

(** AT commands, with their arguments. *)
Inductive at_cmd := CIPSTART (n : Z) (ty : at_socket_type) (ip : list Z) (port : Z) | CIPCLOSE (n : Z).

Section module.
(** What [at_obj_exec_cmd] returns for the last command. *)
Variable answer : list at_cmd -> Z.

Abbreviation E := (M (list at_cmd)).

Definition exec (c : at_cmd) : E Z := modify (fun h => h ++ [c]) ;;; gets answer.

(** [resp_ok]: there is memory for the response. *)
Definition esp8266_socket_close (resp_ok : bool) (device_socket : Z) : E Z :=
  if negb resp_ok then ret (- AtClient.RT_ENOMEM) else exec (CIPCLOSE device_socket).

(** The commands behind [__retry]. *)
Definition connect_try (device_socket : Z) (ty : at_socket_type) (ip : list Z) (port : Z) : E Z :=
  r <- exec (CIPSTART device_socket ty ip port) ;;
  ret (if r <? 0 then - RT_ERROR else RT_EOK).

Definition esp8266_socket_connect (resp_ok close_ok : bool) (device_socket : Z) (ip : list Z) (port : Z)
    (ty : at_socket_type) (is_client : bool) : E Z :=
  if port <? 0 then undefined
  else if negb resp_ok then ret (- AtClient.RT_ENOMEM)
  else if negb is_client then ret RT_EOK
  else match ty with
       | AT_SOCKET_INVALID => ret (- RT_ERROR)
       | _ =>
           result <- connect_try device_socket ty ip port ;;
           if negb (result =? RT_EOK) then
             c <- esp8266_socket_close close_ok device_socket ;;
             if c <? 0 then ret result else connect_try device_socket ty ip port
           else ret result
       end.
End module.

End AtTable.
