(* ===== verification/AtTableSystem.v ===== *)
(** * Threads that use sockets

    Any number of threads open, connect, send on, shut down and close sockets of
    the network module (AtTable.v) while the module closes connections and delivers
    data, in any order. *)

From Stdlib Require Import ZArith Lia.
From stdpp Require Import prelude functions list.
From S2P Require Import Prelude Kernel AtClient AtSocket AtTable.
Import AtSocket AtTable.
Open Scope Z_scope.
Open Scope c_scope.

(** ** The list of sockets *)

(** The numbers of the entries of [l] ascend, from [lo] on. *)
Fixpoint ascending (f : nat -> entry) (lo : Z) (l : list nat) : Prop :=
  match l with
  | [] => True
  | n :: l => lo <= socket (f n) /\ ascending f (socket (f n) + 1) l
  end.

Lemma ascending_le f lo lo' l : lo' <= lo -> ascending f lo l -> ascending f lo' l.
Proof. destruct l as [|n l]; [done|]. intros Hle [H1 H2]. split; [lia|done]. Qed.

Lemma ascending_ext f f' lo l : (forall n, n ∈ l -> socket (f' n) = socket (f n)) -> ascending f lo l -> ascending f' lo l.
Proof.
  revert lo. induction l as [|n l IH]; intros lo He; [done|]. intros [H1 H2]. cbn [ascending]. rewrite He by left.
  split; [done|]. apply IH; [|done]. intros x Hx. apply He. by right.
Qed.

Lemma ascending_in f lo l n : ascending f lo l -> n ∈ l -> lo <= socket (f n).
Proof.
  revert lo. induction l as [|x l IH]; intros lo; [by intros _ ?%not_elem_of_nil|]. intros [H1 H2] [->|Hn]%elem_of_cons; [done|].
  specialize (IH _ H2 Hn). lia.
Qed.

(** No number is there twice. *)
Lemma ascending_inj f lo l x y : ascending f lo l -> x ∈ l -> y ∈ l -> socket (f x) = socket (f y) -> x = y.
Proof.
  revert lo. induction l as [|n l IH]; intros lo; [by intros _ ?%not_elem_of_nil|].
  intros [H1 H2] [->|Hx]%elem_of_cons [->|Hy]%elem_of_cons E; [done| | |by eapply IH].
  - apply (ascending_in _ _ _ _ H2) in Hy. lia.
  - apply (ascending_in _ _ _ _ H2) in Hx. lia.
Qed.

Lemma ascending_nodup f lo l : ascending f lo l -> NoDup l.
Proof.
  revert lo. induction l as [|n l IH]; intros lo; [constructor|]. intros [H1 H2]. constructor; [|by eapply IH].
  intros Hn. apply (ascending_in _ _ _ _ H2) in Hn. lia.
Qed.

Lemma get_from_spec f lo l sd n :
  ascending f lo l -> (forall x, x ∈ l -> magic (sk (f x)) = true) ->
  get_from f sd l = Some n <-> n ∈ l /\ socket (f n) = sd.
Proof.
  intros Ha Hm. assert (forall x, get_from f sd l = Some x -> x ∈ l /\ socket (f x) = sd) as H1.
  { clear Ha Hm. intros x. induction l as [|y l IH]; cbn [get_from]; [done|].
    destruct (Z.eqb_spec sd (socket (f y))) as [->|Hne]; cbn [andb].
    - destruct (magic (sk (f y))); [intros [= ->]; split; [left|done]|]. intros E. destruct (IH E). split; [by right|done].
    - intros E. destruct (IH E). split; [by right|done]. }
  split; [apply H1|]. intros [Hn <-]. destruct (get_from f (socket (f n)) l) as [x|] eqn:E.
  - f_equal. destruct (H1 x eq_refl) as [Hx Es]. by apply (ascending_inj f lo l).
  - exfalso. clear H1 Ha. induction l as [|y l IH]; [by apply not_elem_of_nil in Hn|]. cbn [get_from] in E.
    apply elem_of_cons in Hn as [->|Hn].
    + rewrite Z.eqb_refl, (Hm y) in E by left. done.
    + destruct (_ && _); [done|]. apply IH; [|done|done]. intros x Hx. apply Hm. by right.
Qed.

(** The number of a new entry, and its place. *)
Lemma insert_socket_spec f f' new l : forall lo i l',
  ascending f lo l -> new ∉ l -> insert_socket f lo new l = (i, l') ->
  (forall n, n <> new -> socket (f' n) = socket (f n)) -> socket (f' new) = i ->
  ascending f' lo l' /\ (forall n, n ∈ l' <-> n = new \/ n ∈ l) /\ lo <= i /\
  (forall j, lo <= j < i -> exists n, n ∈ l /\ socket (f n) = j) /\ (forall n, n ∈ l -> socket (f n) <> i).
Proof.
  induction l as [|x l IH]; intros lo i l' Ha Hn E He Hi; cbn [insert_socket] in E.
  - injection E as <- <-. split; [cbn; lia|]. split; [intros n; set_solver|]. split; [lia|]. split; [lia|]. intros n ?%not_elem_of_nil. done.
  - apply not_elem_of_cons in Hn as [Hx Hn]. destruct Ha as [H1 H2]. destruct (Z.eqb_spec (socket (f x)) lo) as [Es|Es].
    + destruct (insert_socket f (lo + 1) new l) as [i' r] eqn:Er. injection E as <- <-. rewrite Es in H2.
      destruct (IH _ _ _ H2 Hn Er He Hi) as (A & B & C & D & F). split_and!.
      * split; [rewrite He by done; lia|]. rewrite He, Es by done. done.
      * intros n. rewrite !elem_of_cons, B. tauto.
      * lia.
      * intros j Hj. destruct (decide (j = lo)) as [->|Hne]; [exists x; split; [left|done]|].
        destruct (D j ltac:(lia)) as (n & Hin & En). exists n. split; [by right|done].
      * intros n [->|Hin]%elem_of_cons; [lia|by apply F].
    + injection E as <- <-. split_and!.
      * split; [lia|]. apply (ascending_ext f f'); [intros n Hin; apply He; intros ->; apply elem_of_cons in Hin as [?|?]; done|].
        split; [lia|done].
      * intros n. rewrite !elem_of_cons. tauto.
      * lia.
      * lia.
      * intros n [->|Hin]%elem_of_cons; [lia|]. apply (ascending_in _ _ _ _ H2) in Hin. lia.
Qed.

Lemma remove_from_spec f l n : forall lo,
  ascending f lo l -> (forall x, x ∈ l -> magic (sk (f x)) = true) -> n ∈ l ->
  ascending f lo (remove_from f (socket (f n)) l) /\ (forall x, x ∈ remove_from f (socket (f n)) l <-> x ∈ l /\ x <> n).
Proof.
  induction l as [|y l IH]; intros lo Ha Hm Hn; [by apply not_elem_of_nil in Hn|]. cbn [remove_from]. destruct Ha as [H1 H2].
  pose proof (ascending_nodup f lo (y :: l) (conj H1 H2)) as Hd. apply NoDup_cons in Hd as [Hy Hd].
  destruct (Z.eqb_spec (socket (f n)) (socket (f y))) as [E|E]; cbn [andb].
  - assert (n = y) as -> by (apply (ascending_inj f lo (y :: l)); [by split|done|left|done]).
    rewrite Hm by left. split; [apply (ascending_le _ (socket (f y) + 1)); [lia|done]|].
    intros x. rewrite elem_of_cons. split; [intros Hx; split; [by right|by intros ->]|intros [[->|?] ?]; done].
  - apply elem_of_cons in Hn as [->|Hn]; [done|]. destruct (IH _ H2) as [A B]; [intros x Hx; apply Hm; by right|done|].
    split; [by split|]. intros x. rewrite !elem_of_cons, B. split; [intros [->|?]; [split; [by left|]|tauto]|tauto]. intros ->. done.
Qed.

Lemma empty_entry_spec f more : forall idx,
  let r := empty_entry f more idx in
  (idx <= r <= idx + more)%nat /\ ((r < idx + more)%nat -> magic (sk (f r)) = false) /\
  (forall j, (idx <= j < r)%nat -> magic (sk (f j)) = true).
Proof.
  induction more as [|more IH]; intros idx; cbn [empty_entry]; [split; [lia|]; split; [lia|]; intros; lia|].
  destruct (magic (sk (f idx))) eqn:E; [|split; [lia|]; split; [done|]; intros; lia].
  destruct (IH (S idx)) as (A & B & C). split; [lia|]. split; [intros Hr; apply B; lia|].
  intros j Hj. destruct (decide (j = idx)) as [->|]; [done|]. apply C. lia.
Qed.

(** ** Steps *)

Module AtTableSystem.

(** Where a thread is: outside, or waiting for the module on entry [n], which it
    has found for its socket [sd]. *)
Inductive pc :=
| Idle
| Closing (sd : Z) (n : nat)
| Connecting (sd : Z) (n : nat)
| SendConnecting (sd : Z) (n : nat)
| Sending (sd : Z) (n : nat).

(** [owner]: the thread that has opened a socket and not yet closed it. *)
Record sys := mk_sys {
  tab : table;
  pcs : tid -> pc;
  owner : Z -> option tid
}.

Inductive action :=
| AOpen (t : tid) (ty : Z) (device_ok sem_ok mutex_ok : bool)
| AConnect (t : tid) (sd : Z)
| ASend (t : tid) (sd : Z) (data : list Z) (to_ : bool)
| AShutdown (t : tid) (sd how : Z)
| AClose (t : tid) (sd : Z)
| AAnswer (t : tid) (result : Z)
| AClosed (n : nat)
| AData (n : nat) (ok : bool) (bytes : list Z).

(** What a step means for the users of the sockets. *)
Inductive slabel :=
| LOpened (sd : Z) (ty : at_socket_type)
| LRefused
| LState (sd : Z) (st : at_socket_state)
| LData (sd : Z) (bytes : list Z)
| LFreed (sd : Z)
| LTau.

Definition type_of (ty : Z) : at_socket_type :=
  if ty =? SOCK_STREAM then AT_SOCKET_TCP else if ty =? SOCK_DGRAM then AT_SOCKET_UDP else AT_SOCKET_INVALID.

Definition move (k : table) (t : tid) (p : pc) (s : sys) : sys := mk_sys k (<[t := p]> s.(pcs)) s.(owner).
(** [t] returns from closing [sd]. *)
Definition closed (k : table) (t : tid) (sd : Z) (s : sys) : sys := mk_sys k (<[t := Idle]> s.(pcs)) (<[sd := None]> s.(owner)).

Definition after_close (t : tid) (sd : Z) (r : option (outcome * table)) (s : sys) : option (slabel * sys) :=
  match r with
  | Some (Done c, k) => if c =? 0 then Some (LFreed sd, closed k t sd s) else Some (LTau, move k t Idle s)
  | Some (Closes n, k) => Some (LState sd AT_SOCKET_CLOSED, move k t (Closing sd n) s)
  | _ => None
  end.

Definition sock_step (a : action) (s : sys) : option (slabel * sys) :=
  match a with
  | AOpen t ty device_ok sem_ok mutex_ok =>
      match at_socket ty device_ok sem_ok mutex_ok s.(tab) with
      | Some (sd, k) =>
          if sd <? 0 then Some (LRefused, mk_sys k s.(pcs) s.(owner))
          else Some (LOpened sd (type_of ty), mk_sys k s.(pcs) (<[sd := Some t]> s.(owner)))
      | None => None
      end
  | AConnect t sd =>
      match at_connect sd s.(tab) with
      | Some (Done _, k) => Some (LTau, move k t Idle s)
      | Some (Connects n, k) => Some (LTau, move k t (Connecting sd n) s)
      | _ => None
      end
  | ASend t sd data to_ =>
      match at_sendto sd data to_ s.(tab) with
      | Some (Done _, k) => Some (LTau, move k t Idle s)
      | Some (Connects n, k) => Some (LTau, move k t (SendConnecting sd n) s)
      | Some (Sends n, k) => Some (LTau, move k t (Sending sd n) s)
      | _ => None
      end
  | AShutdown t sd how => after_close t sd (at_shutdown sd how s.(tab)) s
  | AClose t sd => after_close t sd (at_closesocket sd s.(tab)) s
  | AAnswer t result =>
      match s.(pcs) t with
      | Idle => None
      | Closing sd n =>
          match closesocket_end n result s.(tab) with
          | Some (Done _, k) => Some (LFreed sd, closed k t sd s)
          | _ => None
          end
      | Connecting sd n =>
          match connect_end n result s.(tab) with
          | Some (Done c, k) => Some (if c =? 0 then LState sd AT_SOCKET_CONNECT else LTau, move k t Idle s)
          | _ => None
          end
      | SendConnecting sd n =>
          match sendto_connected n result s.(tab) with
          | Some (Done _, k) => Some (LTau, move k t Idle s)
          | Some (Sends n, k) => Some (LState sd AT_SOCKET_CONNECT, move k t (Sending sd n) s)
          | _ => None
          end
      | Sending sd n =>
          match sendto_end n result s.(tab) with
          | Some (Done _, k) => Some (LTau, move k t Idle s)
          | _ => None
          end
      end
  | AClosed n =>
      match on_sk n at_closed_notice_cb s.(tab) with
      | Some (_, k) =>
          Some (if magic (sk (sockets s.(tab) n)) then LState (socket (sockets s.(tab) n)) AT_SOCKET_CLOSED else LTau,
                mk_sys k s.(pcs) s.(owner))
      | None => None
      end
  | AData n ok bytes =>
      match on_sk n (at_recv_notice_cb ok bytes) s.(tab) with
      | Some (_, k) =>
          Some (if magic (sk (sockets s.(tab) n)) && ok then LData (socket (sockets s.(tab) n)) bytes else LTau,
                mk_sys k s.(pcs) s.(owner))
      | None => None
      end
  end.

(** The sockets that are open, with their packets. *)
Definition conn : Type := at_socket_type * at_socket_state * list (list Z * Z).
Definition conn_of (e : entry) : conn := (e.(type), state e.(sk), recvpkt_list e.(sk)).
Definition view (s : sys) (sd : Z) : option conn :=
  conn_of ∘ sockets s.(tab) <$> get_from (sockets s.(tab)) sd (_socket_list s.(tab)).

(** A thread uses the sockets that it has opened, or numbers that are not in
    use; the module names its own sockets. *)
Definition may_use (s : sys) (t : tid) (sd : Z) : Prop :=
  s.(pcs) t = Idle /\ (s.(owner) sd = Some t \/ view s sd = None).

Definition enabled (a : action) (s : sys) : Prop :=
  match a with
  | AOpen t _ _ _ _ => s.(pcs) t = Idle
  | AConnect t sd | ASend t sd _ _ | AShutdown t sd _ | AClose t sd => may_use s t sd
  | AAnswer t _ => s.(pcs) t <> Idle
  | AClosed n | AData n _ _ => (n < socket_num)%nat
  end.

Definition initial (s : sys) : Prop :=
  _socket_list s.(tab) = [] /\ (forall n, magic (sk (sockets s.(tab) n)) = false) /\
  (forall t, s.(pcs) t = Idle) /\ (forall sd, s.(owner) sd = None).

Inductive reach : sys -> Prop :=
| reach_start s : initial s -> reach s
| reach_step s a l s' : reach s -> enabled a s -> sock_step a s = Some (l, s') -> reach s'.

(** Sockets as numbered connections. *)
Definition spec_step (v : Z -> option conn) (l : slabel) (v' : Z -> option conn) : Prop :=
  let least sd := 0 <= sd /\ v sd = None /\ forall j, 0 <= j < sd -> v j <> None in
  match l with
  | LOpened sd ty => least sd /\ forall j, v' j = <[sd := Some (ty, AT_SOCKET_OPEN, [])]> v j
  | LRefused => (forall j, v' j = v j) \/ exists sd ty, least sd /\ forall j, v' j = <[sd := Some (ty, AT_SOCKET_NONE, [])]> v j
  | LState sd st => exists ty st0 pk, v sd = Some (ty, st0, pk) /\ forall j, v' j = <[sd := Some (ty, st, pk)]> v j
  | LData sd bytes => exists ty st pk, v sd = Some (ty, st, pk) /\ forall j, v' j = <[sd := Some (ty, st, pk ++ [(bytes, 0)])]> v j
  | LFreed sd => v sd <> None /\ forall j, v' j = <[sd := None]> v j
  | LTau => forall j, v' j = v j
  end.

(** ** The invariant *)

Record table_ok (k : table) : Prop := {
  tk_order : ascending k.(sockets) 0 k.(_socket_list);
  tk_in n : n ∈ k.(_socket_list) <-> (n < socket_num)%nat /\ magic (sk (k.(sockets) n)) = true
}.

Definition waits_on (p : pc) : option (Z * nat) :=
  match p with
  | Idle => None
  | Closing sd n | Connecting sd n | SendConnecting sd n | Sending sd n => Some (sd, n)
  end.

(** Entry [n] is socket [sd]. *)
Definition found (k : table) (sd : Z) (n : nat) : Prop := n ∈ k.(_socket_list) /\ socket (k.(sockets) n) = sd.
#[export] Instance found_dec k sd n : Decision (found k sd n).
Proof. unfold found. apply _. Defined.

Record inv (s : sys) : Prop := {
  inv_table : table_ok s.(tab);
  inv_owner sd t : s.(owner) sd = Some t -> exists n, found s.(tab) sd n;
  inv_waits t sd n : waits_on (s.(pcs) t) = Some (sd, n) -> s.(owner) sd = Some t /\ found s.(tab) sd n
}.

Lemma get_found k sd n : table_ok k -> get_from k.(sockets) sd k.(_socket_list) = Some n <-> found k sd n.
Proof. intros [H1 H2]. apply (get_from_spec _ 0); [done|]. intros x Hx. by apply H2 in Hx as [_ ?]. Qed.

Lemma get_none k sd : table_ok k -> get_from k.(sockets) sd k.(_socket_list) = None <-> forall n, ~ found k sd n.
Proof.
  intros Hk. destruct (get_from _ _ _) as [n|] eqn:E.
  - split; [done|]. intros H. by destruct (H n (proj1 (get_found k sd n Hk) E)).
  - split; [|done]. intros _ n Hn. apply (proj2 (get_found k sd n Hk)) in Hn. congruence.
Qed.

(** Entry [n] becomes [c] for its users; numbers, and which entries are in use,
    stay. *)
Record upd (k k' : table) (n : nat) (c : conn) : Prop := {
  upd_list : k'.(_socket_list) = k.(_socket_list);
  upd_socket m : socket (k'.(sockets) m) = socket (k.(sockets) m);
  upd_magic m : magic (sk (k'.(sockets) m)) = magic (sk (k.(sockets) m));
  upd_other m : m <> n -> conn_of (k'.(sockets) m) = conn_of (k.(sockets) m);
  upd_conn : conn_of (k'.(sockets) n) = c
}.

Lemma upd_found k k' n c sd m : upd k k' n c -> found k' sd m <-> found k sd m.
Proof. intros Hu. unfold found. by rewrite (upd_list _ _ _ _ Hu), (upd_socket _ _ _ _ Hu). Qed.

Lemma upd_ok k k' n c : upd k k' n c -> table_ok k -> table_ok k'.
Proof.
  intros Hu [H1 H2]. split.
  - rewrite (upd_list _ _ _ _ Hu). apply (ascending_ext (sockets k)); [|done]. intros m _. apply (upd_socket _ _ _ _ Hu).
  - intros m. rewrite (upd_list _ _ _ _ Hu), (upd_magic _ _ _ _ Hu). apply H2.
Qed.

(** What is seen of a socket is its entry. *)
Lemma view_found s sd n : table_ok s.(tab) -> found s.(tab) sd n -> view s sd = Some (conn_of (sockets s.(tab) n)).
Proof. intros Hk Hf. unfold view. by rewrite (proj2 (get_found _ _ _ Hk) Hf). Qed.

Lemma view_none s sd : table_ok s.(tab) -> view s sd = None <-> forall n, ~ found s.(tab) sd n.
Proof. intros Hk. rewrite <- (get_none _ _ Hk). unfold view. by destruct (get_from _ _ _). Qed.

Lemma upd_view s k' n c p o :
  table_ok s.(tab) -> upd s.(tab) k' n c ->
  forall j, view (mk_sys k' p o) j = if decide (found s.(tab) j n) then Some c else view s j.
Proof.
  intros Hk Hu j. pose proof (upd_ok _ _ _ _ Hu Hk) as Hk'. set (s' := mk_sys k' p o).
  destruct (get_from (sockets (tab s)) j (_socket_list (tab s))) as [m|] eqn:E.
  - pose proof (proj1 (get_found _ _ _ Hk) E) as Hm. rewrite (view_found s' j m Hk') by (by apply (upd_found _ _ _ _ _ _ Hu)).
    rewrite (view_found s j m Hk) by done. unfold s'. cbn [tab]. case_decide as Hd.
    + assert (m = n) as -> by (destruct Hm as [? ?], Hd as [? ?]; apply (ascending_inj (sockets (tab s)) 0 (_socket_list (tab s))); [apply Hk|done|done|congruence]).
      by rewrite (upd_conn _ _ _ _ Hu).
    + by rewrite (upd_other _ _ _ _ Hu) by (by intros ->).
  - pose proof (proj1 (get_none _ _ Hk) E) as Hn. rewrite decide_False by apply Hn.
    rewrite (proj2 (view_none s' j Hk')) by (intros m Hm; by apply (Hn m), (upd_found _ _ _ _ _ _ Hu)). symmetry. by apply view_none.
Qed.

(** Seen from socket [sd], whose entry it is. *)
Lemma upd_view_at s k' n c p o sd :
  table_ok s.(tab) -> upd s.(tab) k' n c -> found s.(tab) sd n ->
  forall j, view (mk_sys k' p o) j = <[sd := Some c]> (view s) j.
Proof.
  intros Hk Hu Hf j. rewrite (upd_view s k' n c p o Hk Hu). destruct (decide (j = sd)) as [->|Hj].
  - by rewrite fn_lookup_insert, decide_True.
  - rewrite fn_lookup_insert_ne, decide_False; [done| |done]. intros [_ E]. destruct Hf as [_ E']. congruence.
Qed.

Lemma upd_view_same s k' n p o :
  table_ok s.(tab) -> upd s.(tab) k' n (conn_of (sockets s.(tab) n)) -> forall j, view (mk_sys k' p o) j = view s j.
Proof.
  intros Hk Hu j. rewrite (upd_view s k' n _ p o Hk Hu). case_decide as Hd; [|done]. symmetry. by apply view_found.
Qed.

Lemma upd_inv s k' n c pcs' :
  inv s -> upd s.(tab) k' n c ->
  (forall u sd m, waits_on (pcs' u) = Some (sd, m) -> s.(owner) sd = Some u /\ found s.(tab) sd m) ->
  inv (mk_sys k' pcs' s.(owner)).
Proof.
  intros [H1 H2 H3] Hu Hp. split; cbn [tab owner pcs].
  - by apply (upd_ok _ _ _ _ Hu).
  - intros sd t E. destruct (H2 sd t E) as [m Hm]. exists m. by apply (upd_found _ _ _ _ _ _ Hu).
  - intros u sd m E. destruct (Hp u sd m E) as [Ho Hf]. split; [done|]. by apply (upd_found _ _ _ _ _ _ Hu).
Qed.

Lemma move_waits s t p :
  inv s -> (forall sd m, waits_on p = Some (sd, m) -> s.(owner) sd = Some t /\ found s.(tab) sd m) ->
  forall u sd m, waits_on (<[t := p]> s.(pcs) u) = Some (sd, m) -> s.(owner) sd = Some u /\ found s.(tab) sd m.
Proof.
  intros Hs Hp u sd m. destruct (decide (u = t)) as [->|Hu]; [rewrite fn_lookup_insert; apply Hp|].
  rewrite fn_lookup_insert_ne by done. apply Hs.
Qed.

(** What a step has to show. *)
Definition good (s : sys) (r : option (slabel * sys)) : Prop :=
  exists l s', r = Some (l, s') /\ inv s' /\ spec_step (view s) l (view s').

Lemma move_tau s k' n t p :
  inv s -> upd s.(tab) k' n (conn_of (sockets s.(tab) n)) ->
  (forall sd m, waits_on p = Some (sd, m) -> s.(owner) sd = Some t /\ found s.(tab) sd m) ->
  good s (Some (LTau, move k' t p s)).
Proof.
  intros Hs Hu Hp. eexists _, _. split; [reflexivity|]. split.
  - apply (upd_inv s k' n _ _ Hs Hu). by apply move_waits.
  - cbn [spec_step]. apply (upd_view_same s k' n); [apply Hs|done].
Qed.

Lemma move_state s k' n t p sd st :
  inv s -> found s.(tab) sd n ->
  upd s.(tab) k' n (type (sockets s.(tab) n), st, recvpkt_list (sk (sockets s.(tab) n))) ->
  (forall sd m, waits_on p = Some (sd, m) -> s.(owner) sd = Some t /\ found s.(tab) sd m) ->
  good s (Some (LState sd st, move k' t p s)).
Proof.
  intros Hs Hf Hu Hp. pose proof (inv_table _ Hs) as Hk. eexists _, _. split; [reflexivity|]. split.
  - apply (upd_inv s k' n _ _ Hs Hu). by apply move_waits.
  - cbn [spec_step]. eexists _, _, _. split; [by apply (view_found s sd n)|]. by apply (upd_view_at s k' n).
Qed.

(** ** The pieces *)

Lemma upd_id k n : upd k k n (conn_of (k.(sockets) n)).
Proof. by split. Qed.

Lemma upd_trans k k1 k2 n c1 c2 : upd k k1 n c1 -> upd k1 k2 n c2 -> upd k k2 n c2.
Proof.
  intros [A1 A2 A3 A4 A5] [B1 B2 B3 B4 B5]. split; [congruence|intros m; by rewrite B2|intros m; by rewrite B3| |done].
  intros m Hm. by rewrite B4, A4.
Qed.

Definition put (k : table) (n : nat) (e : entry) : table := mk_table (<[n := e]> k.(sockets)) k.(_socket_list).

Lemma entry_put_eq k n e : sockets (put k n e) n = e.
Proof. cbn [put sockets]. by rewrite fn_lookup_insert. Qed.

Lemma put_upd k n e c :
  socket e = socket (k.(sockets) n) -> magic (sk e) = magic (sk (k.(sockets) n)) -> conn_of e = c -> upd k (put k n e) n c.
Proof.
  intros E1 E2 <-. split; [done| | | |by rewrite entry_put_eq]; intros m; cbn [put sockets];
    (destruct (decide (m = n)) as [->|Hm]; [by rewrite fn_lookup_insert|by rewrite fn_lookup_insert_ne]).
Qed.

Lemma on_entry_put n f k : on_entry n f k = Some (tt, put k n (f (k.(sockets) n))).
Proof. done. Qed.

Lemma on_sk_put n q k x : q (sk (k.(sockets) n)) = Some (tt, x) -> on_sk n q k = Some (tt, put k n (with_sk x (k.(sockets) n))).
Proof. intros E. unfold on_sk, get_entry, bind, gets. by rewrite E. Qed.

(** Counting an error, and what else leaves a socket as it is for its users. *)
Definition erred (k : table) (n : nat) : table :=
  put k n (with_sk (with_errevent (u16 (errevent (sk (k.(sockets) n)) + 1)) (sk (k.(sockets) n))) (k.(sockets) n)).

Lemma error_put n k : on_sk n error_event k = Some (tt, erred k n).
Proof. by apply on_sk_put. Qed.

Lemma erred_upd k n : upd k (erred k n) n (conn_of (k.(sockets) n)).
Proof. by apply put_upd. Qed.

Lemma send_event_upd k n : exists k', send_event n k = Some (tt, k') /\ upd k k' n (conn_of (k.(sockets) n)).
Proof. eexists. split; [reflexivity|]. by apply put_upd. Qed.

Lemma state_upd k n st : upd k (put k n (set_state st (k.(sockets) n))) n (type (k.(sockets) n), st, recvpkt_list (sk (k.(sockets) n))).
Proof. by apply put_upd. Qed.

(** A socket that a thread may use and that is there is its own. *)
Lemma use_found s t sd n :
  inv s -> may_use s t sd -> get_from (sockets s.(tab)) sd (_socket_list s.(tab)) = Some n -> found s.(tab) sd n /\ s.(owner) sd = Some t.
Proof.
  intros Hs [_ Hu] E. pose proof (proj1 (get_found _ _ _ (inv_table _ Hs)) E) as Hf. split; [done|].
  destruct Hu as [Hu|Hu]; [done|]. unfold view in Hu. by rewrite E in Hu.
Qed.

Lemma idle_waits s t : forall sd m, waits_on Idle = Some (sd, m) -> s.(owner) sd = Some t /\ found s.(tab) sd m.
Proof. done. Qed.

Lemma skt_connect_call_good s t sd : inv s -> enabled (AConnect t sd) s -> good s (sock_step (AConnect t sd) s).
Proof.
  intros Hs Hu. cbn [sock_step]. unfold at_connect, at_get_socket, bind at 1, gets at 1.
  destruct (get_from _ _ _) as [n|] eqn:E; [|apply (move_tau s _ 0%nat); [done|apply upd_id|done]].
  destruct (use_found s t sd n Hs Hu E) as [Hf Ho]. unfold get_entry, bind at 1, gets at 1.
  destruct (negb _).
  - unfold bind at 1. rewrite error_put. unfold bind at 1. destruct (send_event_upd (erred (tab s) n) n) as (k' & -> & Hk').
    cbn [ret]. apply (move_tau s k' n); [done| |done]. refine (upd_trans _ _ _ _ _ _ (erred_upd _ _) _).
    by rewrite (upd_conn _ _ _ _ (erred_upd (tab s) n)) in Hk'.
  - apply (move_tau s _ n); [done|apply upd_id|]. intros sd' m [= <- <-]. done.
Qed.

Lemma skt_send_call_good s t sd data to_ : inv s -> enabled (ASend t sd data to_) s -> good s (sock_step (ASend t sd data to_) s).
Proof.
  intros Hs Hu. cbn [sock_step]. unfold at_sendto. destruct (length data =? 0)%nat; [apply (move_tau s _ 0%nat); [done|apply upd_id|done]|].
  unfold at_get_socket, bind at 1, gets at 1.
  destruct (get_from _ _ _) as [n|] eqn:E; [|apply (move_tau s _ 0%nat); [done|apply upd_id|done]].
  destruct (use_found s t sd n Hs Hu E) as [Hf Ho]. unfold get_entry, bind at 1, gets at 1. cbv zeta.
  assert (good s match (on_sk n error_event ;;; ret (Done (-1))) (tab s) with
                 | Some (Done _, k) => Some (LTau, move k t Idle s)
                 | Some (Connects n, k) => Some (LTau, move k t (SendConnecting sd n) s)
                 | Some (Sends n, k) => Some (LTau, move k t (Sending sd n) s)
                 | _ => None
                 end) as Herr.
  { unfold bind. rewrite error_put. apply (move_tau s _ n); [done|apply erred_upd|done]. }
  assert (good s (Some (LTau, move (tab s) t (Sending sd n) s))) as Hsend.
  { apply (move_tau s _ n); [done|apply upd_id|]. intros sd' m [= <- <-]. done. }
  destruct (type (sockets (tab s) n)); [done| |].
  - destruct (bool_decide _); [apply (move_tau s _ n); [done|apply upd_id|done]|]. by destruct (negb _ && negb _).
  - destruct (to_ && _); [|done]. apply (move_tau s _ n); [done|apply upd_id|]. intros sd' m [= <- <-]. done.
Qed.

Lemma closed_notice_spec x : magic x = true ->
  exists x', at_closed_notice_cb x = Some (tt, x') /\ magic x' = true /\ state x' = AT_SOCKET_CLOSED /\ recvpkt_list x' = recvpkt_list x.
Proof. intros E. unfold at_closed_notice_cb, bind, gets. rewrite E. by eexists. Qed.

Lemma skt_closed_good s n : inv s -> enabled (AClosed n) s -> good s (sock_step (AClosed n) s).
Proof.
  intros Hs Hn. cbn [sock_step enabled] in *. pose proof (inv_table _ Hs) as Hk. destruct (magic (sk (sockets (tab s) n))) eqn:Em.
  - destruct (closed_notice_spec _ Em) as (x' & E & M' & S' & R'). rewrite (on_sk_put _ _ _ _ E).
    assert (found (tab s) (socket (sockets (tab s) n)) n) as Hf by (split; [by apply Hk|done]).
    assert (upd (tab s) (put (tab s) n (with_sk x' (sockets (tab s) n))) n
      (type (sockets (tab s) n), AT_SOCKET_CLOSED, recvpkt_list (sk (sockets (tab s) n)))) as Hu.
    { apply put_upd; [done|cbn [with_sk sk]; congruence|]. unfold conn_of. cbn [with_sk sk type]. by rewrite S', R'. }
    eexists _, _. split; [reflexivity|]. split; [apply (upd_inv s _ n _ _ Hs Hu); apply Hs|].
    cbn [spec_step]. eexists _, _, _. split; [by apply (view_found s _ n)|]. by apply (upd_view_at s _ n).
  - assert (at_closed_notice_cb (sk (sockets (tab s) n)) = Some (tt, sk (sockets (tab s) n))) as E
      by (unfold at_closed_notice_cb, bind, gets; by rewrite Em).
    rewrite (on_sk_put _ _ _ _ E). eexists _, _. split; [reflexivity|].
    assert (upd (tab s) (put (tab s) n (with_sk (sk (sockets (tab s) n)) (sockets (tab s) n))) n (conn_of (sockets (tab s) n))) as Hu by (by apply put_upd).
    split; [apply (upd_inv s _ n _ _ Hs Hu); apply Hs|]. cbn [spec_step]. by apply (upd_view_same s _ n).
Qed.

Lemma skt_data_good s n ok bytes : inv s -> enabled (AData n ok bytes) s -> good s (sock_step (AData n ok bytes) s).
Proof.
  intros Hs Hn. cbn [sock_step enabled] in *. pose proof (inv_table _ Hs) as Hk.
  set (e := sockets (tab s) n). assert (exists x', at_recv_notice_cb ok bytes (sk e) = Some (tt, x') /\ magic x' = magic (sk e) /\ state x' = state (sk e) /\
    recvpkt_list x' = recvpkt_list (sk e) ++ (if magic (sk e) && ok then [(bytes, 0)] else [])) as (x' & E & M' & S' & R').
  { unfold at_recv_notice_cb, at_recvpkt_put, bind, gets. destruct (magic (sk e)) eqn:Em; [|eexists; by rewrite app_nil_r].
    destruct ok; cbn; eexists; (split; [reflexivity|]); cbn; by rewrite ?app_nil_r, ?Em. }
  rewrite (on_sk_put _ _ _ _ E).
  assert (upd (tab s) (put (tab s) n (with_sk x' e)) n (type e, state (sk e), recvpkt_list x')) as Hu.
  { apply put_upd; [done|done|]. unfold conn_of. cbn [with_sk sk type]. by rewrite S'. }
  eexists _, _. split; [reflexivity|]. split; [apply (upd_inv s _ n _ _ Hs Hu); apply Hs|].
  rewrite R' in Hu. destruct (magic (sk e)) eqn:Em; [destruct ok|]; cbn [andb spec_step] in *.
  - assert (found (tab s) (socket e) n) as Hf by (split; [by apply Hk|done]).
    eexists _, _, _. split; [by apply (view_found s _ n)|]. by apply (upd_view_at s _ n).
  - rewrite app_nil_r in Hu. by apply (upd_view_same s _ n).
  - rewrite app_nil_r in Hu. by apply (upd_view_same s _ n).
Qed.

(** ** Closing *)

(** What is seen of a socket whose entry is as before. *)
Lemma view_ext s s' j :
  table_ok s.(tab) -> table_ok s'.(tab) -> (forall m, found s'.(tab) j m <-> found s.(tab) j m) ->
  (forall m, found s.(tab) j m -> conn_of (sockets s'.(tab) m) = conn_of (sockets s.(tab) m)) -> view s' j = view s j.
Proof.
  intros Hk Hk' Hf Hc. destruct (get_from (sockets (tab s)) j (_socket_list (tab s))) as [m|] eqn:E.
  - pose proof (proj1 (get_found _ _ _ Hk) E) as Hm. rewrite (view_found s' j m Hk') by (by apply Hf). rewrite (view_found s j m Hk) by done.
    by rewrite Hc.
  - pose proof (proj1 (get_none _ _ Hk) E) as Hn. rewrite (proj2 (view_none s' j Hk')) by (intros m Hm; by apply (Hn m), Hf).
    symmetry. by apply view_none.
Qed.

Lemma free_spec k sd n :
  table_ok k -> found k sd n ->
  exists k', free_socket n k = Some (0, k') /\ table_ok k' /\ (forall m, m <> n -> k'.(sockets) m = k.(sockets) m) /\
    (forall j m, found k' j m <-> found k j m /\ m <> n).
Proof.
  intros [H1 H2] [Hn Hsd]. unfold free_socket, get_entry, bind, gets, modify, on_entry. eexists. split; [reflexivity|].
  destruct (remove_from_spec (sockets k) _ n 0 H1) as [A B]; [intros x Hx; by apply H2 in Hx as [_ ?]|done|].
  set (k' := mk_table _ _). assert (forall m, m <> n -> sockets k' m = sockets k m) as Ho.
  { intros m Hm. unfold k'. cbn [sockets]. by rewrite fn_lookup_insert_ne. }
  assert (magic (sk (sockets k' n)) = false) as Hz by (unfold k'; cbn [sockets]; by rewrite fn_lookup_insert).
  split; [|split; [done|]].
  - split.
    + apply (ascending_ext (sockets k)); [|done]. intros m Hm. cbn [k' _socket_list] in Hm. apply B in Hm as [_ Hm]. by rewrite Ho.
    + intros m. cbn [k' _socket_list]. rewrite B, H2. destruct (decide (m = n)) as [->|Hm]; [rewrite Hz; intuition done|].
      rewrite Ho by done. tauto.
  - intros j m. unfold found. cbn [k' _socket_list]. rewrite B. destruct (decide (m = n)) as [->|Hm]; [tauto|].
    rewrite (Ho m Hm). tauto.
Qed.

(** A thread frees its socket, after changes of its entry. *)
Lemma free_view s k0 c t sd n :
  inv s -> upd s.(tab) k0 n c -> found s.(tab) sd n -> s.(owner) sd = Some t ->
  exists k', free_socket n k0 = Some (0, k') /\ good s (Some (LFreed sd, closed k' t sd s)).
Proof.
  intros Hs Hu Hf Ho. pose proof (inv_table _ Hs) as Hk. pose proof (upd_ok _ _ _ _ Hu Hk) as Hk0.
  destruct (free_spec k0 sd n Hk0) as (k' & E & Hk' & Hsame & Hfound); [by apply (upd_found _ _ _ _ _ _ Hu)|].
  assert (forall j m, found k' j m <-> found (tab s) j m /\ m <> n) as Hff by (intros j m; rewrite Hfound; by rewrite (upd_found _ _ _ _ _ _ Hu)).
  assert (forall j m, found (tab s) j m -> j <> sd -> m <> n) as Hne.
  { intros j m [_ E1] Hj ->. destruct Hf as [_ E2]. congruence. }
  exists k'. split; [done|]. eexists _, _. split; [reflexivity|]. split.
  - split; cbn [closed tab owner pcs]; [done| |].
    + intros j u. destruct (decide (j = sd)) as [->|Hj]; [by rewrite fn_lookup_insert|]. rewrite fn_lookup_insert_ne by done.
      intros Hj'. destruct (inv_owner _ Hs j u Hj') as [m Hm]. exists m. apply Hff. split; [done|]. by apply (Hne j).
    + intros u j m. destruct (decide (u = t)) as [->|Hut]; [by rewrite fn_lookup_insert|]. rewrite fn_lookup_insert_ne by done.
      intros Hw. destruct (inv_waits _ Hs u j m Hw) as [Ho' Hf']. assert (j <> sd) as Hj by (intros ->; congruence).
      rewrite fn_lookup_insert_ne by done. split; [done|]. apply Hff. split; [done|]. by apply (Hne j).
  - cbn [spec_step]. split; [by rewrite (view_found s sd n)|]. intros j. destruct (decide (j = sd)) as [->|Hj].
    + rewrite fn_lookup_insert. apply view_none; [done|]. intros m Hm. apply Hff in Hm as [[Hin Em] Hm]. destruct Hf as [Hin' En].
      apply Hm. apply (ascending_inj (sockets (tab s)) 0 (_socket_list (tab s))); [apply Hk|done|done|congruence].
    + rewrite fn_lookup_insert_ne by done. apply view_ext; [done|done| |].
      * intros m. cbn [closed tab]. rewrite Hff. split; [by intros [? _]|]. intros Hm. split; [done|]. by apply (Hne j).
      * intros m Hm. cbn [closed tab]. rewrite Hsame by (by apply (Hne j)). apply (upd_other _ _ _ _ Hu). by apply (Hne j).
Qed.

Lemma skt_close_good s t sd : inv s -> may_use s t sd -> good s (after_close t sd (at_closesocket sd s.(tab)) s).
Proof.
  intros Hs Hu. unfold at_closesocket, at_get_socket, bind at 1, gets at 1.
  destruct (get_from _ _ _) as [n|] eqn:E; [|apply (move_tau s _ 0%nat); [done|apply upd_id|done]].
  destruct (use_found s t sd n Hs Hu E) as [Hf Ho]. unfold get_entry, bind at 1, gets at 1. unfold bind at 1. rewrite on_entry_put.
  pose proof (state_upd (tab s) n AT_SOCKET_CLOSED) as Hup. case_bool_decide as Hst; cbn [negb].
  - destruct (free_view s _ _ t sd n Hs Hup Hf Ho) as (k' & Ek & Hg). unfold bind. by rewrite Ek.
  - apply (move_state s _ n); [done|done|done|]. intros sd' m [= <- <-]. done.
Qed.

Lemma skt_answer_good s t result : inv s -> enabled (AAnswer t result) s -> good s (sock_step (AAnswer t result) s).
Proof.
  intros Hs Hn. cbn [sock_step enabled] in *. pose proof (inv_waits _ Hs t) as Hw.
  destruct (pcs s t) as [|sd n|sd n|sd n|sd n] eqn:Ep; [done|..]; destruct (Hw sd n eq_refl) as [Ho Hf]; clear Hw.
  - destruct (free_view s _ _ t sd n Hs (upd_id _ _) Hf Ho) as (k' & Ek & Hg). unfold closesocket_end, bind. by rewrite Ek.
  - unfold connect_end. destruct (result <? 0).
    + unfold bind at 1. rewrite error_put. unfold bind at 1. destruct (send_event_upd (erred (tab s) n) n) as (k' & -> & Hk').
      apply (move_tau s k' n); [done| |done]. refine (upd_trans _ _ _ _ _ _ (erred_upd _ _) _).
      by rewrite (upd_conn _ _ _ _ (erred_upd (tab s) n)) in Hk'.
    + unfold bind at 1. rewrite on_entry_put. unfold bind at 1.
      destruct (send_event_upd (put (tab s) n (set_state AT_SOCKET_CONNECT (sockets (tab s) n))) n) as (k' & -> & Hk').
      apply (move_state s k' n); [done|done| |done]. refine (upd_trans _ _ _ _ _ _ (state_upd _ _ _) _). by rewrite entry_put_eq in Hk'.
  - unfold sendto_connected. destruct (result <? 0).
    + unfold bind. rewrite error_put. apply (move_tau s _ n); [done|apply erred_upd|done].
    + unfold bind. rewrite on_entry_put. apply (move_state s _ n); [done|done|apply state_upd|]. intros sd' m [= <- <-]. done.
  - unfold sendto_end. destruct (result <? 0).
    + unfold bind. rewrite error_put. apply (move_tau s _ n); [done|apply erred_upd|done].
    + apply (move_tau s _ n); [done|apply upd_id|done].
Qed.

(** ** Opening *)

(** Entry [n], which was not in use, is the new socket [sd]. *)
Record added (k k' : table) (n : nat) (sd : Z) (c : conn) : Prop := {
  add_ok : table_ok k';
  add_new : found k' sd n;
  add_found j m : j <> sd -> found k' j m <-> found k j m;
  add_other j m : j <> sd -> found k j m -> conn_of (k'.(sockets) m) = conn_of (k.(sockets) m);
  add_conn : conn_of (k'.(sockets) n) = c;
  add_least : 0 <= sd /\ (forall m, ~ found k sd m) /\ (forall j, 0 <= j < sd -> exists m, found k j m)
}.

Lemma alloc_spec k sem_ok mutex_ok :
  table_ok k ->
  (length k.(_socket_list) = socket_num /\ alloc_socket_by_device sem_ok mutex_ok k = Some (None, k)) \/
  (exists n k' sd ty, added k k' n sd (ty, AT_SOCKET_NONE, []) /\
     alloc_socket_by_device sem_ok mutex_ok k = Some (if sem_ok && mutex_ok then Some n else None, k')).
Proof.
  intros Hk. pose proof Hk as [H1 H2].
  destruct (empty_entry_spec (sockets k) socket_num 0) as (A & B & C). set (n := empty_entry (sockets k) socket_num 0) in *.
  destruct (Nat.leb_spec socket_num n) as [Hle|Hlt].
  - left. split; [|unfold alloc_socket_by_device, bind, gets; cbv zeta; fold n; by rewrite (proj2 (Nat.leb_le _ _) Hle)].
    assert (n = socket_num) as En by lia. apply Nat.le_antisymm.
    + rewrite <- (length_seq socket_num 0). apply submseteq_length, NoDup_submseteq; [by eapply ascending_nodup|].
      intros x Hx. apply H2 in Hx as [Hx _]. apply elem_of_seq. lia.
    + rewrite <- (length_seq socket_num 0) at 1. apply submseteq_length, NoDup_submseteq; [apply NoDup_ListNoDup, seq_NoDup|].
      intros x Hx. apply elem_of_seq in Hx. apply H2. split; [lia|]. apply C. lia.
  - right. specialize (B Hlt). assert (n ∉ _socket_list k) as Hn by (intros [_ E]%H2; congruence).
    destruct (insert_socket (sockets k) 0 n (_socket_list k)) as [sd l'] eqn:Ei.
    set (e := mk_entry (mk_sock true AT_SOCKET_NONE [] 0 0 0) sd (type (sockets k n))
                (recv_timeout (sockets k n)) (send_timeout (sockets k n)) 0).
    set (k' := mk_table (<[n := e]> (sockets k)) l'). exists n, k', sd, (type (sockets k n)).
    assert (sockets k' n = e) as En by (cbn [k' sockets]; by rewrite fn_lookup_insert).
    assert (forall m, m <> n -> sockets k' m = sockets k m) as Eo by (intros m Hm; cbn [k' sockets]; by rewrite fn_lookup_insert_ne).
    destruct (insert_socket_spec (sockets k) (sockets k') n _ 0 sd l' H1 Hn Ei) as (I1 & I2 & I3 & I4 & I5);
      [intros m Hm; by rewrite Eo|by rewrite En|].
    assert (forall m, m ∈ _socket_list k -> m <> n) as Hnm by (intros m Hm ->; done).
    split.
    2: { unfold alloc_socket_by_device, bind, gets. cbv zeta. fold n. rewrite (proj2 (Nat.leb_gt _ _) Hlt), Ei. by destruct sem_ok, mutex_ok. }
    split.
    + split; [done|]. intros m. cbn [k' _socket_list]. rewrite I2, H2. destruct (decide (m = n)) as [->|Hm]; [rewrite En; cbn; intuition lia|].
      rewrite Eo by done. intuition done.
    + split; [apply I2; by left|by rewrite En].
    + intros j m Hj. unfold found. cbn [k' _socket_list]. rewrite I2. destruct (decide (m = n)) as [->|Hm].
      * rewrite En. cbn [e socket]. split; [intros [_ ?]; congruence|intros [? _]; done].
      * rewrite (Eo m Hm). intuition done.
    + intros j m _ [Hm _]. by rewrite Eo by (by apply Hnm).
    + by rewrite En.
    + split; [done|]. split; [intros m [Hm Em]; by apply (I5 m)|]. intros j Hj. apply (I4 j Hj).
Qed.

Lemma added_upd k k' k2 n sd c c2 : added k k' n sd c -> upd k' k2 n c2 -> added k k2 n sd c2.
Proof.
  intros [A B C D F G] Hu. split; try done.
  - by apply (upd_ok _ _ _ _ Hu).
  - by apply (upd_found _ _ _ _ _ _ Hu).
  - intros j m Hj. rewrite (upd_found _ _ _ _ _ _ Hu). by apply C.
  - intros j m Hj Hm. rewrite (upd_other _ _ _ _ Hu); [by apply (D j)|]. intros ->. destruct (proj2 (C j n Hj) Hm) as [_ E], B as [_ E']. congruence.
  - apply (upd_conn _ _ _ _ Hu).
Qed.

Lemma added_inv s k' n sd c own' :
  inv s -> added s.(tab) k' n sd c -> (forall j, j <> sd -> own' j = s.(owner) j) -> inv (mk_sys k' s.(pcs) own').
Proof.
  intros Hs [A B C D F (G1 & G2 & G3)] Ho. split; cbn [tab owner pcs]; [done| |].
  - intros j t. destruct (decide (j = sd)) as [->|Hj]; [intros _; by exists n|]. rewrite Ho by done. intros E.
    destruct (inv_owner _ Hs j t E) as [m Hm]. exists m. by apply C.
  - intros t j m E. destruct (inv_waits _ Hs t j m E) as [Ho' Hf]. assert (j <> sd) as Hj by (intros ->; by apply G2 in Hf).
    rewrite Ho by done. split; [done|]. by apply C.
Qed.

Lemma added_view s k' n sd c own' :
  inv s -> added s.(tab) k' n sd c ->
  (0 <= sd /\ view s sd = None /\ forall j, 0 <= j < sd -> view s j <> None) /\
  (forall j, view (mk_sys k' s.(pcs) own') j = <[sd := Some c]> (view s) j).
Proof.
  intros Hs [A B C D F (G1 & G2 & G3)]. pose proof (inv_table _ Hs) as Hk. split.
  - split; [done|]. split; [by apply view_none|]. intros j Hj. destruct (G3 j Hj) as [m Hm]. by rewrite (view_found s j m).
  - intros j. destruct (decide (j = sd)) as [->|Hj].
    + rewrite fn_lookup_insert. rewrite (view_found _ sd n) by done. cbn [tab]. by rewrite F.
    + rewrite fn_lookup_insert_ne by done. apply view_ext; [done|done|intros m; by apply C|]. intros m Hm. by apply (D j).
Qed.

(** [at_socket], and when it succeeds. *)
Lemma open_spec s ty device_ok sem_ok mutex_ok :
  inv s ->
  exists r k', at_socket ty device_ok sem_ok mutex_ok s.(tab) = Some (r, k') /\
    ((r = -1 /\ (k' = s.(tab) \/ exists n sd ty', added s.(tab) k' n sd (ty', AT_SOCKET_NONE, [])) /\
      ~ (device_ok = true /\ sem_ok = true /\ mutex_ok = true /\ (ty = SOCK_STREAM \/ ty = SOCK_DGRAM) /\ (length (_socket_list s.(tab)) < socket_num)%nat)) \/
     (exists n, added s.(tab) k' n r (type_of ty, AT_SOCKET_OPEN, []))).
Proof.
  intros Hs. unfold at_socket, type_of.
  assert (forall st, exists r k', (if negb device_ok then ret (-1) else
      r <- alloc_socket_by_device sem_ok mutex_ok ;;
      match r with
      | None => ret (-1)
      | Some n => on_entry n (with_type st) ;;; on_entry n (set_state AT_SOCKET_OPEN) ;;; e <- get_entry n ;; ret e.(socket)
      end) (tab s) = Some (r, k') /\
    ((r = -1 /\ (k' = s.(tab) \/ exists n sd ty', added s.(tab) k' n sd (ty', AT_SOCKET_NONE, [])) /\
      ~ (device_ok = true /\ sem_ok = true /\ mutex_ok = true /\ (length (_socket_list s.(tab)) < socket_num)%nat)) \/
     (exists n, added s.(tab) k' n r (st, AT_SOCKET_OPEN, [])))) as Hopen.
  { intros st. destruct device_ok; cbn [negb]; [|eexists _, _; split; [reflexivity|]; left; split; [done|]; split; [by left|]; by intros (? & _)].
    destruct (alloc_spec (tab s) sem_ok mutex_ok (inv_table _ Hs)) as [(Hl & E)|(n & k' & sd & ty' & Ha & E)]; unfold bind at 1; rewrite E.
    - eexists _, _. split; [reflexivity|]. left. split; [done|]. split; [by left|]. intros (_ & _ & _ & ?). lia.
    - destruct (sem_ok && mutex_ok) eqn:Eb.
      + unfold bind at 1. rewrite on_entry_put. unfold bind at 1. rewrite on_entry_put, entry_put_eq. unfold bind, get_entry, gets. rewrite entry_put_eq.
        set (e := sockets k' n) in *. pose proof (add_conn _ _ _ _ _ Ha) as Hc. fold e in Hc. injection Hc as _ Hst Hpk.
        eexists _, _. split; [reflexivity|]. right. exists n. assert (socket (set_state AT_SOCKET_OPEN (with_type st e)) = sd) as ->
          by (destruct (add_new _ _ _ _ _ Ha) as [_ Es]; done).
        refine (added_upd _ _ _ _ _ _ _ Ha _). apply (upd_trans _ (put k' n (with_type st e)) _ _ (conn_of (with_type st e))); [by apply put_upd|].
        apply put_upd; [by rewrite entry_put_eq|by rewrite entry_put_eq|]. unfold conn_of. cbn. by rewrite Hpk.
      + eexists _, _. split; [reflexivity|]. left. split; [done|]. split; [right; by exists n, sd, ty'|].
        intros (_ & -> & -> & _). done. }
  destruct (Z.eqb_spec ty SOCK_STREAM) as [E1|E1].
  { destruct (Hopen AT_SOCKET_TCP) as (r & k' & E & H). exists r, k'. split; [done|]. destruct H as [(A & B & C)|H]; [left|by right].
    split; [done|]. split; [done|]. intros (? & ? & ? & _ & ?). by apply C. }
  destruct (Z.eqb_spec ty SOCK_DGRAM) as [E2|E2].
  { destruct (Hopen AT_SOCKET_UDP) as (r & k' & E & H). exists r, k'. split; [done|]. destruct H as [(A & B & C)|H]; [left|by right].
    split; [done|]. split; [done|]. intros (? & ? & ? & _ & ?). by apply C. }
  eexists _, _. split; [reflexivity|]. left. split; [done|]. split; [by left|]. intros (_ & _ & _ & [?|?] & _); done.
Qed.

Lemma skt_open_good s t ty device_ok sem_ok mutex_ok : inv s -> good s (sock_step (AOpen t ty device_ok sem_ok mutex_ok) s).
Proof.
  intros Hs. cbn [sock_step]. destruct (open_spec s ty device_ok sem_ok mutex_ok Hs) as (r & k' & -> & [(-> & Hk & _)|(n & Ha)]).
  - eexists _, _. split; [reflexivity|]. cbn [spec_step]. destruct Hk as [->|(n & sd & ty' & Ha)].
    + split; [by destruct s|]. by left.
    + split; [by apply (added_inv s k' n sd _ _ Hs Ha)|]. right. exists sd, ty'. by apply (added_view s k' n).
  - pose proof (add_least _ _ _ _ _ Ha) as (Hr & _). rewrite (proj2 (Z.ltb_ge r 0)) by done.
    eexists _, _. split; [reflexivity|]. split.
    + apply (added_inv s k' n r _ _ Hs Ha). intros j Hj. by rewrite fn_lookup_insert_ne.
    + cbn [spec_step]. by apply (added_view s k' n).
Qed.

(** ** Every step *)

Lemma skt_good s a : inv s -> enabled a s -> good s (sock_step a s).
Proof.
  intros Hs Ha. destruct a as [t ty device_ok sem_ok mutex_ok|t sd|t sd data to_|t sd how|t sd|t result|n|n ok bytes].
  - by apply skt_open_good.
  - by apply skt_connect_call_good.
  - by apply skt_send_call_good.
  - by apply (skt_close_good s t sd).
  - by apply skt_close_good.
  - by apply skt_answer_good.
  - by apply skt_closed_good.
  - by apply skt_data_good.
Qed.

Lemma skt_initial_inv s : initial s -> inv s.
Proof.
  intros (Hl & Hm & Hp & Ho). split.
  - split; rewrite Hl; [done|]. intros n. rewrite Hm. split; [by intros ?%not_elem_of_nil|by intros [_ ?]].
  - intros sd t. by rewrite Ho.
  - intros t sd n. by rewrite Hp.
Qed.

Lemma skt_reach_inv s : reach s -> inv s.
Proof.
  induction 1 as [s Hi|s a l s' _ IH Ha E]; [by apply skt_initial_inv|].
  destruct (skt_good s a IH Ha) as (l' & s'' & E' & Hi & _). rewrite E in E'. by injection E' as <- <-.
Qed.

(** C19: Threads that use only sockets of their own see a set of numbered connections:
    every step returns; opening gives the least number that is not in use, and
    succeeds whenever the device, memory and one of the five entries are there;
    connecting, sending, closing and notices of the module change the state of
    their own socket only, and data are appended to the packets of theirs; closing
    gives the number back, whatever the module answers.  While a thread waits for
    the module, its entry stays the one of its socket. *)
Theorem sockets_are_independent s :
  reach s ->
  (forall a, enabled a s -> exists l s', sock_step a s = Some (l, s') /\ spec_step (view s) l (view s')) /\
  (forall t ty, ty = SOCK_STREAM \/ ty = SOCK_DGRAM -> (length (_socket_list s.(tab)) < socket_num)%nat ->
     exists sd s', sock_step (AOpen t ty true true true) s = Some (LOpened sd (type_of ty), s') /\ s'.(owner) sd = Some t) /\
  (forall sd t, s.(owner) sd = Some t -> view s sd <> None) /\
  (forall t sd n, waits_on (s.(pcs) t) = Some (sd, n) -> at_get_socket sd s.(tab) = Some (Some n, s.(tab)) /\ s.(owner) sd = Some t) /\
  (length (_socket_list s.(tab)) <= socket_num)%nat.
Proof.
  intros Hr. apply skt_reach_inv in Hr as Hs. pose proof (inv_table _ Hs) as Hk. split_and!.
  - intros a Ha. destruct (skt_good s a Hs Ha) as (l & s' & E & _ & Hsp). by exists l, s'.
  - intros t ty Hty Hl. cbn [sock_step]. destruct (open_spec s ty true true true Hs) as (r & k' & -> & [(_ & _ & Hno)|(n & Ha)]); [by destruct Hno|].
    pose proof (add_least _ _ _ _ _ Ha) as (Hr0 & _). rewrite (proj2 (Z.ltb_ge r 0)) by done.
    eexists _, _. split; [reflexivity|]. cbn [owner]. by rewrite fn_lookup_insert.
  - intros sd t Ho. destruct (inv_owner _ Hs sd t Ho) as [n Hn]. by rewrite (view_found s sd n).
  - intros t sd n Hw. destruct (inv_waits _ Hs t sd n Hw) as [Ho Hf]. split; [|done]. unfold at_get_socket, gets.
    by rewrite (proj2 (get_found _ _ _ Hk) Hf).
  - rewrite <- (length_seq socket_num 0). apply submseteq_length, NoDup_submseteq; [apply (ascending_nodup (sockets (tab s)) 0), Hk|].
    intros x Hx. apply Hk in Hx as [Hx _]. apply elem_of_seq. lia.
Qed.

(** Two threads open sockets; the first one is closed, and its number is given to
    the next. *)
Definition empty_table : table :=
  mk_table (fun _ => mk_entry (mk_sock false AT_SOCKET_NONE [] 0 0 0) 0 AT_SOCKET_INVALID 0 0 0) [].
Definition demo_start : sys := mk_sys empty_table (fun _ => Idle) (fun _ => None).

Fixpoint run_all (l : list action) (s : sys) : option (list slabel * sys) :=
  match l with
  | [] => Some ([], s)
  | a :: l =>
      match sock_step a s with
      | Some (x, s) => match run_all l s with Some (xs, s) => Some (x :: xs, s) | None => None end
      | None => None
      end
  end.

Fixpoint run_ok (l : list action) (s : sys) : Prop :=
  match l with
  | [] => True
  | a :: l => enabled a s /\ match sock_step a s with Some (_, s) => run_ok l s | None => True end
  end.

Lemma skt_reach_run l : forall s xs s', reach s -> run_ok l s -> run_all l s = Some (xs, s') -> reach s'.
Proof.
  induction l as [|a l IH]; intros s xs s' Hr Hok E; cbn [run_all] in E; [by injection E as <- <-|].
  destruct Hok as [Ha Hok]. destruct (sock_step a s) as [[x s1]|] eqn:Es; [|done].
  destruct (run_all l s1) as [[ys s2]|] eqn:El; [|done]. injection E as <- <-.
  apply (IH s1 ys s2); [|done|done]. by apply (reach_step s a x).
Qed.

Definition demo_run : list action :=
  [AOpen 1 SOCK_STREAM true true true; AOpen 2 SOCK_DGRAM true true true; AConnect 1 0; AAnswer 1 0; AData 1 true [7; 8];
   ASend 2 1 [1; 2; 3] true; AClose 1 0; AAnswer 2 0; AAnswer 1 0; AOpen 1 SOCK_DGRAM true true true].

Lemma sockets_are_independent_witness :
  exists l s, run_all demo_run demo_start = Some (l, s) /\
    l = [LOpened 0 AT_SOCKET_TCP; LOpened 1 AT_SOCKET_UDP; LTau; LState 0 AT_SOCKET_CONNECT; LData 1 [7; 8]; LTau;
         LState 0 AT_SOCKET_CLOSED; LState 1 AT_SOCKET_CONNECT; LFreed 0; LOpened 0 AT_SOCKET_UDP] /\
    view s 1 = Some (AT_SOCKET_UDP, AT_SOCKET_CONNECT, [([7; 8], 0)]) /\ view s 0 <> None.
Proof.
  destruct (run_all demo_run demo_start) as [[l s]|] eqn:E; [|by vm_compute in E].
  exists l, s. split; [done|]. split; [by vm_compute in E; injection E as <- <-|]. split; [vm_compute in E; injection E as <- <-; by vm_compute|].
  apply (sockets_are_independent s) with (t := 1%nat).
  - apply (skt_reach_run demo_run demo_start l s); [constructor; done| |done]. vm_compute. repeat split; try done; first [lia|by left].
  - vm_compute in E. injection E as <- <-. by vm_compute.
Defined.

(** Defects of opening and connecting. *)

(** When there is no memory for the semaphore of a new socket, its entry stays in
    use although nobody has the socket: after five times no socket can be opened
    any more. *)
Theorem failed_open_leaks_entry :
  exists s l s', run_all (replicate 5 (AOpen 1 SOCK_STREAM true false true)) demo_start = Some (l, s) /\
    (forall sd, s.(owner) sd = None) /\ sock_step (AOpen 1 SOCK_STREAM true true true) s = Some (LRefused, s').
Proof.
  destruct (run_all (replicate 5 (AOpen 1 SOCK_STREAM true false true)) demo_start) as [[l s]|] eqn:E; [|by vm_compute in E].
  destruct (sock_step (AOpen 1 SOCK_STREAM true true true) s) as [[x s']|] eqn:E'.
  - exists s, l, s'. split; [done|]. vm_compute in E. injection E as <- <-. split; [done|]. vm_compute in E'. by injection E' as <- <-.
  - vm_compute in E. injection E as <- <-. by vm_compute in E'.
Qed.

(** The module reports that the connection is closed after it has answered and
    before the thread goes on: the socket is taken for connected. *)
Theorem connect_overwrites_close n k :
  exists k1 k2, magic (sk (sockets k n)) = true -> on_sk n at_closed_notice_cb k = Some (tt, k1) /\ state (sk (sockets k1 n)) = AT_SOCKET_CLOSED /\
    connect_end n 0 k1 = Some (Done 0, k2) /\ state (sk (sockets k2 n)) = AT_SOCKET_CONNECT.
Proof.
  destruct (magic (sk (sockets k n))) eqn:Em; [|by exists k, k].
  destruct (closed_notice_spec _ Em) as (x' & E & _ & S' & _). exists (put k n (with_sk x' (sockets k n))).
  eexists. intros _. rewrite (on_sk_put _ _ _ _ E). split; [done|]. rewrite entry_put_eq. split; [done|]. split; [reflexivity|].
  cbn. rewrite !fn_lookup_insert. done.
Qed.

(** ** Options and the module *)

(** A timeout comes back in milliseconds. *)
Lemma timeout_option_roundtrip s sd n optname sec usec :
  inv s -> found s.(tab) sd n -> optname = SO_RCVTIMEO \/ optname = SO_SNDTIMEO -> 0 <= sec < 2000000 -> 0 <= usec < 1000000 ->
  exists k', at_setsockopt sd SOL_SOCKET optname sec usec s.(tab) = Some (0, k') /\
    at_getsockopt sd SOL_SOCKET optname k' = Some ((0, Some (sec, usec / 1000 * 1000)), k').
Proof.
  intros Hs Hf Ho Hsec Husec. pose proof (inv_table _ Hs) as Hk.
  assert (0 <= Z.quot usec 1000 < 1000) as Hq by (rewrite Z.quot_div_nonneg by lia; pose proof (Z.div_lt_upper_bound usec 1000 1000); pose proof (Z.div_pos usec 1000); lia).
  set (t := s32 (sec * 1000 + Z.quot usec 1000)). assert (t = sec * 1000 + usec / 1000) as Et
    by (unfold t; rewrite s32_small by lia; rewrite Z.quot_div_nonneg by lia; done).
  assert (0 <= usec / 1000 < 1000) by (rewrite <- Z.quot_div_nonneg by lia; done).
  assert (u32 t / 1000 = sec /\ u32 t mod 1000 * 1000 = usec / 1000 * 1000) as [E1 E2].
  { rewrite u32_small by (rewrite Et; lia). rewrite Et. split.
    - rewrite Z.add_comm, Z.div_add by lia. rewrite (Z.div_small (usec / 1000)); lia.
    - rewrite Z.add_comm, Z.mod_add by lia. rewrite Z.mod_small; lia. }
  unfold at_setsockopt, at_get_socket, bind at 1, gets at 1. rewrite (proj2 (get_found _ _ _ Hk) Hf). cbv zeta. fold t.
  assert (forall e, socket e = socket (sockets (tab s) n) -> magic (sk e) = magic (sk (sockets (tab s) n)) ->
    get_from (sockets (put (tab s) n e)) sd (_socket_list (put (tab s) n e)) = Some n) as Hget.
  { intros e H1 H2. pose proof (put_upd (tab s) n e _ H1 H2 eq_refl) as Hu. apply get_found; [by apply (upd_ok _ _ _ _ Hu)|].
    by apply (upd_found _ _ _ _ _ _ Hu). }
  set (e0 := sockets (tab s) n) in *.
  destruct Ho as [-> | ->];
    [set (e := mk_entry (sk e0) (socket e0) (type e0) t (send_timeout e0) (sendevent e0))
    |set (e := mk_entry (sk e0) (socket e0) (type e0) (recv_timeout e0) t (sendevent e0))];
    (exists (put (tab s) n e); split; [reflexivity|]); unfold at_getsockopt, at_get_socket, bind at 1, gets at 1; rewrite (Hget e) by done;
    unfold get_entry, bind, gets; rewrite entry_put_eq;
    (transitivity (Some ((0, Some (u32 t / 1000, u32 t mod 1000 * 1000)), put (tab s) n e)); [reflexivity|by rewrite E1, E2]).
Qed.

(** Connecting sends at most three commands, and reports what the last attempt
    was answered. *)
Lemma connect_retries_once answer c1 c2 n ip port ty r h :
  0 <= port -> ty <> AT_SOCKET_INVALID -> esp8266_socket_connect answer c1 c2 n ip port ty true [] = Some (r, h) ->
  (length h <= 3)%nat /\ (r = RT_EOK -> exists h', h = h' ++ [CIPSTART n ty ip port] /\ 0 <= answer h).
Proof.
  intros Hp Hty. unfold esp8266_socket_connect. rewrite (proj2 (Z.ltb_ge port 0)) by done.
  destruct c1; cbn [negb]; [|intros [= <- <-]; split; [cbn; lia|done]].
  assert (forall (A : Type) (a b : A), match ty with AT_SOCKET_INVALID => a | _ => b end = b) as Hm by (by destruct ty).
  rewrite Hm. unfold connect_try, exec, bind, modify, gets, ret. cbn [app].
  destruct (Z.ltb_spec (answer [CIPSTART n ty ip port]) 0) as [H1|H1].
  - change (negb (- RT_ERROR =? RT_EOK)) with true. cbv iota. unfold esp8266_socket_close. destruct c2; cbn [negb]; [|intros [= <- <-]; split; [cbn; lia|done]].
    unfold exec, bind, modify, gets, ret. cbn [app].
    destruct (Z.ltb_spec (answer [CIPSTART n ty ip port; CIPCLOSE n]) 0) as [H2|H2]; [intros [= <- <-]; split; [cbn; lia|done]|]. cbn [app].
    intros [= <- <-]. split; [cbn; lia|]. intros E. exists [CIPSTART n ty ip port; CIPCLOSE n]. split; [done|].
    by destruct (Z.ltb_spec (answer [CIPSTART n ty ip port; CIPCLOSE n; CIPSTART n ty ip port]) 0).
  - intros [= <- <-]. split; [cbn; lia|]. intros _. by exists [].
Qed.

End AtTableSystem.
