(* ===== verification/AtSend.v ===== *)
(** * Sending on a socket

    [esp8266_socket_send] of src/packages/at_device-v2.0.4/class/esp8266/
    at_socket_esp8266.c: the data are cut into packets; for each the module is
    asked with a command, gets the bytes, and reports with a code that they were
    sent, which the parser thread passes on through an event object.  The function
    is cut where it waits and where the parser can run. *)

From Stdlib Require Import ZArith Lia.
From stdpp Require Import prelude functions list.
From S2P Require Import Prelude Kernel Event AtClient.
Open Scope Z_scope.
Open Scope c_scope.

Module AtSend.

Definition ESP8266_MODULE_SEND_MAX_SIZE : Z := 2048.
Definition ESP8266_EVENT_SEND_OK : Z := 2.
Definition ESP8266_EVENT_SEND_FAIL : Z := 32.
Definition SET_EVENT (socket event : Z) : Z := Z.lor (Z.shiftl (socket + 1) 16) event.

(** What goes to the module: the command AT+CIPSEND, and bytes. *)
Inductive out := CIPSEND (socket size : Z) | Bytes (l : list Z).

(** [events]: the flags of [device->socket_event]; [user_data]: the socket whose
    packet is being sent; [end_sign] of the client; [locked]: its lock. *)
Record device := mk_device {
  events : Z;
  user_data : Z;
  end_sign : Z;
  locked : bool;
  wire : list out
}.

Abbreviation D := (M device).

Definition put_events (v : Z) : D unit := modify (fun d => mk_device v d.(user_data) d.(end_sign) d.(locked) d.(wire)).
Definition emit (o : out) : D unit := modify (fun d => mk_device d.(events) d.(user_data) d.(end_sign) d.(locked) (d.(wire) ++ [o])).
Definition set_end_sign (c : Z) : D unit := modify (fun d => mk_device d.(events) d.(user_data) c d.(locked) d.(wire)).
Definition set_lock (b : bool) : D unit := modify (fun d => mk_device d.(events) d.(user_data) d.(end_sign) b d.(wire)).
Definition set_user (v : Z) : D unit := modify (fun d => mk_device d.(events) v d.(end_sign) d.(locked) d.(wire)).

(** The variables of a call. *)
Record call := mk_call {
  device_socket : Z;
  buff : list Z;
  sent_size : Z;
  cur_pkt_size : Z;
  result : Z
}.

Definition SOCKET_EVENT (c : call) : Z := SET_EVENT c.(device_socket) 0.
Definition RESULT_EVENT : Z := Z.lor ESP8266_EVENT_SEND_OK ESP8266_EVENT_SEND_FAIL.

(** Where a call is: it waits for the answer to the command; has written the
    packet; waits for the flags of its socket, has them; waits for the flags of
    the result, has got [recved]. *)
Inductive phase := InCommand | Written | WaitSocket | GotSocket | WaitResult | GotResult (recved : Z).
#[export] Instance phase_eq_dec : EqDecision phase.
Proof. solve_decision. Defined.

Inductive outcome := Returns (code : Z) | Goes (c : call) (p : phase).

(** [esp8266_socket_event_recv] with RT_EVENT_FLAG_OR: the flags that are there are
    taken, otherwise the thread waits. *)
Definition event_recv (mask : Z) : D (option Z) :=
  d <- gets (fun d => d) ;;
  let recved := Z.land d.(events) mask in
  if recved =? 0 then ret None
  else put_events (Event.cleared d.(events) mask) ;;; ret (Some recved).

(** From [__exit] on. *)
Definition send_exit (c : call) (result : Z) : D outcome :=
  set_end_sign 0 ;;;
  set_lock false ;;;
  ret (Returns (if 0 <? result then c.(sent_size) else result)).

(** The head of the loop. *)
Definition send_next (c : call) : D outcome :=
  let bfsz := Z.of_nat (length c.(buff)) in
  if c.(sent_size) <? bfsz then
    let cur := if bfsz - c.(sent_size) <? ESP8266_MODULE_SEND_MAX_SIZE then bfsz - c.(sent_size) else ESP8266_MODULE_SEND_MAX_SIZE in
    emit (CIPSEND c.(device_socket) cur) ;;;
    ret (Goes (mk_call c.(device_socket) c.(buff) c.(sent_size) cur c.(result)) InCommand)
  else send_exit c c.(result).

(** [resp_ok]: there is memory for the response. *)
Definition esp8266_socket_send (resp_ok : bool) (device_socket_ : Z) (buff_ : list Z) : D outcome :=
  if (length buff_ =? 0)%nat then undefined
  else if negb resp_ok then ret (Returns (- AtClient.RT_ENOMEM))
  else
    set_lock true ;;;
    set_user device_socket_ ;;;
    set_end_sign 62 ;;;
    send_next (mk_call device_socket_ buff_ 0 0 RT_EOK).

(** [at_obj_exec_cmd] has returned [r]; [n]: how many bytes the serial device
    takes. *)
Definition send_packet (c : call) (r n : Z) : D outcome :=
  if r <? 0 then send_exit c (- RT_ERROR)
  else
    emit (Bytes (take (Z.to_nat n) (drop (Z.to_nat c.(sent_size)) c.(buff)))) ;;;
    if n =? 0 then send_exit c (- RT_ERROR)
    else ret (Goes (mk_call c.(device_socket) c.(buff) c.(sent_size) c.(cur_pkt_size) n) Written).

Definition send_wait_socket (c : call) : D outcome :=
  r <- event_recv (SOCKET_EVENT c) ;;
  ret (Goes c (match r with Some _ => GotSocket | None => WaitSocket end)).

Definition send_wait_result (c : call) : D outcome :=
  r <- event_recv RESULT_EVENT ;;
  ret (Goes c (match r with Some v => GotResult v | None => WaitResult end)).

Definition send_result (c : call) (event_result : Z) : D outcome :=
  if has event_result ESP8266_EVENT_SEND_FAIL then send_exit c (- RT_ERROR)
  else send_next (mk_call c.(device_socket) c.(buff) (c.(sent_size) + c.(cur_pkt_size)) c.(cur_pkt_size) c.(result)).

(** A wait ends with the timeout. *)
Definition send_timeout (c : call) : D outcome := send_exit c (- RT_ETIMEOUT).

(** ["SEND OK"] and ["SEND FAIL"] *)
Definition SEND_OK : list Z := [83; 69; 78; 68; 32; 79; 75].
Definition SEND_FAIL : list Z := [83; 69; 78; 68; 32; 70; 65; 73; 76].

(** The function of the codes SEND OK and SEND FAIL; [data] is the line. *)
Definition urc_send_func (data : list Z) : D unit :=
  d <- gets (fun d => d) ;;
  let event_send e := put_events (Z.lor d.(events) (SET_EVENT d.(user_data) e)) in
  match AtClient.rt_strstr data SEND_OK, AtClient.rt_strstr data SEND_FAIL with
  | Some true, _ => event_send ESP8266_EVENT_SEND_OK
  | Some false, Some true => event_send ESP8266_EVENT_SEND_FAIL
  | Some false, Some false => ret tt
  | _, _ => undefined
  end.

(** [rt_event_send] hands flags to a thread that waits for them. *)
Definition deliver (c : call) (p : phase) : D phase :=
  match p with
  | WaitSocket => r <- event_recv (SOCKET_EVENT c) ;; ret (match r with Some _ => GotSocket | None => WaitSocket end)
  | WaitResult => r <- event_recv RESULT_EVENT ;; ret (match r with Some v => GotResult v | None => WaitResult end)
  | _ => ret p
  end.

End AtSend.
