(* ===== verification/AtSendSystem.v ===== *)
(** * Sending is stop and wait

    A sender on the network module (AtSend.v), with the module's answers, the
    parser thread that passes on its codes, and timeouts, in any order.  A call
    may begin while a report of an earlier one is outstanding, and the serial
    device may take a part of a packet; the steps carry a flag that tells whether
    the present call is free of both. *)

From Stdlib Require Import ZArith Lia.
From stdpp Require Import prelude functions list.
From S2P Require Import Prelude Kernel Event AtClient AtSend.
Import AtSend.
Open Scope Z_scope.
Open Scope c_scope.

Module AtSendSystem.

(** ** Steps *)

(** [cur]: the call that holds the lock.  For the account: [base], the wire when
    the call began; [pkts], the packets written since; [due], the ones that the
    module has not answered; [acked], the ones it has reported as sent. *)
Record sys := mk_sys {
  dev : device;
  cur : option (call * phase);
  base : list out;
  pkts : list (list Z);
  due : list (list Z);
  acked : list (list Z)
}.

Inductive action :=
| ABegin (resp_ok : bool) (socket : Z) (buffer : list Z)
| AAnswer (r n : Z)
| ARun
| AUrc (ok : bool)
| ATimeout.

(** The result of a call that returns, if one does. *)
Definition after (r : option (outcome * device)) (base_ : list out) (pkts_ due_ acked_ : list (list Z)) : option (option Z * sys) :=
  match r with
  | Some (Returns code, d) => Some (Some code, mk_sys d None base_ pkts_ due_ acked_)
  | Some (Goes c p, d) => Some (None, mk_sys d (Some (c, p)) base_ pkts_ due_ acked_)
  | None => None
  end.

Definition packet (c : call) (n : Z) : list Z := take (Z.to_nat n) (drop (Z.to_nat c.(sent_size)) c.(buff)).

(** The line with which the module reports a packet. *)
Definition report (ok : bool) : list Z := (if ok then SEND_OK else SEND_FAIL) ++ [13; 10; 0].

Definition send_step (a : action) (s : sys) : option (option Z * sys) :=
  match a, s.(cur) with
  | ABegin resp_ok socket buffer, _ => after (esp8266_socket_send resp_ok socket buffer s.(dev)) (wire s.(dev)) [] s.(due) []
  | AAnswer r n, Some (c, InCommand) =>
      let new := if (r <? 0) || (n =? 0) then [] else [packet c n] in
      after (send_packet c r n s.(dev)) s.(base) (s.(pkts) ++ new) (s.(due) ++ new) s.(acked)
  | ARun, Some (c, Written) => after (send_wait_socket c s.(dev)) s.(base) s.(pkts) s.(due) s.(acked)
  | ARun, Some (c, GotSocket) => after (send_wait_result c s.(dev)) s.(base) s.(pkts) s.(due) s.(acked)
  | ARun, Some (c, GotResult v) => after (send_result c v s.(dev)) s.(base) s.(pkts) s.(due) s.(acked)
  | ATimeout, Some (c, WaitSocket) | ATimeout, Some (c, WaitResult) => after (send_timeout c s.(dev)) s.(base) s.(pkts) s.(due) s.(acked)
  | AUrc ok, _ =>
      match s.(due), urc_send_func (report ok) s.(dev) with
      | x :: rest, Some (_, d) =>
          let acked' := if ok then s.(acked) ++ [x] else s.(acked) in
          match s.(cur) with
          | Some (c, p) =>
              match deliver c p d with
              | Some (p, d) => Some (None, mk_sys d (Some (c, p)) s.(base) s.(pkts) rest acked')
              | None => None
              end
          | None => Some (None, mk_sys d None s.(base) s.(pkts) rest acked')
          end
      | _, _ => None
      end
  | _, _ => None
  end.

(** One call at a time has the lock; the serial device takes at most what it is
    given; the module reports packets that it has got. *)
Definition enabled (a : action) (s : sys) : Prop :=
  match a with
  | ABegin _ socket buffer => s.(cur) = None /\ 0 <= socket < 5 /\ buffer <> []
  | AAnswer r n => exists c, s.(cur) = Some (c, InCommand) /\ 0 <= n <= c.(cur_pkt_size)
  | ARun => exists c p, s.(cur) = Some (c, p) /\ (p = Written \/ p = GotSocket \/ exists v, p = GotResult v)
  | AUrc _ => s.(due) <> []
  | ATimeout => exists c p, s.(cur) = Some (c, p) /\ (p = WaitSocket \/ p = WaitResult)
  end.

(** Whether the call, present or next, is undisturbed: it began when the module
    owed no report and no flag was left over, and the serial device has taken its
    packets as a whole or not at all. *)
Definition undisturbed (s : sys) (a : action) (k : bool) : bool :=
  match a with
  | ABegin _ _ _ => bool_decide (s.(due) = []) && (events s.(dev) =? 0)
  | AAnswer r n =>
      k && match s.(cur) with
           | Some (c, _) => (r <? 0) || (n =? 0) || (n =? c.(cur_pkt_size))
           | None => true
           end
  | _ => k
  end.

Inductive reach : bool -> sys -> Prop :=
| reach_start k s : s.(cur) = None -> reach k s
| reach_step k s a r s' : reach k s -> enabled a s -> send_step a s = Some (r, s') ->
    reach (undisturbed s a k) s'.

(** ** The invariant *)

(** The flag of a result. *)
Definition bit (ok : bool) : Z := if ok then ESP8266_EVENT_SEND_OK else ESP8266_EVENT_SEND_FAIL.
(** A packet on the wire. *)
Definition framed (socket : Z) (x : list Z) : list out := [CIPSEND socket (Z.of_nat (length x)); Bytes x].
Definition size_ok (x : list Z) : Prop := 0 < Z.of_nat (length x) <= ESP8266_MODULE_SEND_MAX_SIZE.

(** [old]: the packets of the data up to [sent_size]. *)
Definition phase_ok (s : sys) (c : call) (p : phase) (old : list (list Z)) : Prop :=
  let x := packet c c.(cur_pkt_size) in
  let unanswered := s.(due) = [x] /\ events s.(dev) = 0 /\ s.(acked) = old in
  let answered (ok : bool) (ev : Z) := s.(due) = [] /\ events s.(dev) = ev /\ s.(acked) = if ok then old ++ [x] else old in
  match p with
  | InCommand => s.(pkts) = old /\ s.(due) = [] /\ events s.(dev) = 0 /\ s.(acked) = old
  | Written => unanswered \/ exists ok : bool, answered ok (SET_EVENT c.(device_socket) (bit ok))
  | WaitSocket => unanswered
  | GotSocket => exists ok : bool, answered ok (bit ok)
  | WaitResult => False
  | GotResult v => exists ok : bool, v = bit ok /\ answered ok 0
  end.

Record call_ok (s : sys) (c : call) (p : phase) (old : list (list Z)) : Prop := {
  co_socket : 0 <= c.(device_socket) < 5;
  co_user : user_data s.(dev) = c.(device_socket);
  co_sent : 0 <= c.(sent_size);
  co_cur : c.(cur_pkt_size) = Z.min (Z.of_nat (length c.(buff)) - c.(sent_size)) ESP8266_MODULE_SEND_MAX_SIZE /\ 0 < c.(cur_pkt_size);
  co_old : concat old = take (Z.to_nat c.(sent_size)) c.(buff);
  co_size : Forall size_ok old;
  co_wire : wire s.(dev) = s.(base) ++ concat (map (framed c.(device_socket)) s.(pkts)) ++
              (if decide (p = InCommand) then [CIPSEND c.(device_socket) c.(cur_pkt_size)] else []);
  co_pkts : p <> InCommand -> s.(pkts) = old ++ [packet c c.(cur_pkt_size)] /\ c.(result) = c.(cur_pkt_size);
  co_phase : phase_ok s c p old
}.

Definition inv (s : sys) : Prop := forall c p, s.(cur) = Some (c, p) -> exists old, call_ok s c p old.

(** What holds of every call, disturbed or not. *)
Definition any_ok (s : sys) : Prop :=
  forall c p, s.(cur) = Some (c, p) ->
    0 <= c.(sent_size) /\ 0 < c.(cur_pkt_size) <= Z.of_nat (length c.(buff)) - c.(sent_size) /\
    (p <> InCommand -> 0 < c.(result)).

(** What a step has to show; a call that returns [code] has sent [b], or a part
    of it. *)
Definition result_ok (code : Z) (b : list Z) (a : list (list Z)) : Prop :=
  (code = Z.of_nat (length b) /\ concat a = b) \/ (code < 0 /\ exists rest, rest <> [] /\ b = concat a ++ rest).

Definition good (s : sys) (r : option (option Z * sys)) : Prop :=
  exists o s', r = Some (o, s') /\ inv s' /\
    (forall code c p, o = Some code -> s.(cur) = Some (c, p) -> result_ok code c.(buff) s'.(acked)).

Lemma packet_length s c p old : call_ok s c p old -> Z.of_nat (length (packet c c.(cur_pkt_size))) = c.(cur_pkt_size).
Proof.
  intros H. destruct (co_cur _ _ _ _ H) as [E E']. pose proof (co_sent _ _ _ _ H). unfold packet. rewrite length_take, length_drop. lia.
Qed.

Lemma packet_size s c p old : call_ok s c p old -> size_ok (packet c c.(cur_pkt_size)).
Proof. intros H. unfold size_ok. rewrite (packet_length _ _ _ _ H). destruct (co_cur _ _ _ _ H). lia. Qed.

Lemma packet_next s c p old : call_ok s c p old ->
  concat (old ++ [packet c c.(cur_pkt_size)]) = take (Z.to_nat (c.(sent_size) + c.(cur_pkt_size))) c.(buff).
Proof.
  intros H. rewrite concat_app, (co_old _ _ _ _ H). cbn [concat]. rewrite app_nil_r. destruct (co_cur _ _ _ _ H). pose proof (co_sent _ _ _ _ H).
  unfold packet. rewrite Z2Nat.inj_add by lia. by rewrite take_take_drop.
Qed.

(** A call that fails has sent what was reported before. *)
Lemma fail_good s c p old code d pk du :
  s.(cur) = Some (c, p) -> call_ok s c p old -> s.(acked) = old -> code < 0 ->
  good s (Some (Some code, mk_sys d None s.(base) pk du s.(acked))).
Proof.
  intros Ec H Ha Hc. eexists _, _. split; [reflexivity|]. split; [intros c' p'; done|].
  intros code' c' p' [= <-] E. rewrite Ec in E. injection E as <- <-. right. split; [done|]. cbn [acked]. rewrite Ha, (co_old _ _ _ _ H).
  exists (drop (Z.to_nat (sent_size c)) (buff c)). rewrite take_drop. split; [|done]. intros E.
  apply (f_equal length) in E. rewrite length_drop in E. destruct (co_cur _ _ _ _ H). pose proof (co_sent _ _ _ _ H). cbn in E. lia.
Qed.

Lemma exit_spec c e d : e < 0 -> exists d', send_exit c e d = Some (Returns e, d').
Proof. intros He. eexists. unfold send_exit, bind, set_end_sign, set_lock, modify, ret. by rewrite (proj2 (Z.ltb_ge 0 e)) by lia. Qed.

(** ** Flags *)

Lemma take_socket c ok : 0 <= c.(device_socket) < 5 ->
  Z.land (SET_EVENT c.(device_socket) (bit ok)) (SOCKET_EVENT c) <> 0 /\
  Event.cleared (SET_EVENT c.(device_socket) (bit ok)) (SOCKET_EVENT c) = bit ok.
Proof.
  intros H. unfold SOCKET_EVENT. assert (device_socket c = 0 \/ device_socket c = 1 \/ device_socket c = 2 \/ device_socket c = 3 \/ device_socket c = 4) as Hc by lia.
  destruct Hc as [-> | [-> | [-> | [-> | ->]]]]; destruct ok; by vm_compute.
Qed.

Lemma take_result ok : Z.land (bit ok) RESULT_EVENT = bit ok /\ Event.cleared (bit ok) RESULT_EVENT = 0.
Proof. by destruct ok. Qed.

Lemma no_flags mask d : events d = 0 -> event_recv mask d = Some (None, d).
Proof. intros E. unfold event_recv, bind, gets. rewrite E, Z.land_0_l. done. Qed.

Lemma some_flags mask v rest d :
  Z.land (events d) mask = v -> v <> 0 -> Event.cleared (events d) mask = rest ->
  event_recv mask d = Some (Some v, mk_device rest d.(user_data) d.(end_sign) d.(locked) d.(wire)).
Proof.
  intros E1 E2 E3. unfold event_recv, bind, gets. cbv zeta. rewrite E1, (proj2 (Z.eqb_neq v 0)) by done.
  unfold put_events, modify. by rewrite E3.
Qed.

(** The parser's flags, when there were none. *)
Lemma urc_spec ok d : events d = 0 ->
  urc_send_func (report ok) d = Some (tt, mk_device (SET_EVENT d.(user_data) (bit ok)) d.(user_data) d.(end_sign) d.(locked) d.(wire)).
Proof. intros E. unfold urc_send_func, bind, gets. rewrite E. by destruct ok. Qed.

(** ** The steps *)

Lemma send_begin_good s resp_ok socket buffer k :
  enabled (ABegin resp_ok socket buffer) s -> undisturbed s (ABegin resp_ok socket buffer) k = true ->
  good s (send_step (ABegin resp_ok socket buffer) s).
Proof.
  intros (Hc & Hs & Hb) [Hd%bool_decide_eq_true_1 He%Z.eqb_eq]%andb_prop. cbn [send_step]. unfold esp8266_socket_send. rewrite (proj2 (Nat.eqb_neq (length buffer) 0)) by (by destruct buffer).
  destruct resp_ok; cbn [negb].
  - assert (0 < Z.of_nat (length buffer)) as Hl by (destruct buffer; [done|cbn; lia]).
    unfold bind, set_lock, set_user, set_end_sign, send_next, modify. cbn [sent_size buff]. rewrite (proj2 (Z.ltb_lt 0 _)) by done. cbv zeta.
    cbn [after emit bind modify ret device_socket buff sent_size result]. eexists _, _. split; [reflexivity|]. split; [|by intros code c p; rewrite Hc].
    intros c p [= <- <-]. exists []. split; cbn [device_socket dev user_data sent_size cur_pkt_size buff wire base pkts]; try done.
    destruct (Z.ltb_spec (Z.of_nat (length buffer) - 0) ESP8266_MODULE_SEND_MAX_SIZE); unfold ESP8266_MODULE_SEND_MAX_SIZE in *; lia.
  - eexists _, _. split; [reflexivity|]. split; [done|]. intros code c p. by rewrite Hc.
Qed.

Lemma send_answer_good s r n k :
  inv s -> enabled (AAnswer r n) s -> undisturbed s (AAnswer r n) k = true -> good s (send_step (AAnswer r n) s).
Proof.
  intros Hs (c & Ec & _) [_ Hn]%andb_prop. rewrite Ec in Hn. destruct (Hs c InCommand Ec) as (old & H). destruct (co_phase _ _ _ _ H) as (Ep & Ed & Ee & Ea).
  cbn [send_step]. rewrite Ec. unfold send_packet. destruct (r <? 0); cbn [orb] in *.
  - destruct (exit_spec c (- RT_ERROR) (dev s) ltac:(done)) as [d' ->]. cbn [after]. by apply (fail_good s c InCommand old).
  - destruct (Z.eqb_spec n 0) as [->|Hn0].
    + unfold bind, emit, modify. match goal with |- context [send_exit c (- RT_ERROR) ?d] => destruct (exit_spec c (- RT_ERROR) d ltac:(done)) as [d' ->] end.
      cbn [after]. by apply (fail_good s c InCommand old).
    + apply Z.eqb_eq in Hn as ->. unfold bind, emit, modify, ret. cbn [after]. fold (packet c (cur_pkt_size c)).
      eexists _, _. split; [reflexivity|]. split; [|done]. intros c' p' [= <- <-]. exists old. pose proof (packet_length _ _ _ _ H) as Hlen. destruct H as [H1 H2 H3 H4 H5 H6 H7 H8 H9].
      split; cbn [device_socket dev user_data sent_size cur_pkt_size buff wire base pkts result]; try done.
      * rewrite H7, decide_True, decide_False, app_nil_r by done. rewrite map_app, concat_app. cbn [map concat]. unfold framed at 3.
        rewrite Hlen, app_nil_r, <- !app_assoc. done.
      * intros _. by rewrite Ep.
      * left. cbn [due events dev acked]. by rewrite Ed.
Qed.

Lemma urc_some ok d : exists d', urc_send_func (report ok) d = Some (tt, d').
Proof.
  assert (AtClient.rt_strstr (report true) SEND_OK = Some true /\ AtClient.rt_strstr (report false) SEND_OK = Some false /\ AtClient.rt_strstr (report false) SEND_FAIL = Some true) as (E1 & E2 & E3) by done.
  unfold urc_send_func, bind, gets. destruct ok; rewrite ?E1, ?E2, ?E3; by eexists.
Qed.

Lemma send_urc_good s ok : inv s -> enabled (AUrc ok) s -> good s (send_step (AUrc ok) s).
Proof.
  intros Hs Hd. cbn [send_step enabled] in *. destruct (due s) as [|x rest] eqn:Ed; [done|].
  destruct (cur s) as [[c p]|] eqn:Ec.
  - destruct (Hs c p Ec) as (old & H). assert (x = packet c (cur_pkt_size c) /\ rest = [] /\ events (dev s) = 0 /\ acked s = old /\ (p = Written \/ p = WaitSocket)) as (-> & -> & Ee & Ea & Hp).
    { pose proof (co_phase _ _ _ _ H) as Hp. unfold phase_ok in Hp. rewrite Ed in Hp. destruct p; try done.
      - destruct Hp as (_ & ? & _). done.
      - destruct Hp as [([= -> ->] & ? & ?)|(b & ? & _)]; [|done]. by split_and!; [..|left].
      - destruct Hp as ([= -> ->] & ? & ?). by split_and!; [..|right].
      - destruct Hp as (b & ? & _). done.
      - destruct Hp as (b & _ & ? & _). done. }
    rewrite urc_spec by done. rewrite (co_user _ _ _ _ H).
    destruct H as [H1 H2 H3 H4 H5 H6 H7 H8 H9]. destruct (take_socket c ok H1) as [T1 T2]. rewrite Ea.
    destruct Hp as [-> | ->].
    + cbn [deliver]. eexists _, _. split; [reflexivity|]. split; [|done]. intros c' p' [= <- <-]. exists old. split; try done.
      right. by exists ok.
    + cbn [deliver]. unfold bind. rewrite (some_flags (SOCKET_EVENT c) (Z.land (SET_EVENT (device_socket c) (bit ok)) (SOCKET_EVENT c)) (bit ok)) by done. cbn [ret].
      eexists _, _. split; [reflexivity|]. split; [|done]. intros c' p' [= <- <-]. exists old. split; try done; [intros _; by apply H8|by exists ok].
  - destruct (urc_some ok (dev s)) as [d ->].
    eexists _, _. split; [reflexivity|]. split; [intros c p; done|done].
Qed.

Lemma send_timeout_good s : inv s -> enabled ATimeout s -> good s (send_step ATimeout s).
Proof.
  intros Hs (c & p & Ec & Hp). destruct (Hs c p Ec) as (old & H). pose proof (co_phase _ _ _ _ H) as Hph.
  cbn [send_step]. rewrite Ec. unfold send_timeout. destruct Hp as [-> | ->]; [|done]. destruct Hph as (_ & _ & Ea).
  destruct (exit_spec c (- RT_ETIMEOUT) (dev s) ltac:(done)) as [d' ->]. by apply (fail_good s c WaitSocket old).
Qed.

(** The result of a packet is there. *)
Lemma send_result_good s c v : inv s -> s.(cur) = Some (c, GotResult v) -> good s (send_step ARun s).
Proof.
  intros Hs Ec. destruct (Hs c _ Ec) as (old & H). destruct (co_phase _ _ _ _ H) as (ok & -> & Ed & Ee & Ea).
  cbn [send_step]. rewrite Ec. unfold send_result. destruct ok; cbv iota in Ea.
  - change (has (bit true) ESP8266_EVENT_SEND_FAIL) with false. cbv iota. pose proof (packet_next _ _ _ _ H) as Hnx. pose proof (packet_size _ _ _ _ H) as Hsz.
    destruct H as [H1 H2 H3 [H4 H4'] H5 H6 H7 H8 H9]. destruct (H8 ltac:(done)) as [Ek Er].
    unfold send_next. cbn [sent_size buff device_socket cur_pkt_size result]. cbv zeta.
    destruct (Z.ltb_spec (sent_size c + cur_pkt_size c) (Z.of_nat (length (buff c)))) as [Hlt|Hge].
    + unfold bind, emit, modify, ret. cbn [after]. eexists _, _. split; [reflexivity|]. split; [|done].
      intros c' p' [= <- <-]. exists (old ++ [packet c (cur_pkt_size c)]).
      split; cbn [device_socket dev user_data sent_size cur_pkt_size buff wire base pkts result]; try done.
      * lia.
      * destruct (Z.ltb_spec (Z.of_nat (length (buff c)) - (sent_size c + cur_pkt_size c)) ESP8266_MODULE_SEND_MAX_SIZE); unfold ESP8266_MODULE_SEND_MAX_SIZE in *; lia.
      * apply Forall_app. split; [done|]. by constructor.
      * rewrite H7, decide_False, decide_True, app_nil_r by done. by rewrite <- app_assoc.
    + unfold send_exit, bind, set_end_sign, set_lock, modify, ret. cbn [after sent_size result]. rewrite Er, (proj2 (Z.ltb_lt 0 _)) by done.
      eexists _, _. split; [reflexivity|]. split; [intros c' p'; done|]. intros code c' p' [= <-] E. rewrite Ec in E. injection E as <- <-.
      left. cbn [acked]. rewrite Ea, Hnx. split; [lia|]. apply take_ge. lia.
  - change (has (bit false) ESP8266_EVENT_SEND_FAIL) with true. cbv iota.
    destruct (exit_spec c (- RT_ERROR) (dev s) ltac:(done)) as [d' ->]. by apply (fail_good s c (GotResult (bit false)) old).
Qed.

Lemma send_run_good s : inv s -> enabled ARun s -> good s (send_step ARun s).
Proof.
  intros Hs (c & p & Ec & Hp). destruct (Hs c p Ec) as (old & H). pose proof (co_phase _ _ _ _ H) as Hph.
  destruct Hp as [-> | [-> | [v ->]]]; [| |by apply (send_result_good s c v)]; cbn [send_step]; rewrite Ec; destruct H as [H1 H2 H3 H4 H5 H6 H7 H8 H9].
  - unfold send_wait_socket, bind. destruct Hph as [(Ed & Ee & Ea)|(ok & Ed & Ee & Ea)].
    + rewrite no_flags by done. eexists _, _. split; [reflexivity|]. split; [|done]. intros c' p' [= <- <-]. exists old. split; try done. intros _. by apply H8.
    + destruct (take_socket c ok H1) as [T1 T2]. rewrite (some_flags (SOCKET_EVENT c) _ (bit ok) (dev s) eq_refl) by (by rewrite Ee).
      eexists _, _. split; [reflexivity|]. split; [|done]. intros c' p' [= <- <-]. exists old. split; try done; [intros _; by apply H8|by exists ok].
  - unfold send_wait_result, bind. destruct Hph as (ok & Ed & Ee & Ea). destruct (take_result ok) as [T1 T2].
    rewrite (some_flags RESULT_EVENT (bit ok) 0 (dev s)) by (rewrite ?Ee; by destruct ok).
    eexists _, _. split; [reflexivity|]. split; [|done]. intros c' p' [= <- <-]. exists old. split; try done; [intros _; by apply H8|by exists ok].
Qed.

Lemma send_step_good s a k :
  (k = true -> inv s) -> enabled a s -> undisturbed s a k = true -> good s (send_step a s).
Proof.
  intros Hs Ha Hk. destruct a.
  - by eapply send_begin_good.
  - eapply send_answer_good; [|done..]. apply Hs. by apply andb_prop in Hk as [? _].
  - apply send_run_good; auto.
  - apply send_urc_good; auto.
  - apply send_timeout_good; auto.
Qed.

(** *** Steps of disturbed calls *)

(** A call that returns has failed, or has counted all its bytes. *)
Definition code_ok (code : Z) (c : call) : Prop := code = Z.of_nat (length c.(buff)) \/ code < 0.

Definition returns (s : sys) (r : option (option Z * sys)) : Prop :=
  exists o s', r = Some (o, s') /\ any_ok s' /\
    forall code c p, o = Some code -> s.(cur) = Some (c, p) -> code_ok code c.

Lemma exit_returns s c e d base_ pkts_ due_ acked_ :
  e < 0 -> returns s (after (send_exit c e d) base_ pkts_ due_ acked_).
Proof.
  intros He. destruct (exit_spec c e d He) as [d' ->]. eexists _, _. split; [reflexivity|]. split; [intros c' p'; done|].
  intros code c' p' [= <-] _. by right.
Qed.

(** The call goes on with the same variables. *)
Lemma goes_returns s c p p' d base_ pkts_ due_ acked_ :
  any_ok s -> s.(cur) = Some (c, p) -> p <> InCommand ->
  returns s (Some (None, mk_sys d (Some (c, p')) base_ pkts_ due_ acked_)).
Proof.
  intros Hs Ec Hp. destruct (Hs c p Ec) as (H1 & H2 & H3). eexists _, _. split; [reflexivity|]. split; [|done].
  intros c' q [= <- <-]. split_and!; auto; lia.
Qed.

Lemma event_recv_some mask d : exists o d', event_recv mask d = Some (o, d').
Proof. unfold event_recv, bind, gets, put_events, modify, ret. cbv zeta. case_match; by eexists _, _. Qed.

Lemma next_returns s c p d base_ pkts_ due_ acked_ :
  any_ok s -> s.(cur) = Some (c, p) -> p <> InCommand ->
  returns s (after (send_next (mk_call c.(device_socket) c.(buff) (c.(sent_size) + c.(cur_pkt_size)) c.(cur_pkt_size) c.(result)) d)
               base_ pkts_ due_ acked_).
Proof.
  intros Hs Ec Hp. destruct (Hs c p Ec) as (H1 & H2 & H3). specialize (H3 Hp). unfold send_next. cbn [sent_size buff device_socket result]. cbv zeta.
  destruct (Z.ltb_spec (sent_size c + cur_pkt_size c) (Z.of_nat (length (buff c)))).
  - eexists _, _. split; [reflexivity|]. split; [|done]. intros c' q [= <- <-]. cbn [sent_size cur_pkt_size buff result].
    split_and!; [lia|case_match; unfold ESP8266_MODULE_SEND_MAX_SIZE in *; lia|case_match; unfold ESP8266_MODULE_SEND_MAX_SIZE in *; lia|done].
  - eexists _, _. split; [reflexivity|]. split; [intros c' q; done|]. intros code c' q [= <-] E. rewrite Ec in E. injection E as <- <-.
    left. cbn [result sent_size]. rewrite (proj2 (Z.ltb_lt 0 _)) by done. lia.
Qed.

Lemma step_returns s a : any_ok s -> enabled a s -> returns s (send_step a s).
Proof.
  intros Hs Ha. destruct a as [resp_ok socket buffer|r n| |ok|]; cbn [enabled] in Ha; cbn [send_step].
  - destruct Ha as (Hc & Hso & Hb). unfold esp8266_socket_send. rewrite (proj2 (Nat.eqb_neq (length buffer) 0)) by (by destruct buffer).
    destruct resp_ok; cbn [negb].
    + assert (0 < Z.of_nat (length buffer)) as Hl by (destruct buffer; [done|cbn; lia]).
      unfold bind, set_lock, set_user, set_end_sign, send_next, modify. cbn [sent_size buff]. rewrite (proj2 (Z.ltb_lt 0 _)) by done.
      eexists _, _. split; [reflexivity|]. split; [|by intros code c p; rewrite Hc].
      intros c p [= <- <-]. cbn [sent_size cur_pkt_size buff]. split_and!; [done|case_match; unfold ESP8266_MODULE_SEND_MAX_SIZE in *; lia..|done].
    + eexists _, _. split; [reflexivity|]. split; [done|]. intros code c p. by rewrite Hc.
  - destruct Ha as (c & Ec & Hn). rewrite Ec. destruct (Hs c _ Ec) as (H1 & H2 & _). unfold send_packet.
    destruct (r <? 0); [by apply exit_returns|]. unfold bind, emit, modify.
    destruct (Z.eqb_spec n 0); [by apply exit_returns|]. eexists _, _. split; [reflexivity|]. split; [|done].
    intros c' p' [= <- <-]. cbn [sent_size cur_pkt_size buff result]. split_and!; lia.
  - destruct Ha as (c & p & Ec & Hp). rewrite Ec. destruct Hp as [-> | [-> | [v ->]]].
    + unfold send_wait_socket, bind. destruct (event_recv_some (SOCKET_EVENT c) (dev s)) as (o & d' & ->). by eapply goes_returns.
    + unfold send_wait_result, bind. destruct (event_recv_some RESULT_EVENT (dev s)) as (o & d' & ->). by eapply goes_returns.
    + unfold send_result. case_match; [by apply exit_returns|]. by eapply next_returns.
  - destruct (due s) as [|x rest]; [done|]. destruct (urc_some ok (dev s)) as [d ->].
    destruct (cur s) as [[c p]|] eqn:Ec.
    + assert (forall p' d' ac, (p = InCommand -> p' = InCommand) ->
        returns s (Some (None, mk_sys d' (Some (c, p')) (base s) (pkts s) rest ac))) as Hgo.
      { intros p' d' ac Hp. destruct (Hs c p Ec) as (H1 & H2 & H3). eexists _, _. split; [reflexivity|]. split; [|done].
        intros c' q [= <- <-]. split_and!; [done|lia|lia|]. intros Hq. apply H3. auto. }
      destruct p; cbn [deliver]; unfold bind, ret; try (apply Hgo; done);
        match goal with |- context [event_recv ?m d] => destruct (event_recv_some m d) as (o & d' & ->) end; by apply Hgo.
    + eexists _, _. split; [reflexivity|]. split; [intros c p; done|done].
  - destruct Ha as (c & p & Ec & Hp). rewrite Ec. unfold send_timeout. destruct Hp as [-> | ->]; by apply exit_returns.
Qed.

Lemma send_reach_inv k s : reach k s -> any_ok s /\ (k = true -> inv s).
Proof.
  induction 1 as [k s Hc|k s a r s' _ [IH1 IH2] Ha E]; [split; intros; intros c p; by rewrite Hc|]. split.
  - destruct (step_returns s a IH1 Ha) as (o & s'' & E' & Hi & _). rewrite E in E'. by injection E' as <- <-.
  - intros Hk. destruct (send_step_good s a k IH2 Ha Hk) as (o & s'' & E' & Hi & _). rewrite E in E'. by injection E' as <- <-.
Qed.

(** C8: Sending is stop and wait.  With one call at a time, answers of the serial
    device and of the module (which reports only packets it has got) and timeouts
    in any order, every step returns, and a call returns the number of its bytes
    or a negative code.  For a call that begins while the module owes no report
    and no flag is left over, and whose packets the serial device takes as a whole
    or not at all: on the wire the call is the commands and packets of its data in
    order, of at most 2048 bytes each; a packet is written only when the module
    has reported all before it as sent; and the call returns the number of its
    bytes when the module has reported every packet as sent, and a negative code
    when it has reported a proper part of them.  (For other calls the number of
    bytes does not mean that: [late_report_confirms_next_send],
    [partial_write_is_success].) *)
Theorem sending_is_stop_and_wait k s :
  reach k s ->
  (forall a, enabled a s -> exists o s', send_step a s = Some (o, s') /\
     (forall code c p, o = Some code -> s.(cur) = Some (c, p) ->
        code_ok code c /\ (undisturbed s a k = true -> result_ok code c.(buff) s'.(acked)))) /\
  (forall c p, s.(cur) = Some (c, p) -> k = true ->
     (exists rest, c.(buff) = concat s.(pkts) ++ rest) /\ Forall size_ok s.(pkts) /\
     (s.(pkts) = s.(acked) \/ exists x, s.(pkts) = s.(acked) ++ [x]) /\ (p = InCommand -> s.(pkts) = s.(acked)) /\
     wire s.(dev) = s.(base) ++ concat (map (framed c.(device_socket)) s.(pkts)) ++
       (if decide (p = InCommand) then [CIPSEND c.(device_socket) c.(cur_pkt_size)] else [])).
Proof.
  intros Hr. apply send_reach_inv in Hr as [Hany Hs]. split.
  - intros a Ha. destruct (step_returns s a Hany Ha) as (o & s' & E & _ & Hok). exists o, s'. split; [done|].
    intros code c p Eo Ec. split; [by apply (Hok code c p)|]. intros Hk.
    destruct (send_step_good s a k Hs Ha Hk) as (o2 & s2 & E2 & _ & Hgood). rewrite E in E2. injection E2 as <- <-.
    by apply (Hgood code c p).
  - intros c p Ec Hk. specialize (Hs Hk). destruct (Hs c p Ec) as (old & H). pose proof (packet_next _ _ _ _ H) as Hnx. pose proof (packet_size _ _ _ _ H) as Hsz.
    pose proof (co_wire _ _ _ _ H) as Hw. destruct (decide (p = InCommand)) as [->|Hp].
    + destruct (co_phase _ _ _ _ H) as (E1 & E2 & E3 & E4). rewrite E1, E4 in *. split_and!; try done; [|apply H|by left].
      exists (drop (Z.to_nat (sent_size c)) (buff c)). by rewrite (co_old _ _ _ _ H), take_drop.
    + destruct (co_pkts _ _ _ _ H Hp) as [Epk _].
      assert (acked s = old \/ acked s = old ++ [packet c (cur_pkt_size c)]) as Ha.
      { pose proof (co_phase _ _ _ _ H) as Hph. destruct p; try done.
        - destruct Hph as [(_ & _ & ->)|(ok & _ & _ & ->)]; [by left|]. destruct ok; [by right|by left].
        - destruct Hph as (_ & _ & ->). by left.
        - destruct Hph as (ok & _ & _ & ->). destruct ok; [by right|by left].
        - destruct Hph as (ok & _ & _ & _ & ->). destruct ok; [by right|by left]. }
      split_and!; try done.
      * eexists. rewrite Epk, Hnx. symmetry. apply take_drop.
      * rewrite Epk. apply Forall_app. split; [apply H|by constructor].
      * rewrite Epk. destruct Ha as [-> | ->]; [right; by eexists|by left].
Qed.

(** ** Runs *)

Definition quiet : sys := mk_sys (mk_device 0 0 0 false []) None [] [] [] [].

Fixpoint run_all (l : list action) (s : sys) : option (list (option Z) * sys) :=
  match l with
  | [] => Some ([], s)
  | a :: l =>
      match send_step a s with
      | Some (x, s) => match run_all l s with Some (xs, s) => Some (x :: xs, s) | None => None end
      | None => None
      end
  end.

Fixpoint run_ok (l : list action) (k : bool) (s : sys) : Prop :=
  match l with
  | [] => k = true
  | a :: l => enabled a s /\ match send_step a s with Some (_, s') => run_ok l (undisturbed s a k) s' | None => True end
  end.

Lemma send_reach_run l : forall k s xs s', reach k s -> run_ok l k s -> run_all l s = Some (xs, s') -> reach true s'.
Proof.
  induction l as [|a l IH]; intros k s xs s' Hr Hok E; cbn [run_all] in E; [injection E as <- <-; by rewrite <- Hok|].
  destruct Hok as [Ha Hok]. destruct (send_step a s) as [[x s1]|] eqn:Es; [|done].
  destruct (run_all l s1) as [[ys s2]|] eqn:El; [|done]. injection E as <- <-.
  apply (IH (undisturbed s a k) s1 ys s2); [|done|done]. by apply (reach_step k s a x).
Qed.

(** Two packets, of which the second one is reported before the sender looks. *)
Definition demo_run : list action :=
  [ABegin true 2 (replicate 2050 7); AAnswer 0 2048; ARun; AUrc true; ARun; ARun; AAnswer 0 2; AUrc true; ARun; ARun].

Lemma sending_is_stop_and_wait_witness :
  exists l s o s', run_all demo_run quiet = Some (l, s) /\ send_step ARun s = Some (o, s') /\ o = Some 2050 /\
    result_ok 2050 (replicate 2050 7) s'.(acked).
Proof.
  destruct (run_all demo_run quiet) as [[l s]|] eqn:E; [|by vm_compute in E].
  assert (reach true s) as Hr.
  { apply (send_reach_run demo_run true quiet l s); [exact (reach_start true quiet eq_refl)| |exact E].
    clear. vm_compute. repeat split; try done; eexists; first [by split | eexists; split; [reflexivity|]; first [by left | right; by left | right; right; by eexists]]. }
  assert (exists c v, s.(cur) = Some (c, GotResult v) /\ c.(buff) = replicate 2050 7) as (c & v & Ec & Eb)
    by (vm_compute in E; injection E as <- <-; by eexists _, _).
  destruct (proj1 (sending_is_stop_and_wait true s Hr) ARun) as (o & s' & Es & Hok); [exists c, (GotResult v); split; [done|]; right; right; by exists v|].
  assert (o = Some 2050) as -> by (vm_compute in E; injection E as <- <-; vm_compute in Es; by injection Es as <- <-).
  exists l, s, (Some 2050), s'. split; [done|]. split; [done|]. split; [done|]. rewrite <- Eb. by apply (proj2 (Hok 2050 c (GotResult v) eq_refl Ec)).
Defined.

(** A report that comes after the sender has given up is taken for the one of
    the next call, which returns success although its data were not reported. *)
Theorem late_report_confirms_next_send :
  exists l s, run_all [ABegin true 0 [1; 2]; AAnswer 0 2; ARun; ATimeout; AUrc true; ABegin true 0 [3; 4; 5]; AAnswer 0 3; ARun; ARun; ARun] quiet
    = Some (l, s) /\ last l = Some (Some 3) /\ s.(acked) = [] /\ s.(due) = [[3; 4; 5]].
Proof.
  destruct (run_all _ quiet) as [[l s]|] eqn:E; [|by vm_compute in E].
  exists l, s. split; [done|]. vm_compute in E. by injection E as <- <-.
Qed.

(** When the serial device takes a part of a packet, the rest is dropped and the
    call returns the full number of bytes. *)
Theorem partial_write_is_success :
  exists l s, run_all [ABegin true 0 [1; 2; 3; 4]; AAnswer 0 1; ARun; AUrc true; ARun; ARun] quiet = Some (l, s) /\
    last l = Some (Some 4) /\ s.(acked) = [[1]].
Proof.
  destruct (run_all _ quiet) as [[l s]|] eqn:E; [|by vm_compute in E].
  exists l, s. split; [done|]. vm_compute in E. by injection E as <- <-.
Qed.

End AtSendSystem.
