(* ===== verification/AtAddr.v ===== *)
(** * Addresses

    The conversions of addresses and names in src/rt-thread/components/net/at/
    at_socket/at_socket.c: the text of an IP address for the module's commands, the
    address of a text, the port in network order, and [at_gethostbyname].  A text
    is the list of its characters without the terminating NUL. *)

From Stdlib Require Import ZArith Lia.
From stdpp Require Import prelude list.
From S2P Require Import Prelude AtSocket.
Import AtSocket.
Open Scope Z_scope.
Open Scope c_scope.

Module AtAddr.

(** ** The conversions *)

(** HTONS_PORT of a port. *)
Definition HTONS_PORT (x : Z) : Z := u16 (Z.lor (Z.shiftl (Z.land x 0x00ff) 8) (Z.shiftr (Z.land x 0xff00) 8)).

(** [%u] for a byte. *)
Definition print_byte (b : Z) : list Z :=
  if b <? 10 then [48 + b]
  else if b <? 100 then [48 + b / 10; 48 + b mod 10]
  else [48 + b / 100; 48 + b / 10 mod 10; 48 + b mod 10].

(** Byte [i] of an address as it is in memory (NIPQUAD). *)
Definition quad (addr : Z) (i : Z) : Z := Z.land (Z.shiftr addr (8 * i)) 255.

(** [rt_snprintf] with [%u.%u.%u.%u] and a size of 16. *)
Definition ipaddr_to_ipstr (addr : Z) : list Z :=
  take 15 (print_byte (quad addr 0) ++ [46] ++ print_byte (quad addr 1) ++ [46] ++
           print_byte (quad addr 2) ++ [46] ++ print_byte (quad addr 3)).

Fixpoint digits (total : Z) (l : list Z) : Z :=
  match l with
  | c :: r => if is_digit c then digits (u32 (10 * total + (c - 48))) r else total
  | [] => total
  end.

Definition ipstr_atol (nptr : list Z) : Z :=
  match skip_spaces nptr with
  | 45 :: r => u32 (- digits 0 r)
  | 43 :: r => digits 0 r
  | l => digits 0 l
  end.

(** [strchr] for a dot. *)
Fixpoint find_dot (l : list Z) : option (list Z) :=
  match l with
  | [] => None
  | c :: r => if c =? 46 then Some l else find_dot r
  end.

(** The loop of [ipstr_to_u32], with [more] bytes to go: the bytes it has set,
    the others are 0. *)
Fixpoint ip_bytes (more : nat) (ipstr : list Z) : list Z :=
  match more with
  | O => []
  | S more =>
      u8 (ipstr_atol ipstr) ::
      match find_dot ipstr with
      | None => replicate more 0
      | Some l => ip_bytes more (tail l)
      end
  end.

Definition ipstr_to_u32 (ipstr : list Z) : Z :=
  let l := ip_bytes 4 ipstr in
  at_ l 0 + 2 ^ 8 * at_ l 1 + 2 ^ 16 * at_ l 2 + 2 ^ 24 * at_ l 3.

Definition is_alpha (c : Z) : bool := ((65 <=? c) && (c <=? 90)) || ((97 <=? c) && (c <=? 122)).

(** The address that [at_gethostbyname] finds: [None] where the copy overruns
    [ipstr] or leaves it without an end, [Some None] for NULL.  [resolve]: the
    module's [at_domain_resolve]. *)
Definition at_gethostbyname (device_ok : bool) (resolve : list Z -> option (list Z)) (name : list Z) : option (option Z) :=
  if negb device_ok then Some None
  else if existsb is_alpha name then
    match resolve name with
    | None => Some None
    | Some ip => Some (Some (ipstr_to_u32 ip))
    end
  else if (length name <=? 15)%nat then Some (Some (ipstr_to_u32 name))
  else None.

(** ** Round trips *)

Lemma quad_range addr i : 0 <= quad addr i < 256.
Proof. unfold quad. change 255 with (Z.ones 8). rewrite Z.land_ones by lia. apply Z.mod_pos_bound. lia. Qed.

(** A byte in decimal reads back, whatever follows that is no digit. *)
Definition stops (r : list Z) : Prop := match r with c :: _ => is_digit c = false | [] => True end.

Lemma digits_stop n r : stops r -> digits n r = n.
Proof. destruct r as [|c r]; [done|]. cbn. by intros ->. Qed.

Lemma digits_print b r : 0 <= b < 256 -> stops r -> digits 0 (print_byte b ++ r) = b.
Proof.
  intros Hb Hr.
  assert (forall d n l, 0 <= d < 10 -> 0 <= n < 1000 -> digits n (48 + d :: l) = digits (10 * n + d) l) as Hd.
  { intros d n l Hd Hn. cbn [digits]. unfold is_digit. replace ((48 <=? 48 + d) && (48 + d <=? 57)) with true by lia.
    rewrite u32_small by lia. f_equal. lia. }
  unfold print_byte. destruct (Z.ltb_spec b 10) as [H1|H1]; [|destruct (Z.ltb_spec b 100) as [H2|H2]]; cbn [app].
  - rewrite Hd by lia. by rewrite digits_stop by done.
  - pose proof (Z.mod_pos_bound b 10). pose proof (Z.div_mod b 10). assert (0 <= b / 10 < 10) by (split; [apply Z.div_pos; lia|apply Z.div_lt_upper_bound; lia]).
    rewrite !Hd by lia. rewrite digits_stop by done. lia.
  - pose proof (Z.mod_pos_bound b 10). pose proof (Z.div_mod b 10). pose proof (Z.mod_pos_bound (b / 10) 10). pose proof (Z.div_mod (b / 10) 10).
    assert (b / 100 = b / 10 / 10) as E by (rewrite Z.div_div; [done|lia|lia]).
    assert (0 <= b / 100 < 10) by (split; [apply Z.div_pos; lia|apply Z.div_lt_upper_bound; lia]).
    rewrite !Hd by lia. rewrite digits_stop by done. lia.
Qed.

(** The text of a byte begins with a digit and has no dot. *)
Lemma print_shape b : 0 <= b < 256 ->
  exists c r, print_byte b = c :: r /\ is_digit c = true /\ Forall (fun x => is_digit x = true) r /\ (length r <= 2)%nat.
Proof.
  intros Hb. pose proof (Z.mod_pos_bound b 10). pose proof (Z.mod_pos_bound (b / 10) 10). unfold print_byte, is_digit.
  destruct (Z.ltb_spec b 10) as [H1|H1]; [|destruct (Z.ltb_spec b 100) as [H2|H2]].
  - exists (48 + b), []. split_and!; [done|lia|done|cbn; lia].
  - assert (0 <= b / 10 < 10) by (split; [apply Z.div_pos; lia|apply Z.div_lt_upper_bound; lia]).
    exists (48 + b / 10), [48 + b mod 10]. split_and!; [done|lia| |cbn; lia]. repeat constructor; lia.
  - assert (0 <= b / 100 < 10) by (split; [apply Z.div_pos; lia|apply Z.div_lt_upper_bound; lia]).
    exists (48 + b / 100), [48 + b / 10 mod 10; 48 + b mod 10]. split_and!; [done|lia| |cbn; lia]. repeat constructor; lia.
Qed.

Lemma atol_print b r : 0 <= b < 256 -> stops r -> ipstr_atol (print_byte b ++ r) = b.
Proof.
  intros Hb Hr. pose proof (digits_print b r Hb Hr) as Hd. destruct (print_shape b Hb) as (c & l & E & Hc & _ & _). rewrite E in *.
  unfold ipstr_atol. cbn [app skip_spaces] in *. unfold is_digit in Hc. unfold is_space. replace ((c =? 32) || ((9 <=? c) && (c <=? 13))) with false by lia.
  destruct c as [|q|q]; [done| |done]. do 6 (destruct q as [q|q|]; try done; try (exfalso; lia)).
Qed.

Lemma dot_print b r : 0 <= b < 256 -> find_dot (print_byte b ++ 46 :: r) = Some (46 :: r).
Proof.
  intros Hb. destruct (print_shape b Hb) as (c & l & -> & Hc & Hl & _). assert (Forall (fun x => is_digit x = true) (c :: l)) as Ha by (by constructor).
  clear Hc Hl. induction Ha as [|x l' Hx _ IH]; [done|]. cbn [app find_dot]. unfold is_digit in Hx. replace (x =? 46) with false by lia. exact IH.
Qed.

Lemma dot_none b : 0 <= b < 256 -> find_dot (print_byte b) = None.
Proof.
  intros Hb. destruct (print_shape b Hb) as (c & l & -> & Hc & Hl & _). assert (Forall (fun x => is_digit x = true) (c :: l)) as Ha by (by constructor).
  clear Hc Hl. induction Ha as [|x l' Hx _ IH]; [done|]. cbn [find_dot]. unfold is_digit in Hx. replace (x =? 46) with false by lia. exact IH.
Qed.

(** The address of the text of an address is the address. *)
Theorem ip_text_roundtrip addr : 0 <= addr < 2 ^ 32 -> ipstr_to_u32 (ipaddr_to_ipstr addr) = addr.
Proof.
  intros Ha. unfold ipaddr_to_ipstr. pose proof (quad_range addr 0) as R0. pose proof (quad_range addr 1) as R1.
  pose proof (quad_range addr 2) as R2. pose proof (quad_range addr 3) as R3.
  rewrite take_ge.
  2: { destruct (print_shape _ R0) as (? & ? & -> & _ & _ & ?), (print_shape _ R1) as (? & ? & -> & _ & _ & ?),
         (print_shape _ R2) as (? & ? & -> & _ & _ & ?), (print_shape _ R3) as (? & ? & -> & _ & _ & ?). repeat (rewrite length_app || cbn [length]). lia. }
  unfold ipstr_to_u32. cbn [app ip_bytes]. rewrite !atol_print, !dot_print by done. cbn [tail]. rewrite !atol_print, !dot_print by done. cbn [tail].
  rewrite !atol_print, !dot_print by done. cbn [tail]. rewrite !(dot_none _ R3).
  rewrite <- (app_nil_r (print_byte (quad addr 3))), atol_print by done. rewrite !u8_small by done. cbn [at_ nth].
  unfold quad. change 255 with (Z.ones 8). rewrite !Z.land_ones, !Z.shiftr_div_pow2 by lia. cbn [Z.mul Z.pow Z.pow_pos Pos.iter Pos.mul].
  change (2 ^ (8 * 0)) with 1. change (2 ^ (8 * 1)) with 256. change (2 ^ (8 * 2)) with 65536. change (2 ^ (8 * 3)) with 16777216. change (2 ^ 8) with 256 in *.
  rewrite Z.div_1_r. Z.to_euclidean_division_equations. lia.
Qed.

(** The port is the same after going to network order and back. *)
Lemma port_roundtrip x : 0 <= x < 65536 -> HTONS_PORT (HTONS_PORT x) = x.
Proof.
  intros Hx. assert (forall y, 0 <= y < 65536 -> HTONS_PORT y = 256 * (y mod 256) + y / 256) as E.
  { intros y Hy. assert (0 <= y / 256 < 256) by (split; [apply Z.div_pos; lia|apply Z.div_lt_upper_bound; lia]).
    pose proof (Z.mod_pos_bound y 256). unfold HTONS_PORT. change 0x00ff with (Z.ones 8). change 0xff00 with (Z.shiftl (Z.ones 8) 8).
    rewrite Z.shiftr_land, Z.shiftr_shiftl_l by lia. change (8 - 8) with 0. rewrite Z.shiftl_0_r, !Z.land_ones, Z.shiftr_div_pow2 by lia.
    change (2 ^ 8) with 256. rewrite (Z.mod_small (y / 256)) by lia. fold (be16 (y mod 256) (y / 256)). rewrite be16_add by lia.
    unfold u16. rewrite Z.mod_small; lia. }
  rewrite (E x) by done. assert (0 <= x / 256 < 256) by (split; [apply Z.div_pos; lia|apply Z.div_lt_upper_bound; lia]).
  pose proof (Z.mod_pos_bound x 256). rewrite E by lia. pose proof (Z.div_mod x 256).
  assert ((256 * (x mod 256) + x / 256) mod 256 = x / 256) as -> by (rewrite Z.add_comm, (Z.mul_comm 256), Z.mod_add by lia; apply Z.mod_small; lia).
  assert ((256 * (x mod 256) + x / 256) / 256 = x mod 256) as -> by (rewrite Z.add_comm, (Z.mul_comm 256), Z.div_add by lia; rewrite Z.div_small; lia).
  lia.
Qed.

End AtAddr.
